(* ===== verification/_CoqProject ===== *)
-Q . S2P
Prelude.v
PyData.v
Json.v
Ipaddress.v
JsonText.v
Notices.v
Rns.v
RnsModel.v
Ack.v
DeviceProof.v
AckSize.v
Registry.v
Referrals.v
PaidBeta.v
Support.v
TransportPolicy.v
ProfileConfig.v
ProfileSpec.v
PaidEvents.v
RegistrySpec.v
FriendsInv.v
FriendsOps.v
PaidOps.v
FriendsRuns.v
FriendsSafety.v
PaidSafety.v
TransportSpec.v
Gateway.v
GatewaySpec.v
GatewayExamples.v
Admission.v
Journal.v
JournalSpec.v
JournalRuns.v
JournalSafety.v
JournalRecovery.v
JournalExamples.v
Configuration.v
ConfigurationSpec.v
ConfigurationSafety.v
ConfigurationExamples.v
Fleet.v
FleetStore.v
FleetGateway.v
FleetSpec.v
FleetFence.v
FleetExamples.v
FriendsCatalog.v
GatewayRouting.v
GatewayRoutingSpec.v
GatewayRoutingSafety.v
GatewayRoutingExamples.v
Provisioning.v
ProvisioningSpec.v
ProvisioningExamples.v
Codec.v
CodecOgg.v
CodecMessage.v
Relay.v
RelaySpec.v
ChatAccess.v
ChatAccessSpec.v
ChatAccessExamples.v
Subscription.v
Store.v
StoreInv.v
StoreDelivery.v
StoreReceive.v
StoreView.v
StoreExamples.v
Chat.v
ChatSpec.v
Mailbox.v
MailboxSpec.v
MailboxExamples.v
Controller.v
ControllerSpec.v
Local.v
LocalSpec.v
LocalExamples.v
