(* ===== verification/Prelude.v ===== *)
(** * Family Connect: a verification library

    Family Connect is a private network for invited devices: a registry that
    enrols devices and keeps what they have paid for, transport nodes that admit
    them, a control channel that delivers signed configurations to them, and a
    messenger between them over a store-and-forward relay.  This library models
    the Python code of these parts as executable definitions and proves what
    makes them correct.

    ** The parts and how they interact

    Enrolment (control/friends/, device_identity/).  A device proves both of its
    keys for a challenge ([DeviceProof]); the registry ([Registry], [Referrals],
    [Support], [PaidBeta], [PaidEvents]) is one record of tables, each operation
    a transaction on it.  Its state is [registry]; [FriendsRuns] runs any
    sequence of [friends_op] from an empty one.

    Transport nodes.  [TransportPolicy] is the snapshot of decisions the registry
    publishes and the succession rule between them; [Gateway] is the decision
    cache of a node ([node_state]) and a round in which the node
    brings its two engines to the cache and reads them back ([machine]: the
    clients file, the commands run and what they answer).

    Gateways.  [FriendsCatalog] reads and verifies the signed catalog of gateways
    and the device's reply with it (provisioning/friends_catalog.py);
    [GatewayRouting] is the registry's choice of a catalog for each device
    (gateway_routing.py) and of a node by name (gateway_selection.py), with the
    policy directory as a value that the operator's files make up.  [routed] is
    the registry with the routing tables, [routing_event] a request, a question
    or a change of the registry.

    Fleet (control/fleet*.py, provisioning/fleet.py).  [Fleet] is the operator's
    registry of gateways, the succession between registries and the ranking of
    gateways; [FleetStore] the controller's database of access grants, leases,
    claims of work and published configurations ([fleet_db]), with the
    reservation by proof and the publisher; [FleetGateway] the side of the
    gateways: commands about one peer, the journal that fences them ([fence]),
    the WireGuard engine behind it, and the worker and the scheduler that bring
    leases to gateways ([fleet_world]: the store and the gateways' journals, a
    script saying which calls and answers are lost).  What is published is read
    by the verifier of [Configuration].

    Chat identities.  [ChatAccess] binds one chat key to a device and publishes
    the members ([chat_db]: the registry with the chat tables); the mailbox relay
    ([Relay]) takes them as its lease.

    Control channel (provisioning/).  [ProfileConfig] is the strict profile
    parser of clients/desktop/profile_config.py, [Configuration] the signed
    configuration, its issuer and its verifier, [Journal] the write-ahead journal
    that applies it, [Ack] the receipts it sends back.  A [world] is the
    journal's directory, the application, the clock and the faults to come.
    [Provisioning] is the version 1 network state with its envelope and its
    cache ([cache_dir]).

    Messenger (messenger/).  [Codec] packs and unpacks signed messages; [Store]
    is the account's database ([store]); [Chat] sends and receives over both;
    [Mailbox] exchanges with the relay over several routes; [Controller] is the
    background worker; [Local] the interface of the native application, with all
    of it as one state ([local]).  [Notices] and [Subscription] are the service
    notices and the subscription conversation; [Admission] the signed admission
    of a chat key.

    ** Shared layers

    [Prelude]: exceptions, the [result] monad of fallible code, the state monad
    [M] whose failures keep what was committed, transactions, ordered
    dictionaries, tactics.  [PyData]: dynamic values, text and octets, base64,
    hexadecimal, UTF-8, floats.  [Json], [JsonText]: the JSON reader
    and printers with their round trips.  [Ipaddress]: addresses, networks and
    [int] of a text.  [Rns]: the interface to the Reticulum libraries, with
    [RnsModel] as a concrete instance for the examples.

    ** Conventions

    A definition carries the name of the function it models; where two modules
    share a name the file keeps them apart.  Dynamic values are [pyval] until the
    code has tested their type.  Exceptions are values of [exn]; [Raise] keeps
    their class, and their text where callers look at it.  A method is a function
    of its state; environments (clocks, random octets, the carrier, subprocesses,
    disk faults) are arguments or scripts consumed in order, so that a theorem
    over all of them covers every behaviour.  Clock readings of the messenger,
    the relay and the nodes are exact integers in nanoseconds ([SECOND] of them
    to a second); registry, fleet, journal and configuration times are integer
    seconds.
    Integers are unbounded, as in Python; the 64-bit limits of stored values are
    conditions of the code or hypotheses of the theorem.

    Loops have fuel only where recursion is not structural, and the fuel is
    bounded below by the length of what each turn consumes: the JSON reader, Ogg
    pages, signature packets, text replacement.  [loop_fuel] shows that such a loop ends before
    its fuel does.

    Third-party code is a parameter: [Rns] and [Lxmf] (Reticulum), [Ed25519]
    (cryptography), [Pydantic] (its JSON reader and writer), the float printer.
    The fleet adds its writers of models ([FleetJson], [ReservationJson]), the
    logarithm ([LibM]), what a gateway asks of its engines ([PeerBackend], which
    [wg_backends] implements) and the wg tool under it ([WgTool]).
    What is assumed of it is a class of laws next to it ([RnsLaws],
    [Ed25519Laws], [PydanticLaws], [FleetJsonLaws], [PeerBackendLaws],
    [WgLaws]), and every such class has a concrete
    instance ([RnsModel], the examples files), where each theorem with hypotheses
    is applied to a run.

    ** What the theorems show

    Messenger.  Over any interleaving of two accounts and everybody else, a
    message shown as stored by the other is in the other's history as it was
    queued, and nothing the other holds is made up; undisturbed, a message
    arrives and its receipt settles it ([ChatSpec]); retries repeat the same
    octets, attempts finish once, history only grows ([StoreDelivery]); what is
    shown is the newest edit ([StoreView]); unpacking is authentic and inverts
    packing ([CodecMessage]); the relay keeps its quotas, serves nothing that has
    expired, isolates its mailboxes, limits its senders and fails closed
    ([RelaySpec]); an exchange purges exactly the mail the chat took in, and only
    after that ([MailboxSpec]); the worker's close is final ([ControllerSpec]); a
    call of the local interface changes no message and adds at most the one it
    asks for, admissible ([LocalSpec]).

    Registry.  One invitation enrols one device, challenges are answered once and
    authentically ([FriendsSafety]); a subscription is the replay of its events
    and paid access is never shortened ([PaidSafety]); chat identities are final,
    and the relay's members are exactly the devices in force ([ChatAccessSpec]).

    Nodes.  Snapshots validate and follow one another ([TransportSpec]); a node
    accepts every one of them, admits no paying device beyond a lease, and a
    converged round ends with listings of its engines that show every device of
    the cache as it says ([GatewaySpec]).

    Gateways.  Assignments are sticky: a device is answered with a signed
    catalog, which only a recorded request of the operator changes, and forward;
    a request is carried out once; a node named by a device is answered with the
    newest signed selection ([GatewayRoutingSafety]).  The runs take the
    directory's files as never rewritten: a name stands for one content.

    Control.  The journal is a write-ahead log whose commits form a chain
    ([JournalSafety]) and whose recovery rolls back ([JournalRecovery]); a
    verified configuration is authentic, an issued one verifies, and the journal
    acts on no other ([ConfigurationSafety]); the canonical text of a profile
    within the size limit reads back ([ProfileSpec]); the version 1 cache never loses or weakens what it
    accepted ([ProvisioningSpec]); device proofs round trip ([DeviceProof]).

    Fleet.  Over every run of the store live leases never share an address, a
    gateway of their device or a scope, a revocation retires a lease for good, a
    reservation is one lease however often it is repeated, and what is served is
    what the device's verifier accepts ([FleetSpec]).  Over every run of the
    fleet, with commands late, repeated, lost or half done and engines that
    restart, a live peer is the one of a lease that is not released, and the
    worker, the scheduler and the recovery are such runs ([FleetFence]: the step
    relation [sys_step], its invariant [sys_ok]).  The WireGuard engine meets the
    laws the gateway relies on ([wg_backends_laws]).

    Files named Spec, Inv, Ops, Runs and Protocol hold the invariants and lemmas
    these theorems use, the Examples files their concrete runs.

    ** Not modelled

    The desktop, Linux and Android applications, build, acceptance and rollout
    tooling (that of the fleet included), the connection between controller and
    gateways, the Django console and the renewal campaigns around the registry:
    user interfaces, subprocess supervision and file plumbing.  Of the modelled
    modules: opening and migrating database files, file permissions and locks,
    sockets and threads (a thread's steps appear as transitions), the sealing of
    the store's rows, and the recursion limit of the JSON reader.  The messenger's
    store never fails of itself: an error of sqlite, or a row that does not
    decrypt, has no path in [Store], so no theorem speaks of what a caller of
    [Local] sees then.  SQLite is
    modelled as tables with the constraints the schema declares; concurrent
    transactions are serialized, as its locks do. *)
From Stdlib Require Import ZArith Lia.
From stdpp Require Export base tactics list option strings numbers gmap.

Declare Scope py_scope.
Delimit Scope py_scope with py.

(** ** Exceptions *)

(** The exception classes the modelled modules raise or catch.  A class that
    carries a reason the callers inspect keeps it. *)
Inductive exn : Type :=
  | ValueError (msg : string)
  | TypeError
  | KeyError
  | IndexError
  | AttributeError
  | StopIteration
  | RuntimeError (msg : string)
  | OSError
  | SubprocessError
  | MailboxError (code : string)
  | LocalError (code : string)
  | SpoolFull
  | PaidBetaError (reason : string)
  | EnrollmentRejected
  | ReferralExhausted
  | ReferralRateLimited
  | SubscriptionUnsupported
  | SubscriptionUnavailable
  | ProvisioningRejected (msg : string)
  | ConfigError (category : string)
  | LeaseRejected (code : string)
  | FenceRejected (code : string)
  | SqliteError.

#[export] Instance exn_eq_dec : EqDecision exn.
Proof. solve_decision. Defined.

(** [except ValueError]: the class and its subclasses. *)
Definition is_ValueError (e : exn) : bool :=
  match e with
  | ValueError _ | PaidBetaError _ | EnrollmentRejected | ReferralExhausted | ReferralRateLimited
  | ProvisioningRejected _ | ConfigError _ | LeaseRejected _ | FenceRejected _ => true
  | _ => false
  end.

(** ** Fallible pure code *)

Inductive result (A : Type) : Type :=
  | Ok (a : A)
  | Raise (e : exn).
Arguments Ok {A} a.
Arguments Raise {A} e.

#[export] Instance result_ret : MRet result := λ A a, Ok a.
#[export] Instance result_bind : MBind result := λ A B f m,
  match m with Ok a => f a | Raise e => Raise e end.
#[export] Instance result_fmap : FMap result := λ A B f m,
  match m with Ok a => Ok (f a) | Raise e => Raise e end.

#[export] Instance result_eq_dec {A} `{EqDecision A} : EqDecision (result A).
Proof. solve_decision. Defined.

Definition is_ok {A} (r : result A) : bool :=
  match r with Ok _ => true | Raise _ => false end.

(** [if not b: raise e] *)
Definition require (b : bool) (e : exn) : result () :=
  if b then Ok () else Raise e.

(** [if b: raise e] *)
Definition raise_if (b : bool) (e : exn) : result () := require (negb b) e.

Definition of_option {A} (e : exn) (o : option A) : result A :=
  match o with Some a => Ok a | None => Raise e end.

(** [try: m except ...: h e], the handler deciding for every exception. *)
Definition try_with {A} (m : result A) (h : exn → result A) : result A :=
  match m with Ok a => Ok a | Raise e => h e end.

Fixpoint mapR {A B} (f : A → result B) (l : list A) : result (list B) :=
  match l with
  | [] => Ok []
  | x :: l => y ← f x; ys ← mapR f l; Ok (y :: ys)
  end.

(** [for x in l: s = f s x] where the body may raise. *)
Fixpoint foldR {A S} (f : S → A → result S) (s : S) (l : list A) : result S :=
  match l with
  | [] => Ok s
  | x :: l => s' ← f s x; foldR f s' l
  end.

(** [while True: ...] with a body that either continues with new loop
    variables or leaves with a value.  Every use comes with a bound on the
    number of iterations ([loop_fuel] below), so running out is unreachable. *)
Definition OutOfFuel : exn := RuntimeError "out of fuel".

Fixpoint loop {S A} (fuel : nat) (body : S → result (S + A)) (s : S) : result A :=
  match fuel with
  | O => Raise OutOfFuel
  | S fuel =>
      r ← body s;
      match r with
      | inl s' => loop fuel body s'
      | inr a => Ok a
      end
  end.

(** ** Stateful code *)

(** A method runs from a state to an outcome and the state it leaves, also
    when it raises: what a failed call has already committed stays. *)
Definition M (S A : Type) : Type := S → result A * S.

#[export] Instance M_ret {S} : MRet (M S) := λ A a s, (Ok a, s).
#[export] Instance M_bind {S} : MBind (M S) := λ A B f m s,
  match m s with
  | (Ok a, s') => f a s'
  | (Raise e, s') => (Raise e, s')
  end.

#[export] Instance M_fmap {S} : FMap (M S) := λ A B f m s, let '(r, s') := m s in (f <$> r, s').

Definition get_state {S} : M S S := λ s, (Ok s, s).
Definition put_state {S} (s : S) : M S () := λ _, (Ok (), s).
Definition modify {S} (f : S → S) : M S () := λ s, (Ok (), f s).
Definition lift {S A} (r : result A) : M S A := λ s, (r, s).
Definition raise {S A} (e : exn) : M S A := λ s, (Raise e, s).

(** [with db:] commits when the block returns and rolls back when it raises. *)
Definition transaction {S A} (m : M S A) : M S A := λ s,
  match m s with
  | (Ok a, s') => (Ok a, s')
  | (Raise e, _) => (Raise e, s)
  end.

(** [try: m except ...: h e] on stateful code: the handler runs in the state
    the failed block left. *)
Definition tryM {S A} (m : M S A) (h : exn → M S A) : M S A := λ s,
  match m s with
  | (Ok a, s') => (Ok a, s')
  | (Raise e, s') => h e s'
  end.

Fixpoint iterM {S A} (f : A → M S ()) (l : list A) : M S () :=
  match l with
  | [] => mret ()
  | x :: l => f x ;; iterM f l
  end.

(** ** Ordered dictionaries *)

(** A Python dict, a JSON object and an SQLite table whose upsert keeps the
    rowid share one shape: an association list in insertion order, where
    setting a present key changes the value in place. *)
Section odict.
Context {K V : Type} `{EqDecision K}.
Implicit Types (k : K) (v : V) (d : list (K * V)).

Fixpoint dget k d : option V :=
  match d with
  | [] => None
  | (k', v) :: d => if decide (k = k') then Some v else dget k d
  end.

Fixpoint dset k v d : list (K * V) :=
  match d with
  | [] => [(k, v)]
  | (k', v') :: d =>
      if decide (k = k') then (k', v) :: d else (k', v') :: dset k v d
  end.

(** [{k: v for k, v in l}] *)
Definition dict_of (l : list (K * V)) : list (K * V) :=
  foldl (λ d p, dset p.1 p.2 d) [] l.

Definition ddel k d : list (K * V) := filter (λ p, p.1 ≠ k) d.

Definition dmem k d : bool := bool_decide (is_Some (dget k d)).

Definition dkeys d : list K := d.*1.

Lemma dget_dset_eq k v d : dget k (dset k v d) = Some v.
Proof.
  induction d as [|[k' v'] d IH]; simpl; repeat (case_decide; simpl); congruence.
Qed.

Lemma dget_dset_ne k k' v d : k ≠ k' → dget k' (dset k v d) = dget k' d.
Proof.
  intros Hne. induction d as [|[k'' v''] d IH]; simpl.
  - by rewrite decide_False.
  - repeat (case_decide; simpl); congruence.
Qed.

Lemma dget_dset k k' v d :
  dget k' (dset k v d) = if decide (k = k') then Some v else dget k' d.
Proof.
  case_decide; subst; [apply dget_dset_eq | by apply dget_dset_ne].
Qed.

Lemma dget_None k d : dget k d = None ↔ k ∉ dkeys d.
Proof.
  unfold dkeys. induction d as [|[k' v'] d IH]; csimpl.
  - split; [intros _; apply not_elem_of_nil | done].
  - rewrite not_elem_of_cons. case_decide; naive_solver.
Qed.

Lemma dget_Some_key k v d : dget k d = Some v → k ∈ dkeys d.
Proof.
  intros Hg. destruct (decide (k ∈ dkeys d)) as [|Hn]; [done|].
  apply dget_None in Hn. congruence.
Qed.

Lemma dget_elem k v d : dget k d = Some v → (k, v) ∈ d.
Proof.
  induction d as [|[k' v'] d IH]; simpl; [done|].
  case_decide; intros; simplify_eq; [left | right; auto].
Qed.

Lemma dget_NoDup k v d : NoDup (dkeys d) → (k, v) ∈ d → dget k d = Some v.
Proof.
  unfold dkeys. induction d as [|[k' v'] d IH]; csimpl; intros Hnd Hin.
  - by apply not_elem_of_nil in Hin.
  - apply NoDup_cons in Hnd as [Hk Hnd].
    apply elem_of_cons in Hin as [?|Hin]; simplify_eq.
    + by rewrite decide_True.
    + rewrite decide_False; [auto|]. intros ->. apply Hk.
      apply list_elem_of_fmap. by exists (k', v).
Qed.

Lemma dkeys_dset_old k v d : k ∈ dkeys d → dkeys (dset k v d) = dkeys d.
Proof.
  unfold dkeys. induction d as [|[k' v'] d IH]; csimpl; intros Hin.
  - by apply not_elem_of_nil in Hin.
  - case_decide; csimpl; [done|]. apply elem_of_cons in Hin as [?|Hin]; [congruence|].
    by rewrite IH.
Qed.

Lemma dkeys_dset_new k v d : k ∉ dkeys d → dkeys (dset k v d) = dkeys d ++ [k].
Proof.
  unfold dkeys. induction d as [|[k' v'] d IH]; csimpl; intros Hin; [done|].
  apply not_elem_of_cons in Hin as [Hne Hin].
  rewrite decide_False by done. csimpl. by rewrite IH.
Qed.

Lemma dset_new k v d : k ∉ dkeys d → dset k v d = d ++ [(k, v)].
Proof.
  unfold dkeys. induction d as [|[k' v'] d IH]; csimpl; intros Hin; [done|].
  apply not_elem_of_cons in Hin as [Hne Hin].
  rewrite decide_False by done. by rewrite IH.
Qed.

Lemma dset_NoDup k v d : NoDup (dkeys d) → NoDup (dkeys (dset k v d)).
Proof.
  intros Hnd. destruct (decide (k ∈ dkeys d)) as [Hin|Hin].
  - by rewrite dkeys_dset_old.
  - rewrite dkeys_dset_new by done. apply NoDup_app. split; [done|]. split.
    + intros x Hx ->%list_elem_of_singleton. done.
    + apply NoDup_singleton.
Qed.

Lemma length_dset k v d :
  length (dset k v d) = if decide (k ∈ dkeys d) then length d else S (length d).
Proof.
  rewrite <- (length_fmap fst (dset k v d)), <- (length_fmap fst d).
  change (length (dkeys (dset k v d)) = if decide (k ∈ dkeys d)
    then length (dkeys d) else S (length (dkeys d))).
  case_decide; [by rewrite dkeys_dset_old|].
  rewrite dkeys_dset_new by done. rewrite length_app. simpl. lia.
Qed.

Lemma dset_elem k v d p : p ∈ dset k v d → p = (k, v) ∨ p ∈ d.
Proof.
  induction d as [|[k' v'] d IH]; simpl.
  - intros ->%list_elem_of_singleton. by left.
  - case_decide; subst; rewrite !elem_of_cons; naive_solver.
Qed.

Lemma dict_of_elem (l : list (K * V)) k v : dget k (dict_of l) = Some v → (k, v) ∈ l.
Proof.
  unfold dict_of. enough (∀ d, dget k (foldl (λ d p, dset p.1 p.2 d) d l) = Some v → dget k d = Some v ∨ (k, v) ∈ l) as H
    by (intros Hl; by destruct (H _ Hl)).
  induction l as [|[k' v'] l IH]; simpl; intros d Hd; [by left|].
  destruct (IH _ Hd) as [Hs|]; [|right; by right]. rewrite dget_dset in Hs. case_decide as E; [|by left].
  injection Hs as ->. subst. right. left.
Qed.

Lemma dset_same k v d : dget k d = Some v → dset k v d = d.
Proof. induction d as [|[k' v'] d IH]; simpl; [done|]. case_decide as Ek; subst; [by intros [= ->]|]. intros Hd. by rewrite IH. Qed.

Lemma dmem_true k d : dmem k d = true ↔ k ∈ dkeys d.
Proof.
  unfold dmem. rewrite bool_decide_eq_true. split.
  - intros [v Hv]. by eapply dget_Some_key.
  - intros Hin. destruct (dget k d) eqn:E; [eauto|].
    by apply dget_None in E.
Qed.

Lemma dmem_false k d : dmem k d = false ↔ k ∉ dkeys d.
Proof. rewrite <- dmem_true. destruct (dmem k d); naive_solver. Qed.

Lemma dget_ddel_eq k d : dget k (ddel k d) = None.
Proof.
  apply dget_None. unfold ddel, dkeys. rewrite list_elem_of_fmap.
  intros [p [-> Hp]]. apply list_elem_of_filter in Hp as [Hne _]. done.
Qed.

Lemma dget_ddel_ne k k' d : k ≠ k' → dget k' (ddel k d) = dget k' d.
Proof.
  intros Hne. unfold ddel. induction d as [|[k'' v''] d IH]; [done|].
  rewrite filter_cons. simpl. destruct (decide (k'' = k)) as [->|Hk].
  - rewrite (decide_False (P := k' = k)) by done.
    destruct (decide (k ≠ k)); [done|exact IH].
  - rewrite decide_True by done. simpl. by rewrite IH.
Qed.
End odict.

(** ** Monad inversion *)

Lemma bind_Ok {A B} (m : result A) (f : A → result B) b :
  m ≫= f = Ok b ↔ ∃ a, m = Ok a ∧ f a = Ok b.
Proof. destruct m; simpl; naive_solver. Qed.

Lemma fmap_Ok {A B} (f : A → B) (m : result A) b :
  f <$> m = Ok b ↔ ∃ a, m = Ok a ∧ b = f a.
Proof. destruct m; simpl; naive_solver. Qed.

Lemma require_Ok b e u : require b e = Ok u ↔ b = true.
Proof. unfold require. destruct b, u; naive_solver. Qed.

Lemma raise_if_Ok b e u : raise_if b e = Ok u ↔ b = false.
Proof. unfold raise_if, require. destruct b, u; simpl; naive_solver. Qed.

Lemma of_option_Ok {A} e (o : option A) a : of_option e o = Ok a ↔ o = Some a.
Proof. destruct o; simpl; naive_solver. Qed.

Lemma M_bind_Ok {S A B} (m : M S A) (f : A → M S B) s b s' :
  (m ≫= f) s = (Ok b, s') ↔ ∃ a s1, m s = (Ok a, s1) ∧ f a s1 = (Ok b, s').
Proof.
  unfold mbind, M_bind. destruct (m s) as [[a|e] s1]; naive_solver.
Qed.

Lemma lift_Ok {S A} (r : result A) (s : S) a s' : lift r s = (Ok a, s') ↔ r = Ok a ∧ s' = s.
Proof. unfold lift. naive_solver. Qed.

Lemma transaction_raise {S A} (m : M S A) s e s' :
  transaction m s = (Raise e, s') → s' = s.
Proof. unfold transaction. destruct (m s) as [[a|e'] s1]; naive_solver. Qed.

Lemma transaction_Ok {S A} (m : M S A) s a s' :
  transaction m s = (Ok a, s') ↔ m s = (Ok a, s').
Proof. unfold transaction. destruct (m s) as [[a'|e'] s1]; naive_solver. Qed.

Lemma mapR_length {A B} (f : A → result B) l l' : mapR f l = Ok l' → length l' = length l.
Proof.
  revert l'. induction l as [|x l IH]; simpl; intros l' Hm; [naive_solver|].
  apply bind_Ok in Hm as (y & Hy & Hm). apply bind_Ok in Hm as (ys & Hys & Hm).
  simplify_eq/=. by rewrite (IH ys).
Qed.

Lemma mapR_Forall2 {A B} (f : A → result B) l l' :
  mapR f l = Ok l' ↔ Forall2 (λ x y, f x = Ok y) l l'.
Proof.
  revert l'. induction l as [|x l IH]; simpl; intros l'; split.
  - intros Hm. simplify_eq. constructor.
  - intros Hf. by inversion Hf.
  - intros Hm. apply bind_Ok in Hm as (y & Hy & Hm).
    apply bind_Ok in Hm as (ys & Hys & Hm). simplify_eq. constructor; [done|].
    by apply IH.
  - intros Hf. inversion Hf as [|? y ? ys Hy Hys]; simplify_eq.
    rewrite Hy. simpl. apply IH in Hys. by rewrite Hys.
Qed.

(** A loop invariant for [foldR]. *)
Lemma foldR_inv {A S} (I : S → Prop) (f : S → A → result S) l s s' :
  (∀ s x s', x ∈ l → I s → f s x = Ok s' → I s') →
  I s → foldR f s l = Ok s' → I s'.
Proof.
  revert s. induction l as [|x l IH]; simpl; intros s Hstep Hs Hf.
  - by simplify_eq.
  - apply bind_Ok in Hf as (s1 & Hs1 & Hf). eapply IH; [|by eapply Hstep; [left| |]|done].
    intros s2 y s3 Hy. apply Hstep. by right.
Qed.

(** A loop whose variables strictly decrease a measure ends within it. *)
Lemma loop_fuel {S A} (measure : S → nat) (body : S → result (S + A)) fuel s :
  (∀ s s', body s = Ok (inl s') → measure s' < measure s) →
  (∀ s, body s ≠ Raise OutOfFuel) →
  measure s < fuel → loop fuel body s ≠ Raise OutOfFuel.
Proof.
  intros Hdec Hbody. revert s. induction fuel as [|fuel IH]; intros s Hm; [lia|].
  simpl. destruct (body s) as [[s'|a]|e] eqn:E; simpl; [|done|].
  - apply IH. apply Hdec in E. lia.
  - intros ?. simplify_eq. by eapply Hbody.
Qed.

(** An invariant kept by every iteration holds when the loop leaves. *)
Lemma loop_inv {S A} (I : S → Prop) (Q : A → Prop) (body : S → result (S + A)) fuel s a :
  (∀ s s', I s → body s = Ok (inl s') → I s') →
  (∀ s a, I s → body s = Ok (inr a) → Q a) →
  I s → loop fuel body s = Ok a → Q a.
Proof.
  intros Hstep Hexit. revert s. induction fuel as [|fuel IH]; intros s Hs Hl; [done|].
  simpl in Hl. destruct (body s) as [[s'|a']|e] eqn:E; simplify_eq/=; eauto.
Qed.

(** ** Automation *)

Create HintDb py discriminated.
#[export] Hint Resolve dset_NoDup dget_dset_eq dget_elem dget_Some_key : py.
#[export] Hint Rewrite @dget_dset_eq : py.

(** Break successful monadic computations into their steps. *)
Ltac inv_ok1 :=
  match goal with
  | H : (_ ≫= _) = Ok _ |- _ =>
      let a := fresh "a" in let Ha := fresh "Ha" in
      apply bind_Ok in H as (a & Ha & H); cbv beta in H
  | H : mbind _ _ = Ok _ |- _ =>
      let a := fresh "a" in let Ha := fresh "Ha" in
      apply bind_Ok in H as (a & Ha & H); cbv beta in H
  | H : (_ <$> _) = Ok _ |- _ =>
      let a := fresh "a" in let Ha := fresh "Ha" in
      apply fmap_Ok in H as (a & Ha & H)
  | H : require _ _ = Ok ?u |- _ => apply require_Ok in H; try clear u
  | H : raise_if _ _ = Ok ?u |- _ => apply raise_if_Ok in H; try clear u
  | H : of_option _ _ = Ok _ |- _ => apply of_option_Ok in H
  | H : mret _ = Ok _ |- _ => injection H as H
  | H : Ok _ = Ok _ |- _ => injection H as H
  | H : Raise _ = Ok _ |- _ => discriminate H
  | H : inl _ = inr _ |- _ => discriminate H
  | H : inr _ = inl _ |- _ => discriminate H
  end.
Ltac inv_ok := repeat inv_ok1; simpl in *; subst.

(** Boolean conditions of the code as propositions. *)
Ltac bools :=
  repeat match goal with
  | H : _ && _ = true |- _ => apply andb_true_iff in H as [? H]
  | H : _ || _ = false |- _ => apply orb_false_iff in H as [? H]
  | H : negb _ = true |- _ => apply negb_true_iff in H
  | H : negb _ = false |- _ => apply negb_false_iff in H
  | H : bool_decide _ = true |- _ => apply bool_decide_eq_true in H
  | H : bool_decide _ = false |- _ => apply bool_decide_eq_false in H
  | H : (_ <=? _)%Z = true |- _ => apply Z.leb_le in H
  | H : (_ <=? _)%Z = false |- _ => apply Z.leb_gt in H
  | H : (_ <? _)%Z = true |- _ => apply Z.ltb_lt in H
  | H : (_ <? _)%Z = false |- _ => apply Z.ltb_ge in H
  | H : (_ =? _)%Z = true |- _ => apply Z.eqb_eq in H
  | H : (_ =? _)%Z = false |- _ => apply Z.eqb_neq in H
  | H : (_ <=? _)%nat = true |- _ => apply Nat.leb_le in H
  | H : (_ <=? _)%nat = false |- _ => apply Nat.leb_gt in H
  | H : (_ <? _)%nat = true |- _ => apply Nat.ltb_lt in H
  | H : (_ <? _)%nat = false |- _ => apply Nat.ltb_ge in H
  | H : (_ =? _)%nat = true |- _ => apply Nat.eqb_eq in H
  | H : (_ =? _)%nat = false |- _ => apply Nat.eqb_neq in H
  end.
