(* ===== verification/PyData.v ===== *)
(** The part of Python's data model the modelled modules rely on: dynamic
    values with their type tests, strings as sequences of code points, bytes,
    and the standard-library conversions (hexadecimal, base64, UTF-8, struct
    integers, float arithmetic) with their round trips. *)
From Stdlib Require Import ZArith Lia.
From Stdlib Require Export Floats.SpecFloat.
From S2P Require Import Prelude.

Local Open Scope Z_scope.

(** ** Strings, bytes and dynamic values *)

(** A [str] is its list of code points, a [bytes] its list of octets. *)
Abbreviation pystr := (list Z).
Abbreviation bytes := (list Z).

(** ASCII literals. *)
Definition py (s : string) : list Z :=
  map (λ a, Z.of_N (Ascii.N_of_ascii a)) (String.list_ascii_of_string s).

#[export] Instance spec_float_eq_dec : EqDecision spec_float.
Proof. solve_decision. Defined.

(** Values that reach a validator from msgpack or JSON. *)
Inductive pyval : Type :=
  | PNone
  | PBool (b : bool)
  | PInt (z : Z)
  | PFloat (f : spec_float)
  | PStr (s : pystr)
  | PBytes (b : bytes)
  | PList (l : list pyval)
  | PDict (d : list (pyval * pyval)).

Definition is_byte (b : Z) : bool := (0 <=? b) && (b <? 256).
Abbreviation all_bytes l := (Forall (λ b : Z, is_byte b = true) l).

(** [type(x) is int] and friends: exact, so a [bool] is not an [int]. *)
Definition as_int (v : pyval) : option Z := match v with PInt z => Some z | _ => None end.
Definition as_bool (v : pyval) : option bool := match v with PBool b => Some b | _ => None end.
Definition as_str (v : pyval) : option pystr := match v with PStr s => Some s | _ => None end.
Definition as_bytes (v : pyval) : option bytes := match v with PBytes b => Some b | _ => None end.
Definition as_list (v : pyval) : option (list pyval) := match v with PList l => Some l | _ => None end.
Definition as_dict (v : pyval) : option (list (pyval * pyval)) :=
  match v with PDict d => Some d | _ => None end.

(** Length as an integer: sizes are compared with constants far beyond unary
    numerals. *)
Definition zlen {A} (l : list A) : Z := Z.of_nat (length l).

(** [l[a:b]] for non-negative bounds. *)
Definition slice {A} (a b : nat) (l : list A) : list A := take (b - a) (drop a l).

(** ** Float arithmetic *)

Definition prec64 : Z := 53.
Definition emax64 : Z := 1024.

(** [float(z)] *)
Definition float_of_Z (z : Z) : spec_float := binary_normalize prec64 emax64 z 0 false.

(** The binary64 nearest to [m1 / m2], ties to even: the correctly rounded
    quotient whatever the size of the operands. *)
Definition round_ratio (neg : bool) (m1 m2 : positive) : spec_float :=
  let '(q, e, l) := SFdiv_core_binary prec64 emax64 (Zpos m1) 0 (Zpos m2) 0 in
  binary_round_aux prec64 emax64 neg q e l.

(** [a / b] on integers, [b] positive. *)
Definition truediv (a b : Z) : spec_float :=
  match a, b with
  | Zpos m1, Zpos m2 => round_ratio false m1 m2
  | Zneg m1, Zpos m2 => round_ratio true m1 m2
  | _, _ => S754_zero false
  end.

Definition fmul (a b : spec_float) : spec_float := SFmul prec64 emax64 a b.

Definition flt (a b : spec_float) : bool :=
  match SFcompare a b with Some Lt => true | _ => false end.

Definition fle (a b : spec_float) : bool :=
  match SFcompare a b with Some Lt | Some Eq => true | _ => false end.

Definition isfinite (f : spec_float) : bool :=
  match f with S754_zero _ | S754_finite _ _ _ => true | _ => false end.

(** [int(f)] truncates toward zero; infinities and NaN raise. *)
Definition int_of_float (f : spec_float) : option Z :=
  match f with
  | S754_zero _ => Some 0
  | S754_finite s m e =>
      let q := if 0 <=? e then Zpos m * 2 ^ e else Zpos m / 2 ^ (- e) in
      Some (if s then - q else q)
  | _ => None
  end.

(** [round(f)]: to nearest, ties to even. *)
Definition round_of_float (f : spec_float) : option Z :=
  match f with
  | S754_zero _ => Some 0
  | S754_finite s m e =>
      let q :=
        if 0 <=? e then Zpos m * 2 ^ e
        else
          let d := 2 ^ (- e) in
          let q := Zpos m / d in
          let r := 2 * (Zpos m mod d) in
          if r <? d then q else if d <? r then q + 1 else if Z.even q then q else q + 1 in
      Some (if s then - q else q)
  | _ => None
  end.

(** Comparison of a numeric value (int or float) with an integer constant;
    NaN compares false, as do values that are not numbers (the code tests the
    type first). *)
Definition num_ltb_Z (v : pyval) (z : Z) : bool :=
  match v with PInt n => n <? z | PFloat f => flt f (float_of_Z z) | _ => false end.
Definition num_leb_Z (v : pyval) (z : Z) : bool :=
  match v with PInt n => n <=? z | PFloat f => fle f (float_of_Z z) | _ => false end.
Definition num_gtb_Z (v : pyval) (z : Z) : bool :=
  match v with PInt n => z <? n | PFloat f => flt (float_of_Z z) f | _ => false end.

Definition is_number (v : pyval) : bool :=
  match v with PInt _ | PFloat _ => true | _ => false end.

Definition num_isfinite (v : pyval) : bool :=
  match v with PInt _ => true | PFloat f => isfinite f | _ => false end.

(** ** Dictionary access *)

(** [k == z] for a dict key and an integer constant ([1 == True == 1.0]). *)
Definition key_is_Z (z : Z) (k : pyval) : bool :=
  match k with
  | PInt n => n =? z
  | PBool b => Z.b2z b =? z
  | PFloat f => match SFcompare f (float_of_Z z) with Some Eq => true | _ => false end
  | _ => false
  end.

Fixpoint str_eqb (s t : pystr) : bool :=
  match s, t with
  | [], [] => true
  | c :: s, c' :: t => (c =? c') && str_eqb s t
  | _, _ => false
  end.

(** [k == s] for a dict key and a string. *)
Definition key_is_str (s : pystr) (k : pyval) : bool :=
  match k with PStr s' => str_eqb s s' | _ => false end.

Fixpoint assoc (p : pyval → bool) (d : list (pyval * pyval)) : option pyval :=
  match d with
  | [] => None
  | (k, v) :: d => if p k then Some v else assoc p d
  end.

(** [d.get(name)] for a string key; [None] is an absent key. *)
Definition lookup_str (name : string) (d : list (pyval * pyval)) : option pyval :=
  assoc (key_is_str (py name)) d.
Definition lookup_Z (z : Z) (d : list (pyval * pyval)) : option pyval :=
  assoc (key_is_Z z) d.

(** [d[name]], raising [KeyError]. *)
Definition item (name : string) (d : list (pyval * pyval)) : result pyval :=
  of_option KeyError (lookup_str name d).

(** [set(d) == names] for distinct string names and a dict, whose keys are
    distinct. *)
Definition keys_are (names : list string) (d : list (pyval * pyval)) : bool :=
  Nat.eqb (length d) (length names) &&
  forallb (λ n, if lookup_str n d then true else false) names.

(** [set(d) == {z}] *)
Definition keys_are_Z (z : Z) (d : list (pyval * pyval)) : bool :=
  match d with [(k, _)] => key_is_Z z k | _ => false end.

(** ** Characters *)

Definition in_range (lo hi c : Z) : bool := (lo <=? c) && (c <=? hi).

(** [[0-9a-f]] *)
Definition is_lhex (c : Z) : bool := in_range 48 57 c || in_range 97 102 c.

(** [re.fullmatch('[a-f0-9]{n}', s)] *)
Definition hex_match (n : nat) (s : pystr) : bool :=
  Nat.eqb (length s) n && forallb is_lhex s.

(** [[A-Za-z0-9_-]] *)
Definition is_word (c : Z) : bool :=
  in_range 48 57 c || in_range 65 90 c || in_range 97 122 c || (c =? 95) || (c =? 45).

(** [str.isspace] on one character, the set [strip()] removes. *)
Definition is_space (c : Z) : bool :=
  in_range 9 13 c || in_range 28 32 c || (c =? 133) || (c =? 160) || (c =? 5760)
  || in_range 8192 8202 c || (c =? 8232) || (c =? 8233) || (c =? 8239)
  || (c =? 8287) || (c =? 12288).

Fixpoint lstrip (s : pystr) : pystr :=
  match s with
  | [] => []
  | c :: s' => if is_space c then lstrip s' else s
  end.

Definition strip (s : pystr) : pystr := reverse (lstrip (reverse (lstrip s))).

(** [s.startswith(p)] *)
Definition startswith (p s : pystr) : bool := bool_decide (take (length p) s = p).

(** ** Hexadecimal *)

Definition hexdigit (n : Z) : Z := if n <? 10 then 48 + n else 87 + n.

Definition unhex (c : Z) : option Z :=
  if in_range 48 57 c then Some (c - 48)
  else if in_range 97 102 c then Some (c - 87)
  else if in_range 65 70 c then Some (c - 55)
  else None.

(** [b.hex()] *)
Fixpoint tohex (b : bytes) : pystr :=
  match b with
  | [] => []
  | x :: b => hexdigit (x / 16) :: hexdigit (x mod 16) :: tohex b
  end.

Definition is_ascii_space (c : Z) : bool := in_range 9 13 c || (c =? 32).

(** [bytes.fromhex(s)]: upper case and blanks between octets are accepted. *)
Fixpoint fromhex (s : pystr) : option bytes :=
  match s with
  | [] => Some []
  | c :: s1 =>
      if is_ascii_space c then fromhex s1
      else match s1 with
           | [] => None
           | c' :: s2 =>
               match unhex c, unhex c' with
               | Some h, Some l => (λ t, 16 * h + l :: t) <$> fromhex s2
               | _, _ => None
               end
           end
  end.

(** The idiom [len(s) == 2n and bytes.fromhex(s).hex() == s]: canonical
    lower-case hexadecimal of exactly [n] octets. *)
Definition canonical_hex (n : nat) (s : pystr) : option bytes :=
  if Nat.eqb (length s) (2 * n) then
    match fromhex s with
    | Some b => if bool_decide (tohex b = s) then Some b else None
    | None => None
    end
  else None.

(** ** Base64 *)

Definition b64char (n : Z) : Z :=
  if n <? 26 then 65 + n else if n <? 52 then 71 + n else if n <? 62 then n - 4
  else if n =? 62 then 43 else 47.

Definition unb64 (c : Z) : option Z :=
  if in_range 65 90 c then Some (c - 65)
  else if in_range 97 122 c then Some (c - 71)
  else if in_range 48 57 c then Some (c + 4)
  else if c =? 43 then Some 62
  else if c =? 47 then Some 63
  else None.

(** [base64.b64encode(b).decode()] *)
Fixpoint b64encode (b : bytes) : pystr :=
  match b with
  | [] => []
  | [x] => [b64char (x / 4); b64char (x mod 4 * 16); 61; 61]
  | [x; y] => [b64char (x / 4); b64char (x mod 4 * 16 + y / 16);
               b64char (y mod 16 * 4); 61]
  | x :: y :: z :: b =>
      b64char (x / 4) :: b64char (x mod 4 * 16 + y / 16)
        :: b64char (y mod 16 * 4 + z / 64) :: b64char (z mod 64) :: b64encode b
  end.

(** [base64.b64decode(s, validate=True)]: only alphabet characters, padding
    exactly completing the last group.  Unused trailing bits are not checked. *)
Fixpoint b64decode (s : pystr) : option bytes :=
  match s with
  | [] => Some []
  | a :: b :: c :: d :: s' =>
      match unb64 a, unb64 b with
      | Some p, Some q =>
          if (c =? 61) then
            if (d =? 61) && bool_decide (s' = []) then Some [4 * p + q / 16] else None
          else match unb64 c with
               | None => None
               | Some r =>
                   if (d =? 61) then
                     if bool_decide (s' = []) then
                       Some [4 * p + q / 16; q mod 16 * 16 + r / 4] else None
                   else match unb64 d with
                        | None => None
                        | Some u =>
                            (λ t, 4 * p + q / 16 :: q mod 16 * 16 + r / 4
                                    :: r mod 4 * 64 + u :: t) <$> b64decode s'
                        end
               end
      | _, _ => None
      end
  | _ => None
  end.

(** ** UTF-8 *)

Definition is_scalar (c : Z) : bool := in_range 0 55295 c || in_range 57344 1114111 c.

Definition utf8_char (c : Z) : list Z :=
  if c <? 128 then [c]
  else if c <? 2048 then [192 + c / 64; 128 + c mod 64]
  else if c <? 65536 then [224 + c / 4096; 128 + c / 64 mod 64; 128 + c mod 64]
  else [240 + c / 262144; 128 + c / 4096 mod 64; 128 + c / 64 mod 64; 128 + c mod 64].

(** [s.encode('utf-8')]; lone surrogates raise [UnicodeEncodeError]. *)
Fixpoint utf8_encode (s : pystr) : option bytes :=
  match s with
  | [] => Some []
  | c :: s => if is_scalar c then (app (utf8_char c)) <$> utf8_encode s else None
  end.

Definition is_cont (b : Z) : bool := in_range 128 191 b.

(** [b.decode('utf-8')], strict: no overlong forms, no surrogates. *)
Fixpoint utf8_decode (b : bytes) : option pystr :=
  match b with
  | [] => Some []
  | x :: b1 =>
      if in_range 0 127 x then (cons x) <$> utf8_decode b1
      else match b1 with
      | [] => None
      | y :: b2 =>
          if in_range 192 223 x then
            let c := (x - 192) * 64 + (y - 128) in
            if is_cont y && (128 <=? c) then (cons c) <$> utf8_decode b2 else None
          else match b2 with
          | [] => None
          | z :: b3 =>
              if in_range 224 239 x then
                let c := (x - 224) * 4096 + (y - 128) * 64 + (z - 128) in
                if is_cont y && is_cont z && (2048 <=? c) && is_scalar c
                then (cons c) <$> utf8_decode b3 else None
              else match b3 with
              | [] => None
              | w :: b4 =>
                  let c := (x - 240) * 262144 + (y - 128) * 4096 + (z - 128) * 64 + (w - 128) in
                  if in_range 240 247 x && is_cont y && is_cont z && is_cont w
                     && (65536 <=? c) && is_scalar c
                  then (cons c) <$> utf8_decode b4 else None
              end
          end
      end
  end.

(** ** Little-endian integers ([struct.unpack('<I')] and the like) *)

Fixpoint le_int (b : bytes) : Z :=
  match b with [] => 0 | x :: b => x + 256 * le_int b end.

Fixpoint le_bytes (n : nat) (z : Z) : bytes :=
  match n with O => [] | S n => z mod 256 :: le_bytes n (z / 256) end.

(** [struct.unpack_from(fmt, b, off)] of one [n]-octet field. *)
Definition le_at (n off : nat) (b : bytes) : Z := le_int (slice off (off + n) b).

(** ** Lemmas *)

Ltac zcases :=
  repeat match goal with
  | |- context [if ?b then _ else _] => destruct b eqn:?
  end.

(** Arithmetic facts behind boolean range tests. *)
Ltac ranges :=
  unfold is_byte, in_range, is_cont, is_lhex, is_word in * |-;
  repeat match goal with
  | H : _ && _ = true |- _ => apply andb_true_iff in H as [? ?]
  | H : _ || _ = true |- _ => apply orb_true_iff in H as [?|?]
  | H : _ || _ = false |- _ => apply orb_false_iff in H as [? ?]
  | H : _ && _ = false |- _ => apply andb_false_iff in H as [?|?]
  | H : (_ <=? _) = true |- _ => apply Z.leb_le in H
  | H : (_ <=? _) = false |- _ => apply Z.leb_gt in H
  | H : (_ <? _) = true |- _ => apply Z.ltb_lt in H
  | H : (_ <? _) = false |- _ => apply Z.ltb_ge in H
  | H : (_ =? _) = true |- _ => apply Z.eqb_eq in H
  | H : (_ =? _) = false |- _ => apply Z.eqb_neq in H
  end.

Ltac zdiv := Z.div_mod_to_equations; lia.

Lemma is_byte_range b : 0 <= b < 256 → is_byte b = true.
Proof. intros Hb. unfold is_byte. apply andb_true_iff. rewrite Z.leb_le, Z.ltb_lt. lia. Qed.

Lemma zlen_nonneg {A} (l : list A) : 0 <= zlen l.
Proof. unfold zlen. lia. Qed.

Lemma length_slice {A} a b (l : list A) :
  length (slice a b l) = Nat.min (b - a) (length l - a).
Proof. unfold slice. by rewrite length_take, length_drop. Qed.

Lemma in_range_true lo hi c : in_range lo hi c = true ↔ lo <= c <= hi.
Proof. unfold in_range. rewrite andb_true_iff, !Z.leb_le. done. Qed.

Lemma in_range_false lo hi c : in_range lo hi c = false ↔ c < lo ∨ hi < c.
Proof. unfold in_range. rewrite andb_false_iff, !Z.leb_gt. done. Qed.

(** Evaluate a range test whose outcome is arithmetic. *)
Ltac rng :=
  repeat match goal with
  | |- context [in_range ?a ?b ?c] =>
      first [ rewrite (proj2 (in_range_true a b c)) by zdiv
            | rewrite (proj2 (in_range_false a b c)) by zdiv ]
  end; simpl.

Lemma unhex_hexdigit n : 0 <= n < 16 → unhex (hexdigit n) = Some n.
Proof.
  intros Hn. unfold unhex, hexdigit. destruct (n <? 10) eqn:E; ranges; rng; f_equal; lia.
Qed.

Lemma hexdigit_not_space n : 0 <= n < 16 → is_ascii_space (hexdigit n) = false.
Proof.
  intros Hn. unfold is_ascii_space, hexdigit. destruct (n <? 10) eqn:E; ranges; rng; lia.
Qed.

Lemma hexdigit_lhex n : 0 <= n < 16 → is_lhex (hexdigit n) = true.
Proof.
  intros Hn. unfold is_lhex, hexdigit. destruct (n <? 10) eqn:E; ranges; rng; done.
Qed.

Lemma fromhex_tohex b : all_bytes b → fromhex (tohex b) = Some b.
Proof.
  induction 1 as [|x b Hx Hb IH]; [done|]. ranges.
  cbn [tohex fromhex]. rewrite hexdigit_not_space by zdiv.
  rewrite !unhex_hexdigit by zdiv. rewrite IH. cbn.
  do 2 f_equal. zdiv.
Qed.

Lemma length_tohex b : length (tohex b) = (2 * length b)%nat.
Proof. induction b; simpl; lia. Qed.

Lemma tohex_lhex b : all_bytes b → forallb is_lhex (tohex b) = true.
Proof.
  induction 1 as [|x b Hx Hb IH]; [done|]. ranges. cbn [tohex forallb].
  rewrite !hexdigit_lhex by zdiv. exact IH.
Qed.

Lemma tohex_inj b1 b2 : all_bytes b1 → all_bytes b2 → tohex b1 = tohex b2 → b1 = b2.
Proof.
  intros H1 H2 He. apply (f_equal fromhex) in He.
  rewrite !fromhex_tohex in He by done. by simplify_eq.
Qed.

Lemma canonical_hex_tohex n b :
  all_bytes b → length b = n → canonical_hex n (tohex b) = Some b.
Proof.
  intros Hb <-. unfold canonical_hex. rewrite length_tohex, Nat.eqb_refl.
  rewrite fromhex_tohex by done. by rewrite bool_decide_true.
Qed.

Lemma unhex_range c v : unhex c = Some v → 0 <= v < 16.
Proof. unfold unhex. zcases; ranges; naive_solver lia. Qed.

Lemma fromhex_bytes s b : fromhex s = Some b → all_bytes b.
Proof.
  remember (length s) as n eqn:Hn. revert s b Hn.
  induction (lt_wf n) as [n _ IH]. intros [|c s1] b Hn; simpl.
  - intros. by simplify_eq.
  - destruct (is_ascii_space c).
    + intros Hf. eapply (IH (length s1)); [subst; simpl; lia|done|exact Hf].
    + destruct s1 as [|c' s2]; [done|].
      destruct (unhex c) as [h|] eqn:Eh; [|done].
      destruct (unhex c') as [l|] eqn:El; [|done].
      destruct (fromhex s2) as [t|] eqn:Et; [|done]. intros ?. simplify_eq/=.
      apply unhex_range in Eh, El. constructor.
      * unfold is_byte. apply andb_true_iff. rewrite Z.leb_le, Z.ltb_lt. lia.
      * eapply (IH (length s2)); [simpl; lia|done|exact Et].
Qed.

Lemma canonical_hex_spec n s b :
  canonical_hex n s = Some b → all_bytes b ∧ length b = n ∧ s = tohex b.
Proof.
  unfold canonical_hex. destruct (Nat.eqb (length s) (2 * n)) eqn:E; [|done].
  apply Nat.eqb_eq in E. destruct (fromhex s) as [b'|] eqn:Ef; [|done].
  case_bool_decide as Hc; [|done]. intros ?; simplify_eq.
  rewrite length_tohex in E. split; [by eapply fromhex_bytes|]. split; [lia|done].
Qed.

Lemma unb64_b64char n : 0 <= n < 64 → unb64 (b64char n) = Some n.
Proof.
  intros Hn. unfold unb64, b64char.
  destruct (n <? 26) eqn:E1; ranges; [rng; f_equal; lia|].
  destruct (n <? 52) eqn:E2; ranges; [rng; f_equal; lia|].
  destruct (n <? 62) eqn:E3; ranges; [rng; f_equal; lia|].
  destruct (n =? 62) eqn:E4; ranges; simpl; f_equal; lia.
Qed.

Lemma b64char_not_pad n : 0 <= n < 64 → (b64char n =? 61) = false.
Proof. intros Hn. apply Z.eqb_neq. unfold b64char. zcases; ranges; lia. Qed.

Lemma b64decode_group p q r u s :
  0 <= p < 64 → 0 <= q < 64 → 0 <= r < 64 → 0 <= u < 64 →
  b64decode (b64char p :: b64char q :: b64char r :: b64char u :: s) =
  (λ t, 4 * p + q / 16 :: q mod 16 * 16 + r / 4 :: r mod 4 * 64 + u :: t) <$> b64decode s.
Proof.
  intros. cbn [b64decode]. rewrite !unb64_b64char, !b64char_not_pad by done. done.
Qed.

Lemma b64_roundtrip b : all_bytes b → b64decode (b64encode b) = Some b.
Proof.
  remember (length b) as n eqn:Hn. revert b Hn.
  induction (lt_wf n) as [n _ IH].
  intros [|x [|y [|z b]]] Hn Hb;
    repeat match goal with H : Forall _ (_ :: _) |- _ => inversion_clear H end;
    ranges; cbn [b64encode].
  - done.
  - cbn [b64decode]. rewrite !unb64_b64char by zdiv. simpl. do 2 f_equal. zdiv.
  - cbn [b64decode]. rewrite !unb64_b64char, b64char_not_pad by zdiv. simpl.
    do 2 f_equal; [zdiv|]. f_equal. zdiv.
  - rewrite b64decode_group by zdiv.
    rewrite (IH (length b)); [|subst; simpl; lia|done|done].
    cbn. repeat f_equal; zdiv.
Qed.

Lemma unb64_range c n : unb64 c = Some n → 0 <= n < 64.
Proof. unfold unb64. intros H. repeat case_match; simplify_eq; ranges; lia. Qed.

Lemma b64decode_bytes s b : b64decode s = Some b → all_bytes b.
Proof.
  remember (length s) as n eqn:Hn. revert s b Hn.
  induction (lt_wf n) as [n _ IH]. intros s b -> H.
  destruct s as [|w [|x [|y [|z s]]]]; simplify_eq/=; [by constructor|].
  assert (∀ p, 0 <= p < 256 → is_byte p = true) as Hb.
  { intros p Hp. unfold is_byte. apply andb_true_iff. split; [apply Z.leb_le|apply Z.ltb_lt]; lia. }
  destruct (unb64 w) as [p|] eqn:Ep; [|done]. destruct (unb64 x) as [q|] eqn:Eq; [|done].
  apply unb64_range in Ep, Eq.
  destruct (y =? 61).
  - case_match; simplify_eq. repeat constructor; apply Hb; zdiv.
  - destruct (unb64 y) as [r|] eqn:Er; [|done]. apply unb64_range in Er. destruct (z =? 61).
    + case_match; simplify_eq. repeat constructor; apply Hb; zdiv.
    + destruct (unb64 z) as [u|] eqn:Eu; [|done]. apply unb64_range in Eu.
      destruct (b64decode s) as [t|] eqn:Et; simplify_eq/=.
      repeat constructor; [apply Hb; zdiv..|]. by eapply (IH (length s)); [simpl; lia|done|].
Qed.

Lemma length_b64encode b : zlen (b64encode b) = 4 * ((zlen b + 2) / 3).
Proof.
  remember (length b) as n eqn:Hn. revert b Hn.
  induction (lt_wf n) as [n _ IH]. intros b ->. unfold zlen in *.
  destruct b as [|x [|y [|z b]]]; try done.
  specialize (IH (length b) ltac:(simpl; lia) b eq_refl).
  change (length (b64encode (x :: y :: z :: b))) with (S (S (S (S (length (b64encode b)))))).
  simpl length. zdiv.
Qed.

Lemma utf8_char_decode c b :
  is_scalar c = true → utf8_decode (utf8_char c ++ b) = (cons c) <$> utf8_decode b.
Proof.
  intros Hc. assert (Hs := Hc). unfold is_scalar in Hc. apply orb_true_iff in Hc.
  rewrite !in_range_true in Hc. unfold utf8_char.
  destruct (c <? 128) eqn:E1; ranges; cbn [app utf8_decode].
  { rng. done. }
  destruct (c <? 2048) eqn:E2; ranges; cbn [app utf8_decode].
  { unfold is_cont. rng.
    replace ((192 + c / 64 - 192) * 64 + (128 + c mod 64 - 128)) with c by zdiv.
    by rewrite (proj2 (Z.leb_le 128 c)) by lia. }
  destruct (c <? 65536) eqn:E3; ranges; cbn [app utf8_decode].
  { unfold is_cont. rng.
    replace ((224 + c / 4096 - 224) * 4096 + (128 + c / 64 mod 64 - 128) * 64
             + (128 + c mod 64 - 128)) with c by zdiv.
    by rewrite (proj2 (Z.leb_le 2048 c)), Hs by lia. }
  unfold is_cont. rng.
  replace ((240 + c / 262144 - 240) * 262144 + (128 + c / 4096 mod 64 - 128) * 4096
           + (128 + c / 64 mod 64 - 128) * 64 + (128 + c mod 64 - 128)) with c by zdiv.
  by rewrite (proj2 (Z.leb_le 65536 c)), Hs by lia.
Qed.

Lemma utf8_roundtrip s b : utf8_encode s = Some b → utf8_decode b = Some s.
Proof.
  revert b. induction s as [|c s IH]; simpl; intros b Hb; [by simplify_eq|].
  destruct (is_scalar c) eqn:Hc; [|done].
  destruct (utf8_encode s) as [b'|] eqn:Es; [|done]. simplify_eq/=.
  rewrite utf8_char_decode by done. by rewrite (IH b').
Qed.

Lemma length_le_bytes n z : length (le_bytes n z) = n.
Proof. revert z. induction n; simpl; auto. Qed.

Lemma le_bytes_bytes n z : all_bytes (le_bytes n z).
Proof.
  revert z. induction n as [|n IH]; intros z; simpl; constructor; [|done].
  unfold is_byte. apply andb_true_iff. rewrite Z.leb_le, Z.ltb_lt. zdiv.
Qed.

Lemma le_int_le_bytes n z : 0 <= z < 256 ^ Z.of_nat n → le_int (le_bytes n z) = z.
Proof.
  revert z. induction n as [|n IH]; intros z Hz.
  - simpl in *. lia.
  - cbn [le_bytes le_int]. rewrite Nat2Z.inj_succ, Z.pow_succ_r in Hz by lia.
    rewrite IH; [zdiv|]. split; [zdiv|]. apply Z.div_lt_upper_bound; lia.
Qed.

Lemma le_int_range b : all_bytes b → 0 <= le_int b < 256 ^ zlen b.
Proof.
  unfold zlen. induction 1 as [|x b Hx Hb IH]; [simpl; lia|]. ranges.
  cbn [le_int length]. rewrite Nat2Z.inj_succ, Z.pow_succ_r by lia. lia.
Qed.

Lemma hex_match_spec n s : hex_match n s = true → length s = n.
Proof. unfold hex_match. intros H. bools. done. Qed.

#[export] Hint Resolve fromhex_tohex b64_roundtrip canonical_hex_tohex le_bytes_bytes : py.

Lemma py_inj s1 s2 : py s1 = py s2 → s1 = s2.
Proof.
  unfold py. revert s2. induction s1 as [|a s1 IH]; intros [|b s2]; simpl; try done.
  intros Heq. injection Heq as Ha Hs. f_equal; [|auto].
  rewrite <- (Ascii.ascii_N_embedding a), <- (Ascii.ascii_N_embedding b). f_equal. lia.
Qed.

Lemma str_eqb_eq s t : str_eqb s t = true ↔ s = t.
Proof.
  revert t. induction s as [|c s IH]; intros [|c' t]; simpl; try (by split).
  rewrite andb_true_iff, Z.eqb_eq, IH. naive_solver.
Qed.

Lemma str_eqb_neq s t : str_eqb s t = false ↔ s ≠ t.
Proof. rewrite <- str_eqb_eq. destruct (str_eqb s t); naive_solver. Qed.

(** [bools] with string comparisons. *)
Ltac sbools :=
  bools;
  repeat match goal with
  | H : str_eqb _ _ = true |- _ => apply str_eqb_eq in H
  | H : str_eqb _ _ = false |- _ => apply str_eqb_neq in H
  end.

(** Break up a successful computation and its conditions, in every hypothesis. *)
Ltac steps := repeat (first [inv_ok1 | progress sbools]); subst.

Lemma mapM_as_str l : mapM as_str (PStr <$> l) = Some l.
Proof.
  apply mapM_fmap_Some. done.
Qed.

Lemma mapM_as_str_inv l ps : mapM as_str l = Some ps → l = PStr <$> ps.
Proof.
  intros Hm%mapM_Some. induction Hm as [|x s l ps Hx Hm IH]; csimpl; [done|].
  by destruct x; simplify_eq/=.
Qed.

(** Evaluate the field accesses of a literal dictionary. *)
Ltac dict_eval t :=
  eval cbv [item lookup_str lookup_Z assoc key_is_str str_eqb keys_are keys_are_Z forallb
            length Nat.eqb py map String.list_ascii_of_string Z.of_N Ascii.N_of_ascii
            Ascii.N_of_digits N.add N.mul Pos.add Pos.mul Pos.succ Pos.add_carry
            Z.eqb Pos.eqb andb of_option] in t.
Ltac dict_simpl :=
  repeat match goal with
  | |- context [item ?n ?d] =>
      let r := dict_eval (item n d) in progress change (item n d) with r
  | |- context [keys_are ?n ?d] =>
      let r := dict_eval (keys_are n d) in progress change (keys_are n d) with r
  | |- context [lookup_str ?n ?d] =>
      let r := dict_eval (lookup_str n d) in progress change (lookup_str n d) with r
  end.

(** Run a computation whose next step is decided, leaving predicates folded. *)
Ltac mred :=
  cbn [mbind result_bind mret result_ret fmap result_fmap of_option try_with
       negb andb orb as_int as_str as_list as_dict as_bool as_bytes];
  unfold raise_if, require;
  cbn [mbind result_bind negb andb orb].

(** Induction through the nested lists. *)
Section pyval_ind.
Context (P : pyval → Prop).
Context (Hleaf : ∀ v, match v with PList _ | PDict _ => True | _ => P v end).
Context (Hlist : ∀ l, Forall P l → P (PList l)).
Context (Hdict : ∀ d, Forall (λ p, P p.1 ∧ P p.2) d → P (PDict d)).

Fixpoint pyval_nested_ind (v : pyval) : P v :=
  match v with
  | PNone => Hleaf PNone
  | PBool b => Hleaf (PBool b)
  | PInt z => Hleaf (PInt z)
  | PFloat f => Hleaf (PFloat f)
  | PStr s => Hleaf (PStr s)
  | PBytes b => Hleaf (PBytes b)
  | PList l => Hlist l
      ((fix go l : Forall P l := match l with
        | [] => List.Forall_nil _
        | x :: l => List.Forall_cons _ _ _ (pyval_nested_ind x) (go l)
        end) l)
  | PDict d => Hdict d
      ((fix go d : Forall (λ p, P p.1 ∧ P p.2) d := match d with
        | [] => List.Forall_nil _
        | (k, x) :: d =>
            List.Forall_cons _ (k, x) _ (conj (pyval_nested_ind k) (pyval_nested_ind x)) (go d)
        end) d)
  end.
End pyval_ind.
