(* ===== verification/Json.v ===== *)
(** The JSON standard-library module as the messenger uses it: the printer
    [json.dumps(v, ensure_ascii=False)], which bounds a feed by its encoded
    size, and the reader [json.loads] with its [object_pairs_hook]. *)
From Stdlib Require Import ZArith Lia.
From stdpp Require Import pretty.
From S2P Require Import Prelude PyData.

Local Open Scope Z_scope.

Section Dumps.
(** [float.__repr__], used by the JSON encoder for finite floats. *)
Context (float_repr : spec_float → pystr).

Definition json_escape_char (c : Z) : pystr :=
  if c =? 34 then py "\" ++ [34]
  else if c =? 92 then py "\\"
  else if c =? 8 then py "\b"
  else if c =? 9 then py "\t"
  else if c =? 10 then py "\n"
  else if c =? 12 then py "\f"
  else if c =? 13 then py "\r"
  else if c <? 32 then py "\u00" ++ [hexdigit (c / 16); hexdigit (c mod 16)]
  else [c].

Definition json_string (s : pystr) : pystr := [34] ++ (s ≫= json_escape_char) ++ [34].

Definition json_int (z : Z) : pystr := py (pretty z).

Fixpoint join (sep : pystr) (l : list pystr) : pystr :=
  match l with
  | [] => []
  | [x] => x
  | x :: l => x ++ sep ++ join sep l
  end.

(** Keys: strings as they are; numbers, booleans and [None] are converted;
    anything else raises [TypeError]. *)
Definition json_key (k : pyval) : result pystr :=
  match k with
  | PStr s => Ok s
  | PBool b => Ok (py (if b then "true" else "false"))
  | PNone => Ok (py "null")
  | PInt z => Ok (json_int z)
  | PFloat f => Ok (float_repr f)
  | _ => Raise TypeError
  end.

Fixpoint json_dumps (v : pyval) : result pystr :=
  match v with
  | PNone => Ok (py "null")
  | PBool b => Ok (py (if b then "true" else "false"))
  | PInt z => Ok (json_int z)
  | PFloat f => Ok (float_repr f)
  | PStr s => Ok (json_string s)
  | PBytes _ => Raise TypeError
  | PList l =>
      (λ ss, [91] ++ join (py ", ") ss ++ [93]) <$>
      (fix go l := match l with
       | [] => Ok []
       | x :: l => s ← json_dumps x; ss ← go l; Ok (s :: ss)
       end) l
  | PDict d =>
      (λ ss, [123] ++ join (py ", ") ss ++ [125]) <$>
      (fix go d := match d with
       | [] => Ok []
       | (k, x) :: d =>
           ks ← json_key k; s ← json_dumps x; ss ← go d;
           Ok ((json_string ks ++ py ": " ++ s) :: ss)
       end) d
  end.

(** [len(json.dumps(v, ensure_ascii=False).encode('utf-8'))] *)
Definition json_size (v : pyval) : result Z :=
  s ← json_dumps v;
  b ← of_option (ValueError "UnicodeEncodeError") (utf8_encode s);
  Ok (zlen b).
End Dumps.

(** ** Reading *)

(** Characters the decoder skips between tokens. *)
Definition is_json_space (c : Z) : bool := (c =? 32) || (c =? 9) || (c =? 10) || (c =? 13).

Fixpoint skip_ws (s : pystr) : pystr :=
  match s with
  | c :: s' => if is_json_space c then skip_ws s' else s
  | [] => []
  end.

Definition is_digit (c : Z) : bool := in_range 48 57 c.

(** The longest run of digits, as a number with its length, and the rest. *)
Fixpoint take_digits (acc : Z) (n : nat) (s : pystr) : Z * nat * pystr :=
  match s with
  | c :: s' => if is_digit c then take_digits (10 * acc + (c - 48)) (S n) s' else (acc, n, s)
  | [] => (acc, n, [])
  end.

Definition hex4 (s : pystr) : option (Z * pystr) :=
  match s with
  | a :: b :: c :: d :: s' =>
      x ← unhex a; y ← unhex b; z ← unhex c; w ← unhex d;
      Some (4096 * x + 256 * y + 16 * z + w, s')
  | _ => None
  end.

Definition is_high (u : Z) : bool := in_range 55296 56319 u.
Definition is_low (u : Z) : bool := in_range 56320 57343 u.

(** [\uXXXX], a high surrogate joining a following escaped low one. *)
Definition unicode_escape (s : pystr) : option (Z * pystr) :=
  '(u, s1) ← hex4 s;
  if is_high u then
    match s1 with
    | 92 :: 117 :: s2 =>
        match hex4 s2 with
        | Some (v, s3) =>
            if is_low v then Some (65536 + (u - 55296) * 1024 + (v - 56320), s3) else Some (u, s1)
        | None => None
        end
    | _ => Some (u, s1)
    end
  else Some (u, s1).

(** The body of a string literal, after its opening quote. *)
Fixpoint read_string (fuel : nat) (s : pystr) : option (pystr * pystr) :=
  match fuel with
  | O => None
  | S fuel =>
      match s with
      | [] => None
      | c :: s1 =>
          if c =? 34 then Some ([], s1)
          else if c =? 92 then
            match s1 with
            | [] => None
            | e :: s2 =>
                if e =? 117 then
                  '(u, s3) ← unicode_escape s2; '(t, r) ← read_string fuel s3; Some (u :: t, r)
                else
                  d ← (if e =? 34 then Some 34 else if e =? 92 then Some 92
                       else if e =? 47 then Some 47 else if e =? 98 then Some 8
                       else if e =? 102 then Some 12 else if e =? 110 then Some 10
                       else if e =? 114 then Some 13 else if e =? 116 then Some 9 else None);
                  '(t, r) ← read_string fuel s2; Some (d :: t, r)
            end
          else if c <? 32 then None
          else '(t, r) ← read_string fuel s1; Some (c :: t, r)
      end
  end.

(** [float(text)] for the decimal [m * 10^e]. *)
Definition float_of_decimal (neg : bool) (m e : Z) : spec_float :=
  match m with
  | Zpos p =>
      if 0 <=? e then
        match m * 10 ^ e with
        | Zpos q => round_ratio neg q 1
        | _ => S754_zero neg
        end
      else match 10 ^ (- e) with
           | Zpos q => round_ratio neg p q
           | _ => S754_zero neg
           end
  | _ => S754_zero neg
  end.

(** An integer, or a float when a fraction or an exponent follows; a fraction
    or exponent without digits is left unread, as the scanner does. *)
Definition read_number (s : pystr) : option (pyval * pystr) :=
  let '(neg, s1) := match s with 45 :: s' => (true, s') | _ => (false, s) end in
  '(int, s2) ←
    match s1 with
    | 48 :: s' => Some (0, s')
    | c :: _ => if in_range 49 57 c then let '(v, _, r) := take_digits 0 0 s1 in Some (v, r) else None
    | [] => None
    end;
  let '(frac, s3) :=
    match s2 with
    | 46 :: s' => match take_digits 0 0 s' with
                  | (_, O, _) => (None, s2)
                  | (v, n, r) => (Some (v, n), r)
                  end
    | _ => (None, s2)
    end in
  let '(exp, s4) :=
    match s3 with
    | c :: s' =>
        if (c =? 101) || (c =? 69) then
          let '(eneg, s'') := match s' with 45 :: t => (true, t) | 43 :: t => (false, t) | _ => (false, s') end in
          match take_digits 0 0 s'' with
          | (_, O, _) => (None, s3)
          | (v, _, r) => (Some (if eneg then - v else v), r)
          end
        else (None, s3)
    | [] => (None, s3)
    end in
  Some (match frac, exp with
        | None, None => PInt (if neg then - int else int)
        | _, _ =>
            let '(m, k) := match frac with
                           | Some (v, n) => (int * 10 ^ Z.of_nat n + v, Z.of_nat n)
                           | None => (int, 0) end in
            PFloat (float_of_decimal neg m (default 0 exp - k))
        end, s4).

Definition literal (name : string) (v : pyval) (s : pystr) : option (pyval * pystr) :=
  if startswith (py name) s then Some (v, drop (String.length name) s) else None.

Section Loads.
(** [object_pairs_hook]: what an object with these pairs becomes. *)
Context (hook : list (pyval * pyval) → option pyval).
(** Whether the constants of IEEE 754 are read: [parse_constant] may raise. *)
Context (constants : bool).

Fixpoint read_value (fuel : nat) (s : pystr) : option (pyval * pystr) :=
  match fuel with
  | O => None
  | S fuel =>
      match s with
      | 34 :: s1 => '(t, r) ← read_string (S (length s1)) s1; Some (PStr t, r)
      | 123 :: s1 =>
          match skip_ws s1 with
          | 125 :: r => v ← hook []; Some (v, r)
          | s2 => '(d, r) ← read_members fuel s2; v ← hook d; Some (v, r)
          end
      | 91 :: s1 =>
          match skip_ws s1 with
          | 93 :: r => Some (PList [], r)
          | s2 => '(l, r) ← read_elements fuel s2; Some (PList l, r)
          end
      | 110 :: _ => literal "null" PNone s
      | 116 :: _ => literal "true" (PBool true) s
      | 102 :: _ => literal "false" (PBool false) s
      | 78 :: _ => if constants then literal "NaN" (PFloat S754_nan) s else None
      | 73 :: _ => if constants then literal "Infinity" (PFloat (S754_infinity false)) s else None
      | 45 :: 73 :: _ => if constants then literal "-Infinity" (PFloat (S754_infinity true)) s else None
      | _ => read_number s
      end
  end
with read_elements (fuel : nat) (s : pystr) : option (list pyval * pystr) :=
  match fuel with
  | O => None
  | S fuel =>
      '(v, s1) ← read_value fuel s;
      match skip_ws s1 with
      | 93 :: r => Some ([v], r)
      | 44 :: s2 => '(l, r) ← read_elements fuel (skip_ws s2); Some (v :: l, r)
      | _ => None
      end
  end
with read_members (fuel : nat) (s : pystr) : option (list (pyval * pyval) * pystr) :=
  match fuel with
  | O => None
  | S fuel =>
      match s with
      | 34 :: s1 =>
          '(k, s2) ← read_string (S (length s1)) s1;
          match skip_ws s2 with
          | 58 :: s3 =>
              '(v, s4) ← read_value fuel (skip_ws s3);
              match skip_ws s4 with
              | 125 :: r => Some ([(PStr k, v)], r)
              | 44 :: s5 => '(l, r) ← read_members fuel (skip_ws s5); Some ((PStr k, v) :: l, r)
              | _ => None
              end
          | _ => None
          end
      | _ => None
      end
  end.

(** [json.loads(s, object_pairs_hook=hook, parse_constant=...)]; [None] is any of the errors it
    raises, all [ValueError] (or the hook's own). *)
Definition json_loads_with (s : pystr) : option pyval :=
  '(v, r) ← read_value (S (2 * length s)) (skip_ws s);
  match skip_ws r with [] => Some v | _ => None end.
End Loads.

(** [json.loads(s, object_pairs_hook=hook)] *)
Abbreviation json_loads hook := (json_loads_with hook true).

(** The hook of every wire decoder of the messenger: refuse duplicate names. *)
Fixpoint unique_keys (d : list (pyval * pyval)) : bool :=
  match d with
  | [] => true
  | (PStr k, _) :: d => negb (existsb (λ p, key_is_str k p.1) d) && unique_keys d
  | _ => false
  end.
Definition unique (d : list (pyval * pyval)) : option pyval :=
  if unique_keys d then Some (PDict d) else None.
