(* ===== verification/Ipaddress.v ===== *)
(** Addresses and numbers as Python's standard library reads them: the
    [ipaddress] module, [int(text)] and the splitting methods of [str]. *)
From Stdlib Require Import ZArith Lia.
From S2P Require Import Prelude PyData Json.

Local Open Scope Z_scope.

(** [s.split(sep)] of one character *)
Fixpoint split_from (sep : Z) (word s : pystr) : list pystr :=
  match s with
  | [] => [reverse word]
  | c :: s => if c =? sep then reverse word :: split_from sep [] s else split_from sep (c :: word) s
  end.
Definition split_on (sep : Z) (s : pystr) : list pystr := split_from sep [] s.

(** [s.partition(sep)] *)
Fixpoint partition_at (sep : Z) (s : pystr) : pystr * option pystr :=
  match s with
  | [] => ([], None)
  | c :: s => if c =? sep then ([], Some s) else let '(a, b) := partition_at sep s in (c :: a, b)
  end.

(** [s.rsplit(sep, 1)] with both parts *)
Definition rsplit_at (sep : Z) (s : pystr) : option (pystr * pystr) :=
  match partition_at sep (reverse s) with
  | (b, Some a) => Some (reverse a, reverse b)
  | (_, None) => None
  end.

(** [s.strip(chars)] *)
Fixpoint lstrip_of (chars s : pystr) : pystr :=
  match s with
  | [] => []
  | c :: s' => if existsb (Z.eqb c) chars then lstrip_of chars s' else s
  end.
Definition strip_of (chars s : pystr) : pystr := reverse (lstrip_of chars (reverse (lstrip_of chars s))).

Definition has_char (c : Z) (s : pystr) : bool := existsb (Z.eqb c) s.

(** [str.splitlines()] *)
Definition is_line_break (c : Z) : bool :=
  in_range 10 13 c || in_range 28 30 c || (c =? 133) || (c =? 8232) || (c =? 8233).
Fixpoint splitlines (line s : pystr) : list pystr :=
  match s with
  | [] => match line with [] => [] | _ => [reverse line] end
  | c :: s =>
      if is_line_break c then
        reverse line :: splitlines [] (match s with d :: r => if (c =? 13) && (d =? 10) then r else s | [] => s end)
      else splitlines (c :: line) s
  end.

(** [str.split()] *)
Fixpoint split_words (word s : pystr) : list pystr :=
  let done := match word with [] => [] | _ => [reverse word] end in
  match s with
  | [] => done
  | c :: s => if is_space c then done ++ split_words [] s else split_words (c :: word) s
  end.

(** ** Integers *)

(** The zeros of the decimal digits of Unicode 15: nine more follow each. *)
Definition DIGIT_ZEROS : list Z :=
  [48; 1632; 1776; 1984; 2406; 2534; 2662; 2790; 2918; 3046; 3174; 3302; 3430; 3558; 3664; 3792; 3872; 4160; 4240; 6112;
   6160; 6470; 6608; 6784; 6800; 6992; 7088; 7232; 7248; 42528; 43216; 43264; 43472; 43504; 43600; 44016; 65296; 66720;
   68912; 69734; 69872; 69942; 70096; 70384; 70736; 70864; 71248; 71360; 71472; 71904; 72016; 72784; 73040; 73120; 73552;
   92768; 92864; 93008; 120782; 120792; 120802; 120812; 120822; 123200; 123632; 124144; 125264; 130032].

Definition digit_value (c : Z) : option Z :=
  (λ z, c - z) <$> List.find (λ z, in_range z (z + 9) c) DIGIT_ZEROS.

(** Digits, with single underscores between them. *)
Fixpoint int_digits (acc : Z) (after_digit : bool) (s : pystr) : option Z :=
  match s with
  | [] => if after_digit then Some acc else None
  | c :: s =>
      match digit_value c with
      | Some d => int_digits (10 * acc + d) true s
      | None => if (c =? 95) && after_digit then int_digits acc false s else None
      end
  end.

(** [int(text)]; [None] is the ValueError, also for more digits than
    [sys.int_info.default_max_str_digits]. *)
Definition MAX_STR_DIGITS : Z := 4300.
Definition int_of_digits (s : pystr) : option Z :=
  if zlen (List.filter (λ c, negb (c =? 95)) s) <=? MAX_STR_DIGITS then int_digits 0 false s else None.
Definition int_of_text (s : pystr) : option Z :=
  match strip s with
  | 43 :: s => int_of_digits s
  | 45 :: s => Z.opp <$> int_of_digits s
  | s => int_of_digits s
  end.

(** [s.isascii() and s.isdigit()] *)
Definition ascii_digits (s : pystr) : bool := negb (bool_decide (s = [])) && forallb (in_range 48 57) s.
Definition decimal (s : pystr) : Z := foldl (λ n c, 10 * n + (c - 48)) 0 s.

(** ** Addresses *)

Inductive ip_addr :=
  | IPv4 (n : Z)
  | IPv6 (n : Z) (scope : option pystr).

Definition ipv4_octet (s : pystr) : option Z :=
  if ascii_digits s && (zlen s <=? 3) && (bool_decide (s = [48]) || negb (bool_decide (head s = Some 48))) && (decimal s <=? 255)
  then Some (decimal s) else None.

(** [IPv4Address(s)] *)
Definition ipv4_int (s : pystr) : option Z :=
  octets ← mapM ipv4_octet (split_on 46 s);
  match octets with [a; b; c; d] => Some (((a * 256 + b) * 256 + c) * 256 + d) | _ => None end.

Definition is_hex (c : Z) : bool := in_range 48 57 c || in_range 97 102 c || in_range 65 70 c.
Definition hex_value (c : Z) : Z := if c <=? 57 then c - 48 else if c <=? 70 then c - 55 else c - 87.
Definition hextet (s : pystr) : option Z :=
  if negb (bool_decide (s = [])) && forallb is_hex s && (zlen s <=? 4) then Some (foldl (λ n c, 16 * n + hex_value c) 0 s) else None.

(** ['%x' % n] below 65536 *)
Definition hex_text (n : Z) : pystr :=
  let digits := [hexdigit (n / 4096); hexdigit (n / 256 mod 16); hexdigit (n / 16 mod 16); hexdigit (n mod 16)] in
  let fix trim l := match l with c :: r => if (c =? 48) && negb (bool_decide (r = [])) then trim r else l | [] => [] end in trim digits.

(** The parts of an address, a dotted end turned into two of them. *)
Definition ipv6_parts (s : pystr) : option (list pystr) :=
  let parts := split_on 58 s in
  if Nat.ltb (length parts) 3 then None
  else
    let end_ := List.last parts [] in
    if has_char 46 end_ then
      n ← ipv4_int end_;
      Some (removelast parts ++ [hex_text (n / 65536); hex_text (n mod 65536)])
    else Some parts.

(** The indices of the empty parts between the first and the last. *)
Definition skips (parts : list pystr) : list nat :=
  omap (λ p, if Nat.ltb 0 p.1 && Nat.ltb p.1 (length parts - 1) && bool_decide (p.2 = []) then Some p.1 else None) (imap pair parts).

Definition hextets_value (l : list Z) (n : Z) : Z := foldl (λ acc h, acc * 65536 + h) n l.

Definition ipv6_int (s : pystr) : option Z :=
  parts ← ipv6_parts s;
  if Nat.ltb 9 (length parts) then None
  else
    let first_empty := bool_decide (head parts = Some []) in
    let last_empty := bool_decide (List.last parts [] = []) in
    match skips parts with
    | [] =>
        if Nat.eqb (length parts) 8 && negb first_empty && negb last_empty
        then hs ← mapM hextet parts; Some (hextets_value hs 0) else None
    | [i] =>
        let lo := (length parts - i - 1)%nat in
        if (first_empty && negb (Nat.eqb i 1)) || (last_empty && negb (Nat.eqb lo 1)) then None
        else
          let hi := if first_empty then 0%nat else i in
          let lo := if last_empty then 0%nat else lo in
          if Nat.ltb 7 (hi + lo) then None
          else
            hs ← mapM hextet (take hi parts);
            ls ← mapM hextet (drop (length parts - lo) parts);
            Some (hextets_value ls (hextets_value hs 0 * 65536 ^ Z.of_nat (8 - hi - lo)))
    | _ => None
    end.

(** [IPv6Address(s)] *)
Definition ipv6_address (s : pystr) : option ip_addr :=
  if has_char 47 s then None
  else
    match partition_at 37 s with
    | (addr, None) => (λ n, IPv6 n None) <$> ipv6_int addr
    | (addr, Some scope) =>
        if bool_decide (scope = []) || has_char 37 scope then None else (λ n, IPv6 n (Some scope)) <$> ipv6_int addr
    end.

(** [ip_address(s)] *)
Definition ip_address (s : pystr) : option ip_addr :=
  match ipv4_int s with Some n => Some (IPv4 n) | None => ipv6_address s end.

(** ** Their texts *)

Definition ipv4_text (n : Z) : pystr :=
  join [46] (List.map json_int [n / 16777216; n / 65536 mod 256; n / 256 mod 256; n mod 256]).

Definition ipv6_hextets (n : Z) : list Z :=
  List.map (λ i, n / 65536 ^ (7 - Z.of_nat i) mod 65536) (seq 0 8).

(** The first longest run of zeros: its start and its length. *)
Definition zero_run (l : list Z) : nat * nat :=
  let '(best, _) := foldl (λ '(best, cur) p,
    if p.2 =? 0 then
      let cur := match cur with (_, O) => (p.1, 1%nat) | (s, n) => (s, S n) end in
      ((if Nat.ltb best.2 cur.2 then cur else best), cur)
    else (best, (0%nat, 0%nat))) ((0%nat, 0%nat), (0%nat, 0%nat)) (imap pair l) in best.

Definition ipv6_text (n : Z) : pystr :=
  let hs := ipv6_hextets n in
  let texts := List.map hex_text hs in
  let '(s, k) := zero_run hs in
  if Nat.ltb 1 k then
    let rest := if Nat.eqb (s + k) 8 then [[]] else drop (s + k) texts in
    let all := take s texts ++ [[]] ++ rest in
    join [58] (if Nat.eqb s 0 then [] :: all else all)
  else join [58] texts.

(** [str(address)] *)
Definition ip_text (a : ip_addr) : pystr :=
  match a with
  | IPv4 n => ipv4_text n
  | IPv6 n scope => ipv6_text n ++ match scope with Some s => 37 :: s | None => [] end
  end.

(** ** Classes of addresses *)

Definition is_unspecified (a : ip_addr) : bool := match a with IPv4 n => n =? 0 | IPv6 n _ => n =? 0 end.
Definition is_multicast (a : ip_addr) : bool :=
  match a with IPv4 n => n / 268435456 =? 14 | IPv6 n _ => n / 2 ^ 120 =? 255 end.
Definition is_loopback (a : ip_addr) : bool := match a with IPv4 n => n / 16777216 =? 127 | IPv6 n _ => n =? 1 end.

(** ** Networks *)

(** The prefix of a netmask or a host mask. *)
Definition mask_prefix (n : Z) : option Z :=
  (λ k, 32 - Z.of_nat k) <$> List.find (λ k, n =? 2 ^ 32 - 2 ^ Z.of_nat k) (seq 0 33).
Definition prefix_text (max : Z) (s : pystr) : option Z :=
  if ascii_digits s && (decimal s <=? max) then Some (decimal s) else None.
Definition prefix_v4 (s : pystr) : option Z :=
  match prefix_text 32 s with
  | Some p => Some p
  | None => n ← ipv4_int s; match mask_prefix n with Some p => Some p | None => mask_prefix (2 ^ 32 - 1 - n) end
  end.

(** The address and the mask of [a], [a/m]. *)
Definition split_mask (s : pystr) : option (pystr * option pystr) :=
  match split_on 47 s with [a] => Some (a, None) | [a; m] => Some (a, Some m) | _ => None end.

(** [ip_interface(s)]: the address with its prefix. *)
Definition ip_interface (s : pystr) : option (ip_addr * Z) :=
  '(a, m) ← split_mask s;
  match (n ← ipv4_int a; p ← match m with Some m => prefix_v4 m | None => Some 32 end; Some (IPv4 n, p)) with
  | Some r => Some r
  | None => x ← ipv6_address a; p ← match m with Some m => prefix_text 128 m | None => Some 128 end; Some (x, p)
  end.

(** [ip_network(s)]: no host bits may be set. *)
Definition ip_network (s : pystr) : option (ip_addr * Z) :=
  '(a, p) ← ip_interface s;
  match a with
  | IPv4 n => if n mod 2 ^ (32 - p) =? 0 then Some (a, p) else None
  | IPv6 n _ => if n mod 2 ^ (128 - p) =? 0 then Some (a, p) else None
  end.

(** [str(network)] *)
Definition network_text (x : ip_addr * Z) : pystr := ip_text x.1 ++ [47] ++ json_int x.2.

(** ** Dotted quads *)

Lemma octet_text n : 0 <= n < 256 → ipv4_octet (json_int n) = Some n ∧ has_char 46 (json_int n) = false.
Proof.
  intros Hn. assert (n ∈ seqZ 0 256) as Hin by (rewrite elem_of_seqZ; lia). revert n Hin Hn.
  assert (Forall (λ n, ipv4_octet (json_int n) = Some n ∧ has_char 46 (json_int n) = false) (seqZ 0 256)) as H.
  { apply (bool_decide_unpack _). vm_compute. exact I. }
  rewrite Forall_forall in H. intros n Hin _. by apply H.
Qed.

Lemma split_from_app sep word a b : has_char sep a = false →
  split_from sep word (a ++ sep :: b) = (reverse word ++ a) :: split_on sep b.
Proof.
  unfold has_char, split_on. revert word. induction a as [|c a IH]; intros word; cbn [existsb app split_from].
  - intros _. by rewrite Z.eqb_refl, app_nil_r.
  - intros [Hc Ha]%orb_false_iff. rewrite Z.eqb_sym, Hc, IH by done. by rewrite reverse_cons, <- app_assoc.
Qed.

Lemma split_on_none sep a : has_char sep a = false → split_on sep a = [a].
Proof.
  unfold has_char, split_on. assert (∀ word, existsb (Z.eqb sep) a = false → split_from sep word a = [reverse word ++ a]) as H;
    [|apply (H [])].
  induction a as [|c a IH]; intros word; cbn [existsb split_from]; [by rewrite app_nil_r|].
  intros [Hc Ha]%orb_false_iff. rewrite Z.eqb_sym, Hc, IH by done. by rewrite reverse_cons, <- app_assoc.
Qed.

Lemma split_on_app sep a b : has_char sep a = false → split_on sep (a ++ sep :: b) = a :: split_on sep b.
Proof. intros Ha. unfold split_on at 1. by rewrite split_from_app. Qed.

(** Dotted quads read back. *)
Lemma ipv4_text_read n : 0 <= n < 2 ^ 32 → ipv4_int (ipv4_text n) = Some n.
Proof.
  intros Hn. unfold ipv4_text, ipv4_int.
  destruct (octet_text (n / 16777216)) as [A1 A2]; [split; [apply Z.div_pos; lia|apply Z.div_lt_upper_bound; lia]|].
  destruct (octet_text (n / 65536 mod 256)) as [B1 B2]; [apply Z.mod_pos_bound; lia|].
  destruct (octet_text (n / 256 mod 256)) as [C1 C2]; [apply Z.mod_pos_bound; lia|].
  destruct (octet_text (n mod 256)) as [D1 D2]; [apply Z.mod_pos_bound; lia|].
  cbn [List.map join app]. rewrite (split_on_app 46 _ _ A2), (split_on_app 46 _ _ B2), (split_on_app 46 _ _ C2), (split_on_none 46 _ D2).
  cbn [mapM mbind option_bind mret option_ret]. rewrite A1, B1, C1, D1. cbn. f_equal.
  pose proof (Z.div_mod n 256 ltac:(lia)). pose proof (Z.div_mod (n / 256) 256 ltac:(lia)).
  pose proof (Z.div_mod (n / 65536) 256 ltac:(lia)).
  rewrite (Z.div_div n 256 256) in * by lia. rewrite (Z.div_div n 65536 256) in * by lia.
  change (256 * 256) with 65536 in *. change (65536 * 256) with 16777216 in *. lia.
Qed.

Example sample_addresses :
  List.map (λ s, ip_text <$> ip_address (py s))
    ["10.0.0.1"; "010.0.0.1"; "::1"; "2001:DB8:0:0:1:0:0:1"; "::ffff:1.2.3.4"; "1::2::3"; "fe80::1%eth0"; "1:2:3:4:5:6:7::"; ":1::"]%string
  = [Some (py "10.0.0.1"); None; Some (py "::1"); Some (py "2001:db8::1:0:0:1"); Some (py "::ffff:102:304"); None;
     Some (py "fe80::1%eth0"); Some (py "1:2:3:4:5:6:7:0"); None].
Proof. vm_compute. reflexivity. Qed.

Example sample_networks :
  List.map (λ s, network_text <$> ip_network (py s))
    ["0.0.0.0/0"; "::/0"; "10.0.0.0/255.255.0.0"; "10.0.0.0/0.0.255.255"; "10.0.0.1/8"; "0.0.0.0/00"; "0::0/0"]%string
  = [Some (py "0.0.0.0/0"); Some (py "::/0"); Some (py "10.0.0.0/16"); Some (py "10.0.0.0/16"); None; Some (py "0.0.0.0/0"); Some (py "::/0")].
Proof. vm_compute. reflexivity. Qed.
