(* ===== verification/JsonText.v ===== *)
(** The canonical text of signed documents: [json.dumps(v, separators=(',', ':'))]
    in ASCII, with or without [sort_keys], and its round trip through the
    reader that refuses duplicate names.

    [json.loads] on octets: the encoding it detects and the decoders it then
    uses, with the [surrogatepass] error handler. *)
From Stdlib Require Import ZArith Lia Sorted.
From stdpp Require Import pretty.
From Stdlib Require Import ZArith Lia.
From S2P Require Import Prelude PyData Json.

Local Open Scope Z_scope.

(** ** Printing *)

Definition hex4_digits (u : Z) : pystr :=
  [hexdigit (u / 4096); hexdigit (u / 256 mod 16); hexdigit (u / 16 mod 16); hexdigit (u mod 16)].
Definition u_escape (u : Z) : pystr := 92 :: 117 :: hex4_digits u.

(** The two-character escapes. *)
Definition short_escape (c : Z) : option Z :=
  if c =? 34 then Some 34 else if c =? 92 then Some 92 else if c =? 8 then Some 98
  else if c =? 9 then Some 116 else if c =? 10 then Some 110 else if c =? 12 then Some 102
  else if c =? 13 then Some 114 else None.

Definition ascii_char (c : Z) : pystr :=
  match short_escape c with
  | Some e => [92; e]
  | None =>
      if in_range 32 126 c then [c]
      else if c <? 65536 then u_escape c
      else u_escape (55296 + (c - 65536) / 1024) ++ u_escape (56320 + (c - 65536) mod 1024)
  end.

Definition quoted (s : pystr) : pystr := 34 :: (s ≫= ascii_char) ++ [34].

Section Printer.
Context (float_repr : spec_float → pystr).

(** [json.dumps(v)], with [sp] after every comma and colon. *)
Fixpoint json_text (sp : pystr) (v : pyval) : result pystr :=
  match v with
  | PNone => Ok (py "null")
  | PBool b => Ok (py (if b then "true" else "false"))
  | PInt z => Ok (json_int z)
  | PFloat f => Ok (float_repr f)
  | PStr s => Ok (quoted s)
  | PBytes _ => Raise TypeError
  | PList l =>
      (λ ss, [91] ++ join (44 :: sp) ss ++ [93]) <$>
      (fix go l := match l with
       | [] => Ok []
       | x :: l => s ← json_text sp x; ss ← go l; Ok (s :: ss)
       end) l
  | PDict d =>
      (λ ss, [123] ++ join (44 :: sp) ss ++ [125]) <$>
      (fix go d := match d with
       | [] => Ok []
       | (k, x) :: d =>
           ks ← json_key float_repr k; s ← json_text sp x; ss ← go d;
           Ok ((quoted ks ++ (58 :: sp) ++ s) :: ss)
       end) d
  end.

Lemma json_text_list sp l :
  json_text sp (PList l) = (λ ss, [91] ++ join (44 :: sp) ss ++ [93]) <$> mapR (json_text sp) l.
Proof.
  cbn [json_text]. f_equal. induction l as [|x l IH]; [done|]. cbn [mapR].
  destruct (json_text sp x); cbn [mbind result_bind]; [|done]. by rewrite IH.
Qed.

(** An object with string names. *)
Lemma json_text_dict sp (d : list (pystr * pyval)) :
  json_text sp (PDict (List.map (λ p, (PStr p.1, p.2)) d)) =
  (λ ss, [123] ++ join (44 :: sp) ss ++ [125]) <$>
  mapR (λ p, s ← json_text sp p.2; Ok (quoted p.1 ++ (58 :: sp) ++ s)) d.
Proof.
  cbn [json_text]. f_equal. induction d as [|[k x] d IH]; [done|]. cbn [List.map fst snd json_key mbind result_bind mapR].
  destruct (json_text sp x); cbn [mbind result_bind]; [|done]. by rewrite IH.
Qed.
End Printer.

(** [json.dumps(v, separators=(',', ':'))] and plain [json.dumps(v)] *)
Abbreviation json_compact float_repr := (json_text float_repr []).
Abbreviation json_default float_repr := (json_text float_repr [32]).

(** Python's order on strings, by code points. *)
Fixpoint str_leb (a b : pystr) : bool :=
  match a, b with
  | [], _ => true
  | _, [] => false
  | x :: a, y :: b => (x <? y) || ((x =? y) && str_leb a b)
  end.

Definition key_leb (a b : pyval * pyval) : bool :=
  match a.1, b.1 with PStr s, PStr t => str_leb s t | _, _ => true end.

Fixpoint insert_key (x : pyval * pyval) (d : list (pyval * pyval)) : list (pyval * pyval) :=
  match d with
  | [] => [x]
  | y :: d' => if key_leb x y then x :: d else y :: insert_key x d'
  end.

(** [sort_keys=True]: the members of every object in the order of their names. *)
Fixpoint sort_keys (v : pyval) : pyval :=
  match v with
  | PList l => PList (map sort_keys l)
  | PDict d => PDict ((fix go d := match d with
                       | [] => []
                       | (k, x) :: d => insert_key (k, sort_keys x) (go d)
                       end) d)
  | _ => v
  end.

(** ** Values that survive the text *)

(** No floats, no [bytes], string keys without repetition, and no lone
    surrogates. *)
Fixpoint jsonable (v : pyval) : bool :=
  match v with
  | PNone | PBool _ | PInt _ => true
  | PStr s => forallb is_scalar s
  | PList l => forallb jsonable l
  | PDict d => unique_keys d && forallb (λ p,
                 match p.1 with PStr s => forallb is_scalar s | _ => false end && jsonable p.2) d
  | _ => false
  end.

(** ** Reading back a string *)

Lemma hex4_digits_read u r : 0 <= u < 65536 → hex4 (hex4_digits u ++ r) = Some (u, r).
Proof.
  intros Hu. unfold hex4_digits. simpl.
  rewrite !unhex_hexdigit by zdiv. simpl. do 2 f_equal. zdiv.
Qed.

Lemma unicode_bmp u r : is_scalar u = true → u < 65536 → unicode_escape (hex4_digits u ++ r) = Some (u, r).
Proof.
  intros Hs Hu. unfold is_scalar in Hs. unfold unicode_escape.
  assert (0 <= u) by (apply orb_true_iff in Hs as [Hs|Hs]; apply in_range_true in Hs; lia).
  rewrite hex4_digits_read by lia. simpl. unfold is_high.
  rewrite (proj2 (in_range_false 55296 56319 u)); [done|].
  apply orb_true_iff in Hs as [Hs|Hs]; apply in_range_true in Hs; lia.
Qed.

Lemma unicode_pair c r :
  65536 <= c <= 1114111 →
  unicode_escape (hex4_digits (55296 + (c - 65536) / 1024) ++ u_escape (56320 + (c - 65536) mod 1024) ++ r)
  = Some (c, r).
Proof.
  intros Hc. unfold unicode_escape. rewrite hex4_digits_read by zdiv.
  cbn [mbind option_bind]. unfold is_high, is_low. rewrite (proj2 (in_range_true _ _ _)) by zdiv.
  unfold u_escape. rewrite <- !app_comm_cons. rewrite hex4_digits_read by zdiv.
  rewrite (proj2 (in_range_true _ _ _)) by zdiv. do 2 f_equal. zdiv.
Qed.

Lemma read_char c s fuel :
  is_scalar c = true →
  read_string (S fuel) (ascii_char c ++ s) = '(t, r) ← read_string fuel s; Some (c :: t, r).
Proof.
  intros Hc. unfold ascii_char. destruct (short_escape c) as [e|] eqn:Ee.
  { unfold short_escape in Ee. repeat case_match; simplify_eq;
      match goal with H : (_ =? _) = true |- _ => apply Z.eqb_eq in H as -> end; reflexivity. }
  unfold short_escape in Ee. repeat case_match; try done; bools;
    try match goal with H : in_range 32 126 c = true |- _ => apply in_range_true in H end.
  - simpl. rewrite !(proj2 (Z.eqb_neq _ _)), (proj2 (Z.ltb_ge _ _)) by lia. done.
  - change (read_string (S fuel) (u_escape c ++ s)) with
      ('(u, s3) ← unicode_escape (hex4_digits c ++ s); '(t, r) ← read_string fuel s3; Some (u :: t, r)).
    by rewrite unicode_bmp.
  - rewrite <- app_assoc. unfold u_escape at 1. rewrite <- !app_comm_cons.
    set (v := hex4_digits (55296 + (c - 65536) / 1024)).
    change (read_string (S fuel) (92 :: 117 :: v ++ u_escape (56320 + (c - 65536) mod 1024) ++ s)) with
      ('(u, s3) ← unicode_escape (v ++ u_escape (56320 + (c - 65536) mod 1024) ++ s);
       '(t, r) ← read_string fuel s3; Some (u :: t, r)).
    unfold v. rewrite unicode_pair; [done|].
    unfold is_scalar in Hc. apply orb_true_iff in Hc as [Hc|Hc]; apply in_range_true in Hc; lia.
Qed.

Lemma read_quoted s r fuel :
  forallb is_scalar s = true → (length s < fuel)%nat →
  read_string fuel ((s ≫= ascii_char) ++ 34 :: r) = Some (s, r).
Proof.
  revert fuel. induction s as [|c s IH]; intros [|fuel] Hs Hf; try (simpl in Hf; lia); [done|].
  simpl in Hs. bools. rewrite bind_cons, <- app_assoc. rewrite read_char by done.
  rewrite IH; [done|done|simpl in Hf; lia].
Qed.

Lemma ascii_char_length c : (1 <= length (ascii_char c))%nat.
Proof. unfold ascii_char. repeat case_match; simpl; lia. Qed.

Lemma length_quoted s : (length s + 2 <= length (quoted s))%nat.
Proof.
  unfold quoted. simpl. rewrite length_app. simpl.
  enough (length s <= length (s ≫= ascii_char))%nat by lia.
  induction s as [|c s IH]; [done|]. rewrite bind_cons, length_app. simpl.
  pose proof (ascii_char_length c). lia.
Qed.

(** ** Reading back a number *)

(** What may follow a value inside a text. *)
Definition stops (r : pystr) : Prop :=
  match r with [] => True | c :: _ => c = 44 ∨ c = 93 ∨ c = 125 end.

Lemma take_digits_stop acc n r : stops r → take_digits acc n r = (acc, n, r).
Proof. destruct r as [|c r]; [done|]. by intros [->|[->| ->]]. Qed.

Lemma digit_char n : (n < 10)%N → Z.of_N (Ascii.N_of_ascii (pretty_N_char n)) = 48 + Z.of_N n.
Proof.
  intros Hn. destruct n as [|p]; [done|].
  do 4 (destruct p as [p|p|]; try done; try (exfalso; lia)).
Qed.

(** The digits of [n], read one by one. *)
Lemma read_digits n : (0 < n)%N → ∀ s, ∃ d t,
  py (pretty_N_go n s) = d :: t ++ py s ∧ 49 <= d <= 57
  ∧ ∀ acc k r, ∃ m, take_digits acc k ((d :: t) ++ r) = take_digits (acc * 10 ^ Z.of_nat (S m) + Z.of_N n) (k + S m) r.
Proof.
  induction (N.lt_wf_0 n) as [n _ IH]. intros Hn s. rewrite pretty_N_go_step by done.
  set (s' := String _ s).
  assert (n `mod` 10 < 10)%N as Hm by (by apply N.mod_lt).
  assert (py s' = (48 + Z.of_N (n `mod` 10)) :: py s) as Hs'.
  { unfold s'. change (py (String (pretty_N_char (n `mod` 10)) s))
      with (Z.of_N (Ascii.N_of_ascii (pretty_N_char (n `mod` 10))) :: py s). by rewrite digit_char. }
  assert (Z.of_N n = 10 * Z.of_N (n `div` 10) + Z.of_N (n `mod` 10)) as Hdiv.
  { rewrite (N.div_mod n 10) at 1 by done. lia. }
  assert (∀ acc k r, take_digits acc k ((48 + Z.of_N (n `mod` 10)) :: r)
    = take_digits (10 * acc + Z.of_N (n `mod` 10)) (S k) r) as Hstep.
  { intros acc k r. revert Hm. generalize (n `mod` 10)%N. intros m Hm.
    assert (0 <= Z.of_N m <= 9) as Hx by lia. revert Hx. generalize (Z.of_N m). intros x Hx. cbn [take_digits]. unfold is_digit.
    rewrite (proj2 (in_range_true 48 57 (48 + x))) by lia. f_equal. lia. }
  destruct (decide (n `div` 10 = 0)%N) as [Hz|Hz].
  - rewrite Hz in Hdiv. rewrite Hz, pretty_N_go_0, Hs'. exists (48 + Z.of_N (n `mod` 10)), []. split; [done|].
    split; [lia|]. intros acc k r. exists 0%nat. rewrite <- app_comm_cons, Hstep. simpl app.
    f_equal; lia.
  - destruct (IH (n `div` 10)%N) with (s := s') as (d & t & Heq & Hd & Hread).
    { apply N.div_lt; lia. } { lia. }
    exists d, (t ++ [48 + Z.of_N (n `mod` 10)]). rewrite Heq, Hs', <- app_assoc. split; [done|].
    split; [done|]. intros acc k r.
    destruct (Hread acc k ((48 + Z.of_N (n `mod` 10)) :: r)) as [m Hm'].
    exists (S m). rewrite app_comm_cons, <- app_assoc. simpl app at 2. rewrite Hm', Hstep. f_equal; [|lia].
    rewrite (Nat2Z.inj_succ (S m)), Z.pow_succ_r by lia. lia.
Qed.

(** A sign, a zero or a digit. *)
Definition starts_number (s : pystr) : Prop :=
  ∃ c t, s = c :: t ∧ (c = 45 ∨ 48 <= c <= 57) ∧ ¬ (c = 45 ∧ ∃ t', t = 73 :: t').

Lemma json_int_pos p : json_int (Zpos p) = py (pretty_N_go (Npos p) EmptyString).
Proof. reflexivity. Qed.

Lemma json_int_neg p : json_int (Zneg p) = 45 :: py (pretty_N_go (Npos p) EmptyString).
Proof. reflexivity. Qed.

Lemma read_number_stop (neg : bool) (s1 : pystr) (int : Z) (s2 : pystr) :
  stops s2 →
  (match s1 with
   | 48 :: s' => Some (0, s')
   | c :: _ => if in_range 49 57 c then let '(v, _, r) := take_digits 0 0 s1 in Some (v, r) else None
   | [] => None
   end) = Some (int, s2) →
  read_number (if neg then 45 :: s1 else s1) = Some (PInt (if neg then - int else int), s2).
Proof.
  intros Hs2 Hint. unfold read_number.
  assert ((match (if neg then 45 :: s1 else s1) with
           | 45 :: s' => (true, s') | _ => (false, if neg then 45 :: s1 else s1) end) = (neg, s1)) as ->.
  { destruct neg; [done|]. destruct s1 as [|c s1]; [done|].
    destruct c as [|c|c]; try done. do 6 (destruct c as [c|c|]; try done). }
  rewrite Hint. cbn [mbind option_bind].
  destruct s2 as [|c s2]; [done|]. by destruct Hs2 as [->|[->| ->]].
Qed.

Lemma digits_head p r :
  stops r →
  ∃ d t, py (pretty_N_go (Npos p) EmptyString) ++ r = d :: t ∧ 49 <= d <= 57
  ∧ match d :: t with
    | 48 :: s' => Some (0, s')
    | c :: _ => if in_range 49 57 c then let '(v, _, r) := take_digits 0 0 (d :: t) in Some (v, r) else None
    | [] => None
    end = Some (Zpos p, r).
Proof.
  intros Hr. destruct (read_digits (Npos p) ltac:(lia) EmptyString) as (d & t & -> & Hd & Hread).
  rewrite app_nil_r. destruct (Hread 0 0%nat r) as [m Hm]. rewrite (take_digits_stop _ _ r Hr) in Hm.
  exists d, (t ++ r). split; [done|]. split; [done|]. rewrite <- app_comm_cons in Hm. rewrite Hm.
  rewrite (proj2 (in_range_true 49 57 d)) by lia.
  destruct d as [|d|d]; try lia. do 6 (destruct d as [d|d|]; try lia; try done).
Qed.

Lemma read_int z r : stops r →
  read_number (json_int z ++ r) = Some (PInt z, r) ∧ starts_number (json_int z ++ r).
Proof.
  intros Hr. destruct z as [|p|p].
  - split; [by apply (read_number_stop false _ 0 r)|].
    exists 48, r. split; [done|]. split; [lia|]. intros [? _]. lia.
  - rewrite json_int_pos. destruct (digits_head p r Hr) as (d & t & -> & Hd & Hint).
    split; [by apply (read_number_stop false)|].
    exists d, t. split; [done|]. split; [lia|]. intros [? _]. lia.
  - rewrite json_int_neg, <- app_comm_cons. destruct (digits_head p r Hr) as (d & t & -> & Hd & Hint).
    split; [by apply (read_number_stop true (d :: t) (Zpos p))|].
    exists 45, (d :: t). split; [done|]. split; [lia|]. intros [_ [t' [= -> _]]]. lia.
Qed.

(** ** Reading back a value *)

Section RoundTrip.
Context (float_repr : spec_float → pystr) (sp : pystr) (Hsp : forallb is_json_space sp = true) (constants : bool).

(** A value's text starts with none of the characters that end or separate. *)
Definition opens (t : pystr) : Prop :=
  ∃ c t', t = c :: t' ∧ is_json_space c = false ∧ c ≠ 93 ∧ c ≠ 125.

Lemma skip_blanks t : skip_ws (sp ++ t) = skip_ws t.
Proof.
  revert Hsp. induction sp as [|c s IH]; [done|]. simpl. intros [-> Hs]%andb_true_iff. by apply IH.
Qed.

(** [t] reads back as [v] wherever a value may end. *)
Definition reads (t : pystr) (v : pyval) : Prop :=
  opens t ∧ ∀ r fuel, stops r → (length t <= fuel)%nat → read_value unique constants fuel (t ++ r) = Some (v, r).

Lemma skip_opens t r : opens t → skip_ws (t ++ r) = t ++ r.
Proof. intros (c & t' & -> & Hs & _). simpl. by rewrite Hs. Qed.

Lemma reads_leaf t v :
  opens t → (∀ r fuel, stops r → read_value unique constants (S fuel) (t ++ r) = Some (v, r)) → reads t v.
Proof.
  intros Ho H. split; [done|]. intros r [|fuel] Hr Hf; [|by apply H].
  destruct Ho as (c & t' & -> & _). simpl in Hf. lia.
Qed.

Lemma reads_string s : forallb is_scalar s = true → reads (quoted s) (PStr s).
Proof.
  intros Hs. apply reads_leaf; [by eexists _, _|]. intros r fuel _. unfold quoted. rewrite <- app_comm_cons, <- app_assoc.
  set (s1 := (s ≫= ascii_char) ++ [34] ++ r).
  change (read_value unique constants (S fuel) (34 :: s1)) with ('(t, r) ← read_string (S (length s1)) s1; Some (PStr t, r)).
  assert (read_string (S (length s1)) s1 = Some (s, r)) as ->; [|done].
  apply read_quoted; [done|]. unfold s1. rewrite length_app.
  pose proof (length_quoted s) as Hl. unfold quoted in Hl. simpl in Hl. rewrite length_app in Hl.
  simpl in *. lia.
Qed.

Lemma reads_int z : reads (json_int z) (PInt z).
Proof.
  destruct (read_int z [] I) as [_ (c & t & Heq & Hc & _)]. rewrite app_nil_r in Heq. apply reads_leaf.
  - exists c, t. split; [done|]. unfold is_json_space.
    split; [|lia]. repeat (apply orb_false_iff; split); apply Z.eqb_neq; lia.
  - intros r fuel Hr. destruct (read_int z r Hr) as [Hn (c' & t' & Heq' & Hc' & Hminus)].
    rewrite <- Hn, Heq'. destruct Hc' as [->|Hc'].
    + destruct t' as [|d t']; [done|]. simpl.
      destruct d as [|d|d]; try done. do 7 (destruct d as [d|d|]; try done).
      exfalso. apply Hminus. split; [done|by eexists].
    + destruct c' as [|c'|c']; try lia. do 6 (destruct c' as [c'|c'|]; try lia; try done).
Qed.

(** The members printed one after another. *)
Definition elements (go : pyval → result pystr) : list pyval → result (list pystr) :=
  fix go' l := match l with [] => Ok [] | x :: l => s ← go x; ss ← go' l; Ok (s :: ss) end.

Lemma reads_elements (ts : list pystr) (l : list pyval) :
  ts ≠ [] → Forall2 reads ts l →
  ∀ r fuel, (length (join (44%Z :: sp) ts) < fuel)%nat →
  read_elements unique constants fuel (join (44 :: sp) ts ++ 93 :: r) = Some (l, r) ∧ opens (join (44 :: sp) ts).
Proof.
  intros Hne Hall. induction Hall as [|t v ts l [Ho Ht] Hall IH]; [done|].
  intros r [|fuel] Hf; [lia|]. destruct ts as [|t2 ts].
  - apply Forall2_nil_inv_l in Hall as ->. simpl in *. split; [|done].
    rewrite Ht; [done|by right; left|lia].
  - change (join (44 :: sp) (t :: t2 :: ts)) with (t ++ (44 :: sp) ++ join (44 :: sp) (t2 :: ts)) in *.
    rewrite (length_app t), length_app in Hf. cbn [length] in Hf.
    destruct (IH ltac:(done) r fuel ltac:(lia)) as [IHr IHo]. split.
    + rewrite <- !app_assoc. simpl read_elements. rewrite Ht; [|by left|lia].
      cbn [mbind option_bind app skip_ws is_json_space Z.eqb Pos.eqb orb].
      rewrite skip_blanks, (skip_opens _ _ IHo). by rewrite IHr.
    + destruct Ho as (c & t' & -> & Hc). by exists c, (t' ++ (44 :: sp) ++ join (44 :: sp) (t2 :: ts)).
Qed.

(** A member of an object: its name and its value. *)
Definition reads_member (t : pystr) (p : pyval * pyval) : Prop :=
  ∃ k vt, p.1 = PStr k ∧ t = quoted k ++ (58 :: sp) ++ vt ∧ forallb is_scalar k = true ∧ reads vt p.2.

Lemma reads_members (ts : list pystr) (d : list (pyval * pyval)) :
  ts ≠ [] → Forall2 reads_member ts d →
  ∀ r fuel, (length (join (44%Z :: sp) ts) < fuel)%nat →
  read_members unique constants fuel (join (44 :: sp) ts ++ 125 :: r) = Some (d, r) ∧ opens (join (44 :: sp) ts).
Proof.
  intros Hne Hall. induction Hall as [|t [k v] ts d Hm Hall IH]; [done|].
  intros r [|fuel] Hf; [lia|].
  destruct Hm as (k' & vt & Hk & -> & Hks & Ho & Hv). simpl in Hk, Hv. subst k.
  assert (∀ rest, stops rest → (length vt <= fuel)%nat →
    read_members unique constants (S fuel) ((quoted k' ++ (58 :: sp) ++ vt) ++ rest)
    = match skip_ws rest with
      | 125 :: r => Some ([(PStr k', v)], r)
      | 44 :: s5 => '(l, r) ← read_members unique constants fuel (skip_ws s5); Some ((PStr k', v) :: l, r)
      | _ => None
      end) as Hstep.
  { intros rest Hr Hl. unfold quoted. rewrite <- !app_assoc, <- app_comm_cons, <- !app_assoc.
    set (s1 := (k' ≫= ascii_char) ++ [34] ++ (58 :: sp) ++ vt ++ rest).
    change (read_members unique constants (S fuel) (34 :: s1)) with
      ('(k, s2) ← read_string (S (length s1)) s1;
       match skip_ws s2 with
       | 58 :: s3 =>
           '(v, s4) ← read_value unique constants fuel (skip_ws s3);
           match skip_ws s4 with
           | 125 :: r => Some ([(PStr k, v)], r)
           | 44 :: s5 => '(l, r) ← read_members unique constants fuel (skip_ws s5); Some ((PStr k, v) :: l, r)
           | _ => None
           end
       | _ => None
       end).
    assert (read_string (S (length s1)) s1 = Some (k', (58 :: sp) ++ vt ++ rest)) as ->.
    { apply read_quoted; [done|]. unfold s1. rewrite length_app.
      pose proof (length_quoted k') as Hq. unfold quoted in Hq. simpl in Hq. rewrite length_app in Hq.
      simpl in *. lia. }
    cbn [mbind option_bind]. change (skip_ws ((58 :: sp) ++ vt ++ rest)) with (58 :: sp ++ vt ++ rest).
    cbv beta iota. rewrite skip_blanks, (skip_opens _ _ Ho), Hv by done. done. }
  assert (length vt <= fuel)%nat as Hl.
  { destruct ts; simpl in Hf; rewrite ?length_app in Hf; simpl in Hf; rewrite ?length_app in Hf;
      pose proof (length_quoted k'); lia. }
  assert (∀ rest, opens ((quoted k' ++ (58 :: sp) ++ vt) ++ rest)) as Hopen.
  { intros rest. unfold quoted. by eexists 34, _. }
  destruct ts as [|t2 ts].
  - apply Forall2_nil_inv_l in Hall as ->. simpl join in *.
    split; [|specialize (Hopen []); by rewrite app_nil_r in Hopen].
    rewrite Hstep; [done|by right; right|done].
  - set (a := quoted k' ++ (58 :: sp) ++ vt) in *. change (join (44 :: sp) (a :: t2 :: ts)) with (a ++ (44 :: sp) ++ join (44 :: sp) (t2 :: ts)) in *.
    rewrite (length_app a), (length_app (44%Z :: sp)) in Hf. cbn [length] in Hf.
    destruct (IH ltac:(done) r fuel ltac:(lia)) as [IHr IHo]. split; [|apply Hopen].
    rewrite <- (app_assoc a), <- (app_assoc (44 :: sp)). rewrite Hstep; [|by left|done].
    cbn [app skip_ws is_json_space Z.eqb Pos.eqb orb].
    rewrite skip_blanks, (skip_opens _ _ IHo). by rewrite IHr.
Qed.


Lemma reads_text v : jsonable v = true → ∃ t, json_text float_repr sp v = Ok t ∧ reads t v.
Proof.
  revert v. apply (pyval_nested_ind (λ v, jsonable v = true → ∃ t, json_text float_repr sp v = Ok t ∧ reads t v)).
  - intros [|[]|z| |s| | |]; try done; intros Hj; simpl.
    + eexists. split; [done|]. apply reads_leaf; [by eexists _, _|done].
    + eexists. split; [done|]. apply reads_leaf; [by eexists _, _|done].
    + eexists. split; [done|]. apply reads_leaf; [by eexists _, _|done].
    + eexists. split; [done|]. apply reads_int.
    + eexists. split; [done|]. by apply reads_string.
  - intros l IH Hj. simpl in Hj. rewrite forallb_forall, <- List.Forall_forall in Hj.
    assert (∃ ts, elements (json_text float_repr sp) l = Ok ts ∧ Forall2 reads ts l) as (ts & Hts & Hall).
    { induction IH as [|x l Hx Hl IHl]; [by exists []|].
      apply Forall_cons in Hj as [Hjx Hjl]. destruct (Hx Hjx) as (t & Ht & Hr).
      destruct (IHl Hjl) as (ts & Hts & Hall). exists (t :: ts). split; [|by constructor].
      simpl. rewrite Ht. simpl. by rewrite Hts. }
    exists ([91] ++ join (44 :: sp) ts ++ [93]). split.
    { simpl. unfold elements in Hts. by rewrite Hts. }
    split; [by eexists 91, _|]. intros r [|fuel] Hr Hf; [simpl in Hf; lia|].
    rewrite <- !app_assoc. cbn [app]. destruct ts as [|t ts].
    + apply Forall2_nil_inv_l in Hall as ->. done.
    + cbn [length app] in Hf. rewrite length_app in Hf. cbn [length] in Hf.
      destruct (reads_elements (t :: ts) l ltac:(done) Hall r fuel ltac:(lia)) as [Hread Ho].
      revert Hread Ho. generalize (join (44 :: sp) (t :: ts)). intros j Hread Ho.
      simpl read_value. rewrite (skip_opens _ _ Ho). destruct Ho as (c & t' & -> & _ & H93 & _).
      rewrite <- app_comm_cons in *.
      destruct c as [|c|c]; try (by rewrite Hread).
      do 7 (destruct c as [c|c|]; try (by rewrite Hread)); done.
  - intros d IH Hj. simpl in Hj. apply andb_true_iff in Hj as [Hu Hj].
    rewrite forallb_forall, <- List.Forall_forall in Hj.
    set (go := fix go d := match d with
       | [] => Ok []
       | (k, x) :: d =>
           ks ← json_key float_repr k; s ← json_text float_repr sp x; ss ← go d;
           Ok ((quoted ks ++ (58 :: sp) ++ s) :: ss)
       end).
    assert (∃ ts, go d = Ok ts ∧ Forall2 reads_member ts d) as (ts & Hts & Hall).
    { clear Hu. induction IH as [|[k x] d [_ Hx] Hd IHd]; [by exists []|].
      apply Forall_cons in Hj as [Hjx Hjd]. simpl in Hjx, Hx. apply andb_true_iff in Hjx as [Hk Hjx].
      destruct k as [| | | |s| | |]; try done. destruct (Hx Hjx) as (t & Ht & Hr).
      destruct (IHd Hjd) as (ts & Hts & Hall). exists ((quoted s ++ (58 :: sp) ++ t) :: ts). split.
      - simpl. rewrite Ht. simpl. fold go. by rewrite Hts.
      - constructor; [|done]. by exists s, t. }
    exists ([123] ++ join (44 :: sp) ts ++ [125]). split.
    { change (json_text float_repr sp (PDict d)) with ((λ ss, [123] ++ join (44 :: sp) ss ++ [125]) <$> go d). by rewrite Hts. }
    split; [by eexists 123, _|]. intros r [|fuel] Hr Hf; [simpl in Hf; lia|].
    rewrite <- !app_assoc. cbn [app]. destruct ts as [|t ts].
    + apply Forall2_nil_inv_l in Hall as ->. done.
    + cbn [length app] in Hf. rewrite length_app in Hf. cbn [length] in Hf.
      destruct (reads_members (t :: ts) d ltac:(done) Hall r fuel ltac:(lia)) as [Hread Ho].
      revert Hread Ho. generalize (join (44 :: sp) (t :: ts)). intros j Hread Ho.
      simpl read_value. rewrite (skip_opens _ _ Ho). destruct Ho as (c & t' & -> & _ & _ & H125).
      rewrite <- app_comm_cons in *.
      assert (unique d = Some (PDict d)) as Hud by (unfold unique; by rewrite Hu).
      destruct c as [|c|c]; try (rewrite Hread; cbn [mbind option_bind]; by rewrite Hud).
      do 7 (destruct c as [c|c|]; try (rewrite Hread; cbn [mbind option_bind]; by rewrite Hud)); done.
Qed.
End RoundTrip.

(** ** Objects in key order *)

Lemma unique_keys_spec d :
  unique_keys d = true ↔ Forall (λ p, ∃ s, p.1 = PStr s) d ∧ NoDup d.*1.
Proof.
  induction d as [|[k x] d IH]; csimpl.
  - split; [intros _; split; constructor|done].
  - rewrite Forall_cons, NoDup_cons. simpl. destruct k as [| | | |k| | |];
      try (split; [done|intros [[[s Hs] _] _]; done]).
    rewrite andb_true_iff, negb_true_iff, IH.
    assert (existsb (λ p, key_is_str k p.1) d = false ↔ PStr k ∉ d.*1) as ->.
    { rewrite <- not_true_iff_false, existsb_exists. apply not_iff_compat.
      rewrite list_elem_of_fmap. split.
      - intros ([k' y] & Hin & Hk). simpl in Hk. destruct k'; simplify_eq/=.
        apply str_eqb_eq in Hk as <-. exists (PStr k, y). split; [done|]. by apply list_elem_of_In.
      - intros ([k' y] & Hk & Hin). simpl in Hk. subst k'. exists (PStr k, y).
        split; [by apply list_elem_of_In|]. by apply str_eqb_eq. }
    naive_solver.
Qed.

Lemma insert_key_perm x d : insert_key x d ≡ₚ x :: d.
Proof.
  induction d as [|y d IH]; simpl; [done|]. destruct (key_leb x y); [done|].
  rewrite IH. apply Permutation_swap.
Qed.

(** The sorted members of a dictionary. *)
Definition sort_members : list (pyval * pyval) → list (pyval * pyval) :=
  fix go d := match d with [] => [] | (k, x) :: d => insert_key (k, sort_keys x) (go d) end.

Lemma sort_members_perm d : sort_members d ≡ₚ (λ p, (p.1, sort_keys p.2)) <$> d.
Proof. induction d as [|[k x] d IH]; csimpl; [done|]. by rewrite insert_key_perm, IH. Qed.

Lemma sort_keys_jsonable v : jsonable v = true → jsonable (sort_keys v) = true.
Proof.
  revert v. apply (pyval_nested_ind (λ v, jsonable v = true → jsonable (sort_keys v) = true)).
  - by intros [].
  - intros l IH Hj. simpl in *. rewrite forallb_forall in *. intros y (x & <- & Hx)%in_map_iff.
    rewrite List.Forall_forall in IH. by apply IH, Hj.
  - intros d IH Hj. change (sort_keys (PDict d)) with (PDict (sort_members d)).
    simpl in *. apply andb_true_iff in Hj as [Hu Hj]. apply unique_keys_spec in Hu as [Hs Hnd].
    pose proof (sort_members_perm d) as Hp. apply andb_true_iff. split.
    + apply unique_keys_spec. rewrite Hp. split.
      * apply Forall_fmap. exact Hs.
      * by rewrite <- list_fmap_compose.
    + rewrite forallb_forall in *. intros p Hin. rewrite <- list_elem_of_In, Hp in Hin.
      apply list_elem_of_fmap in Hin as ([k x] & -> & Hin). rewrite list_elem_of_In in Hin.
      specialize (Hj _ Hin). simpl in *. bools. apply andb_true_iff. split; [done|].
      rewrite List.Forall_forall in IH. by apply (IH _ Hin).
Qed.

(** ** The round trip *)

Definition ascii (t : pystr) : Prop := Forall (λ c, 0 < c < 128) t.

Lemma utf8_ascii t : ascii t → utf8_encode t = Some t.
Proof.
  induction 1 as [|c t Hc Ht IH]; [done|]. simpl. unfold is_scalar. rewrite (proj2 (in_range_true _ _ _)) by lia.
  simpl. rewrite IH. simpl. unfold utf8_char. by rewrite (proj2 (Z.ltb_lt _ _)) by lia.
Qed.

Lemma utf8_decode_ascii t : ascii t → utf8_decode t = Some t.
Proof. intros Ht. by apply utf8_roundtrip, utf8_ascii. Qed.

(** [json.dumps(v, sort_keys=True, separators=(',', ':')).encode()] *)
Definition canonical (float_repr : spec_float → pystr) (v : pyval) : result bytes :=
  t ← json_compact float_repr (sort_keys v);
  of_option (ValueError "UnicodeEncodeError") (utf8_encode t).

(** Reading a compact text gives the printed value back. *)
Lemma text_loads float_repr sp constants v :
  forallb is_json_space sp = true → jsonable v = true →
  ∃ t, json_text float_repr sp v = Ok t ∧ json_loads_with unique constants t = Some v.
Proof.
  intros Hs Hj. destruct (reads_text float_repr sp Hs constants v Hj) as (t & Ht & Ho & Hr). exists t. split; [done|].
  unfold json_loads_with. rewrite <- (app_nil_r t) at 2. rewrite skip_opens by done.
  by rewrite (Hr [] _ I) by lia.
Qed.

Lemma compact_loads float_repr v :
  jsonable v = true → ∃ t, json_compact float_repr v = Ok t ∧ json_loads unique t = Some v.
Proof. by apply text_loads. Qed.

(** ** The text is ASCII *)

Lemma hexdigit_ascii n : 0 <= n < 16 → 0 < hexdigit n < 128.
Proof. intros Hn. unfold hexdigit. destruct (Z.ltb_spec n 10); lia. Qed.

Lemma ascii_char_ascii c : is_scalar c = true → ascii (ascii_char c).
Proof.
  intros Hc. unfold ascii, ascii_char.
  destruct (short_escape c) as [e|] eqn:Ee.
  { unfold short_escape in Ee. repeat case_match; simplify_eq; repeat constructor; lia. }
  clear Ee. destruct (in_range 32 126 c) eqn:Er.
  { apply in_range_true in Er. repeat constructor; lia. }
  assert (0 <= c <= 1114111) as Hr
    by (unfold is_scalar in Hc; apply orb_true_iff in Hc as [Hc|Hc]; apply in_range_true in Hc; lia).
  assert (∀ u, 0 <= u < 65536 → Forall (λ c, 0 < c < 128) (u_escape u)) as Hu.
  { intros u Hu. unfold u_escape, hex4_digits. repeat constructor; try lia;
      match goal with |- context [hexdigit ?n] => pose proof (hexdigit_ascii n ltac:(zdiv)); lia end. }
  destruct (Z.ltb_spec c 65536); [apply Hu; lia|]. apply Forall_app. split; apply Hu; zdiv.
Qed.

Lemma quoted_ascii s : forallb is_scalar s = true → ascii (quoted s).
Proof.
  intros Hs. unfold ascii, quoted. constructor; [lia|]. apply Forall_app. split; [|repeat constructor; lia].
  induction s as [|c s IH]; [constructor|]. simpl in Hs. bools. rewrite bind_cons.
  apply Forall_app. split; [by apply ascii_char_ascii|by apply IH].
Qed.

Lemma py_ascii (s : string) :
  Forall (λ a, 0 < Z.of_N (Ascii.N_of_ascii a) < 128) (String.list_ascii_of_string s) → ascii (py s).
Proof. intros Hs. unfold ascii, py. by apply List.Forall_map. Qed.

Lemma json_int_ascii z : ascii (json_int z).
Proof.
  assert (∀ p, ascii (py (pretty_N_go (Npos p) EmptyString))) as Hgo.
  { intros p. enough (∀ n s, ascii (py s) → ascii (py (pretty_N_go n s))) as H by by apply H; constructor.
    intros n. induction (N.lt_wf_0 n) as [n _ IH]. intros s Hs.
    destruct (decide (n = 0)%N) as [->|Hn]; [by rewrite pretty_N_go_0|].
    rewrite pretty_N_go_step by lia. apply IH; [by apply N.div_lt; lia|].
    change (py (String ?a s)) with (Z.of_N (Ascii.N_of_ascii a) :: py s).
    constructor; [|exact Hs]. rewrite digit_char by (by apply N.mod_lt).
    assert (n `mod` 10 < 10)%N as Hm by (by apply N.mod_lt). revert Hm.
    generalize (n `mod` 10)%N. lia. }
  destruct z as [|p|p]; [repeat constructor; lia|apply Hgo|]. rewrite json_int_neg. constructor; [lia|apply Hgo].
Qed.

Lemma join_ascii sp (ts : list pystr) : ascii sp → Forall ascii ts → ascii (join (44 :: sp) ts).
Proof.
  intros Hsp. induction 1 as [|t ts Ht Hts IH]; [constructor|]. destruct ts as [|t2 ts]; [done|].
  change (join (44 :: sp) (t :: t2 :: ts)) with (t ++ 44 :: sp ++ join (44 :: sp) (t2 :: ts)).
  apply Forall_app. split; [done|]. constructor; [lia|]. by apply Forall_app.
Qed.

Lemma text_ascii float_repr sp v t : ascii sp →
  jsonable v = true → json_text float_repr sp v = Ok t → ascii t.
Proof.
  intros Hsp. revert v t. apply (pyval_nested_ind (λ v, ∀ t, jsonable v = true → json_text float_repr sp v = Ok t → ascii t)).
  - intros [|[]|z| |s| | |]; try done; intros t Hj [= <-]; simpl;
      [repeat constructor; lia..|apply json_int_ascii|by apply quoted_ascii].
  - intros l IH t Hj Ht. simpl in Hj. rewrite forallb_forall, <- List.Forall_forall in Hj.
    change (json_text float_repr sp (PList l)) with
      ((λ ss, [91] ++ join (44 :: sp) ss ++ [93]) <$> elements (json_text float_repr sp) l) in Ht.
    apply fmap_Ok in Ht as (ts & Hts & ->). constructor; [lia|]. apply Forall_app.
    split; [|repeat constructor; lia]. apply join_ascii; [done|]. revert ts Hts.
    induction IH as [|x l Hx Hl IHl]; intros ts Hts; simpl in Hts; [by injection Hts as <-|].
    apply Forall_cons in Hj as [Hjx Hjl]. repeat inv_ok1. subst ts. constructor; [by apply Hx|by apply IHl].
  - intros d IH t Hj Ht. simpl in Hj. apply andb_true_iff in Hj as [_ Hj].
    rewrite forallb_forall, <- List.Forall_forall in Hj. cbn [json_text] in Ht.
    apply fmap_Ok in Ht as (ts & Hts & ->). constructor; [lia|]. apply Forall_app.
    split; [|repeat constructor; lia]. apply join_ascii; [done|]. revert ts Hts.
    induction IH as [|[k x] d [_ Hx] Hd IHd]; intros ts Hts; [by injection Hts as <-|].
    apply Forall_cons in Hj as [Hjx Hjd]. simpl in Hjx, Hx. bools.
    destruct k as [| | | |s| | |]; try done. cbn [json_key mbind result_bind] in Hts.
    repeat inv_ok1. subst ts. constructor; [|by apply IHd].
    change (ascii (quoted s ++ 58 :: sp ++ a)). apply Forall_app.
    split; [by apply quoted_ascii|]. constructor; [lia|]. apply Forall_app. split; [done|by apply Hx].
Qed.

Lemma compact_ascii float_repr v t :
  jsonable v = true → json_compact float_repr v = Ok t → ascii t.
Proof. apply text_ascii. constructor. Qed.

(** ** Sorting is idempotent *)

Lemma str_leb_total a b : str_leb a b = false → str_leb b a = true.
Proof.
  revert b. induction a as [|x a IH]; intros [|y b]; simpl; try done. intros H. bools.
  destruct (Z.ltb_spec y x); [done|]. assert (x = y) as -> by lia.
  rewrite Z.eqb_refl in *. simpl in *. by apply IH.
Qed.

Definition key_le (a b : pyval * pyval) : Prop := key_leb a b = true.

Lemma key_le_total a b : key_leb a b = false → key_le b a.
Proof. destruct a as [[] ?], b as [[] ?]; try done. apply str_leb_total. Qed.

Lemma insert_key_sorted x d : Sorted key_le d → Sorted key_le (insert_key x d).
Proof.
  induction 1 as [|y d Hd IH Hhd]; simpl; [by repeat constructor|].
  destruct (key_leb x y) eqn:E; [by repeat constructor|]. constructor; [done|].
  apply key_le_total in E. destruct d as [|z d]; simpl; [by constructor|].
  inversion Hhd; subst. destruct (key_leb x z); by constructor.
Qed.

Lemma sort_members_sorted d : Sorted key_le (sort_members d).
Proof. induction d as [|[k x] d IH]; simpl; [constructor|by apply insert_key_sorted]. Qed.

Lemma sort_members_id d :
  Sorted key_le d → Forall (λ p, sort_keys p.2 = p.2) d → sort_members d = d.
Proof.
  induction 1 as [|[k x] d Hd IH Hhd]; intros Hv; [done|]. apply Forall_cons in Hv as [Hx Hv].
  simpl in *. rewrite Hx, IH by done. destruct Hhd as [|y d Hy]; [done|]. simpl.
  unfold key_le in Hy. by rewrite Hy.
Qed.

Lemma sort_keys_idem v : sort_keys (sort_keys v) = sort_keys v.
Proof.
  revert v. apply (pyval_nested_ind (λ v, sort_keys (sort_keys v) = sort_keys v)).
  - by intros [].
  - intros l IH. simpl. f_equal. rewrite map_map. apply map_ext_in. intros x Hx.
    rewrite List.Forall_forall in IH. by apply IH.
  - intros d IH. change (PDict (sort_members (sort_members d)) = PDict (sort_members d)). f_equal.
    apply sort_members_id; [apply sort_members_sorted|]. rewrite sort_members_perm.
    apply Forall_fmap. eapply Forall_impl; [exact IH|]. by intros [k x] [_ Hx].
Qed.

Inductive encoding := Utf8 | Utf8Sig | Utf16 (little : bool) | Utf32 (little : bool).

(** [json.detect_encoding(b)] with the octets left after a byte order mark. *)
Definition detect_encoding (b : bytes) : encoding * bytes :=
  let at_ i := nth i b 0 in
  if startswith [0; 0; 254; 255] b then (Utf32 false, drop 4 b)
  else if startswith [255; 254; 0; 0] b then (Utf32 true, drop 4 b)
  else if startswith [254; 255] b then (Utf16 false, drop 2 b)
  else if startswith [255; 254] b then (Utf16 true, drop 2 b)
  else if startswith [239; 187; 191] b then (Utf8Sig, drop 3 b)
  else if 4 <=? zlen b then
    if at_ 0%nat =? 0 then (if at_ 1%nat =? 0 then (Utf32 false, b) else (Utf16 false, b))
    else if at_ 1%nat =? 0 then
      (if (at_ 2%nat =? 0) && (at_ 3%nat =? 0) then (Utf32 true, b) else (Utf16 true, b))
    else (Utf8, b)
  else if zlen b =? 2 then
    if at_ 0%nat =? 0 then (Utf16 false, b) else if at_ 1%nat =? 0 then (Utf16 true, b) else (Utf8, b)
  else (Utf8, b).

(** [b.decode('utf-8', 'surrogatepass')]: strict but for encoded surrogates. *)
Fixpoint utf8_pass (b : bytes) : option pystr :=
  match b with
  | [] => Some []
  | x :: b1 =>
      if x <? 128 then (cons x) <$> utf8_pass b1
      else match b1 with
      | y :: b2 =>
          if in_range 194 223 x && is_cont y then (cons (x mod 32 * 64 + y mod 64)) <$> utf8_pass b2
          else match b2 with
          | z :: b3 =>
              let c := x mod 16 * 4096 + y mod 64 * 64 + z mod 64 in
              if in_range 224 239 x && is_cont y && is_cont z && (2048 <=? c) then (cons c) <$> utf8_pass b3
              else match b3 with
              | w :: b4 =>
                  let c := x mod 8 * 262144 + y mod 64 * 4096 + z mod 64 * 64 + w mod 64 in
                  if in_range 240 244 x && is_cont y && is_cont z && is_cont w && in_range 65536 1114111 c
                  then (cons c) <$> utf8_pass b4 else None
              | [] => None
              end
          | [] => None
          end
      | [] => None
      end
  end.

(** The 16-bit units of the octets, and the code points of the units. *)
Fixpoint units16 (little : bool) (b : bytes) : option (list Z) :=
  match b with
  | [] => Some []
  | x :: y :: b => (cons (if little then x + 256 * y else 256 * x + y)) <$> units16 little b
  | _ => None
  end.

Fixpoint join_surrogates (u : list Z) : pystr :=
  match u with
  | [] => []
  | h :: u' =>
      match u' with
      | l :: u'' =>
          if is_high h && is_low l then 65536 + (h - 55296) * 1024 + (l - 56320) :: join_surrogates u''
          else h :: join_surrogates u'
      | [] => [h]
      end
  end.

Fixpoint points32 (little : bool) (b : bytes) : option pystr :=
  match b with
  | [] => Some []
  | x :: y :: z :: w :: b =>
      let c := if little then x + 256 * (y + 256 * (z + 256 * w)) else w + 256 * (z + 256 * (y + 256 * x)) in
      if in_range 0 1114111 c then (cons c) <$> points32 little b else None
  | _ => None
  end.

Definition json_decode (b : bytes) : option pystr :=
  match detect_encoding b with
  | (Utf8, r) | (Utf8Sig, r) => utf8_pass r
  | (Utf16 little, r) => join_surrogates <$> units16 little r
  | (Utf32 little, r) => points32 little r
  end.

(** [json.loads(raw, object_pairs_hook=_unique_fields)]: every failure is a
    [ValueError]. *)
Definition json_loads_bytes (raw : bytes) : option pyval := json_decode raw ≫= json_loads unique.

(** ** Printed text is read as UTF-8 *)

Lemma utf8_pass_ascii t : ascii t → utf8_pass t = Some t.
Proof.
  induction 1 as [|c t Hc Ht IH]; [done|]. cbn [utf8_pass]. rewrite (proj2 (Z.ltb_lt _ _)) by lia.
  by rewrite IH.
Qed.

Lemma ascii_nth t i : ascii t → (i < length t)%nat → nth i t 0 =? 0 = false.
Proof.
  intros Ht Hi. apply Z.eqb_neq. unfold ascii in Ht. rewrite List.Forall_forall in Ht.
  assert (0 < nth i t 0 < 128) by (apply Ht, nth_In, Hi). lia.
Qed.

Lemma ascii_startswith t p ps : ascii t → in_range 1 127 p = false → startswith (p :: ps) t = false.
Proof.
  intros Ht Hp. unfold startswith. apply bool_decide_eq_false. destruct t as [|c t]; [done|].
  apply Forall_cons in Ht as [Hc _]. intros [= -> _]. apply in_range_false in Hp. lia.
Qed.

Lemma detect_ascii t : ascii t → detect_encoding t = (Utf8, t).
Proof.
  intros Ht. unfold detect_encoding. rewrite !(ascii_startswith t) by (done || reflexivity).
  cbv zeta. destruct (Z.leb_spec 4 (zlen t)) as [H4|_]; unfold zlen in *.
  - by rewrite !(ascii_nth t) by (done || lia).
  - destruct (Z.eqb_spec (Z.of_nat (length t)) 2) as [H2|_]; [|done]. by rewrite !(ascii_nth t) by (done || lia).
Qed.

(** Text free of NUL below 128 is what [json.loads] reads. *)
Lemma json_decode_ascii t : ascii t → json_decode t = Some t.
Proof. intros Ht. unfold json_decode. rewrite detect_ascii by done. by apply utf8_pass_ascii. Qed.

(** Signed text round trips: every value of the wire (no floats, no lone
    surrogates, unique string keys) has a canonical encoding, whose octets the
    strict reader decodes to the same value with the members of every object
    in order, and that value encodes to the same octets again: the verifier of a
    signature checks the octets that were signed. *)
Theorem canonical_roundtrip float_repr v :
  jsonable v = true →
  ∃ b, canonical float_repr v = Ok b ∧ json_loads_bytes b = Some (sort_keys v)
  ∧ canonical float_repr (sort_keys v) = Ok b.
Proof.
  intros Hj. pose proof (sort_keys_jsonable v Hj) as Hs.
  destruct (compact_loads float_repr _ Hs) as (t & Ht & Hl).
  pose proof (compact_ascii float_repr _ _ Hs Ht) as Ha. exists t. unfold canonical.
  rewrite sort_keys_idem, Ht. simpl. rewrite utf8_ascii by done.
  split; [done|]. split; [|done]. unfold json_loads_bytes. by rewrite json_decode_ascii.
Qed.

Definition sample_document : pyval :=
  PDict [(PStr (py "status"), PStr (py "APPLIED")); (PStr (py "error"), PNone);
         (PStr (py "body"), PDict [(PStr (py "b"), PInt (-12)); (PStr (py "a"), PList [PBool true; PStr [233; 128512]])])].

Lemma canonical_roundtrip_witness :
  ∃ b, canonical (λ _, []) sample_document = Ok b
  ∧ json_loads_bytes b = Some (sort_keys sample_document)
  ∧ canonical (λ _, []) (sort_keys sample_document) = Ok b.
Proof. apply (canonical_roundtrip (λ _, []) sample_document). vm_compute. reflexivity. Defined.
