(* ===== verification/Notices.v ===== *)
(** Service announcements: the signed LXMF notice (messenger/notices.py) and
    the operator's public feed (messenger/service_events.py). *)
From Stdlib Require Import ZArith Lia.
From S2P Require Import Prelude PyData Json.

Local Open Scope Z_scope.

Definition KINDS : list pystr :=
  [py "update"; py "maintenance"; py "server_change"; py "information"].
Definition PLATFORMS : list pystr := [py "android"; py "windows"; py "linux"].

(** The signed event of a service message, after validation. *)
Record notice := Notice {
  n_event_id : pystr;
  n_revision : Z;
  n_kind : pystr;
  n_title : pystr;
  n_body : pystr;
  n_created : Z;
  n_expires : Z;
  n_platforms : list pystr;
  n_min_version : Z;
  n_max_version : Z;
}.

#[export] Instance notice_eq_dec : EqDecision notice.
Proof. solve_decision. Defined.

(** [any(ord(char) < 32 and char not in '\n\t' for char in value)] *)
Definition has_control (s : pystr) : bool :=
  existsb (λ c, (c <? 32) && negb ((c =? 10) || (c =? 9))) s.

(** [type(value) is str and value.strip() and len(value.encode()) <= limit and
    no control characters]; an unencodable string raises as well. *)
Definition service_text (limit : Z) (v : pyval) : result pystr :=
  s ← of_option (ValueError "Invalid service text") (as_str v);
  raise_if (bool_decide (strip s = [])) (ValueError "Invalid service text");;
  b ← of_option (ValueError "Invalid service text") (utf8_encode s);
  raise_if (limit <? zlen b) (ValueError "Invalid service text");;
  raise_if (has_control s) (ValueError "Invalid service text");;
  Ok s.

(** A non-empty list of distinct platform names. *)
Definition platform_list (e : exn) (v : pyval) : result (list pystr) :=
  l ← of_option e (as_list v);
  raise_if (bool_decide (l = [])) e;;
  ps ← of_option e (mapM as_str l);
  raise_if (existsb (λ p, negb (bool_decide (p ∈ PLATFORMS))) ps) e;;
  raise_if (negb (bool_decide (NoDup ps))) e;;
  Ok ps.

Definition notice_fields : list string :=
  ["event_id"; "revision"; "kind"; "title"; "body"; "created"; "expires";
   "platforms"; "min_version"; "max_version"].

Definition validate_notice (event : pyval) : result notice :=
  d ← of_option (ValueError "Invalid service fields") (as_dict event);
  require (keys_are notice_fields d) (ValueError "Invalid service fields");;
  vid ← item "event_id" d;
  ident ← of_option (ValueError "Invalid service ID") (as_str vid);
  require (hex_match 32 ident) (ValueError "Invalid service ID");;
  vrev ← item "revision" d;
  revision ← of_option (ValueError "Invalid service revision") (as_int vrev);
  require (in_range 1 1000000 revision) (ValueError "Invalid service revision");;
  vkind ← item "kind" d;
  kind ← of_option (ValueError "Invalid service kind") (as_str vkind);
  require (bool_decide (kind ∈ KINDS)) (ValueError "Invalid service kind");;
  vtitle ← item "title" d;
  title ← service_text 160 vtitle;
  vbody ← item "body" d;
  body ← service_text 4000 vbody;
  vcreated ← item "created" d;
  vexpires ← item "expires" d;
  created ← of_option (ValueError "Invalid service lifetime") (as_int vcreated);
  expires ← of_option (ValueError "Invalid service lifetime") (as_int vexpires);
  require ((0 <? created) && (created <? expires) && (expires <=? created + 30 * 86400))
    (ValueError "Invalid service lifetime");;
  vplatforms ← item "platforms" d;
  raise_if (if as_list vplatforms is Some l then 3 <? zlen l else true)
    (ValueError "Invalid service platforms");;
  platforms ← platform_list (ValueError "Invalid service platforms") vplatforms;
  vmin ← item "min_version" d;
  min_version ← of_option (ValueError "Invalid service version") (as_int vmin);
  require (in_range 0 2147483647 min_version) (ValueError "Invalid service version");;
  vmax ← item "max_version" d;
  max_version ← of_option (ValueError "Invalid service version") (as_int vmax);
  require (in_range 0 2147483647 max_version) (ValueError "Invalid service version");;
  raise_if (max_version <? min_version) (ValueError "Invalid service version range");;
  Ok (Notice ident revision kind title body created expires platforms
        min_version max_version).

(** The clock is an exact number of nanoseconds (see [Clock] in Store). *)
Definition SECOND : Z := 1000000000.

Definition applicable (event : notice) (platform : pystr) (version now : Z) : bool :=
  (n_created event * SECOND <=? now + 300 * SECOND)
  && (now <? n_expires event * SECOND)
  && bool_decide (platform ∈ n_platforms event)
  && (n_min_version event <=? version) && (version <=? n_max_version event).

(** The wire dictionary of a notice, as [dict(event)] returns it. *)
Definition notice_val (n : notice) : pyval :=
  PDict [(PStr (py "event_id"), PStr (n_event_id n));
         (PStr (py "revision"), PInt (n_revision n));
         (PStr (py "kind"), PStr (n_kind n));
         (PStr (py "title"), PStr (n_title n));
         (PStr (py "body"), PStr (n_body n));
         (PStr (py "created"), PInt (n_created n));
         (PStr (py "expires"), PInt (n_expires n));
         (PStr (py "platforms"), PList (PStr <$> n_platforms n));
         (PStr (py "min_version"), PInt (n_min_version n));
         (PStr (py "max_version"), PInt (n_max_version n))].

(** ** The public feed *)

Record feed_event := FeedEvent {
  f_id : pystr;
  f_kind : pystr;
  f_title : pystr;
  f_body : pystr;
  f_author : pystr;
  f_created : Z;
  f_expires : Z;
  f_platforms : list pystr;
  (** version 2 feeds add a revision, its time and its editor *)
  f_revision : option (Z * Z * pystr);
}.

#[export] Instance feed_event_eq_dec : EqDecision feed_event.
Proof. solve_decision. Defined.

Definition feed_text (limit : Z) (v : pyval) : result pystr :=
  s ← of_option (ValueError "Invalid text") (as_str v);
  raise_if (bool_decide (strip s = []) || (limit <? zlen s) || has_control s)
    (ValueError "Invalid text");;
  Ok s.

Definition feed_fields (version : Z) : list string :=
  ["id"; "kind"; "title"; "body"; "author"; "created"; "expires"; "platforms"]
  ++ if version =? 2 then ["revision"; "updated"; "editor"] else [].

Definition feed_revision (version now : Z) (d : list (pyval * pyval)) :
    result (option (Z * Z * pystr)) :=
  if version =? 2 then
    vrev ← item "revision" d;
    vupd ← item "updated" d;
    vcre ← item "created" d;
    revision ← of_option (ValueError "Invalid revision") (as_int vrev);
    require (in_range 1 1000000 revision) (ValueError "Invalid revision");;
    updated ← of_option (ValueError "Invalid revision") (as_int vupd);
    created ← of_option (ValueError "Invalid revision") (as_int vcre);
    require ((created <=? updated) && (updated <=? now + 300)) (ValueError "Invalid revision");;
    ved ← item "editor" d;
    editor ← of_option (ValueError "Invalid editor") (as_str ved);
    raise_if (bool_decide (strip editor = []) || (80 <? zlen editor))
      (ValueError "Invalid editor");;
    Ok (Some (revision, updated, editor))
  else Ok None.

(** One iteration of the loop over [events], with the ids seen so far. *)
Definition feed_event_of (version now : Z) (seen : list pystr) (event : pyval) :
    result feed_event :=
  d ← of_option (ValueError "Invalid event") (as_dict event);
  require (keys_are (feed_fields version) d) (ValueError "Invalid event");;
  rev ← feed_revision version now d;
  vid ← item "id" d;
  ident ← of_option (ValueError "Invalid event id") (as_str vid);
  require (hex_match 32 ident && negb (bool_decide (ident ∈ seen)))
    (ValueError "Invalid event id");;
  vkind ← item "kind" d;
  kind ← of_option (ValueError "Invalid kind") (as_str vkind);
  require (bool_decide (kind ∈ KINDS)) (ValueError "Invalid kind");;
  vtitle ← item "title" d;
  title ← feed_text 160 vtitle;
  vbody ← item "body" d;
  body ← feed_text 4000 vbody;
  vauthor ← item "author" d;
  author ← feed_text 80 vauthor;
  vcreated ← item "created" d;
  vexpires ← item "expires" d;
  created ← of_option (ValueError "Invalid time") (as_int vcreated);
  expires ← of_option (ValueError "Invalid time") (as_int vexpires);
  require ((0 <? created) && (created <? expires) && (created <=? now + 300))
    (ValueError "Invalid time");;
  vplatforms ← item "platforms" d;
  platforms ← platform_list (ValueError "Invalid platforms") vplatforms;
  Ok (FeedEvent ident kind title body author created expires platforms rev).

(** [event['expires'] > now and (platform is None or platform in targets)] *)
Definition feed_keeps (platform : option pystr) (now : Z) (e : feed_event) : bool :=
  (now <? f_expires e) &&
  match platform with None => true | Some p => bool_decide (p ∈ f_platforms e) end.

Fixpoint feed_loop (version : Z) (platform : option pystr) (now : Z)
    (seen : list pystr) (events : list pyval) : result (list feed_event) :=
  match events with
  | [] => Ok []
  | event :: events =>
      e ← feed_event_of version now seen event;
      rest ← feed_loop version platform now (f_id e :: seen) events;
      Ok (if feed_keeps platform now e then e :: rest else rest)
  end.

Definition validate_feed (float_repr : spec_float → pystr) (feed : pyval)
    (platform : option pystr) (now : Z) : result (list feed_event) :=
  d ← of_option (ValueError "Invalid feed") (as_dict feed);
  require (keys_are ["version"; "events"] d) (ValueError "Invalid feed");;
  vver ← item "version" d;
  version ← of_option (ValueError "Invalid feed") (as_int vver);
  require ((version =? 1) || (version =? 2)) (ValueError "Invalid feed");;
  size ← json_size float_repr feed;
  raise_if (1000000 <? size) (ValueError "Feed too large");;
  vevents ← item "events" d;
  events ← of_option (ValueError "Invalid events") (as_list vevents);
  raise_if (200 <? zlen events) (ValueError "Invalid events");;
  feed_loop version platform now [] events.

(** ** Properties *)

Definition service_text_ok (limit : Z) (s : pystr) : Prop :=
  strip s ≠ [] ∧ (∃ b, utf8_encode s = Some b ∧ zlen b <= limit) ∧ has_control s = false.

Definition platforms_ok (ps : list pystr) : Prop :=
  ps ≠ [] ∧ Forall (.∈ PLATFORMS) ps ∧ NoDup ps.

Record notice_wf (n : notice) : Prop := {
  wf_event_id : hex_match 32 (n_event_id n) = true;
  wf_revision : 1 <= n_revision n <= 1000000;
  wf_kind : n_kind n ∈ KINDS;
  wf_title : service_text_ok 160 (n_title n);
  wf_body : service_text_ok 4000 (n_body n);
  wf_created : 0 < n_created n < n_expires n;
  wf_lifetime : n_expires n <= n_created n + 30 * 86400;
  wf_platforms : platforms_ok (n_platforms n);
  wf_platform_count : zlen (n_platforms n) <= 3;
  wf_min : 0 <= n_min_version n;
  wf_versions : n_min_version n <= n_max_version n;
  wf_max : n_max_version n <= 2147483647;
}.

Lemma service_text_spec limit v s :
  service_text limit v = Ok s ↔ v = PStr s ∧ service_text_ok limit s.
Proof.
  unfold service_text, service_text_ok. split.
  - intros H. inv_ok. bools. destruct v; simplify_eq/=. eauto 10 with lia.
  - intros [-> (Hs & (b & Hb & Hl) & Hc)]. cbn.
    rewrite bool_decide_false by done. cbn. rewrite Hb. cbn.
    rewrite (proj2 (Z.ltb_ge _ _)) by lia. cbn. by rewrite Hc.
Qed.

Lemma platform_list_spec e v ps :
  platform_list e v = Ok ps ↔ v = PList (PStr <$> ps) ∧ platforms_ok ps.
Proof.
  unfold platform_list, platforms_ok. split.
  - intros H. inv_ok. destruct v; simplify_eq/=.
    match goal with H : mapM _ _ = Some _ |- _ => apply mapM_as_str_inv in H as -> end.
    bools. split; [done|]. repeat split; [|apply Forall_forall|done].
    + intros ->. done.
    + intros x Hx. destruct (decide (x ∈ PLATFORMS)) as [|Hn]; [done|].
      match goal with H : existsb _ _ = false |- _ => rename H into Hex end.
      enough (existsb (λ p, negb (bool_decide (p ∈ PLATFORMS))) ps = true) by congruence.
      apply existsb_exists. exists x. split; [by apply list_elem_of_In|].
      by rewrite bool_decide_false.
  - intros [-> (Hne & Hall & Hnd)]. cbn [as_list of_option mbind result_bind].
    rewrite bool_decide_false by (destruct ps; done). cbn.
    rewrite mapM_as_str. cbn.
    assert (existsb (λ p, negb (bool_decide (p ∈ PLATFORMS))) ps = false) as ->.
    { apply not_true_is_false. intros (x & Hx & Hn)%existsb_exists.
      apply list_elem_of_In in Hx. rewrite Forall_forall in Hall. specialize (Hall x Hx).
      by rewrite bool_decide_true in Hn. }
    cbn. by rewrite bool_decide_true.
Qed.

Lemma validate_notice_wf v n : validate_notice v = Ok n → notice_wf n.
Proof.
  unfold validate_notice. intros H. inv_ok.
  repeat match goal with
  | H : service_text _ _ = Ok _ |- _ => apply service_text_spec in H as [? ?]
  | H : platform_list _ _ = Ok _ |- _ => apply platform_list_spec in H as [? ?]
  end. subst. bools.
  repeat match goal with H : in_range _ _ _ = true |- _ => apply in_range_true in H end.
  cbn [as_list] in *. bools. unfold zlen in *. rewrite length_fmap in *.
  constructor; cbn; unfold zlen; try done; lia.
Qed.

Lemma validate_notice_val n : notice_wf n → validate_notice (notice_val n) = Ok n.
Proof.
  intros [Hid Hrev Hk Ht Hb Hc Hl Hp Hpc Hmin Hver Hmax].
  assert (in_range 1 1000000 (n_revision n) = true) as E1 by (apply in_range_true; lia).
  assert (in_range 0 2147483647 (n_min_version n) = true) as E2 by (apply in_range_true; lia).
  assert (in_range 0 2147483647 (n_max_version n) = true) as E3 by (apply in_range_true; lia).
  assert ((0 <? n_created n) && (n_created n <? n_expires n)
    && (n_expires n <=? n_created n + 30 * 86400) = true) as E4.
  { rewrite !andb_true_iff, !Z.ltb_lt, Z.leb_le. lia. }
  assert ((3 <? zlen (PStr <$> n_platforms n)) = false) as E5.
  { apply Z.ltb_ge. unfold zlen in *. by rewrite length_fmap. }
  assert ((n_max_version n <? n_min_version n) = false) as E6 by (apply Z.ltb_ge; lia).
  unfold validate_notice, notice_val, notice_fields. mred. dict_simpl. mred.
  rewrite Hid, E1, E2, E3, E4, E5, E6, bool_decide_true by done. mred.
  rewrite (proj2 (service_text_spec _ _ _) (conj eq_refl Ht)). mred.
  rewrite (proj2 (service_text_spec _ _ _) (conj eq_refl Hb)). mred.
  rewrite (proj2 (platform_list_spec _ _ _) (conj eq_refl Hp)). mred. by destruct n.
Qed.

(** What one accepted feed entry satisfies. *)
Lemma feed_event_of_spec version now seen v e :
  feed_event_of version now seen v = Ok e →
  hex_match 32 (f_id e) = true ∧ f_id e ∉ seen ∧ f_kind e ∈ KINDS
  ∧ 0 < f_created e < f_expires e ∧ f_created e <= now + 300 ∧ platforms_ok (f_platforms e).
Proof.
  unfold feed_event_of. intros H. inv_ok. bools.
  match goal with H : platform_list _ _ = Ok _ |- _ => apply platform_list_spec in H as [? ?] end.
  cbn. split_and!; try done; lia.
Qed.

Lemma feed_loop_spec version platform now seen l res :
  feed_loop version platform now seen l = Ok res →
  Forall (λ e, feed_keeps platform now e = true ∧ f_created e <= now + 300
               ∧ platforms_ok (f_platforms e) ∧ f_id e ∉ seen) res
  ∧ NoDup (f_id <$> res).
Proof.
  revert seen res. induction l as [|v l IH]; intros seen res H; cbn in H.
  { simplify_eq. split; constructor. }
  inv_ok. match goal with H : feed_event_of _ _ _ _ = Ok ?e |- _ =>
    apply feed_event_of_spec in H as (_ & Hseen & _ & _ & Hc & Hp); rename e into ev end.
  match goal with H : feed_loop _ _ _ _ _ = Ok _ |- _ => apply IH in H as [Hall Hnd] end.
  assert (Hall' := Hall). rewrite Forall_forall in Hall'.
  destruct (feed_keeps platform now ev) eqn:Hk; csimpl.
  - split.
    + constructor; [done|]. eapply Forall_impl; [exact Hall|]. cbn. set_solver.
    + apply NoDup_cons. split; [|done]. intros (e & He & Hin)%list_elem_of_fmap.
      destruct (Hall' e Hin) as (_ & _ & _ & Hn). set_solver.
  - split; [|done]. eapply Forall_impl; [exact Hall|]. cbn. set_solver.
Qed.
