(* ===== verification/Rns.v ===== *)
(** The interface to the Reticulum/LXMF stack, third-party code the messenger
    calls.  Operations and their documented behaviour are type classes; the
    messenger's definitions take the operations as parameters and only the
    theorems that need a law assume it. *)
From Stdlib Require Import ZArith Lia.
From S2P Require Import Prelude PyData.

Local Open Scope Z_scope.

(** Field numbers and audio modes of the LXMF specification. *)
Class Lxmf := {
  FIELD_AUDIO : Z;
  FIELD_CUSTOM_DATA : Z;
  AM_OPUS_OGG : Z;
  AM_CODEC2_1600 : Z;
  AM_CODEC2_2400 : Z;
  AM_CODEC2_3200 : Z;
}.

Class LxmfLaws `{Lxmf} : Prop := {
  fields_distinct : FIELD_AUDIO ≠ FIELD_CUSTOM_DATA;
  modes_distinct :
    NoDup [AM_OPUS_OGG; AM_CODEC2_1600; AM_CODEC2_2400; AM_CODEC2_3200];
}.

(** Identities, destinations, hashes, encryption and the message container. *)
Class Rns := {
  (** an [RNS.Identity] holding private keys *)
  identity : Type;
  (** [identity.get_public_key()] *)
  public_of : identity → bytes;
  (** [RNS.Identity.hash] of a loaded public key *)
  identity_hash : bytes → bytes;
  (** [RNS.Destination.hash(identity(public), 'lxmf', 'delivery')] *)
  destination_hash : bytes → bytes;
  (** [RNS.Identity.full_hash], SHA-256, which [hashlib.sha256] also computes *)
  full_hash : bytes → bytes;
  sign : identity → bytes → bytes;
  validate : bytes → bytes → bytes → bool;
  (** [identity(public).encrypt(plaintext)]; the first argument is the
      ephemeral randomness *)
  encrypt : bytes → bytes → bytes → bytes;
  decrypt : identity → bytes → option bytes;
  (** RNS.vendor.umsgpack *)
  packb : pyval → bytes;
  unpackb : bytes → option pyval;
  (** [LXMF.LXMessage(destination, source, text, fields).pack()].packed for a
      recipient key, at a timestamp *)
  lxm_pack : identity → bytes → bytes → pyval → pyval → bytes;
}.

(** The layout of a packed message: destination, source, signature over both
    and the payload with its hash, then the msgpack payload
    [[timestamp, title, content, fields]]. *)
Definition lxm_layout {I : Type} (pub : I → bytes) (dst hash : bytes → bytes)
    (sgn : I → bytes → bytes) (mpack : pyval → bytes)
    (i : I) (r text : bytes) (fields ts : pyval) : bytes :=
  let payload := mpack (PList [ts; PBytes []; PBytes text; fields]) in
  let hashed := dst r ++ dst (pub i) ++ payload in
  dst r ++ dst (pub i) ++ sgn i (hashed ++ hash hashed) ++ payload.

Class RnsLaws `{Rns} : Prop := {
  public_length i : length (public_of i) = 64%nat;
  destination_length p : length (destination_hash p) = 16%nat;
  destination_bytes p : all_bytes (destination_hash p);
  full_hash_length b : length (full_hash b) = 32%nat;
  full_hash_bytes b : all_bytes (full_hash b);
  sign_length i m : length (sign i m) = 64%nat;
  validate_sign i m : validate (public_of i) (sign i m) m = true;
  decrypt_encrypt i r m : decrypt i (encrypt (public_of i) r m) = Some m;
  unpackb_packb v : unpackb (packb v) = Some v;
  lxm_pack_layout i r text fields ts :
    lxm_pack i r text fields ts =
    lxm_layout public_of destination_hash full_hash sign packb i r text fields ts;
  lxm_pack_bytes i r text fields ts : all_bytes (lxm_pack i r text fields ts);
}.

(** Ed25519 of the [cryptography] package: a signing key with its raw public
    key, and [public.verify(signature, message)] not raising. *)
Class Ed25519 := {
  signing_key : Type;
  ed_public : signing_key → bytes;
  ed_sign : signing_key → bytes → bytes;
  ed_verify : bytes → bytes → bytes → bool;
}.
