(* ===== verification/RnsModel.v ===== *)
(** A concrete executable instance of the Reticulum interface that satisfies
    its laws.  It is not cryptography: it shows that the assumptions of the
    messenger theorems hold together, and lets witnesses run end to end. *)
From Stdlib Require Import ZArith Lia.
From stdpp Require Import countable.
From S2P Require Import Prelude PyData Rns.

Local Open Scope Z_scope.

#[export] Instance lxmf_constants : Lxmf := {|
  FIELD_AUDIO := 7; FIELD_CUSTOM_DATA := 252; AM_OPUS_OGG := 16;
  AM_CODEC2_1600 := 7; AM_CODEC2_2400 := 8; AM_CODEC2_3200 := 9;
|}.

#[export] Instance lxmf_constants_laws : LxmfLaws.
Proof.
  split; [done|].
  apply (bool_decide_unpack (NoDup [AM_OPUS_OGG; AM_CODEC2_1600; AM_CODEC2_2400; AM_CODEC2_3200])).
  vm_compute. exact I.
Qed.

(** ** A serializer for dynamic values *)

#[export] Instance spec_float_countable : Countable spec_float.
Proof.
  refine (inj_countable'
    (λ f : spec_float, match f with
      | S754_zero s => inl (inl s) | S754_infinity s => inl (inr (inl s))
      | S754_nan => inl (inr (inr ())) | S754_finite s m e => inr (s, m, e) end)
    (λ x : (bool + (bool + ())) + (bool * positive * Z), match x with
      | inl (inl s) => S754_zero s | inl (inr (inl s)) => S754_infinity s
      | inl (inr (inr _)) => S754_nan | inr (s, m, e) => S754_finite s m e end) _).
  by intros [].
Defined.

Definition leaf : Type := (() + bool) + (Z + spec_float) + (list Z + list Z).

Fixpoint to_tree (v : pyval) : gen_tree leaf :=
  match v with
  | PNone => GenLeaf (inl (inl (inl ())))
  | PBool b => GenLeaf (inl (inl (inr b)))
  | PInt z => GenLeaf (inl (inr (inl z)))
  | PFloat f => GenLeaf (inl (inr (inr f)))
  | PStr s => GenLeaf (inr (inl s))
  | PBytes b => GenLeaf (inr (inr b))
  | PList l => GenNode 0 (map to_tree l)
  | PDict d => GenNode 1 (map (λ p, GenNode 2 [to_tree p.1; to_tree p.2]) d)
  end.

Fixpoint of_tree (t : gen_tree leaf) : option pyval :=
  match t with
  | GenLeaf (inl (inl (inl _))) => Some PNone
  | GenLeaf (inl (inl (inr b))) => Some (PBool b)
  | GenLeaf (inl (inr (inl z))) => Some (PInt z)
  | GenLeaf (inl (inr (inr f))) => Some (PFloat f)
  | GenLeaf (inr (inl s)) => Some (PStr s)
  | GenLeaf (inr (inr b)) => Some (PBytes b)
  | GenNode 0 l =>
      PList <$> (fix go l := match l with
        | [] => Some []
        | t :: l => v ← of_tree t; vs ← go l; Some (v :: vs)
        end) l
  | GenNode 1 l =>
      PDict <$> (fix go l := match l with
        | [] => Some []
        | GenNode 2 [k; x] :: l => kv ← of_tree k; xv ← of_tree x; vs ← go l; Some ((kv, xv) :: vs)
        | _ => None
        end) l
  | _ => None
  end.

Lemma of_to_tree v : of_tree (to_tree v) = Some v.
Proof.
  revert v. apply pyval_nested_ind; [by intros []|intros l IH|intros d IH].
  - cbn [to_tree of_tree map].
    enough ((fix go l := match l with
        | [] => Some []
        | t :: l => v ← of_tree t; vs ← go l; Some (v :: vs)
        end) (map to_tree l) = Some l) as -> by done.
    induction IH as [|x l Hx Hl IH]; [done|]. cbn [map]. rewrite Hx. cbn. by rewrite IH.
  - cbn [to_tree of_tree map].
    enough ((fix go l := match l with
        | [] => Some []
        | GenNode 2 [k; x] :: l => kv ← of_tree k; xv ← of_tree x; vs ← go l; Some ((kv, xv) :: vs)
        | _ => None
        end) (map (λ p, GenNode 2 [to_tree p.1; to_tree p.2]) d) = Some d) as -> by done.
    induction IH as [|[k x] d [Hk Hx] Hd IH]; [done|]. cbn [map fst snd] in *.
    rewrite Hk, Hx. cbn. by rewrite IH.
Qed.

(** The tokens of the tree as integers, and the integers as octets in groups of
    seven bits. *)
Abbreviation token := ((nat * nat) + leaf)%type.

Definition token_ints (t : token) : list Z :=
  match t with
  | inl (n, k) => [0; Z.of_nat n; Z.of_nat k]
  | inr (inl (inl (inl _))) => [1]
  | inr (inl (inl (inr b))) => [2; Z.b2z b]
  | inr (inl (inr (inl z))) => [3; z]
  | inr (inl (inr (inr f))) => [4; Zpos (encode f)]
  | inr (inr (inl s)) => 5 :: zlen s :: s
  | inr (inr (inr b)) => 6 :: zlen b :: b
  end.

Definition read_token (tag : Z) (l : list Z) : option (token * list Z) :=
  if tag =? 1 then Some (inr (inl (inl (inl ()))), l)
  else match l with
  | [] => None
  | x :: r =>
      if tag =? 0 then match r with k :: r => Some (inl (Z.to_nat x, Z.to_nat k), r) | [] => None end
      else if tag =? 2 then Some (inr (inl (inl (inr (x =? 1)))), r)
      else if tag =? 3 then Some (inr (inl (inr (inl x))), r)
      else if tag =? 4 then (λ f, (inr (inl (inr (inr f))), r)) <$> decode (Z.to_pos x)
      else let n := Z.to_nat x in
        Some (inr (inr (if tag =? 5 then inl (take n r) else inr (take n r))), drop n r)
  end.

Fixpoint read_tokens (fuel : nat) (l : list Z) : option (list token) :=
  match fuel, l with
  | _, [] => Some []
  | S fuel, tag :: l => '(t, r) ← read_token tag l; cons t <$> read_tokens fuel r
  | O, _ => None
  end.

Definition zigzag (z : Z) : Z := if z <? 0 then -2 * z - 1 else 2 * z.
Definition unzigzag (u : Z) : Z := if Z.odd u then - ((u + 1) / 2) else u / 2.

Fixpoint varint (fuel : nat) (u : Z) : bytes :=
  match fuel with
  | O => [Z.land u 127]
  | S fuel => if u <? 128 then [Z.land u 127] else 128 + Z.land u 127 :: varint fuel (Z.shiftr u 7)
  end.

Definition int_octets (z : Z) : bytes := varint (Z.to_nat (Z.log2 (zigzag z))) (zigzag z).

Fixpoint read_varint (b : bytes) : option (Z * bytes) :=
  match b with
  | [] => None
  | x :: b => if x <? 128 then Some (x, b) else '(v, r) ← read_varint b; Some (x - 128 + 128 * v, r)
  end.

Fixpoint read_ints (fuel : nat) (b : bytes) : option (list Z) :=
  match fuel, b with
  | _, [] => Some []
  | S fuel, _ => '(u, r) ← read_varint b; cons (unzigzag u) <$> read_ints fuel r
  | O, _ => None
  end.

Definition toy_packb (v : pyval) : bytes :=
  (gen_tree_to_list (to_tree v) ≫= token_ints) ≫= int_octets.

Definition toy_unpackb (b : bytes) : option pyval :=
  ints ← read_ints (length b) b;
  l ← read_tokens (length ints) ints;
  t ← gen_tree_of_list [] l;
  of_tree t.

Lemma read_token_ints t r : ∃ tag l, token_ints t ++ r = tag :: l ∧ read_token tag l = Some (t, r).
Proof.
  destruct t as [[n k]|[[[[]|[]]|[z|f]]|[s|b]]]; cbn [token_ints app]; eexists _, _; (split; [reflexivity|]);
    cbn [read_token Z.eqb Pos.eqb Z.b2z]; try done.
  - by rewrite !Nat2Z.id.
  - cbn [Z.to_pos]. by rewrite decode_encode.
  - unfold zlen. rewrite Nat2Z.id, take_app_length, drop_app_length. done.
  - unfold zlen. rewrite Nat2Z.id, take_app_length, drop_app_length. done.
Qed.

Lemma read_tokens_ints ts fuel : (length ts <= fuel)%nat → read_tokens fuel (ts ≫= token_ints) = Some ts.
Proof.
  revert fuel. induction ts as [|t ts IH]; intros fuel Hf; [by destruct fuel|]. rewrite bind_cons.
  destruct (read_token_ints t (ts ≫= token_ints)) as (tag & l & -> & Ht). simpl in Hf.
  destruct fuel as [|fuel]; [lia|]. cbn [read_tokens]. rewrite Ht. cbn [mbind option_bind].
  by rewrite IH by lia.
Qed.

Lemma token_ints_length ts : (length ts <= length (ts ≫= token_ints))%nat.
Proof.
  induction ts as [|t ts IH]; [done|]. rewrite bind_cons, length_app. simpl.
  assert (1 <= length (token_ints t))%nat by (destruct t as [[]|[[[[]|[]]|[]]|[]]]; simpl; lia). lia.
Qed.

Lemma unzigzag_zigzag z : unzigzag (zigzag z) = z.
Proof.
  unfold zigzag, unzigzag. destruct (Z.ltb_spec z 0).
  - replace (-2 * z - 1) with (1 + 2 * (- z - 1)) by lia. rewrite Z.odd_add_mul_2. change (Z.odd 1) with true.
    cbn match. zdiv.
  - rewrite Z.odd_mul. change (Z.odd 2) with false. cbn [andb]. zdiv.
Qed.

Lemma land_127 u : Z.land u 127 = u mod 128.
Proof. change 127 with (Z.ones 7). by rewrite Z.land_ones. Qed.

Lemma varint_read fuel u r : 0 <= u < 2 ^ (Z.of_nat fuel + 1) → read_varint (varint fuel u ++ r) = Some (u, r).
Proof.
  revert u. induction fuel as [|fuel IH]; intros u Hu; cbn [varint]; rewrite ?land_127, ?Z.shiftr_div_pow2 by lia.
  - change (2 ^ (Z.of_nat 0 + 1)) with 2 in Hu. cbn [app read_varint]. rewrite Z.mod_small by lia.
    by rewrite (proj2 (Z.ltb_lt _ _)) by lia.
  - change (2 ^ 7) with 128. destruct (Z.ltb_spec u 128).
    + cbn [app read_varint]. rewrite Z.mod_small by lia. by rewrite (proj2 (Z.ltb_lt _ _)) by lia.
    + cbn [app read_varint]. rewrite (proj2 (Z.ltb_ge _ _)) by zdiv. rewrite IH.
      * cbn [mbind option_bind]. do 2 f_equal. zdiv.
      * rewrite Nat2Z.inj_succ, Z.add_succ_l, Z.pow_succ_r in Hu by lia. zdiv.
Qed.

Lemma zigzag_nonneg z : 0 <= zigzag z.
Proof. unfold zigzag. destruct (Z.ltb_spec z 0); lia. Qed.

Lemma int_octets_read z r : read_varint (int_octets z ++ r) = Some (zigzag z, r).
Proof.
  pose proof (zigzag_nonneg z) as Hz. apply varint_read. split; [done|].
  rewrite Z2Nat.id by apply Z.log2_nonneg. destruct (decide (zigzag z = 0)) as [->|Hn]; [done|].
  rewrite Z.add_1_r. apply Z.log2_spec. lia.
Qed.

Lemma varint_octets fuel u : 0 <= u → all_bytes (varint fuel u) ∧ (1 <= length (varint fuel u))%nat.
Proof.
  revert u. induction fuel as [|fuel IH]; intros u Hu; cbn [varint]; rewrite !land_127.
  - split; [|simpl; lia]. repeat constructor. apply is_byte_range. zdiv.
  - destruct (Z.ltb_spec u 128); (split; [|simpl; lia]).
    + repeat constructor. apply is_byte_range. zdiv.
    + constructor; [apply is_byte_range; zdiv|]. apply IH. by apply Z.shiftr_nonneg.
Qed.

Lemma read_ints_octets zs fuel : (length zs <= fuel)%nat → read_ints fuel (zs ≫= int_octets) = Some zs.
Proof.
  revert fuel. induction zs as [|z zs IH]; intros fuel Hf; [by destruct fuel|]. rewrite bind_cons. simpl in Hf.
  destruct fuel as [|fuel]; [lia|]. pose proof (int_octets_read z (zs ≫= int_octets)) as Hr.
  destruct (int_octets z ++ _) as [|x b] eqn:E; [done|]. cbn [read_ints]. rewrite Hr. cbn [mbind option_bind].
  rewrite unzigzag_zigzag. by rewrite IH by lia.
Qed.

Lemma int_octets_length zs : (length zs <= length (zs ≫= int_octets))%nat.
Proof.
  induction zs as [|z zs IH]; [done|]. rewrite bind_cons, length_app. simpl.
  destruct (varint_octets (Z.to_nat (Z.log2 (zigzag z))) _ (zigzag_nonneg z)) as [_ Hl].
  unfold int_octets at 1. lia.
Qed.

Lemma toy_unpackb_packb v : toy_unpackb (toy_packb v) = Some v.
Proof.
  unfold toy_unpackb, toy_packb. rewrite read_ints_octets by apply int_octets_length. cbn [mbind option_bind].
  rewrite read_tokens_ints by apply token_ints_length. cbn [mbind option_bind].
  rewrite <- (app_nil_r (gen_tree_to_list (to_tree v))), gen_tree_of_to_list. cbn [mbind option_bind].
  apply of_to_tree.
Qed.

Lemma toy_packb_bytes v : all_bytes (toy_packb v).
Proof.
  unfold toy_packb. induction (gen_tree_to_list (to_tree v) ≫= token_ints) as [|z zs IH]; [constructor|].
  rewrite bind_cons. apply Forall_app. split; [|done]. apply varint_octets, zigzag_nonneg.
Qed.

(** ** Keys, hashes and sealing *)

Definition octet (z : Z) : Z := Z.land z 255.

(** The first [n] octets, filled up with zeros. *)
Definition fit (n : nat) (b : bytes) : bytes := map octet (take n (b ++ repeat 0 n)).

Definition toy_public (i : Z) : bytes := fit 64 (le_bytes 2 i).

(** A digest every octet contributes to. *)
Definition toy_hash (b : bytes) : bytes :=
  fit 32 (le_bytes 8 (foldl (λ h x, Z.land (h * 1000003 + x + 1) (2 ^ 64 - 1)) 0 b)).
Definition toy_sign (public m : bytes) : bytes := fit 64 (fit 8 public ++ toy_hash m).

Definition toy_destination (p : bytes) : bytes := fit 16 p.
Definition toy_signer (i : Z) (m : bytes) : bytes := toy_sign (toy_public i) m.

Lemma length_fit n b : length (fit n b) = n.
Proof. unfold fit. rewrite length_map, length_take, length_app, repeat_length. lia. Qed.

Lemma fit_bytes n b : all_bytes (fit n b).
Proof.
  unfold fit. apply Forall_fmap. apply Forall_true. intros z. apply is_byte_range. unfold octet.
  change 255 with (Z.ones 8). rewrite Z.land_ones by lia. zdiv.
Qed.

#[export] Instance toy_rns : Rns := {|
  identity := Z;
  public_of := toy_public;
  identity_hash := λ p, take 16 (toy_hash p);
  destination_hash := toy_destination;
  full_hash := toy_hash;
  sign := toy_signer;
  validate := λ p s m, bool_decide (s = toy_sign p m);
  encrypt := λ p r m, p ++ m;
  decrypt := λ i c, if decide (take 64 c = toy_public i) then Some (drop 64 c) else None;
  packb := toy_packb;
  unpackb := toy_unpackb;
  lxm_pack := lxm_layout toy_public toy_destination toy_hash toy_signer toy_packb;
|}.

#[export] Instance toy_rns_laws : RnsLaws.
Proof.
  split; intros.
  - exact (length_fit 64 _).
  - exact (length_fit 16 _).
  - exact (fit_bytes 16 _).
  - exact (length_fit 32 _).
  - exact (fit_bytes 32 _).
  - exact (length_fit 64 _).
  - cbn [validate sign toy_rns public_of]. unfold toy_signer. apply bool_decide_eq_true. reflexivity.
  - cbn [decrypt encrypt toy_rns public_of].
    rewrite (take_app_length' (toy_public i)) by (symmetry; exact (length_fit 64 _)).
    rewrite (drop_app_length' (toy_public i)) by (symmetry; exact (length_fit 64 _)).
    destruct (decide (toy_public i = toy_public i)) as [_|Hn]; [reflexivity|].
    contradiction Hn. reflexivity.
  - apply toy_unpackb_packb.
  - reflexivity.
  - cbn [lxm_pack toy_rns]. unfold lxm_layout, toy_destination, toy_signer, toy_sign.
    cbv zeta. rewrite !Forall_app. split_and!; (apply fit_bytes || apply toy_packb_bytes).
Qed.
