(* ===== verification/Ack.v ===== *)
(** Device-signed control receipts (provisioning/ack.py): their canonical text,
    their verification, and that a created receipt verifies to what it says. *)
From Stdlib Require Import ZArith Lia.
From S2P Require Import Prelude PyData Json JsonText Rns RnsModel.

Local Open Scope Z_scope.

Definition ACK_DOMAIN : bytes := py "family-connect/control-ack/v1" ++ [0].
Definition STATUSES : list pystr :=
  [py "RECEIVED"; py "REJECTED"; py "APPLIED"; py "COMMITTED"; py "ROLLED_BACK"; py "FAILED"].
Definition ACK_ERRORS : list pystr :=
  [py "NONE"; py "SIZE"; py "CLOCK"; py "SIGNATURE"; py "MALFORMED"; py "SCHEMA"; py "TARGET"; py "SIGNER";
   py "STRUCTURE"; py "LEASE"; py "CLIENT_VERSION"; py "UNSUPPORTED_TRANSPORT_VERSION"; py "REPLAY";
   py "PREVIOUS_HASH"; py "APPLY"; py "HEALTH"; py "RECOVERY"; py "ROLLBACK"].
Definition MAX_ACK_BYTES : Z := 4096.

(** The body of a receipt, as [verify] returns it. *)
Record ack_body := AckBody {
  ab_device : pystr;
  ab_public : pystr;
  ab_hash : pystr;
  ab_config : option pystr;
  ab_sequence : Z;
  ab_status : pystr;
  ab_error : pystr;
  ab_timestamp : Z;
}.

Definition opt_str (s : option pystr) : pyval := match s with Some s => PStr s | None => PNone end.

(** The dictionary of the body without its id. *)
Definition body_fields (b : ack_body) : list (pyval * pyval) :=
  [(PStr (py "schema_version"), PInt 1); (PStr (py "device"), PStr (ab_device b));
   (PStr (py "public_identity"), PStr (ab_public b)); (PStr (py "envelope_hash"), PStr (ab_hash b));
   (PStr (py "config_id"), opt_str (ab_config b)); (PStr (py "sequence"), PInt (ab_sequence b));
   (PStr (py "status"), PStr (ab_status b)); (PStr (py "error"), PStr (ab_error b));
   (PStr (py "timestamp"), PInt (ab_timestamp b))].

(** [re.fullmatch('[a-zA-Z0-9_-]{1,64}', s)] *)
Definition identifier (s : pystr) : bool := in_range 1 64 (zlen s) && forallb is_word s.

Section Ack.
Context {RN : Rns} (float_repr : spec_float → pystr).

(** [encode(value)] *)
Definition encode_json (v : pyval) : result bytes := canonical float_repr v.

(** [device.reference] and [device.public_identity] *)
Definition reference (i : identity) : pystr := tohex (identity_hash (public_of i)).
Definition public_text (i : identity) : pystr := b64encode (public_of i).

(** [create(device, digest=..., config_id=..., sequence=..., status=..., error=..., now=...)] *)
Definition create_ack (device : identity) (digest : pystr) (config_id : option pystr) (sequence : Z)
    (status error : pystr) (now : Z) : result bytes :=
  let b := AckBody (reference device) (public_text device) digest config_id sequence status error now in
  plain ← encode_json (PDict (body_fields b));
  let body := PDict (body_fields b ++ [(PStr (py "ack_id"), PStr (tohex (full_hash plain)))]) in
  signed ← encode_json body;
  encode_json (PDict [(PStr (py "body"), body);
                      (PStr (py "signature"), PStr (b64encode (sign device (ACK_DOMAIN ++ signed))))]).

Definition is_in (v : pyval) (l : list pystr) : bool :=
  match v with PStr s => existsb (str_eqb s) l | _ => false end.

(** [except (ValueError, TypeError, KeyError, ...): raise ProvisioningRejected] *)
Definition refuse {A} (msg : string) (m : result A) : result A :=
  try_with m (λ e, match e with
    | TypeError | KeyError => Raise (ProvisioningRejected msg)
    | _ => if is_ValueError e then Raise (ProvisioningRejected msg) else Raise e
    end).

Definition bad : exn := ValueError "".

(** [{k: v for k, v in body.items() if k != 'ack_id'}] *)
Definition without_id (d : list (pyval * pyval)) : list (pyval * pyval) :=
  List.filter (λ p, negb (key_is_str (py "ack_id") p.1)) d.

Definition body_names : list string :=
  ["schema_version"; "device"; "public_identity"; "envelope_hash"; "config_id"; "sequence"; "status";
   "error"; "timestamp"; "ack_id"]%string.

(** The [try] block of [verify]. *)
Definition verify_body (raw : bytes) : result ack_body :=
  require (zlen raw <=? MAX_ACK_BYTES) bad;;
  outer ← of_option bad (json_loads_bytes raw ≫= as_dict);
  require (keys_are ["body"; "signature"] outer) bad;;
  body ← item "body" outer;
  d ← of_option bad (as_dict body);
  require (keys_are body_names d) bad;;
  schema ← item "schema_version" d;
  require (bool_decide (as_int schema = Some 1)) bad;;
  status ← item "status" d;
  error ← item "error" d;
  require (is_in status STATUSES && is_in error ACK_ERRORS) bad;;
  timestamp ← item "timestamp" d;
  timestamp ← of_option bad (as_int timestamp);
  require (0 <=? timestamp) bad;;
  sequence ← item "sequence" d;
  sequence ← of_option bad (as_int sequence);
  require ((0 <=? sequence) && (sequence <? 2 ^ 63)) bad;;
  hash ← item "envelope_hash" d;
  hash ← of_option TypeError (as_str hash);
  require (hex_match 64 hash) bad;;
  config ← item "config_id" d;
  config ← match config with
           | PNone => Ok None
           | PStr s => require (identifier s) bad;; Ok (Some s)
           | _ => Raise TypeError
           end;
  public ← item "public_identity" d;
  public ← of_option TypeError (as_str public);
  key ← of_option bad (b64decode public);
  require ((zlen key =? 64) && str_eqb (b64encode key) public) bad;;
  device ← item "device" d;
  require (key_is_str (tohex (identity_hash key)) device) bad;;
  signature ← item "signature" outer;
  signature ← of_option TypeError (as_str signature);
  signature ← of_option bad (b64decode signature);
  signed ← encode_json body;
  require (validate key signature (ACK_DOMAIN ++ signed)) bad;;
  ack_id ← item "ack_id" d;
  plain ← encode_json (PDict (without_id d));
  require (key_is_str (tohex (full_hash plain)) ack_id) bad;;
  Ok (AckBody (tohex (identity_hash key)) public hash config sequence
        (default [] (as_str status)) (default [] (as_str error)) timestamp).

(** [verify(raw)] *)
Definition verify_ack (raw : bytes) : result ack_body := refuse "invalid control ACK" (verify_body raw).
End Ack.

(** ** A created receipt verifies *)

(** Fields [create] may be given. *)
Record ack_wf (digest : pystr) (config_id : option pystr) (sequence : Z) (status error : pystr) (now : Z) :
    Prop := {
  aw_digest : hex_match 64 digest = true;
  aw_config s : config_id = Some s → identifier s = true;
  aw_sequence : 0 <= sequence < 2 ^ 63;
  aw_status : existsb (str_eqb status) STATUSES = true;
  aw_error : existsb (str_eqb error) ACK_ERRORS = true;
  aw_now : 0 <= now;
}.

(** Keys, signatures and identity hashes are octet strings; an identity hash is
    a truncated digest of sixteen octets. *)
Class RnsOctets {RN : Rns} : Prop := {
  public_bytes i : all_bytes (public_of i);
  sign_bytes i m : all_bytes (sign i m);
  identity_hash_bytes p : all_bytes (identity_hash p);
  identity_hash_length p : length (identity_hash p) = 16%nat;
  identity_hash_truncates p : identity_hash p = take 16 (full_hash p);
}.

Section AckSpec.
Context {RN : Rns} {RNL : RnsLaws} {RNO : RnsOctets} (float_repr : spec_float → pystr).

Lemma word_scalar s : forallb is_word s = true → forallb is_scalar s = true.
Proof.
  rewrite !forallb_forall. intros H x Hx. specialize (H x Hx). unfold is_scalar.
  rewrite (proj2 (in_range_true 0 55295 x)); [done|]. unfold is_word in H. ranges; lia.
Qed.

Lemma lhex_word s : forallb is_lhex s = true → forallb is_scalar s = true.
Proof.
  rewrite !forallb_forall. intros H x Hx. specialize (H x Hx). unfold is_scalar.
  rewrite (proj2 (in_range_true 0 55295 x)); [done|]. unfold is_lhex in H. ranges; lia.
Qed.

Lemma tohex_scalar b : all_bytes b → forallb is_scalar (tohex b) = true.
Proof. intros Hb. by apply lhex_word, tohex_lhex. Qed.

Lemma b64char_scalar n : 0 <= n < 64 → is_scalar (b64char n) = true.
Proof.
  intros Hn. unfold is_scalar. rewrite (proj2 (in_range_true 0 55295 (b64char n))); [done|].
  unfold b64char. zcases; bools; lia.
Qed.

Lemma b64encode_scalar b : all_bytes b → forallb is_scalar (b64encode b) = true.
Proof.
  remember (length b) as n eqn:Hn. revert b Hn. induction (lt_wf n) as [n _ IH]. intros b -> Hb.
  destruct b as [|x [|y [|z b]]]; [done| | |];
    repeat match goal with H : Forall _ (_ :: _) |- _ => apply Forall_cons in H as [? H] end;
    ranges; cbn [b64encode forallb]; rewrite !b64char_scalar by zdiv; try done.
  simpl. apply (IH (length b)); [simpl; lia|done|done].
Qed.

Lemma existsb_scalar s l : existsb (str_eqb s) l = true → forallb (forallb is_scalar) l = true → forallb is_scalar s = true.
Proof.
  intros Hs Hl. apply existsb_exists in Hs as (x & Hx & ->%str_eqb_eq). rewrite forallb_forall in Hl. by apply Hl.
Qed.

Lemma fields_jsonable b :
  forallb (forallb is_scalar) [ab_device b; ab_public b; ab_hash b; ab_status b; ab_error b; default [] (ab_config b)] = true →
  ∀ id, forallb is_scalar id = true →
  jsonable (PDict (body_fields b)) = true ∧ jsonable (PDict (body_fields b ++ [(PStr (py "ack_id"), PStr id)])) = true.
Proof.
  intros Hb id Hid. cbn [forallb] in Hb. bools. unfold body_fields.
  assert (jsonable (opt_str (ab_config b)) = true) as Hc by (by destruct (ab_config b)).
  split; cbn [app jsonable]; apply andb_true_iff; (split; [vm_compute; reflexivity|]);
    cbn [forallb fst snd jsonable]; rewrite Hc;
    repeat match goal with H : forallb is_scalar _ = true |- _ => rewrite H; clear H end; reflexivity.
Qed.

(** The members of the body without its id, in order. *)
Definition sorted_fields (b : ack_body) : list (pyval * pyval) :=
  [(PStr (py "config_id"), opt_str (ab_config b)); (PStr (py "device"), PStr (ab_device b));
   (PStr (py "envelope_hash"), PStr (ab_hash b)); (PStr (py "error"), PStr (ab_error b));
   (PStr (py "public_identity"), PStr (ab_public b)); (PStr (py "schema_version"), PInt 1);
   (PStr (py "sequence"), PInt (ab_sequence b)); (PStr (py "status"), PStr (ab_status b));
   (PStr (py "timestamp"), PInt (ab_timestamp b))].

(** The body as the reader returns it. *)
Lemma sorted_lookup b id :
  let d := (PStr (py "ack_id"), PStr id) :: sorted_fields b in
  keys_are body_names d = true
  ∧ item "schema_version" d = Ok (PInt 1) ∧ item "status" d = Ok (PStr (ab_status b))
  ∧ item "error" d = Ok (PStr (ab_error b)) ∧ item "timestamp" d = Ok (PInt (ab_timestamp b))
  ∧ item "sequence" d = Ok (PInt (ab_sequence b)) ∧ item "envelope_hash" d = Ok (PStr (ab_hash b))
  ∧ item "config_id" d = Ok (opt_str (ab_config b)) ∧ item "public_identity" d = Ok (PStr (ab_public b))
  ∧ item "device" d = Ok (PStr (ab_device b)) ∧ item "ack_id" d = Ok (PStr id)
  ∧ without_id d = sorted_fields b.
Proof. repeat split. Qed.

(** The signed document [create] prints, from its parts. *)
Definition signed_body (b : ack_body) (plain : bytes) : pyval :=
  PDict (body_fields b ++ [(PStr (py "ack_id"), PStr (tohex (full_hash plain)))]).
Definition sorted_body (b : ack_body) (plain : bytes) : list (pyval * pyval) :=
  (PStr (py "ack_id"), PStr (tohex (full_hash plain))) :: sorted_fields b.
Definition signature_text (device : identity) (signed : bytes) : pystr :=
  b64encode (sign device (ACK_DOMAIN ++ signed)).
Definition receipt_document (device : identity) (b : ack_body) (plain signed : bytes) : pyval :=
  PDict [(PStr (py "body"), signed_body b plain); (PStr (py "signature"), PStr (signature_text device signed))].

Lemma create_ack_text device digest config_id sequence status error now :
  ack_wf digest config_id sequence status error now →
  let b := AckBody (reference device) (public_text device) digest config_id sequence status error now in
  ∃ plain signed,
    encode_json float_repr (PDict (sorted_fields b)) = Ok plain
    ∧ encode_json float_repr (PDict (sorted_body b plain)) = Ok signed
    ∧ sort_keys (signed_body b plain) = PDict (sorted_body b plain)
    ∧ jsonable (receipt_document device b plain signed) = true
    ∧ create_ack float_repr device digest config_id sequence status error now
      = encode_json float_repr (receipt_document device b plain signed).
Proof.
  intros [Hd Hc Hseq Hst Her Hnow] b.
  assert (∀ id, forallb is_scalar id = true →
    jsonable (PDict (body_fields b)) = true ∧ jsonable (PDict (body_fields b ++ [(PStr (py "ack_id"), PStr id)])) = true) as Hj.
  { apply fields_jsonable. cbn [forallb b ab_device ab_public ab_hash ab_status ab_error ab_config].
    unfold reference, public_text. rewrite (tohex_scalar _ (identity_hash_bytes _)).
    rewrite (b64encode_scalar _ (public_bytes _)).
    unfold hex_match in Hd. apply andb_true_iff in Hd as [_ Hd]. rewrite (lhex_word _ Hd).
    rewrite (existsb_scalar _ _ Hst), (existsb_scalar _ _ Her) by (vm_compute; reflexivity).
    destruct config_id as [s|]; [|done]. specialize (Hc s eq_refl). unfold identifier in Hc. bools.
    cbn [default]. by rewrite word_scalar. }
  destruct (Hj [] eq_refl) as [Hj0 _].
  destruct (canonical_roundtrip float_repr _ Hj0) as (plain & Hplain & _ & Hplain').
  destruct (Hj (tohex (full_hash plain))) as [_ Hj1]; [apply tohex_scalar, full_hash_bytes|].
  destruct (canonical_roundtrip float_repr _ Hj1) as (signed & Hsigned & _ & Hsigned').
  assert (sort_keys (signed_body b plain) = PDict (sorted_body b plain)) as Hsort by (by destruct config_id).
  assert (sort_keys (PDict (body_fields b)) = PDict (sorted_fields b)) as Hsort0 by (by destruct config_id).
  exists plain, signed. unfold encode_json. rewrite <- Hsort0, <- Hsort. unfold signed_body at 1 2.
  split; [done|]. split; [done|]. split; [done|]. split.
  - unfold receipt_document. cbn [jsonable forallb fst snd]. unfold signed_body. rewrite Hj1.
    unfold signature_text. rewrite (b64encode_scalar _ (sign_bytes _ _)). vm_compute. reflexivity.
  - unfold create_ack, encode_json. fold b. rewrite Hplain. cbn [mbind result_bind]. by rewrite Hsigned.
Qed.

(** What [verify] answers for a receipt [create] made. *)
Lemma create_ack_verifies device digest config_id sequence status error now raw :
  ack_wf digest config_id sequence status error now →
  create_ack float_repr device digest config_id sequence status error now = Ok raw →
  zlen raw <= MAX_ACK_BYTES →
  verify_ack float_repr raw =
    Ok (AckBody (reference device) (public_text device) digest config_id sequence status error now).
Proof.
  intros Hwf Hcreate Hlen.
  destruct (create_ack_text device _ _ _ _ _ _ Hwf) as (plain & signed & Hplain & Hsigned & Hsort & Hj & Htext).
  rewrite Htext in Hcreate. clear Htext. destruct Hwf as [Hd Hc Hseq Hst Her Hnow].
  destruct (canonical_roundtrip float_repr _ Hj) as (raw' & Hraw & Hread & _).
  unfold encode_json in Hcreate. rewrite Hraw in Hcreate. injection Hcreate as ->.
  set (b := AckBody _ _ _ _ _ _ _ _) in *. set (sg := signature_text device signed) in *.
  unfold verify_ack, verify_body. rewrite (proj2 (Z.leb_le _ _) Hlen). cbn [require mbind result_bind].
  rewrite Hread.
  change (sort_keys (receipt_document device b plain signed))
    with (PDict [(PStr (py "body"), sort_keys (signed_body b plain)); (PStr (py "signature"), PStr sg)]).
  rewrite Hsort. cbn [mbind option_bind as_dict of_option result_bind].
  destruct (sorted_lookup b (tohex (full_hash plain))) as (Lk & L1 & L2 & L3 & L4 & L5 & L6 & L7 & L8 & L9 & L10 & Lw).
  fold (sorted_body b plain) in Lk, L1, L2, L3, L4, L5, L6, L7, L8, L9, L10, Lw.
  set (d := sorted_body b plain) in *. clearbody d.
  change (item "body" [(PStr (py "body"), PDict d); (PStr (py "signature"), PStr sg)]) with (Ok (PDict d)).
  change (item "signature" [(PStr (py "body"), PDict d); (PStr (py "signature"), PStr sg)]) with (Ok (PStr sg)).
  change (keys_are ["body"; "signature"]%string [(PStr (py "body"), PDict d); (PStr (py "signature"), PStr sg)]) with true.
  cbn [require mbind result_bind of_option as_dict].
  rewrite Lk. cbn [require mbind result_bind].
  rewrite L1. cbn [require mbind result_bind as_int]. rewrite bool_decide_true by done. cbn [require mbind result_bind].
  rewrite L2, L3. cbn [mbind result_bind is_in b ab_status ab_error]. rewrite Hst, Her. cbn [require andb mbind result_bind].
  rewrite L4. cbn [mbind result_bind of_option as_int b ab_timestamp].
  rewrite (proj2 (Z.leb_le _ _) Hnow). cbn [require mbind result_bind].
  rewrite L5. cbn [mbind result_bind of_option as_int b ab_sequence].
  rewrite (proj2 (Z.leb_le _ _) (proj1 Hseq)), (proj2 (Z.ltb_lt _ _) (proj2 Hseq)). cbn [require andb mbind result_bind].
  rewrite L6. cbn [mbind result_bind of_option as_str b ab_hash]. rewrite Hd. cbn [require mbind result_bind].
  rewrite L7. cbn [mbind result_bind b ab_config].
  assert (match opt_str config_id with
    | PNone => Ok None
    | PStr s => require (identifier s) bad;; Ok (Some s)
    | _ => Raise TypeError
    end = Ok config_id) as ->.
  { destruct config_id as [s|]; [|done]. cbn [opt_str]. by rewrite (Hc s eq_refl). }
  cbn [mbind result_bind]. rewrite L8. cbn [mbind result_bind of_option as_str b ab_public].
  assert (b64decode (public_text device) = Some (public_of device)) as ->
    by apply (b64_roundtrip _ (public_bytes device)).
  cbn [mbind result_bind of_option]. unfold zlen at 1. rewrite public_length.
  change (b64encode (public_of device)) with (public_text device). rewrite (proj2 (str_eqb_eq _ _) eq_refl).
  cbn [require Z.of_nat Pos.of_succ_nat Pos.succ Z.eqb Pos.eqb andb mbind result_bind].
  rewrite L9. cbn [mbind result_bind key_is_str b ab_device]. unfold reference at 1.
  rewrite (proj2 (str_eqb_eq _ _) eq_refl). cbn [require mbind result_bind].
  unfold sg, signature_text. rewrite (b64_roundtrip _ (sign_bytes _ _)). cbn [mbind result_bind of_option].
  rewrite Hsigned. cbn [mbind result_bind]. rewrite validate_sign.
  cbn [require mbind result_bind]. rewrite L10, Lw, Hplain. cbn [mbind result_bind key_is_str].
  rewrite (proj2 (str_eqb_eq _ _) eq_refl). done.
Qed.
End AckSpec.
