(* ===== verification/DeviceProof.v ===== *)
(** Ownership proofs (device_identity/device.py): the binding a device signs,
    and what an accepted proof shows. *)
From Stdlib Require Import ZArith Lia.
From S2P Require Import Prelude PyData Json JsonText Rns Ack.

Local Open Scope Z_scope.

Definition BINDING_DOMAIN : bytes := py "family-connect/transport-key-binding/v1" ++ [0].
Definition ENROLLMENT : pystr := py "family-connect/enrollment/v1".
Definition AUDIENCES : list pystr := [ENROLLMENT; py "family-connect/fleet-reservation/v1"].

(** [_decode(value, size)] *)
Definition decode_field (v : pyval) (size : Z) : result bytes :=
  s ← of_option (ValueError "invalid public field") (as_str v);
  require (zlen s <=? 256) (ValueError "invalid public field");;
  raw ← of_option (ValueError "invalid public encoding") (b64decode s);
  require ((zlen raw =? size) && str_eqb (b64encode raw) s) (ValueError "invalid public field");;
  Ok raw.

(** The claims of a proof. *)
Record claims := Claims {
  cl_public : pystr;
  cl_wg : pystr;
  cl_challenge : pystr;
  cl_audience : pystr;
}.

Definition str_or_empty (v : pyval) : pystr := default [] (as_str v).

(** [_binding(public_identity, wireguard_public_key, challenge, audience)] *)
Definition binding (public wg challenge audience : pyval) : result claims :=
  decode_field public 64;;
  decode_field wg 32;;
  decode_field challenge 32;;
  require (is_in audience AUDIENCES) (ValueError "invalid enrollment audience");;
  Ok (Claims (str_or_empty public) (str_or_empty wg) (str_or_empty challenge) (str_or_empty audience)).

Definition binding_fields (c : claims) : list (pyval * pyval) :=
  [(PStr (py "schema_version"), PInt 1); (PStr (py "public_identity"), PStr (cl_public c));
   (PStr (py "wireguard_public_key"), PStr (cl_wg c)); (PStr (py "challenge"), PStr (cl_challenge c));
   (PStr (py "audience"), PStr (cl_audience c)); (PStr (py "transport"), PStr (py "wireguard"))].

Definition proof_names : list string :=
  ["schema_version"; "public_identity"; "wireguard_public_key"; "challenge"; "audience"; "transport"; "signature"]%string.

Section Proof.
Context {RN : Rns} (float_repr : spec_float → pystr).

(** [_message(binding)] *)
Definition binding_message (c : claims) : result bytes :=
  t ← encode_json float_repr (PDict (binding_fields c));
  Ok (BINDING_DOMAIN ++ t).

(** [prove_transport_key(challenge, audience)] of a device with this identity and
    WireGuard key. *)
Definition prove_transport_key (device : identity) (wg challenge audience : pyval) : result pyval :=
  c ← binding (PStr (public_text device)) wg challenge audience;
  m ← binding_message c;
  Ok (PDict (binding_fields c ++ [(PStr (py "signature"), PStr (b64encode (sign device m)))])).

(** [verify_transport_key_proof(proof, expected_challenge=..., audience=...)]:
    the reference of the device, with the claims it proves. *)
Definition verify_proof (proof expected : pyval) (audience : pystr) : result (pystr * claims) :=
  d ← of_option (ValueError "invalid ownership proof") (as_dict proof);
  require (keys_are proof_names d) (ValueError "invalid ownership proof");;
  schema ← item "schema_version" d;
  require (bool_decide (as_int schema = Some 1)) (ValueError "unsupported ownership schema");;
  transport ← item "transport" d;
  require (key_is_str (py "wireguard") transport) (ValueError "unsupported transport");;
  public ← item "public_identity" d;
  wg ← item "wireguard_public_key" d;
  challenge ← item "challenge" d;
  aud ← item "audience" d;
  c ← binding public wg challenge aud;
  decode_field expected 32;;
  require (key_is_str (cl_challenge c) expected && str_eqb (cl_audience c) audience)
    (ValueError "ownership challenge mismatch");;
  key ← decode_field public 64;
  signature ← item "signature" d;
  signature ← decode_field signature 64;
  m ← binding_message c;
  require (validate key signature m) (ValueError "invalid ownership signature");;
  Ok (tohex (identity_hash key), c).
End Proof.

(** ** What a proof shows *)

Section ProofSpec.
Context {RN : Rns} {RNL : RnsLaws} {RNO : RnsOctets} (float_repr : spec_float → pystr).

Lemma decode_field_Ok v size raw :
  decode_field v size = Ok raw ↔ ∃ s, v = PStr s ∧ zlen s <= 256 ∧ b64decode s = Some raw ∧ zlen raw = size ∧ s = b64encode raw.
Proof.
  unfold decode_field. split.
  - intros H. repeat inv_ok1. destruct v; simplify_eq/=. bools. apply str_eqb_eq in Ha2. eexists. by split_and!.
  - intros (s & -> & Hl & Hd & <- & He). cbn [as_str of_option mbind result_bind].
    rewrite (proj2 (Z.leb_le _ _) Hl). cbn [require mbind result_bind]. rewrite Hd. cbn [of_option mbind result_bind].
    rewrite Z.eqb_refl, <- He, (proj2 (str_eqb_eq _ _) eq_refl). done.
Qed.

Lemma decode_field_encode raw size : all_bytes raw → zlen raw = size → size <= 188 → decode_field (PStr (b64encode raw)) size = Ok raw.
Proof.
  intros Hb Hl Hs. apply decode_field_Ok. eexists. split_and!; [done| |by apply b64_roundtrip|done|done].
  rewrite length_b64encode. zdiv.
Qed.

(** Claims whose fields are canonical encodings. *)
Record claims_wf (c : claims) (public wg challenge : bytes) : Prop := {
  cw_public : cl_public c = b64encode public; cw_public_bytes : all_bytes public; cw_public_length : zlen public = 64;
  cw_wg : cl_wg c = b64encode wg; cw_wg_bytes : all_bytes wg; cw_wg_length : zlen wg = 32;
  cw_challenge : cl_challenge c = b64encode challenge; cw_challenge_bytes : all_bytes challenge;
  cw_challenge_length : zlen challenge = 32;
  cw_audience : existsb (str_eqb (cl_audience c)) AUDIENCES = true;
}.

Lemma binding_Ok public wg challenge audience c :
  binding public wg challenge audience = Ok c →
  public = PStr (cl_public c) ∧ wg = PStr (cl_wg c) ∧ challenge = PStr (cl_challenge c) ∧ audience = PStr (cl_audience c)
  ∧ ∃ p w h, claims_wf c p w h.
Proof.
  unfold binding. intros H. repeat inv_ok1. subst c.
  apply decode_field_Ok in Ha as (s1 & -> & _ & D1 & L1 & E1).
  apply decode_field_Ok in Ha0 as (s2 & -> & _ & D2 & L2 & E2).
  apply decode_field_Ok in Ha1 as (s3 & -> & _ & D3 & L3 & E3).
  destruct audience as [| | | |s4| | |]; try done. cbn [is_in] in Ha2. unfold str_or_empty. simpl.
  split_and!; try done. exists a, a0, a1. split; simpl; try done; by eapply b64decode_bytes.
Qed.

Lemma binding_wf c p w h :
  claims_wf c p w h →
  binding (PStr (cl_public c)) (PStr (cl_wg c)) (PStr (cl_challenge c)) (PStr (cl_audience c)) = Ok c
  ∧ decode_field (PStr (cl_public c)) 64 = Ok p ∧ decode_field (PStr (cl_challenge c)) 32 = Ok h.
Proof.
  intros [E1 B1 L1 E2 B2 L2 E3 B3 L3 A].
  assert (decode_field (PStr (cl_public c)) 64 = Ok p) as H1 by (rewrite E1; by apply decode_field_encode).
  assert (decode_field (PStr (cl_wg c)) 32 = Ok w) as H2 by (rewrite E2; by apply decode_field_encode).
  assert (decode_field (PStr (cl_challenge c)) 32 = Ok h) as H3 by (rewrite E3; by apply decode_field_encode).
  split; [|by split]. unfold binding. rewrite H1, H2, H3. cbn [mbind result_bind is_in]. rewrite A. by destruct c.
Qed.

(** The signed text of well-formed claims reads back as its sorted members. *)
Lemma binding_text c p w h :
  claims_wf c p w h →
  ∃ t, encode_json float_repr (PDict (binding_fields c)) = Ok t
    ∧ json_loads_bytes t = Some (PDict [(PStr (py "audience"), PStr (cl_audience c));
         (PStr (py "challenge"), PStr (cl_challenge c)); (PStr (py "public_identity"), PStr (cl_public c));
         (PStr (py "schema_version"), PInt 1); (PStr (py "transport"), PStr (py "wireguard"));
         (PStr (py "wireguard_public_key"), PStr (cl_wg c))]).
Proof.
  intros [E1 B1 _ E2 B2 _ E3 B3 _ A].
  assert (jsonable (PDict (binding_fields c)) = true) as Hj.
  { cbn [jsonable binding_fields]. apply andb_true_iff. split; [vm_compute; reflexivity|].
    unfold binding_fields. cbn [forallb fst snd jsonable]. rewrite E1, E2, E3, !b64encode_scalar by done.
    rewrite (existsb_scalar _ _ A) by (vm_compute; reflexivity). reflexivity. }
  destruct (canonical_roundtrip float_repr _ Hj) as (t & Ht & Hl & _). exists t. split; [done|]. by rewrite Hl.
Qed.

(** A device's ownership proof verifies, to the device's own reference and
    exactly the keys, challenge and audience it was asked to bind; and the
    signed message of an accepted proof determines them: no other claims, and
    so no other WireGuard key, challenge or audience, share it. *)
Theorem proof_roundtrip device wg challenge audience :
  all_bytes wg → zlen wg = 32 → all_bytes challenge → zlen challenge = 32 →
  existsb (str_eqb audience) AUDIENCES = true →
  let c := Claims (public_text device) (b64encode wg) (b64encode challenge) audience in
  (∃ proof, prove_transport_key float_repr device (PStr (b64encode wg)) (PStr (b64encode challenge)) (PStr audience) = Ok proof
     ∧ verify_proof float_repr proof (PStr (b64encode challenge)) audience = Ok (reference device, c))
  ∧ ∀ proof expected aud dev c', verify_proof float_repr proof expected aud = Ok (dev, c') →
      binding_message float_repr c' = binding_message float_repr c → c' = c.
Proof.
  intros Bw Lw Bc Lc Ha c.
  assert (claims_wf c (public_of device) wg challenge) as Hwf.
  { split; try done; [apply public_bytes|unfold zlen; by rewrite public_length]. }
  destruct (binding_wf _ _ _ _ Hwf) as (Hb & Hp & Hh). destruct (binding_text _ _ _ _ Hwf) as (t & Ht & Hread).
  split.
  - unfold prove_transport_key. change (binding _ _ _ _) with (binding (PStr (cl_public c)) (PStr (cl_wg c)) (PStr (cl_challenge c)) (PStr (cl_audience c))).
    rewrite Hb. cbn [mbind result_bind]. unfold binding_message. rewrite Ht. cbn [mbind result_bind].
    eexists. split; [reflexivity|]. unfold verify_proof. cbn [as_dict of_option mbind result_bind].
    match goal with |- context [keys_are proof_names ?d] => set (doc := d) end.
    set (sg := b64encode (sign device (BINDING_DOMAIN ++ t))) in *.
    assert (keys_are proof_names doc = true ∧ item "schema_version" doc = Ok (PInt 1)
      ∧ item "transport" doc = Ok (PStr (py "wireguard")) ∧ item "public_identity" doc = Ok (PStr (cl_public c))
      ∧ item "wireguard_public_key" doc = Ok (PStr (cl_wg c)) ∧ item "challenge" doc = Ok (PStr (cl_challenge c))
      ∧ item "audience" doc = Ok (PStr (cl_audience c)) ∧ item "signature" doc = Ok (PStr sg))
      as (-> & -> & -> & -> & -> & -> & -> & ->) by (repeat split).
    cbn [require mbind result_bind as_int]. rewrite bool_decide_true by done. cbn [require mbind result_bind].
    change (key_is_str (py "wireguard") (PStr (py "wireguard"))) with true. cbn [require mbind result_bind].
    rewrite Hb. cbn [mbind result_bind]. change (PStr (b64encode challenge)) with (PStr (cl_challenge c)). rewrite Hh.
    cbn [mbind result_bind key_is_str]. change (cl_audience c) with audience. rewrite !(proj2 (str_eqb_eq _ _) eq_refl).
    cbn [andb require mbind result_bind]. rewrite Hp. cbn [mbind result_bind].
    unfold sg. rewrite decode_field_encode by (done || apply sign_bytes || (unfold zlen; by rewrite sign_length)).
    cbn [mbind result_bind]. unfold binding_message. rewrite Ht. cbn [mbind result_bind]. by rewrite validate_sign.
  - intros proof expected aud dev c' Hv Hm. unfold verify_proof in Hv. repeat inv_ok1.
    match goal with H : binding _ _ _ _ = Ok _ |- _ => apply binding_Ok in H as (_ & _ & _ & _ & p' & w' & h' & Hwf') end.
    simplify_eq. destruct (binding_text _ _ _ _ Hwf') as (t' & Ht' & Hread').
    unfold binding_message in Hm. rewrite Ht, Ht' in Hm. cbn [mbind result_bind] in Hm. injection Hm as ->.
    rewrite Hread in Hread'. injection Hread' as H1 H2 H3 H4.
    destruct c'; unfold c in *; simpl in *; congruence.
Qed.
End ProofSpec.
