(* ===== verification/AckSize.v ===== *)
(** Receipts fit their size limit: the printed length of documents made of plain
    strings and 64-bit integers, and with it that every receipt a device
    creates is accepted by its verifier. *)
From Stdlib Require Import ZArith Lia.
From stdpp Require Import pretty.
From S2P Require Import Prelude PyData Json JsonText Rns RnsModel Ack.

Local Open Scope Z_scope.

(** Characters printed as themselves. *)
Definition plain_char (c : Z) : bool := in_range 32 126 c && negb (c =? 34) && negb (c =? 92).

Lemma plain_ascii_char c : plain_char c = true → ascii_char c = [c].
Proof.
  unfold plain_char, ascii_char, short_escape. intros H. bools. apply in_range_true in H1.
  repeat match goal with |- context [?a =? ?b] => destruct (Z.eqb_spec a b); [lia|] end.
  by rewrite (proj2 (in_range_true 32 126 c)).
Qed.

Lemma plain_quoted s : forallb plain_char s = true → zlen (quoted s) = zlen s + 2.
Proof.
  intros Hs. unfold quoted, zlen. enough (s ≫= ascii_char = s) as ->.
  { cbn [length]. rewrite length_app. simpl. lia. }
  induction s as [|c s IH]; [done|]. simpl in Hs. bools. rewrite bind_cons, IH by done.
  by rewrite plain_ascii_char.
Qed.

(** ** Lengths of printed documents *)

Section Sized.
Context (float_repr : spec_float → pystr).

(** The value prints, in at most [n] characters. *)
Definition sized (v : pyval) (n : Z) : Prop := ∃ t, json_compact float_repr v = Ok t ∧ zlen t <= n.

Lemma sized_str s n : forallb plain_char s = true → zlen s <= n → sized (PStr s) (n + 2).
Proof. intros Hs Hn. exists (quoted s). split; [done|]. rewrite plain_quoted by done. lia. Qed.

Lemma pretty_N_length k n s :
  (n < 10 ^ N.of_nat k)%N → (String.length (pretty_N_go n s) <= k + String.length s)%nat.
Proof.
  revert n s. induction k as [|k IH]; intros n s Hn.
  - assert (n = 0%N) as -> by (simpl in Hn; lia). rewrite pretty_N_go_0. lia.
  - destruct (decide (n = 0)%N) as [->|Hz]; [rewrite pretty_N_go_0; lia|].
    rewrite pretty_N_go_step by lia.
    assert (n `div` 10 < 10 ^ N.of_nat k)%N as Hd.
    { apply N.Div0.div_lt_upper_bound. rewrite Nat2N.inj_succ, N.pow_succ_r' in Hn. lia. }
    specialize (IH _ (String (pretty_N_char (n `mod` 10)) s) Hd). simpl in IH. lia.
Qed.

Lemma py_length s : length (py s) = String.length s.
Proof. unfold py. rewrite length_map. induction s; simpl; congruence. Qed.

Lemma sized_int z : 0 <= z < 2 ^ 63 → sized (PInt z) 19.
Proof.
  intros Hz. exists (json_int z). split; [done|]. destruct z as [|p|p]; [done| |lia].
  rewrite json_int_pos. unfold zlen. rewrite py_length.
  assert (Npos p < 10 ^ N.of_nat 19)%N as Hp by (change (10 ^ N.of_nat 19)%N with 10000000000000000000%N; lia).
  pose proof (pretty_N_length 19 (Npos p) EmptyString Hp) as Hl. simpl in Hl. lia.
Qed.

(** One member: its printed key, a colon and its value. *)
Definition members_size (d : list (pystr * pyval)) (ns : list Z) : Prop :=
  Forall2 (λ p n, forallb plain_char p.1 = true ∧ sized p.2 n) d ns.

Lemma sized_dict (d : list (pystr * pyval)) ns :
  members_size d ns →
  sized (PDict (List.map (λ p, (PStr p.1, p.2)) d))
    (foldr (λ p n, zlen p.1 + 4 + n) 2 d + foldr Z.add 0 ns).
Proof.
  intros Hd. unfold sized. rewrite json_text_dict.
  enough (∃ ss, mapR (λ p, s ← json_compact float_repr p.2; Ok (quoted p.1 ++ [58] ++ s)) d = Ok ss
     ∧ zlen (join [44] ss) + 2 <= foldr (λ p n, zlen p.1 + 4 + n) 2 d + foldr Z.add 0 ns) as (ss & -> & Hlen).
  { eexists. split; [reflexivity|]. unfold zlen in *. rewrite !length_app. simpl. lia. }
  induction Hd as [|[k x] n d ns [Hk (t & Ht & Hn)] Hd IH]; [by exists []|].
  destruct IH as (ss & Hss & Hlen). simpl in Hk, Ht. cbn [mapR fst snd].
  rewrite Ht. cbn [mbind result_bind]. rewrite Hss. cbn [mbind result_bind].
  eexists. split; [reflexivity|]. cbn [foldr fst snd].
  pose proof (plain_quoted k Hk) as Hq. unfold zlen in *.
  destruct ss as [|s ss]; cbn [join] in *; rewrite ?length_app; simpl in *; lia.
Qed.
End Sized.

(** ** Receipts *)

Section AckSize.
Context {RN : Rns} {RNL : RnsLaws} {RNO : RnsOctets} (float_repr : spec_float → pystr).

Lemma forallb_weaken {A} (p q : A → bool) l : (∀ x, p x = true → q x = true) → forallb p l = true → forallb q l = true.
Proof. rewrite !forallb_forall. eauto. Qed.

Lemma plain_in_range c : 32 <= c <= 126 → c ≠ 34 → c ≠ 92 → plain_char c = true.
Proof.
  intros Hc H1%Z.eqb_neq H2%Z.eqb_neq. unfold plain_char. rewrite (proj2 (in_range_true 32 126 c)) by done.
  by rewrite H1, H2.
Qed.

Lemma word_plain c : is_word c = true → plain_char c = true.
Proof. unfold is_word. intros H. apply plain_in_range; ranges; lia. Qed.

Lemma lhex_plain s : forallb is_lhex s = true → forallb plain_char s = true.
Proof. apply forallb_weaken. intros c Hc. unfold is_lhex in Hc. apply plain_in_range; ranges; lia. Qed.

Lemma b64_plain b : all_bytes b → forallb plain_char (b64encode b) = true.
Proof.
  assert (∀ n, 0 <= n < 64 → plain_char (b64char n) = true) as Hc.
  { intros n Hn. apply plain_in_range; unfold b64char; zcases; bools; lia. }
  remember (length b) as n eqn:Hn. revert b Hn. induction (lt_wf n) as [n _ IH]. intros b -> Hb.
  destruct b as [|x [|y [|z b]]]; [done| | |];
    repeat match goal with H : Forall _ (_ :: _) |- _ => apply Forall_cons in H as [? H] end;
    ranges; cbn [b64encode forallb]; rewrite !Hc by zdiv; try done.
  simpl. apply (IH (length b)); [simpl; lia|done|done].
Qed.

Lemma existsb_plain s l n :
  existsb (str_eqb s) l = true → forallb (λ x, forallb plain_char x && (zlen x <=? n)) l = true →
  forallb plain_char s = true ∧ zlen s <= n.
Proof.
  intros Hs Hl. apply existsb_exists in Hs as (x & Hx & ->%str_eqb_eq). rewrite forallb_forall in Hl.
  apply Hl in Hx. bools. done.
Qed.

Lemma zlen_tohex b : zlen (tohex b) = 2 * zlen b.
Proof. unfold zlen. rewrite length_tohex. lia. Qed.

Lemma canonical_sized v n :
  jsonable v = true → sized float_repr (sort_keys v) n →
  ∃ t, canonical float_repr v = Ok t ∧ zlen t <= n.
Proof.
  intros Hj (t & Ht & Hn). exists t. unfold canonical. rewrite Ht. cbn [mbind result_bind].
  rewrite utf8_ascii; [done|]. by apply (compact_ascii float_repr (sort_keys v)), Ht; apply sort_keys_jsonable.
Qed.

(** The members of a body as printed, and the bounds of their values. *)
Definition sorted_members (b : ack_body) : list (pystr * pyval) :=
  [(py "config_id", opt_str (ab_config b)); (py "device", PStr (ab_device b));
   (py "envelope_hash", PStr (ab_hash b)); (py "error", PStr (ab_error b));
   (py "public_identity", PStr (ab_public b)); (py "schema_version", PInt 1);
   (py "sequence", PInt (ab_sequence b)); (py "status", PStr (ab_status b));
   (py "timestamp", PInt (ab_timestamp b))].

Definition member_sizes : list Z := [66; 34; 66; 31; 90; 19; 19; 13; 19].

Lemma body_sized device digest config_id sequence status error now :
  ack_wf digest config_id sequence status error now → now < 2 ^ 63 →
  members_size float_repr
    (sorted_members (AckBody (reference device) (public_text device) digest config_id sequence status error now))
    member_sizes.
Proof.
  intros [Hd Hc Hseq Hst Her Hnow] Ht. unfold hex_match in Hd. apply andb_true_iff in Hd as [Hdl Hd].
  apply Nat.eqb_eq in Hdl.
  destruct (existsb_plain _ _ 11 Hst) as [Hst1 Hst2]; [by vm_compute|].
  destruct (existsb_plain _ _ 29 Her) as [Her1 Her2]; [by vm_compute|].
  assert (zlen (tohex (identity_hash (public_of device))) <= 32) as Hl1.
  { rewrite zlen_tohex. unfold zlen. rewrite identity_hash_length. lia. }
  assert (zlen (b64encode (public_of device)) <= 88) as Hl2.
  { rewrite length_b64encode. unfold zlen. rewrite public_length. by vm_compute. }
  unfold members_size, sorted_members, member_sizes.
  repeat (apply Forall2_cons; split; [split; [by vm_compute|]|]); [..|by apply Forall2_nil];
    cbn [fst snd ab_config ab_device ab_hash ab_error ab_public ab_sequence ab_status ab_timestamp].
  - destruct config_id as [s|]; [|by exists (py "null")]. specialize (Hc s eq_refl). unfold identifier in Hc. bools.
    apply (sized_str _ _ 64); [by apply (forallb_weaken is_word); [apply word_plain|]|]. ranges; lia.
  - apply (sized_str _ _ 32); [|done]. apply lhex_plain, tohex_lhex, identity_hash_bytes.
  - apply (sized_str _ _ 64); [by apply lhex_plain|]. unfold zlen. lia.
  - by apply (sized_str _ _ 29).
  - apply (sized_str _ _ 88); [|done]. apply b64_plain, public_bytes.
  - by apply sized_int.
  - by apply sized_int.
  - by apply (sized_str _ _ 11).
  - by apply sized_int.
Qed.

Definition member (p : pystr * pyval) : pyval * pyval := (PStr p.1, p.2).

Definition body_members (b : ack_body) (plain : bytes) : list (pystr * pyval) :=
  (py "ack_id", PStr (tohex (full_hash plain))) :: sorted_members b.

Lemma sorted_body_members b plain : sorted_body b plain = List.map member (body_members b plain).
Proof. reflexivity. Qed.

Definition outer_members (v : pyval) (s : pystr) : list (pystr * pyval) :=
  [(py "body", v); (py "signature", PStr s)].

Lemma receipt_members device b plain signed :
  sort_keys (receipt_document device b plain signed)
  = PDict (List.map member (outer_members (sort_keys (signed_body b plain)) (signature_text device signed))).
Proof. reflexivity. Qed.

Definition overhead (ks : list pystr) : Z := foldr (λ k n, zlen k + 4 + n) 2 ks.

Lemma sized_members d ks ns m :
  d.*1 = ks → overhead ks + foldr Z.add 0 ns <= m → members_size float_repr d ns →
  sized float_repr (PDict (List.map member d)) m.
Proof.
  intros <- Hm Hd. destruct (sized_dict float_repr d ns Hd) as (t & Ht & Hn). exists t. split; [done|].
  etransitivity; [exact Hn|]. etransitivity; [|exact Hm]. apply Z.add_le_mono_r. unfold overhead. clear.
  induction d as [|[k x] d IH]; [done|]. cbn [foldr fmap list_fmap fst] in *. lia.
Qed.

(** Creating a receipt succeeds, and the receipt is within the size its
    verifier accepts. *)
Lemma create_ack_fits device digest config_id sequence status error now :
  ack_wf digest config_id sequence status error now → now < 2 ^ 63 →
  ∃ raw, create_ack float_repr device digest config_id sequence status error now = Ok raw
    ∧ zlen raw <= MAX_ACK_BYTES ∧ ascii raw.
Proof.
  intros Hwf Ht. destruct (create_ack_text float_repr device _ _ _ _ _ _ Hwf) as (plain & signed & _ & _ & Hsort & Hj & ->).
  set (b := AckBody _ _ _ _ _ _ _ _) in *.
  destruct (canonical_sized (receipt_document device b plain signed) 1000 Hj) as (raw & Hraw & Hlen).
  - rewrite receipt_members, Hsort, sorted_body_members.
    assert (sized float_repr (PDict (List.map member (body_members b plain))) 600) as Hbody.
    { eapply (sized_members _ _ (66 :: member_sizes)); [reflexivity|by vm_compute|].
      constructor; [|by apply body_sized]. split; [by vm_compute|]. apply (sized_str _ _ 64).
      - apply lhex_plain, tohex_lhex, full_hash_bytes.
      - rewrite zlen_tohex. unfold zlen. by rewrite full_hash_length. }
    eapply (sized_members _ _ [600; 90]); [reflexivity|by vm_compute|].
    apply Forall2_cons; split; [split; [by vm_compute|exact Hbody]|].
    apply Forall2_cons; split; [split; [by vm_compute|]|by apply Forall2_nil]. apply (sized_str _ _ 88).
    + apply b64_plain, sign_bytes.
    + unfold signature_text. rewrite length_b64encode. unfold zlen. rewrite sign_length. by vm_compute.
  - exists raw. split; [done|]. split; [unfold MAX_ACK_BYTES; lia|].
    unfold canonical in Hraw. apply bind_Ok in Hraw as (t & Et & Hu). apply of_option_Ok in Hu.
    pose proof (compact_ascii float_repr _ _ (sort_keys_jsonable _ Hj) Et) as Ha.
    rewrite utf8_ascii in Hu by done. by injection Hu as <-.
Qed.

(** A receipt the device creates is a receipt its verifier accepts: for
    fields within the protocol's alphabets and 64-bit numbers, [create]
    succeeds with at most [MAX_ACK_BYTES] octets, and [verify] returns exactly
    the fields it was given, under the device's own reference and key. *)
Theorem ack_roundtrip device digest config_id sequence status error now :
  ack_wf digest config_id sequence status error now → now < 2 ^ 63 →
  ∃ raw, create_ack float_repr device digest config_id sequence status error now = Ok raw
    ∧ zlen raw <= MAX_ACK_BYTES
    ∧ verify_ack float_repr raw =
        Ok (AckBody (reference device) (public_text device) digest config_id sequence status error now).
Proof.
  intros Hwf Ht. destruct (create_ack_fits device _ _ _ _ _ _ Hwf Ht) as (raw & Hraw & Hlen & _).
  exists raw. split; [done|]. split; [done|]. by apply (create_ack_verifies float_repr device).
Qed.
End AckSize.

(** ** The toy stack *)

#[export] Instance toy_octets : RnsOctets.
Proof.
  split; intros; cbn [public_of sign identity_hash full_hash toy_rns]; unfold toy_public, toy_signer, toy_sign; try apply fit_bytes.
  - apply Forall_take, fit_bytes.
  - rewrite length_take. unfold toy_hash. by rewrite length_fit.
  - reflexivity.
Qed.

Definition toy_device : @identity toy_rns := 11.

(** A receipt for the configuration of sequence 3, committed at 1000. *)
Lemma ack_roundtrip_witness :
  ∃ raw, create_ack (λ _, []) toy_device (repeat 48 64) (Some (py "cfg-3")) 3 (py "COMMITTED") (py "NONE") 1000 = Ok raw
    ∧ zlen raw <= MAX_ACK_BYTES
    ∧ verify_ack (λ _, []) raw =
        Ok (AckBody (reference toy_device) (public_text toy_device) (repeat 48 64) (Some (py "cfg-3")) 3
              (py "COMMITTED") (py "NONE") 1000).
Proof.
  apply (ack_roundtrip (λ _, []) toy_device (repeat 48 64) (Some (py "cfg-3")) 3 (py "COMMITTED") (py "NONE") 1000);
    [|reflexivity].
  split; try reflexivity; [|lia|lia]. intros s [= <-]. reflexivity.
Defined.
