(* ===== verification/Registry.v ===== *)
(** The Friends registry (control/friends/access.py, support_ids.py):
    invitations, enrolled devices, single-use challenges and support aliases,
    as tables of one database. *)
From Stdlib Require Import ZArith Lia.
From S2P Require Import Prelude PyData Json JsonText Rns Ack DeviceProof.

Local Open Scope Z_scope.

(** ** The tables *)

Record invite_row := Invite { iv_device : option pystr; iv_revoked : bool }.
Record device_row := Device { dv_public : pystr; dv_wg : pystr; dv_tcp : pystr; dv_revoked : bool }.
Record challenge_row := Challenge {
  cr_device : pystr;
  cr_public : pystr;
  cr_wg : pystr;
  cr_purpose : pystr;
  cr_invite : option pystr;
  cr_expires : Z;
  cr_used : bool;
}.
Record support_row := Support {
  sr_support : pystr;
  sr_platform : option pystr;
  sr_version : option pystr;
  sr_code : option Z;
  sr_seen : option Z;
  sr_source : option pystr;
}.
Record claim_row := Claim { cm_sponsor : pystr; cm_invite : pystr; cm_created : Z }.

(** Readiness receipts and mesh grants, tables of other services the registry
    reads when they exist. *)
Record readiness_row := Readiness { rr_device : pystr; rr_ack : option pystr; rr_ack_at : option Z; rr_expires : option Z }.
Record grant_row := Grant { gr_revoked : bool; gr_expires : option Z }.

Record subscription_row := Sub {
  sb_state : pystr;
  sb_period_start : Z;
  sb_paid_until : Z;
  sb_grace_until : option Z;
  sb_created_at : Z;
  sb_updated_at : Z;
  sb_version : Z;
  sb_last_event : pystr;
  sb_revoked_at : option Z;
}.
Record event_row := EventRow {
  er_device : pystr;
  er_type : pystr;
  er_occurred_at : Z;
  er_previous : option pystr;
  er_state : pystr;
  er_period_start : Z;
  er_paid_until : Z;
  er_grace_until : option Z;
  er_reference : pystr;
  er_payload : pystr;
  er_applied_at : Z;
}.

Record registry := Registry {
  rg_invites : list (pystr * invite_row);
  rg_devices : list (pystr * device_row);
  rg_challenges : list (pystr * challenge_row);
  rg_support : option (list (pystr * support_row));
  rg_links : list (pystr * pystr);
  rg_claims : list (pystr * claim_row);
  rg_readiness : option (list readiness_row);
  rg_grants : option (list (pystr * grant_row));
  rg_paid : option (list (pystr * subscription_row) * list (pystr * event_row));
}.

Definition new_registry : registry := Registry [] [] [] (Some []) [] [] None None None.

Definition set_invites x (g : registry) := Registry x (rg_devices g) (rg_challenges g) (rg_support g) (rg_links g) (rg_claims g) (rg_readiness g) (rg_grants g) (rg_paid g).
Definition set_devices x (g : registry) := Registry (rg_invites g) x (rg_challenges g) (rg_support g) (rg_links g) (rg_claims g) (rg_readiness g) (rg_grants g) (rg_paid g).
Definition set_challenges x (g : registry) := Registry (rg_invites g) (rg_devices g) x (rg_support g) (rg_links g) (rg_claims g) (rg_readiness g) (rg_grants g) (rg_paid g).
Definition set_support x (g : registry) := Registry (rg_invites g) (rg_devices g) (rg_challenges g) x (rg_links g) (rg_claims g) (rg_readiness g) (rg_grants g) (rg_paid g).
Definition set_links x (g : registry) := Registry (rg_invites g) (rg_devices g) (rg_challenges g) (rg_support g) x (rg_claims g) (rg_readiness g) (rg_grants g) (rg_paid g).
Definition set_claims x (g : registry) := Registry (rg_invites g) (rg_devices g) (rg_challenges g) (rg_support g) (rg_links g) x (rg_readiness g) (rg_grants g) (rg_paid g).
Definition set_paid x (g : registry) := Registry (rg_invites g) (rg_devices g) (rg_challenges g) (rg_support g) (rg_links g) (rg_claims g) (rg_readiness g) (rg_grants g) x.

Definition Rejected : exn := EnrollmentRejected.

(** A SELECT of one row inside a transaction, and a condition of the code. *)
Definition select {A} (f : registry → A) : M registry A := λ g, (Ok (f g), g).
Definition demand (b : bool) (e : exn) : M registry () := lift (require b e).

(** ** Texts *)

(** [str.upper()], for the characters whose upper case is ASCII; every other
    character stays outside ASCII, where all that is asked of the result is to
    match an ASCII pattern. *)
Definition upper_char (c : Z) : pystr :=
  if in_range 97 122 c then [c - 32]
  else if c =? 223 then [83; 83] else if c =? 305 then [73] else if c =? 383 then [83]
  else if c =? 64256 then [70; 70] else if c =? 64257 then [70; 73] else if c =? 64258 then [70; 76]
  else if c =? 64259 then [70; 70; 73] else if c =? 64260 then [70; 70; 76]
  else if c =? 64261 then [83; 84] else if c =? 64262 then [83; 84] else [c].
Definition upper (s : pystr) : pystr := s ≫= upper_char.

Definition is_uhex (c : Z) : bool := in_range 48 57 c || in_range 65 70 c.

(** [hashlib.sha256(s.encode()).hexdigest()] *)
Definition sha_text {RN : Rns} (s : pystr) : result pystr :=
  b ← of_option (ValueError "UnicodeEncodeError") (utf8_encode s);
  Ok (tohex (full_hash b)).

(** [support_ids.ALPHABET], [support_ids.PATTERN] and [VERSION] *)
Definition ALPHABET : pystr := py "23456789ABCDEFGHJKMNPQRSTVWXYZ".
Definition in_alphabet (c : Z) : bool := existsb (Z.eqb c) ALPHABET.
Definition support_pattern (s : pystr) : bool :=
  match s with
  | [f; c; d1; a1; a2; a3; a4; d2; b1; b2; b3; b4] =>
      (f =? 70) && (c =? 67) && (d1 =? 45) && (d2 =? 45) && forallb in_alphabet [a1; a2; a3; a4; b1; b2; b3; b4]
  | _ => false
  end.
Definition version_char (c : Z) : bool := is_word c || (c =? 46).
Definition version_pattern (s : pystr) : bool := in_range 1 64 (zlen s) && forallb version_char s.

(** [support_ids.normalize(value)] *)
Definition normalize (v : pyval) : result pystr :=
  s ← of_option (ValueError "Invalid Support ID") (as_str v);
  require (support_pattern (upper (strip s))) (ValueError "Invalid Support ID");;
  Ok (upper (strip s)).

Definition is_device (v : pyval) : bool := match v with PStr s => hex_match 32 s | _ => false end.

(** ** Enrollment (access.py) *)

Definition CHALLENGE_TTL : Z := 100.

Section Access.
Context {RN : Rns} (float_repr : spec_float → pystr).

(** [code_hash(code)] *)
Definition code_hash (code : pyval) : result pystr :=
  s ← of_option Rejected (as_str code);
  let n := List.filter (λ c, negb (c =? 45)) (upper (strip s)) in
  let n := if startswith (py "FC") n then drop 2 n else n in
  require ((zlen n =? 32) && forallb is_uhex n) Rejected;;
  sha_text n.

(** The printed form of an invitation: [FC-] and groups of four. *)
Fixpoint groups4 (s : pystr) : list pystr :=
  match s with
  | a :: b :: c :: d :: s => [a; b; c; d] :: groups4 s
  | [] => []
  | s => [s]
  end.
Definition invite_code (value : pystr) : pystr := py "FC-" ++ join [45] (groups4 value).

(** [INSERT INTO invites(hash)]: the hash is the primary key. *)
Definition insert_invite (hash : pystr) : M registry () :=
  used ← select (λ g, dmem hash (rg_invites g));
  demand (negb used) SqliteError;;
  modify (λ g, set_invites (dset hash (Invite None false) (rg_invites g)) g).

(** [invite()]; [raw] are the sixteen random octets. *)
Definition invite (raw : bytes) : M registry pystr :=
  let code := invite_code (upper (tohex raw)) in
  transaction (h ← lift (code_hash (PStr code)); insert_invite h);;
  mret code.

(** [revoke_device(device)] *)
Definition revoke_device (device : pyval) : M registry bool :=
  demand (is_device device) Rejected;;
  transaction (
    row ← select (λ g, dget (str_or_empty device) (rg_devices g));
    row ← lift (of_option Rejected row);
    modify (λ g, set_devices (dset (str_or_empty device)
      (Device (dv_public row) (dv_wg row) (dv_tcp row) true) (rg_devices g)) g);;
    mret (negb (dv_revoked row))).

(** [binding(public, wg)] *)
Definition device_of (public wg : pyval) : result pystr :=
  key ← decode_field public 64;
  decode_field wg 32;;
  Ok (take 32 (tohex (full_hash key))).

Definition purposes : list pystr :=
  List.map py ["activate"; "status"; "subscription"; "support"; "ru"; "nl"; "gateway:nl-amsterdam-1";
    "gateway:nl-amsterdam-2"; "refer"; "notices-role"; "notices-publish"; "notices-list"; "notices-edit"]%string.

Definition valid_purpose (v : pyval) : bool :=
  is_in v purposes
  || match v with
     | PStr s => startswith (py "diagnostics:") s && hex_match 64 (drop 12 s)
     | _ => false
     end.

(** A row an invitation may still be redeemed from. *)
Definition open_invite (g : option invite_row) : bool :=
  match g with Some (Invite None false) => true | _ => false end.

Definition same_keys (public wg : pyval) (r_public r_wg : pystr) : bool :=
  key_is_str r_public public && key_is_str r_wg wg.

(** [challenge(public_identity, wireguard_public_key, purpose, invitation)];
    [token] are the thirty-two random octets. *)
Definition challenge (public wg purpose invitation : pyval) (now : Z) (token : bytes) : M registry (pystr * Z) :=
  demand (valid_purpose purpose) Rejected;;
  device ← lift (device_of public wg);
  let purpose := str_or_empty purpose in
  transaction (
    row ← select (λ g, dget device (rg_devices g));
    invite ← (match row with
      | Some row =>
          demand (negb (dv_revoked row) && same_keys public wg (dv_public row) (dv_wg row)) Rejected;;
          mret None
      | None =>
          demand (str_eqb purpose (py "activate") || str_eqb purpose (py "status")) Rejected;;
          if str_eqb purpose (py "activate") then
            h ← lift (code_hash invitation);
            grant ← select (λ g, dget h (rg_invites g));
            demand (open_invite grant) Rejected;;
            mret (Some h)
          else mret None
      end);
    modify (λ g, set_challenges (filter (λ p, ~ cr_expires p.2 <= now) (rg_challenges g)) g);;
    live ← select (λ g, zlen (List.filter (λ p, str_eqb (cr_device p.2) device && negb (cr_used p.2)) (rg_challenges g)));
    demand (live <? 8) Rejected;;
    let nonce := b64encode token in
    h ← lift (sha_text nonce);
    taken ← select (λ g, dmem h (rg_challenges g));
    demand (negb taken) SqliteError;;
    modify (λ g, set_challenges (dset h (Challenge device (str_or_empty public) (str_or_empty wg) purpose invite
      (now + CHALLENGE_TTL) false) (rg_challenges g)) g);;
    mret (nonce, now + CHALLENGE_TTL)).

(** The challenge a proof answers, if it is live and was issued for the proved
    keys and this purpose. *)
Definition answers (c : option challenge_row) (purpose device : pystr) (cl : claims) (now : Z) : result challenge_row :=
  c ← of_option Rejected c;
  require (negb (cr_used c) && negb (cr_expires c <=? now) && str_eqb (cr_purpose c) purpose
           && str_eqb (cr_device c) device && str_eqb (cr_public c) (cl_public cl) && str_eqb (cr_wg c) (cl_wg cl)) Rejected;;
  Ok c.

Definition use_challenge (nonce : pystr) (c : challenge_row) : M registry () :=
  modify (λ g, set_challenges (dset nonce (Challenge (cr_device c) (cr_public c) (cr_wg c) (cr_purpose c) (cr_invite c)
    (cr_expires c) true) (rg_challenges g)) g).

(** [INSERT INTO devices], every column of which is unique. *)
Definition insert_device (device : pystr) (row : device_row) : M registry () :=
  clash ← select (λ g, existsb (λ p, str_eqb p.1 device || str_eqb (dv_public p.2) (dv_public row)
                        || str_eqb (dv_wg p.2) (dv_wg row) || str_eqb (dv_tcp p.2) (dv_tcp row)) (rg_devices g));
  demand (negb clash) SqliteError;;
  modify (λ g, set_devices (dset device row (rg_devices g)) g).

(** [UPDATE invites SET device=? WHERE hash=?]; the column is unique. *)
Definition redeem_invite (hash device : pystr) : M registry () :=
  clash ← select (λ g, existsb (λ p, negb (str_eqb p.1 hash) && bool_decide (iv_device p.2 = Some device)) (rg_invites g));
  demand (negb clash) SqliteError;;
  row ← select (λ g, dget hash (rg_invites g));
  match row with
  | None => mret ()
  | Some row => modify (λ g, set_invites (dset hash (Invite (Some device) (iv_revoked row)) (rg_invites g)) g)
  end.

(** [support_ids.registered(database, device)]: a new alias is drawn at most
    thirty-two times; [tries] are the eight letters of each draw. *)
Fixpoint draw_support (device : pystr) (attempts : nat) (tries : list pystr) (t : list (pystr * support_row)) :
    option (pystr * list (pystr * support_row)) :=
  match attempts, tries with
  | S attempts, random :: tries =>
      let support := py "FC-" ++ take 4 random ++ [45] ++ drop 4 random in
      if existsb (λ p, str_eqb (sr_support p.2) support) t then draw_support device attempts tries t
      else Some (support, dset device (Support support None None None None None) t)
  | _, _ => None
  end.

Definition registered (device : pystr) (tries : list pystr) : M registry (option pystr) :=
  table ← select rg_support;
  match table with
  | None => mret None
  | Some t =>
      match dget device t with
      | Some row => mret (Some (sr_support row))
      | None =>
          known ← select (λ g, dmem device (rg_devices g));
          demand known Rejected;;
          '(support, t) ← lift (of_option (RuntimeError "Support ID allocation unavailable") (draw_support device 32 tries t));
          modify (set_support (Some t));;
          mret (Some support)
      end
  end.

Definition proof_challenge (proof : pyval) : result pyval :=
  d ← of_option TypeError (as_dict proof);
  item "challenge" d.

(** [complete(proof, purpose)]; [tcp] is the new [uuid4]. *)
Definition complete (proof : pyval) (purpose : pystr) (now : Z) (tcp : pystr) (tries : list pystr) :
    M registry (pystr * pystr * pystr) :=
  expected ← lift (proof_challenge proof);
  '(device, cl) ← lift (verify_proof float_repr proof expected ENROLLMENT);
  nonce ← lift (sha_text (cl_challenge cl));
  transaction (
    c ← select (λ g, dget nonce (rg_challenges g));
    c ← lift (answers c purpose device cl now);
    row ← select (λ g, dget device (rg_devices g));
    (match row with
     | Some _ => mret ()
     | None =>
         demand (str_eqb purpose (py "activate")) Rejected;;
         let hash := default [] (cr_invite c) in
         grant ← select (λ g, match cr_invite c with Some h => dget h (rg_invites g) | None => None end);
         demand (open_invite grant) Rejected;;
         insert_device device (Device (cl_public cl) (cl_wg cl) tcp false);;
         redeem_invite hash device
     end);;
    row ← select (λ g, dget device (rg_devices g));
    row ← lift (of_option TypeError row);
    demand (negb (dv_revoked row) && str_eqb (dv_public row) (cl_public cl) && str_eqb (dv_wg row) (cl_wg cl)) Rejected;;
    use_challenge nonce c;;
    (if str_eqb purpose (py "support") then mret None else registered device tries);;
    mret (device, dv_wg row, dv_tcp row)).

(** [status(proof)] *)
Record device_status := DeviceStatus { ds_device : pystr; ds_registered : bool; ds_revoked : bool; ds_active : bool }.

Definition invite_of (device : pystr) (g : registry) : option invite_row :=
  snd <$> List.find (λ p, bool_decide (iv_device p.2 = Some device)) (rg_invites g).

Definition enrollment_status (proof : pyval) (now : Z) : M registry device_status :=
  expected ← lift (proof_challenge proof);
  '(device, cl) ← lift (verify_proof float_repr proof expected ENROLLMENT);
  nonce ← lift (sha_text (cl_challenge cl));
  transaction (
    c ← select (λ g, dget nonce (rg_challenges g));
    c ← lift (answers c (py "status") device cl now);
    use_challenge nonce c;;
    row ← select (λ g, dget device (rg_devices g));
    match row with
    | None => mret (DeviceStatus device false false false)
    | Some row =>
        grant ← select (invite_of device);
        let revoked := dv_revoked row || match grant with Some i => iv_revoked i | None => false end in
        mret (DeviceStatus device true revoked
                (negb revoked && str_eqb (dv_public row) (cl_public cl) && str_eqb (dv_wg row) (cl_wg cl)))
    end).
End Access.
