(* ===== verification/Referrals.v ===== *)
(** The support service and the referral campaign over the Friends registry
    (control/friends/support_ids.py, referrals.py). *)
From Stdlib Require Import ZArith Lia.
From S2P Require Import Prelude PyData Json JsonText Rns Ack DeviceProof Registry.

Local Open Scope Z_scope.

(** ** Support requests (support_ids.py) *)

Definition PLATFORMS : list pystr := List.map py ["android"; "windows"; "linux"]%string.

(** The fields a support request reports. *)
Record observation := Observation { ob_platform : pystr; ob_version : pystr; ob_code : Z }.

Definition support_names : list string := ["proof"; "platform"; "app_version"; "version_code"]%string.

(** The conditions at the head of [request(access, value)]. *)
Definition parse_support (value : pyval) : result (pyval * observation) :=
  d ← of_option Rejected (as_dict value);
  require (keys_are support_names d) Rejected;;
  proof ← item "proof" d;
  platform ← item "platform" d;
  version ← item "app_version" d;
  code ← item "version_code" d;
  fields ← of_option Rejected (as_dict proof);
  require (match lookup_str "challenge" fields with Some (PStr _) => true | _ => false end) Rejected;;
  require (is_in platform PLATFORMS) Rejected;;
  v ← of_option Rejected (as_str version);
  require (version_pattern v) Rejected;;
  c ← of_option Rejected (as_int code);
  require (in_range 1 2147483647 c) Rejected;;
  Ok (proof, Observation (str_or_empty platform) v c).

(** [SELECT d.revoked, i.revoked ... FROM devices d JOIN invites i ON i.device=d.device] *)
Definition enrolled (device : pystr) (g : registry) : option (device_row * invite_row) :=
  d ← dget device (rg_devices g);
  i ← invite_of device g;
  Some (d, i).

(** A device and its invitation, neither of them revoked. *)
Definition in_force (row : option (device_row * invite_row)) : bool :=
  match row with Some (d, i) => negb (dv_revoked d) && negb (iv_revoked i) | None => false end.

Definition support_table : M registry (list (pystr * support_row)) :=
  t ← select rg_support;
  lift (of_option SqliteError t).

Section Support.
Context {RN : Rns} (float_repr : spec_float → pystr).

(** [request(access, value)]; [complete] reads the clock first. *)
Definition support_request (value : pyval) (now later : Z) (tcp : pystr) (tries : list pystr) : M registry pystr :=
  '(proof, ob) ← lift (parse_support value);
  '(device, _, _) ← complete float_repr proof (py "support") now tcp tries;
  transaction (
    row ← select (enrolled device);
    demand (in_force row) Rejected;;
    t ← support_table;
    row ← lift (of_option (RuntimeError "Support inventory mismatch") (dget device t));
    modify (set_support (Some (dset device
      (Support (sr_support row) (Some (ob_platform ob)) (Some (ob_version ob)) (Some (ob_code ob)) (Some later)
         (Some (py "support_request"))) t)));;
    mret (sr_support row)).

(** [inventory(access)] *)
Record inventory_counts := Inventory {
  in_total : Z; in_live : Z; in_revoked : Z; in_ids : Z; in_platform : Z; in_version : Z;
  in_no_platform : Z; in_no_version : Z;
}.

Definition inventory : M registry inventory_counts :=
  transaction (
    t ← support_table;
    devices ← select rg_devices;
    let joined := List.map (λ p, (p.2, dget p.1 t)) devices in
    let count := λ f : device_row * option support_row → bool, zlen (List.filter f joined) in
    let has := λ (f : support_row → bool) p, match snd p with Some s => f s | None => false end in
    let total := zlen joined in
    let platforms := count (has (λ s, bool_decide (is_Some (sr_platform s)))) in
    let versions := count (has (λ s, bool_decide (is_Some (sr_version s)))) in
    mret (Inventory total (count (λ p, negb (dv_revoked p.1))) (count (λ p, dv_revoked p.1))
      (count (has (λ _, true))) platforms versions (total - platforms) (total - versions))).
End Support.

(** ** The referral campaign (referrals.py) *)

Definition LIMIT : Z := 500.
Definition DAILY : Z := 20.

(** [hmac.new(key, message, hashlib.sha256).digest()] for a key within one block. *)
Definition hmac_sha256 {RN : Rns} (key message : bytes) : bytes :=
  let padded := key ++ repeat 0 (64 - length key) in
  full_hash (List.map (Z.lxor 92) padded ++ full_hash (List.map (Z.lxor 54) padded ++ message)).

Section Referrals.
Context {RN : Rns} (float_repr : spec_float → pystr).

(** [Referrals(access, secret)] *)
Definition new_referrals (secret : pyval) : result bytes :=
  s ← of_option (ValueError "Referral secret required") (as_bytes secret);
  require (zlen s =? 32) (ValueError "Referral secret required");;
  Ok s.

Context (secret : bytes).

(** [digest(value)] *)
Definition referral_digest (value : pystr) : result pystr :=
  b ← of_option (ValueError "UnicodeEncodeError") (utf8_encode value);
  Ok (tohex (hmac_sha256 secret b)).

(** [active(db, device)] *)
Definition active (device : pystr) : M registry () :=
  row ← select (enrolled device);
  demand (in_force row) Rejected.

(** [INSERT OR IGNORE INTO referral_links]: both columns are unique. *)
Definition link_sponsor (token_hash device : pystr) : M registry () :=
  modify (λ g, if existsb (λ p, str_eqb p.1 token_hash || str_eqb p.2 device) (rg_links g) then g
               else set_links (dset token_hash device (rg_links g)) g).

(** [issue(proof)]: the token of the link and what remains of the pool. *)
Definition issue (proof : pyval) (now : Z) (tcp : pystr) (tries : list pystr) : M registry (pystr * Z) :=
  '(device, _, _) ← complete float_repr proof (py "refer") now tcp tries;
  token ← lift (referral_digest (py "referral-v1:" ++ device));
  token_hash ← lift (sha_text token);
  transaction (
    active device;;
    link_sponsor token_hash device;;
    claimed ← select (λ g, zlen (rg_claims g));
    mret (token, Z.max 0 (LIMIT - claimed))).

(** The invitation a request is answered with, and the name it is stored under. *)
Definition referral_code (request_id : pystr) : result (pystr * pystr) :=
  request ← referral_digest (py "request-v1:" ++ request_id);
  raw ← referral_digest (py "invite-v1:" ++ request);
  Ok (request, invite_code (upper (take 32 raw))).

(** Claims of a sponsor within the day before [now]. *)
Definition recent_claims (sponsor : pystr) (now : Z) (l : list (pystr * claim_row)) : list (pystr * claim_row) :=
  List.filter (λ p, str_eqb (cm_sponsor p.2) sponsor && (now - 86400 <? cm_created p.2)) l.

(** [INSERT INTO referral_claims]: the request and the invite are unique. *)
Definition insert_claim (request : pystr) (row : claim_row) : M registry () :=
  clash ← select (λ g, existsb (λ p, str_eqb p.1 request || str_eqb (cm_invite p.2) (cm_invite row)) (rg_claims g));
  demand (negb clash) SqliteError;;
  modify (λ g, set_claims (dset request row (rg_claims g)) g).

(** [claim(token, request_id)]: the invitation, and whether it was activated. *)
Definition claim (token request_id : pyval) (now : Z) : M registry (pystr * bool) :=
  t ← lift (of_option Rejected (as_str token));
  demand (hex_match 64 t) Rejected;;
  r ← lift (of_option Rejected (as_str request_id));
  demand (hex_match 32 r) Rejected;;
  token_hash ← lift (sha_text t);
  '(request, code) ← lift (referral_code r);
  transaction (
    sponsor ← select (λ g, dget token_hash (rg_links g));
    sponsor ← lift (of_option Rejected sponsor);
    prior ← select (λ g, dget request (rg_claims g));
    match prior with
    | Some row =>
        grant ← select (λ g, dget (cm_invite row) (rg_invites g));
        grant ← lift (of_option Rejected grant);
        demand (negb (iv_revoked grant)) Rejected;;
        mret (code, negb (bool_decide (default [] (iv_device grant) = [])))
    | None =>
        active sponsor;;
        claimed ← select (λ g, zlen (rg_claims g));
        demand (claimed <? LIMIT) ReferralExhausted;;
        today ← select (λ g, zlen (recent_claims sponsor now (rg_claims g)));
        demand (today <? DAILY) ReferralRateLimited;;
        h ← lift (code_hash (PStr code));
        insert_invite h;;
        insert_claim request (Claim sponsor h now);;
        mret (code, false)
    end).
End Referrals.
