(* ===== verification/PaidBeta.v ===== *)
(** The paid cohort over the Friends registry (control/friends/paid_beta.py):
    the subscription of a device, the release it runs and the operator's view. *)
From Stdlib Require Import ZArith Lia.
From S2P Require Import Prelude PyData Json JsonText Rns Ack DeviceProof Registry Referrals.

Local Open Scope Z_scope.

(** ** Releases *)

Record android_release := AndroidRelease {
  ar_platform : pystr;
  ar_version : pystr;
  ar_code : Z;
  ar_apk : pystr;
}.

Definition LEGACY_ANDROID_RELEASE : android_release :=
  AndroidRelease (py "android") (py "0.1.18-beta108") 108
    (py "144b158fe4c07dd19a67683887558cf88a0202b937d135a9924698ffc11b4fdf").
Definition PAID_ANDROID_RELEASES : list android_release :=
  [LEGACY_ANDROID_RELEASE;
   AndroidRelease (py "android") (py "0.1.18-beta119") 119
     (py "52a9847b74181c48808c86a0c5bf5925b53ef498eec628aef2d78d26f1c92d2d")].

Definition COHORT_LIMIT : Z := 10.
Definition MAX_TIME : Z := 253402300799.

Definition paid_error {A} (reason : string) : result A := Raise (PaidBetaError reason).
Definition demand_paid (b : bool) (reason : string) : M registry () := demand b (PaidBetaError reason).

(** [instant(value)] *)
Definition instant (v : pyval) : result Z :=
  match as_int v with
  | Some z => if in_range 0 MAX_TIME z then Ok z else paid_error "INVALID_TIME"
  | None => paid_error "INVALID_TIME"
  end.

(** ** Tables *)

(** The tables of the paid schema, once migrated. *)
Abbreviation subscriptions := (list (pystr * subscription_row)) (only parsing).
Abbreviation events := (list (pystr * event_row)) (only parsing).

Definition schema_present (g : registry) : bool := bool_decide (is_Some (rg_paid g)).
Definition subscriptions_of (g : registry) : subscriptions := match rg_paid g with Some p => p.1 | None => [] end.
Definition events_of (g : registry) : events := match rg_paid g with Some p => p.2 | None => [] end.

(** [migrate(database)]: tables that exist are kept. *)
Definition migrate : M registry () :=
  modify (λ g, match rg_paid g with Some _ => g | None => set_paid (Some ([], [])) g end).

Definition STATES : list pystr := List.map py ["trial"; "active"; "grace"; "expired"; "revoked"]%string.

(** The [CHECK] constraints of a subscription. *)
Definition subscription_checks (s : subscription_row) : bool :=
  existsb (str_eqb (sb_state s)) STATES
  && (0 <=? sb_period_start s) && (sb_period_start s <? sb_paid_until s)
  && match sb_grace_until s with Some g => sb_paid_until s <=? g | None => true end
  && (0 <? sb_version s)
  && (negb (str_eqb (sb_state s) (py "grace")) || bool_decide (is_Some (sb_grace_until s)))
  && Bool.eqb (str_eqb (sb_state s) (py "revoked")) (bool_decide (is_Some (sb_revoked_at s))).

(** ** The effective state of a subscription *)

Record subscription_state := SubscriptionState { st_state : pystr; st_allowed : bool; st_expires : option Z }.

(** [effective_subscription_state(database, device, now)] *)
Definition effective_state (g : registry) (device : pystr) (now : Z) : result (option subscription_state) :=
  instant (PInt now);;
  require (hex_match 32 device) (PaidBetaError "INVALID_DEVICE");;
  match dget device (subscriptions_of g) with
  | None => Ok None
  | Some row =>
      let state_is := λ name, str_eqb (sb_state row) (py name) in
      if state_is "revoked"%string || bool_decide (is_Some (sb_revoked_at row))
      then Ok (Some (SubscriptionState (py "revoked") false None))
      else
        require (state_is "trial" || state_is "active" || state_is "grace" || state_is "expired")%string (PaidBetaError "INVALID_SUBSCRIPTION");;
        let boundary := if state_is "grace"%string
          then match sb_grace_until row with Some z => PInt z | None => PNone end else PInt (sb_paid_until row) in
        boundary ← instant boundary;
        if (state_is "active" || state_is "trial" || state_is "grace")%string && (now <? boundary)
        then Ok (Some (SubscriptionState (sb_state row) true (Some boundary)))
        else Ok (Some (SubscriptionState (py "expired") false None))
  end.

(** ** Devices by support alias *)

Record resolved := Resolved { rs_device : pystr; rs_revoked : bool; rs_invite : option bool }.

(** The rows of the join of aliases, devices and invitations. *)
Definition alias_rows (g : registry) (t : list (pystr * support_row)) (support : pystr) : list resolved :=
  List.filter (λ p, str_eqb (sr_support p.2) support) t ≫= λ p,
    match dget p.1 (rg_devices g) with
    | None => []
    | Some d =>
        match List.filter (λ i, bool_decide (iv_device i.2 = Some p.1)) (rg_invites g) with
        | [] => [Resolved p.1 (dv_revoked d) None]
        | l => List.map (λ i, Resolved p.1 (dv_revoked d) (Some (iv_revoked i.2))) l
        end
    end.

(** [resolve_device(database, support)] *)
Definition resolve_device (g : registry) (support : pyval) : result resolved :=
  support ← try_with (normalize support) (λ e,
    if is_ValueError e then paid_error "INVALID_SUPPORT_SELECTOR" else Raise e);
  t ← of_option SqliteError (rg_support g);
  match alias_rows g t support with
  | [row] => Ok row
  | _ => paid_error "UNIQUE_EXISTING_DEVICE_REQUIRED"
  end.

(** A device and its invitation, neither revoked. *)
Definition activation_active (r : resolved) : bool := negb (rs_revoked r) && bool_decide (rs_invite r = Some false).

(** ** The release a device was last seen with *)

(** A JSON object read with the default hook: the last member of a name wins. *)
Fixpoint set_member (k : pystr) (v : pyval) (d : list (pyval * pyval)) : list (pyval * pyval) :=
  match d with
  | [] => [(PStr k, v)]
  | (k', v') :: d => if key_is_str k k' then (k', v) :: d else (k', v') :: set_member k v d
  end.
Definition plain_object (d : list (pyval * pyval)) : option pyval :=
  Some (PDict (foldl (λ acc p, match p.1 with PStr k => set_member k p.2 acc | _ => acc end) [] d)).

Abbreviation sighting := (Z * (pyval * pyval))%type (only parsing).

(** The newest receipts of a device, among the rows that carry one. *)
Definition newest_receipts (g : registry) (device : pystr) : list (Z * pystr) :=
  match rg_readiness g with
  | None => []
  | Some rows =>
      let mine := omap (λ r, ack ← rr_ack r; Some (rr_ack_at r, ack))
                       (List.filter (λ r, str_eqb (rr_device r) device) rows) in
      let newest := foldl (λ m p, match p.1, m with
                            | Some z, Some m => Some (Z.max z m) | Some z, None => Some z | None, m => m end) None mine in
      omap (λ p, at_ ← p.1; if bool_decide (Some at_ = newest) then Some (at_, p.2) else None) mine
  end.

Definition receipt_sighting (p : Z * pystr) : result sighting :=
  d ← of_option (PaidBetaError "INVALID_VERSION_OBSERVATION") (json_loads plain_object p.2 ≫= as_dict);
  Ok (p.1, (default PNone (lookup_str "app_version" d), default PNone (lookup_str "version_code" d))).

(** [confirmed_android_release(database, device)] *)
Definition release_matches (version code : pyval) : list android_release :=
  List.filter (λ r, bool_decide (as_str version = Some (ar_version r)) && bool_decide (as_int code = Some (ar_code r)))
    PAID_ANDROID_RELEASES.

Definition sightings (g : registry) (s : support_row) (device : pystr) : result (list sighting) :=
  let own := match sr_seen s with
    | Some seen => [(seen, (opt_str (sr_version s), match sr_code s with Some c => PInt c | None => PNone end))]
    | None => []
    end in
  let newer := List.filter (λ p, match sr_seen s with Some seen => seen <=? p.1 | None => true end) (newest_receipts g device) in
  receipts ← mapR receipt_sighting newer;
  Ok (own ++ receipts).

#[export] Instance android_release_eq_dec : EqDecision android_release.
Proof. solve_decision. Defined.

Definition confirmed_release (g : registry) (device : pystr) : result android_release :=
  t ← of_option SqliteError (rg_support g);
  s ← of_option (PaidBetaError "ANDROID_BASELINE_REQUIRED") (dget device t);
  require (bool_decide (sr_platform s = Some (py "android"))) (PaidBetaError "ANDROID_BASELINE_REQUIRED");;
  seen ← sightings g s device;
  match seen with
  | [] => paid_error "ANDROID_BASELINE_REQUIRED"
  | first :: rest =>
      let latest := foldl (λ m o, Z.max m o.1) first.1 rest in
      selected ← foldR (λ selected o,
        if o.1 =? latest then
          match release_matches o.2.1 o.2.2 with
          | [r] => require (bool_decide (selected = None ∨ selected = Some r)) (PaidBetaError "ANDROID_VERSION_CONFLICT");;
                   Ok (Some r)
          | _ => paid_error "ANDROID_BASELINE_REQUIRED"
          end
        else Ok selected) None seen;
      of_option (PaidBetaError "ANDROID_BASELINE_REQUIRED") selected
  end.

(** [confirm_android_baseline(database, device)] *)
Definition confirm_android_baseline (g : registry) (device : pystr) : result () :=
  r ← confirmed_release g device;
  require (bool_decide (r = LEGACY_ANDROID_RELEASE)) (PaidBetaError "ANDROID_BASELINE_REQUIRED").

(** ** The operator's view *)

Record paid_status := PaidStatus {
  ps_device : pystr;
  ps_active : bool;
  ps_subscription : option (subscription_row * subscription_state);
}.

(** [status(database, support, now)] *)
Definition status (g : registry) (support : pyval) (now : Z) : result paid_status :=
  r ← resolve_device g support;
  e ← effective_state g (rs_device r) now;
  Ok (PaidStatus (rs_device r) (activation_active r)
        (e ← e; row ← dget (rs_device r) (subscriptions_of g); Some (row, e))).
