(* ===== verification/Support.v ===== *)
(** The operator's side of the support service (control/friends/support_ids.py):
    aliases for devices that were enrolled before there were any, and the view
    of one device. *)
From Stdlib Require Import ZArith Lia.
From S2P Require Import Prelude PyData Json JsonText Rns Ack DeviceProof Registry Referrals PaidBeta.

Local Open Scope Z_scope.

(** [create(database)]: a table that exists is kept. *)
Definition create_support : M registry () :=
  modify (λ g, match rg_support g with Some _ => g | None => set_support (Some []) g end).

(** ** Readiness receipts *)

Record receipt_view := ReceiptView {
  rv_version : pystr;
  rv_code : Z;
  rv_seen : option Z;
  rv_expires : option Z;
  rv_ready : bool;
}.

(** [ack_at] in descending order, with NULL last. *)
Definition newer (a b : option Z) : bool :=
  match a, b with Some x, Some y => y <? x | Some _, None => true | None, _ => false end.

Definition newest_receipt (rows : list readiness_row) (device : pystr) : option readiness_row :=
  foldl (λ best r, match best with
    | None => Some r
    | Some b => if newer (rr_ack_at r) (rr_ack_at b) then Some r else best
    end) None (List.filter (λ r, str_eqb (rr_device r) device && bool_decide (is_Some (rr_ack r))) rows).

(** [receipt(database, device)] *)
Definition receipt (g : registry) (device : pystr) : result (option receipt_view) :=
  match rg_readiness g ≫= λ rows, newest_receipt rows device with
  | None => Ok None
  | Some row =>
      match json_loads plain_object (default [] (rr_ack row)) with
      | None => Ok None
      | Some v =>
          d ← of_option AttributeError (as_dict v);
          match lookup_str "app_version" d, lookup_str "version_code" d with
          | Some (PStr version), Some (PInt code) =>
              if version_pattern version && in_range 1 2147483647 code then
                Ok (Some (ReceiptView version code (rr_ack_at row) (rr_expires row)
                      (match lookup_str "result" d with Some r => key_is_str (py "READY") r | None => false end)))
              else Ok None
          | _, _ => Ok None
          end
      end
  end.

(** [last_seen IS NULL OR last_seen<?] *)
Definition outdated (row : support_row) (o : receipt_view) : bool :=
  match sr_seen row, rv_seen o with None, _ => true | Some s, Some n => s <? n | Some _, None => false end.

(** [UPDATE device_support SET ... WHERE device=? AND ...] *)
Definition observe (device : pystr) (o : receipt_view) (t : list (pystr * support_row)) : list (pystr * support_row) :=
  match dget device t with
  | None => t
  | Some row =>
      if outdated row o then
        dset device (Support (sr_support row) (sr_platform row) (Some (rv_version o)) (Some (rv_code o)) (rv_seen o)
                       (Some (py "readiness_ack"))) t
      else t
  end.

(** One device of [backfill]; [tries] are the letters drawn for it. *)
Definition backfill_device (device : pystr) (tries : list pystr) : M registry () :=
  registered device tries;;
  observed ← select (λ g, receipt g device);
  observed ← lift observed;
  match observed with
  | None => mret ()
  | Some o => modify (λ g, match rg_support g with Some t => set_support (Some (observe device o t)) g | None => g end)
  end.

Fixpoint backfill_devices (devices : list pystr) (draws : list (list pystr)) : M registry () :=
  match devices with
  | [] => mret ()
  | d :: devices => backfill_device d (default [] (head draws));; backfill_devices devices (tail draws)
  end.

(** [backfill(access)] *)
Definition backfill (draws : list (list pystr)) : M registry inventory_counts :=
  transaction (create_support;; devices ← select (λ g, dkeys (rg_devices g)); backfill_devices devices draws);;
  inventory.

(** ** One device *)

Record support_view := SupportView {
  sv_row : support_row;
  sv_active : bool;
  sv_revoked : bool;
  sv_family : string;
  sv_readiness : string;
  sv_admitted : bool;
}.

(** A time that was set and has come: NULL and zero count as come for a receipt. *)
Definition readiness_of (o : option receipt_view) (now : Z) : string :=
  match o with
  | None => "UNKNOWN"
  | Some o =>
      if match rv_expires o with Some e => (e =? 0) || (e <=? now) | None => true end then "EXPIRED"
      else if rv_ready o then "READY" else "NOT_READY"
  end.

Definition family_of (grant : option grant_row) (now : Z) : string :=
  match grant with
  | None => "NOT_PROVISIONED"
  | Some g => if gr_revoked g then "REVOKED"
              else if match gr_expires g with Some e => e <=? now | None => false end then "EXPIRED" else "ACTIVE"
  end.

(** [lookup(access, support, admitted, all_activated=...)] *)
Definition lookup_support (support : pyval) (admitted : list pystr) (all_activated : bool) (now : Z) : M registry support_view :=
  id ← lift (normalize support);
  transaction (
    t ← support_table;
    g ← get_state;
    '(device, row, d) ← lift (of_option (ValueError "Support ID not found")
      (head (omap (λ p, if str_eqb (sr_support p.2) id then d ← dget p.1 (rg_devices g); Some (p, d) else None) t)));
    let invite := iv_revoked <$> invite_of device g in
    let grant := rg_grants g ≫= dget device in
    observed ← lift (receipt g device);
    let revoked := dv_revoked d || default false invite in
    let active := negb revoked && bool_decide (is_Some invite) in
    let barred := match grant with Some r => gr_revoked r | None => false end in
    let open := active && negb barred in
    mret (if (all_activated : bool) then
            SupportView row active revoked (if open then "ELIGIBLE" else if revoked || barred then "REVOKED" else "INACTIVE")
              (readiness_of observed now) open
          else
            SupportView row active revoked (family_of grant now) (readiness_of observed now)
              (existsb (str_eqb device) admitted || existsb (str_eqb (py "*")) admitted))).
