(* ===== verification/TransportPolicy.v ===== *)
(** The decisions the registry publishes to the transport nodes
    (control/friends/transport_policy.py, transport_membership.py): the snapshot
    of a node, its validation, and what may follow a decision. *)
From Stdlib Require Import ZArith Lia.
From S2P Require Import Prelude PyData Json JsonText Notices Rns Ack DeviceProof.
From S2P Require Import Registry Referrals PaidBeta.

Local Open Scope Z_scope.

(** ** Values as Python compares them *)

(** [a == b] of two values that are not containers. *)
Definition scalar_eqb (a b : pyval) : bool :=
  match a, b with
  | PNone, PNone => true
  | PStr s, _ => key_is_str s b
  | PBytes x, PBytes y => str_eqb x y
  | PInt z, _ => key_is_Z z b
  | PBool x, _ => key_is_Z (Z.b2z x) b
  | PFloat f, PFloat g => match SFcompare f g with Some Eq => true | _ => false end
  | PFloat _, PInt z => key_is_Z z a
  | PFloat _, PBool x => key_is_Z (Z.b2z x) a
  | _, _ => false
  end.

Fixpoint py_eqb (a b : pyval) : bool :=
  match a, b with
  | PList l, PList m =>
      (fix go l m := match l, m with
       | [], [] => true
       | x :: l, y :: m => py_eqb x y && go l m
       | _, _ => false
       end) l m
  | PDict d, PDict e =>
      Nat.eqb (length d) (length e)
      && (fix go d := match d with
          | [] => true
          | (k, x) :: d => match assoc (scalar_eqb k) e with Some y => py_eqb x y && go d | None => false end
          end) d
  | _, _ => scalar_eqb a b
  end.

(** [x > v] of an integer and a value that should be a number. *)
Definition int_above (x : Z) (v : pyval) : result bool :=
  match v with
  | PInt _ | PFloat _ => Ok (num_ltb_Z v x)
  | PBool b => Ok (Z.b2z b <? x)
  | _ => Raise TypeError
  end.
(** [x < v] *)
Definition int_below (x : Z) (v : pyval) : result bool :=
  match v with
  | PInt _ | PFloat _ => Ok (num_gtb_Z v x)
  | PBool b => Ok (x <? Z.b2z b)
  | _ => Raise TypeError
  end.

Definition hashable (v : pyval) : bool := match v with PList _ | PDict _ => false | _ => true end.

(** [set(l) == names], of a list whose elements must be hashable. *)
Definition same_names (names : list pystr) (l : list pyval) : result bool :=
  require (forallb hashable l) TypeError;;
  Ok (forallb (λ v, is_in v names) l && forallb (λ n, existsb (key_is_str n) l) names).

(** [if set(v) != names: raise e], and the object it then is; a list of the
    names passes the test and fails when it is indexed. *)
Definition keyed (names : list string) (v : pyval) (e : exn) : result (list (pyval * pyval)) :=
  match v with
  | PDict d => require (keys_are names d) e;; Ok d
  | PList l => same ← same_names (List.map py names) l; require same e;; Raise TypeError
  | PStr _ | PBytes _ => Raise e
  | _ => Raise TypeError
  end.

(** ** Policy *)

Definition PROFILE : pystr := py "paid-transports-v2".
Definition LEASE_SECONDS : Z := 120.
Definition CLOCK_SKEW_SECONDS : Z := 5.
Definition NODES : list pystr := List.map py ["gateway-ru"; "nl-amsterdam-1"; "nl-amsterdam-2"]%string.

(** A configuration file: absent, or its value unless reading it failed. *)
Abbreviation config_file := (option (result pyval)) (only parsing).

(** [enabled(root)], of [transport-enforcement.json]. *)
Definition enforcement (v : pyval) : result pyval :=
  let bad := ValueError "INVALID_TRANSPORT_CONFIGURATION" in
  d ← keyed ["schema"; "profile"; "enabled"; "hosts"]%string v bad;
  schema ← item "schema" d;
  profile ← item "profile" d;
  on ← item "enabled" d;
  hosts ← item "hosts" d;
  require (bool_decide (as_int schema = Some 1) && key_is_str PROFILE profile && bool_decide (as_bool on = Some true)) bad;;
  hs ← of_option bad (as_dict hosts);
  same ← same_names NODES (List.map snd hs);
  require same bad;;
  Ok hosts.

Definition enabled (file : config_file) : result bool :=
  match file with
  | None => Ok false
  | Some r => v ← r; enforcement v;; Ok true
  end.

(** [node_for_host(root, host)] *)
Definition node_for_host (file : config_file) (host : pystr) : result (option pyval) :=
  match file with
  | None => Ok None
  | Some r =>
      v ← r;
      hosts ← enforcement v;
      d ← of_option TypeError (as_dict hosts);
      Some <$> of_option KeyError (assoc (key_is_str host) d)
  end.

(** ** Decisions *)

Record decision := NodeDecision {
  dn_device : pystr;
  dn_key : pystr;
  dn_tcp : pystr;
  dn_cohort : bool;
  dn_revision : Z;
  dn_state : pystr;
  dn_identity : bool;
  dn_allowed : bool;
  dn_paid : pyval;
  dn_grace : pyval;
  dn_observed : Z;
  dn_valid : Z;
}.

Record envelope := Envelope { en_node : pystr; en_observed : Z; en_decisions : list decision }.

Definition opt_int (z : option Z) : pyval := match z with Some z => PInt z | None => PNone end.

(** One iteration of [read_snapshot]. *)
Definition decide_device (g : registry) (device : pystr) (row : device_row) (now : Z) : result decision :=
  let identity := negb (dv_revoked row)
    && existsb (λ p, bool_decide (iv_device p.2 = Some device) && negb (iv_revoked p.2)) (rg_invites g) in
  effective ← effective_state g device now;
  paid ← of_option SqliteError (rg_paid g);
  let sub := dget device paid.1 in
  let allowed := identity && match effective with Some e => st_allowed e | None => true end in
  deadline ← match effective with
    | Some e => if allowed then z ← of_option TypeError (st_expires e); Ok (Z.min (now + LEASE_SECONDS) z)
                else Ok (now + LEASE_SECONDS)
    | None => Ok (now + LEASE_SECONDS)
    end;
  Ok (NodeDecision device (dv_wg row) (dv_tcp row) (bool_decide (is_Some effective))
        (match sub with Some s => sb_version s | None => 0 end)
        (match effective with Some e => st_state e | None => py "noncohort" end)
        identity allowed
        (opt_int (sb_paid_until <$> sub)) (opt_int (s ← sub; sb_grace_until s)) now deadline).

(** [ORDER BY device] *)
Fixpoint insert_row {A} (x : pystr * A) (l : list (pystr * A)) : list (pystr * A) :=
  match l with
  | [] => [x]
  | y :: l => if str_leb x.1 y.1 then x :: y :: l else y :: insert_row x l
  end.
Definition by_device {A} (l : list (pystr * A)) : list (pystr * A) := foldr insert_row [] l.

(** [read_snapshot(database, node, now, device=device)]; no device is the empty
    text. *)
Definition read_snapshot (g : registry) (node : pystr) (now : Z) (device : pystr) : result envelope :=
  let records := by_device (match device with [] => rg_devices g
                            | _ => List.filter (λ p, str_eqb p.1 device) (rg_devices g) end) in
  require (bool_decide (device = []) || Nat.eqb (length records) 1) (ValueError "UNKNOWN_DEVICE");;
  decisions ← mapR (λ p, decide_device g p.1 p.2 now) records;
  Ok (Envelope node now decisions).

(** [snapshot(registry, node, device=device, clock=clock)] *)
Definition snapshot (g : registry) (node : pystr) (now : Z) (device : pystr) : result envelope :=
  require (existsb (str_eqb node) NODES) (ValueError "INVALID_NODE");;
  require (schema_present g) (PaidBetaError "PAID_SCHEMA_REQUIRED");;
  read_snapshot g node now device.

(** The JSON values of a decision and of an envelope. *)
Definition decision_fields (d : decision) : list (pyval * pyval) :=
  [(PStr (py "device"), PStr (dn_device d)); (PStr (py "public_key"), PStr (dn_key d));
   (PStr (py "tcp_id"), PStr (dn_tcp d)); (PStr (py "cohort"), PBool (dn_cohort d));
   (PStr (py "revision"), PInt (dn_revision d)); (PStr (py "state"), PStr (dn_state d));
   (PStr (py "identity_allowed"), PBool (dn_identity d)); (PStr (py "allowed"), PBool (dn_allowed d));
   (PStr (py "paid_until"), dn_paid d); (PStr (py "grace_until"), dn_grace d);
   (PStr (py "observed_at"), PInt (dn_observed d)); (PStr (py "valid_until"), PInt (dn_valid d))].

Definition envelope_value (e : envelope) : pyval :=
  PDict [(PStr (py "schema"), PInt 1); (PStr (py "profile"), PStr PROFILE); (PStr (py "node"), PStr (en_node e));
         (PStr (py "observed_at"), PInt (en_observed e));
         (PStr (py "decisions"), PList (List.map (λ d, PDict (decision_fields d)) (en_decisions e)))].

(** ** Validation at a node *)

Definition envelope_names : list string := ["schema"; "profile"; "node"; "observed_at"; "decisions"]%string.
Definition decision_names : list string :=
  ["device"; "public_key"; "tcp_id"; "cohort"; "revision"; "state"; "identity_allowed"; "allowed";
   "paid_until"; "grace_until"; "observed_at"; "valid_until"]%string.
Definition DECISION_STATES : list pystr := py "noncohort" :: STATES.

(** [str(uuid.UUID(s)) == s]: the canonical form, which parses to itself. *)
Definition canonical_uuid (s : pystr) : bool :=
  (zlen s =? 36)
  && forallb (λ p, if existsb (Nat.eqb p.1) [8; 13; 18; 23]%nat then p.2 =? 45 else is_lhex p.2) (imap pair s).

Definition bad_decision : exn := ValueError "INVALID_TRANSPORT_DECISION".

(** The conditions on one record, in their order. *)
Definition parse_decision (v : pyval) (observed : Z) : result decision :=
  d ← of_option bad_decision (as_dict v);
  require (keys_are decision_names d) bad_decision;;
  device ← item "device" d;
  device ← of_option TypeError (as_str device);
  require (hex_match 32 device) bad_decision;;
  tcp ← item "tcp_id" d;
  tcp ← of_option (match tcp with PNone => TypeError | _ => AttributeError end) (as_str tcp);
  require (canonical_uuid tcp) bad_decision;;
  key ← item "public_key" d;
  key ← of_option TypeError (as_str key);
  raw ← of_option (ValueError "binascii.Error") (b64decode key);
  require (zlen raw =? 32) bad_decision;;
  cohort ← item "cohort" d;
  cohort ← of_option bad_decision (as_bool cohort);
  allowed ← item "allowed" d;
  allowed ← of_option bad_decision (as_bool allowed);
  identity ← item "identity_allowed" d;
  identity ← of_option bad_decision (as_bool identity);
  revision ← item "revision" d;
  revision ← of_option bad_decision (as_int revision);
  require (Z.b2z cohort <=? revision) bad_decision;;
  seen ← item "observed_at" d;
  require (key_is_Z observed seen) bad_decision;;
  valid ← item "valid_until" d;
  valid ← of_option bad_decision (as_int valid);
  require ((observed <? valid) && (valid <=? observed + LEASE_SECONDS)) bad_decision;;
  state ← item "state" d;
  require (is_in state DECISION_STATES) bad_decision;;
  let state := str_or_empty state in
  require (Bool.eqb cohort (negb (str_eqb state (py "noncohort")))) bad_decision;;
  require (negb allowed || identity && negb (str_eqb state (py "expired") || str_eqb state (py "revoked"))) bad_decision;;
  paid ← item "paid_until" d;
  require (negb cohort || bool_decide (is_Some (as_int paid))) bad_decision;;
  grace ← item "grace_until" d;
  (if allowed && cohort
   then late ← int_above valid (if str_eqb state (py "grace") then grace else paid); raise_if late bad_decision
   else Ok tt);;
  Ok (NodeDecision device key tcp cohort revision state identity allowed paid grace observed valid).

(** The loop of [validate]: no device, key or user twice. *)
Definition fresh_decision (d : decision) (l : list decision) : bool :=
  forallb (λ x, negb (str_eqb (dn_device d) (dn_device x) || str_eqb (dn_key d) (dn_key x)
                      || str_eqb (dn_tcp d) (dn_tcp x))) l.

Definition parse_decisions (l : list pyval) (observed : Z) : result (list decision) :=
  foldR (λ acc v,
    d ← parse_decision v observed;
    require (fresh_decision d acc) bad_decision;;
    Ok (acc ++ [d])) [] l.

(** [validate(envelope, node, now)] *)
Definition validate_envelope (v : pyval) (node : pystr) (now : Z) : result envelope :=
  let bad := ValueError "INVALID_TRANSPORT_ENVELOPE" in
  d ← of_option bad (as_dict v);
  require (keys_are envelope_names d) bad;;
  schema ← item "schema" d;
  profile ← item "profile" d;
  name ← item "node" d;
  require (bool_decide (as_int schema = Some 1) && key_is_str PROFILE profile && key_is_str node name
           && existsb (str_eqb node) NODES) bad;;
  observed ← item "observed_at" d;
  observed ← of_option bad (as_int observed);
  require ((now - LEASE_SECONDS * SECOND <? observed * SECOND)
           && (observed * SECOND <=? now + CLOCK_SKEW_SECONDS * SECOND)) bad;;
  records ← item "decisions" d;
  l ← of_option bad (as_list records);
  require (zlen l <=? 10000) bad;;
  decisions ← parse_decisions l observed;
  Ok (Envelope node observed decisions).

(** ** What may follow a decision *)

Definition same_decision (a b : decision) : bool :=
  str_eqb (dn_device a) (dn_device b) && str_eqb (dn_key a) (dn_key b) && str_eqb (dn_tcp a) (dn_tcp b)
  && Bool.eqb (dn_cohort a) (dn_cohort b) && (dn_revision a =? dn_revision b) && str_eqb (dn_state a) (dn_state b)
  && Bool.eqb (dn_identity a) (dn_identity b) && Bool.eqb (dn_allowed a) (dn_allowed b)
  && py_eqb (dn_paid a) (dn_paid b) && py_eqb (dn_grace a) (dn_grace b)
  && (dn_observed a =? dn_observed b) && (dn_valid a =? dn_valid b).

(** [successor(previous, record)] *)
Definition successor (previous : option decision) (d : decision) : result () :=
  match previous with
  | None => Ok tt
  | Some p =>
      require (str_eqb (dn_device p) (dn_device d) && str_eqb (dn_key p) (dn_key d) && str_eqb (dn_tcp p) (dn_tcp d))
        (ValueError "BINDING_CONFLICT");;
      raise_if (dn_cohort p && negb (dn_cohort d)
                || str_eqb (dn_state p) (py "revoked") && negb (str_eqb (dn_state d) (py "revoked"))
                || negb (dn_identity p) && dn_identity d) (ValueError "TERMINAL_DECISION");;
      raise_if ((dn_revision d <? dn_revision p) || (dn_observed d <? dn_observed p)
                || (dn_revision d =? dn_revision p)
                   && negb (py_eqb (dn_paid d) (dn_paid p) && py_eqb (dn_grace d) (dn_grace p)
                            && Bool.eqb (dn_cohort d) (dn_cohort p))) (ValueError "STALE_OR_CONFLICTING_DECISION");;
      raise_if ((dn_observed d =? dn_observed p) && negb (same_decision d p)
                && (dn_revision d <=? dn_revision p) && dn_allowed d) (ValueError "SAME_CLOCK_ALLOW_CONFLICT");;
      if (dn_revision d =? dn_revision p) && negb (str_eqb (dn_state d) (dn_state p)) then
        let conflict := ValueError "SAME_REVISION_STATE_CONFLICT" in
        let boundary := if str_eqb (dn_state p) (py "grace") then dn_grace p else dn_paid p in
        require (str_eqb (dn_state d) (py "expired")) conflict;;
        raise_if (match boundary with PNone => true | _ => false end) conflict;;
        early ← int_below (dn_observed d) boundary;
        raise_if early conflict
      else Ok tt
  end.

(** [configuration_decision(access, root, node, record)] of an enrolled device:
    the envelope its configuration carries, when enforcement is on. *)
Definition configuration_decision (file : config_file) (g : registry) (node : pystr) (now : Z)
    (device public_key tcp_id : pystr) : result (option envelope) :=
  on ← enabled file;
  if (on : bool) then
    e ← snapshot g node now device;
    d ← of_option IndexError (head (en_decisions e));
    require (dn_allowed d) Rejected;;
    require (str_eqb (dn_key d) public_key && str_eqb (dn_tcp d) tcp_id) (ValueError "BINDING_CONFLICT");;
    Ok (Some e)
  else Ok None.

(** ** Fences before the first payment (transport_membership.py) *)

(** The deployment around the registry: its two files, and what the command of
    a node answers to a request ([OSError] when it fails or times out). *)
Record fences := Fences {
  fc_enforcement : config_file;
  fc_commands : result pyval;
  fc_run : pystr → list pystr → pyval → result bytes;
}.

Definition prepare_request (token : pystr) (e : envelope) : pyval :=
  PDict [(PStr (py "operation"), PStr (py "prepare")); (PStr (py "token"), PStr token); (PStr (py "paid"), envelope_value e)].

Definition prepared_reply (node token : pystr) : pyval :=
  PDict [(PStr (py "schema"), PInt 1); (PStr (py "node"), PStr node);
         (PStr (py "result"), PStr (py "prepared")); (PStr (py "token"), PStr token)].

Definition prepare_node (f : fences) (g : registry) (commands : list (pyval * pyval)) (device token : pystr) (now : Z)
    (node : pystr) : result () :=
  command ← of_option KeyError (assoc (key_is_str node) commands);
  command ← of_option (ValueError "INVALID_NODE_COMMAND") (as_list command ≫= mapM as_str);
  require (negb (bool_decide (command = []))) (ValueError "INVALID_NODE_COMMAND");;
  e ← read_snapshot g node now device;
  reply ← fc_run f node command (prepare_request token e);
  require (zlen reply <=? 1024) (ValueError "INVALID_PREPARATION_ACK");;
  v ← of_option (ValueError "JSONDecodeError") (json_decode reply ≫= json_loads plain_object);
  require (py_eqb v (prepared_reply node token)) (ValueError "INVALID_PREPARATION_ACK").

(** [prepare(database, device, token, now)] *)
Definition prepare (f : fences) (g : registry) (device token : pystr) (now : Z) : result () :=
  try_with (
    on ← enabled (fc_enforcement f);
    if (on : bool) then
      commands ← fc_commands f;
      d ← keyed ["gateway-ru"; "nl-amsterdam-1"; "nl-amsterdam-2"]%string commands (ValueError "COMPLETE_NODE_SET_REQUIRED");
      foldR (λ (_ : ()) node, prepare_node f g d device token now node) tt NODES
    else Ok tt)
  (λ e, if is_ValueError e || bool_decide (e = OSError) then paid_error "TRANSPORT_PREPARATION_REQUIRED" else Raise e).
