(* ===== verification/ProfileConfig.v ===== *)
(** The strict pilot profile (clients/desktop/profile_config.py): one interface,
    one peer, a full tunnel and no executable hooks; the AmneziaWG parameters
    and the credential envelope of the TCP transport. *)
From Stdlib Require Import ZArith Lia.
From S2P Require Import Prelude PyData Json JsonText Ipaddress Rns Ack DeviceProof.
From S2P Require Import Registry Referrals PaidBeta TransportPolicy.

Local Open Scope Z_scope.

Definition MAX_PROFILE : Z := 16384.

Abbreviation fields := (list (pystr * pystr)).
Abbreviation sections := (list (pystr * fields)).

Definition names (l : list string) : list pystr := py <$> l.
Definition INTERFACE : pystr := py "Interface".
Definition PEER : pystr := py "Peer".
Definition FIELDS : list (pystr * list pystr) :=
  [(INTERFACE, names ["PrivateKey"; "Address"; "DNS"; "MTU"; "ListenPort"]%string);
   (PEER, names ["PublicKey"; "PresharedKey"; "Endpoint"; "AllowedIPs"; "PersistentKeepalive"]%string)].
Definition AWG31_FIELDS : list pystr :=
  names ["HeaderProtectionKey"; "ContentPaddingAddition"; "RandomTrailers"; "DisableCookies"]%string.
Definition AWG_FIELDS : list pystr :=
  names ["Jc"; "Jmin"; "Jmax"; "S1"; "S2"; "S3"; "S4"; "H1"; "H2"; "H3"; "H4"; "I1"; "I2"; "I3"; "I4"; "I5"]%string.

Definition one_of (s : pystr) (l : list pystr) : bool := existsb (str_eqb s) l.
Definition fget (name : string) (d : fields) : option pystr := dget (py name) d.
(** [d[name]] and [d.get(name, '')] *)
Definition fitem (name : string) (d : fields) : result pystr := of_option KeyError (fget name d).
Definition fget_or (name : string) (d : fields) : pystr := default [] (fget name d).

Definition invalid (msg : string) : exn := ValueError msg.
Definition bad_address : exn := invalid "ipaddress".
Definition bad_integer : exn := invalid "int".

(** The fields a section may hold. *)
Definition allowed_fields (awg awg31 : bool) (section : pystr) : list pystr :=
  default [] (dget section FIELDS) ++
  (if str_eqb section INTERFACE then (if awg then AWG_FIELDS else []) ++ (if awg31 then AWG31_FIELDS else []) else []).

(** ** Reading the sections *)

(** [sections] and [section], the name under which [current] was entered. *)
Record profile_reading := Reading { rd_sections : sections; rd_section : option pystr }.

Definition section_name (line : pystr) : pystr :=
  match reverse line with
  | 93 :: r => drop 1 (reverse r)
  | _ => []
  end.

Definition read_header (rd : profile_reading) (line : pystr) : result profile_reading :=
  let name := section_name line in
  require (dmem name FIELDS && negb (dmem name (rd_sections rd))) (invalid "One interface and one peer required");;
  Ok (Reading (dset name [] (rd_sections rd)) (Some name)).

Definition read_field (awg awg31 : bool) (rd : profile_reading) (line : pystr) : result profile_reading :=
  match rd_section rd, partition_at 61 line with
  | Some section, (key, Some value) =>
      let key := strip key in
      let value := strip value in
      let current := default [] (dget section (rd_sections rd)) in
      require (one_of key (allowed_fields awg awg31 section) && negb (dmem key current) && negb (bool_decide (value = [])))
        (invalid "Unsupported field");;
      Ok (Reading (dset section (dset key value current) (rd_sections rd)) (Some section))
  | _, _ => Raise (invalid "Invalid profile")
  end.

(** One line of the profile, without its comment. *)
Definition parse_line (awg awg31 : bool) (rd : profile_reading) (raw : pystr) : result profile_reading :=
  let line := strip (partition_at 35 raw).1 in
  match line with
  | [] => Ok rd
  | c :: _ => if c =? 91 then read_header rd line else read_field awg awg31 rd line
  end.

Definition small_profile (text : pystr) : result () :=
  b ← of_option (invalid "UnicodeEncodeError") (utf8_encode text);
  raise_if ((MAX_PROFILE <? zlen b) || has_char 0 text) (invalid "Invalid profile size").

Definition read_sections (awg awg31 : bool) (text : pystr) : result sections :=
  rd ← foldR (parse_line awg awg31) (Reading [] None) (splitlines [] text);
  Ok (rd_sections rd).

(** ** AmneziaWG parameters *)

Definition number_text (digits : Z) (s : pystr) : bool := ascii_digits s && (zlen s <=? digits).

(** [re.fullmatch(r'[0-9]{1,n}(?:-[0-9]{1,n})?', v)] and its two ends. *)
Definition range_text (digits : Z) (s : pystr) : option (Z * Z) :=
  match split_on 45 s with
  | [a] => if number_text digits a then Some (decimal a, decimal a) else None
  | [a; b] => if number_text digits a && number_text digits b then Some (decimal a, decimal b) else None
  | _ => None
  end.

Definition AWG_LIMITS : list (string * Z) :=
  [("Jc", 12); ("Jmin", 1280); ("Jmax", 1280); ("S1", 256); ("S2", 256); ("S3", 256); ("S4", 256)]%string.
Definition awg_number (d : fields) (limit : string * Z) : result () :=
  v ← fitem limit.1 d;
  require (number_text 5 v && (decimal v <=? limit.2)) (invalid "Invalid AWG padding").

Definition INDICES : list (string * string * Z) := [("S1", "H1", 1); ("S2", "H2", 2); ("S3", "H3", 3); ("S4", "H4", 4)]%string.

(** The 3.1 header protection: its key, and the headers it fixes. *)
Definition protected_headers (d : fields) : result () :=
  match fget "HeaderProtectionKey" d with
  | None => Ok ()
  | Some key =>
      raw ← of_option (invalid "binascii.Error") (b64decode key);
      require ((zlen raw =? 32) && existsb (λ b, negb (b =? 0)) raw && str_eqb (b64encode raw) key) (invalid "Invalid header protection key");;
      require (forallb (λ '(s, h, i), (12 <=? decimal (fget_or s d)) && str_eqb (fget_or h d) (json_int i)) INDICES) (invalid "Invalid protected headers")
  end.

Definition flag_ok (d : fields) (name : string) : bool :=
  match fget name d with Some v => str_eqb v (py "true") || str_eqb v (py "false") | None => true end.

Definition content_padding (d : fields) : result () :=
  match fget "ContentPaddingAddition" d with
  | None => Ok ()
  | Some v =>
      '(lo, hi) ← of_option (invalid "Invalid content padding") (range_text 5 v);
      require ((lo <=? hi) && (hi <=? 256)) (invalid "Invalid content padding")
  end.

(** [len({fields[f'S{i}'] for i in range(1, 5)}) == 1] *)
Definition equal_trailers (d : fields) : bool :=
  forallb (λ '(s, _, _), str_eqb (fget_or s d) (fget_or "S1" d)) INDICES.

Definition header_range (protected : bool) (d : fields) (ranges : list (Z * Z)) (i : string * string * Z) : result (list (Z * Z)) :=
  v ← fitem i.1.2 d;
  '(lo, hi) ← of_option (invalid "Invalid AWG header") (range_text 10 v);
  require (((if protected then 1 else 5) <=? lo) && (lo <=? hi) && (hi <=? 4294967295)
           && negb (existsb (λ r, (lo <=? r.2) && (r.1 <=? hi)) ranges)) (invalid "Overlapping or invalid AWG headers");;
  Ok (ranges ++ [(lo, hi)]).

(** One element of a signature packet and what follows it: none of the
    alternatives contains the closing bracket. *)
Definition hex_bytes (s : pystr) : option pystr :=
  match s with
  | 98 :: 32 :: 48 :: 120 :: h => if negb (bool_decide (h = [])) && forallb is_hex h then Some h else None
  | _ => None
  end.
Definition random_count (s : pystr) : option pystr :=
  match s with
  | 114 :: 32 :: n => Some n
  | 114 :: 100 :: 32 :: n => Some n
  | 114 :: 99 :: 32 :: n => Some n
  | _ => None
  end.
Definition element_size (s : pystr) : result Z :=
  match hex_bytes s with
  | Some h => require (Z.even (zlen h)) (invalid "Invalid AWG bytes");; Ok (zlen h / 2)
  | None =>
      match random_count s with
      | Some n => require (number_text 4 n) (invalid "Invalid AWG signature packet");; Ok (decimal n)
      | None => require (str_eqb s (py "t")) (invalid "Invalid AWG signature packet");; Ok 4
      end
  end.

(** The packet's loop; each turn consumes at least its two brackets. *)
Definition packet_step (st : pystr * Z) : result (pystr * Z + Z) :=
  match st with
  | ([], size) => Ok (inr size)
  | (c :: s, size) =>
      match partition_at 62 s with
      | (e, Some rest) =>
          require (c =? 60) (invalid "Invalid AWG signature packet");;
          n ← element_size e;
          Ok (inl (rest, size + n))
      | (_, None) => Raise (invalid "Invalid AWG signature packet")
      end
  end.
Definition packet_size (s : pystr) : result Z := loop (S (length s)) packet_step (s, 0).

Definition signature_packet (d : fields) (name : string) : result () :=
  match fget name d with
  | None => Ok ()
  | Some v => size ← packet_size v; require (in_range 1 1280 size) (invalid "Oversized AWG signature packet")
  end.

(** [validate_awg(fields)] *)
Definition AWG_OPTIONAL : list string := ["I1"; "I2"; "I3"; "I4"; "I5"]%string.
Definition validate_awg (d : fields) : result () :=
  require (forallb (λ k, one_of k (names AWG_OPTIONAL) || dmem k d) AWG_FIELDS) (invalid "Incomplete AWG 2 profile");;
  mapR (awg_number d) AWG_LIMITS;;
  jmin ← fitem "Jmin" d;
  jmax ← fitem "Jmax" d;
  require (decimal jmin <=? decimal jmax) (invalid "Invalid AWG junk range");;
  protected_headers d;;
  require (flag_ok d "RandomTrailers" && flag_ok d "DisableCookies") (invalid "Invalid AWG flag");;
  content_padding d;;
  raise_if (str_eqb (fget_or "RandomTrailers" d) (py "true") && negb (equal_trailers d)) (invalid "Unequal random trailers");;
  foldR (header_range (dmem (py "HeaderProtectionKey") d) d) [] INDICES;;
  mapR (signature_packet d) AWG_OPTIONAL;;
  Ok ().

(** ** The checks on the sections *)

Definition key_octets (s : pystr) : result () :=
  raw ← of_option (invalid "binascii.Error") (b64decode s);
  require (zlen raw =? 32) (invalid "Invalid key").

Definition full_tunnel (routes : list pystr) : bool :=
  forallb (λ r, str_eqb r (py "0.0.0.0/0") || str_eqb r (py "::/0")) routes
  && one_of (py "0.0.0.0/0") routes && one_of (py "::/0") routes.

(** The host and the port of the peer's endpoint. *)
Definition endpoint_of (peer : fields) : result (pystr * Z) :=
  '(host, port) ← of_option (invalid "not enough values to unpack") (rsplit_at 58 (fget_or "Endpoint" peer));
  let host := strip_of (py "[]") host in
  of_option bad_address (ip_address host);;
  port ← of_option bad_integer (int_of_text port);
  Ok (host, port).

Definition int_option (d : fields) (name : string) (low high : Z) (msg : string) : result () :=
  match fget name d with
  | None => Ok ()
  | Some v => n ← of_option bad_integer (int_of_text v); require (in_range low high n) (invalid msg)
  end.

Definition check_sections (s : sections) : result () :=
  require (forallb (λ p, dmem p.1 s) FIELDS && forallb (λ p, dmem p.1 FIELDS) s) (invalid "Incomplete profile");;
  let interface := default [] (dget INTERFACE s) in
  let peer := default [] (dget PEER s) in
  key_octets (fget_or "PrivateKey" interface);;
  key_octets (fget_or "PublicKey" peer);;
  match fget "PresharedKey" peer with Some k => key_octets k | None => Ok () end;;
  raise_if (bool_decide (fget_or "Address" interface = []) || bool_decide (fget_or "DNS" interface = [])) (invalid "Address and DNS required");;
  mapR (λ v, of_option bad_address (ip_interface (strip v))) (split_on 44 (fget_or "Address" interface));;
  mapR (λ v, of_option bad_address (ip_address (strip v))) (split_on 44 (fget_or "DNS" interface));;
  routes ← mapR (λ v, network_text <$> of_option bad_address (ip_network (strip v))) (split_on 44 (fget_or "AllowedIPs" peer));
  require (full_tunnel routes) (invalid "Full IPv4 and IPv6 routes required");;
  '(_, port) ← endpoint_of peer;
  require (in_range 1 65535 port) (invalid "Invalid endpoint");;
  int_option interface "MTU" 1280 1500 "Invalid interface option";;
  int_option interface "ListenPort" 0 65535 "Invalid interface option";;
  int_option peer "PersistentKeepalive" 0 65535 "Invalid keepalive";;
  if existsb (λ p, one_of p.1 (AWG_FIELDS ++ AWG31_FIELDS)) interface then validate_awg interface else Ok ().

(** [parse(text, allow_awg=..., allow_awg31=...)] *)
Definition parse (awg awg31 : bool) (text : pystr) : result sections :=
  raise_if (awg31 && negb awg) (invalid "AWG 3.1 requires explicit AWG support");;
  small_profile text;;
  s ← read_sections awg awg31 text;
  check_sections s;;
  Ok s.

(** [validate(text, ...)]: the canonical text of an accepted profile. *)
Definition field_line (p : pystr * pystr) : pystr := p.1 ++ py " = " ++ p.2.
Definition section_text (s : pystr * fields) : pystr :=
  [91] ++ s.1 ++ py "]" ++ [10] ++ join [10] (field_line <$> s.2).
Definition render (s : sections) : pystr := join [10; 10] (section_text <$> s) ++ [10].
Definition validate_profile (awg awg31 : bool) (text : pystr) : result pystr := render <$> parse awg awg31 text.

(** ** The TCP credential envelope *)

Definition TCP_COMMON : list string := ["type"; "server"; "port"; "id"; "server_name"]%string.
Definition REALITY : pystr := py "vless-reality-v1".
Definition XHTTP : pystr := py "vless-xhttp-tls-v1".

Definition is_lower_alnum (c : Z) : bool := in_range 97 122 c || in_range 48 57 c.
Definition host_label (s : pystr) : bool :=
  in_range 1 63 (zlen s) && forallb (λ c, is_lower_alnum c || (c =? 45)) s
  && is_lower_alnum (List.hd 0 s) && is_lower_alnum (List.last s 0).
Definition server_name_ok (s : pystr) : bool :=
  let parts := split_on 46 s in
  let top := List.last parts [] in
  Nat.leb 2 (length parts) && forallb host_label (removelast parts)
  && in_range 2 63 (zlen top) && forallb (in_range 97 122) top && (zlen s <=? 253).

(** [re.fullmatch(r'/[A-Za-z0-9_-]{16,128}/', s)] *)
Definition xhttp_path (s : pystr) : bool :=
  match s with
  | c :: s =>
      let '(word, rest) := partition_at 47 s in
      (c =? 47) && in_range 16 128 (zlen word) && forallb is_word word && bool_decide (rest = Some [])
  | [] => false
  end.

Definition of_urlsafe (c : Z) : Z := if c =? 45 then 43 else if c =? 95 then 47 else c.
Definition to_urlsafe (c : Z) : Z := if c =? 43 then 45 else if c =? 47 then 95 else c.
(** The octets of a REALITY key of forty-three characters. *)
Definition reality_key (s : pystr) : option bytes :=
  if (zlen s =? 43) && forallb is_word s then b64decode (List.map of_urlsafe s ++ [61]) else None.
Definition reality_key_ok (s : pystr) : bool :=
  match reality_key s with
  | Some raw => str_eqb (List.map to_urlsafe (b64encode raw)) (s ++ [61]) && existsb (λ b, negb (b =? 0)) raw
  | None => false
  end.

(** [re.fullmatch(r'(?:[0-9a-f]{2}){1,8}', s)] *)
Definition short_id_ok (s : pystr) : bool := Z.even (zlen s) && in_range 2 16 (zlen s) && forallb is_lhex s.

Definition str_field (name : string) (d : list (pyval * pyval)) : result pystr :=
  v ← item name d; of_option (invalid "Invalid TCP field") (as_str v).

Definition NIL_UUID : pystr := py "00000000-0000-0000-0000-000000000000".

(** [parse_tcp(text)] *)
Definition parse_tcp (text : pystr) : result (list (pyval * pyval)) :=
  b ← of_option (invalid "UnicodeEncodeError") (utf8_encode text);
  raise_if (MAX_PROFILE <? zlen b) (invalid "Oversized TCP profile");;
  v ← of_option (invalid "JSONDecodeError") (json_loads unique text);
  p ← of_option (invalid "Unsupported TCP profile") (as_dict v);
  let xhttp := match lookup_str "type" p with Some k => key_is_str XHTTP k | None => false end in
  let own := if xhttp then ["path"; "mode"]%string else ["public_key"; "short_id"]%string in
  require (keys_are (TCP_COMMON ++ own) p) (invalid "Unsupported TCP profile");;
  kind ← item "type" p;
  require (xhttp || key_is_str REALITY kind) (invalid "Unsupported TCP profile");;
  server ← str_field "server" p;
  id ← str_field "id" p;
  server_name ← str_field "server_name" p;
  mapR (λ k, str_field k p) own;;
  port ← item "port" p;
  port ← of_option (invalid "Invalid TCP port") (as_int port);
  require (in_range 1 65535 port) (invalid "Invalid TCP port");;
  ip ← of_option bad_address (ipv4_int server);
  require (str_eqb (ipv4_text ip) server && negb (is_loopback (IPv4 ip)) && negb (ip / 16777216 =? 0) && (ip / 16777216 <? 224))
    (invalid "IPv4 gateway required");;
  require (canonical_uuid id && negb (str_eqb id NIL_UUID)) (invalid "Invalid TCP identity");;
  require (server_name_ok server_name) (invalid "Invalid TLS server name");;
  if xhttp then
    mode ← str_field "mode" p;
    path ← str_field "path" p;
    require (str_eqb mode (py "packet-up") && xhttp_path path) (invalid "Invalid XHTTP route");;
    Ok p
  else
    key ← str_field "public_key" p;
    require (reality_key_ok key) (invalid "Invalid REALITY public key");;
    short_id ← str_field "short_id" p;
    require (short_id_ok short_id) (invalid "Invalid REALITY short id");;
    Ok p.
