(* ===== verification/ProfileSpec.v ===== *)
(** What an accepted profile is: only known fields, each once, of one line, and
    a canonical text that reads back as the same profile. *)
From Stdlib Require Import ZArith Lia.
From S2P Require Import Prelude PyData Json JsonText Ipaddress ProfileConfig.

Local Open Scope Z_scope.

(** ** Blanks and lines *)

Definition starts_solid (s : pystr) : Prop := ∀ c r, s = c :: r → is_space c = false.

Lemma lstrip_solid s : starts_solid (lstrip s).
Proof.
  induction s as [|c s IH]; simpl; [by intros c r|]. destruct (is_space c) eqn:E; [done|].
  intros c' r [= <- <-]. done.
Qed.

Lemma lstrip_id s : starts_solid s → lstrip s = s.
Proof. destruct s as [|c s]; [done|]. intros H. simpl. by rewrite (H c s). Qed.

Lemma lstrip_suffix s : ∃ a, s = a ++ lstrip s.
Proof.
  induction s as [|c s [a IH]]; simpl; [by exists []|]. destruct (is_space c); [|by exists []].
  exists (c :: a). simpl. by f_equal.
Qed.

Lemma strip_solid s : starts_solid (strip s) ∧ starts_solid (reverse (strip s)).
Proof.
  unfold strip. rewrite reverse_involutive. split; [|apply lstrip_solid].
  destruct (lstrip_suffix (reverse (lstrip s))) as [a Ha]. intros c r E.
  apply (f_equal reverse) in Ha. rewrite reverse_involutive, reverse_app, E in Ha.
  by apply (lstrip_solid s c (r ++ reverse a)).
Qed.

Lemma strip_id s : starts_solid s → starts_solid (reverse s) → strip s = s.
Proof. intros H1 H2. unfold strip. by rewrite (lstrip_id s), lstrip_id, reverse_involutive. Qed.

Lemma strip_Forall (P : Z → Prop) s : Forall P s → Forall P (strip s).
Proof.
  assert (∀ s, Forall P s → Forall P (lstrip s)) as Hl.
  { intros t H. destruct (lstrip_suffix t) as [a Ha]. rewrite Ha in H. by apply Forall_app in H as [_ H]. }
  intros H. unfold strip. by apply Forall_reverse, Hl, Forall_reverse, Hl.
Qed.

Lemma partition_Forall (P : Z → Prop) sep s a b : Forall P s → partition_at sep s = (a, b) →
  Forall P a ∧ ∀ r, b = Some r → Forall P r.
Proof.
  intros H. revert a b. induction H as [|c s Hc H IH]; simpl; intros a b E; [by simplify_eq|].
  destruct (c =? sep); [simplify_eq; split; [done|by intros r [= <-]]|].
  destruct (partition_at sep s) as [a' b'] eqn:E'. simplify_eq. destruct (IH _ _ eq_refl). split; [by constructor|done].
Qed.

Lemma partition_before sep s : has_char sep (partition_at sep s).1 = false.
Proof.
  induction s as [|c s IH]; simpl; [done|]. destruct (c =? sep) eqn:E; [done|].
  unfold has_char in *. destruct (partition_at sep s). cbn [existsb fst] in *. by rewrite Z.eqb_sym, E, IH.
Qed.

Lemma partition_none sep s : has_char sep s = false → partition_at sep s = (s, None).
Proof.
  unfold has_char. induction s as [|c s IH]; simpl; [done|]. intros [Hc H]%orb_false_iff.
  rewrite Z.eqb_sym, Hc. by rewrite IH.
Qed.

Lemma partition_app sep a b : has_char sep a = false → partition_at sep (a ++ sep :: b) = (a, Some b).
Proof.
  unfold has_char. induction a as [|c s IH]; simpl; [by rewrite Z.eqb_refl|]. intros [Hc H]%orb_false_iff.
  rewrite Z.eqb_sym, Hc. by rewrite IH.
Qed.

Definition one_line (s : pystr) : Prop := Forall (λ c, is_line_break c = false) s.

Lemma splitlines_lines word s : one_line word → Forall one_line (splitlines word s).
Proof.
  revert word. assert (∀ n s word, (length s < n)%nat → one_line word → Forall one_line (splitlines word s)) as H;
    [|intros word Hw; apply (H (S (length s)) s word); [lia|done]].
  induction n as [|n IH]; intros [|c s'] word Hn Hw; simpl in Hn; try lia.
  - simpl. destruct word; [constructor|]. constructor; [by apply Forall_reverse|constructor].
  - simpl. destruct (is_line_break c) eqn:E.
    + constructor; [by apply Forall_reverse|]. apply IH; [|by constructor].
      destruct s' as [|d r]; [simpl; lia|]. simpl in *. destruct ((c =? 13) && (d =? 10)); simpl; lia.
    + apply IH; [lia|by constructor].
Qed.

Lemma splitlines_app word line rest : one_line line →
  splitlines word (line ++ 10 :: rest) = (reverse word ++ line) :: splitlines [] rest.
Proof.
  intros H. revert word. induction H as [|c line Hc H IH]; intros word; cbn [app splitlines].
  - rewrite app_nil_r. destruct rest as [|d r]; done.
  - rewrite Hc, IH. by rewrite reverse_cons, <- app_assoc.
Qed.

Lemma splitlines_join lines : lines ≠ [] → Forall one_line lines → splitlines [] (join [10] lines ++ [10]) = lines.
Proof.
  intros Hn H. destruct H as [|l lines Hl H]; [done|]. clear Hn. revert l Hl. induction H as [|l' lines Hl' H IH]; intros l Hl.
  - cbn [join]. by rewrite splitlines_app.
  - change (join [10] (l :: l' :: lines)) with (l ++ [10] ++ join [10] (l' :: lines)).
    rewrite <- !app_assoc. cbn [app]. rewrite splitlines_app by done. by rewrite IH.
Qed.

(** ** What the reader builds *)

(** A value of one line, without a comment and without blanks around it. *)
Definition plain_value (v : pystr) : Prop :=
  v ≠ [] ∧ one_line v ∧ Forall (λ c, c ≠ 35) v ∧ starts_solid v ∧ starts_solid (reverse v).

Record section_ok (awg awg31 : bool) (name : pystr) (d : fields) : Prop := SectionOk {
  so_name : dmem name FIELDS = true;
  so_keys : NoDup (dkeys d);
  so_fields : Forall (λ p, one_of p.1 (allowed_fields awg awg31 name) = true ∧ plain_value p.2) d;
}.
Definition sections_ok (awg awg31 : bool) (s : sections) : Prop :=
  NoDup (dkeys s) ∧ Forall (λ p, section_ok awg awg31 p.1 p.2) s.

Definition reading_ok (awg awg31 : bool) (rd : profile_reading) : Prop :=
  sections_ok awg awg31 (rd_sections rd) ∧ ∀ n, rd_section rd = Some n → n ∈ dkeys (rd_sections rd).

Lemma dset_Forall {K V} `{EqDecision K} (P : K * V → Prop) k v d : P (k, v) → Forall P d → Forall P (dset k v d).
Proof. intros Hk Hd. rewrite Forall_forall in *. intros p [->|Hp]%dset_elem; auto. Qed.

Lemma dmem_false_new {K V} `{EqDecision K} (k : K) (v : V) d : negb (dmem k d) = true → dset k v d = d ++ [(k, v)].
Proof. intros H. apply dset_new, dmem_false. by destruct (dmem k d). Qed.

Lemma before_hash s : Forall (λ c, c ≠ 35) (partition_at 35 s).1.
Proof.
  pose proof (partition_before 35 s) as H. unfold has_char in H. rewrite Forall_forall. intros c Hc ->.
  apply not_true_iff_false in H. apply H. apply existsb_exists. exists 35. split; [by apply list_elem_of_In|done].
Qed.

Lemma line_plain raw : one_line raw →
  one_line (strip (partition_at 35 raw).1) ∧ Forall (λ c, c ≠ 35) (strip (partition_at 35 raw).1).
Proof.
  intros H. split; apply strip_Forall; [|apply before_hash].
  destruct (partition_at 35 raw) as [a b] eqn:E. apply (proj1 (partition_Forall _ _ _ _ _ H E)).
Qed.

Lemma read_header_ok awg awg31 rd line rd' : reading_ok awg awg31 rd → read_header rd line = Ok rd' → reading_ok awg awg31 rd'.
Proof.
  intros [[Hn Hf] _] H. unfold read_header in H. inv_ok1. destruct a. apply require_Ok in Ha. apply andb_true_iff in Ha as [H1 H2].
  injection H as <-. unfold reading_ok, sections_ok. cbn [rd_sections rd_section]. split; [split|].
  - by apply dset_NoDup.
  - apply dset_Forall; [|done]. split; [done|constructor|constructor].
  - intros n [= <-]. rewrite (dmem_false_new _ _ _ H2). unfold dkeys. rewrite fmap_app. apply elem_of_app. right. by left.
Qed.

Lemma read_field_ok awg awg31 rd line rd' : one_line line → Forall (λ c, c ≠ 35) line →
  reading_ok awg awg31 rd → read_field awg awg31 rd line = Ok rd' → reading_ok awg awg31 rd'.
Proof.
  intros Hl1 Hl2 [[Hn Hf] Hs] H. unfold read_field in H. destruct (rd_section rd) as [n|] eqn:En; [|done].
  destruct (partition_at 61 line) as [key [value|]] eqn:Ep; [|done]. inv_ok1. destruct a. apply require_Ok in Ha.
  bools. injection H as <-. specialize (Hs n eq_refl).
  destruct (partition_Forall _ _ _ _ _ Hl1 Ep) as [_ V1]. destruct (partition_Forall _ _ _ _ _ Hl2 Ep) as [_ V2].
  unfold reading_ok, sections_ok. cbn [rd_sections rd_section]. split; [split|].
  - by apply dset_NoDup.
  - apply dset_Forall; [|done]. cbn [fst snd].
    destruct (dget n (rd_sections rd)) as [d|] eqn:Ed; [|by apply dget_None in Ed].
    rewrite Forall_forall in Hf. destruct (Hf (n, d) (dget_elem _ _ _ Ed)) as [S1 S2 S3]. cbn [fst snd default from_option id] in *.
    split; [done|by apply dset_NoDup|]. apply dset_Forall; [|done]. split; [done|].
    split_and!; [done|by apply strip_Forall, V1|by apply strip_Forall, V2|apply strip_solid|apply strip_solid].
  - intros m [= <-]. by rewrite dkeys_dset_old.
Qed.

Lemma parse_line_ok awg awg31 rd raw rd' : one_line raw →
  reading_ok awg awg31 rd → parse_line awg awg31 rd raw = Ok rd' → reading_ok awg awg31 rd'.
Proof.
  intros Hl Hr H. destruct (line_plain raw Hl) as [L1 L2]. unfold parse_line in H.
  destruct (strip (partition_at 35 raw).1) as [|c line] eqn:E; [by simplify_eq|].
  destruct (c =? 91); [by eapply read_header_ok|by eapply read_field_ok].
Qed.

Lemma read_sections_ok awg awg31 text s : read_sections awg awg31 text = Ok s → sections_ok awg awg31 s.
Proof.
  unfold read_sections. intros H. inv_ok1. injection H as <-.
  assert (reading_ok awg awg31 a) as [? _]; [|done].
  refine (foldR_inv (reading_ok awg awg31) _ _ _ _ _ _ Ha).
  - intros rd raw rd' Hin. apply parse_line_ok. pose proof (splitlines_lines [] text ltac:(constructor)) as Hl.
    rewrite Forall_forall in Hl. by apply Hl.
  - split; [split; [apply NoDup_nil_2|constructor]|done].
Qed.

(** ** The canonical text reads back *)

Definition key_fine (k : pystr) : bool :=
  forallb (λ c, negb (is_line_break c) && negb (c =? 35) && negb (c =? 61) && negb (is_space c)) k
  && negb (bool_decide (k = [])) && negb (bool_decide (head k = Some 91)).

Lemma known_section n : dmem n FIELDS = true → n = INTERFACE ∨ n = PEER.
Proof. rewrite dmem_true. unfold FIELDS, dkeys. csimpl. rewrite !elem_of_cons. intros [?|[?|H]]; [by left|by right|]. by apply elem_of_nil in H. Qed.

Lemma allowed_fine awg awg31 n k : dmem n FIELDS = true → one_of k (allowed_fields awg awg31 n) = true → key_fine k = true.
Proof.
  intros Hn (x & Hx & ->%str_eqb_eq)%existsb_exists.
  assert (forallb key_fine (allowed_fields awg awg31 n) = true) as H.
  { apply known_section in Hn as [-> | ->]; destruct awg, awg31; by vm_compute. }
  rewrite forallb_forall in H. by apply H.
Qed.

Record fine_key (k : pystr) : Prop := FineKey {
  fk_line : one_line k;
  fk_hash : Forall (λ c, c ≠ 35) k;
  fk_equals : has_char 61 k = false;
  fk_solid : Forall (λ c, is_space c = false) k;
  fk_head : ∃ c r, k = c :: r ∧ c ≠ 91;
}.

Lemma key_fine_spec k : key_fine k = true → fine_key k.
Proof.
  unfold key_fine. intros [[H Hn]%andb_true_iff Hh]%andb_true_iff. rewrite forallb_forall in H. bools.
  assert (∀ c, c ∈ k → is_line_break c = false ∧ c ≠ 35 ∧ c ≠ 61 ∧ is_space c = false) as Hc.
  { intros c Hc%list_elem_of_In%H. bools. done. }
  split; try (apply Forall_forall; naive_solver).
  - unfold has_char. apply not_true_iff_false. intros (c & Hin & E)%existsb_exists. apply list_elem_of_In in Hin.
    apply Hc in Hin. apply Z.eqb_eq in E. naive_solver.
  - destruct k as [|c r]; [done|]. exists c, r. split; [done|]. intros ->. done.
Qed.

Lemma solid_app a b : a ≠ [] → starts_solid a → starts_solid (a ++ b).
Proof. destruct a as [|c a]; [done|]. intros _ H c' r [= <- <-]. by apply (H c a). Qed.

Lemma no_char c s : Forall (λ x, x ≠ c) s → has_char c s = false.
Proof.
  intros H. unfold has_char. apply not_true_iff_false. intros (x & Hx & E%Z.eqb_eq)%existsb_exists.
  rewrite Forall_forall in H. by apply (H x); [apply list_elem_of_In|].
Qed.

Lemma solid_Forall k : Forall (λ c, is_space c = false) k → starts_solid k ∧ starts_solid (reverse k).
Proof.
  intros H. assert (∀ k, Forall (λ c, is_space c = false) k → starts_solid k) as Hs.
  { intros ? Hk c r ->. by inversion Hk. }
  split; apply Hs; [done|by apply Forall_reverse].
Qed.

Lemma strip_after k : Forall (λ c, is_space c = false) k → k ≠ [] → strip (k ++ [32]) = k.
Proof.
  intros H Hn. destruct (solid_Forall k H) as [H1 H2]. unfold strip. rewrite (lstrip_id (k ++ [32])) by (by apply solid_app).
  rewrite reverse_app. change (reverse [32]) with [32]. cbn [app lstrip]. change (is_space 32) with true. cbn iota.
  rewrite lstrip_id by done. by rewrite reverse_involutive.
Qed.

Lemma parse_field_line awg awg31 rd n cur k v :
  rd_section rd = Some n → dget n (rd_sections rd) = Some cur → dmem n FIELDS = true →
  one_of k (allowed_fields awg awg31 n) = true → k ∉ dkeys cur → plain_value v →
  parse_line awg awg31 rd (field_line (k, v)) = Ok (Reading (dset n (dset k v cur) (rd_sections rd)) (Some n)).
Proof.
  intros Hs Hg Hn Ha Hk (V0 & V1 & V2 & V3 & V4).
  destruct (key_fine_spec k (allowed_fine _ _ _ _ Hn Ha)) as [_ K2 K3 K4 (c & r & K5 & K6)].
  assert (k ≠ []) as K0 by (by rewrite K5). destruct (solid_Forall k K4) as [K7 K8].
  assert (field_line (k, v) = (k ++ [32]) ++ 61 :: 32 :: v) as Hl by (unfold field_line; cbn [fst snd]; by rewrite <- app_assoc).
  assert (starts_solid (field_line (k, v)) ∧ starts_solid (reverse (field_line (k, v)))) as [L1 L2].
  { split; unfold field_line; cbn [fst snd]; [by apply solid_app|]. rewrite !reverse_app, <- app_assoc.
    apply solid_app; [|done]. intros E. by apply (f_equal reverse) in E; rewrite reverse_involutive in E. }
  unfold parse_line. rewrite partition_none; cbn [fst].
  2: { apply no_char. unfold field_line. cbn [fst snd]. apply Forall_app. split; [done|]. apply Forall_app. split; [|done].
       repeat constructor; done. }
  rewrite (strip_id _ L1 L2). destruct (field_line (k, v)) as [|c' l'] eqn:El; [destruct k; discriminate|].
  assert (c' = c) as ->. { rewrite K5 in El. by injection El. }
  rewrite (proj2 (Z.eqb_neq c 91)) by done. rewrite Hl. unfold read_field. rewrite Hs.
  rewrite partition_app. 2: { unfold has_char in *. rewrite existsb_app, K3. done. }
  rewrite strip_after, Hg by done. change (strip (32 :: v)) with (strip v). rewrite (strip_id v) by done. cbn [default from_option id].
  rewrite Ha, (proj2 (dmem_false k cur) Hk), bool_decide_eq_false_2 by done. done.
Qed.

Lemma foldR_app {A S} (f : S → A → result S) s l1 l2 : foldR f s (l1 ++ l2) = foldR f s l1 ≫= λ s, foldR f s l2.
Proof. revert s. induction l1 as [|x l1 IH]; intros s; simpl; [done|]. destruct (f s x); simpl; [apply IH|done]. Qed.

Lemma dset_last {K V} `{EqDecision K} (k : K) (v w : V) d : k ∉ dkeys d → dset k w (d ++ [(k, v)]) = d ++ [(k, w)].
Proof.
  unfold dkeys. induction d as [|[k' v'] d IH]; csimpl; intros Hk; [by rewrite decide_True|].
  apply not_elem_of_cons in Hk as [Hne Hk]. rewrite decide_False by done. by rewrite IH.
Qed.

Lemma dget_last {K V} `{EqDecision K} (k : K) (v : V) d : k ∉ dkeys d → dget k (d ++ [(k, v)]) = Some v.
Proof.
  unfold dkeys. induction d as [|[k' v'] d IH]; csimpl; intros Hk; [by rewrite decide_True|].
  apply not_elem_of_cons in Hk as [Hne Hk]. rewrite decide_False by done. by apply IH.
Qed.

(** The lines of one section, and of the whole profile. *)
Definition header_line (n : pystr) : pystr := [91] ++ n ++ py "]".
Definition section_lines (p : pystr * fields) : list pystr := header_line p.1 :: (field_line <$> p.2).
Fixpoint profile_lines (s : sections) : list pystr :=
  match s with
  | [] => []
  | [p] => section_lines p
  | p :: s => section_lines p ++ [[]] ++ profile_lines s
  end.

Lemma parse_header awg awg31 rd n : dmem n FIELDS = true → n ∉ dkeys (rd_sections rd) →
  parse_line awg awg31 rd (header_line n) = Ok (Reading (rd_sections rd ++ [(n, [])]) (Some n)).
Proof.
  intros Hn Hk. unfold parse_line. assert (strip (partition_at 35 (header_line n)).1 = header_line n ∧ section_name (header_line n) = n) as [-> Hs].
  { apply known_section in Hn as [-> | ->]; by vm_compute. }
  change (header_line n) with (91 :: n ++ py "]") in *. cbn [Z.eqb Pos.eqb]. unfold read_header. rewrite Hs, Hn.
  rewrite (proj2 (dmem_false n _) Hk). cbn. by rewrite dset_new.
Qed.

Lemma parse_field_lines awg awg31 pre n cur d : dmem n FIELDS = true → n ∉ dkeys pre → NoDup (dkeys (cur ++ d)) →
  Forall (λ p, one_of p.1 (allowed_fields awg awg31 n) = true ∧ plain_value p.2) d →
  foldR (parse_line awg awg31) (Reading (pre ++ [(n, cur)]) (Some n)) (field_line <$> d) = Ok (Reading (pre ++ [(n, cur ++ d)]) (Some n)).
Proof.
  intros Hn Hp Hnd H. revert cur Hnd. induction H as [|[k v] d [Ha Hv] H IH]; intros cur Hnd; csimpl.
  - by rewrite app_nil_r.
  - assert (k ∉ dkeys cur) as Hk.
    { unfold dkeys in *. rewrite fmap_app in Hnd. apply NoDup_app in Hnd as (_ & Hd & _). intros Hin. apply (Hd k Hin). by left. }
    erewrite parse_field_line; [|done|by apply dget_last|done|done|done|done]. cbn [mbind result_bind rd_sections].
    rewrite dset_last, (dset_new k) by done. rewrite IH by (by rewrite <- app_assoc). by rewrite <- app_assoc.
Qed.

Lemma parse_section awg awg31 pre o n d : section_ok awg awg31 n d → n ∉ dkeys pre →
  foldR (parse_line awg awg31) (Reading pre o) (section_lines (n, d)) = Ok (Reading (pre ++ [(n, d)]) (Some n)).
Proof.
  intros [H1 H2 H3] Hp. cbn [section_lines fst snd foldR]. rewrite parse_header by done. cbn [mbind result_bind rd_sections].
  by rewrite (parse_field_lines awg awg31 pre n [] d).
Qed.

Lemma parse_profile awg awg31 pre o s : s ≠ [] → NoDup (dkeys (pre ++ s)) → Forall (λ p, section_ok awg awg31 p.1 p.2) s →
  ∃ o', foldR (parse_line awg awg31) (Reading pre o) (profile_lines s) = Ok (Reading (pre ++ s) o').
Proof.
  intros Hs Hnd H. revert pre o Hnd. induction H as [|[n d] s Hp H IH]; [done|]. intros pre o Hnd.
  assert (n ∉ dkeys pre) as Hn.
  { unfold dkeys in *. rewrite fmap_app in Hnd. apply NoDup_app in Hnd as (_ & Hd & _). intros Hin. apply (Hd n Hin). by left. }
  destruct s as [|q s].
  - exists (Some n). by apply parse_section.
  - change (profile_lines ((n, d) :: q :: s)) with (section_lines (n, d) ++ [[]] ++ profile_lines (q :: s)).
    rewrite foldR_app, (parse_section awg awg31 pre o n d) by done. cbn [mbind result_bind]. cbn [app].
    cbn [foldR]. change (parse_line awg awg31 ?rd []) with (Ok (A := profile_reading) rd). cbn [mbind result_bind].
    destruct (IH ltac:(done) (pre ++ [(n, d)]) (Some n)) as [o' Ho']; [by rewrite <- app_assoc|].
    exists o'. by rewrite Ho', <- app_assoc.
Qed.

Lemma join_app sep l1 l2 : l1 ≠ [] → l2 ≠ [] → join sep (l1 ++ l2) = join sep l1 ++ sep ++ join sep l2.
Proof.
  intros H1 H2. induction l1 as [|x l1 IH]; [done|]. destruct l1 as [|y l1].
  - cbn [app]. destruct l2; [done|]. done.
  - change (join sep ((x :: y :: l1) ++ l2)) with (x ++ sep ++ join sep ((y :: l1) ++ l2)).
    change (join sep (x :: y :: l1)) with (x ++ sep ++ join sep (y :: l1)). rewrite IH by done. by rewrite <- !app_assoc.
Qed.

Lemma section_text_lines p : p.2 ≠ [] → section_text p = join [10] (section_lines p).
Proof.
  destruct p as [n [|q d]]; [done|]. intros _. unfold section_text, section_lines. cbn [fst snd].
  change (header_line n :: (field_line <$> q :: d)) with ([header_line n] ++ (field_line <$> q :: d)).
  rewrite (join_app [10]) by done. unfold header_line. cbn [join]. by rewrite <- !app_assoc.
Qed.

Lemma render_lines s : s ≠ [] → Forall (λ p, p.2 ≠ []) s → render s = join [10] (profile_lines s) ++ [10].
Proof.
  intros Hs H. unfold render. f_equal. clear Hs. induction H as [|p s Hp H IH]; [done|].
  destruct s as [|q s]; [by apply section_text_lines|].
  change (join [10; 10] (section_text <$> p :: q :: s)) with (section_text p ++ [10; 10] ++ join [10; 10] (section_text <$> q :: s)).
  rewrite IH, section_text_lines by done. change (profile_lines (p :: q :: s)) with (section_lines p ++ [[]] ++ profile_lines (q :: s)).
  assert (profile_lines (q :: s) ≠ []) as Hq by (by destruct s).
  rewrite (join_app [10]), (join_app [10] [[]]) by done. done.
Qed.

Lemma field_line_one awg awg31 n p : dmem n FIELDS = true →
  one_of p.1 (allowed_fields awg awg31 n) = true ∧ plain_value p.2 → one_line (field_line p).
Proof.
  intros Hn [Ha (_ & V & _)]. destruct (key_fine_spec _ (allowed_fine _ _ _ _ Hn Ha)) as [K _ _ _ _].
  unfold one_line, field_line. apply Forall_app. split; [done|]. apply Forall_app. split; [|done]. by repeat constructor.
Qed.

Lemma section_lines_one awg awg31 n d : section_ok awg awg31 n d → Forall one_line (section_lines (n, d)).
Proof.
  intros [Hn _ H]. constructor.
  - cbn [fst]. apply known_section in Hn as [-> | ->]; unfold one_line; apply (bool_decide_unpack _); by vm_compute.
  - cbn [snd]. apply Forall_fmap. eapply Forall_impl; [exact H|]. intros p. by apply field_line_one.
Qed.

Lemma profile_lines_one awg awg31 s : Forall (λ p, section_ok awg awg31 p.1 p.2) s → Forall one_line (profile_lines s).
Proof.
  induction 1 as [|[n d] s Hp H IH]; [constructor|]. destruct s as [|q s]; [by eapply section_lines_one|].
  change (profile_lines ((n, d) :: q :: s)) with (section_lines (n, d) ++ [[]] ++ profile_lines (q :: s)).
  apply Forall_app. split; [by eapply section_lines_one|]. constructor; [constructor|exact IH].
Qed.

Lemma sections_render awg awg31 s : s ≠ [] → sections_ok awg awg31 s → Forall (λ p, p.2 ≠ []) s →
  read_sections awg awg31 (render s) = Ok s.
Proof.
  intros Hs [Hn H] He. unfold read_sections. rewrite render_lines by done.
  rewrite splitlines_join; [|by destruct s as [|p [|q s]]|by eapply profile_lines_one].
  destruct (parse_profile awg awg31 [] None s) as [o ->]; done.
Qed.

(** ** What the checks imply *)

Lemma fget_or_nil name : fget_or name [] = [].
Proof. done. Qed.

Lemma check_nonempty awg awg31 s : sections_ok awg awg31 s → check_sections s = Ok () → s ≠ [] ∧ Forall (λ p, p.2 ≠ []) s.
Proof.
  intros [Hn Hs] H. unfold check_sections in H. inv_ok1. apply require_Ok in Ha. apply andb_true_iff in Ha as [Ha _].
  inv_ok1. inv_ok1. rename Ha0 into Hi. rename Ha1 into Hp. split; [by intros ->|].
  rewrite Forall_forall in *. intros [n d] Hin Hd. cbn [snd] in Hd. subst d.
  pose proof (dget_NoDup _ _ _ Hn Hin) as Hg. destruct (Hs _ Hin) as [Hk _ _]. cbn [fst] in Hk.
  apply known_section in Hk as [-> | ->]; rewrite Hg in *; cbn [default from_option id] in *; rewrite fget_or_nil in *; discriminate.
Qed.

Lemma check_names awg awg31 s : sections_ok awg awg31 s → check_sections s = Ok () → dkeys s ≡ₚ [INTERFACE; PEER].
Proof.
  intros [Hn Hs] H. unfold check_sections in H. inv_ok1. apply require_Ok in Ha. apply andb_true_iff in Ha as [Ha _].
  apply NoDup_Permutation; [done|apply (bool_decide_unpack _); by vm_compute|]. intros n. rewrite forallb_forall in Ha. split.
  - intros (p & -> & Hp)%list_elem_of_fmap. rewrite Forall_forall in Hs. destruct (Hs p Hp) as [Hk _ _].
    apply known_section in Hk as [-> | ->]; [left|right; left].
  - rewrite !elem_of_cons. intros [->|[->|Hi]]; [| |by apply elem_of_nil in Hi]; apply dmem_true.
    + apply (Ha (List.nth 0 FIELDS ([], []))). left. reflexivity.
    + apply (Ha (List.nth 1 FIELDS ([], []))). right. left. reflexivity.
Qed.

(** C26: The canonical text of an accepted profile is refused for its size or
    not at all, and when it is not, it is accepted as the same profile. *)
Theorem profile_normal_form awg awg31 text s : parse awg awg31 text = Ok s →
  parse awg awg31 (render s) = (small_profile (render s);; Ok s) ∧ sections_ok awg awg31 s ∧ dkeys s ≡ₚ [INTERFACE; PEER].
Proof.
  intros H. unfold parse in *. inv_ok1. rewrite Ha. inv_ok1. inv_ok1. rename Ha1 into Hr. inv_ok1. destruct a2. rename Ha1 into Hc.
  injection H as <-. pose proof (read_sections_ok _ _ _ _ Hr) as Hok. destruct (check_nonempty _ _ _ Hok Hc) as [H1 H2].
  cbn [mbind result_bind]. rewrite (sections_render awg awg31) by done. cbn [mbind result_bind]. rewrite Hc.
  split_and!; [done|done|]. apply (check_names awg awg31); done.
Qed.

(** ** Signature packets *)

Lemma partition_shorter sep s a b : partition_at sep s = (a, Some b) → (length b < length s)%nat.
Proof.
  revert a b. induction s as [|c s IH]; simpl; intros a b H; [done|]. destruct (c =? sep); [simplify_eq; lia|].
  destruct (partition_at sep s) as [a' [b'|]] eqn:E; [|done]. simplify_eq. specialize (IH a' b eq_refl). lia.
Qed.

Lemma element_size_fuel s : element_size s ≠ Raise OutOfFuel.
Proof. unfold element_size. repeat case_match; unfold require; repeat case_match; done. Qed.

(** The packet's loop ends: every turn consumes the text up to a bracket. *)
Lemma packet_size_ends s : packet_size s ≠ Raise OutOfFuel.
Proof.
  unfold packet_size. apply (loop_fuel (λ st, length st.1)); [| |simpl; lia].
  - intros [[|c t] n] s' H; [done|]. unfold packet_step in H. destruct (partition_at 62 t) as [e [rest|]] eqn:E; [|done].
    apply partition_shorter in E. repeat inv_ok1. subst s'. simpl. lia.
  - intros [[|c t] n]; [done|]. unfold packet_step. destruct (partition_at 62 t) as [e [rest|]]; [|done].
    unfold require. destruct (c =? 60); [|done]. cbn [mbind result_bind]. pose proof (element_size_fuel e) as H.
    destruct (element_size e); [done|]. cbn [mbind result_bind]. congruence.
Qed.
