(* ===== verification/PaidEvents.v ===== *)
(** The events of the paid cohort (control/friends/paid_beta.py, apply_event)
    and the device's own view of its subscription (control/friends/subscription.py). *)
From Stdlib Require Import ZArith Lia.
From S2P Require Import Prelude PyData Json JsonText Rns Ack DeviceProof.
From S2P Require Import Registry Referrals PaidBeta TransportPolicy.

Local Open Scope Z_scope.

(** ** Applying an event *)

(** The fields of an event as the operator gives them. *)
Record paid_request := PaidRequest {
  pr_type : pyval;
  pr_id : pyval;
  pr_reference : pyval;
  pr_start : pyval;
  pr_until : pyval;
  pr_grace : pyval;
  pr_apk : pyval;
}.

Definition EVENT_TYPES : list pystr := List.map py ["payment"; "grace"; "expire"; "revoke"]%string.

Definition is_none (v : pyval) : bool := match v with PNone => true | _ => false end.
Definition int_or_0 (v : pyval) : Z := default 0 (as_int v).

(** [re.search(PATTERN, s)] *)
Fixpoint contains_alias (s : pystr) : bool :=
  support_pattern (take 12 s) || match s with [] => false | _ :: s => contains_alias s end.

(** The conditions on the request that do not depend on the registry. *)
Definition check_request (r : paid_request) : result () :=
  let is_type := λ name, key_is_str (py name) (pr_type r) in
  require (is_in (pr_type r) EVENT_TYPES) (PaidBetaError "INVALID_EVENT_TYPE");;
  require (match pr_id r with
           | PStr s => in_range 8 128 (zlen s) && forallb is_word s && negb (contains_alias (upper s))
           | _ => false end) (PaidBetaError "OPAQUE_EVENT_ID_REQUIRED");;
  reference ← of_option (PaidBetaError "REFERENCE_REQUIRED") (as_str (pr_reference r));
  raw ← of_option (ValueError "UnicodeEncodeError") (utf8_encode reference);
  require (in_range 1 1024 (zlen raw) && negb (bool_decide (strip reference = []))) (PaidBetaError "REFERENCE_REQUIRED");;
  if is_type "payment" then
    start ← instant (pr_start r);
    until ← instant (pr_until r);
    require ((start <? until) && is_none (pr_grace r)
             && match pr_apk r with PStr s => hex_match 64 s | _ => false end) (PaidBetaError "PAYMENT_BOUNDS_OR_APK_INVALID")
  else if is_type "grace" then
    instant (pr_grace r);;
    require (is_none (pr_start r) && is_none (pr_until r) && is_none (pr_apk r)) (PaidBetaError "GRACE_BOUNDS_INVALID")
  else require (is_none (pr_start r) && is_none (pr_until r) && is_none (pr_grace r) && is_none (pr_apk r))
         (PaidBetaError "UNEXPECTED_EVENT_FIELDS").

Section Events.
Context {RN : Rns} (float_repr : spec_float → pystr).

(** The hash of an event's payload, which decides whether a repeated identifier
    is the same event. *)
Definition payload_hash (r : paid_request) (device reference_hash : pystr) : result pystr :=
  b ← canonical float_repr (PDict
    [(PStr (py "device"), PStr device); (PStr (py "event_type"), pr_type r); (PStr (py "event_id"), pr_id r);
     (PStr (py "period_start"), pr_start r); (PStr (py "paid_until"), pr_until r); (PStr (py "grace_until"), pr_grace r);
     (PStr (py "reference_hash"), PStr reference_hash); (PStr (py "apk_sha256"), pr_apk r)]);
  Ok (tohex (full_hash b)).

(** What the device must be for a payment or an extension. *)
Definition check_identity (r : paid_request) (device : resolved) : M registry () :=
  demand_paid (activation_active device) "ACTIVE_IDENTITY_REQUIRED";;
  release ← select (λ g, confirmed_release g (rs_device device));
  release ← lift release;
  demand_paid (negb (key_is_str (py "payment") (pr_type r)) || key_is_str (ar_apk release) (pr_apk r))
    "PAYMENT_BOUNDS_OR_APK_INVALID";;
  grants ← select rg_grants;
  match grants with
  | None => mret ()
  | Some t => demand_paid (match dget (rs_device device) t with Some grant => negb (gr_revoked grant) | None => true end)
                "EXISTING_MESH_REVOCATION"
  end.

(** The bounds and state the event leaves: state, period, paid and grace. *)
Definition entitlement (s : subscription_row) : Z := Z.max (sb_paid_until s) (default 0 (sb_grace_until s)).

Definition next_terms (r : paid_request) (previous : option subscription_row) : result (pystr * Z * Z * option Z) :=
  let is_type := λ name, key_is_str (py name) (pr_type r) in
  let start := int_or_0 (pr_start r) in let until := int_or_0 (pr_until r) in let grace := int_or_0 (pr_grace r) in
  if is_type "payment" then
    require (match previous with
             | Some p => (sb_period_start p <=? start) && (entitlement p <=? until)
             | None => true end) (PaidBetaError "PAYMENT_MUST_NOT_SHORTEN");;
    Ok (py "active", start, until, None)
  else
    p ← of_option TypeError previous;
    if is_type "grace" then
      require (entitlement p <=? grace) (PaidBetaError "GRACE_MUST_NOT_SHORTEN");;
      Ok (py "grace", sb_period_start p, sb_paid_until p, Some grace)
    else Ok (if is_type "revoke" then py "revoked" else py "expired", sb_period_start p, sb_paid_until p, sb_grace_until p).

(** [INSERT INTO paid_beta_events] *)
Definition insert_event (event_id : pystr) (e : event_row) : M registry () :=
  '(s, l) ← select (λ g, (subscriptions_of g, events_of g));
  known ← select (λ g, dmem (er_device e) (rg_devices g));
  demand (negb (dmem event_id l) && known && existsb (str_eqb (er_type e)) EVENT_TYPES) SqliteError;;
  modify (set_paid (Some (s, dset event_id e l))).

(** [INSERT INTO paid_beta_subscriptions ... ON CONFLICT(device) DO UPDATE], with
    the triggers of the cohort limit and of revocation. *)
Definition upsert_subscription (device : pystr) (new : subscription_row) : M registry () :=
  '(s, l) ← select (λ g, (subscriptions_of g, events_of g));
  known ← select (λ g, dmem device (rg_devices g));
  demand (known && ((zlen s <? COHORT_LIMIT) || dmem device s)) SqliteError;;
  demand (subscription_checks new) SqliteError;;
  let row := match dget device s with
    | None => new
    | Some old => Sub (sb_state new) (sb_period_start new) (sb_paid_until new) (sb_grace_until new) (sb_created_at old)
                    (sb_updated_at new) (sb_version old + 1) (sb_last_event new) (sb_revoked_at new)
    end in
  demand (match dget device s with Some old => negb (str_eqb (sb_state old) (py "revoked")) | None => true end) SqliteError;;
  demand (subscription_checks row) SqliteError;;
  modify (set_paid (Some (dset device row s, l))).

Record applied := Applied { ap_duplicate : bool; ap_id : pystr; ap_event : event_row }.

(** The hashes an event is stored with. *)
Definition event_hashes (r : paid_request) (device : pystr) : result (pystr * pystr) :=
  reference_hash ← sha_text (str_or_empty (pr_reference r));
  payload ← payload_hash r device reference_hash;
  Ok (reference_hash, payload).

(** The part of [apply_event] for an identifier that is new. *)
Definition apply_new (f : fences) (r : paid_request) (device : resolved) (reference_hash payload : pystr) (now : Z) :
    M registry applied :=
  let is_type := λ name, key_is_str (py name) (pr_type r) in
  let id := str_or_empty (pr_id r) in
  demand_paid (negb (is_type "payment"%string) || (int_or_0 (pr_start r) <=? now) && (now <? int_or_0 (pr_until r)))
    "PAYMENT_BOUNDS_INVALID";;
  demand_paid (negb (is_type "grace"%string) || (now <? int_or_0 (pr_grace r))) "GRACE_BOUNDS_INVALID";;
  previous ← select (λ g, dget (rs_device device) (subscriptions_of g));
  effective ← select (λ g, effective_state g (rs_device device) now);
  effective ← lift effective;
  demand_paid (match effective with Some e => negb (str_eqb (st_state e) (py "revoked")) | None => true end)
    "REVOCATION_TERMINAL";;
  (if is_type "payment"%string || is_type "grace"%string then check_identity r device else mret ());;
  demand_paid (bool_decide (is_Some previous) || is_type "payment"%string) "COHORT_ENROLLMENT_REQUIRES_PAYMENT";;
  size ← select (λ g, zlen (subscriptions_of g));
  demand_paid (bool_decide (is_Some previous) || (size <? COHORT_LIMIT)) "COHORT_LIMIT";;
  '(state, start, until, grace) ← lift (next_terms r previous);
  let e := EventRow (rs_device device) (str_or_empty (pr_type r)) now (st_state <$> effective) state start until grace
             reference_hash payload now in
  (match previous, fc_enforcement f with
   | None, Some _ => fence ← select (λ g, prepare f g (rs_device device) payload now); lift fence
   | _, _ => mret ()
   end);;
  insert_event id e;;
  upsert_subscription (rs_device device)
    (Sub state start until grace now now 1 id (if str_eqb state (py "revoked") then Some now else None));;
  mret (Applied false id e).

(** [apply_event(database, support, event_type, event_id, reference, now=now, ...)]
    within the transaction of [connection(path, write=True)]. *)
Definition apply_event (f : fences) (support : pyval) (r : paid_request) (now : Z) : M registry applied :=
  transaction (
    present ← select schema_present;
    demand_paid present "PAID_MIGRATION_REQUIRED";;
    lift (instant (PInt now));;
    lift (check_request r);;
    device ← select (λ g, resolve_device g support);
    device ← lift device;
    '(reference_hash, payload) ← lift (event_hashes r (rs_device device));
    let id := str_or_empty (pr_id r) in
    previous ← select (λ g, dget id (events_of g));
    match previous with
    | Some e =>
        demand_paid (str_eqb (er_payload e) payload) "EVENT_ID_CONFLICT";;
        mret (Applied true id e)
    | None => apply_new f r device reference_hash payload now
    end).

(** ** The device's view (subscription.py) *)

Record event_view := EventView {
  ev_id : pystr; ev_type : pystr; ev_occurred : Z; ev_previous : option pystr; ev_state : pystr;
}.
Record paid_view := PaidView {
  pv_device : pystr;
  pv_observed : Z;
  pv_subscription : option (subscription_row * subscription_state);
  pv_event : option event_view;
}.

(** The last event, when it is the one the subscription shows. *)
Definition matching_event (device : pystr) (row : subscription_row) (l : list (pystr * event_row)) : option event_view :=
  e ← dget (sb_last_event row) l;
  if str_eqb (er_device e) device && str_eqb (er_state e) (sb_state row) && (er_period_start e =? sb_period_start row)
     && (er_paid_until e =? sb_paid_until row) && bool_decide (er_grace_until e = sb_grace_until row)
     && (er_occurred_at e =? sb_updated_at row) && (er_applied_at e =? sb_updated_at row)
  then Some (EventView (sb_last_event row) (er_type e) (er_occurred_at e) (er_previous e) (er_state e))
  else None.

(** [snapshot(database, device, now)] *)
Definition subscription_snapshot (g : registry) (device : pystr) (now : Z) : result paid_view :=
  require (schema_present g) SubscriptionUnsupported;;
  let row := dget device (subscriptions_of g) in
  effective ← effective_state g device now;
  match row with
  | None => Ok (PaidView device now None None)
  | Some row =>
      e ← of_option SubscriptionUnavailable effective;
      Ok (PaidView device now (Some (row, e)) (matching_event device row (events_of g)))
  end.

(** The proof of a request; what is wrong with it is not told. *)
Definition subscription_proof (proof : pyval) : result (pystr * claims * pystr) :=
  try_with (
    expected ← proof_challenge proof;
    '(device, cl) ← verify_proof float_repr proof expected ENROLLMENT;
    nonce ← sha_text (cl_challenge cl);
    Ok (device, cl, nonce))
  (λ e, if is_ValueError e || bool_decide (e = KeyError) || bool_decide (e = TypeError) then Raise Rejected else Raise e).

(** The transaction of a request: it spends the challenge even when the view is
    not available. *)
Definition spend_view (device : pystr) (cl : claims) (nonce : pystr) (now : Z) : M registry (result paid_view) :=
  transaction (
    c ← select (λ g, dget nonce (rg_challenges g));
    row ← select (enrolled device);
    c ← lift (answers c (py "subscription") device cl now);
    demand (in_force row) Rejected;;
    demand (match row with Some (d, _) => str_eqb (dv_public d) (cl_public cl) && str_eqb (dv_wg d) (cl_wg cl)
            | None => false end) Rejected;;
    use_challenge nonce c;;
    select (λ g, subscription_snapshot g device now)).

(** [request(access, proof)] *)
Definition subscription_request (proof : pyval) (now : Z) : M registry paid_view :=
  '(device, cl, nonce) ← lift (subscription_proof proof);
  view ← spend_view device cl nonce now;
  lift (match view with
        | Ok v => Ok v
        | Raise SubscriptionUnsupported => Raise SubscriptionUnsupported
        | Raise _ => Raise SubscriptionUnavailable
        end).
End Events.
