(* ===== verification/RegistrySpec.v ===== *)
(** What the Friends registry keeps true (enrolment, challenges, aliases) and
    what every enrolment operation does to it. *)
From Stdlib Require Import ZArith Lia.
From S2P Require Import Prelude PyData Json JsonText Rns Ack DeviceProof.
From S2P Require Import Registry Referrals PaidBeta TransportPolicy.

Local Open Scope Z_scope.

(** ** Running transactions *)

Lemma mret_Ok {S A} (a b : A) (s s' : S) : mret (M := M S) a s = (Ok b, s') ↔ b = a ∧ s' = s.
Proof. unfold mret, M_ret. naive_solver. Qed.

Lemma modify_Ok {S} (f : S → S) (s : S) u s' : modify f s = (Ok u, s') ↔ s' = f s.
Proof. unfold modify. destruct u. naive_solver. Qed.

Lemma get_state_Ok {S} (s a s' : S) : get_state s = (Ok a, s') ↔ a = s ∧ s' = s.
Proof. unfold get_state. naive_solver. Qed.

Lemma guard_Ok {S} (b : bool) e (s : S) u s' : (if b then mret () else raise e) s = (Ok u, s') ↔ b = true ∧ s' = s.
Proof. destruct b, u; cbn; split; [by intros [= <-]|by intros [_ ->]|done|by intros []]. Qed.

Lemma dget_snoc {K V} `{EqDecision K} k (l : list (K * V)) k' v : dget k' l = None →
  dget k (l ++ [(k', v)]) = if decide (k = k') then Some v else dget k l.
Proof.
  induction l as [|[k0 v0] l IH]; simpl; [done|]. intros H. destruct (decide (k' = k0)) as [|Hn]; [done|].
  destruct (decide (k = k0)) as [->|]; [by rewrite decide_False|by apply IH].
Qed.

Lemma dget_app_l {K V} `{EqDecision K} k (l l' : list (K * V)) v : dget k l = Some v → dget k (l ++ l') = Some v.
Proof. induction l as [|[k0 v0] l IH]; simpl; [done|]. case_decide; [done|apply IH]. Qed.

Lemma select_Ok {A} (f : registry → A) g a g' : select f g = (Ok a, g') ↔ a = f g ∧ g' = g.
Proof. unfold select. naive_solver. Qed.

Lemma demand_Ok b e g u g' : demand b e g = (Ok u, g') ↔ b = true ∧ g' = g.
Proof. unfold demand. rewrite lift_Ok. rewrite require_Ok. naive_solver. Qed.

Lemma demand_paid_Ok b e g u g' : demand_paid b e g = (Ok u, g') ↔ b = true ∧ g' = g.
Proof. apply demand_Ok. Qed.

Lemma transaction_done {S A} (m : M S A) s a s' : transaction m s = (Ok a, s') → m s = (Ok a, s').
Proof. apply transaction_Ok. Qed.

(** Break a successful transaction into its steps. *)
Ltac inv_m1 :=
  match goal with
  | H : (mbind _ _) _ = (Ok _, _) |- _ =>
      let a := fresh "a" in let s := fresh "s" in let Ha := fresh "Ha" in
      apply M_bind_Ok in H as (a & s & Ha & H); cbv beta in H
  | H : transaction _ _ = (Ok _, _) |- _ => apply transaction_done in H
  | H : lift _ _ = (Ok _, _) |- _ => let E := fresh "E" in apply lift_Ok in H as [E ->]
  | H : select _ _ = (Ok _, _) |- _ => apply select_Ok in H as [-> ->]
  | H : demand _ _ _ = (Ok _, _) |- _ => let E := fresh "E" in apply demand_Ok in H as [E ->]
  | H : demand_paid _ _ _ = (Ok _, _) |- _ => let E := fresh "E" in apply demand_paid_Ok in H as [E ->]
  | H : modify _ _ = (Ok _, _) |- _ => apply modify_Ok in H as ->
  | H : mret _ _ = (Ok _, _) |- _ => let E := fresh "E" in apply mret_Ok in H as [E ->]; try subst
  | x : (_ * _)%type |- _ => destruct x
  | H : of_option _ _ = Ok _ |- _ => apply of_option_Ok in H
  end.
Ltac inv_m := repeat (inv_m1; cbv beta iota zeta in * |-).

(** A computation that changes nothing unless it returns. *)
Definition atomic {S A} (m : M S A) : Prop := ∀ s e s', m s = (Raise e, s') → s' = s.

Lemma atomic_transaction {S A} (m : M S A) : atomic (transaction m).
Proof. intros s e s'. apply transaction_raise. Qed.

Lemma atomic_lift {S A} (r : result A) : atomic (S := S) (lift r).
Proof. intros s e s'. unfold lift. congruence. Qed.

Lemma atomic_bind_lift {S A B} (r : result A) (f : A → M S B) : (∀ a, atomic (f a)) → atomic (lift r ≫= f).
Proof. intros Hf s e s'. unfold mbind, M_bind, lift. destruct r; [apply Hf|congruence]. Qed.

Lemma atomic_bind_demand {B} b e (f : () → M registry B) : (∀ u, atomic (f u)) → atomic (demand b e ≫= f).
Proof. apply atomic_bind_lift. Qed.

Lemma atomic_bind_ret {S A B} (m : M S A) (f : A → B) : atomic m → atomic (m ≫= λ a, mret (f a)).
Proof. intros Hm s e s'. unfold mbind, M_bind. destruct (m s) as [[a|e'] s1] eqn:E; [done|]. intros [= <- <-]. by eapply Hm. Qed.

Create HintDb registry discriminated.
#[export] Hint Resolve atomic_transaction atomic_lift : registry.

(** ** The invariant *)

(** Invitations and devices: unique columns, and one invitation per device. *)
Record enrolment_wf (inv : list (pystr * invite_row)) (dev : list (pystr * device_row)) : Prop := {
  ew_invites : NoDup (dkeys inv);
  ew_once h1 h2 i1 i2 d : dget h1 inv = Some i1 → dget h2 inv = Some i2 →
    iv_device i1 = Some d → iv_device i2 = Some d → h1 = h2;
  ew_devices : NoDup (dkeys dev);
  ew_unique d1 d2 r1 r2 : dget d1 dev = Some r1 → dget d2 dev = Some r2 →
    dv_public r1 = dv_public r2 ∨ dv_wg r1 = dv_wg r2 ∨ dv_tcp r1 = dv_tcp r2 → d1 = d2;
  ew_redeemed h i d : dget h inv = Some i → iv_device i = Some d → is_Some (dget d dev);
  ew_activated d r : dget d dev = Some r → ∃ h i, dget h inv = Some i ∧ iv_device i = Some d;
  ew_shape d r : dget d dev = Some r → hex_match 32 d = true
    ∧ (∃ w, b64decode (dv_wg r) = Some w ∧ zlen w = 32) ∧ canonical_uuid (dv_tcp r) = true;
}.

Definition unused (device : pystr) (l : list (pystr * challenge_row)) : list (pystr * challenge_row) :=
  List.filter (λ p, str_eqb (cr_device p.2) device && negb (cr_used p.2)) l.

Record challenges_wf (l : list (pystr * challenge_row)) : Prop := {
  cw_keys : NoDup (dkeys l);
  cw_bound d : zlen (unused d l) <= 8;
}.

Record aliases_wf (t : list (pystr * support_row)) (dev : list (pystr * device_row)) : Prop := {
  aw_keys : NoDup (dkeys t);
  aw_unique d1 d2 s1 s2 : dget d1 t = Some s1 → dget d2 t = Some s2 → sr_support s1 = sr_support s2 → d1 = d2;
  aw_device d s : dget d t = Some s → is_Some (dget d dev);
  aw_pattern d s : dget d t = Some s → support_pattern (sr_support s) = true;
}.

Definition supported (g : registry) : Prop := ∀ t, rg_support g = Some t → aliases_wf t (rg_devices g).

(** ** What never changes back *)

Definition device_kept (r r' : device_row) : Prop :=
  dv_public r' = dv_public r ∧ dv_wg r' = dv_wg r ∧ dv_tcp r' = dv_tcp r ∧ (dv_revoked r = true → dv_revoked r' = true).
Definition invite_kept (i i' : invite_row) : Prop :=
  (∀ d, iv_device i = Some d → iv_device i' = Some d) ∧ (iv_revoked i = true → iv_revoked i' = true).

(** Every row of a table has a successor in another. *)
Definition kept {A} (R : A → A → Prop) (l l' : list (pystr * A)) : Prop :=
  ∀ k x, dget k l = Some x → ∃ x', dget k l' = Some x' ∧ R x x'.

Lemma kept_refl {A} (R : A → A → Prop) l : (∀ x, R x x) → kept R l l.
Proof. intros HR k x Hx. eauto. Qed.

Lemma kept_trans {A} (R : A → A → Prop) l1 l2 l3 :
  (∀ x y z, R x y → R y z → R x z) → kept R l1 l2 → kept R l2 l3 → kept R l1 l3.
Proof. intros HR H1 H2 k x (y & Hy & Hxy)%H1. destruct (H2 _ _ Hy) as (z & Hz & Hyz). eauto. Qed.

Lemma kept_dset {A} (R : A → A → Prop) l k x :
  (∀ y, R y y) → (∀ y, dget k l = Some y → R y x) → kept R l (dset k x l).
Proof.
  intros HR Hx k' y Hy. rewrite dget_dset. destruct (decide (k = k')) as [->|]; [|eauto]. eauto.
Qed.

Lemma device_kept_refl r : device_kept r r.
Proof. by repeat split. Qed.
Lemma invite_kept_refl i : invite_kept i i.
Proof. by repeat split. Qed.
Lemma device_kept_trans x y z : device_kept x y → device_kept y z → device_kept x z.
Proof. unfold device_kept. naive_solver congruence. Qed.
Lemma invite_kept_trans x y z : invite_kept x y → invite_kept y z → invite_kept x z.
Proof. unfold invite_kept. naive_solver. Qed.
#[export] Hint Resolve device_kept_refl invite_kept_refl device_kept_trans invite_kept_trans kept_refl kept_dset : registry.

(** ** Changes to the tables *)

Lemma dget_dset_case {A} k k' (v x : A) (d : list (pystr * A)) :
  dget k' (dset k v d) = Some x → k' = k ∧ x = v ∨ k' ≠ k ∧ dget k' d = Some x.
Proof. rewrite dget_dset. case_decide; naive_solver. Qed.

Lemma existsb_false {A} (f : A → bool) l x : existsb f l = false → x ∈ l → f x = false.
Proof.
  intros Hf Hx. destruct (f x) eqn:E; [|done]. rewrite <- Hf. symmetry. apply existsb_exists.
  exists x. split; [by apply list_elem_of_In|done].
Qed.

Lemma dmem_none {A} k (d : list (pystr * A)) : dmem k d = false → dget k d = None.
Proof. intros Hk%dmem_false. by apply dget_None. Qed.

Lemma enrol_invite inv dev h :
  dget h inv = None → enrolment_wf inv dev → enrolment_wf (dset h (Invite None false) inv) dev.
Proof.
  intros Hn [Hi Ho Hd Hu Hr Ha Hs]. split; try done; [by apply dset_NoDup|..].
  - intros h1 h2 i1 i2 d [[-> ->]|[? ?]]%dget_dset_case; [done|]. intros [[-> ->]|[? ?]]%dget_dset_case; [done|]. eauto.
  - intros h' i d [[-> ->]|[? ?]]%dget_dset_case; [done|]. eauto.
  - intros d r Hg. destruct (Ha _ _ Hg) as (h' & i & Hh & Hdi). exists h', i. split; [|done].
    rewrite dget_dset_ne; [done|]. intros ->. congruence.
Qed.

Lemma enrol_revoke inv dev d r :
  dget d dev = Some r → enrolment_wf inv dev →
  enrolment_wf inv (dset d (Device (dv_public r) (dv_wg r) (dv_tcp r) true) dev).
Proof.
  intros Hd [Hi Ho Hk Hu Hr Ha Hs].
  assert (∀ d' r', dget d' (dset d (Device (dv_public r) (dv_wg r) (dv_tcp r) true) dev) = Some r' →
    ∃ r0, dget d' dev = Some r0 ∧ dv_public r' = dv_public r0 ∧ dv_wg r' = dv_wg r0 ∧ dv_tcp r' = dv_tcp r0) as Hold.
  { intros d' r' [[-> ->]|[? ?]]%dget_dset_case; eauto 8. }
  split; try done; [by apply dset_NoDup|..].
  - intros d1 d2 r1 r2 (r1' & G1 & -> & -> & ->)%Hold (r2' & G2 & -> & -> & ->)%Hold. eauto.
  - intros h i d' Hh Hdi. destruct (Hr _ _ _ Hh Hdi) as [x Hx]. rewrite dget_dset. case_decide; eauto.
  - intros d' r' (r0 & G & _)%Hold. eauto.
  - intros d' r' (r0 & G & _ & -> & ->)%Hold. eauto.
Qed.

(** A new device redeems an open invitation. *)
Lemma enrol_redeem inv dev h d r :
  dget d dev = None → dget h inv = Some (Invite None false) →
  (∀ d' r', dget d' dev = Some r' → dv_public r' ≠ dv_public r ∧ dv_wg r' ≠ dv_wg r ∧ dv_tcp r' ≠ dv_tcp r) →
  hex_match 32 d = true ∧ (∃ w, b64decode (dv_wg r) = Some w ∧ zlen w = 32) ∧ canonical_uuid (dv_tcp r) = true →
  enrolment_wf inv dev → enrolment_wf (dset h (Invite (Some d) false) inv) (dset d r dev).
Proof.
  intros Hn Hh Hc Hs [Hi Ho Hk Hu Hr Ha Hsh].
  assert (∀ h' i', dget h' inv = Some i' → iv_device i' ≠ Some d) as Hfree.
  { intros h' i' G1 G2. destruct (Hr _ _ _ G1 G2). congruence. }
  split; [by apply dset_NoDup| |by apply dset_NoDup|..].
  - intros h1 h2 i1 i2 d' [[-> ->]|[? ?]]%dget_dset_case [[-> ->]|[? ?]]%dget_dset_case ??; simplify_eq/=; try done;
      try (exfalso; by eapply Hfree). eauto.
  - intros d1 d2 r1 r2 [[-> ->]|[? G1]]%dget_dset_case [[-> ->]|[? G2]]%dget_dset_case; [done|..]; [| |eauto];
      [destruct (Hc _ _ G2) as (?&?&?)|destruct (Hc _ _ G1) as (?&?&?)]; intuition congruence.
  - intros h' i d' [[-> ->]|[? G]]%dget_dset_case Hd'.
    + simplify_eq/=. rewrite dget_dset_eq. eauto.
    + rewrite dget_dset. case_decide; eauto.
  - intros d' r' [[-> ->]|[? G]]%dget_dset_case.
    + exists h, (Invite (Some d) false). by rewrite dget_dset_eq.
    + destruct (Ha _ _ G) as (h' & i & Hg & Hdi). exists h', i. split; [|done].
      rewrite dget_dset_ne; [done|]. intros ->. rewrite Hh in Hg. by simplify_eq/=.
  - intros d' r' [[-> ->]|[? G]]%dget_dset_case; eauto.
Qed.

(** Unused challenges only fall, except when one is issued. *)
Lemma unused_dset d n c l :
  dget n l = None → unused d (dset n c l) = unused d l ++ unused d [(n, c)].
Proof. intros Hn%dget_None. rewrite dset_new by done. unfold unused. by rewrite List.filter_app. Qed.

Lemma unused_use d n c l :
  zlen (unused d (dset n (Challenge (cr_device c) (cr_public c) (cr_wg c) (cr_purpose c) (cr_invite c) (cr_expires c) true) l))
  <= zlen (unused d l).
Proof.
  unfold unused, zlen. induction l as [|[k x] l IH]; cbn [dset List.filter fst snd cr_device cr_used negb].
  - rewrite andb_false_r. done.
  - case_decide; cbn [List.filter fst snd cr_device cr_used negb].
    + rewrite andb_false_r. destruct (_ && _); simpl; lia.
    + destruct (_ && _); simpl in *; lia.
Qed.

Lemma unused_prune d (P : pystr * challenge_row → Prop) `{∀ p, Decision (P p)} l :
  zlen (unused d (filter P l)) <= zlen (unused d l).
Proof.
  unfold unused, zlen. induction l as [|p l IH]; [done|]. rewrite filter_cons.
  destruct (decide (P p)); cbn [List.filter]; destruct (_ && _); simpl in *; lia.
Qed.

Lemma prune_NoDup {A} (P : pystr * A → Prop) `{∀ p, Decision (P p)} l : NoDup (dkeys l) → NoDup (dkeys (filter P l)).
Proof.
  unfold dkeys. induction l as [|p l IH]; [done|]. rewrite fmap_cons. intros [Hp Hl]%NoDup_cons. rewrite filter_cons.
  case_decide; [|auto]. rewrite fmap_cons. apply NoDup_cons. split; [|auto]. contradict Hp.
  apply list_elem_of_fmap in Hp as (q & -> & [_ Hq]%list_elem_of_filter). apply list_elem_of_fmap. eauto.
Qed.

Lemma challenges_use n c l : challenges_wf l →
  challenges_wf (dset n (Challenge (cr_device c) (cr_public c) (cr_wg c) (cr_purpose c) (cr_invite c) (cr_expires c) true) l).
Proof. intros [Hk Hb]. split; [by apply dset_NoDup|]. intros d. etransitivity; [apply unused_use|apply Hb]. Qed.

(** An alias drawn for a device without one. *)
Lemma draw_support_Ok device n tries t support t' :
  draw_support device n tries t = Some (support, t') →
  t' = dset device (Support support None None None None None) t
  ∧ (∀ d s, dget d t = Some s → sr_support s ≠ support)
  ∧ ∃ r, r ∈ tries ∧ support = py "FC-" ++ take 4 r ++ [45] ++ drop 4 r.
Proof.
  revert n. induction tries as [|r tries IH]; intros [|n]; try done. cbn [draw_support].
  destruct (existsb _ t) eqn:E.
  - intros Hd. destruct (IH _ Hd) as (? & ? & r' & Hr & ?). split_and!; try done. exists r'. split; [by right|done].
  - intros [= <- <-]. split; [done|]. split.
    + intros d s Hs%dget_elem Heq. apply (existsb_false _ _ _ E) in Hs. simpl in Hs. apply str_eqb_neq in Hs. done.
    + exists r. split; [by left|done].
Qed.

(** Letters an alias may be made of. *)
Definition letters (r : pystr) : bool := (zlen r =? 8) && forallb in_alphabet r.

Lemma letters_pattern r : letters r = true → support_pattern (py "FC-" ++ take 4 r ++ [45] ++ drop 4 r) = true.
Proof.
  unfold letters. intros [Hl Hr]%andb_true_iff. apply Z.eqb_eq in Hl. unfold zlen in Hl.
  do 9 (destruct r as [|? r]; [simpl in Hl; lia|simpl in Hl]) || idtac.
  destruct r; [|simpl in Hl; lia]. exact Hr.
Qed.

Lemma aliases_draw device s t dev :
  dget device t = None → is_Some (dget device dev) → support_pattern (sr_support s) = true →
  (∀ d s', dget d t = Some s' → sr_support s' ≠ sr_support s) →
  aliases_wf t dev → aliases_wf (dset device s t) dev.
Proof.
  intros Hn Hd Hp Hf [Hk Hu Hv Hs]. split; [by apply dset_NoDup|..].
  - intros d1 d2 s1 s2 [[-> ->]|[? G1]]%dget_dset_case [[-> ->]|[? G2]]%dget_dset_case Heq; try done; [..|eauto];
      [by destruct (Hf _ _ G2)|by destruct (Hf _ _ G1)].
  - intros d s' [[-> ->]|[? G]]%dget_dset_case; eauto.
  - intros d s' [[-> ->]|[? G]]%dget_dset_case; eauto.
Qed.

Lemma aliases_update device s s' t dev :
  dget device t = Some s → sr_support s' = sr_support s → aliases_wf t dev → aliases_wf (dset device s' t) dev.
Proof.
  intros Hg He [Hk Hu Hv Hs].
  assert (∀ d x, dget d (dset device s' t) = Some x → ∃ y, dget d t = Some y ∧ sr_support x = sr_support y) as Hold.
  { intros d x [[-> ->]|[? ?]]%dget_dset_case; eauto. }
  split; [by apply dset_NoDup|..].
  - intros d1 d2 s1 s2 (? & ? & ->)%Hold (? & ? & ->)%Hold. eauto.
  - intros d x (? & ? & _)%Hold. eauto.
  - intros d x (? & ? & ->)%Hold. eauto.
Qed.

Lemma aliases_kept {R : device_row → device_row → Prop} t dev dev' : kept R dev dev' → aliases_wf t dev → aliases_wf t dev'.
Proof.
  intros Hk [? ? Hv ?]. split; try done. intros d s [x Hx]%Hv. destruct (Hk _ _ Hx) as (? & ? & _). eauto.
Qed.
