(* ===== verification/FriendsInv.v ===== *)
(** The invariant of the whole Friends registry (enrolment, aliases, referral
    campaign, paid cohort) and the ways its tables may evolve. *)
From Stdlib Require Import ZArith Lia.
From S2P Require Import Prelude PyData Json JsonText Rns Ack DeviceProof.
From S2P Require Import Registry Referrals PaidBeta TransportPolicy PaidEvents RegistrySpec.

Local Open Scope Z_scope.

(** ** The referral campaign *)

(** Claims of a sponsor created within the day that ends at [t]. *)
Definition day_claims (sponsor : pystr) (t : Z) (l : list (pystr * claim_row)) : list (pystr * claim_row) :=
  List.filter (λ p, str_eqb (cm_sponsor p.2) sponsor && (t - 86400 <? cm_created p.2) && (cm_created p.2 <=? t)) l.

Record campaign_wf (g : registry) : Prop := {
  ca_links : NoDup (dkeys (rg_links g));
  ca_claims : NoDup (dkeys (rg_claims g));
  ca_limit : zlen (rg_claims g) <= LIMIT;
  ca_daily sponsor t : zlen (day_claims sponsor t (rg_claims g)) <= DAILY;
  ca_unique q1 q2 c1 c2 : dget q1 (rg_claims g) = Some c1 → dget q2 (rg_claims g) = Some c2 →
    cm_invite c1 = cm_invite c2 → q1 = q2;
  ca_invite q c : dget q (rg_claims g) = Some c → is_Some (dget (cm_invite c) (rg_invites g));
}.

(** ** The paid cohort *)

(** A subscription is what its device's events make of it, in order: the terms
    of the last one, and a version that counts them. *)
Definition replay_event (s : option subscription_row) (p : pystr * event_row) : option subscription_row :=
  let e := p.2 in
  Some (Sub (er_state e) (er_period_start e) (er_paid_until e) (er_grace_until e)
    (match s with Some s => sb_created_at s | None => er_applied_at e end) (er_applied_at e)
    (match s with Some s => sb_version s + 1 | None => 1 end) p.1
    (if str_eqb (er_state e) (py "revoked") then Some (er_applied_at e) else None)).

Definition events_for (device : pystr) (l : list (pystr * event_row)) : list (pystr * event_row) :=
  List.filter (λ p, str_eqb (er_device p.2) device) l.

Definition replay (device : pystr) (l : list (pystr * event_row)) : option subscription_row :=
  foldl replay_event None (events_for device l).

(** The states an event leaves: active without a grace period, or in one, or over. *)
Definition terms_ok (s : subscription_row) : Prop :=
  sb_state s = py "active" ∧ sb_grace_until s = None ∨ sb_state s = py "grace" ∧ is_Some (sb_grace_until s)
  ∨ sb_state s = py "expired" ∨ sb_state s = py "revoked".

Record paid_wf (g : registry) : Prop := {
  pw_keys : NoDup (dkeys (subscriptions_of g));
  pw_limit : zlen (subscriptions_of g) <= COHORT_LIMIT;
  pw_events : NoDup (dkeys (events_of g));
  pw_checks d s : dget d (subscriptions_of g) = Some s → subscription_checks s = true;
  pw_times d s : dget d (subscriptions_of g) = Some s →
    0 <= sb_paid_until s <= MAX_TIME ∧ ∀ z, sb_grace_until s = Some z → z <= MAX_TIME;
  pw_terms d s : dget d (subscriptions_of g) = Some s → terms_ok s;
  pw_device d s : dget d (subscriptions_of g) = Some s → is_Some (dget d (rg_devices g));
  pw_replay d : dget d (subscriptions_of g) = replay d (events_of g);
}.

Record friends_wf (g : registry) : Prop := {
  fw_enrolment : enrolment_wf (rg_invites g) (rg_devices g);
  fw_challenges : challenges_wf (rg_challenges g);
  fw_aliases : supported g;
  fw_campaign : campaign_wf g;
  fw_paid : paid_wf g;
}.

Lemma new_registry_wf : friends_wf new_registry.
Proof.
  split.
  - split; simpl; try done; constructor.
  - split; [constructor|]. intros d. done.
  - intros t [= <-]. split; simpl; try done. constructor.
  - split; simpl; try done; constructor.
  - split; simpl; try done; constructor.
Qed.

(** ** Evolution *)

(** A subscription changes only by an event: its version grows, it was not
    revoked, and what was paid for is never taken back. *)
Definition sub_kept (s s' : subscription_row) : Prop :=
  s' = s ∨ sb_version s < sb_version s' ∧ sb_state s ≠ py "revoked" ∧ sb_period_start s <= sb_period_start s'
           ∧ entitlement s <= entitlement s'.

Lemma sub_kept_refl s : sub_kept s s.
Proof. by left. Qed.
Lemma sub_kept_trans x y z : sub_kept x y → sub_kept y z → sub_kept x z.
Proof. unfold sub_kept. intros [->|H1] [->|H2]; [by left|by right..|]. right. intuition lia. Qed.

Definition alias_kept (s s' : support_row) : Prop := sr_support s' = sr_support s.

Definition tables_kept (t t' : option (list (pystr * support_row))) : Prop :=
  match t, t' with Some t, Some t' => kept alias_kept t t' | None, _ => True | Some _, None => False end.

Record evolves (g g' : registry) : Prop := {
  ev_devices : kept device_kept (rg_devices g) (rg_devices g');
  ev_invites : kept invite_kept (rg_invites g) (rg_invites g');
  ev_aliases : tables_kept (rg_support g) (rg_support g');
  ev_links : kept eq (rg_links g) (rg_links g');
  ev_claims : kept eq (rg_claims g) (rg_claims g');
  ev_schema : schema_present g = true → schema_present g' = true;
  ev_subscriptions : kept sub_kept (subscriptions_of g) (subscriptions_of g');
  ev_events : ∃ more, events_of g' = events_of g ++ more;
}.

Lemma tables_kept_refl t : tables_kept t t.
Proof. destruct t; simpl; [|done]. by apply kept_refl. Qed.

Lemma evolves_refl g : evolves g g.
Proof.
  split; try (by apply kept_refl; auto with registry); [apply tables_kept_refl|done| |].
  - apply kept_refl, sub_kept_refl.
  - exists []. by rewrite app_nil_r.
Qed.

Lemma evolves_trans g1 g2 g3 : evolves g1 g2 → evolves g2 g3 → evolves g1 g3.
Proof.
  intros [A1 B1 C1 L1 D1 E1 F1 [m1 G1]] [A2 B2 C2 L2 D2 E2 F2 [m2 G2]]. split.
  - eapply kept_trans; [apply device_kept_trans|done..].
  - eapply kept_trans; [apply invite_kept_trans|done..].
  - unfold tables_kept in *. destruct (rg_support g1), (rg_support g2), (rg_support g3); try done.
    eapply kept_trans; [|done..]. unfold alias_kept. intros; congruence.
  - eapply kept_trans; [|done..]. intros; congruence.
  - eapply kept_trans; [|done..]. intros; congruence.
  - auto.
  - eapply kept_trans; [apply sub_kept_trans|done..].
  - exists (m1 ++ m2). by rewrite G2, G1, app_assoc.
Qed.

(** What every operation does: it keeps the invariant and lets the tables evolve. *)
Definition safe (g g' : registry) : Prop := friends_wf g → friends_wf g' ∧ evolves g g'.

Lemma safe_refl g : safe g g.
Proof. intros ?. split; [done|apply evolves_refl]. Qed.

Lemma safe_trans g1 g2 g3 : safe g1 g2 → safe g2 g3 → safe g1 g3.
Proof. intros H1 H2 Hw. destruct (H1 Hw) as [Hw2 E1]. destruct (H2 Hw2) as [Hw3 E2]. split; [done|]. by eapply evolves_trans. Qed.

#[export] Instance safe_preorder : PreOrder safe.
Proof. split; [exact safe_refl|exact safe_trans]. Qed.

(** ** Operations within a preorder *)

Section Within.
Context (R : registry → registry → Prop) `{!PreOrder R}.

(** Whatever the outcome, the operation moves along [R]. *)
Definition within {A} (m : M registry A) : Prop := ∀ g r g', m g = (r, g') → R g g'.

Lemma within_atomic {A} (m : M registry A) : atomic m → (∀ g a g', m g = (Ok a, g') → R g g') → within m.
Proof. intros Ha Hs g [a|e] g' Hm; [by eapply Hs|]. by rewrite (Ha _ _ _ Hm). Qed.

Lemma within_bind {A B} (m : M registry A) (f : A → M registry B) : within m → (∀ a, within (f a)) → within (m ≫= f).
Proof.
  intros Hm Hf g r g'. unfold mbind, M_bind. destruct (m g) as [[a|e] g1] eqn:E.
  - intros H. transitivity g1; [by eapply Hm|by eapply Hf].
  - intros [= <- <-]. by eapply Hm.
Qed.

Lemma within_still {A} (m : M registry A) : (∀ g, (m g).2 = g) → within m.
Proof. intros Hm g r g' H. replace g' with g; [done|]. by rewrite <- (Hm g), H. Qed.

Lemma within_lift {A} (r : result A) : within (lift r).
Proof. by apply within_still. Qed.
End Within.

Abbreviation safe_op := (within safe).

(** ** Changes of single tables *)

Lemma safe_invites h g : dget h (rg_invites g) = None → safe g (set_invites (dset h (Invite None false) (rg_invites g)) g).
Proof.
  intros Hn Hw. pose proof Hw as [He Hc Ha [? ? ? ? ? Hci] Hp]. split.
  - split; [by apply enrol_invite|done..| |].
    + split; try done. intros q c [x Hx]%Hci. simpl. rewrite dget_dset. case_decide; eauto.
    + destruct Hp. by split.
  - destruct (evolves_refl g). split; try done. simpl. apply kept_dset; [apply invite_kept_refl|]. intros; congruence.
Qed.

Lemma safe_devices d r g : dget d (rg_devices g) = Some r →
  safe g (set_devices (dset d (Device (dv_public r) (dv_wg r) (dv_tcp r) true) (rg_devices g)) g).
Proof.
  intros Hd Hw. pose proof Hw as [He Hc Ha [] Hp].
  assert (kept device_kept (rg_devices g) (dset d (Device (dv_public r) (dv_wg r) (dv_tcp r) true) (rg_devices g))) as Hk.
  { apply kept_dset; [apply device_kept_refl|]. intros y Hy. rewrite Hd in Hy. by simplify_eq. }
  split.
  - split; [by apply enrol_revoke|done|..]; [|by split|].
    + intros t Ht. eapply aliases_kept; [done|by apply Ha].
    + destruct Hp as [? ? ? ? ? ? Hpd ?]. split; try done. intros d' s (x & Hx)%Hpd. destruct (Hk _ _ Hx) as (y & ? & _). eauto.
  - destruct (evolves_refl g). by split.
Qed.

Lemma safe_enrol h d r g :
  dget d (rg_devices g) = None → dget h (rg_invites g) = Some (Invite None false) →
  (∀ d' r', dget d' (rg_devices g) = Some r' → dv_public r' ≠ dv_public r ∧ dv_wg r' ≠ dv_wg r ∧ dv_tcp r' ≠ dv_tcp r) →
  hex_match 32 d = true ∧ (∃ w, b64decode (dv_wg r) = Some w ∧ zlen w = 32) ∧ canonical_uuid (dv_tcp r) = true →
  safe g (set_invites (dset h (Invite (Some d) false) (rg_invites g)) (set_devices (dset d r (rg_devices g)) g)).
Proof.
  intros Hn Hh Hc Hs Hw. pose proof Hw as [He Hch Ha [? ? ? ? ? Hci] Hp].
  assert (kept device_kept (rg_devices g) (dset d r (rg_devices g))) as Hk.
  { apply kept_dset; [apply device_kept_refl|]. intros; congruence. }
  split.
  - split; [by apply enrol_redeem|done|..].
    + intros t Ht. eapply aliases_kept; [done|by apply Ha].
    + split; try done. intros q c [x Hx]%Hci. simpl. rewrite dget_dset. case_decide; eauto.
    + destruct Hp as [? ? ? ? ? ? Hpd ?]. split; try done. intros d' s (x & Hx)%Hpd. destruct (Hk _ _ Hx) as (y & ? & _). eauto.
  - destruct (evolves_refl g). split; try done. simpl. apply kept_dset; [apply invite_kept_refl|].
    intros y Hy. rewrite Hh in Hy. simplify_eq. by split.
Qed.

Lemma safe_challenges l g : (challenges_wf (rg_challenges g) → challenges_wf l) → safe g (set_challenges l g).
Proof.
  intros Hl Hw. pose proof Hw as [He Hc Ha [] []]. split; [|destruct (evolves_refl g); by split].
  split; try done; [by apply Hl|by split..].
Qed.

Lemma safe_support t t' g :
  rg_support g = Some t → (aliases_wf t (rg_devices g) → aliases_wf t' (rg_devices g)) → kept alias_kept t t' →
  safe g (set_support (Some t') g).
Proof.
  intros Ht Hl Hk Hw. pose proof Hw as [He Hc Ha [] []]. split.
  - split; try done; [|by split..]. intros x [= <-]. by apply Hl, Ha.
  - destruct (evolves_refl g). split; try done. by rewrite Ht.
Qed.

Lemma safe_links l g : NoDup (dkeys l) → kept eq (rg_links g) l → safe g (set_links l g).
Proof.
  intros Hl Hk Hw. pose proof Hw as [He Hc Ha [] []]. split; [|destruct (evolves_refl g); by split].
  split; try done; by split.
Qed.
