(* ===== verification/FriendsOps.v ===== *)
(** Every enrolment operation of the Friends registry is safe, and what a
    completed challenge shows.

    Support requests, referral links and referral claims keep the registry's
    invariant: the pool and the daily allowance of a sponsor are never exceeded. *)
From Stdlib Require Import ZArith Lia.
From S2P Require Import Prelude PyData Json JsonText Rns Ack DeviceProof Registry Referrals PaidBeta TransportPolicy.
From S2P Require Import PaidEvents RegistrySpec FriendsInv Support.

Local Open Scope Z_scope.

Section Ops.
Context {RN : Rns} {RNL : RnsLaws} {RNO : RnsOctets} (float_repr : spec_float → pystr).

(** ** Proofs *)

(** What an accepted proof shows: a signature of the proved key over the
    claims, which name the expected challenge. *)
Inductive proved (device : pystr) (cl : claims) (audience : pystr) : Prop :=
  | Proved (key wg nonce signature message : bytes) :
      claims_wf cl key wg nonce → device = tohex (identity_hash key) → binding_message float_repr cl = Ok message →
      validate key signature message = true → cl_audience cl = audience → proved device cl audience.

Lemma verify_proof_Ok proof expected audience device cl :
  verify_proof float_repr proof expected audience = Ok (device, cl) →
  expected = PStr (cl_challenge cl) ∧ proved device cl audience.
Proof.
  unfold verify_proof. intros H. repeat inv_ok1. sbools.
  match goal with H : binding _ _ _ _ = Ok _ |- _ => apply binding_Ok in H as (-> & -> & -> & -> & p & w & h & Hwf) end.
  destruct (binding_wf _ _ _ _ Hwf) as (_ & Hp & _).
  match goal with H : decode_field _ 64 = Ok ?k, H' : validate ?k _ _ = true |- _ => rewrite Hp in H end. simplify_eq.
  destruct expected as [| | | |s| | |]; try done. simpl in *. sbools. split; [by f_equal|]. by econstructor.
Qed.

Lemma proved_shape device cl audience :
  proved device cl audience →
  hex_match 32 device = true ∧ ∃ w, b64decode (cl_wg cl) = Some w ∧ zlen w = 32.
Proof.
  intros [key w h sg m [_ _ _ Ew Bw Lw _ _ _ _] -> _ _ _]. split.
  - unfold hex_match. rewrite length_tohex, identity_hash_length. simpl. apply tohex_lhex, identity_hash_bytes.
  - exists w. rewrite Ew. split; [by apply b64_roundtrip|done].
Qed.

(** ** Challenges answered *)

(** The device is enrolled, or its challenge's invitation enrols it. *)
Inductive enrols (g : registry) (purpose : pystr) (c : challenge_row) (cl : claims) (device tcp : pystr) : registry → Prop :=
  | enrolled_before r : dget device (rg_devices g) = Some r → enrols g purpose c cl device tcp g
  | enrolled_now h : dget device (rg_devices g) = None → purpose = py "activate" → cr_invite c = Some h →
      dget h (rg_invites g) = Some (Invite None false) →
      (∀ d' r', dget d' (rg_devices g) = Some r' → dv_public r' ≠ cl_public cl ∧ dv_wg r' ≠ cl_wg cl ∧ dv_tcp r' ≠ tcp) →
      enrols g purpose c cl device tcp
        (set_invites (dset h (Invite (Some device) false) (rg_invites g))
          (set_devices (dset device (Device (cl_public cl) (cl_wg cl) tcp false) (rg_devices g)) g)).

(** An alias is drawn for a device without one, if the table exists. *)
Inductive names_device (g : registry) (device : pystr) (tries : list pystr) : registry → Prop :=
  | named_before : names_device g device tries g
  | named_now t s r : rg_support g = Some t → dget device t = None → is_Some (dget device (rg_devices g)) →
      (∀ d s', dget d t = Some s' → sr_support s' ≠ s) → r ∈ tries → s = py "FC-" ++ take 4 r ++ [45] ++ drop 4 r →
      names_device g device tries (set_support (Some (dset device (Support s None None None None None) t)) g).

Lemma registered_Ok device tries g o g' : registered device tries g = (Ok o, g') → names_device g device tries g'.
Proof.
  unfold registered. intros H. inv_m. destruct (rg_support g) as [t|] eqn:Et; [|inv_m; constructor].
  destruct (dget device t) as [row|] eqn:Ed; [inv_m; constructor|]. inv_m.
  match goal with H : draw_support _ _ _ _ = Some _ |- _ => apply draw_support_Ok in H as (-> & Hf & r & Hr & ->) end.
  match goal with H : dmem _ _ = true |- _ => apply dmem_true in H as Hk end. econstructor; try done. destruct (dget device (rg_devices g)) eqn:Eg; [eauto|]. by apply dget_None in Eg.
Qed.

Lemma answers_Ok c purpose device cl now c' : answers c purpose device cl now = Ok c' →
  c = Some c' ∧ cr_used c' = false ∧ now < cr_expires c' ∧ cr_purpose c' = purpose ∧ cr_device c' = device
  ∧ cr_public c' = cl_public cl ∧ cr_wg c' = cl_wg cl.
Proof. unfold answers. intros H. repeat inv_ok1. sbools. subst. by split_and!. Qed.

Definition used_challenge (c : challenge_row) : challenge_row :=
  Challenge (cr_device c) (cr_public c) (cr_wg c) (cr_purpose c) (cr_invite c) (cr_expires c) true.

Definition spend (nonce : pystr) (c : challenge_row) (g : registry) : registry :=
  set_challenges (dset nonce (used_challenge c) (rg_challenges g)) g.

(** What a completed challenge shows and does. *)
Inductive completed_challenge (proof : pyval) (purpose : pystr) (now : Z) (tcp : pystr) (tries : list pystr)
    (device : pystr) (row : device_row) (g g' : registry) : Prop :=
  | CompletedChallenge (cl : claims) (nonce : pystr) (c : challenge_row) (g1 : registry) :
      proof_challenge proof = Ok (PStr (cl_challenge cl)) → verify_proof float_repr proof (PStr (cl_challenge cl)) ENROLLMENT = Ok (device, cl) →
      sha_text (cl_challenge cl) = Ok nonce →
      dget nonce (rg_challenges g) = Some c → answers (Some c) purpose device cl now = Ok c →
      enrols g purpose c cl device tcp g1 →
      dget device (rg_devices g1) = Some row →
      dv_revoked row = false ∧ dv_public row = cl_public cl ∧ dv_wg row = cl_wg cl →
      names_device (spend nonce c g1) device tries g' →
      (purpose = py "support" → g' = spend nonce c g1) →
      completed_challenge proof purpose now tcp tries device row g g'.

Lemma insert_device_Ok device row g u g' : insert_device device row g = (Ok u, g') →
  g' = set_devices (dset device row (rg_devices g)) g
  ∧ ∀ d' r', dget d' (rg_devices g) = Some r' → dv_public r' ≠ dv_public row ∧ dv_wg r' ≠ dv_wg row ∧ dv_tcp r' ≠ dv_tcp row.
Proof.
  unfold insert_device. intros H. inv_m. split; [done|]. intros d' r' Hg%dget_elem. bools.
  apply (existsb_false _ _ _ E) in Hg. simpl in Hg. sbools. done.
Qed.

Lemma redeem_invite_Ok h device i g u g' : dget h (rg_invites g) = Some i → redeem_invite h device g = (Ok u, g') →
  g' = set_invites (dset h (Invite (Some device) (iv_revoked i)) (rg_invites g)) g.
Proof. unfold redeem_invite. intros Hh H. inv_m. rewrite Hh in H. by inv_m. Qed.

Lemma open_invite_Some o : open_invite o = true → o = Some (Invite None false).
Proof. by destruct o as [[[d|] []]|]. Qed.

Lemma complete_Ok proof purpose now tcp tries g device wg tcp' g' :
  complete float_repr proof purpose now tcp tries g = (Ok (device, wg, tcp'), g') →
  ∃ row, wg = dv_wg row ∧ tcp' = dv_tcp row ∧ completed_challenge proof purpose now tcp tries device row g g'.
Proof.
  unfold complete. intros H. inv_m.
  match goal with H : verify_proof _ _ _ _ = Ok _ |- _ => rename H into Hv end.
  destruct (verify_proof_Ok _ _ _ _ _ Hv) as [-> Hp].
  match goal with H : answers _ _ _ _ _ = Ok _ |- _ => rename H into Ha end.
  destruct (answers_Ok _ _ _ _ _ _ Ha) as (Hlive & _). rewrite Hlive in Ha. simplify_eq.
  match goal with H : _ = Some ?row, H' : _ && _ && _ = true |- _ => exists row; rename H into Hrow, H' into Hcur end.
  split; [done|]. split; [done|]. sbools.
  match goal with H : use_challenge _ _ _ = _ |- _ => unfold use_challenge in H; apply modify_Ok in H as -> end.
  econstructor; try done.
  - match goal with H : match dget ?d (rg_devices g) with _ => _ end g = _ |- _ => rename H into He; destruct (dget d (rg_devices g)) eqn:Ed end;
      [inv_m; by econstructor|]. inv_m. sbools.
    match goal with H : open_invite match cr_invite ?c with _ => _ end = true |- _ =>
      apply open_invite_Some in H; destruct (cr_invite c) eqn:Ei; [|done] end.
    match goal with H : insert_device _ _ _ = _ |- _ => apply insert_device_Ok in H as [-> Hc] end.
    match goal with H : redeem_invite _ _ _ = _ |- _ => eapply redeem_invite_Ok in H as ->; [|eassumption] end. simpl. eapply (enrolled_now _ _ _ _ _ _ l0); try done.
  - case_match; [inv_m; constructor|]. by eapply registered_Ok.
  - intros ->. rewrite (proj2 (str_eqb_eq _ _) eq_refl) in *. by inv_m.
Qed.

(** ** Safety of each operation *)

Lemma names_device_safe g device tries g' : Forall (λ r, letters r = true) tries → names_device g device tries g' → safe g g'.
Proof.
  intros Ht [|t s r Hg Hn Hd Hf Hr ->]; [apply safe_refl|]. apply (safe_support t); [done| |].
  - intros Hw. apply aliases_draw; try done. apply letters_pattern. rewrite Forall_forall in Ht. by apply Ht.
  - apply kept_dset; [done|]. intros y Hy. congruence.
Qed.

Lemma enrols_safe g purpose c cl device tcp g' :
  proved device cl ENROLLMENT → canonical_uuid tcp = true → enrols g purpose c cl device tcp g' → safe g g'.
Proof.
  intros Hp Ht [|h Hn _ _ Hh Hc]; [apply safe_refl|]. apply safe_enrol; try done.
  destruct (proved_shape _ _ _ Hp) as [Hd Hw]. by split_and!.
Qed.

Lemma spend_safe nonce c g : safe g (spend nonce c g).
Proof. apply safe_challenges, challenges_use. Qed.

Lemma completed_safe proof purpose now tcp tries device row g g' :
  canonical_uuid tcp = true → Forall (λ r, letters r = true) tries →
  completed_challenge proof purpose now tcp tries device row g g' → safe g g'.
Proof.
  intros Ht Htr [cl nonce c g1 _ Hv _ _ _ He _ _ Hn _]. destruct (verify_proof_Ok _ _ _ _ _ Hv) as [_ Hp].
  eapply safe_trans; [by eapply enrols_safe|]. eapply safe_trans; [apply spend_safe|]. by eapply names_device_safe.
Qed.

Lemma complete_atomic proof purpose now tcp tries : atomic (complete float_repr proof purpose now tcp tries).
Proof.
  unfold complete. apply atomic_bind_lift. intros ?. apply atomic_bind_lift. intros [? ?]. apply atomic_bind_lift. intros ?.
  apply atomic_transaction.
Qed.

Lemma complete_safe proof purpose now tcp tries :
  canonical_uuid tcp = true → Forall (λ r, letters r = true) tries → safe_op (complete float_repr proof purpose now tcp tries).
Proof.
  intros Ht Htr. apply (within_atomic safe); [apply complete_atomic|]. intros g [[d w] t] g' (row & _ & _ & Hc)%complete_Ok.
  by eapply completed_safe.
Qed.

Lemma insert_invite_Ok h g u g' : insert_invite h g = (Ok u, g') →
  dget h (rg_invites g) = None ∧ g' = set_invites (dset h (Invite None false) (rg_invites g)) g.
Proof. unfold insert_invite. intros H. inv_m. split; [|done]. bools. by apply dmem_none. Qed.

Lemma invite_safe raw : safe_op (invite raw).
Proof.
  apply (within_atomic safe); [apply atomic_bind_ret, atomic_transaction|]. unfold invite. intros g a g' H. inv_m.
  match goal with H : insert_invite _ _ = _ |- _ => apply insert_invite_Ok in H as [Hn ->] end. by apply safe_invites.
Qed.

Lemma revoke_device_safe device : safe_op (revoke_device device).
Proof.
  apply (within_atomic safe); [apply atomic_bind_demand; intros ?; apply atomic_transaction|].
  unfold revoke_device. intros g a g' H. inv_m. by apply safe_devices.
Qed.

(** A challenge that was issued: what it was issued for, and how many were open. *)
Lemma challenge_Ok public wg purpose invitation now token g nonce expires g' :
  challenge public wg purpose invitation now token g = (Ok (nonce, expires), g') →
  ∃ device h inv, device_of public wg = Ok device ∧ sha_text nonce = Ok h ∧ nonce = b64encode token
    ∧ expires = now + CHALLENGE_TTL
    ∧ let live := filter (λ p, ~ cr_expires p.2 <= now) (rg_challenges g) in
      zlen (unused device live) < 8 ∧ dget h live = None
      ∧ g' = set_challenges (dset h (Challenge device (str_or_empty public) (str_or_empty wg) (str_or_empty purpose) inv
               expires false) live) g.
Proof.
  unfold challenge. intros H. inv_m.
  match goal with H : match dget ?d (rg_devices g) with _ => _ end g = (Ok ?i, ?s), H' : device_of _ _ = Ok _ |- _ =>
    exists d; assert (s = g) as -> by (destruct (dget d (rg_devices g)); [by inv_m|inv_m; destruct (str_eqb _ (py "activate")); by inv_m]);
    clear H end.
  simplify_eq/=. bools. eexists _, _. split_and!; try done. by apply dmem_none.
Qed.

Lemma challenge_safe public wg purpose invitation now token : safe_op (challenge public wg purpose invitation now token).
Proof.
  apply (within_atomic safe).
  - apply atomic_bind_demand. intros _. apply atomic_bind_lift. intros ?. apply atomic_transaction.
  - intros g [nonce e] g' (device & h & inv & _ & _ & _ & _ & Hlive & Hn & ->)%challenge_Ok. apply safe_challenges.
    intros [Hk Hb]. split; [by apply dset_NoDup, prune_NoDup|]. intros d. rewrite unused_dset by done.
    unfold zlen in *. rewrite length_app. unfold unused at 2. simpl. rewrite andb_true_r.
    destruct (str_eqb device d) eqn:E; simpl; [apply str_eqb_eq in E as ->; lia|].
    specialize (Hb d). pose proof (unused_prune d (λ p, ~ cr_expires p.2 <= now) (rg_challenges g)). unfold zlen in *. lia.
Qed.

Lemma enrollment_status_Ok proof now g s g' :
  enrollment_status float_repr proof now g = (Ok s, g') →
  ∃ cl nonce c, verify_proof float_repr proof (PStr (cl_challenge cl)) ENROLLMENT = Ok (ds_device s, cl)
    ∧ sha_text (cl_challenge cl) = Ok nonce ∧ dget nonce (rg_challenges g) = Some c
    ∧ answers (Some c) (py "status") (ds_device s) cl now = Ok c ∧ g' = spend nonce c g.
Proof.
  unfold enrollment_status. intros H. inv_m.
  match goal with H : verify_proof _ _ _ _ = Ok _ |- _ => rename H into Hv end.
  destruct (verify_proof_Ok _ _ _ _ _ Hv) as [-> Hp].
  match goal with H : answers _ _ _ _ _ = Ok _ |- _ => rename H into Ha end.
  destruct (answers_Ok _ _ _ _ _ _ Ha) as (Hlive & _). rewrite Hlive in Ha.
  match goal with H : use_challenge _ _ _ = _ |- _ => unfold use_challenge in H; apply modify_Ok in H as -> end.
  assert (s.(ds_device) = l ∧ g' = spend a0 a2 g) as [-> ->]; [|by eexists _, _, _].
  case_match; by inv_m.
Qed.

Lemma enrollment_status_atomic proof now : atomic (enrollment_status float_repr proof now).
Proof.
  apply atomic_bind_lift. intros ?. apply atomic_bind_lift. intros [? ?]. apply atomic_bind_lift. intros ?. apply atomic_transaction.
Qed.

Lemma enrollment_status_safe proof now : safe_op (enrollment_status float_repr proof now).
Proof.
  apply (within_atomic safe); [apply enrollment_status_atomic|].
  intros g s g' (cl & nonce & c & _ & _ & _ & _ & ->)%enrollment_status_Ok. apply spend_safe.
Qed.
End Ops.

Section Campaign.
Context {RN : Rns} {RNL : RnsLaws} {RNO : RnsOctets} (float_repr : spec_float → pystr).

(** ** Support requests *)

Lemma support_table_Ok g t g' : support_table g = (Ok t, g') → rg_support g = Some t ∧ g' = g.
Proof. unfold support_table. intros H. by inv_m. Qed.

Lemma support_request_safe value now later tcp tries :
  canonical_uuid tcp = true → Forall (λ r, letters r = true) tries →
  safe_op (support_request float_repr value now later tcp tries).
Proof.
  intros Ht Htr. unfold support_request. apply (within_bind safe); [apply (within_lift safe)|]. intros [proof ob].
  apply (within_bind safe); [by apply complete_safe|]. intros [[device w] t0].
  apply (within_atomic safe); [apply atomic_transaction|]. intros g a g' H. inv_m.
  match goal with H : support_table _ = _ |- _ => apply support_table_Ok in H as [Hs ->] end.
  eapply safe_support; [done| |].
  - by eapply aliases_update.
  - apply kept_dset; [done|]. intros y Hy. by simplify_eq.
Qed.

(** ** Aliases for devices enrolled before *)

Lemma create_support_safe : safe_op create_support.
Proof.
  intros g r g' [= <- <-]. destruct (rg_support g) as [t|] eqn:Et; [done|]. intros Hw.
  pose proof Hw as [He Hc Ha [] []]. split.
  - split; try done; [|by split..]. intros t [= <-]. split; simpl; try done. constructor.
  - destruct (evolves_refl g). split; try done. cbn [set_support rg_support]. by rewrite Et.
Qed.

Lemma observe_safe device o g t : rg_support g = Some t → safe g (set_support (Some (observe device o t)) g).
Proof.
  intros Ht. apply (safe_support t); [done|..]; unfold observe; destruct (dget device t) as [row|] eqn:Ed; try done.
  - destruct (outdated row o); [|done]. by eapply aliases_update.
  - destruct (outdated row o); [|by apply kept_refl].
    apply kept_dset; [done|]. intros y Hy. by simplify_eq.
  - apply kept_refl. by intros [].
Qed.

Lemma registered_atomic device tries : atomic (registered device tries).
Proof.
  intros g e g'. unfold registered, select, mbind, M_bind. destruct (rg_support g) as [t|]; [|done].
  destruct (dget device t); [done|]. unfold demand, lift, require. destruct (dmem device (rg_devices g)); [|congruence].
  destruct (draw_support device 32 tries t) as [[s t']|]; [done|]. cbn [of_option]. congruence.
Qed.

Lemma registered_safe device tries : Forall (λ r, letters r = true) tries → safe_op (registered device tries).
Proof.
  intros Hl. apply (within_atomic safe); [apply registered_atomic|]. intros g o g' H%registered_Ok. by eapply names_device_safe.
Qed.

Lemma backfill_device_safe device tries : Forall (λ r, letters r = true) tries → safe_op (backfill_device device tries).
Proof.
  intros Hl. unfold backfill_device. apply (within_bind safe); [by apply registered_safe|]. intros _.
  apply (within_bind safe); [by apply (within_still safe)|]. intros r. apply (within_bind safe); [apply (within_lift safe)|].
  intros [o|]; [|by apply (within_still safe)]. intros g x g' [= <- <-]. destruct (rg_support g) as [t|] eqn:Et; [by apply observe_safe|done].
Qed.

(** What each device's turn keeps is kept by the whole backfill. *)
Lemma backfill_within (R : registry → registry → Prop) {PO : PreOrder R} (P : list pystr → Prop) draws :
  P [] → Forall P draws → within R create_support → (∀ d tries, P tries → within R (backfill_device d tries)) → within R (backfill draws).
Proof.
  intros H0 Hl Hc Hd. unfold backfill. apply (within_bind R).
  - apply (within_atomic R); [apply atomic_transaction|]. intros g a g' H%transaction_done.
    apply M_bind_Ok in H as (u & g1 & H1%Hc & H). etransitivity; [exact H1|]. clear H1.
    apply M_bind_Ok in H as (l & g2 & [_ ->]%select_Ok & H). revert draws Hl g1 H. induction l as [|d l IH];
      intros draws Hl g1 H; cbn [backfill_devices] in H; [by injection H as _ <-|].
    apply M_bind_Ok in H as (u2 & g3 & H1 & H). etransitivity; [eapply Hd, H1|].
    + destruct draws as [|r draws]; [done|]. by inversion Hl.
    + eapply (IH (tail draws)), H. destruct draws as [|r draws]; [constructor|]. by inversion Hl.
  - intros _. apply (within_atomic R); [apply atomic_transaction|]. intros g a g' H%transaction_done.
    apply M_bind_Ok in H as (t & g1 & [_ ->]%support_table_Ok & H). by inv_m.
Qed.

Lemma backfill_safe draws : Forall (Forall (λ r, letters r = true)) draws → safe_op (backfill draws).
Proof.
  intros Hl. apply (backfill_within safe (Forall (λ r, letters r = true))); [constructor|done|apply create_support_safe|].
  intros d tries. apply backfill_device_safe.
Qed.

(** ** Claims *)

Context (secret : bytes).

Lemma insert_claim_Ok request row g u g' : insert_claim request row g = (Ok u, g') →
  dget request (rg_claims g) = None ∧ (∀ q c, dget q (rg_claims g) = Some c → cm_invite c ≠ cm_invite row)
  ∧ g' = set_claims (dset request row (rg_claims g)) g.
Proof.
  unfold insert_claim. intros H. inv_m. bools. split_and!; [| |done].
  - destruct (dget request (rg_claims g)) eqn:Eg; [|done]. apply dget_elem in Eg.
    apply (existsb_false _ _ _ E) in Eg. simpl in Eg. sbools. done.
  - intros q c Hq%dget_elem. apply (existsb_false _ _ _ E) in Hq. simpl in Hq. by sbools.
Qed.

(** What a claim that was answered did. *)
Inductive claimed (code request : pystr) (now : Z) (g : registry) : bool → registry → Prop :=
  | claimed_before row grant : dget request (rg_claims g) = Some row → dget (cm_invite row) (rg_invites g) = Some grant →
      iv_revoked grant = false → claimed code request now g (negb (bool_decide (default [] (iv_device grant) = []))) g
  | claimed_now sponsor h : dget request (rg_claims g) = None → in_force (enrolled sponsor g) = true →
      zlen (rg_claims g) < LIMIT → zlen (recent_claims sponsor now (rg_claims g)) < DAILY →
      code_hash (PStr code) = Ok h → dget h (rg_invites g) = None →
      (∀ q c, dget q (rg_claims g) = Some c → cm_invite c ≠ h) →
      claimed code request now g false
        (set_claims (dset request (Claim sponsor h now) (rg_claims g))
          (set_invites (dset h (Invite None false) (rg_invites g)) g)).

(** The request of a claim: its link's name and sponsor, its own name and code. *)
Inductive claim_of (token request_id : pyval) (g : registry) : pystr → pystr → Prop :=
  | ClaimOf t th sponsor r request code : as_str token = Some t → hex_match 64 t = true → sha_text t = Ok th →
      dget th (rg_links g) = Some sponsor → as_str request_id = Some r → hex_match 32 r = true →
      referral_code secret r = Ok (request, code) → claim_of token request_id g request code.

Lemma claim_Ok token request_id now g code activated g' :
  claim secret token request_id now g = (Ok (code, activated), g') →
  ∃ request, claim_of token request_id g request code ∧ claimed code request now g activated g'.
Proof.
  unfold claim, active. intros H. inv_m.
  match goal with H : context [dget ?q (rg_claims g)] |- _ => destruct (dget q (rg_claims g)) as [row|] eqn:Eq end.
  - inv_m. simplify_eq/=. bools. eexists. split; [by econstructor|by econstructor].
  - inv_m. simplify_eq/=.
    match goal with H : insert_invite _ _ = _ |- _ => apply insert_invite_Ok in H as [Hn ->] end.
    match goal with H : insert_claim _ _ _ = _ |- _ => apply insert_claim_Ok in H as (_ & Hc & ->) end.
    bools. eexists. split; [by econstructor|]. simpl in *. by eapply claimed_now.
Qed.

(** A request that was claimed before. *)
Lemma claim_before token request_id now g request code row grant :
  claim_of token request_id g request code → dget request (rg_claims g) = Some row →
  dget (cm_invite row) (rg_invites g) = Some grant → iv_revoked grant = false →
  claim secret token request_id now g = (Ok (code, negb (bool_decide (default [] (iv_device grant) = []))), g).
Proof.
  intros [t th sponsor r q c Ht Hm Hs Hl Hr Hrm Hc] Hq Hg Hv.
  unfold claim, transaction, demand, mbind, M_bind, lift, select, require.
  rewrite Ht, Hr. cbn [of_option]. rewrite Hm, Hrm, Hs, Hc, Hl. cbn [of_option]. rewrite Hq, Hg. cbn [of_option]. by rewrite Hv.
Qed.

Lemma day_claims_new sponsor t request c l :
  dget request l = None → day_claims sponsor t (dset request c l) = day_claims sponsor t l ++ day_claims sponsor t [(request, c)].
Proof. intros Hn%dget_None. rewrite dset_new by done. unfold day_claims. by rewrite List.filter_app. Qed.

Lemma filter_zlen_le {A} (f h : A → bool) l : (∀ x, f x = true → h x = true) → zlen (List.filter f l) <= zlen (List.filter h l).
Proof.
  intros Hf. unfold zlen. induction l as [|x l IH]; [done|]. cbn [List.filter].
  destruct (f x) eqn:E; [rewrite (Hf _ E)|destruct (h x)]; simpl; lia.
Qed.

Lemma claimed_safe code request now g b g' : claimed code request now g b g' → safe g g'.
Proof.
  intros [|sponsor h Hq _ Hl Hd Hh Hn Hu]; [apply safe_refl|].
  eapply safe_trans; [by apply safe_invites|]. intros Hw. pose proof Hw as [He Hc Ha [? ? ? ? ? Hci] []].
  split; [|destruct (evolves_refl (set_invites (dset h (Invite None false) (rg_invites g)) g)); split; try done].
  - split; try done. split; simpl in *; try done.
    + by apply dset_NoDup.
    + rewrite dset_new by (by apply dget_None). unfold zlen in *. rewrite length_app. simpl. lia.
    + intros s t. rewrite day_claims_new by done. unfold zlen. rewrite length_app. unfold day_claims at 2. simpl.
      specialize (ca_daily s t). destruct (_ && _) eqn:E; simpl; [|unfold zlen in *; lia]. sbools. subst s.
      enough (zlen (day_claims sponsor t (rg_claims g)) <= zlen (recent_claims sponsor now (rg_claims g))); [unfold zlen in *; lia|].
      apply filter_zlen_le. intros x Hx. sbools. apply andb_true_iff. split; [by apply str_eqb_eq|]. apply Z.ltb_lt. lia.
    + intros q1 q2 c1 c2 [[-> ->]|[? G1]]%dget_dset_case [[-> ->]|[? G2]]%dget_dset_case Hx; try done; [..|eauto];
        [by destruct (Hu _ _ G2)|by destruct (Hu _ _ G1)].
    + intros q c [[-> ->]|[? G]]%dget_dset_case; [simpl; rewrite dget_dset_eq; eauto|]. by eapply Hci.
  - apply kept_dset; [done|]. intros y Hy. simpl in Hy. congruence.
Qed.

Lemma claim_atomic token request_id now : atomic (claim secret token request_id now).
Proof.
  unfold claim. apply atomic_bind_lift. intros ?. apply atomic_bind_demand. intros _. apply atomic_bind_lift. intros ?.
  apply atomic_bind_demand. intros _. apply atomic_bind_lift. intros ?. apply atomic_bind_lift. intros [? ?].
  apply atomic_transaction.
Qed.

Lemma claim_safe token request_id now : safe_op (claim secret token request_id now).
Proof.
  apply (within_atomic safe); [apply claim_atomic|]. intros g [code b] g' (request & _ & Hc)%claim_Ok. by eapply claimed_safe.
Qed.

(** ** Links *)

Lemma issue_safe proof now tcp tries :
  canonical_uuid tcp = true → Forall (λ r, letters r = true) tries → safe_op (issue float_repr secret proof now tcp tries).
Proof.
  intros Ht Htr. unfold issue. apply (within_bind safe); [by apply complete_safe|]. intros [[device w] t0].
  apply (within_bind safe); [apply (within_lift safe)|]. intros token. apply (within_bind safe); [apply (within_lift safe)|]. intros th.
  apply (within_atomic safe); [apply atomic_transaction|]. intros g a g' H. unfold active, link_sponsor in H. inv_m.
  case_match; [apply safe_refl|]. intros Hw. pose proof Hw as [_ _ _ [] _].
  apply safe_links; [by apply dset_NoDup| |done]. apply kept_dset; [done|]. intros y Hy%dget_elem.
  match goal with H : existsb _ _ = false |- _ => apply (existsb_false _ _ _ H) in Hy end. simpl in Hy. sbools. done.
Qed.
End Campaign.
