(* ===== verification/PaidOps.v ===== *)
(** The paid cohort's operations keep the registry's invariant: the cohort is
    bounded, a subscription is the replay of its device's events, and what was
    paid for is never taken back. *)
From Stdlib Require Import ZArith Lia.
From S2P Require Import Prelude PyData Json JsonText Rns Ack DeviceProof.
From S2P Require Import Registry Referrals PaidBeta TransportPolicy PaidEvents RegistrySpec FriendsInv FriendsOps.

Local Open Scope Z_scope.

Lemma instant_Ok v z : instant v = Ok z ↔ v = PInt z ∧ 0 <= z <= MAX_TIME.
Proof.
  unfold instant. split.
  - destruct (as_int v) as [x|] eqn:E; [|done]. destruct (in_range 0 MAX_TIME x) eqn:Er; [|done]. intros [= <-].
    destruct v; try done. injection E as ->. split; [done|]. by apply in_range_true.
  - intros [-> Hz]. cbn [as_int]. by rewrite (proj2 (in_range_true _ _ _)).
Qed.

(** The paid tables after a write. *)
Lemma subscriptions_set s l g : subscriptions_of (set_paid (Some (s, l)) g) = s.
Proof. done. Qed.
Lemma events_set s l g : events_of (set_paid (Some (s, l)) g) = l.
Proof. done. Qed.
Lemma set_paid_twice x y g : set_paid x (set_paid y g) = set_paid x g.
Proof. done. Qed.
Create HintDb paid discriminated.
#[export] Hint Rewrite subscriptions_set events_set set_paid_twice : paid.

(** ** Requests *)

(** The type of an event a request names. *)
Definition named_type (name : string) (r : paid_request) : bool := key_is_str (py name) (pr_type r).

Lemma check_request_times r u : check_request r = Ok u →
  is_in (pr_type r) EVENT_TYPES = true
  ∧ (named_type "payment" r = true → 0 <= int_or_0 (pr_start r) < int_or_0 (pr_until r) ∧ int_or_0 (pr_until r) <= MAX_TIME)
  ∧ (named_type "payment" r = false → named_type "grace" r = true → 0 <= int_or_0 (pr_grace r) <= MAX_TIME).
Proof.
  unfold check_request, named_type. intros H. repeat inv_ok1. split; [done|].
  destruct (key_is_str (py "payment") (pr_type r)).
  - repeat inv_ok1. repeat match goal with H : instant _ = Ok _ |- _ => apply instant_Ok in H as [-> ?] end.
    split; [|done]. intros _. cbn [int_or_0 as_int default from_option]. unfold int_or_0. simpl. bools. lia.
  - split; [done|]. intros _ Hg. rewrite Hg in H. repeat inv_ok1.
    match goal with H : instant _ = Ok _ |- _ => apply instant_Ok in H as [-> ?] end. done.
Qed.

(** ** Terms *)

Lemma next_terms_Ok r previous state start until grace :
  next_terms r previous = Ok (state, start, until, grace) →
  match previous with
  | Some p => sb_period_start p <= start ∧ entitlement p <= Z.max until (default 0 grace)
  | None => named_type "payment" r = true
  end
  ∧ (named_type "payment" r = true ∧ state = py "active" ∧ start = int_or_0 (pr_start r) ∧ until = int_or_0 (pr_until r) ∧ grace = None
     ∨ named_type "payment" r = false ∧ ∃ p, previous = Some p ∧ start = sb_period_start p ∧ until = sb_paid_until p
       ∧ (named_type "grace" r = true ∧ state = py "grace" ∧ grace = Some (int_or_0 (pr_grace r))
          ∨ named_type "grace" r = false ∧ grace = sb_grace_until p
            ∧ state = if named_type "revoke" r then py "revoked" else py "expired")).
Proof.
  unfold next_terms, named_type. destruct (key_is_str (py "payment") (pr_type r)) eqn:Ep.
  - intros H. repeat inv_ok1. simplify_eq. split; [|by left]. destruct previous as [p|]; [|done]. bools. simpl. lia.
  - intros H. repeat inv_ok1. subst previous. destruct (key_is_str (py "grace") (pr_type r)) eqn:Eg.
    + repeat inv_ok1. simplify_eq. bools. split; [simpl; lia|]. right. split; [done|]. eexists. split_and!; try done. by left.
    + repeat inv_ok1. simplify_eq. split; [unfold entitlement; simpl; lia|]. right. split; [done|]. eexists. split_and!; try done. by right.
Qed.

Section Paid.
Context {RN : Rns} (float_repr : spec_float → pystr).

(** ** What a new event does *)

(** The subscription an event leaves. *)
Definition next_row (previous : option subscription_row) (id : pystr) (e : event_row) : subscription_row :=
  Sub (er_state e) (er_period_start e) (er_paid_until e) (er_grace_until e)
    (match previous with Some p => sb_created_at p | None => er_applied_at e end) (er_applied_at e)
    (match previous with Some p => sb_version p + 1 | None => 1 end) id
    (if str_eqb (er_state e) (py "revoked") then Some (er_applied_at e) else None).

Inductive applied_now (r : paid_request) (device reference_hash payload : pystr) (now : Z) (g : registry) (e : event_row) : registry → Prop :=
  | AppliedNow effective state start until grace :
      let id := str_or_empty (pr_id r) in
      let previous := dget device (subscriptions_of g) in
      effective_state g device now = Ok effective →
      (∀ s, effective = Some s → st_state s ≠ py "revoked") →
      next_terms r previous = Ok (state, start, until, grace) →
      (previous = None → zlen (subscriptions_of g) < COHORT_LIMIT) →
      (∀ p, previous = Some p → sb_state p ≠ py "revoked") →
      dget id (events_of g) = None → is_Some (dget device (rg_devices g)) →
      e = EventRow device (str_or_empty (pr_type r)) now (st_state <$> effective) state start until grace reference_hash payload now →
      subscription_checks (next_row previous id e) = true →
      applied_now r device reference_hash payload now g e
        (set_paid (Some (dset device (next_row previous id e) (subscriptions_of g), dset id e (events_of g))) g).

Lemma insert_event_Ok id e g u g' : insert_event id e g = (Ok u, g') →
  dget id (events_of g) = None ∧ is_Some (dget (er_device e) (rg_devices g))
  ∧ g' = set_paid (Some (subscriptions_of g, dset id e (events_of g))) g.
Proof.
  unfold insert_event. intros H. inv_m. simplify_eq. bools. split_and!; [by apply dmem_none| |done].
  match goal with H : dmem _ (rg_devices g) = true |- _ => unfold dmem in H; by apply bool_decide_eq_true in H end.
Qed.

Lemma upsert_subscription_Ok device id e g u g' :
  upsert_subscription device (next_row None id e) g = (Ok u, g') →
  let previous := dget device (subscriptions_of g) in
  subscription_checks (next_row previous id e) = true ∧ (∀ p, previous = Some p → sb_state p ≠ py "revoked")
  ∧ g' = set_paid (Some (dset device (next_row previous id e) (subscriptions_of g), events_of g)) g.
Proof.
  unfold upsert_subscription. intros H. inv_m. simplify_eq.
  match goal with H : match dget device (subscriptions_of g) with _ => _ end = true |- _ => rename H into Hrev end.
  destruct (dget device (subscriptions_of g)) as [old|]; (split; [done|split; [|done]]); [|done].
  intros p [= ->]. by sbools.
Qed.

Lemma check_identity_still r device g u g' : check_identity r device g = (Ok u, g') → g' = g ∧ activation_active device = true.
Proof. unfold check_identity. intros H. inv_m. case_match; by inv_m. Qed.

(** The guards of [apply_new] read and do not write. *)
Lemma identity_guard_still (b : bool) r device g u g' :
  (if b then check_identity r device else mret ()) g = (Ok u, g') → g' = g.
Proof. destruct b; [by intros [-> _]%check_identity_still|intros H; by inv_m]. Qed.

Lemma fence_guard_still {A B} (o : option A) (e : option B) (m : registry → result ()) g u g' :
  (match o, e with None, Some _ => fence ← select m; lift fence | _, _ => mret () end) g = (Ok u, g') → g' = g.
Proof. destruct o, e; intros H; by inv_m. Qed.

Lemma apply_new_Ok f r device reference_hash payload now g a g' :
  apply_new f r device reference_hash payload now g = (Ok a, g') →
  ap_duplicate a = false ∧ ap_id a = str_or_empty (pr_id r)
  ∧ applied_now r (rs_device device) reference_hash payload now g (ap_event a) g'.
Proof.
  unfold apply_new. intros H. inv_m.
  match goal with H : (if _ then check_identity _ _ else _) _ = _ |- _ => apply identity_guard_still in H as -> end.
  match goal with H : match dget _ _ with _ => _ end g = _ |- _ => apply fence_guard_still in H as -> end.
  match goal with H : insert_event _ _ _ = _ |- _ => apply insert_event_Ok in H as (Hid & Hdev & ->) end.
  match goal with H : upsert_subscription _ _ (set_paid (Some (_, dset ?id ?e _)) _) = _ |- _ =>
    apply (upsert_subscription_Ok _ id e) in H as (Hck & Hrev & ->) end.
  autorewrite with paid in *. simpl in *. split; [done|]. split; [done|]. eapply AppliedNow; try done.
  - intros s ->. by sbools.
  - intros Hn. rewrite Hn in *.
    match goal with H : _ || (zlen _ <? _) = true |- _ => apply orb_true_iff in H as [Hsz|Hsz] end; [|by bools].
    by apply bool_decide_eq_true in Hsz as [? ?].
Qed.

(** ** Safety *)

Lemma events_for_new device id e l : dget id l = None →
  events_for device (dset id e l) = events_for device l ++ if str_eqb (er_device e) device then [(id, e)] else [].
Proof. intros Hn%dget_None. rewrite dset_new by done. unfold events_for. rewrite List.filter_app. simpl. by destruct (str_eqb _ _). Qed.

Lemma replay_new device id e l : dget id l = None →
  replay device (dset id e l) =
  if str_eqb (er_device e) device then Some (next_row (replay device l) id e) else replay device l.
Proof.
  intros Hn. unfold replay. rewrite events_for_new by done. rewrite foldl_app. by destruct (str_eqb _ _).
Qed.

Lemma next_row_kept r p state start until grace id e :
  next_terms r (Some p) = Ok (state, start, until, grace) → sb_state p ≠ py "revoked" →
  er_period_start e = start → er_paid_until e = until → er_grace_until e = grace →
  sub_kept p (next_row (Some p) id e).
Proof.
  intros [[Hs He] _]%next_terms_Ok Hp <- <- <-. right. unfold entitlement in *. simpl. split_and!; [lia|done|lia|lia].
Qed.

Lemma applied_safe r u device rh payload now g e g' :
  check_request r = Ok u → applied_now r device rh payload now g e g' → safe g g'.
Proof.
  intros (_ & Hpay & Hgr)%check_request_times [eff state start until grace id previous _ _ Ht Hsize Hrev Hid Hdev He Hck] Hw.
  pose proof Hw as [? ? Ha [] [Pk Pl Pe Pc Pt Ps Pd Pr]].
  assert (replay device (events_of g) = previous) as Hprev by (by rewrite <- Pr).
  split.
  - split; try done; [by split..|]. split; autorewrite with paid; try (by apply dset_NoDup).
    + unfold zlen in *. rewrite length_dset. case_decide as Hin; [done|]. apply dget_None in Hin. specialize (Hsize Hin). lia.
    + intros d s [[-> ->]|[? G]]%dget_dset_case; [done|by eapply Pc].
    + intros d s [[-> ->]|[? G]]%dget_dset_case; [|by eapply Pt].
      destruct (next_terms_Ok _ _ _ _ _ _ Ht) as [_ [(Hp & _ & -> & -> & ->)|(Hp & p & Hg & -> & -> & Hcase)]]; subst e; simpl.
      * specialize (Hpay Hp). split; [lia|done].
      * destruct (Pt _ _ Hg) as [T1 T2]. split; [done|]. destruct Hcase as [(Hgrace & _ & ->)|(_ & -> & _)]; [|done].
        intros z [= <-]. specialize (Hgr Hp Hgrace). lia.
    + intros d s [[-> ->]|[? G]]%dget_dset_case; [|by eapply Ps].
      destruct (next_terms_Ok _ _ _ _ _ _ Ht) as [_ [(_ & -> & _ & _ & ->)|(_ & p & _ & _ & _ & [(_ & -> & ->)|(_ & -> & ->)])]]; subst e;
        unfold terms_ok; simpl; eauto. destruct (named_type "revoke" r); eauto.
    + intros d s [[-> ->]|[? G]]%dget_dset_case; [done|by eapply Pd].
    + intros d. rewrite dget_dset, replay_new by done. subst e. simpl.
      case_decide as Hd; [subst d; by rewrite (proj2 (str_eqb_eq _ _) eq_refl), Hprev|].
      rewrite (proj2 (str_eqb_neq _ _)) by done. apply Pr.
  - destruct (evolves_refl g). split; autorewrite with paid; try done.
    + apply kept_dset; [apply sub_kept_refl|]. intros p Hp. unfold previous in *. rewrite Hp in *.
      eapply next_row_kept; [done|by apply Hrev|by subst e..].
    + rewrite dset_new by (by apply dget_None). eauto.
Qed.

(** What [apply_event] does when it returns. *)
Lemma apply_event_Ok f support r now g a g' :
  apply_event float_repr f support r now g = (Ok a, g') →
  ∃ u device rh payload, schema_present g = true ∧ check_request r = Ok u ∧ 0 <= now <= MAX_TIME
    ∧ resolve_device g support = Ok device ∧ event_hashes float_repr r (rs_device device) = Ok (rh, payload)
    ∧ ap_id a = str_or_empty (pr_id r)
    ∧ ((ap_duplicate a = true ∧ dget (ap_id a) (events_of g) = Some (ap_event a) ∧ er_payload (ap_event a) = payload ∧ g' = g)
       ∨ (ap_duplicate a = false ∧ applied_now r (rs_device device) rh payload now g (ap_event a) g')).
Proof.
  unfold apply_event. intros H. inv_m.
  match goal with H : instant _ = Ok _ |- _ => apply instant_Ok in H as [Hnow ?]; injection Hnow as <- end.
  eexists _, _, _, _. split_and!; try done; try lia.
  - match goal with H : context [match dget ?i (events_of g) with _ => _ end] |- _ => destruct (dget i (events_of g)) eqn:Eid end;
      [by inv_m|by apply apply_new_Ok in H as (_ & ? & _)].
  - match goal with H : context [match dget ?i (events_of g) with _ => _ end] |- _ => destruct (dget i (events_of g)) eqn:Eid end.
    + inv_m. sbools. by left.
    + apply apply_new_Ok in H as (? & ? & ?). by right.
Qed.

Lemma apply_event_safe f support r now : safe_op (apply_event float_repr f support r now).
Proof.
  apply (within_atomic safe); [apply atomic_transaction|].
  intros g a g' (u & d & rh & p & _ & Hc & _ & _ & _ & _ & [(_ & _ & _ & ->)|[_ Ha]])%apply_event_Ok; [apply safe_refl|].
  by eapply applied_safe.
Qed.

Lemma migrate_safe : safe_op migrate.
Proof.
  intros g r g' [= <- <-] Hw. destruct (rg_paid g) as [p|] eqn:E; [split; [done|apply evolves_refl]|].
  assert (subscriptions_of g = []) as Hs by (unfold subscriptions_of; by rewrite E).
  assert (events_of g = []) as He by (unfold events_of; by rewrite E).
  pose proof Hw as [? ? ? [] [Pk Pl Pe Pc Pt Ps Pd Pr]]. split.
  - split; try done; [by split..|]. split; autorewrite with paid; try rewrite Hs in *; try rewrite He in *; try done.
  - destruct (evolves_refl g). split; autorewrite with paid; try rewrite Hs in *; try rewrite He in *; try done.
Qed.
End Paid.
