(* ===== verification/FriendsRuns.v ===== *)
(** Runs of the whole Friends registry: every sequence of operations, by any
    clients and operators, from an empty registry. *)
From Stdlib Require Import ZArith Lia.
From S2P Require Import Prelude PyData Json JsonText Rns Ack DeviceProof.
From S2P Require Import Registry Referrals PaidBeta Support TransportPolicy PaidEvents RegistrySpec FriendsInv.
From S2P Require Import FriendsOps PaidOps.

Local Open Scope Z_scope.

(** ** Operations *)

(** The calls of access.py, support_ids.py, referrals.py, paid_beta.py and
    subscription.py, with the clock readings and random values each draws; and
    the writes of the services that own the readiness and grant tables. *)
Inductive friends_op :=
  | OpInvite (raw : bytes)
  | OpRevoke (device : pyval)
  | OpChallenge (public wg purpose invitation : pyval) (now : Z) (token : bytes)
  | OpComplete (proof : pyval) (purpose : pystr) (now : Z) (tcp : pystr) (tries : list pystr)
  | OpStatus (proof : pyval) (now : Z)
  | OpSupport (value : pyval) (now later : Z) (tcp : pystr) (tries : list pystr)
  | OpIssue (proof : pyval) (now : Z) (tcp : pystr) (tries : list pystr)
  | OpClaim (token request : pyval) (now : Z)
  | OpBackfill (draws : list (list pystr))
  | OpMigrate
  | OpPaid (f : fences) (support : pyval) (r : paid_request) (now : Z)
  | OpSubscription (proof : pyval) (now : Z)
  | OpOthers (readiness : option (list readiness_row)) (grants : option (list (pystr * grant_row))).

(** What [uuid4] and [secrets.choice(ALPHABET)] return. *)
Definition draws_ok (op : friends_op) : Prop :=
  match op with
  | OpComplete _ _ _ tcp tries | OpSupport _ _ _ tcp tries | OpIssue _ _ tcp tries =>
      canonical_uuid tcp = true ∧ Forall (λ r, letters r = true) tries
  | OpBackfill draws => Forall (Forall (λ r, letters r = true)) draws
  | _ => True
  end.

Section Runs.
Context {RN : Rns} {RNL : RnsLaws} {RNO : RnsOctets} (float_repr : spec_float → pystr) (secret : bytes).

Definition discard {A} (m : M registry A) : M registry () := m;; mret ().

Definition perform (op : friends_op) : M registry () :=
  match op with
  | OpInvite raw => discard (invite raw)
  | OpRevoke device => discard (revoke_device device)
  | OpChallenge public wg purpose invitation now token => discard (challenge public wg purpose invitation now token)
  | OpComplete proof purpose now tcp tries => discard (complete float_repr proof purpose now tcp tries)
  | OpStatus proof now => discard (enrollment_status float_repr proof now)
  | OpSupport value now later tcp tries => discard (support_request float_repr value now later tcp tries)
  | OpIssue proof now tcp tries => discard (issue float_repr secret proof now tcp tries)
  | OpClaim token request now => discard (claim secret token request now)
  | OpBackfill draws => discard (backfill draws)
  | OpMigrate => migrate
  | OpPaid f support r now => discard (apply_event float_repr f support r now)
  | OpSubscription proof now => discard (subscription_request float_repr proof now)
  | OpOthers readiness grants => modify (λ g,
      Registry (rg_invites g) (rg_devices g) (rg_challenges g) (rg_support g) (rg_links g) (rg_claims g) readiness grants (rg_paid g))
  end.

(** Each call leaves what it has committed, also when it raises. *)
Definition run_op (g : registry) (op : friends_op) : registry := (perform op g).2.
Definition run_ops (ops : list friends_op) (g : registry) : registry := foldl run_op g ops.

(** ** Every run is safe *)

Lemma within_discard (R : registry → registry → Prop) {PO : PreOrder R} {A} (m : M registry A) :
  within R m → within R (discard m).
Proof. intros Hm. apply (within_bind R); [done|]. intros a. by apply (within_still R). Qed.

Lemma subscription_proof_Ok proof device cl nonce : subscription_proof float_repr proof = Ok (device, cl, nonce) →
  proof_challenge proof = Ok (PStr (cl_challenge cl)) ∧ verify_proof float_repr proof (PStr (cl_challenge cl)) ENROLLMENT = Ok (device, cl) ∧ sha_text (cl_challenge cl) = Ok nonce.
Proof.
  unfold subscription_proof, try_with. case_match eqn:Em; [|by case_match]. intros [= ->]. repeat inv_ok1.
  destruct a0 as [device' cl']. repeat inv_ok1. simplify_eq.
  match goal with H : verify_proof _ _ _ _ = Ok _ |- _ => by destruct (verify_proof_Ok _ _ _ _ _ _ H) as [-> _] end.
Qed.

(** A view of a subscription changes nothing but the challenge it spends. *)
Definition spends_challenge (purpose : pystr) (now : Z) (g g' : registry) : Prop :=
  ∃ cl nonce c device, dget nonce (rg_challenges g) = Some c ∧ answers (Some c) purpose device cl now = Ok c ∧ g' = spend nonce c g.

Lemma spend_view_Ok device cl nonce now g v g' : spend_view device cl nonce now g = (Ok v, g') →
  ∃ c, dget nonce (rg_challenges g) = Some c ∧ answers (Some c) (py "subscription") device cl now = Ok c
    ∧ in_force (enrolled device g) = true ∧ g' = spend nonce c g ∧ v = subscription_snapshot g' device now.
Proof.
  unfold spend_view. intros H. inv_m. match goal with H : answers _ _ _ _ _ = Ok _ |- _ => rename H into Ha end.
  destruct (answers_Ok _ _ _ _ _ _ Ha) as (Hlive & _). rewrite Hlive in Ha.
  match goal with H : use_challenge _ _ _ = _ |- _ => unfold use_challenge in H; apply modify_Ok in H as -> end. eauto 8.
Qed.

Lemma subscription_request_spends proof now g r g' : subscription_request float_repr proof now g = (r, g') →
  g' = g ∨ spends_challenge (py "subscription") now g g'.
Proof.
  unfold subscription_request, mbind, M_bind, lift. destruct (subscription_proof float_repr proof) as [[[device cl] nonce]|e]; [|intros [= <- <-]; by left].
  destruct (spend_view device cl nonce now g) as [[v|e] g1] eqn:E; intros [= <- <-].
  - apply spend_view_Ok in E as (c & Hc & Ha & _ & -> & _). right. by exists cl, nonce, c, device.
  - left. by apply transaction_raise in E.
Qed.

Lemma perform_safe op : draws_ok op → safe_op (perform op).
Proof.
  destruct op; simpl; intros Hd; try (apply (within_discard safe)).
  - apply invite_safe.
  - apply revoke_device_safe.
  - apply challenge_safe.
  - destruct Hd. by apply complete_safe.
  - apply enrollment_status_safe.
  - destruct Hd. by apply support_request_safe.
  - destruct Hd. by apply issue_safe.
  - apply claim_safe.
  - by apply backfill_safe.
  - apply migrate_safe.
  - apply apply_event_safe.
  - intros g r g' [->|(? & ? & ? & ? & _ & _ & ->)]%subscription_request_spends; [done|apply spend_safe].
  - intros g r g' [= <- <-] [? ? ? [] []]. split; [|destruct (evolves_refl g); by split]. by split.
Qed.

Lemma run_ops_safe ops g : Forall draws_ok ops → safe g (run_ops ops g).
Proof.
  intros Hd. revert g. induction Hd as [|op ops Hop Hops IH]; intros g; [done|].
  etransitivity; [|apply IH]. eapply (perform_safe op); [done|]. unfold run_op. apply surjective_pairing.
Qed.

Lemma run_ops_app ops1 ops2 g : run_ops (ops1 ++ ops2) g = run_ops ops2 (run_ops ops1 g).
Proof. apply foldl_app. Qed.

Lemma registry_reachable_wf ops : Forall draws_ok ops → friends_wf (run_ops ops new_registry).
Proof. intros Hd. by destruct (run_ops_safe ops new_registry Hd new_registry_wf). Qed.
End Runs.
