(* ===== verification/FriendsSafety.v ===== *)
(** The Friends registry over all its runs: one invitation activates one device
    for good, a challenge is answered once, an answer is authentic, and the
    referral campaign stays within its pool. *)
From Stdlib Require Import ZArith Lia.
From S2P Require Import Prelude PyData Json JsonText Rns Ack DeviceProof.
From S2P Require Import Registry Referrals PaidBeta Support TransportPolicy PaidEvents RegistrySpec FriendsInv.
From S2P Require Import FriendsOps PaidOps FriendsRuns.

Local Open Scope Z_scope.

Section Safety.
Context {RN : Rns} {RNL : RnsLaws} {RNO : RnsOctets} (float_repr : spec_float → pystr) (secret : bytes).

Local Abbreviation run_ops := (run_ops float_repr secret).
Local Abbreviation run_op := (run_op float_repr secret).
Local Abbreviation perform := (perform float_repr secret).

Lemma runs_evolve ops1 ops2 : Forall draws_ok ops1 → Forall draws_ok ops2 →
  let g1 := run_ops ops1 new_registry in let g2 := run_ops ops2 g1 in friends_wf g1 ∧ friends_wf g2 ∧ evolves g1 g2.
Proof.
  intros H1 H2 g1 g2. assert (friends_wf g1) as Hw by (by apply registry_reachable_wf). split; [done|]. exact (run_ops_safe _ _ ops2 g1 H2 Hw).
Qed.

(** ** Enrolment *)

(** C9: In every run of the registry, by any clients and operators, a device is
    enrolled exactly when an invitation names it, that invitation is the only
    one, and no two devices share a signing key, a WireGuard key or a TCP
    identity; and whatever happens later a device keeps its keys, an
    invitation keeps its device, and a revocation is never undone. *)
Theorem one_invite_one_device ops1 ops2 :
  Forall draws_ok ops1 → Forall draws_ok ops2 →
  let g1 := run_ops ops1 new_registry in let g2 := run_ops ops2 g1 in
  (∀ d, is_Some (dget d (rg_devices g2)) ↔ ∃ h i, dget h (rg_invites g2) = Some i ∧ iv_device i = Some d)
  ∧ (∀ h1 h2 i1 i2 d, dget h1 (rg_invites g2) = Some i1 → dget h2 (rg_invites g2) = Some i2 →
       iv_device i1 = Some d → iv_device i2 = Some d → h1 = h2)
  ∧ (∀ d1 d2 r1 r2, dget d1 (rg_devices g2) = Some r1 → dget d2 (rg_devices g2) = Some r2 →
       dv_public r1 = dv_public r2 ∨ dv_wg r1 = dv_wg r2 ∨ dv_tcp r1 = dv_tcp r2 → d1 = d2)
  ∧ kept device_kept (rg_devices g1) (rg_devices g2) ∧ kept invite_kept (rg_invites g1) (rg_invites g2).
Proof.
  intros H1 H2 g1 g2. destruct (runs_evolve _ _ H1 H2) as (_ & [[] _ _ _ _] & []).
  split_and!; try done. intros d. split; [intros [r Hr]; eauto|]. intros (h & i & Hh & Hi). eauto.
Qed.

(** C31: A completed challenge is authentic: the proof carries a signature, by
    the very key the device name is the hash of, over a binding that names this
    challenge, and the registry issued that challenge for the proved keys and
    this purpose and it had neither been used nor expired; the device is
    enrolled under the proved keys and not revoked.  A device it enrols was
    unknown, and its invitation open. *)
Theorem completion_authentic proof purpose now tcp tries g device wg tcp' g' :
  complete float_repr proof purpose now tcp tries g = (Ok (device, wg, tcp'), g') →
  ∃ cl key wg_key nonce_key signature message nonce c row,
    claims_wf cl key wg_key nonce_key ∧ device = tohex (identity_hash key)
    ∧ binding_message float_repr cl = Ok message ∧ validate key signature message = true ∧ cl_audience cl = ENROLLMENT
    ∧ sha_text (cl_challenge cl) = Ok nonce ∧ dget nonce (rg_challenges g) = Some c
    ∧ cr_used c = false ∧ now < cr_expires c ∧ cr_purpose c = purpose ∧ cr_device c = device
    ∧ cr_public c = cl_public cl ∧ cr_wg c = cl_wg cl
    ∧ dget nonce (rg_challenges g') = Some (used_challenge c)
    ∧ dget device (rg_devices g') = Some row ∧ row = Device (cl_public cl) wg tcp' false ∧ wg = cl_wg cl
    ∧ (dget device (rg_devices g) = Some row
       ∨ dget device (rg_devices g) = None ∧ purpose = py "activate" ∧ tcp' = tcp
         ∧ ∃ h, cr_invite c = Some h ∧ dget h (rg_invites g) = Some (Invite None false)
                ∧ dget h (rg_invites g') = Some (Invite (Some device) false)).
Proof.
  intros ([pub wg0 tcp0 rev] & -> & -> & [cl nonce c g1 _ Hv Hs Hg Ha He Hr Hk Hn _])%complete_Ok.
  destruct (verify_proof_Ok _ _ _ _ _ _ Hv) as [_ [key w h sg m Hwf Hd Hb Hval Haud]].
  destruct (answers_Ok _ _ _ _ _ _ Ha) as (_ & Hused & Hexp & Hpur & Hdev & Hpub & Hwg).
  simpl in *. destruct Hk as (-> & -> & ->).
  exists cl, key, w, h, sg, m, nonce, c, (Device (cl_public cl) (cl_wg cl) tcp0 false).
  split_and!; try done.
  - by destruct Hn, He; simpl; rewrite dget_dset_eq.
  - by destruct Hn.
  - destruct He as [r' Hold|inv Hnone Hact Hinv Hopen Hcl]; [left; congruence|right].
    simpl in Hr. rewrite dget_dset_eq in Hr. simplify_eq. split_and!; try done.
    exists inv. split_and!; try done. by destruct Hn; simpl; rewrite dget_dset_eq.
Qed.

(** ** Single use *)

(** A challenge that is gone or used, and stays so until it is issued again. *)
Definition spent (nonce : pystr) (g : registry) : Prop := ∀ c, (nonce, c) ∈ rg_challenges g → cr_used c = true.
Definition keeps_spent (nonce : pystr) (g g' : registry) : Prop := spent nonce g → spent nonce g'.

Lemma keeps_spent_refl n g : keeps_spent n g g.
Proof. by intros ?. Qed.
#[local] Instance keeps_spent_preorder nonce : PreOrder (keeps_spent nonce).
Proof. split; [intros ?; apply keeps_spent_refl|]. intros g1 g2 g3 H1 H2 Hs. apply H2, H1, Hs. Qed.

Lemma keeps_same n g g' : rg_challenges g' = rg_challenges g → keeps_spent n g g'.
Proof. intros E Hs c. rewrite E. apply Hs. Qed.

Lemma keeps_spend n nonce c g : keeps_spent n g (spend nonce c g).
Proof. intros Hs c' [[= -> ->]|Hg]%dset_elem; [done|by apply Hs]. Qed.

(** The name a challenge operation issues under. *)
Definition issued (op : friends_op) : option pystr :=
  match op with
  | OpChallenge _ _ _ _ _ token => match sha_text (b64encode token) with Ok h => Some h | Raise _ => None end
  | _ => None
  end.

Lemma completed_keeps n proof purpose now tcp tries device row g g' :
  completed_challenge float_repr proof purpose now tcp tries device row g g' → keeps_spent n g g'.
Proof.
  intros [cl nonce c g1 _ _ _ _ _ He _ _ Hn _]. transitivity g1; [apply keeps_same; by destruct He|].
  transitivity (spend nonce c g1); [apply keeps_spend|]. apply keeps_same. by destruct Hn.
Qed.

Lemma complete_keeps n proof purpose now tcp tries : within (keeps_spent n) (complete float_repr proof purpose now tcp tries).
Proof.
  apply (within_atomic (keeps_spent n)); [apply complete_atomic|].
  intros g [[d w] t] g' (row & _ & _ & Hc)%complete_Ok. by eapply completed_keeps.
Qed.

Lemma challenge_keeps n public wg purpose invitation now token :
  issued (OpChallenge public wg purpose invitation now token) ≠ Some n →
  within (keeps_spent n) (challenge public wg purpose invitation now token).
Proof.
  intros Hi. apply (within_atomic (keeps_spent n)).
  - apply atomic_bind_demand. intros _. apply atomic_bind_lift. intros ?. apply atomic_transaction.
  - intros g [nonce e] g' (device & h & inv & _ & Hh & -> & _ & _ & _ & ->)%challenge_Ok Hs c. simpl in Hi. rewrite Hh in Hi.
    intros [[= -> _]|[_ Hg]%list_elem_of_filter]%dset_elem; [done|by apply Hs].
Qed.

Lemma backfill_device_keeps n d tries : within (keeps_spent n) (backfill_device d tries).
Proof.
  unfold backfill_device. apply (within_bind (keeps_spent n)).
  - apply (within_atomic (keeps_spent n)); [apply registered_atomic|]. intros g o g' H%registered_Ok. apply keeps_same. by destruct H.
  - intros _. apply (within_bind (keeps_spent n)); [by apply (within_still (keeps_spent n))|]. intros r.
    apply (within_bind (keeps_spent n)); [apply (within_lift (keeps_spent n))|].
    intros [o|]; [|by apply (within_still (keeps_spent n))]. intros g x g' [= <- <-]. apply keeps_same. by destruct (rg_support g).
Qed.

(** An operation that does not issue a challenge leaves it spent. *)
Lemma op_keeps n op : issued op ≠ Some n → within (keeps_spent n) (perform op).
Proof.
  destruct op; intros Hi; cbn [FriendsRuns.perform]; try (apply (within_discard (keeps_spent n))).
  - apply (within_atomic (keeps_spent n)); [apply (atomic_bind_ret _ (λ _, _)), atomic_transaction|].
    unfold invite. intros g a g' H. inv_m.
    match goal with H : insert_invite _ _ = _ |- _ => apply insert_invite_Ok in H as [_ ->] end. by apply keeps_same.
  - apply (within_atomic (keeps_spent n)); [apply atomic_bind_demand; intros ?; apply atomic_transaction|].
    unfold revoke_device. intros g a g' H. inv_m. by apply keeps_same.
  - by apply challenge_keeps.
  - apply complete_keeps.
  - apply (within_atomic (keeps_spent n)); [apply enrollment_status_atomic|].
    intros g s g' (cl & nonce & c & _ & _ & _ & _ & ->)%enrollment_status_Ok. apply keeps_spend.
  - unfold support_request. apply (within_bind (keeps_spent n)); [apply (within_lift (keeps_spent n))|]. intros [proof ob].
    apply (within_bind (keeps_spent n)); [apply complete_keeps|]. intros [[device w] t0].
    apply (within_atomic (keeps_spent n)); [apply atomic_transaction|]. intros g a g' H. inv_m.
    match goal with H : support_table _ = _ |- _ => apply support_table_Ok in H as [Hs ->] end. by apply keeps_same.
  - unfold issue. apply (within_bind (keeps_spent n)); [apply complete_keeps|]. intros [[device w] t0].
    apply (within_bind (keeps_spent n)); [apply (within_lift (keeps_spent n))|]. intros token.
    apply (within_bind (keeps_spent n)); [apply (within_lift (keeps_spent n))|]. intros th.
    apply (within_atomic (keeps_spent n)); [apply atomic_transaction|]. intros g a g' H. unfold active, link_sponsor in H. inv_m.
    case_match; by apply keeps_same.
  - apply (within_atomic (keeps_spent n)); [apply claim_atomic|]. intros g [code b] g' (q & _ & Hc)%claim_Ok.
    destruct Hc; by apply keeps_same.
  - apply (backfill_within (keeps_spent n) (λ _, True)); [done|by apply Forall_forall| |].
    + intros g r g' [= <- <-]. apply keeps_same. by destruct (rg_support g).
    + intros d tries _. apply backfill_device_keeps.
  - intros g r g' [= <- <-]. apply keeps_same. by destruct (rg_paid g).
  - apply (within_atomic (keeps_spent n)); [apply atomic_transaction|].
    intros g a g' (u & d & rh & p & _ & _ & _ & _ & _ & _ & [(_ & _ & _ & ->)|[_ Ha]])%apply_event_Ok; [done|].
    destruct Ha. by apply keeps_same.
  - intros g r g' [->|(? & ? & ? & ? & _ & _ & ->)]%subscription_request_spends; [done|apply keeps_spend].
  - intros g r g' [= <- <-]. by apply keeps_same.
Qed.

Lemma run_keeps n ops g : Forall (λ op, issued op ≠ Some n) ops → keeps_spent n g (run_ops ops g).
Proof.
  intros Hd. revert g. induction Hd as [|op ops Hop Hops IH]; intros g; [done|].
  etransitivity; [|apply IH]. eapply (op_keeps n op Hop). apply surjective_pairing.
Qed.

Lemma spent_answers n g purpose device cl now : spent n g →
  answers (dget n (rg_challenges g)) purpose device cl now = Raise Rejected.
Proof.
  intros Hs. unfold answers. destruct (dget n (rg_challenges g)) as [c|] eqn:E; [|done].
  apply dget_elem, Hs in E. simpl. by rewrite E.
Qed.

(** What a proof's challenge is stored under. *)
Definition proof_nonce (proof : pyval) : option pystr :=
  match proof_challenge proof with
  | Ok (PStr s) => match sha_text s with Ok n => Some n | Raise _ => None end
  | _ => None
  end.

(** Neither a completion, nor a status, nor a subscription view is answered. *)
Definition no_answer (proof : pyval) (g : registry) : Prop :=
  (∀ purpose now tcp tries, ∃ e, complete float_repr proof purpose now tcp tries g = (Raise e, g))
  ∧ (∀ now, ∃ e, enrollment_status float_repr proof now g = (Raise e, g))
  ∧ ∀ now, ∃ e, subscription_request float_repr proof now g = (Raise e, g).

Lemma proof_nonce_is proof cl nonce : proof_challenge proof = Ok (PStr (cl_challenge cl)) → sha_text (cl_challenge cl) = Ok nonce →
  proof_nonce proof = Some nonce.
Proof. intros Hc Hs. unfold proof_nonce. by rewrite Hc, Hs. Qed.

Lemma spent_no_answer proof n g : proof_nonce proof = Some n → spent n g → no_answer proof g.
Proof.
  intros Hn Hs. split_and!.
  - intros purpose now tcp tries. destruct (complete _ _ _ _ _ _ g) as [[[[d w] t]|e] g'] eqn:E.
    + unfold complete in E. inv_m.
      match goal with H : verify_proof _ _ _ _ = Ok _ |- _ => apply verify_proof_Ok in H as [-> _] end.
      erewrite proof_nonce_is in Hn by done. simplify_eq.
      match goal with H : answers _ _ _ _ _ = Ok _ |- _ => by rewrite (spent_answers _ _ _ _ _ _ Hs) in H end.
    + apply complete_atomic in E as ->. eauto.
  - intros now. destruct (enrollment_status _ _ _ g) as [[s|e] g'] eqn:E.
    + unfold enrollment_status in E. inv_m.
      match goal with H : verify_proof _ _ _ _ = Ok _ |- _ => apply verify_proof_Ok in H as [-> _] end.
      erewrite proof_nonce_is in Hn by done. simplify_eq.
      match goal with H : answers _ _ _ _ _ = Ok _ |- _ => by rewrite (spent_answers _ _ _ _ _ _ Hs) in H end.
    + apply enrollment_status_atomic in E as ->. eauto.
  - intros now. unfold subscription_request, mbind, M_bind, lift.
    destruct (subscription_proof float_repr proof) as [[[d cl] nonce]|e] eqn:E; [|eauto].
    apply subscription_proof_Ok in E as (Hc & _ & Hsha). erewrite proof_nonce_is in Hn by done. simplify_eq.
    destruct (spend_view d cl n now g) as [[v|e] g1] eqn:E.
    + unfold spend_view in E. inv_m.
      match goal with H : answers _ _ _ _ _ = Ok _ |- _ => by rewrite (spent_answers _ _ _ _ _ _ Hs) in H end.
    + apply transaction_raise in E as ->. eauto.
Qed.

(** C8: A challenge is answered once.  After a completed challenge, whatever
    operations follow short of issuing the same random challenge again, no proof
    over it is completed, reads a status or reads a subscription: each call
    raises and changes nothing. *)
Theorem challenge_single_use ops1 ops2 proof purpose now tcp tries answer g' n :
  Forall draws_ok ops1 → let g := run_ops ops1 new_registry in
  complete float_repr proof purpose now tcp tries g = (Ok answer, g') → proof_nonce proof = Some n →
  Forall (λ op, issued op ≠ Some n) ops2 →
  ∀ again, proof_nonce again = Some n → no_answer again (run_ops ops2 g').
Proof.
  intros Hd g Hc Hn Hi again Ha. apply (spent_no_answer _ n); [done|]. apply run_keeps; [done|].
  assert (NoDup (dkeys (rg_challenges g))) as Hnd.
  { assert (friends_wf g) as [_ [] _ _ _] by (by apply registry_reachable_wf). done. }
  destruct answer as [[device wg] tcp'].
  apply complete_Ok in Hc as (row & _ & _ & [cl nonce c g1 Hp _ Hs Hlive _ He _ _ Hres _]).
  erewrite proof_nonce_is in Hn by done. simplify_eq.
  assert (rg_challenges g' = dset n (used_challenge c) (rg_challenges g)) as Hg' by (by destruct Hres, He).
  intros c' Hin. rewrite Hg' in Hin. apply dget_NoDup in Hin; [|by apply dset_NoDup].
  rewrite dget_dset_eq in Hin. by simplify_eq.
Qed.

(** ** The referral campaign *)

(** The referral campaign stays within its bounds in every run, for any
    clocks: at most [LIMIT] claims in all, at most [DAILY] of one sponsor in any
    day, and every claim stands for an invitation of its own. *)
Theorem referral_bounds ops :
  Forall draws_ok ops → let g := run_ops ops new_registry in
  zlen (rg_claims g) <= LIMIT
  ∧ (∀ sponsor t, zlen (day_claims sponsor t (rg_claims g)) <= DAILY)
  ∧ (∀ q1 q2 c1 c2, dget q1 (rg_claims g) = Some c1 → dget q2 (rg_claims g) = Some c2 → cm_invite c1 = cm_invite c2 → q1 = q2)
  ∧ (∀ q c, dget q (rg_claims g) = Some c → is_Some (dget (cm_invite c) (rg_invites g))).
Proof. intros Hd g. assert (friends_wf g) as [_ _ _ [] _] by (by apply registry_reachable_wf). done. Qed.

(** A claim is idempotent: whatever happens after it was answered, asking
    again with the same request and link, at any time, gives the same
    invitation and changes nothing, as long as the invitation is not revoked;
    and it tells whether the invitation has been activated since. *)
Theorem claim_idempotent ops1 ops2 token request now code b g1 :
  Forall draws_ok ops1 → Forall draws_ok ops2 →
  claim secret token request now (run_ops ops1 new_registry) = (Ok (code, b), g1) →
  let g2 := run_ops ops2 g1 in
  ∃ q c i, dget q (rg_claims g2) = Some c ∧ dget (cm_invite c) (rg_invites g2) = Some i
    ∧ ∀ now', iv_revoked i = false →
        claim secret token request now' g2 = (Ok (code, negb (bool_decide (default [] (iv_device i) = []))), g2).
Proof.
  intros H1 H2 Hc g2. assert (friends_wf g1 ∧ evolves (run_ops ops1 new_registry) g1) as [Hw Hev].
  { eapply claim_safe; [exact Hc|]. by apply registry_reachable_wf. }
  destruct (run_ops_safe float_repr secret ops2 g1 H2 Hw) as [_ Hev2]. fold g2 in Hev2.
  apply claim_Ok in Hc as (q & Hof & Hcl).
  assert (∃ row grant, dget q (rg_claims g1) = Some row ∧ dget (cm_invite row) (rg_invites g1) = Some grant) as (row & grant & Hq & Hgr).
  { destruct Hcl as [row grant|sponsor h]; [eauto|]. eexists _, _. simpl. rewrite dget_dset_eq. split; [done|]. simpl. by rewrite dget_dset_eq. }
  destruct (ev_claims _ _ Hev2 _ _ Hq) as (row' & Hq' & <-). destruct (ev_invites _ _ Hev2 _ _ Hgr) as (i & Hi & _).
  exists q, row, i. split; [done|]. split; [done|]. intros now' Hv. eapply claim_before; try done.
  destruct Hof as [t th sponsor r q c Ht Hm Hs Hl Hr Hrm Hcode].
  destruct (ev_links _ _ Hev _ _ Hl) as (s1 & Hl1 & <-). destruct (ev_links _ _ Hev2 _ _ Hl1) as (s2 & Hl2 & <-).
  by econstructor.
Qed.
End Safety.
