(* ===== verification/PaidSafety.v ===== *)
(** The paid cohort over all runs of the registry: bounded, event-sourced, and
    never taking back what was paid for. *)
From Stdlib Require Import ZArith Lia.
From S2P Require Import Prelude PyData Json JsonText Rns Ack DeviceProof.
From S2P Require Import Registry Referrals PaidBeta TransportPolicy PaidEvents RegistrySpec FriendsInv.
From S2P Require Import FriendsOps PaidOps FriendsRuns.

Local Open Scope Z_scope.

(** ** Effective states *)

(** When a subscription ends, and whether it is open before that. *)
Definition boundary (s : subscription_row) : Z :=
  if str_eqb (sb_state s) (py "grace") then default 0 (sb_grace_until s) else sb_paid_until s.
Definition is_open (s : subscription_row) : bool :=
  str_eqb (sb_state s) (py "active") || str_eqb (sb_state s) (py "grace").

Definition effective_of (s : subscription_row) (now : Z) : subscription_state :=
  if str_eqb (sb_state s) (py "revoked") then SubscriptionState (py "revoked") false None
  else if is_open s && (now <? boundary s) then SubscriptionState (sb_state s) true (Some (boundary s))
  else SubscriptionState (py "expired") false None.

(** A well-formed row always has an effective state. *)
Lemma effective_state_wf g d now : paid_wf g → 0 <= now <= MAX_TIME → hex_match 32 d = true →
  effective_state g d now = Ok ((λ s, effective_of s now) <$> dget d (subscriptions_of g)).
Proof.
  intros [_ _ _ Pc Pt Ps _ _] Hn Hd. unfold effective_state. rewrite (proj2 (instant_Ok _ _)) by done.
  cbn [mbind result_bind]. rewrite Hd. cbn [require mbind result_bind].
  destruct (dget d (subscriptions_of g)) as [s|] eqn:E; [|done]. cbn [fmap option_fmap option_map].
  specialize (Pc _ _ E). specialize (Pt _ _ E) as [T1 T2]. specialize (Ps _ _ E) as Hs.
  unfold subscription_checks in Pc. repeat apply andb_true_iff in Pc as [Pc ?]. unfold effective_of, is_open, boundary.
  assert (bool_decide (is_Some (sb_revoked_at s)) = str_eqb (sb_state s) (py "revoked")) as ->
    by (symmetry; by apply Bool.eqb_prop).
  rewrite orb_diag. unfold terms_ok in Hs. destruct s as [st start until grace ? ? ? ? ?]. simpl in *.
  assert (∀ z, 0 <= z <= MAX_TIME → instant (PInt z) = Ok z) as Hi by (intros; by apply instant_Ok).
  destruct Hs as [[-> ->]|[[-> [z ->]]|[->| ->]]]; cbn [str_eqb require mbind result_bind]; simpl.
  - rewrite Hi by done. cbn [mbind result_bind]. by destruct (now <? _).
  - bools. rewrite Hi by (specialize (T2 _ eq_refl); lia). cbn [mbind result_bind]. by destruct (now <? _).
  - by rewrite Hi.
  - done.
Qed.

Lemma boundary_entitlement s : is_open s = true → terms_ok s → 0 <= sb_paid_until s →
  (∀ z, sb_grace_until s = Some z → sb_paid_until s <= z) → boundary s = entitlement s.
Proof.
  unfold is_open, terms_ok, boundary, entitlement. intros Ho Hs H0 Hg.
  destruct s as [st start until grace ? ? ? ? ?]. simpl in *.
  destruct Hs as [[-> ->]|[[-> [z ->]]|[->| ->]]]; simpl in *; try done; [lia|]. specialize (Hg _ eq_refl). lia.
Qed.

(** A subscription's version counts its events. *)
Lemma replay_version device l s : replay device l = Some s → sb_version s = zlen (events_for device l).
Proof.
  unfold replay. revert s. induction (events_for device l) as [|p l' IH] using rev_ind; [done|].
  intros s. rewrite foldl_app. simpl. intros [= <-]. simpl. unfold zlen in *. rewrite length_app. simpl.
  destruct (foldl replay_event None l') as [s0|] eqn:E; [rewrite (IH s0) by done; lia|].
  destruct l' using rev_ind; [simpl; lia|]. by rewrite foldl_app in E.
Qed.

(** ** Aliases resolve to the same device for good *)

Lemma filter_unique {A} (f : pystr * A → bool) k x l :
  NoDup (dkeys l) → dget k l = Some x → f (k, x) = true →
  (∀ k' x', dget k' l = Some x' → f (k', x') = true → k' = k) → List.filter f l = [(k, x)].
Proof.
  induction l as [|[k0 x0] l IH]; [done|]. unfold dkeys. cbn [fmap list_fmap fst]. intros [Hk Hnd]%NoDup_cons Hg Hf Hu.
  cbn [dget] in Hg. cbn [List.filter].
  assert (∀ k' x', k' ≠ k0 → dget k' l = Some x' → dget k' ((k0, x0) :: l) = Some x') as Hl.
  { intros k' x' ? ?. cbn [dget]. by rewrite decide_False. }
  case_decide as Hd.
  - simplify_eq. rewrite Hf. f_equal. destruct (List.filter f l) as [|[k1 x1] l1] eqn:E; [done|].
    assert ((k1, x1) ∈ l ∧ f (k1, x1) = true) as [Hin H1].
    { rewrite list_elem_of_In. apply filter_In. rewrite E. by left. }
    apply dget_NoDup in Hin as Hg1; [|done]. assert (k1 ≠ k0) as Hne.
    { intros ->. apply Hk. by eapply dget_Some_key. }
    exfalso. apply Hne. exact (Hu k1 x1 (Hl _ _ Hne Hg1) H1).
  - destruct (f (k0, x0)) eqn:E.
    + exfalso. apply Hd. symmetry. eapply Hu; [|exact E]. cbn [dget]. by rewrite decide_True.
    + apply IH; try done. intros k' x' Hg' Hf'. apply (Hu k' x'); [|done]. apply Hl; [|done]. intros ->. apply Hk. by eapply dget_Some_key.
Qed.

Lemma resolve_device_Ok g v r : friends_wf g → resolve_device g v = Ok r →
  ∃ support t s row, normalize v = Ok support ∧ rg_support g = Some t ∧ dget (rs_device r) t = Some s ∧ sr_support s = support
    ∧ dget (rs_device r) (rg_devices g) = Some row.
Proof.
  intros [_ _ Ha _ _] H. unfold resolve_device in H. apply bind_Ok in H as (support & Hn & H). unfold try_with in Hn.
  destruct (normalize v) as [support'|e] eqn:En; [|by case_match]. injection Hn as ->. repeat inv_ok1.
  destruct (alias_rows g a support) as [|x [|]] eqn:E; simplify_eq/=.
  assert (r ∈ alias_rows g a support) as Hin by (rewrite E; by left). unfold alias_rows in Hin.
  apply list_elem_of_bind in Hin as ([d s] & Hr & Hf). rewrite list_elem_of_In in Hf. apply filter_In in Hf as [Hf Hs].
  rewrite <- list_elem_of_In in Hf. cbn [fst snd] in *. apply str_eqb_eq in Hs.
  destruct (dget d (rg_devices g)) as [row|] eqn:Ed; [|by apply not_elem_of_nil in Hr].
  assert (rs_device r = d) as ->.
  { destruct (List.filter _ _); [by apply list_elem_of_singleton in Hr as ->|].
    rewrite list_elem_of_In in Hr. by apply in_map_iff in Hr as (i & <- & _). }
  exists support, a, s, row. split_and!; try done. apply dget_NoDup; [|done]. by apply aw_keys with (dev := rg_devices g), Ha.
Qed.

Lemma resolve_device_wf g v support t d s row : friends_wf g → normalize v = Ok support → rg_support g = Some t →
  dget d t = Some s → sr_support s = support → dget d (rg_devices g) = Some row →
  ∃ i h, dget h (rg_invites g) = Some i ∧ iv_device i = Some d ∧ resolve_device g v = Ok (Resolved d (dv_revoked row) (Some (iv_revoked i))).
Proof.
  intros [He _ Ha _ _] Hn Ht Hs Hal Hd. destruct (ew_activated _ _ He _ _ Hd) as (h & i & Hh & Hi).
  exists i, h. split; [done|]. split; [done|]. unfold resolve_device. rewrite Hn. cbn [try_with mbind result_bind]. rewrite Ht.
  cbn [of_option mbind result_bind]. specialize (Ha _ Ht). unfold alias_rows.
  rewrite (filter_unique _ d s); [|apply Ha|done|by apply str_eqb_eq|].
  2:{ intros k' x' Hk' Hx'. apply str_eqb_eq in Hx'. simpl in Hx'. apply (aw_unique _ _ Ha k' d x' s); try done. congruence. }
  cbn [mbind list_bind fst]. rewrite Hd.
  rewrite (filter_unique _ h i); [done|apply He|done|by apply bool_decide_eq_true|].
  intros k' x' Hk' Hx'. apply bool_decide_eq_true in Hx'. by eapply (ew_once _ _ He).
Qed.

Lemma resolve_device_kept g g' v r : friends_wf g → friends_wf g' → evolves g g' → resolve_device g v = Ok r →
  ∃ r', resolve_device g' v = Ok r' ∧ rs_device r' = rs_device r.
Proof.
  intros Hw Hw' Hev (support & t & s & row & Hn & Ht & Hs & Hal & Hd)%resolve_device_Ok; [|done].
  pose proof (ev_aliases _ _ Hev) as Hk. rewrite Ht in Hk. destruct (rg_support g') as [t'|] eqn:Ht'; [|done].
  destruct (Hk _ _ Hs) as (s' & Hs' & Hal'). destruct (ev_devices _ _ Hev _ _ Hd) as (row' & Hd' & _).
  destruct (resolve_device_wf g' v support t' (rs_device r) s' row') as (i & h & _ & _ & Hr); try done; [congruence|].
  eexists. split; [exact Hr|done].
Qed.

Section PaidSafety.
Context {RN : Rns} {RNL : RnsLaws} {RNO : RnsOctets} (float_repr : spec_float → pystr) (secret : bytes).

Local Abbreviation run_ops := (run_ops float_repr secret).

Lemma later_run ops1 ops2 : Forall draws_ok ops1 → Forall draws_ok ops2 →
  let g1 := run_ops ops1 new_registry in let g2 := run_ops ops2 g1 in friends_wf g1 ∧ friends_wf g2 ∧ evolves g1 g2.
Proof.
  intros H1 H2 g1 g2. assert (friends_wf g1) as Hw by (by apply registry_reachable_wf). split; [done|].
  exact (run_ops_safe _ _ ops2 g1 H2 Hw).
Qed.

(** C10: In every run the cohort has at most [COHORT_LIMIT] subscriptions, the
    event log only grows, and each subscription is exactly what replaying its
    device's events makes of it, its version counting them; the rows satisfy
    the constraints of the schema. *)
Theorem subscription_is_replay ops1 ops2 :
  Forall draws_ok ops1 → Forall draws_ok ops2 →
  let g1 := run_ops ops1 new_registry in let g2 := run_ops ops2 g1 in
  zlen (subscriptions_of g2) <= COHORT_LIMIT
  ∧ (∃ more, events_of g2 = events_of g1 ++ more)
  ∧ (∀ d, dget d (subscriptions_of g2) = replay d (events_of g2))
  ∧ ∀ d s, dget d (subscriptions_of g2) = Some s →
      sb_version s = zlen (events_for d (events_of g2)) ∧ subscription_checks s = true ∧ is_Some (dget d (rg_devices g2)).
Proof.
  intros H1 H2 g1 g2. assert (friends_wf g2 ∧ evolves g1 g2) as [[_ _ _ _ []] []] by exact (proj2 (later_run _ _ H1 H2)).
  split_and!; try done. intros d s Hs. split_and!; [|eauto..]. apply replay_version. congruence.
Qed.

(** C13: What was paid for is never taken back: along any run a subscription
    stays, its paid period and its version never go back, and a device with
    access keeps it until the end it was given, unless an operator expires or
    revokes it; a revoked subscription never changes again and gives no access
    at any time. *)
Theorem paid_access_kept ops1 ops2 d s now :
  Forall draws_ok ops1 → Forall draws_ok ops2 → 0 <= now <= MAX_TIME →
  let g1 := run_ops ops1 new_registry in let g2 := run_ops ops2 g1 in
  dget d (subscriptions_of g1) = Some s →
  ∃ s', dget d (subscriptions_of g2) = Some s' ∧ effective_state g2 d now = Ok (Some (effective_of s' now))
    ∧ sb_period_start s <= sb_period_start s' ∧ sb_version s <= sb_version s' ∧ entitlement s <= entitlement s'
    ∧ (sb_state s = py "revoked" → s' = s ∧ st_allowed (effective_of s' now) = false)
    ∧ (is_open s = true → is_open s' = true → now < boundary s → st_allowed (effective_of s' now) = true).
Proof.
  intros H1 H2 Hn g1 g2 Hs. assert (friends_wf g1 ∧ friends_wf g2 ∧ evolves g1 g2) as ([_ _ _ _ W1] & [He _ _ _ W2] & Hev) by exact (later_run _ _ H1 H2).
  destruct (ev_subscriptions _ _ Hev _ _ Hs) as (s' & Hs' & Hk). exists s'. split; [done|]. split.
  { rewrite effective_state_wf; [by rewrite Hs'|done|done|]. destruct (pw_device _ W2 _ _ Hs') as [r Hr]. by destruct (ew_shape _ _ He _ _ Hr). }
  assert (∀ g x, paid_wf g → dget d (subscriptions_of g) = Some x → is_open x = true → boundary x = entitlement x) as Hb.
  { intros g x [_ _ _ Pc Pt Ps _ _] Hx Hopen. apply boundary_entitlement; [done|by eapply Ps|by eapply Pt|].
    intros z Hz. specialize (Pc _ _ Hx). unfold subscription_checks in Pc. rewrite Hz in Pc. bools. lia. }
  split_and!.
  - destruct Hk as [->|(_ & _ & ? & _)]; lia.
  - destruct Hk as [->|(? & _ & _ & _)]; lia.
  - destruct Hk as [->|(_ & _ & _ & ?)]; lia.
  - intros Hr. destruct Hk as [->|(_ & Hn' & _)]; [|done]. split; [done|]. unfold effective_of. by rewrite Hr.
  - intros Ho Ho' Hlt. unfold effective_of. rewrite Ho'.
    assert (boundary s <= boundary s') by (rewrite (Hb g1), (Hb g2) by done; destruct Hk as [->|(_ & _ & _ & ?)]; lia).
    rewrite (proj2 (Z.ltb_lt now _)) by lia. unfold is_open in Ho'.
    destruct (str_eqb (sb_state s') (py "revoked")) eqn:E; [|done]. apply str_eqb_eq in E. by rewrite E in Ho'.
Qed.

(** An event is applied once.  Whatever happens after it was applied, and at
    any later or earlier time, applying it again answers the stored event, marked
    as a duplicate, and changes nothing; and another request under its
    identifier is refused as a conflict unless its payload hashes alike. *)
Theorem event_replayed ops1 ops2 f support r now a g1 :
  Forall draws_ok ops1 → Forall draws_ok ops2 →
  apply_event float_repr f support r now (run_ops ops1 new_registry) = (Ok a, g1) →
  let g2 := run_ops ops2 g1 in
  (∀ f' now', 0 <= now' <= MAX_TIME →
     apply_event float_repr f' support r now' g2 = (Ok (Applied true (ap_id a) (ap_event a)), g2))
  ∧ ∀ f' support' r' now' d' rh' payload', 0 <= now' <= MAX_TIME → check_request r' = Ok tt →
     pr_id r' = PStr (ap_id a) → resolve_device g2 support' = Ok d' →
     event_hashes float_repr r' (rs_device d') = Ok (rh', payload') → payload' ≠ er_payload (ap_event a) →
     apply_event float_repr f' support' r' now' g2 = (Raise (PaidBetaError "EVENT_ID_CONFLICT"), g2).
Proof.
  intros H1 H2 Ha g2. assert (friends_wf (run_ops ops1 new_registry)) as Hw0 by (by apply registry_reachable_wf).
  destruct (apply_event_safe float_repr f support r now _ _ _ Ha Hw0) as [Hw1 Hev1].
  destruct (run_ops_safe float_repr secret ops2 g1 H2 Hw1) as [Hw2 Hev2].
  destruct (apply_event_Ok _ _ _ _ _ _ _ _ Ha) as (u & device & rh & payload & Hsch & Hck & _ & Hres & Hh & Hid & Hcase).
  assert (dget (ap_id a) (events_of g1) = Some (ap_event a) ∧ er_payload (ap_event a) = payload) as [Hev Hpay].
  { destruct Hcase as [(_ & ? & ? & ->)|[_ Hnow]]; [done|]. rewrite Hid. destruct Hnow as [? ? ? ? ? ? ? _ _ _ _ _ _ _ He _].
    autorewrite with paid. subst id. rewrite dget_dset_eq. split; [done|]. by rewrite He. }
  assert (dget (ap_id a) (events_of g2) = Some (ap_event a)) as Hev'.
  { destruct (ev_events _ _ Hev2) as [more Hm]. apply dget_NoDup; [apply Hw2|]. change (run_ops ops2 g1) with g2 in Hm.
    rewrite Hm. apply elem_of_app. left. by apply dget_elem. }
  assert (schema_present g2 = true) as Hsch2 by (by apply Hev2, Hev1).
  destruct (resolve_device_kept _ g2 _ _ Hw0 Hw2 ltac:(by eapply evolves_trans) Hres) as (device' & Hres' & Hdev).
  assert (∀ z, 0 <= z <= MAX_TIME → instant (PInt z) = Ok z) as Hi by (intros; by apply instant_Ok).
  split.
  - intros f' now' Hn. unfold apply_event, transaction, demand_paid, demand, mbind, M_bind, lift, select, require.
    rewrite Hsch2, Hi by done. rewrite Hck, Hres', Hdev, Hh. cbn beta iota. rewrite <- Hid, Hev', Hpay.
    rewrite (proj2 (str_eqb_eq _ _) eq_refl). done.
  - intros f' support' r' now' d' rh' payload' Hn Hck' Hpr Hr' Hh' Hne.
    unfold apply_event, transaction, demand_paid, demand, mbind, M_bind, lift, select, require.
    rewrite Hsch2, Hi by done. rewrite Hck', Hr', Hh'. cbn beta iota. rewrite Hpr. cbn [str_or_empty as_str default from_option].
    unfold str_or_empty. simpl. rewrite Hev'. by rewrite (proj2 (str_eqb_neq _ _)) by congruence.
Qed.
End PaidSafety.
