(* ===== verification/TransportSpec.v ===== *)
(** The transport decisions of the registry: every snapshot of a reachable
    registry is accepted by the validation of its node, and later snapshots are
    accepted after earlier ones.

    Snapshots of one registry over time: a node accepts each of them, and each
    later one after any earlier one. *)
From Stdlib Require Import ZArith Lia.
From S2P Require Import Prelude PyData Json JsonText Notices Rns Ack DeviceProof Registry Referrals PaidBeta.
From S2P Require Import TransportPolicy PaidEvents RegistrySpec FriendsInv FriendsOps PaidOps.
From S2P Require Import FriendsRuns PaidSafety.

Local Open Scope Z_scope.

(** ** The decision on a device *)

Definition identity_of (g : registry) (device : pystr) (row : device_row) : bool :=
  negb (dv_revoked row) && existsb (λ p, bool_decide (iv_device p.2 = Some device) && negb (iv_revoked p.2)) (rg_invites g).

(** The decision on a device of a well-formed registry, with no error left. *)
Definition decision_of (g : registry) (device : pystr) (row : device_row) (now : Z) : decision :=
  let identity := identity_of g device row in
  match dget device (subscriptions_of g) with
  | None => NodeDecision device (dv_wg row) (dv_tcp row) false 0 (py "noncohort") identity identity PNone PNone now (now + LEASE_SECONDS)
  | Some s =>
      let allowed := identity && st_allowed (effective_of s now) in
      NodeDecision device (dv_wg row) (dv_tcp row) true (sb_version s) (st_state (effective_of s now)) identity allowed
        (PInt (sb_paid_until s)) (opt_int (sb_grace_until s)) now
        (if allowed then Z.min (now + LEASE_SECONDS) (boundary s) else now + LEASE_SECONDS)
  end.

Lemma effective_allowed s now : st_allowed (effective_of s now) = true →
  is_open s = true ∧ now < boundary s ∧ effective_of s now = SubscriptionState (sb_state s) true (Some (boundary s)).
Proof.
  unfold effective_of. destruct (str_eqb _ _); [done|]. destruct (is_open s && (now <? boundary s)) eqn:E; [|done]. by bools.
Qed.

Lemma decide_device_wf g device row now : friends_wf g → schema_present g = true → dget device (rg_devices g) = Some row →
  0 <= now <= MAX_TIME → decide_device g device row now = Ok (decision_of g device row now).
Proof.
  intros [He _ _ _ Hp] Hs Hd Hn. unfold decide_device. rewrite effective_state_wf; [|done|done|by eapply (ew_shape _ _ He)].
  unfold schema_present in Hs. apply bool_decide_eq_true in Hs as [[subs evs] Hpaid].
  assert (subscriptions_of g = subs) as Hsub by (unfold subscriptions_of; by rewrite Hpaid).
  unfold decision_of. rewrite Hpaid, Hsub. cbn [mbind result_bind of_option fst]. fold (identity_of g device row).
  destruct (dget device subs) as [s|]; cbn [fmap option_fmap option_map]; [|by rewrite andb_true_r].
  destruct (identity_of g device row && st_allowed (effective_of s now)) eqn:E; [|done].
  apply andb_true_iff in E as [_ E]. apply effective_allowed in E as (_ & _ & ->). done.
Qed.

(** ** Validation of a decision *)

Record decision_wf (d : decision) (observed : Z) : Prop := {
  dw_device : hex_match 32 (dn_device d) = true;
  dw_tcp : canonical_uuid (dn_tcp d) = true;
  dw_key : ∃ raw, b64decode (dn_key d) = Some raw ∧ zlen raw = 32;
  dw_revision : Z.b2z (dn_cohort d) <= dn_revision d;
  dw_observed : dn_observed d = observed;
  dw_valid : observed < dn_valid d <= observed + LEASE_SECONDS;
  dw_state : existsb (str_eqb (dn_state d)) DECISION_STATES = true;
  dw_cohort : dn_cohort d = negb (str_eqb (dn_state d) (py "noncohort"));
  dw_allowed : dn_allowed d = true → dn_identity d = true ∧ dn_state d ≠ py "expired" ∧ dn_state d ≠ py "revoked";
  dw_paid : dn_cohort d = true → ∃ z, dn_paid d = PInt z;
  dw_boundary : dn_allowed d = true → dn_cohort d = true →
    ∃ z, (if str_eqb (dn_state d) (py "grace") then dn_grace d else dn_paid d) = PInt z ∧ dn_valid d <= z;
}.

Lemma decision_items d :
  keys_are decision_names (decision_fields d) = true
  ∧ item "device" (decision_fields d) = Ok (PStr (dn_device d)) ∧ item "tcp_id" (decision_fields d) = Ok (PStr (dn_tcp d))
  ∧ item "public_key" (decision_fields d) = Ok (PStr (dn_key d)) ∧ item "cohort" (decision_fields d) = Ok (PBool (dn_cohort d))
  ∧ item "allowed" (decision_fields d) = Ok (PBool (dn_allowed d)) ∧ item "identity_allowed" (decision_fields d) = Ok (PBool (dn_identity d))
  ∧ item "revision" (decision_fields d) = Ok (PInt (dn_revision d)) ∧ item "observed_at" (decision_fields d) = Ok (PInt (dn_observed d))
  ∧ item "valid_until" (decision_fields d) = Ok (PInt (dn_valid d)) ∧ item "state" (decision_fields d) = Ok (PStr (dn_state d))
  ∧ item "paid_until" (decision_fields d) = Ok (dn_paid d) ∧ item "grace_until" (decision_fields d) = Ok (dn_grace d).
Proof. by repeat split. Qed.

Lemma parse_decision_wf d observed : decision_wf d observed → parse_decision (PDict (decision_fields d)) observed = Ok d.
Proof.
  intros [H1 H2 (raw & H3 & H3') H4 <- H6 H7 H8 H9 H10 H11]. unfold parse_decision.
  destruct (decision_items d) as (E0 & E1 & E2 & E3 & E4 & E5 & E6 & E7 & E8 & E9 & E10 & E11 & E12).
  cbn [as_dict of_option mbind result_bind]. rewrite E0. cbn [require mbind result_bind].
  rewrite E1. cbn [mbind result_bind as_str of_option]. rewrite H1. cbn [require mbind result_bind].
  rewrite E2. cbn [mbind result_bind as_str of_option]. rewrite H2. cbn [require mbind result_bind].
  rewrite E3. cbn [mbind result_bind as_str of_option]. rewrite H3. cbn [mbind result_bind of_option].
  rewrite H3'. cbn [Z.eqb Pos.eqb require mbind result_bind].
  rewrite E4. cbn [mbind result_bind as_bool of_option]. rewrite E5. cbn [mbind result_bind as_bool of_option].
  rewrite E6. cbn [mbind result_bind as_bool of_option]. rewrite E7. cbn [mbind result_bind as_int of_option].
  rewrite (proj2 (Z.leb_le _ _)) by done. cbn [require mbind result_bind].
  rewrite E8. cbn [mbind result_bind key_is_Z]. rewrite Z.eqb_refl. cbn [require mbind result_bind].
  rewrite E9. cbn [mbind result_bind as_int of_option]. destruct H6 as [H6a H6b].
  rewrite (proj2 (Z.ltb_lt _ _) H6a), (proj2 (Z.leb_le _ _) H6b). cbn [andb require mbind result_bind].
  rewrite E10. cbn [mbind result_bind is_in]. rewrite H7. cbn [require mbind result_bind]. unfold str_or_empty. cbn [as_str default from_option id].
  rewrite <- H8, eqb_reflx. cbn [require mbind result_bind]. rewrite E11, E12.
  assert (negb (dn_allowed d) || dn_identity d && negb (str_eqb (dn_state d) (py "expired") || str_eqb (dn_state d) (py "revoked")) = true) as ->.
  { destruct (dn_allowed d); [|done]. destruct H9 as (-> & ? & ?); [done|]. rewrite !(proj2 (str_eqb_neq _ _)) by done. done. }
  assert (negb (dn_cohort d) || bool_decide (is_Some (as_int (dn_paid d))) = true) as Hp.
  { destruct (dn_cohort d); [|done]. by destruct H10 as [z ->]. }
  cbn [require mbind result_bind]. rewrite Hp. cbn [require mbind result_bind].
  assert (dn_allowed d && dn_cohort d = true →
    int_above (dn_valid d) (if str_eqb (dn_state d) (py "grace") then dn_grace d else dn_paid d) = Ok false) as Hb.
  { intros [Ha Hc]%andb_true_iff. destruct (H11 Ha Hc) as (z & -> & Hz). cbn [int_above num_ltb_Z].
    by rewrite (proj2 (Z.ltb_ge _ _)). }
  destruct (dn_allowed d && dn_cohort d) eqn:E; [rewrite Hb by done|]; by destruct d.
Qed.

Lemma decision_of_wf g device row now : friends_wf g → dget device (rg_devices g) = Some row →
  decision_wf (decision_of g device row now) now.
Proof.
  intros [He _ _ _ Hp] Hd. destruct (ew_shape _ _ He _ _ Hd) as (S1 & S2 & S3). unfold decision_of.
  destruct (dget device (subscriptions_of g)) as [s|] eqn:Es.
  - pose proof (pw_checks _ Hp _ _ Es) as Hc. pose proof (pw_terms _ Hp _ _ Es) as Ht.
    unfold subscription_checks in Hc. repeat apply andb_true_iff in Hc as [Hc ?]. bools.
    assert (∃ st, st_state (effective_of s now) = py st ∧ st ∈ ["active"; "grace"; "expired"; "revoked"]%string) as (st & Hst & Hin).
    { unfold effective_of. destruct (str_eqb (sb_state s) (py "revoked")); [exists "revoked"%string; split; [done|set_solver]|].
      destruct (is_open s && _) eqn:E; [|exists "expired"%string; split; [done|set_solver]]. bools. unfold is_open in *.
      match goal with H : _ || _ = true |- _ => apply orb_true_iff in H as [->%str_eqb_eq| ->%str_eqb_eq] end; eexists; (split; [reflexivity|set_solver]). }
    assert (0 < LEASE_SECONDS) by done.
    split; cbn [dn_device dn_tcp dn_key dn_cohort dn_revision dn_observed dn_valid dn_state dn_allowed dn_identity dn_paid dn_grace Z.b2z]; try done.
    + lia.
    + destruct (_ && _) eqn:E; [|lia]. bools. match goal with H : st_allowed _ = true |- _ => apply effective_allowed in H as (_ & ? & _) end. lia.
    + rewrite Hst. clear -Hin. set_unfold. naive_solver.
    + rewrite Hst. clear -Hin. set_unfold. naive_solver.
    + intros [Hid Ha]%andb_true_iff. split; [done|]. apply effective_allowed in Ha as (Ho & _ & ->). cbn [st_state].
      unfold is_open in Ho. apply orb_true_iff in Ho as [->%str_eqb_eq| ->%str_eqb_eq]; by split.
    + eauto.
    + intros [Hid Ha]%andb_true_iff _. rewrite Hid, Ha. cbn [andb]. apply effective_allowed in Ha as (Ho & _ & ->). cbn [st_state].
      unfold boundary. unfold is_open in Ho. destruct (str_eqb (sb_state s) (py "grace")) eqn:Eg.
      * apply str_eqb_eq in Eg. unfold terms_ok in Ht. rewrite Eg in Ht.
        destruct Ht as [[? _]|[[_ [z ->]]|[?|?]]]; try done. exists z. split; [done|]. simpl. lia.
      * eexists. split; [done|]. lia.
  - assert (0 < LEASE_SECONDS) by done. split; simpl; try done; try lia.
Qed.

(** ** Validation of an envelope *)

Lemma mapR_all {A B} (f : A → result B) (h : A → B) l : (∀ x, x ∈ l → f x = Ok (h x)) → mapR f l = Ok (h <$> l).
Proof.
  induction l as [|x l IH]; [done|]. intros Hf. cbn [mapR]. rewrite Hf by (by left). cbn [mbind result_bind].
  rewrite IH by (intros; apply Hf; by right). done.
Qed.

(** No device, key or user twice. *)
Definition distinct_decisions (l : list decision) : Prop :=
  NoDup (dn_device <$> l) ∧ NoDup (dn_key <$> l) ∧ NoDup (dn_tcp <$> l).

Lemma NoDup_app_head {A B} (f : A → B) l x l' : NoDup (f <$> l ++ x :: l') → ∀ y, y ∈ l → f x ≠ f y.
Proof.
  intros Hn y Hy E. rewrite fmap_app in Hn. apply NoDup_app in Hn as (_ & Hd & _). apply (Hd (f y)).
  - apply list_elem_of_fmap. eauto.
  - rewrite fmap_cons, E. by left.
Qed.

Lemma parse_decisions_wf l observed : Forall (λ d, decision_wf d observed) l → distinct_decisions l →
  parse_decisions (List.map (λ d, PDict (decision_fields d)) l) observed = Ok l.
Proof.
  unfold parse_decisions. intros Hw Hd.
  assert (∀ acc l, Forall (λ d, decision_wf d observed) l → distinct_decisions (acc ++ l) →
    foldR (λ acc v, d ← parse_decision v observed; require (fresh_decision d acc) bad_decision;; Ok (acc ++ [d])) acc
      (List.map (λ d, PDict (decision_fields d)) l) = Ok (acc ++ l)) as H; [|by apply (H [] l)].
  clear. intros acc l Hw. revert acc. induction Hw as [|d l Hd Hw IH]; intros acc Hn; [by rewrite app_nil_r|].
  cbn [List.map foldR]. rewrite parse_decision_wf by done. cbn [mbind result_bind].
  assert (fresh_decision d acc = true) as ->.
  { unfold fresh_decision. apply forallb_forall. intros x Hx. rewrite <- list_elem_of_In in Hx. destruct Hn as (N1 & N2 & N3).
    rewrite !(proj2 (str_eqb_neq _ _)); [done|..]; by eapply NoDup_app_head. }
  cbn [require mbind result_bind]. rewrite IH; [by rewrite <- app_assoc|by rewrite <- app_assoc].
Qed.

Record envelope_wf (e : envelope) : Prop := {
  vw_node : existsb (str_eqb (en_node e)) NODES = true;
  vw_size : zlen (en_decisions e) <= 10000;
  vw_decisions : Forall (λ d, decision_wf d (en_observed e)) (en_decisions e);
  vw_distinct : distinct_decisions (en_decisions e);
}.

Lemma validate_wf e now : envelope_wf e →
  now - LEASE_SECONDS * SECOND < en_observed e * SECOND <= now + CLOCK_SKEW_SECONDS * SECOND →
  validate_envelope (envelope_value e) (en_node e) now = Ok e.
Proof.
  intros [Hn Hs Hd Hx] [T1 T2]. unfold validate_envelope, envelope_value. cbn [as_dict of_option mbind result_bind].
  match goal with |- context [keys_are envelope_names ?d] => set (doc := d) end.
  assert (keys_are envelope_names doc = true ∧ item "schema" doc = Ok (PInt 1) ∧ item "profile" doc = Ok (PStr PROFILE)
    ∧ item "node" doc = Ok (PStr (en_node e)) ∧ item "observed_at" doc = Ok (PInt (en_observed e))
    ∧ item "decisions" doc = Ok (PList (List.map (λ d, PDict (decision_fields d)) (en_decisions e))))
    as (-> & -> & -> & -> & -> & ->) by (by repeat split).
  cbn [require mbind result_bind as_int as_list of_option key_is_str]. rewrite bool_decide_true by done.
  rewrite !(proj2 (str_eqb_eq _ _) eq_refl), Hn. cbn [andb require mbind result_bind].
  rewrite (proj2 (Z.ltb_lt _ _) T1), (proj2 (Z.leb_le _ _) T2). cbn [andb require mbind result_bind].
  unfold zlen in *. rewrite length_map, (proj2 (Z.leb_le _ _)) by done. cbn [require mbind result_bind].
  rewrite parse_decisions_wf by done. by destruct e.
Qed.

(** ** Snapshots *)

Lemma insert_row_perm {A} (x : pystr * A) l : insert_row x l ≡ₚ x :: l.
Proof. induction l as [|y l IH]; [done|]. cbn [insert_row]. destruct (str_leb _ _); [done|]. rewrite IH. apply Permutation_swap. Qed.

Lemma by_device_perm {A} (l : list (pystr * A)) : by_device l ≡ₚ l.
Proof. induction l as [|x l IH]; [done|]. cbn [by_device foldr]. rewrite insert_row_perm. by constructor. Qed.

(** The envelope of a well-formed registry. *)
Definition envelope_of (g : registry) (node : pystr) (now : Z) (records : list (pystr * device_row)) : envelope :=
  Envelope node now ((λ p, decision_of g p.1 p.2 now) <$> by_device records).

Lemma decisions_distinct g l now : friends_wf g → (∀ d r, (d, r) ∈ l → dget d (rg_devices g) = Some r) → NoDup (dkeys l) →
  distinct_decisions ((λ p, decision_of g p.1 p.2 now) <$> l).
Proof.
  intros [He _ _ _ _] Hin Hk.
  assert (∀ d r, dn_device (decision_of g d r now) = d ∧ dn_key (decision_of g d r now) = dv_wg r ∧ dn_tcp (decision_of g d r now) = dv_tcp r)
    as Hf by (intros d r; unfold decision_of; by destruct (dget _ _)).
  assert (NoDup l) as Hnl by (by apply NoDup_fmap_1 in Hk).
  assert (∀ (h : decision → pystr), (∀ p q, p ∈ l → q ∈ l → h (decision_of g p.1 p.2 now) = h (decision_of g q.1 q.2 now) → p.1 = q.1) →
    NoDup (h <$> ((λ p, decision_of g p.1 p.2 now) <$> l))) as Hgen.
  { intros h Hh. rewrite <- list_fmap_compose. apply NoDup_fmap_2_strong; [|done].
    intros [d1 r1] [d2 r2] H1 H2 E. pose proof (Hh _ _ H1 H2 E) as Heq. simpl in Heq. subst d2.
    apply Hin in H1, H2. congruence. }
  split_and!; apply Hgen; intros [d1 r1] [d2 r2] H1 H2 E; cbn [fst snd] in *;
    destruct (Hf d1 r1) as (E1 & E2 & E3), (Hf d2 r2) as (E4 & E5 & E6); apply Hin in H1, H2;
    [congruence|eapply (ew_unique _ _ He); try done; right; left; congruence|eapply (ew_unique _ _ He); try done; right; right; congruence].
Qed.

Lemma snapshot_all g node now : friends_wf g → schema_present g = true → existsb (str_eqb node) NODES = true → 0 <= now <= MAX_TIME →
  snapshot g node now [] = Ok (envelope_of g node now (rg_devices g)).
Proof.
  intros Hw Hs Hn Ht. pose proof Hw as [He _ _ _ _]. unfold snapshot. rewrite Hn, Hs. cbn [require mbind result_bind].
  unfold read_snapshot. rewrite bool_decide_true by done. cbn [orb require mbind result_bind].
  rewrite (mapR_all _ (λ p, decision_of g p.1 p.2 now)); [done|]. intros [d r] Hp. rewrite by_device_perm in Hp.
  apply decide_device_wf; try done. apply dget_NoDup; [apply He|done].
Qed.

Lemma envelope_of_wf g node now : friends_wf g → existsb (str_eqb node) NODES = true → zlen (rg_devices g) <= 10000 →
  envelope_wf (envelope_of g node now (rg_devices g)).
Proof.
  intros Hw Hn Hs. pose proof Hw as [He _ _ _ _].
  assert (∀ d r, (d, r) ∈ by_device (rg_devices g) → dget d (rg_devices g) = Some r) as Hin.
  { intros d r Hp. rewrite by_device_perm in Hp. apply dget_NoDup; [apply He|done]. }
  split; cbn [en_node en_decisions en_observed envelope_of]; [done|..].
  - unfold zlen in *. rewrite length_fmap, (Permutation_length (by_device_perm _)). done.
  - apply Forall_fmap, Forall_forall. intros [d r] Hp. apply decision_of_wf; [done|by apply Hin].
  - apply decisions_distinct; [done|done|]. unfold dkeys. rewrite by_device_perm. apply He.
Qed.

(** ** Decisions over time *)

Lemma identity_kept g1 g2 d r1 r2 : friends_wf g1 → friends_wf g2 → evolves g1 g2 →
  dget d (rg_devices g1) = Some r1 → dget d (rg_devices g2) = Some r2 → device_kept r1 r2 →
  identity_of g2 d r2 = true → identity_of g1 d r1 = true.
Proof.
  intros [He1 _ _ _ _] [He2 _ _ _ _] Hev Hd1 Hd2 (_ & _ & _ & Hrev) [Hr Hi]%andb_true_iff. apply andb_true_iff. split.
  - destruct (dv_revoked r1); [|done]. by rewrite Hrev in Hr.
  - apply existsb_exists in Hi as ([h2 i2] & Hin & Hi). rewrite <- list_elem_of_In in Hin. bools. simpl in *.
    destruct (ew_activated _ _ He1 _ _ Hd1) as (h & i & Hh & Hdi). destruct (ev_invites _ _ Hev _ _ Hh) as (i' & Hh' & Hki & Hkr).
    apply dget_NoDup in Hin; [|apply He2]. assert (h = h2) as <- by (eapply (ew_once _ _ He2); [done..| |done]; by apply Hki).
    rewrite Hh' in Hin. simplify_eq. apply existsb_exists. exists (h, i). split; [apply list_elem_of_In; by apply dget_elem|].
    apply andb_true_iff. split; [by apply bool_decide_eq_true|]. simpl. destruct (iv_revoked i) eqn:E; [|done].
    by rewrite Hkr in *.
Qed.

Lemma py_eqb_int z : py_eqb (PInt z) (PInt z) = true.
Proof. simpl. by rewrite Z.eqb_refl. Qed.
Lemma py_eqb_opt z : py_eqb (opt_int z) (opt_int z) = true.
Proof. destruct z; [apply py_eqb_int|done]. Qed.

Lemma same_decision_refl d : (∃ z, dn_paid d = opt_int z) → (∃ z, dn_grace d = opt_int z) → same_decision d d = true.
Proof.
  intros [z Hz] [z' Hz']. unfold same_decision. rewrite Hz, Hz', !py_eqb_opt, !eqb_reflx, !Z.eqb_refl, !(proj2 (str_eqb_eq _ _) eq_refl). done.
Qed.

Lemma decision_of_opts g d r now : (∃ z, dn_paid (decision_of g d r now) = opt_int z) ∧ (∃ z, dn_grace (decision_of g d r now) = opt_int z).
Proof. unfold decision_of. destruct (dget _ _) as [s|]; simpl; [by split; [exists (Some (sb_paid_until s))|eexists]|by split; exists None]. Qed.

(** The state of a subscription only moves on to expired as time passes. *)
Lemma effective_later s n1 n2 : n1 <= n2 → st_state (effective_of s n1) ≠ st_state (effective_of s n2) →
  st_state (effective_of s n2) = py "expired" ∧ st_state (effective_of s n1) = sb_state s ∧ is_open s = true ∧ boundary s <= n2.
Proof.
  intros Hn. unfold effective_of. destruct (str_eqb _ _); [done|]. destruct (is_open s); [|done]. cbn [andb].
  destruct (n1 <? boundary s) eqn:E1, (n2 <? boundary s) eqn:E2; bools; simpl; try done; lia.
Qed.

(** What makes a decision acceptable after another. *)
Record follows (p d : decision) : Prop := {
  fo_binding : dn_device d = dn_device p ∧ dn_key d = dn_key p ∧ dn_tcp d = dn_tcp p;
  fo_cohort : dn_cohort p = true → dn_cohort d = true;
  fo_revoked : dn_state p = py "revoked" → dn_state d = py "revoked";
  fo_identity : dn_identity d = true → dn_identity p = true;
  fo_time : dn_observed p <= dn_observed d;
  fo_revision : dn_revision p <= dn_revision d;
  fo_terms : dn_revision d = dn_revision p → dn_paid d = dn_paid p ∧ dn_grace d = dn_grace p ∧ dn_cohort d = dn_cohort p;
  fo_same : dn_revision d = dn_revision p → dn_observed d = dn_observed p → dn_allowed d = true → d = p;
  fo_expiry : dn_revision d = dn_revision p → dn_state d ≠ dn_state p → dn_state d = py "expired"
    ∧ ∃ z, (if str_eqb (dn_state p) (py "grace") then dn_grace p else dn_paid p) = PInt z ∧ z <= dn_observed d;
  fo_shape : (∃ z, dn_paid p = opt_int z) ∧ (∃ z, dn_grace p = opt_int z);
}.

Lemma raise_if_no b e : b = false → raise_if b e = Ok tt.
Proof. by intros ->. Qed.

Lemma follows_successor p d : follows p d → successor (Some p) d = Ok tt.
Proof.
  intros [(B1 & B2 & B3) Hc Hr Hi Ht Hv Hte Hs He [Sp Sg]]. unfold successor.
  rewrite B1, B2, B3, !(proj2 (str_eqb_eq _ _) eq_refl). cbn [andb require mbind result_bind].
  rewrite (raise_if_no (dn_cohort p && _ || _ || _)).
  2:{ destruct (dn_cohort p); [rewrite Hc by done|]; destruct (str_eqb (dn_state p) (py "revoked")) eqn:E;
        try (apply str_eqb_eq in E; rewrite (Hr E), (proj2 (str_eqb_eq _ _) eq_refl));
        destruct (dn_identity d); try rewrite Hi by done; by destruct (dn_identity p). }
  cbn [mbind result_bind]. rewrite (raise_if_no ((_ <? _) || _ || _)).
  2:{ rewrite (proj2 (Z.ltb_ge _ _)), (proj2 (Z.ltb_ge _ _)) by done. destruct (dn_revision d =? dn_revision p) eqn:E; [|done].
      apply Z.eqb_eq in E. destruct (Hte E) as (-> & -> & ->). destruct Sp as [? ->], Sg as [? ->]. by rewrite !py_eqb_opt, eqb_reflx. }
  cbn [mbind result_bind]. rewrite (raise_if_no (_ && dn_allowed d)).
  2:{ destruct (dn_observed d =? dn_observed p) eqn:E1; [|done]. destruct (dn_revision d <=? dn_revision p) eqn:E2; [|by rewrite !andb_false_r].
      destruct (dn_allowed d) eqn:E3; [|by rewrite !andb_false_r]. bools. rewrite (Hs ltac:(lia) E1 eq_refl), same_decision_refl by done. done. }
  cbn [mbind result_bind]. destruct (_ && _) eqn:E; [|done]. apply andb_true_iff in E as [E1%Z.eqb_eq E2%negb_true_iff%str_eqb_neq].
  destruct (He E1 E2) as [-> (z & -> & Hz)]. rewrite (proj2 (str_eqb_eq _ _) eq_refl). cbn [require mbind result_bind raise_if negb int_below num_gtb_Z].
  by rewrite (proj2 (Z.ltb_ge _ _)).
Qed.

(** The decisions of a registry that evolved follow its earlier ones. *)
Lemma decisions_follow g1 g2 d r1 r2 n1 n2 : friends_wf g1 → friends_wf g2 → evolves g1 g2 → n1 <= n2 →
  dget d (rg_devices g1) = Some r1 → dget d (rg_devices g2) = Some r2 → follows (decision_of g1 d r1 n1) (decision_of g2 d r2 n2).
Proof.
  intros W1 W2 Hev Hn H1 H2. pose proof Hev as [Kd _ _ _ _ _ Ks _]. destruct (Kd _ _ H1) as (r & Hr & K). rewrite H2 in Hr.
  injection Hr as <-. pose proof (identity_kept _ _ _ _ _ W1 W2 Hev H1 H2 K) as Hid. destruct K as (_ & Kwg & Ktcp & _).
  pose proof (decision_of_opts g1 d r1 n1) as Hsh. revert Hsh.
  assert (∀ s s', sb_version s' = sb_version s → sub_kept s s' → s' = s) as Hver.
  { intros s s' Hv [->|(Hlt & _)]; [done|lia]. }
  assert (∀ s, dget d (subscriptions_of g2) = Some s → 0 < sb_version s) as Hpos.
  { intros s Hs. pose proof (pw_checks _ (fw_paid _ W2) _ _ Hs) as Hc. unfold subscription_checks in Hc. by bools. }
  unfold decision_of. specialize (Ks d). destruct (dget d (subscriptions_of g1)) as [s|] eqn:E1.
  - destruct (Ks s eq_refl) as (s' & -> & Hk). intros Hsh.
    split; simpl; try done.
    + intros Hrev. assert (sb_state s = py "revoked") as Hs.
      { unfold effective_of in Hrev. destruct (str_eqb (sb_state s) (py "revoked")) eqn:E; [by apply str_eqb_eq in E|].
        destruct (is_open s && (n1 <? boundary s)); [|done]. simpl in Hrev. by rewrite Hrev in E. }
      destruct Hk as [->|(_ & Hne & _)]; [|done]. unfold effective_of. by rewrite Hs.
    + destruct Hk as [->|(? & _)]; lia.
    + intros Hv. by rewrite (Hver _ _ Hv Hk).
    + intros Hv ->. rewrite (Hver _ _ Hv Hk), Kwg, Ktcp. intros Ha. assert (identity_of g2 d r2 = true) as Hi by (by destruct (identity_of g2 d r2)).
      by rewrite Hi, (Hid Hi).
    + intros Hv. rewrite (Hver _ _ Hv Hk). intros Hne. destruct (effective_later s n1 n2 Hn) as (-> & -> & Ho & Hb); [congruence|].
      split; [done|]. assert (terms_ok s) as Ht by (by eapply (pw_terms _ (fw_paid _ W1))). unfold boundary in Hb.
      unfold is_open in Ho. destruct (str_eqb (sb_state s) (py "grace")) eqn:Eg; [|eauto].
      apply str_eqb_eq in Eg. destruct Ht as [[Hst _]|[[_ [z Hz]]|[Hst|Hst]]]; try (by rewrite Eg in Hst). rewrite Hz in *. simpl in *. eauto.
  - intros Hsh. destruct (dget d (subscriptions_of g2)) as [s'|] eqn:E2; split; simpl; try done; try (specialize (Hpos _ eq_refl); lia).
    intros _ ->. rewrite Kwg, Ktcp. intros Hi. by rewrite Hi, (Hid Hi).
Qed.

Section Snapshots.
Context {RN : Rns} {RNL : RnsLaws} {RNO : RnsOctets} (float_repr : spec_float → pystr) (secret : bytes).

Local Abbreviation run_ops := (run_ops float_repr secret).

(** C32: The registry and its nodes agree on the wire format: for a node of the
    deployment and a migrated registry of at most ten thousand devices the
    snapshot never fails, it decides on each enrolled device once and in order,
    and the node reads back from its JSON value exactly the decisions the
    registry took, at any time less than a lease after it was made, allowing for
    a clock that is behind by the skew. *)
Theorem snapshot_validates ops node now clock :
  Forall draws_ok ops → let g := run_ops ops new_registry in
  schema_present g = true → existsb (str_eqb node) NODES = true → 0 <= now <= MAX_TIME → zlen (rg_devices g) <= 10000 →
  clock - LEASE_SECONDS * SECOND < now * SECOND <= clock + CLOCK_SKEW_SECONDS * SECOND →
  ∃ e, snapshot g node now [] = Ok e ∧ (dn_device <$> en_decisions e) ≡ₚ dkeys (rg_devices g)
    ∧ validate_envelope (envelope_value e) node clock = Ok e.
Proof.
  intros Hd g Hs Hn Ht Hz Hc. assert (friends_wf g) as Hw by (by apply registry_reachable_wf).
  exists (envelope_of g node now (rg_devices g)). split; [by apply snapshot_all|]. split.
  - cbn [en_decisions envelope_of]. rewrite <- list_fmap_compose. unfold dkeys. rewrite by_device_perm.
    apply Permutation_refl'. apply list_fmap_ext. intros i [d r] _. cbn. unfold decision_of. by destruct (dget d (subscriptions_of g)).
  - by apply (validate_wf (envelope_of g node now (rg_devices g))); [apply envelope_of_wf|].
Qed.

(** C15: Later decisions are always acceptable after earlier ones: a node that
    holds the decision on a device from one snapshot accepts the decision of any
    snapshot taken later from the same registry, whatever operations happened in
    between; no honest pair is refused as a conflict, as stale, or as undoing a
    terminal decision, and no device disappears. *)
Theorem snapshots_follow ops1 ops2 node1 node2 n1 n2 e1 e2 :
  Forall draws_ok ops1 → Forall draws_ok ops2 → 0 <= n1 → n1 <= n2 → n2 <= MAX_TIME →
  let g1 := run_ops ops1 new_registry in let g2 := run_ops ops2 g1 in
  snapshot g1 node1 n1 [] = Ok e1 → snapshot g2 node2 n2 [] = Ok e2 →
  ∀ d1, d1 ∈ en_decisions e1 → ∃ d2, d2 ∈ en_decisions e2 ∧ dn_device d2 = dn_device d1 ∧ successor (Some d1) d2 = Ok tt.
Proof.
  intros H1 H2 Hn0 Hn Hm g1 g2 He1 He2 d1 Hd1.
  assert (friends_wf g1 ∧ friends_wf g2 ∧ evolves g1 g2) as (W1 & W2 & Hev) by exact (later_run _ _ _ _ H1 H2).
  assert (∀ g node n e, friends_wf g → 0 <= n <= MAX_TIME → snapshot g node n [] = Ok e → e = envelope_of g node n (rg_devices g)) as Heq.
  { intros g node n e Hw Hr Hs. pose proof Hs as Hs'. unfold snapshot in Hs'. repeat inv_ok1. rewrite snapshot_all in Hs by done. congruence. }
  apply Heq in He1 as ->; [|done|lia]. apply Heq in He2 as ->; [|done|lia].
  cbn [en_decisions envelope_of] in *. apply list_elem_of_fmap in Hd1 as ([d r1] & -> & Hin). rewrite by_device_perm in Hin.
  apply dget_NoDup in Hin; [|apply (fw_enrolment _ W1)]. destruct (ev_devices _ _ Hev _ _ Hin) as (r2 & Hr2 & _).
  exists (decision_of g2 d r2 n2). split; [|split].
  - apply list_elem_of_fmap. exists (d, r2). split; [done|]. rewrite by_device_perm. by apply dget_elem.
  - cbn [fst snd]. unfold decision_of. by destruct (dget d (subscriptions_of g1)), (dget d (subscriptions_of g2)).
  - apply follows_successor. by apply decisions_follow.
Qed.
End Snapshots.
