(* ===== verification/Gateway.v ===== *)
(** A transport node (control/friends/transport_gateway.py): the cache of the
    registry's decisions, what a node admits by it, and how a round of
    application brings the node's two engines to it.

    A round of application on a transport node (control/friends/transport_gateway.py):
    the commands it runs on the two engines, what it reads back from them, and
    the bounded retry. *)
From Stdlib Require Import ZArith Lia.
From S2P Require Import Prelude PyData Json JsonText Notices Rns Ack DeviceProof Registry Referrals PaidBeta.
From S2P Require Import TransportPolicy Ipaddress.

Local Open Scope Z_scope.

(** ** The cache *)

(** What a round of application observed of a device. *)
Record applied_state := AppliedState {
  as_expected : Z;
  as_applied : option Z;
  as_observed : Z;
  as_registered : bool;
  as_allowed : bool;
  as_result : pystr;
  as_reason : pystr;
}.

(** A cached decision; the deadline is a reading of the monotonic clock. *)
Record cached := Cached {
  ca_decision : decision;
  ca_boot : pystr;
  ca_deadline : Z;
  ca_applied : option applied_state;
  ca_prepared : option pystr;
}.

(** [transport-state.json] *)
Record node_state := NodeState { ns_records : list (pystr * cached); ns_observed : Z }.

(** One reading of the boot identifier and of the two clocks, in nanoseconds;
    the wall clock is read again for the time written beside a result. *)
Record reading := Reading { rd_boot : pystr; rd_clock : Z; rd_mono : Z; rd_stamp : Z }.

(** [int(self.clock())] *)
Definition seconds (t : Z) : Z := t / SECOND.

Definition bad_cache : exn := ValueError "INVALID_GATEWAY_CACHE".

Section Gateway.
Context (node : pystr).

(** The conditions of [load] on one record. *)
Definition check_record (p : pystr * cached) : result () :=
  require (match ca_prepared p.2 with Some t => hex_match 64 t | None => true end) (ValueError "INVALID_MEMBERSHIP_CACHE");;
  let d := ca_decision p.2 in
  require (str_eqb p.1 (dn_device d)) (ValueError "INVALID_GATEWAY_BINDING");;
  validate_envelope (envelope_value (Envelope node (dn_observed d) [d])) node (dn_observed d * SECOND);;
  Ok tt.

(** [load()] of the state the file holds, at a reading of the clock. *)
Definition load (file : result node_state) (now : Z) : result node_state :=
  st ← file;
  require ((zlen (ns_records st) <=? 10000) && (ns_observed st * SECOND <=? now + CLOCK_SKEW_SECONDS * SECOND)) bad_cache;;
  foldR (λ _, check_record) tt (ns_records st);;
  Ok st.

(** [allowed(cached)] *)
Definition allowed (r : reading) (c : cached) : bool :=
  let d := ca_decision c in
  if negb (dn_allowed d) then false
  else if negb (dn_cohort d) then match ca_prepared c with Some t => bool_decide (t = []) | None => true end
  else str_eqb (ca_boot c) (rd_boot r) && (rd_clock r <? dn_valid d * SECOND) && (rd_mono r <? ca_deadline c).

(** The decision on a device that the cache holds another key or user for. *)
Definition binding_taken (d : decision) (l : list (pystr * cached)) : bool :=
  existsb (λ p, negb (str_eqb p.1 (dn_device d))
    && (str_eqb (dn_key (ca_decision p.2)) (dn_key d) || str_eqb (dn_tcp (ca_decision p.2)) (dn_tcp d))) l.

(** One decision of an envelope, at the readings made when it is stored. *)
Definition accept_decision (r : reading) (l : list (pystr * cached)) (d : decision) : result (list (pystr * cached)) :=
  let old := dget (dn_device d) l in
  successor (ca_decision <$> old) d;;
  raise_if (binding_taken d l) (ValueError "DUPLICATE_GATEWAY_BINDING");;
  if match old with Some c => same_decision d (ca_decision c) | None => false end then Ok l
  else Ok (dset (dn_device d)
    (Cached d (rd_boot r)
       (rd_mono r + Z.min (LEASE_SECONDS * SECOND) (Z.max 0 (dn_valid d * SECOND - rd_clock r)))
       (old ≫= ca_applied) (old ≫= ca_prepared)) l).

(** The loop of [accept]; the readings are taken anew for every decision. *)
Fixpoint accept_decisions (r : nat → reading) (l : list (pystr * cached)) (ds : list decision) : result (list (pystr * cached)) :=
  match ds with
  | [] => Ok l
  | d :: ds => l ← accept_decision (r O) l d; accept_decisions (λ i, r (S i)) l ds
  end.

(** The readings of one call of [accept]: at validation, when the cache is
    loaded, for each decision, and at the end. *)
Record accept_clock := AcceptClock { ac_validate : Z; ac_load : Z; ac_decisions : nat → reading; ac_end : Z }.

(** [accept(envelope)]; the state is the contents of the cache file. *)
Definition accept (c : accept_clock) (v : pyval) : M (result node_state) node_state :=
  e ← lift (validate_envelope v node (ac_validate c));
  file ← get_state;
  st ← lift (load file (ac_load c));
  l ← lift (accept_decisions (ac_decisions c) (ns_records st) (en_decisions e));
  let st := NodeState l (Z.max (ns_observed st) (seconds (ac_end c))) in
  put_state (Ok st);;
  mret st.

(** [prepare(envelope, token)] *)
Definition envelope_size (v : pyval) : result Z :=
  d ← of_option TypeError (as_dict v);
  l ← item "decisions" d;
  match l with
  | PList l => Ok (zlen l)
  | PDict l => Ok (zlen l)
  | PStr s => Ok (zlen s)
  | PBytes b => Ok (zlen b)
  | _ => Raise TypeError
  end.

Definition prepare_membership (c : accept_clock) (v token : pyval) : M (result node_state) () :=
  let bad := ValueError "INVALID_MEMBERSHIP_PREPARATION" in
  t ← lift (of_option bad (as_str token));
  lift (require (hex_match 64 t) bad);;
  n ← lift (envelope_size v);
  lift (require (n =? 1) bad);;
  st ← accept c v;
  e ← lift (validate_envelope v node (ac_validate c));
  d ← lift (of_option IndexError (head (en_decisions e)));
  old ← lift (of_option KeyError (dget (dn_device d) (ns_records st)));
  lift (raise_if (dn_cohort (ca_decision old)) (ValueError "MEMBERSHIP_OPERATION_CONFLICT"));;
  put_state (Ok (NodeState (dset (dn_device d)
    (Cached (ca_decision old) (ca_boot old) (ca_deadline old) (ca_applied old) (Some t)) (ns_records st)) (ns_observed st))).

(** [peer_allowed(public)] *)
Definition peer_allowed (file : result node_state) (now : Z) (r : reading) (public : pystr) : result bool :=
  st ← load file now;
  match List.filter (λ p, str_eqb (dn_key (ca_decision p.2)) public) (ns_records st) with
  | [] => Ok true
  | p :: _ => Ok (allowed r p.2)
  end.

(** ** Planning a round *)

Definition tcp_email (device : pystr) : pystr := device ++ py "@family.test".

(** The client entry of a device in the configuration of the TCP engine. *)
Definition expected_client (d : decision) (device : pystr) : pyval :=
  PDict [(PStr (py "id"), PStr (dn_tcp d)); (PStr (py "email"), PStr (tcp_email device));
         (PStr (py "flow"), PStr (py "xtls-rprx-vision"))].

Definition client_matches (d : decision) (device : pystr) (v : pyval) : result bool :=
  c ← of_option AttributeError (as_dict v);
  Ok (match lookup_str "email" c with Some x => key_is_str (tcp_email device) x | None => false end
      || match lookup_str "id" c with Some x => key_is_str (dn_tcp d) x | None => false end).

Definition matching_clients (d : decision) (device : pystr) (clients : list pyval) : result (list pyval) :=
  flags ← mapR (client_matches d device) clients;
  Ok (List.map fst (List.filter snd (zip clients flags))).

(** [clients.remove(client)]: the first equal entry. *)
Fixpoint remove_client (v : pyval) (l : list pyval) : list pyval :=
  match l with
  | [] => []
  | x :: l => if py_eqb x v then l else x :: remove_client v l
  end.

Definition reason_of (c : cached) (admitted : bool) : pystr :=
  let d := ca_decision c in
  if match ca_prepared c with Some t => negb (bool_decide (t = [])) | None => false end && negb (dn_cohort d) then py "membership-pending"
  else if negb (dn_allowed d) then py "canonical"
  else if negb (dn_cohort d) then py "noncohort"
  else if negb admitted then py "lease-expired" else py "lease-valid".

(** One record of [plan]: the client list and whether it changed. *)
Definition plan_record (r : reading) (peers : list (pystr * pystr)) (clients : list pyval) (p : pystr * cached) :
    result (list pyval * bool * applied_state) :=
  let d := ca_decision p.2 in
  matching ← matching_clients d p.1 clients;
  require (match matching with [] => true | [c] => py_eqb c (expected_client d p.1) | _ => false end)
    (ValueError "TCP_BINDING_CONFLICT");;
  let registered := dmem (dn_key d) peers in
  let present := negb (Nat.eqb (length matching) 0) in
  raise_if (negb registered && present) (ValueError "INCOMPLETE_NODE_BINDING");;
  let admitted := allowed r p.2 in
  let clients1 := if negb admitted then match matching with c :: _ => remove_client c clients | [] => clients end else clients in
  let clients2 := if admitted && registered && negb present then clients1 ++ [expected_client d p.1] else clients1 in
  Ok (clients2, negb admitted && present || admitted && registered && negb present,
      AppliedState (dn_revision d) None (seconds (rd_stamp r)) registered (registered && admitted) (py "pending") (reason_of p.2 admitted)).

Fixpoint plan_records (r : nat → reading) (peers : list (pystr * pystr)) (clients : list pyval) (l : list (pystr * cached)) :
    result (list pyval * bool * list (pystr * applied_state)) :=
  match l with
  | [] => Ok (clients, false, [])
  | p :: l =>
      '(clients, changed, o) ← plan_record (r O) peers clients p;
      '(clients, changed', os) ← plan_records (λ i, r (S i)) peers clients l;
      Ok (clients, changed || changed', (p.1, o) :: os)
  end.

(** [plan()]: the state, the observations, and the client list to write, with
    whether it changed; [peers] are the registered keys with their addresses. *)
Definition plan (file : result node_state) (now : Z) (r : nat → reading) (peers : list (pystr * pystr)) (clients : list pyval) :
    result (node_state * list (pystr * applied_state) * list pyval * bool) :=
  st ← load file now;
  '(clients, changed, os) ← plan_records r peers clients (ns_records st);
  Ok (st, os, clients, changed).
End Gateway.

(** ** The node's machine *)

(** The files and the engines of a node: the cache, the client list of the TCP
    engine, the registered keys with their addresses; the outputs the next
    commands will have (an exception when one fails), and those that were run. *)
Record machine := Machine {
  mc_file : result node_state;
  mc_clients : list pyval;
  mc_peers : list (pystr * pystr);
  mc_outputs : list (result bytes);
  mc_commands : list (list pystr);
  mc_attempt : option pystr;
}.

Definition set_file x m := Machine x (mc_clients m) (mc_peers m) (mc_outputs m) (mc_commands m) (mc_attempt m).
Definition set_clients x m := Machine (mc_file m) x (mc_peers m) (mc_outputs m) (mc_commands m) (mc_attempt m).
Definition set_attempt x m := Machine (mc_file m) (mc_clients m) (mc_peers m) (mc_outputs m) (mc_commands m) x.

(** [self.run(arguments)] *)
Definition run (args : list pystr) : M machine bytes := λ m,
  let log := mc_commands m ++ [args] in
  match mc_outputs m with
  | r :: rs => (r, Machine (mc_file m) (mc_clients m) (mc_peers m) rs log (mc_attempt m))
  | [] => (Raise OSError, Machine (mc_file m) (mc_clients m) (mc_peers m) [] log (mc_attempt m))
  end.

(** ** Reading the engines back *)

(** The peers a listing names, with their addresses. *)
Definition parse_peers (text : pystr) : result (list (pystr * pystr)) :=
  foldR (λ live line,
    match split_words [] line with
    | [public; address] => require (negb (dmem public live)) (ValueError "INVALID_AWG_READBACK");; Ok (dset public address live)
    | _ => Raise (ValueError "INVALID_AWG_READBACK")
    end) [] (splitlines [] text).

Section Round.
(** The node, [self.root], [self.root.parent] and [gateway.IFACE]. *)
Context (node root parent iface : pystr).

Definition tool (name : string) : pystr := root ++ py name.
Definition xray : pystr := parent ++ py "/friends-tcp/xray".

(** [awg_snapshot()] *)
Definition awg_snapshot : M machine (list (pystr * pystr)) :=
  out ← run [tool "/awg"; py "show"; iface; py "allowed-ips"];
  text ← lift (of_option (ValueError "UnicodeDecodeError") (utf8_decode out));
  lift (parse_peers text).

(** A user of the TCP engine: its email, its identity and its account. *)
Definition parse_user (v : pyval) : result (pystr * pystr * list (pyval * pyval)) :=
  let bad := ValueError "INVALID_TCP_READBACK" in
  d ← of_option bad (as_dict v);
  email ← of_option bad (lookup_str "email" d ≫= as_str);
  require (negb (bool_decide (email = []))) bad;;
  account ← of_option bad (lookup_str "account" d ≫= as_dict);
  id ← of_option bad (lookup_str "id" account ≫= as_str);
  require (negb (bool_decide (id = []))) bad;;
  Ok (email, id, account).

Abbreviation users := (list (pystr * (pystr * list (pyval * pyval)))) (only parsing).

Definition parse_users (v : pyval) : result users :=
  let bad := ValueError "INVALID_TCP_READBACK" in
  d ← of_option bad (as_dict v);
  require (forallb (λ p, key_is_str (py "users") p.1) d) bad;;
  l ← (match lookup_str "users" d with None => Ok [] | Some v => of_option bad (as_list v) end);
  foldR (λ us v,
    '(email, id, account) ← parse_user v;
    require (negb (dmem email us) && negb (existsb (λ p, str_eqb p.2.1 id) us)) bad;;
    Ok (dset email (id, account) us)) [] l.

(** [tcp_snapshot()]: the users by email, with the identities they hold. *)
Definition tcp_snapshot : M machine users :=
  out ← run [xray; py "api"; py "inbounduser"; py "--server=127.0.0.1:18085"; py "-tag=friends"];
  v ← lift (of_option (ValueError "JSONDecodeError") (json_loads_bytes out));
  lift (parse_users v).

(** ** One attempt *)

(** The commands that bring the peers of one record in line. *)
Definition align_peer (live peers : list (pystr * pystr)) (p : pystr * cached) (o : applied_state) : M machine () :=
  let public := dn_key (ca_decision p.2) in
  match dget public peers with
  | None => mret ()
  | Some address =>
      if as_allowed o && negb (bool_decide (dget public live = Some address)) then
        run [tool "/awg"; py "set"; iface; py "peer"; public; py "allowed-ips"; address];; mret ()
      else if negb (as_allowed o) && dmem public live then
        run [tool "/awg"; py "set"; iface; py "peer"; public; py "remove"];; mret ()
      else mret ()
  end.

(** Whether the cache has moved on since the plan was made. *)
Definition moved_on (r : nat → reading) (l : list (pystr * cached)) (os : list (pystr * applied_state)) : bool :=
  existsb (λ x, negb (Bool.eqb (as_allowed x.2.2.2) (as_registered x.2.2.2 && allowed (r x.1) x.2.1.2))) (imap pair (zip l os)).

(** What one record shows: applied, or overtaken, or a mismatch that raises. *)
Definition verify_record (live peers : list (pystr * pystr)) (us : users) (overtaken : bool) (p : pystr * cached) (o : applied_state) :
    result (option applied_state) :=
  let d := ca_decision p.2 in
  let mismatch := ValueError "ENGINE_READBACK_MISMATCH" in
  let user := dget (tcp_email p.1) us in
  let present := match user with Some u => str_eqb u.1 (dn_tcp d) | None => false end in
  let flow := match user with Some u => match lookup_str "flow" u.2 with Some v => key_is_str (py "xtls-rprx-vision") v | None => false end
              | None => false end in
  raise_if ((bool_decide (is_Some user) || existsb (λ x, str_eqb x.2.1 (dn_tcp d)) us) && (negb present || negb flow)) mismatch;;
  let awg := dmem (dn_key d) live in
  let expected := as_allowed o in
  if negb (Bool.eqb present expected) || negb (Bool.eqb awg expected)
     || expected && negb (bool_decide (dget (dn_key d) live = dget (dn_key d) peers)) then
    require overtaken mismatch;; Ok None
  else Ok (Some (AppliedState (as_expected o) (Some (dn_revision d)) (as_observed o) (as_registered o) expected (py "applied") (as_reason o))).

(** The second loop of [readback]; the cache is read again for each mismatch. *)
Fixpoint verify_records (r : nat → nat → reading) (all : list (pystr * cached)) (os : list (pystr * applied_state))
    (live peers : list (pystr * pystr)) (us : users) (l : list (pystr * cached)) (lo : list (pystr * applied_state)) :
    result (option (list (pystr * cached))) :=
  match l, lo with
  | p :: l, o :: lo =>
      v ← verify_record live peers us (moved_on (r O) all os) p o.2;
      match v with
      | None => Ok None
      | Some o' =>
          rest ← verify_records (λ i, r (S i)) all os live peers us l lo;
          Ok (match rest with
              | Some rest => Some ((p.1, Cached (ca_decision p.2) (ca_boot p.2) (ca_deadline p.2) (Some o') (ca_prepared p.2)) :: rest)
              | None => None
              end)
      end
  | _, _ => Ok (Some [])
  end.

(** The readings of an attempt: when the plan is made, at each mismatch, before
    and at the end. *)
Record attempt_clock := AttemptClock {
  at_load : Z;
  at_plan : nat → reading;
  at_mismatch : nat → nat → reading;
  at_final : nat → reading;
  at_end : Z;
}.

(** [readback(state, peers, observations)] *)
Definition readback (c : attempt_clock) (st : node_state) (peers : list (pystr * pystr)) (os : list (pystr * applied_state)) : M machine bool :=
  live ← awg_snapshot;
  iterM (λ x, align_peer live peers x.1 x.2.2) (zip (ns_records st) os);;
  us ← tcp_snapshot;
  live ← awg_snapshot;
  v ← lift (verify_records (at_mismatch c) (ns_records st) os live peers us (ns_records st) os);
  match v with
  | None => mret false
  | Some l =>
      if moved_on (at_final c) (ns_records st) os then mret false
      else
        modify (set_file (Ok (NodeState l (seconds (at_end c)))));;
        modify (set_attempt (Some (py "applied")));;
        mret true
  end.

(** One turn of [apply_serialized]. *)
Definition attempt (c : attempt_clock) : M machine bool :=
  m ← get_state;
  '(st, os, clients, changed) ← lift (plan node (mc_file m) (at_load c) (at_plan c) (mc_peers m) (mc_clients m));
  (if (changed : bool) then
     modify (set_clients clients);;
     run [py "systemctl"; py "restart"; py "family-connect-friends-tcp.service"];; mret ()
   else mret ());;
  readback c st (mc_peers m) os.

(** [apply_serialized()]: at most twelve attempts. *)
Fixpoint attempts (n : nat) (c : nat → attempt_clock) : M machine () :=
  match n with
  | O => raise (ValueError "APPLICATION_DID_NOT_CONVERGE")
  | S n => converged ← attempt (c O); if (converged : bool) then mret () else attempts n (λ i, c (S i))
  end.
Definition apply_serialized (c : nat → attempt_clock) : M machine () := attempts 12 c.

(** [stop_all()]: a service that cannot be stopped is killed. *)
Definition SERVICES : list pystr := List.map py ["family-connect-friends-awg.service"; "family-connect-friends-tcp.service"]%string.
Definition stop_all : M machine () :=
  iterM (λ service,
    tryM (run [py "systemctl"; py "stop"; service];; mret ())
      (λ e, if bool_decide (e = OSError ∨ e = SubprocessError) then
              run [py "systemctl"; py "kill"; py "--signal=KILL"; service];; mret ()
            else raise e)) SERVICES.

(** [failure()] *)
Definition failure : M machine () := modify (set_attempt (Some (py "error"))).
End Round.
