(* ===== verification/GatewaySpec.v ===== *)
(** A node fed by the registry: it accepts every snapshot, its cache is the
    registry's view, and what it admits was granted at most a lease ago.

    Transport nodes: every snapshot of the registry is taken in, what a node
    admits was granted at most a lease ago, and a converged round leaves the
    engines with exactly the devices the cache admits. *)
From Stdlib Require Import ZArith Lia.
From S2P Require Import Prelude PyData Json JsonText Notices Rns Ack DeviceProof Registry Referrals PaidBeta.
From S2P Require Import TransportPolicy PaidEvents RegistrySpec FriendsInv FriendsOps PaidOps.
From S2P Require Import FriendsRuns PaidSafety TransportSpec Gateway.

Local Open Scope Z_scope.

Lemma foldR_unit {A} (f : A → result ()) l : (∀ x, x ∈ l → f x = Ok tt) → foldR (λ _ : (), f) tt l = Ok tt.
Proof.
  induction l as [|x l IH]; [done|]. intros Hf. cbn [foldR]. rewrite Hf by (by left). cbn [mbind result_bind].
  apply IH. intros y Hy. apply Hf. by right.
Qed.

Lemma py_eqb_opt_eq x y : py_eqb (opt_int x) (opt_int y) = true → x = y.
Proof. destruct x, y; try done. simpl. by intros ->%Z.eqb_eq. Qed.

Lemma same_decision_eq a b : same_decision a b = true → (∃ z, dn_paid a = opt_int z) → (∃ z, dn_grace a = opt_int z) →
  (∃ z, dn_paid b = opt_int z) → (∃ z, dn_grace b = opt_int z) → a = b.
Proof.
  unfold same_decision. intros H [z1 E1] [z2 E2] [z3 E3] [z4 E4]. rewrite E1, E2, E3, E4 in H. bools.
  repeat match goal with
  | H : str_eqb _ _ = true |- _ => apply str_eqb_eq in H
  | H : Bool.eqb _ _ = true |- _ => apply Bool.eqb_prop in H
  | H : py_eqb _ _ = true |- _ => apply py_eqb_opt_eq in H
  end. destruct a, b. simpl in *. congruence.
Qed.

Lemma decision_of_binding g d row n :
  dn_device (decision_of g d row n) = d ∧ dn_key (decision_of g d row n) = dv_wg row
  ∧ dn_tcp (decision_of g d row n) = dv_tcp row ∧ dn_observed (decision_of g d row n) = n.
Proof. unfold decision_of. by destruct (dget d (subscriptions_of g)). Qed.

(** What a snapshot is, of one device or of all. *)
Lemma snapshot_decisions g node now device e : friends_wf g → 0 <= now <= MAX_TIME → zlen (rg_devices g) <= 10000 →
  snapshot g node now device = Ok e →
  envelope_wf e ∧ en_node e = node ∧ en_observed e = now
  ∧ ∀ d, d ∈ en_decisions e → ∃ row, dget (dn_device d) (rg_devices g) = Some row ∧ d = decision_of g (dn_device d) row now.
Proof.
  intros Hw Ht Hz Hs. pose proof Hw as [He _ _ _ _]. unfold snapshot, read_snapshot in Hs. repeat inv_ok1.
  set (recs := match device with [] => rg_devices g | _ :: _ => List.filter (λ p, str_eqb p.1 device) (rg_devices g) end) in *.
  assert (∀ p, p ∈ recs → p ∈ rg_devices g) as Hsub.
  { unfold recs. destruct device; [done|]. intros p. rewrite !list_elem_of_In. by intros [? _]%filter_In. }
  assert (NoDup (dkeys recs)) as Hnd.
  { unfold recs. destruct device; [apply He|]. pose proof (ew_devices _ _ He) as Hn. clear -Hn. unfold dkeys in *.
    induction (rg_devices g) as [|p l IH]; [done|]. rewrite fmap_cons in Hn. apply NoDup_cons in Hn as [Hp Hn]. cbn [List.filter].
    destruct (str_eqb _ _); [|by apply IH]. rewrite fmap_cons. apply NoDup_cons. split; [|by apply IH].
    intros Hin. apply Hp. apply list_elem_of_fmap in Hin as (q & -> & Hq). apply list_elem_of_fmap. exists q. split; [done|].
    rewrite list_elem_of_In in *. by apply filter_In in Hq as [? _]. }
  assert (length recs <= length (rg_devices g))%nat as Hlen.
  { unfold recs. destruct device; [done|]. apply filter_length_le. }
  assert (∀ d r, (d, r) ∈ by_device recs → dget d (rg_devices g) = Some r) as Hin.
  { intros d r Hp. rewrite by_device_perm in Hp. apply dget_NoDup; [apply He|by apply Hsub]. }
  match goal with H : mapR _ _ = Ok ?l |- _ => rewrite (mapR_all _ (λ p, decision_of g p.1 p.2 now)) in H end.
  2:{ intros [d r] Hp. apply decide_device_wf; try done. by apply Hin. }
  simplify_eq. split_and!; [split| | |]; cbn [en_node en_decisions en_observed]; try done.
  - unfold zlen in *. rewrite length_fmap, (Permutation_length (by_device_perm _)). lia.
  - apply Forall_fmap, Forall_forall. intros [d r] Hp. apply decision_of_wf; [done|by apply Hin].
  - apply decisions_distinct; [done|done|]. unfold dkeys. by rewrite by_device_perm.
  - intros d ([d' r] & -> & Hp)%list_elem_of_fmap. cbn [fst snd]. destruct (decision_of_binding g d' r now) as [-> _].
    exists r. split; [by apply Hin|done].
Qed.

(** ** The feed *)

(** The clocks of a call that takes in a snapshot of time [now], when the
    node's latest cached time is at most [t]: the snapshot is younger than a
    lease and at most the skew ahead, and the cache is not further ahead. *)
Definition clock_ok (c : accept_clock) (now t : Z) : Prop :=
  ac_validate c - LEASE_SECONDS * SECOND < now * SECOND <= ac_validate c + CLOCK_SKEW_SECONDS * SECOND
  ∧ t <= ac_load c + CLOCK_SKEW_SECONDS * SECOND.

Section Feed.
Context {RN : Rns} {RNL : RnsLaws} {RNO : RnsOctets} (float_repr : spec_float → pystr) (secret : bytes).
Context (node : pystr) (R : Z → reading → Prop).

(** [fed g n t st]: the registry reached [g], its node's cache [st] was filled
    from its snapshots, the last one of time [n], and the cache was written
    last at [t] nanoseconds; [R n r] are the readings the node made while it
    took in a snapshot of time [n].  A call whose envelope was lost on the way
    does not appear. *)
Inductive fed : registry → Z → Z → node_state → Prop :=
  | fed_start : fed new_registry 0 0 (NodeState [] 0)
  | fed_registry g n t st ops : fed g n t st → Forall draws_ok ops → fed (run_ops float_repr secret ops g) n t st
  | fed_accept g n t st now device c e st' :
      fed g n t st → n <= now <= MAX_TIME → zlen (rg_devices g) <= 10000 → snapshot g node now device = Ok e →
      clock_ok c now t → (∀ i, R now (ac_decisions c i)) →
      (accept node c (envelope_value e) (Ok st)).2 = Ok st' → fed g now (Z.max t (ac_end c)) st'
  | fed_prepare g n t st now device c e token st' :
      fed g n t st → n <= now <= MAX_TIME → zlen (rg_devices g) <= 10000 → snapshot g node now device = Ok e →
      clock_ok c now t → (∀ i, R now (ac_decisions c i)) →
      (prepare_membership node c (envelope_value e) token (Ok st)).2 = Ok st' → fed g now (Z.max t (ac_end c)) st'.

(** A cached record: the decision of an earlier registry, with the boot and a
    deadline of a reading made when it was taken in. *)
Record holds (g : registry) (n : Z) (d : pystr) (c : cached) (g0 : registry) (n0 : Z) (row : device_row) (r : reading) : Prop := {
  ho_wf : friends_wf g0;
  ho_evolves : evolves g0 g;
  ho_time : 0 <= n0 <= n;
  ho_reading : R n0 r;
  ho_row : dget d (rg_devices g0) = Some row;
  ho_decision : ca_decision c = decision_of g0 d row n0;
  ho_boot : ca_boot c = rd_boot r;
  ho_deadline : ca_deadline c <= rd_mono r + LEASE_SECONDS * SECOND;
  ho_prepared : match ca_prepared c with Some t => hex_match 64 t = true | None => True end;
}.

Record cache_wf (g : registry) (n : Z) (l : list (pystr * cached)) : Prop := {
  cw_keys : NoDup (dkeys l);
  cw_holds d c : dget d l = Some c → ∃ g0 n0 row r, holds g n d c g0 n0 row r;
}.

Lemma holds_later g g' n n' d c g0 n0 row r : evolves g g' → n <= n' → holds g n d c g0 n0 row r → holds g' n' d c g0 n0 row r.
Proof. intros Hev Hn [? ? [? ?] ? ? ? ? ? ?]. split; try done; [by eapply evolves_trans|lia]. Qed.

Lemma cache_later g g' n n' l : evolves g g' → n <= n' → cache_wf g n l → cache_wf g' n' l.
Proof.
  intros Hev Hn [Hk Hh]. split; [done|]. intros d c (g0 & n0 & row & r & H)%Hh. exists g0, n0, row, r. by eapply holds_later.
Qed.

Lemma cache_set g n l d c g0 n0 row r : cache_wf g n l → holds g n d c g0 n0 row r → cache_wf g n (dset d c l).
Proof.
  intros [Hk Hh] H. split; [by apply dset_NoDup|]. intros d' c'. rewrite dget_dset. case_decide; [|by apply Hh].
  intros [= <-]. subst. eauto 6.
Qed.

(** ** One decision *)

Lemma binding_free g n l d row : friends_wf g → cache_wf g n l → dget d (rg_devices g) = Some row →
  binding_taken (decision_of g d row n) l = false.
Proof.
  intros Hw [Hk Hh] Hd. unfold binding_taken. apply not_true_is_false. intros (p & Hin & Hp)%existsb_exists.
  destruct (decision_of_binding g d row n) as (E1 & E2 & E3 & _). rewrite E1, E2, E3 in Hp.
  apply andb_true_iff in Hp as [Hne%negb_true_iff%str_eqb_neq Hor]. destruct p as [d' c]. cbn [fst snd] in *.
  rewrite <- list_elem_of_In in Hin. apply dget_NoDup, Hh in Hin as (g0 & n0 & row0 & r & H); [|done].
  destruct (ev_devices _ _ (ho_evolves _ _ _ _ _ _ _ _ H) _ _ (ho_row _ _ _ _ _ _ _ _ H)) as (row' & Hr' & K & Kw & Kt & _).
  rewrite (ho_decision _ _ _ _ _ _ _ _ H) in Hor. destruct (decision_of_binding g0 d' row0 n0) as (_ & E5 & E6 & _).
  rewrite E5, E6 in Hor. apply Hne. apply (ew_unique _ _ (fw_enrolment _ Hw) _ _ _ _ Hr' Hd).
  apply orb_true_iff in Hor as [E%str_eqb_eq|E%str_eqb_eq]; [right; left|right; right]; congruence.
Qed.

Lemma accept_decision_fed g n l d row r : friends_wf g → cache_wf g n l → 0 <= n → R n r → dget d (rg_devices g) = Some row →
  ∃ l' c, accept_decision r l (decision_of g d row n) = Ok l' ∧ cache_wf g n l' ∧ dget d l' = Some c
    ∧ ca_decision c = decision_of g d row n ∧ ∀ d', d' ≠ d → dget d' l' = dget d' l.
Proof.
  intros Hw Hc Hn Hr Hd. unfold accept_decision. pose proof (decision_of_binding g d row n) as (E1 & _). rewrite E1.
  assert (successor (ca_decision <$> dget d l) (decision_of g d row n) = Ok tt) as ->.
  { destruct (dget d l) as [c|] eqn:E; [|done]. apply Hc in E as (g0 & n0 & row0 & r0 & []). cbn. rewrite ho_decision0.
    apply follows_successor. by apply decisions_follow; [| | |lia|..]. }
  cbn [mbind result_bind]. rewrite binding_free by done. cbn [raise_if negb require mbind result_bind].
  assert (∀ c, ca_decision c = decision_of g d row n → ca_boot c = rd_boot r → ca_deadline c <= rd_mono r + LEASE_SECONDS * SECOND →
    match ca_prepared c with Some t => hex_match 64 t = true | None => True end → holds g n d c g n row r) as Hmk.
  { intros c ? ? ? ?. split; try done; apply evolves_refl. }
  destruct (dget d l) as [c|] eqn:E.
  - pose proof E as (g0 & n0 & row0 & r0 & Ho)%(cw_holds _ _ _ Hc). destruct (same_decision _ _) eqn:Es.
    + exists l, c. split_and!; try done. apply same_decision_eq in Es; [done|apply decision_of_opts..| |];
      rewrite (ho_decision _ _ _ _ _ _ _ _ Ho); apply decision_of_opts.
    + eexists _, _. split; [reflexivity|]. split_and!; [|by rewrite dget_dset_eq|done|intros; by rewrite dget_dset_ne].
      eapply cache_set; [done|]. apply Hmk; cbn [ca_decision ca_boot ca_deadline ca_prepared]; [done..|lia|].
      cbn. apply (ho_prepared _ _ _ _ _ _ _ _ Ho).
  - eexists _, _. split; [reflexivity|]. split_and!; [|by rewrite dget_dset_eq|done|intros; by rewrite dget_dset_ne].
    eapply cache_set; [done|]. by apply Hmk; cbn [ca_decision ca_boot ca_deadline ca_prepared]; [..|lia|].
Qed.

Lemma accept_decisions_fed g n ds l r : friends_wf g → cache_wf g n l → 0 <= n → (∀ i, R n (r i)) → NoDup (dn_device <$> ds) →
  (∀ d, d ∈ ds → ∃ row, dget (dn_device d) (rg_devices g) = Some row ∧ d = decision_of g (dn_device d) row n) →
  ∃ l', accept_decisions r l ds = Ok l' ∧ cache_wf g n l'
    ∧ (∀ d, d ∈ ds → ca_decision <$> dget (dn_device d) l' = Some d)
    ∧ (∀ d', d' ∉ dn_device <$> ds → dget d' l' = dget d' l).
Proof.
  intros Hw Hc Hn. revert l r Hc. induction ds as [|d ds IH]; intros l r Hc Hr Hnd Hds.
  - exists l. split_and!; try done. intros d Hd. by apply not_elem_of_nil in Hd.
  - destruct (Hds d) as (row & Hrow & Hd); [by left|]. rewrite fmap_cons in Hnd. apply NoDup_cons in Hnd as [Hni Hnd].
    destruct (accept_decision_fed g n l (dn_device d) row (r O) Hw Hc Hn (Hr O) Hrow) as (l1 & c & E & Hc1 & Hg1 & Hdec & Ho1).
    cbn [accept_decisions]. rewrite <- Hd in E, Hdec. rewrite E. cbn [mbind result_bind].
    destruct (IH l1 (λ i, r (S i)) Hc1) as (l' & -> & Hc' & Hin & Hout); [intros i; apply Hr|done|intros; apply Hds; by right|].
    exists l'. split_and!; try done.
    + intros x [->|Hx]%elem_of_cons; [|by apply Hin]. rewrite Hout, Hg1 by done. cbn. by rewrite Hdec.
    + intros d' [Hne Hn']%not_elem_of_cons. rewrite Hout by done. by apply Ho1.
Qed.

(** ** A whole call *)

Lemma cache_loads g n l o now : existsb (str_eqb node) NODES = true → cache_wf g n l → zlen l <= 10000 →
  o * SECOND <= now + CLOCK_SKEW_SECONDS * SECOND → load node (Ok (NodeState l o)) now = Ok (NodeState l o).
Proof.
  intros Hnode [Hk Hh] Hz Ho. unfold load. cbn [mbind result_bind ns_records ns_observed].
  rewrite (proj2 (Z.leb_le _ _) Hz), (proj2 (Z.leb_le _ _) Ho). cbn [andb require mbind result_bind].
  rewrite foldR_unit; [done|]. intros [d c] Hin. apply dget_NoDup, Hh in Hin as (g0 & n0 & row & r & []); [|done].
  unfold check_record. cbn [fst snd]. assert (match ca_prepared c with Some t => hex_match 64 t | None => true end = true) as ->
    by (by destruct (ca_prepared c)). cbn [require mbind result_bind]. rewrite ho_decision0.
  destruct (decision_of_binding g0 d row n0) as (-> & _ & _ & ->). rewrite (proj2 (str_eqb_eq _ _) eq_refl).
  cbn [require mbind result_bind].
  change node with (en_node (Envelope node n0 [decision_of g0 d row n0])) at 2. rewrite validate_wf; [done| |].
  - split; cbn [en_node en_decisions en_observed]; [done|done|..].
    + constructor; [by apply decision_of_wf|constructor].
    + split_and!; apply NoDup_singleton.
  - cbn [en_observed]. unfold LEASE_SECONDS, CLOCK_SKEW_SECONDS, SECOND. lia.
Qed.

Lemma cache_size g n l : friends_wf g → cache_wf g n l → (length l <= length (rg_devices g))%nat.
Proof.
  intros Hw [Hk Hh]. rewrite <- (length_fmap fst l), <- (length_fmap fst (rg_devices g)).
  apply submseteq_length, NoDup_submseteq; [done|]. intros d Hd. apply list_elem_of_fmap in Hd as ([d' c] & -> & Hin).
  apply dget_NoDup, Hh in Hin as (g0 & n0 & row & r & H); [|done].
  destruct (ev_devices _ _ (ho_evolves _ _ _ _ _ _ _ _ H) _ _ (ho_row _ _ _ _ _ _ _ _ H)) as (row' & Hr' & _).
  by eapply dget_Some_key.
Qed.

Lemma accept_fed g n t l o now device c e : friends_wf g → cache_wf g n l → 0 <= n <= now → now <= MAX_TIME →
  o * SECOND <= t → zlen (rg_devices g) <= 10000 → snapshot g node now device = Ok e → clock_ok c now t → (∀ i, R now (ac_decisions c i)) →
  ∃ l', accept node c (envelope_value e) (Ok (NodeState l o)) =
      (Ok (NodeState l' (Z.max o (seconds (ac_end c)))), Ok (NodeState l' (Z.max o (seconds (ac_end c)))))
    ∧ validate_envelope (envelope_value e) node (ac_validate c) = Ok e
    ∧ cache_wf g now l'
    ∧ (∀ d, d ∈ en_decisions e → ca_decision <$> dget (dn_device d) l' = Some d)
    ∧ (∀ d', d' ∉ dn_device <$> en_decisions e → dget d' l' = dget d' l).
Proof.
  intros Hw Hc Hn Hm Ho Hz Hs [Hv Ht] Hr. destruct (snapshot_decisions g node now device e) as (He & En & Eo & Hd); [done|lia|done..|].
  assert (validate_envelope (envelope_value e) node (ac_validate c) = Ok e) as Hval.
  { rewrite <- En. apply validate_wf; [done|by rewrite Eo]. }
  destruct (accept_decisions_fed g now (en_decisions e) l (ac_decisions c)) as (l' & El & Hc' & Hin & Hout); try done.
  { eapply cache_later; [apply evolves_refl| |done]. lia. } { lia. } { apply He. }
  exists l'. split_and!; try done. unfold accept, mbind, M_bind, lift, get_state, put_state, mret, M_ret. rewrite Hval.
  rewrite (cache_loads g n); [|by rewrite <- En; apply He|done| |lia].
  2:{ pose proof (cache_size g n l Hw Hc). unfold zlen in *. lia. }
  cbn [ns_records ns_observed]. by rewrite El.
Qed.

Lemma fed_inv g n t st : fed g n t st →
  friends_wf g ∧ 0 <= n ∧ ns_observed st * SECOND <= t ∧ cache_wf g n (ns_records st).
Proof.
  assert (∀ t o c, o * SECOND <= t → Z.max o (seconds (ac_end c)) * SECOND <= Z.max t (ac_end c)) as Hmax.
  { intros t0 o c0 Ho. unfold seconds, SECOND in *. pose proof (Z.mul_div_le (ac_end c0) 1000000000 eq_refl). lia. }
  induction 1 as [|g n t st ops _ (Hw & Hn & Ho & Hc) Hd|g n t st now device c e st' _ (Hw & Hn & Ho & Hc) Ht Hz Hs Hk Hr E
                 |g n t st now device c e token st' _ (Hw & Hn & Ho & Hc) Ht Hz Hs Hk Hr E].
  - split_and!; try done; [apply new_registry_wf|cbn; split; [constructor|done]].
  - destruct (run_ops_safe float_repr secret ops g Hd Hw) as [Hw' Hev]. split_and!; try done. by apply (cache_later g _ n n _ Hev (Z.le_refl n)).
  - destruct st as [l o]. cbn [ns_records ns_observed] in *. destruct (accept_fed g n t l o now device c e) as (l' & Ea & _ & Hc' & _); try done; [lia..|].
    rewrite Ea in E. injection E as <-. split_and!; [done|lia|by apply Hmax|done].
  - destruct st as [l o]. cbn [ns_records ns_observed] in *. destruct (accept_fed g n t l o now device c e) as (l' & Ea & Ev & Hc' & Hin & _); try done; [lia..|].
    assert (st' = NodeState l o ∨ ∃ l'', st' = NodeState l'' (Z.max o (seconds (ac_end c))) ∧ cache_wf g now l'') as [->|(l'' & -> & Hc'')].
    2:{ split_and!; [done|lia|cbn [ns_observed] in *; lia|eapply cache_later; [apply evolves_refl| |done]; lia]. }
    2:{ split_and!; [done|lia|by apply Hmax|done]. }
    revert E. unfold prepare_membership, mbind, M_bind, lift, put_state.
    destruct (of_option _ (as_str token)) as [tk|]; [|intros [= <-]; by left].
    destruct (require (hex_match 64 tk) _) as [[]|] eqn:Etk; [|intros [= <-]; by left]. apply require_Ok in Etk.
    destruct (envelope_size _) as [sz|]; [|intros [= <-]; by left].
    destruct (require (sz =? 1) _) as [[]|]; [|intros [= <-]; by left].
    rewrite Ea, Ev. destruct (of_option IndexError _) as [d|]; [|intros [= <-]; eauto].
    destruct (of_option KeyError _) as [old|] eqn:Eo; [|intros [= <-]; eauto]. apply of_option_Ok in Eo. cbn [ns_records] in Eo.
    destruct (raise_if _ _) as [[]|]; intros [= <-]; [|eauto]. right. eexists. split; [reflexivity|].
    pose proof Eo as (g0 & n0 & row & r & [])%(cw_holds _ _ _ Hc'). eapply cache_set; [done|]. by split.
Qed.
End Feed.

Section Admission.
Context {RN : Rns} {RNL : RnsLaws} {RNO : RnsOctets} (float_repr : spec_float → pystr) (secret : bytes).
Context (node : pystr) (R : Z → reading → Prop).

(** C6: The registry and a node stay together: whatever happened to the registry
    before, a node that has only ever taken in snapshots of it, of single devices
    or of all, takes in the next one as well, unless its clock is off; its cache
    then holds exactly the registry's decision on every device of the snapshot
    and what it held before on the others, and is what the cache file holds. *)
Theorem feed_accepted g n t st now device c e :
  fed float_repr secret node R g n t st → n <= now <= MAX_TIME → zlen (rg_devices g) <= 10000 →
  snapshot g node now device = Ok e → clock_ok c now t → (∀ i, R now (ac_decisions c i)) →
  ∃ st', accept node c (envelope_value e) (Ok st) = (Ok st', Ok st')
    ∧ (∀ d, d ∈ en_decisions e → ca_decision <$> dget (dn_device d) (ns_records st') = Some d)
    ∧ (∀ d', d' ∉ dn_device <$> en_decisions e → dget d' (ns_records st') = dget d' (ns_records st)).
Proof.
  intros (Hw & Hn & Ho & Hc)%fed_inv Ht Hz Hs Hk Hr. destruct st as [l o].
  destruct (accept_fed node R g n t l o now device c e) as (l' & Ea & _ & _ & Hin & Hout); try done; try lia.
  eexists. split; [exact Ea|]. by split.
Qed.

(** C14: Paid access ends on time even when the node is cut off: if a node admits a
    device at some reading of its clocks, then the registry had enrolled the
    device and not revoked it at the time of a snapshot the node took in; and if
    the device was in the paid cohort by then, it had access, the reading is less
    than a lease after that snapshot by the wall clock and less than a lease after
    the snapshot was taken in by the monotonic clock of the same boot, and the
    period that was paid for (or its grace period) has not ended.  A device
    outside the cohort has no period: it stays admitted on that snapshot until a
    later one says otherwise, however old it is. *)
Theorem admission_bounded g n t st device c r :
  fed float_repr secret node R g n t st → dget device (ns_records st) = Some c → allowed r c = true →
  ∃ g0 n0 row, evolves g0 g ∧ 0 <= n0 <= n ∧ dget device (rg_devices g0) = Some row
    ∧ dv_revoked row = false ∧ (∃ h i, dget h (rg_invites g0) = Some i ∧ iv_device i = Some device ∧ iv_revoked i = false)
    ∧ ∀ s, dget device (subscriptions_of g0) = Some s →
        st_allowed (effective_of s n0) = true
        ∧ rd_clock r < (n0 + LEASE_SECONDS) * SECOND ∧ rd_clock r < boundary s * SECOND
        ∧ ∃ r0, R n0 r0 ∧ rd_boot r0 = rd_boot r ∧ rd_mono r < rd_mono r0 + LEASE_SECONDS * SECOND.
Proof.
  intros (_ & _ & _ & Hc)%fed_inv Hd Ha. apply Hc in Hd as (g0 & n0 & row & r0 & [Hw0 Hev Hn0 HR Hrow Hdec Hboot Hdl _]).
  exists g0, n0, row. split_and!; try done; try lia. all: unfold allowed in Ha; rewrite Hdec in Ha.
  all: destruct (dn_allowed (decision_of g0 device row n0)) eqn:Eal; [|done]; cbn [negb] in Ha.
  all: assert (identity_of g0 device row = true) as Hid by (clear -Eal; unfold decision_of in Eal;
    destruct (dget device _); simpl in Eal; [by apply andb_true_iff in Eal as [? _]|done]).
  - by apply andb_true_iff in Hid as [?%negb_true_iff _].
  - apply andb_true_iff in Hid as [_ ([h i] & Hin & Hi)%existsb_exists]. bools. simpl in *.
    exists h, i. split_and!; try done. apply dget_NoDup; [apply Hw0|]. by apply list_elem_of_In.
  - intros s Hs. unfold decision_of in Ha, Eal. rewrite Hs in Ha, Eal. cbn [dn_cohort dn_valid dn_allowed negb] in Ha, Eal.
    rewrite Eal in Ha. apply andb_true_iff in Eal as [_ Eal]. apply andb_true_iff in Ha as [[Hb%str_eqb_eq Hv%Z.ltb_lt]%andb_true_iff Hm%Z.ltb_lt].
    assert (0 < SECOND) by done. split_and!; try done; [nia..|].
    exists r0. split_and!; [done|congruence|lia].
Qed.
End Admission.

(** ** Application *)

(** A machine after some commands: their outputs are used up, in order. *)
Definition forward (m m' : machine) : Prop :=
  mc_peers m' = mc_peers m ∧ mc_outputs m' `suffix_of` mc_outputs m ∧ mc_commands m `prefix_of` mc_commands m'.

#[export] Instance forward_preorder : PreOrder forward.
Proof.
  split; [by split|]. intros x y z (E1 & S1 & C1) (E2 & S2 & C2). split; [congruence|]. split; by etransitivity.
Qed.

Definition forwards {A} (k : M machine A) : Prop := ∀ m r m', k m = (r, m') → forward m m'.

Lemma forwards_bind {A B} (k : M machine A) (f : A → M machine B) : forwards k → (∀ a, forwards (f a)) → forwards (k ≫= f).
Proof.
  intros Hk Hf m r m'. unfold mbind, M_bind. destruct (k m) as [[a|e] m1] eqn:E.
  - intros H. transitivity m1; [by eapply Hk|by eapply Hf].
  - intros [= <- <-]. by eapply Hk.
Qed.
Lemma forwards_ret {A} (a : A) : forwards (mret a).
Proof. by intros m r m' [= <- <-]. Qed.
Lemma forwards_lift {A} (r : result A) : forwards (lift r).
Proof. by intros m r' m' [= <- <-]. Qed.
Lemma forwards_get : forwards get_state.
Proof. by intros m r m' [= <- <-]. Qed.
Lemma forwards_run args : forwards (run args).
Proof.
  intros m r m'. unfold run. destruct (mc_outputs m) as [|o os] eqn:E; intros [= <- <-]; split_and!; cbn [mc_peers mc_outputs mc_commands];
    try done; try (by eexists); rewrite E; [done|by exists [o]].
Qed.
Lemma forwards_modify (f : machine → machine) : (∀ m, forward m (f m)) → forwards (modify f).
Proof. intros Hf m r m' [= <- <-]. apply Hf. Qed.
Lemma forwards_iterM {A} (f : A → M machine ()) l : (∀ x, forwards (f x)) → forwards (iterM f l).
Proof. intros Hf. induction l as [|x l IH]; cbn [iterM]; [apply forwards_ret|]. apply forwards_bind; [apply Hf|done]. Qed.

Create HintDb machine discriminated.
#[export] Hint Resolve forwards_ret forwards_lift forwards_get forwards_run : machine.

Ltac forwards :=
  repeat first [ solve [auto with machine] | progress intros | apply forwards_bind | apply forwards_iterM
               | apply forwards_modify; by split | case_match ].

Section Application.
Context (node root parent iface : pystr).

Lemma align_peer_forwards live peers p o : forwards (align_peer root iface live peers p o).
Proof. unfold align_peer. forwards. Qed.

(** The commands that read the engines. *)
Definition show_peers : list pystr := [tool root "/awg"; py "show"; iface; py "allowed-ips"].
Definition show_users : list pystr := [xray parent; py "api"; py "inbounduser"; py "--server=127.0.0.1:18085"; py "-tag=friends"].

(** One command that answered. *)
Definition answered (m : machine) (command : list pystr) (out : bytes) (m' : machine) : Prop :=
  mc_outputs m = Ok out :: mc_outputs m' ∧ mc_commands m' = mc_commands m ++ [command] ∧ mc_peers m' = mc_peers m.

Lemma run_answered args m out m' : run args m = (Ok out, m') → answered m args out m'.
Proof. unfold run. destruct (mc_outputs m) as [|o os] eqn:E; [done|]. intros [= -> <-]. by split_and!. Qed.
Lemma answered_forward m args out m' : answered m args out m' → forward m m'.
Proof. intros (E & C & P). split; [done|]. rewrite E, C. split; [by exists [Ok out]|by eexists]. Qed.

Lemma awg_snapshot_Ok m live m' : awg_snapshot root iface m = (Ok live, m') →
  ∃ out text, answered m show_peers out m' ∧ utf8_decode out = Some text ∧ parse_peers text = Ok live.
Proof.
  unfold awg_snapshot. intros H.
  apply M_bind_Ok in H as (out & m1 & Hr & H). apply M_bind_Ok in H as (text & m2 & Ht & H).
  injection Ht as Ht <-. injection H as H <-. apply of_option_Ok in Ht. exists out, text. split; [|done]. by apply run_answered.
Qed.

Lemma tcp_snapshot_Ok m us m' : tcp_snapshot parent m = (Ok us, m') →
  ∃ out v, answered m show_users out m' ∧ json_loads_bytes out = Some v ∧ parse_users v = Ok us.
Proof.
  unfold tcp_snapshot. intros H.
  apply M_bind_Ok in H as (out & m1 & Hr & H). apply M_bind_Ok in H as (v & m2 & Ht & H).
  injection Ht as Ht <-. injection H as H <-. apply of_option_Ok in Ht. exists out, v. split; [|done]. by apply run_answered.
Qed.

(** What the engines show of a record that was applied. *)
Definition engines_agree (live peers : list (pystr * pystr)) (us : list (pystr * (pystr * list (pyval * pyval))))
    (p : pystr * cached) (admitted : bool) : Prop :=
  dmem (dn_key (ca_decision p.2)) live = admitted
  ∧ (admitted = true → dget (dn_key (ca_decision p.2)) live = dget (dn_key (ca_decision p.2)) peers)
  ∧ (fst <$> dget (tcp_email p.1) us = if admitted then Some (dn_tcp (ca_decision p.2)) else None)
  ∧ (admitted = false → ∀ email u, (email, u) ∈ us → u.1 ≠ dn_tcp (ca_decision p.2)).

Lemma verify_record_Ok live peers us overtaken p o o' : verify_record live peers us overtaken p o = Ok (Some o') →
  as_allowed o' = as_allowed o ∧ as_registered o' = as_registered o ∧ as_result o' = py "applied"
  ∧ as_applied o' = Some (dn_revision (ca_decision p.2)) ∧ engines_agree live peers us p (as_allowed o).
Proof.
  unfold verify_record. intros H. inv_ok1. inv_ok1.
  destruct (negb (Bool.eqb _ _) || _ || _) eqn:Em; [by repeat inv_ok1|]. simplify_eq. cbn [as_allowed as_registered as_result as_applied].
  split_and!; try done. apply orb_false_iff in Em as [[Ep%negb_false_iff%Bool.eqb_prop Ea%negb_false_iff%Bool.eqb_prop]%orb_false_iff El].
  unfold engines_agree. destruct (dget (tcp_email p.1) us) as [u|] eqn:Eu.
  - rewrite bool_decide_true in Ha by eauto. cbn [orb andb] in Ha.
    apply orb_false_iff in Ha as [Hu%negb_false_iff _]. rewrite Hu in *. rewrite <- Ep in *.
    split_and!; try done.
    + intros _. by apply negb_false_iff, bool_decide_eq_true in El.
    + cbn. by apply str_eqb_eq in Hu as ->.
  - rewrite <- Ep in *. split_and!; try done. intros _ email u Hin Hu. rewrite bool_decide_false in Ha by (by intros []).
    assert (existsb (λ x : pystr * (pystr * list (pyval * pyval)), str_eqb x.2.1 (dn_tcp (ca_decision p.2))) us = true) as Hex.
    { apply existsb_exists. exists (email, u). split; [by apply list_elem_of_In|]. by apply str_eqb_eq. }
    by rewrite Hex in Ha.
Qed.

(** The records and observations of a round that wrote its result. *)
Lemma verify_records_Ok r all os live peers us l lo l' : length l = length lo →
  verify_records r all os live peers us l lo = Ok (Some l') →
  Forall2 (λ x p', p'.1 = x.1.1 ∧ ca_decision p'.2 = ca_decision x.1.2 ∧ ca_boot p'.2 = ca_boot x.1.2
    ∧ ca_deadline p'.2 = ca_deadline x.1.2 ∧ ca_prepared p'.2 = ca_prepared x.1.2
    ∧ ∃ o', ca_applied p'.2 = Some o' ∧ as_allowed o' = as_allowed x.2.2 ∧ as_registered o' = as_registered x.2.2
        ∧ as_result o' = py "applied" ∧ as_applied o' = Some (dn_revision (ca_decision p'.2))
        ∧ engines_agree live peers us p' (as_allowed o')) (zip l lo) l'.
Proof.
  revert r lo l'. induction l as [|p l IH]; intros r [|o lo] l' Hlen H; try done; cbn [verify_records] in H; [by simplify_eq|].
  inv_ok1. destruct a as [o'|]; [|by simplify_eq]. apply verify_record_Ok in Ha as (E1 & E2 & E3 & E4 & E5).
  inv_ok1. destruct a as [rest|]; [|by simplify_eq]. simplify_eq. cbn [zip zip_with]. constructor.
  - cbn [fst snd ca_decision ca_boot ca_deadline ca_prepared ca_applied]. split_and!; try done. exists o'. rewrite E1. by split_and!.
  - eapply IH; [simpl in Hlen; lia|done].
Qed.

Lemma plan_records_Ok r peers clients l clients' changed os : plan_records r peers clients l = Ok (clients', changed, os) →
  Forall2 (λ p o, as_registered o.2 = dmem (dn_key (ca_decision p.2)) peers) l os.
Proof.
  revert r clients clients' changed os. induction l as [|p l IH]; intros r clients clients' changed os H; cbn [plan_records] in H.
  - simplify_eq. constructor.
  - inv_ok1. destruct a as [[c1 ch1] o]. inv_ok1. destruct a as [[c2 ch2] os2]. simplify_eq. constructor; [|by eapply IH].
    unfold plan_record in Ha. cbn [snd]. repeat inv_ok1. by simplify_eq.
Qed.

(** What an attempt that converged leaves: the users and then the peers were
    listed, nothing was run after, and with these listings every record of the
    cache shows what it admits at the last reading of the clocks, the one of its
    own check. *)
Definition round_done (k : attempt_clock) (m m' : machine) : Prop :=
  ∃ m1 m2 st out_users v us out_peers text live,
    forward m m1 ∧ answered m1 show_users out_users m2 ∧ json_loads_bytes out_users = Some v ∧ parse_users v = Ok us
    ∧ mc_outputs m2 = Ok out_peers :: mc_outputs m' ∧ mc_commands m' = mc_commands m2 ++ [show_peers] ∧ mc_peers m' = mc_peers m
    ∧ utf8_decode out_peers = Some text ∧ parse_peers text = Ok live ∧ mc_file m' = Ok st
    ∧ ∀ i d c, ns_records st !! i = Some (d, c) → ∃ o, ca_applied c = Some o ∧ as_result o = py "applied"
        ∧ as_applied o = Some (dn_revision (ca_decision c))
        ∧ as_registered o = dmem (dn_key (ca_decision c)) (mc_peers m)
        ∧ as_allowed o = as_registered o && allowed (at_final k i) c
        ∧ engines_agree live (mc_peers m) us (d, c) (as_allowed o).

Lemma moved_on_false r l os i p o : moved_on r l os = false → zip l os !! i = Some (p, o) →
  as_allowed o.2 = as_registered o.2 && allowed (r i) p.2.
Proof.
  unfold moved_on. intros Em%not_true_iff_false Hi.
  destruct (Bool.eqb (as_allowed o.2) (as_registered o.2 && allowed (r i) p.2)) eqn:Ee; [by apply Bool.eqb_prop in Ee|].
  destruct Em. apply existsb_exists. exists (i, (p, o)). split; [|cbn [fst snd]; by rewrite Ee].
  apply list_elem_of_In, list_elem_of_lookup. exists i. by rewrite list_lookup_imap, Hi.
Qed.

Lemma readback_done c st peers os m m' : Forall2 (λ p o, as_registered o.2 = dmem (dn_key (ca_decision p.2)) peers) (ns_records st) os →
  mc_peers m = peers → readback root parent iface c st peers os m = (Ok true, m') → round_done c m m'.
Proof.
  intros Hreg Hp H. unfold readback in H.
  apply M_bind_Ok in H as (live0 & m1 & (? & ? & F1%answered_forward & _)%awg_snapshot_Ok & H). apply M_bind_Ok in H as ([] & m2 & F2 & H).
  assert (forward m1 m2) as F2' by (by eapply forwards_iterM; [intros; apply align_peer_forwards|exact F2]).
  apply M_bind_Ok in H as (us & m3 & (out1 & v & A1 & J1 & P1)%tcp_snapshot_Ok & H).
  apply M_bind_Ok in H as (live & m4 & (out2 & text & A2 & J2 & P2)%awg_snapshot_Ok & H).
  apply M_bind_Ok in H as (v' & m5 & Hv & H). injection Hv as Hv <-. destruct v' as [l'|]; [|done].
  destruct (moved_on _ _ _) eqn:Em; [done|]. injection H as <-.
  assert (forward m m2) as F by (by etransitivity). destruct A2 as (O2 & C2 & E2). pose proof A1 as (_ & _ & E1).
  exists m2, m3. do 7 eexists. split_and!; try eassumption; cbn [mc_peers mc_file set_file set_attempt]; [by rewrite E2, E1, (proj1 F)|reflexivity|].
  cbn [ns_records]. intros i d y Hi. apply verify_records_Ok in Hv; [|by eapply Forall2_length].
  pose proof (Forall2_lookup_r _ _ _ _ _ Hv Hi) as ([[d0 c0] [d1 o]] & Hz & E3 & E4 & E5 & E6 & E7 & o' & E8 & E9 & E10 & E11 & E12 & E13).
  cbn [fst snd] in *. exists o'. subst peers. pose proof (moved_on_false _ _ _ _ _ _ Em Hz) as Ha. cbn [fst snd] in Ha.
  apply lookup_zip_with_Some in Hz as ([? ?] & [? ?] & [= <- <- <- <-] & Hl & Ho).
  pose proof (Forall2_lookup_lr _ _ _ _ _ _ Hreg Hl Ho) as Hr. cbn [fst snd] in Hr. split_and!; try done; [by rewrite E10, Hr, E4|].
  rewrite E9, E10, Ha. unfold allowed. by rewrite E4, E5, E6, E7.
Qed.

Lemma round_done_after k m m1 m' : forward m m1 → round_done k m1 m' → round_done k m m'.
Proof.
  intros F (m2 & m3 & st & ou & v & us & op & text & live & F2 & H). exists m2, m3, st, ou, v, us, op, text, live.
  rewrite (proj1 F) in H. split; [by etransitivity|exact H].
Qed.

Lemma attempt_done c m m' : attempt node root parent iface c m = (Ok true, m') → round_done c m m'.
Proof.
  unfold attempt. intros H. apply M_bind_Ok in H as (m0 & m1 & [= <- <-] & H).
  apply M_bind_Ok in H as ([[[st os] clients] changed] & m1 & Hp & H). injection Hp as Hp <-.
  apply M_bind_Ok in H as ([] & m2 & F & H). assert (forward m m2) as F2.
  { revert F. destruct changed; [|by intros [= <-]]. intros F. eapply (_ : forwards _); exact F. Unshelve. forwards. }
  unfold plan in Hp. inv_ok1. inv_ok1. destruct a0 as [[c1 ch] os1]. inv_ok1. simplify_eq.
  eapply round_done_after; [exact F2|]. eapply readback_done; [|by destruct F2|exact H]. by eapply plan_records_Ok.
Qed.

(** C23: A round of application is fail-closed: if it returns at all, one of its
    twelve attempts converged.  The last two commands that attempt ran list the
    users of the TCP engine and the peers of the tunnel, and by their answers
    every device of the cache it writes is a peer exactly when it is registered
    and admitted at the attempt's last reading of the clocks, then with its own
    address; the TCP engine lists it under its name with its own identity exactly
    then, and lists its identity under no name otherwise; and the state beside
    its record says so. *)
Theorem apply_converged c m m' :
  apply_serialized node root parent iface c m = (Ok tt, m') → ∃ i, (i < 12)%nat ∧ round_done (c i) m m'.
Proof.
  unfold apply_serialized. generalize 12%nat as n. intros n. revert c m. induction n as [|n IH]; intros c m H; [done|].
  cbn [attempts] in H. apply M_bind_Ok in H as (b & m2 & Ha & H). destruct b.
  - injection H as <-. exists 0%nat. split; [lia|]. by eapply attempt_done.
  - apply IH in H as (i & Hi & Hd). exists (S i). split; [lia|]. eapply round_done_after; [|exact Hd].
    eapply (_ : forwards _); exact Ha. Unshelve. unfold attempt, readback, awg_snapshot, tcp_snapshot. forwards. unfold align_peer. forwards.
Qed.
End Application.
