(* ===== verification/GatewayExamples.v ===== *)
(** The Friends registry on concrete inputs: one device is invited, enrolled,
    observed and paid for.  A node next to that registry takes in two snapshots,
    and a round of application brings its engines to the cache. *)
From Stdlib Require Import ZArith Lia.
From S2P Require Import Prelude PyData Json JsonText Notices Rns RnsModel Ack DeviceProof AckSize Registry.
From S2P Require Import Referrals PaidBeta TransportPolicy PaidEvents RegistrySpec FriendsInv FriendsOps PaidOps.
From S2P Require Import FriendsRuns PaidSafety TransportSpec Gateway GatewaySpec FriendsSafety.

Local Open Scope Z_scope.

Definition no_text : spec_float → pystr := λ _, [].

(** ** A device and its proofs *)

Definition sample_public : pystr := b64encode (@public_of toy_rns toy_device).
Definition sample_wg : pystr := b64encode (repeat 7 32).
Definition sample_token (n : Z) : bytes := repeat n 32.

Definition value_of {A} (d : A) (r : result A) : A := match r with Ok a => a | Raise _ => d end.

Definition sample_proof (n : Z) : pyval :=
  value_of PNone (prove_transport_key (RN := toy_rns) no_text toy_device (PStr sample_wg) (PStr (b64encode (sample_token n))) (PStr ENROLLMENT)).

(** The proof of the sample device over one challenge. *)
Lemma proof_roundtrip_witness :
  let c := Claims (public_text (RN := toy_rns) toy_device) sample_wg (b64encode (sample_token 1)) ENROLLMENT in
  verify_proof (RN := toy_rns) no_text (sample_proof 1) (PStr (b64encode (sample_token 1))) ENROLLMENT
    = Ok (reference (RN := toy_rns) toy_device, c).
Proof.
  destruct (proof_roundtrip (RN := toy_rns) no_text toy_device (repeat 7 32) (sample_token 1) ENROLLMENT) as [(p & Hp & Hv) _];
    [by apply (bool_decide_unpack (all_bytes _)); vm_compute|done|by apply (bool_decide_unpack (all_bytes _)); vm_compute|done|done|].
  cbv zeta. unfold sample_proof, sample_wg. rewrite Hp. exact Hv.
Defined.

(** ** A run *)

Definition sample_raw : bytes := repeat 17 16.
Definition sample_code : pystr := invite_code (upper (tohex sample_raw)).
Definition sample_tcp : pystr := py "00000000-0000-4000-8000-000000000001".
Definition sample_tries : list pystr := [py "ABCDEFGH"].
Definition sample_alias : pystr := py "FC-ABCD-EFGH".

Definition sample_enrol : list friends_op :=
  [OpInvite sample_raw;
   OpChallenge (PStr sample_public) (PStr sample_wg) (PStr (py "activate")) (PStr sample_code) 1000 (sample_token 1);
   OpComplete (sample_proof 1) (py "activate") 1010 sample_tcp sample_tries].

Definition sample_report : pyval :=
  PDict [(PStr (py "proof"), sample_proof 2); (PStr (py "platform"), PStr (py "android"));
         (PStr (py "app_version"), PStr (py "0.1.18-beta108")); (PStr (py "version_code"), PInt 108)].

Definition sample_observe : list friends_op :=
  [OpMigrate;
   OpChallenge (PStr sample_public) (PStr sample_wg) (PStr (py "support")) PNone 1020 (sample_token 2);
   OpSupport sample_report 1030 1031 sample_tcp sample_tries].

Definition sample_payment : paid_request :=
  PaidRequest (PStr (py "payment")) (PStr (py "event-0001")) (PStr (py "bank 1")) (PInt 1000) (PInt 90000) PNone
    (PStr (ar_apk LEGACY_ANDROID_RELEASE)).
Definition no_fences : fences := Fences None (Raise OSError) (λ _ _ _, Raise OSError).

Definition sample_secret : bytes := repeat 9 32.
Local Abbreviation run := (run_ops (RN := toy_rns) no_text sample_secret).

(** The digest of a proof's challenge, and the answer to the activation. *)
Definition before_enrol : registry := run (take 2 sample_enrol) new_registry.
Definition sample_enrolled : registry := run sample_enrol new_registry.
Definition sample_device : pystr := tohex (@identity_hash toy_rns (@public_of toy_rns toy_device)).
Definition sample_answer : pystr * pystr * pystr := (sample_device, sample_wg, sample_tcp).

Lemma sample_draws : Forall draws_ok sample_enrol ∧ Forall draws_ok sample_observe.
Proof. split; repeat constructor. Qed.

Definition after_enrol : registry :=
  (complete (RN := toy_rns) no_text (sample_proof 1) (py "activate") 1010 sample_tcp sample_tries before_enrol).2.

Lemma sample_completes :
  complete (RN := toy_rns) no_text (sample_proof 1) (py "activate") 1010 sample_tcp sample_tries before_enrol
  = (Ok sample_answer, after_enrol).
Proof. rewrite (surjective_pairing (complete _ _ _ _ _ _ _)) at 1. apply (f_equal2 pair); [vm_compute; reflexivity|reflexivity]. Qed.

Lemma one_invite_one_device_witness :
  let g1 := sample_enrolled in let g2 := run sample_observe g1 in
  zlen (rg_devices g2) = 1 ∧ kept device_kept (rg_devices g1) (rg_devices g2) ∧ kept invite_kept (rg_invites g1) (rg_invites g2).
Proof.
  destruct sample_draws as [D1 D2].
  destruct (one_invite_one_device (RN := toy_rns) no_text sample_secret sample_enrol sample_observe D1 D2) as (_ & _ & _ & H).
  split; [vm_compute; reflexivity|exact H].
Defined.

Lemma completion_authentic_witness :
  ∃ cl key signature message, sample_device = tohex (@identity_hash toy_rns key)
    ∧ binding_message no_text cl = Ok message ∧ @validate toy_rns key signature message = true.
Proof.
  destruct (completion_authentic (RN := toy_rns) no_text _ _ _ _ _ _ _ _ _ _ sample_completes)
    as (cl & key & wk & nk & sg & m & n & c & row & _ & Hd & Hm & Hv & _).
  exists cl, key, sg, m. split; [exact Hd|]. split; [exact Hm|exact Hv].
Defined.

Lemma challenge_single_use_witness :
  no_answer (RN := toy_rns) no_text (sample_proof 1) (run sample_observe after_enrol).
Proof.
  destruct (proof_nonce (RN := toy_rns) (sample_proof 1)) as [n|] eqn:En; [|vm_compute in En; discriminate En].
  destruct sample_draws as [D1 _].
  apply (challenge_single_use (RN := toy_rns) no_text sample_secret (take 2 sample_enrol) sample_observe (sample_proof 1)
    (py "activate") 1010 sample_tcp sample_tries sample_answer after_enrol n (Forall_take _ 2 _ D1) sample_completes En); [|exact En].
  rewrite <- En. apply (bool_decide_unpack (Forall (λ op, issued (RN := toy_rns) op ≠ proof_nonce (RN := toy_rns) (sample_proof 1)) sample_observe)).
  vm_compute. exact I.
Defined.

(** ** The referral campaign *)

(** The device asks for its link, and someone claims an invitation with it. *)
Definition sample_refer : list friends_op :=
  [OpChallenge (PStr sample_public) (PStr sample_wg) (PStr (py "refer")) PNone 1050 (sample_token 3);
   OpIssue (sample_proof 3) 1060 sample_tcp sample_tries].
Definition sample_link : pystr := value_of [] (referral_digest (RN := toy_rns) sample_secret (py "referral-v1:" ++ sample_device)).
Definition sample_request : pystr := repeat 97 32.
Definition before_claim : registry := run (sample_enrol ++ sample_refer) new_registry.
Definition sample_claim : result (pystr * bool) * registry :=
  claim (RN := toy_rns) sample_secret (PStr sample_link) (PStr sample_request) 1070 before_claim.
Definition sample_claimed : pystr := value_of [] (fst <$> sample_claim.1).

Lemma sample_claims :
  claim (RN := toy_rns) sample_secret (PStr sample_link) (PStr sample_request) 1070 before_claim = (Ok (sample_claimed, false), sample_claim.2).
Proof. change (claim _ _ _ _ _) with sample_claim at 1. rewrite (surjective_pairing sample_claim) at 1. apply (f_equal2 pair); [vm_compute; reflexivity|reflexivity]. Qed.

Lemma claim_draws : Forall draws_ok (sample_enrol ++ sample_refer).
Proof. repeat constructor. Qed.

Lemma referral_bounds_witness :
  let g := run (sample_enrol ++ sample_refer ++ [OpClaim (PStr sample_link) (PStr sample_request) 1070]) new_registry in
  zlen (rg_claims g) = 1 ∧ zlen (rg_claims g) <= LIMIT.
Proof.
  split; [vm_compute; reflexivity|].
  assert (Forall draws_ok (sample_enrol ++ sample_refer ++ [OpClaim (PStr sample_link) (PStr sample_request) 1070])) as D by repeat constructor.
  destruct (referral_bounds (RN := toy_rns) no_text sample_secret _ D) as [H _]. exact H.
Defined.

Lemma claim_idempotent_witness :
  let g2 := run [OpInvite (repeat 18 16)] sample_claim.2 in
  ∃ i, iv_revoked i = false →
    claim (RN := toy_rns) sample_secret (PStr sample_link) (PStr sample_request) 999999 g2
    = (Ok (sample_claimed, negb (bool_decide (default [] (iv_device i) = []))), g2).
Proof.
  destruct (claim_idempotent (RN := toy_rns) no_text sample_secret (sample_enrol ++ sample_refer) [OpInvite (repeat 18 16)]
    (PStr sample_link) (PStr sample_request) 1070 sample_claimed false sample_claim.2 claim_draws) as (q & c & i & _ & _ & H);
    [repeat constructor|exact sample_claims|].
  exists i. intros Hi. exact (H 999999 Hi).
Defined.

(** ** The paid cohort *)

Definition sample_pay : list friends_op := [OpPaid no_fences (PStr sample_alias) sample_payment 1040].
Definition sample_grace : list friends_op :=
  [OpPaid no_fences (PStr sample_alias)
     (PaidRequest (PStr (py "grace")) (PStr (py "event-0002")) (PStr (py "note 7")) PNone PNone (PInt 99000) PNone) 2000].
Definition paid_ops : list friends_op := sample_enrol ++ sample_observe ++ sample_pay.
Definition paid_registry : registry := run paid_ops new_registry.
Definition sample_subscription : subscription_row :=
  Sub (py "active") 1000 90000 None 1040 1040 1 (py "event-0001") None.

Lemma paid_draws : Forall draws_ok paid_ops ∧ Forall draws_ok sample_grace.
Proof. split; repeat constructor. Qed.

(** The subscription after a grace period replays its two events. *)
Lemma subscription_is_replay_witness :
  let g2 := run sample_grace (run paid_ops new_registry) in
  zlen (subscriptions_of g2) <= COHORT_LIMIT ∧ dget sample_device (subscriptions_of g2) = replay sample_device (events_of g2)
  ∧ zlen (events_for sample_device (events_of g2)) = 2.
Proof.
  destruct paid_draws as [D1 D2].
  destruct (subscription_is_replay (RN := toy_rns) no_text sample_secret paid_ops sample_grace D1 D2) as (H1 & _ & H2 & _).
  split; [exact H1|]. split; [exact (H2 sample_device)|vm_compute; reflexivity].
Defined.

Lemma paid_access_kept_witness :
  let g2 := run sample_grace (run paid_ops new_registry) in
  ∃ s', dget sample_device (subscriptions_of g2) = Some s' ∧ effective_state g2 sample_device 3000 = Ok (Some (effective_of s' 3000))
    ∧ (is_open s' = true → st_allowed (effective_of s' 3000) = true).
Proof.
  destruct paid_draws as [D1 D2].
  destruct (paid_access_kept (RN := toy_rns) no_text sample_secret paid_ops sample_grace sample_device sample_subscription 3000 D1 D2)
    as (s' & Hs & He & _ & _ & _ & _ & Hk); [split; discriminate|vm_compute; reflexivity|].
  exists s'. split; [exact Hs|]. split; [exact He|]. intros Ho. exact (Hk eq_refl Ho eq_refl).
Defined.

Definition before_pay : registry := run (sample_enrol ++ sample_observe) new_registry.
Definition sample_applied : result applied * registry :=
  apply_event (RN := toy_rns) no_text no_fences (PStr sample_alias) sample_payment 1040 before_pay.
Definition sample_event : applied := value_of (Applied true [] (EventRow [] [] 0 None [] 0 0 None [] [] 0)) sample_applied.1.

Lemma sample_applies :
  apply_event (RN := toy_rns) no_text no_fences (PStr sample_alias) sample_payment 1040 before_pay = (Ok sample_event, sample_applied.2).
Proof. change (apply_event _ _ _ _ _ _) with sample_applied at 1. rewrite (surjective_pairing sample_applied) at 1. apply (f_equal2 pair); [vm_compute; reflexivity|reflexivity]. Qed.

(** Applied again after it ended, the payment is answered as a duplicate. *)
Lemma event_replayed_witness :
  let g2 := run sample_grace sample_applied.2 in
  apply_event (RN := toy_rns) no_text no_fences (PStr sample_alias) sample_payment 95000 g2
  = (Ok (Applied true (ap_id sample_event) (ap_event sample_event)), g2).
Proof.
  assert (Forall draws_ok (sample_enrol ++ sample_observe)) as D1 by repeat constructor. destruct paid_draws as [_ D2].
  destruct (event_replayed (RN := toy_rns) no_text sample_secret _ sample_grace no_fences (PStr sample_alias) sample_payment 1040
    sample_event sample_applied.2 D1 D2 sample_applies) as [H _].
  apply H. split; discriminate.
Defined.

(** ** Transport snapshots *)

Definition gateway_ru : pystr := py "gateway-ru".

Lemma snapshot_validates_witness :
  ∃ e, snapshot (run paid_ops new_registry) gateway_ru 1100 [] = Ok e
    ∧ validate_envelope (envelope_value e) gateway_ru (1150 * SECOND) = Ok e.
Proof.
  destruct paid_draws as [D1 _].
  destruct (snapshot_validates (RN := toy_rns) no_text sample_secret paid_ops gateway_ru 1100 (1150 * SECOND) D1) as (e & He & _ & Hv);
    [vm_compute; reflexivity|reflexivity|split; discriminate|vm_compute; discriminate|split; vm_compute; [reflexivity|discriminate]|].
  exists e. split; [exact He|exact Hv].
Defined.

Lemma snapshots_follow_witness :
  ∃ d1 d2, dn_device d1 = sample_device ∧ dn_device d2 = dn_device d1 ∧ successor (Some d1) d2 = Ok tt.
Proof.
  destruct paid_draws as [D1 D2].
  destruct (snapshot paid_registry gateway_ru 1100 []) as [e1|] eqn:E1; [|vm_compute in E1; discriminate E1].
  destruct (snapshot (run sample_grace paid_registry) gateway_ru 2100 []) as [e2|] eqn:E2; [|vm_compute in E2; discriminate E2].
  destruct (head (en_decisions e1)) as [d1|] eqn:Ed.
  - assert (0 <= 1100 ∧ 1100 <= 2100 ∧ 2100 <= MAX_TIME) as (N1 & N2 & N3) by (split_and!; discriminate).
    destruct (snapshots_follow (RN := toy_rns) no_text sample_secret paid_ops sample_grace gateway_ru gateway_ru 1100 2100 e1 e2
      D1 D2 N1 N2 N3 E1 E2 d1) as (d2 & _ & H); [destruct (en_decisions e1); [discriminate Ed|injection Ed as ->; left]|].
    exists d1, d2. split; [|exact H].
    assert (dn_device <$> head (value_of [] (en_decisions <$> snapshot paid_registry gateway_ru 1100 [])) = Some sample_device) as Hd
      by (vm_compute; reflexivity).
    rewrite E1 in Hd. cbn [fmap result_fmap value_of] in Hd. rewrite Ed in Hd. injection Hd as Hd. exact Hd.
  - exfalso. assert (is_Some (head (value_of [] (en_decisions <$> snapshot paid_registry gateway_ru 1100 [])))) as [x Hx]
      by (vm_compute; eexists; reflexivity).
    rewrite E1 in Hx. cbn [fmap result_fmap value_of] in Hx. rewrite Ed in Hx. discriminate Hx.
Defined.

(** ** Two snapshots *)

Definition sample_readings (n : Z) (r : reading) : Prop := r = Reading (py "boot") (n * SECOND) (7 * SECOND) (n * SECOND).
Definition sample_clock (n : Z) : accept_clock :=
  AcceptClock (n * SECOND) (n * SECOND) (λ _, Reading (py "boot") (n * SECOND) (7 * SECOND) (n * SECOND)) (n * SECOND).

Definition no_envelope : envelope := Envelope [] 0 [].
Definition empty_cache : node_state := NodeState [] 0.
Definition taken (e : envelope) (now : Z) (st : node_state) : node_state :=
  value_of empty_cache (accept gateway_ru (sample_clock now) (envelope_value e) (Ok st)).2.

Definition envelope1 : envelope := value_of no_envelope (snapshot paid_registry gateway_ru 1100 []).
Definition cache1 : node_state := taken envelope1 1100 empty_cache.
Definition grace_registry : registry := run sample_grace paid_registry.
Definition envelope2 : envelope := value_of no_envelope (snapshot grace_registry gateway_ru 2100 sample_device).

Lemma snapshot1 : snapshot paid_registry gateway_ru 1100 [] = Ok envelope1.
Proof. vm_compute. reflexivity. Qed.
Lemma accept1 : (accept gateway_ru (sample_clock 1100) (envelope_value envelope1) (Ok empty_cache)).2 = Ok cache1.
Proof. vm_compute. reflexivity. Qed.
Lemma snapshot2 : snapshot grace_registry gateway_ru 2100 sample_device = Ok envelope2.
Proof. vm_compute. reflexivity. Qed.

Lemma sample_clock_ok n t : t <= n * SECOND → clock_ok (sample_clock n) n t.
Proof. unfold clock_ok, sample_clock, LEASE_SECONDS, CLOCK_SKEW_SECONDS, SECOND. cbn [ac_validate ac_load]. lia. Qed.

Lemma sample_fed : fed (RN := toy_rns) no_text sample_secret gateway_ru sample_readings paid_registry 1100 (1100 * SECOND) cache1.
Proof.
  destruct paid_draws as [D1 _].
  refine (fed_accept (RN := toy_rns) no_text sample_secret gateway_ru sample_readings paid_registry 0 0 empty_cache 1100 [] (sample_clock 1100)
    envelope1 cache1 (fed_registry (RN := toy_rns) _ _ _ _ _ _ _ _ paid_ops (fed_start (RN := toy_rns) _ _ _ _) D1) _ _ snapshot1 _ _ accept1).
  - split; discriminate.
  - vm_compute. discriminate.
  - apply sample_clock_ok. discriminate.
  - done.
Qed.

Lemma feed_accepted_witness :
  ∃ st', accept gateway_ru (sample_clock 2100) (envelope_value envelope2) (Ok cache1) = (Ok st', Ok st')
    ∧ ∀ d, d ∈ en_decisions envelope2 → ca_decision <$> dget (dn_device d) (ns_records st') = Some d.
Proof.
  destruct paid_draws as [_ D2].
  pose proof (fed_registry (RN := toy_rns) _ _ _ _ _ _ _ _ sample_grace sample_fed D2) as Hf.
  destruct (feed_accepted (RN := toy_rns) no_text sample_secret gateway_ru sample_readings grace_registry 1100 (1100 * SECOND) cache1
    2100 sample_device (sample_clock 2100) envelope2 Hf) as (st' & Ha & Hd & _);
    [split; discriminate|vm_compute; discriminate|exact snapshot2|apply sample_clock_ok; discriminate|intros i; reflexivity|].
  exists st'. split; [exact Ha|exact Hd].
Defined.

(** A record of the cache, and a reading at which it is admitted. *)
Definition record1 : cached :=
  default (Cached (NodeDecision [] [] [] false 0 [] false false PNone PNone 0 0) [] 0 None None) (dget sample_device (ns_records cache1)).
Definition reading1 : reading := Reading (py "boot") (1150 * SECOND) (57 * SECOND) (1150 * SECOND).

Lemma admission_bounded_witness :
  ∃ g0 n0 row, evolves g0 paid_registry ∧ 0 <= n0 <= 1100 ∧ dget sample_device (rg_devices g0) = Some row ∧ dv_revoked row = false.
Proof.
  destruct (admission_bounded (RN := toy_rns) no_text sample_secret gateway_ru sample_readings paid_registry 1100 (1100 * SECOND) cache1
    sample_device record1 reading1 sample_fed) as (g0 & n0 & row & Hev & Hn & Hr & Hv & _);
    [vm_compute; reflexivity|vm_compute; reflexivity|].
  exists g0, n0, row. split; [exact Hev|]. split; [exact Hn|]. split; [exact Hr|exact Hv].
Defined.

(** ** A round *)

Definition sample_address : pystr := py "10.66.0.2/32".
Definition tcp_users : pyval :=
  PDict [(PStr (py "users"), PList [PDict
    [(PStr (py "email"), PStr (tcp_email sample_device));
     (PStr (py "account"), PDict [(PStr (py "id"), PStr sample_tcp); (PStr (py "flow"), PStr (py "xtls-rprx-vision"))])]])].
Definition sample_outputs : list (result bytes) :=
  [Ok []; Ok []; Ok []; canonical no_text tcp_users; Ok (sample_wg ++ [32] ++ sample_address ++ [10])].
Definition sample_machine : machine := Machine (Ok cache1) [] [(sample_wg, sample_address)] sample_outputs [] None.
Definition round_clock : nat → attempt_clock :=
  λ _, AttemptClock (1150 * SECOND) (λ _, reading1) (λ _ _, reading1) (λ _, reading1) (1150 * SECOND).
Definition sample_round : result () * machine :=
  apply_serialized gateway_ru (py "/opt/awg") (py "/opt") (py "fcopen31") round_clock sample_machine.

(** The peer is added and the TCP service restarted with its client. *)
Example sample_round_commands :
  List.map (take 2) (mc_commands sample_round.2)
  = [[py "systemctl"; py "restart"]; [py "/opt/awg/awg"; py "show"]; [py "/opt/awg/awg"; py "set"];
     [py "/opt/friends-tcp/xray"; py "api"]; [py "/opt/awg/awg"; py "show"]].
Proof. vm_compute. reflexivity. Qed.

Lemma apply_converged_witness :
  ∃ i, (i < 12)%nat ∧ round_done (py "/opt/awg") (py "/opt") (py "fcopen31") (round_clock i) sample_machine sample_round.2.
Proof.
  apply (apply_converged gateway_ru (py "/opt/awg") (py "/opt") (py "fcopen31") round_clock sample_machine sample_round.2).
  change (apply_serialized _ _ _ _ _ _) with sample_round at 1. rewrite (surjective_pairing sample_round) at 1.
  apply (f_equal2 pair); [vm_compute; reflexivity|reflexivity].
Defined.
