(* ===== verification/Admission.v ===== *)
(** The admission proof (messenger/admission.py): the octets an identity signs
    to link its chat key to an invited device and a challenge. *)
From Stdlib Require Import ZArith Lia.
From S2P Require Import Prelude PyData.

Local Open Scope Z_scope.

Definition DOMAIN : bytes := py "family-connect/chat-admission/v1" ++ [0].

Definition bad_hex : exn := ValueError "non-hexadecimal number".

(** [type(value) is str and len(value) == n] *)
Definition str_of_length (n : Z) (e : exn) (v : pyval) : result pystr :=
  s ← of_option e (as_str v);
  require (zlen s =? n) e;;
  Ok s.

(** [raw = bytes.fromhex(value); raw.hex() == value and len(raw) == n] *)
Definition hex_octets (n : Z) (e : exn) (s : pystr) : result bytes :=
  raw ← of_option bad_hex (fromhex s);
  require (str_eqb (tohex raw) s && (zlen raw =? n)) e;;
  Ok raw.

(** [message(public_hex, device, challenge)] *)
Definition admission_message (public_hex device challenge : pyval) : result bytes :=
  public_hex ← str_of_length 128 (ValueError "Invalid chat key") public_hex;
  public ← hex_octets 64 (ValueError "Invalid chat key") public_hex;
  device ← str_of_length 32 (ValueError "Invalid device") device;
  reference ← hex_octets 16 (ValueError "Invalid device") device;
  challenge ← str_of_length 44 (ValueError "Invalid challenge") challenge;
  nonce ← of_option (ValueError "Invalid base64") (b64decode challenge);
  require ((zlen nonce =? 32) && str_eqb (b64encode nonce) challenge) (ValueError "Invalid challenge");;
  Ok (DOMAIN ++ reference ++ public ++ nonce).

(** ** The message determines and is determined by what it binds *)

(** The octets behind the three arguments. *)
Definition admission_parts (p d c : pyval) (public reference nonce : bytes) : Prop :=
  all_bytes public ∧ all_bytes reference ∧ all_bytes nonce
  ∧ zlen public = 64 ∧ zlen reference = 16 ∧ zlen nonce = 32
  ∧ p = PStr (tohex public) ∧ d = PStr (tohex reference) ∧ c = PStr (b64encode nonce).

Lemma hex_arg n e v s raw : 
  str_of_length (2 * n) e v = Ok s → hex_octets n e s = Ok raw →
  all_bytes raw ∧ zlen raw = n ∧ v = PStr (tohex raw).
Proof.
  unfold str_of_length, hex_octets. intros H1 H2. steps. destruct v; simplify_eq/=.
  split_and!; [by eapply fromhex_bytes|done|congruence].
Qed.

Lemma hex_arg_ok n e raw :
  all_bytes raw → zlen raw = n →
  str_of_length (2 * n) e (PStr (tohex raw)) = Ok (tohex raw) ∧ hex_octets n e (tohex raw) = Ok raw.
Proof.
  intros Hb Hn. unfold str_of_length, hex_octets, require. cbn [as_str of_option mbind result_bind].
  rewrite (fromhex_tohex raw Hb). cbn [of_option mbind result_bind].
  replace (zlen (tohex raw) =? 2 * n) with true
    by (symmetry; apply Z.eqb_eq; unfold zlen in *; rewrite length_tohex; lia).
  rewrite (proj2 (str_eqb_eq _ _) eq_refl), (proj2 (Z.eqb_eq _ _) Hn). done.
Qed.

Lemma admission_message_Ok p d c m :
  admission_message p d c = Ok m ↔
  ∃ public reference nonce, admission_parts p d c public reference nonce
    ∧ m = DOMAIN ++ reference ++ public ++ nonce.
Proof.
  unfold admission_message. split.
  - intros H. inv_ok1. inv_ok1. inv_ok1. inv_ok1. inv_ok1. inv_ok1. inv_ok1.
    apply require_Ok in Ha5. sbools.
    destruct (hex_arg 64 _ _ _ _ Ha Ha0) as (? & ? & ?), (hex_arg 16 _ _ _ _ Ha1 Ha2) as (? & ? & ?).
    unfold str_of_length in Ha3. steps. destruct c; simplify_eq/=.
    exists a0, a2, a4. split; [|done]. apply b64decode_bytes in Ha4. by split_and!.
  - intros (public & reference & nonce & (Hp & Hr & Hn & Lp & Lr & Ln & -> & -> & ->) & ->).
    destruct (hex_arg_ok 64 (ValueError "Invalid chat key") public Hp Lp) as [E1 E2].
    destruct (hex_arg_ok 16 (ValueError "Invalid device") reference Hr Lr) as [E3 E4].
    change (2 * 64) with 128 in E1. change (2 * 16) with 32 in E3.
    rewrite E1. cbn [mbind result_bind]. rewrite E2. cbn [mbind result_bind].
    rewrite E3. cbn [mbind result_bind]. rewrite E4. cbn [mbind result_bind].
    unfold str_of_length, require. cbn [as_str of_option mbind result_bind].
    rewrite length_b64encode, Ln. change (4 * ((32 + 2) / 3) =? 44) with true.
    cbn [mbind result_bind]. rewrite (b64_roundtrip nonce Hn).
    cbn [of_option mbind result_bind]. rewrite (proj2 (str_eqb_eq _ _) eq_refl), Ln. done.
Qed.

(** The proof binds exactly what it names: it exists precisely for a
    64-octet key and a 16-octet device in lower-case hexadecimal and a 32-octet
    challenge in canonical base64, and two proofs are over the same octets only
    when they name the same key, device and challenge. *)
Theorem admission_binding p d c p' d' c' m :
  admission_message p d c = Ok m → admission_message p' d' c' = Ok m →
  (p = p' ∧ d = d' ∧ c = c')
  ∧ ∃ public reference nonce, admission_parts p d c public reference nonce
      ∧ m = DOMAIN ++ reference ++ public ++ nonce.
Proof.
  intros H1 H2. split; [|by apply admission_message_Ok].
  apply admission_message_Ok in H1 as (k & r & n & (? & ? & ? & Lk & Lr & Ln & -> & -> & ->) & ->).
  apply admission_message_Ok in H2 as (k' & r' & n' & (? & ? & ? & Lk' & Lr' & Ln' & -> & -> & ->) & Heq).
  unfold zlen in *. apply (inj (app DOMAIN)) in Heq.
  apply app_inj_1 in Heq as [-> Heq]; [|lia]. by apply app_inj_1 in Heq as [-> ->]; [|lia].
Qed.

Lemma admission_binding_witness :
  let p := PStr (tohex (repeat 7 64)) in
  let d := PStr (tohex (repeat 9 16)) in
  let c := PStr (b64encode (repeat 200 32)) in
  let m := DOMAIN ++ repeat 9 16 ++ repeat 7 64 ++ repeat 200 32 in
  is_ok (admission_message p d c) = true ∧ (p = p ∧ d = d ∧ c = c).
Proof.
  intros p d c m. split; [vm_compute; reflexivity|].
  apply (admission_binding p d c p d c m); vm_compute; reflexivity.
Defined.
