(* ===== verification/Journal.v ===== *)
(** The control journal and its transactions (provisioning/transaction.py,
    provisioning/cache.py): staging, applying, committing and rolling back a
    configuration, and the outbox of receipts. *)
From Stdlib Require Import ZArith Lia.
From S2P Require Import Prelude PyData Json JsonText Rns Ack.

Local Open Scope Z_scope.

Definition MAX_STATE_BYTES : Z := 1024 * 1024.

(** ** The durable record *)

Inductive phase := IDLE | STAGED | APPLYING | APPLIED_PENDING | ROLLING_BACK.

#[export] Instance phase_eq_dec : EqDecision phase.
Proof. solve_decision. Defined.

Definition phase_name (p : phase) : pystr :=
  py (match p with
      | IDLE => "IDLE" | STAGED => "STAGED" | APPLYING => "APPLYING"
      | APPLIED_PENDING => "APPLIED_PENDING" | ROLLING_BACK => "ROLLING_BACK"
      end).

Definition phase_of (v : pyval) : option phase :=
  match v with
  | PStr s => List.find (λ p, str_eqb s (phase_name p)) [IDLE; STAGED; APPLYING; APPLIED_PENDING; ROLLING_BACK]
  | _ => None
  end.

(** A stored configuration, as [pack] builds it. *)
Record entry := Entry {
  en_envelope : pystr;
  en_at : Z;
  en_digest : pystr;
  en_applied_at : option Z;
  en_runtime : pyval;
}.

Record journal := Journal {
  jn_schema : pyval;
  jn_committed : option entry;
  jn_staged : option entry;
  jn_phase : phase;
  jn_baseline : pyval;
  jn_floor : Z;
  jn_last_now : Z;
  jn_outbox : list pystr;
  jn_result : option pystr;
}.

Definition set_now (t : Z) (r : journal) : journal :=
  Journal (jn_schema r) (jn_committed r) (jn_staged r) (jn_phase r) (jn_baseline r) (jn_floor r) t (jn_outbox r) (jn_result r).
Definition set_phase (p : phase) (r : journal) : journal :=
  Journal (jn_schema r) (jn_committed r) (jn_staged r) p (jn_baseline r) (jn_floor r) (jn_last_now r) (jn_outbox r) (jn_result r).
Definition set_outbox (o : list pystr) (r : journal) : journal :=
  Journal (jn_schema r) (jn_committed r) (jn_staged r) (jn_phase r) (jn_baseline r) (jn_floor r) (jn_last_now r) o (jn_result r).
Definition set_result (o : option pystr) (r : journal) : journal :=
  Journal (jn_schema r) (jn_committed r) (jn_staged r) (jn_phase r) (jn_baseline r) (jn_floor r) (jn_last_now r) (jn_outbox r) o.

(** [record['phase'], record['staged'], record['baseline'] = 'IDLE', None, None] *)
Definition set_idle (r : journal) : journal :=
  Journal (jn_schema r) (jn_committed r) None IDLE PNone (jn_floor r) (jn_last_now r) (jn_outbox r) (jn_result r).

(** [record.update(staged=..., baseline=..., phase='STAGED', floor=...)] *)
Definition set_staged (e : entry) (baseline : pyval) (revision : Z) (r : journal) : journal :=
  Journal (jn_schema r) (jn_committed r) (Some e) STAGED baseline revision (jn_last_now r) (jn_outbox r) (jn_result r).

(** [record['committed'] = {**record['staged'], 'applied_at': ..., 'runtime': ...}]
    and the return to [IDLE]. *)
Definition set_committed (runtime : pyval) (r : journal) : journal :=
  Journal (jn_schema r)
    ((λ e, Entry (en_envelope e) (en_at e) (en_digest e) (Some (jn_last_now r)) runtime) <$> jn_staged r)
    None IDLE PNone (jn_floor r) (jn_last_now r) (jn_outbox r) (jn_result r).

Definition new_journal : journal := Journal (PInt 1) None None IDLE PNone 0 0 [] None.

(** ** Its JSON form *)

Definition opt_int (z : option Z) : pyval := match z with Some z => PInt z | None => PNone end.

Definition entry_json (e : option entry) : pyval :=
  match e with
  | None => PNone
  | Some e => PDict [(PStr (py "envelope"), PStr (en_envelope e)); (PStr (py "at"), PInt (en_at e));
                     (PStr (py "digest"), PStr (en_digest e)); (PStr (py "applied_at"), opt_int (en_applied_at e));
                     (PStr (py "runtime"), en_runtime e)]
  end.

Definition journal_json (r : journal) : pyval :=
  PDict [(PStr (py "schema"), jn_schema r); (PStr (py "committed"), entry_json (jn_committed r));
         (PStr (py "staged"), entry_json (jn_staged r)); (PStr (py "phase"), PStr (phase_name (jn_phase r)));
         (PStr (py "baseline"), jn_baseline r); (PStr (py "floor"), PInt (jn_floor r));
         (PStr (py "last_now"), PInt (jn_last_now r)); (PStr (py "outbox"), PList (List.map PStr (jn_outbox r)));
         (PStr (py "result"), opt_str (jn_result r))].

Definition optional {A} (f : pyval → result A) (v : pyval) : result (option A) :=
  match v with PNone => Ok None | _ => a ← f v; Ok (Some a) end.

Definition int_of (v : pyval) : result Z := of_option bad (as_int v).
Definition str_of (v : pyval) : result pystr := of_option TypeError (as_str v).

(** The types [unpack] requires of an entry. *)
Definition entry_of (v : pyval) : result entry :=
  d ← of_option bad (as_dict v);
  require (keys_are ["envelope"; "at"; "digest"; "applied_at"; "runtime"] d) bad;;
  envelope ← item "envelope" d; envelope ← str_of envelope;
  at_ ← item "at" d; at_ ← int_of at_;
  digest ← item "digest" d; digest ← str_of digest;
  applied ← item "applied_at" d; applied ← optional int_of applied;
  runtime ← item "runtime" d;
  Ok (Entry envelope at_ digest applied runtime).

Definition journal_names : list string :=
  ["schema"; "committed"; "staged"; "phase"; "baseline"; "floor"; "last_now"; "outbox"; "result"]%string.

(** The checks of [read] on the document's own fields. *)
Definition journal_of (v : pyval) : result journal :=
  d ← of_option bad (as_dict v);
  require (keys_are journal_names d) bad;;
  schema ← item "schema" d;
  require (key_is_Z 1 schema) bad;;
  floor ← item "floor" d; floor ← int_of floor;
  require ((0 <=? floor) && (floor <? 2 ^ 63)) bad;;
  last_now ← item "last_now" d; last_now ← int_of last_now;
  require (0 <=? last_now) bad;;
  ph ← item "phase" d; ph ← of_option bad (phase_of ph);
  staged ← item "staged" d; staged ← optional entry_of staged;
  require (Bool.eqb (bool_decide (ph = IDLE)) (negb (if staged then true else false))) bad;;
  outbox ← item "outbox" d; outbox ← of_option bad (as_list outbox);
  require (zlen outbox <=? 64) bad;;
  outbox ← mapR str_of outbox;
  committed ← item "committed" d; committed ← optional entry_of committed;
  res ← item "result" d; res ← optional str_of res;
  baseline ← item "baseline" d;
  Ok (Journal schema committed staged ph baseline floor last_now outbox res).

(** ** The configuration verifier and the application *)

(** A [VerifiedConfiguration]: what the core reads of its state, its envelope
    and digest, and the state itself, which only the application looks into. *)
Record verified (ST : Type) := Verified {
  vf_config_id : pystr;
  vf_revision : Z;
  vf_previous : option pystr;
  vf_state : ST;
  vf_envelope : bytes;
  vf_digest : pystr;
}.
Arguments Verified {ST}.
Arguments vf_config_id {ST}.
Arguments vf_revision {ST}.
Arguments vf_previous {ST}.
Arguments vf_state {ST}.
Arguments vf_envelope {ST}.
Arguments vf_digest {ST}.

(** [ConfigVerifier.verify(raw, now=...)]. *)
Class Verifier (ST : Type) := verify_config : bytes → Z → result (verified ST).

(** The application boundary, a driver with a state of its own.  [snapshot]
    takes the [previous] argument or [None]; [app_scope] is the context manager
    [transaction], whose exit looks at the journal it finds. *)
Class Application (ST A : Type) := {
  app_scope : option (M A () * (result phase → M A ()));
  app_snapshot : pyval → M A pyval;
  app_reserve : option (M A ());
  app_apply : verified ST → pyval → M A ();
  app_healthy : verified ST → M A bool;
  app_rollback : verified ST → option (verified ST) → pyval → M A ();
}.

(** ** The device, its directory and what it has done *)

(** [os.fstat] of the cache file, as [_safe] looks at it. *)
Record file_stat := FileStat {
  fs_regular : bool;
  fs_owned : bool;
  fs_private : bool;
  fs_links : Z;
}.

Definition safe_stat (s : file_stat) : bool := fs_regular s && fs_owned s && fs_private s && (fs_links s =? 1).
Definition fresh_stat : file_stat := FileStat true true true 1.

(** How a write can end: the record replaced, an error before the rename, or an
    error after it. *)
Inductive fault := Written | Lost | Unsynced.

(** What an operation does to the outside, in order. *)
Inductive event :=
  | EWrite (r : journal)
  | EApply (digest : pystr)
  | ERollback (digest : pystr)
  | ESend (receipt : pystr).

Record world (A : Type) := World {
  wd_dir : bool;
  wd_file : option bytes;
  wd_stat : file_stat;
  wd_app : A;
  (** the readings of [self.clock] to come *)
  wd_clock : nat → pyval;
  (** how the writes to come end *)
  wd_faults : nat → fault;
  wd_log : list event;
}.
Arguments World {A}.
Arguments wd_dir {A}.
Arguments wd_file {A}.
Arguments wd_stat {A}.
Arguments wd_app {A}.
Arguments wd_clock {A}.
Arguments wd_faults {A}.
Arguments wd_log {A}.

Section Core.
Context {RN : Rns} {ST A : Type} {VF : Verifier ST} {AP : Application ST A}.
Context (float_repr : spec_float → pystr) (device : identity).
Implicit Types (r : journal) (w : world A).

Definition note (e : event) : M (world A) () :=
  modify (λ w, World (wd_dir w) (wd_file w) (wd_stat w) (wd_app w) (wd_clock w) (wd_faults w) (wd_log w ++ [e])).

Definition on_app {X} (m : M A X) : M (world A) X := λ w,
  let '(res, a) := m (wd_app w) in
  (res, World (wd_dir w) (wd_file w) (wd_stat w) a (wd_clock w) (wd_faults w) (wd_log w)).

(** [unpack(entry, now=now)]; with [historical=True] at the entry's own time. *)
Definition unpack_at (e : entry) (now : Z) : result (verified ST) :=
  raw ← of_option bad (b64decode (en_envelope e));
  v ← verify_config raw now;
  require (str_eqb (vf_digest v) (en_digest e)
           && match en_applied_at e with None => true | Some a => en_at e <=? a end) (ValueError "journal hash mismatch");;
  Ok v.

Definition pack_entry (v : verified ST) (now : Z) : entry :=
  Entry (b64encode (vf_envelope v)) now (vf_digest v) None PNone.

(** The receipt a journal stores. *)
Definition stored_ack (text : pystr) : result ack_body :=
  raw ← of_option bad (b64decode text);
  verify_ack float_repr raw.

Definition check_entry (r : journal) (e : option entry) : result () :=
  match e with
  | None => Ok ()
  | Some e =>
      v ← unpack_at e (en_at e);
      require ((vf_revision v <=? jn_floor r) && (en_at e <=? jn_last_now r)) bad
  end.

Definition check_ack (ok : ack_body → bool) (text : pystr) : result () :=
  b ← stored_ack text;
  require (str_eqb (ab_device b) (reference device) && ok b) bad.

(** The body of [read]'s [try]. *)
Definition decode_journal (raw : bytes) : result journal :=
  require (zlen raw <=? MAX_STATE_BYTES) bad;;
  v ← of_option bad (json_loads_bytes raw);
  r ← journal_of v;
  check_entry r (jn_committed r);;
  check_entry r (jn_staged r);;
  mapR (check_ack (λ _, true)) (jn_outbox r);;
  match jn_result r with
  | None => Ok ()
  | Some text => check_ack (λ b, ab_sequence b <=? jn_floor r) text
  end;;
  Ok r.

(** [with self.journal._locked() as directory: record = self.journal.read(directory)] *)
Definition read_journal : M (world A) journal := λ w,
  (if wd_dir w then
     match wd_file w with
     | None => Raise OSError
     | Some raw =>
         require (safe_stat (wd_stat w)) (ProvisioningRejected "unsafe cache file");;
         refuse "invalid control journal" (decode_journal raw)
     end
   else Raise (ProvisioningRejected "cache requires explicit initialization"), w).

(** [_write(directory, record)] *)
Definition journal_text (r : journal) : result bytes :=
  text ← json_compact float_repr (journal_json r);
  raise_if (MAX_STATE_BYTES <? zlen text) (ProvisioningRejected "control journal too large");;
  Ok text.

Definition replace_file (r : journal) (text : bytes) (w : world A) : world A :=
  World (wd_dir w) (Some text) fresh_stat (wd_app w) (wd_clock w) (λ n, wd_faults w (S n))
        (wd_log w ++ [EWrite r]).

Definition write_journal (r : journal) : M (world A) () := λ w,
  match journal_text r with
  | Raise e => (Raise e, w)
  | Ok text =>
      match wd_faults w 0%nat with
      | Written => (Ok (), replace_file r text w)
      | Unsynced => (Raise OSError, replace_file r text w)
      | Lost => (Raise OSError, World (wd_dir w) (wd_file w) (wd_stat w) (wd_app w) (wd_clock w)
                                      (λ n, wd_faults w (S n)) (wd_log w))
      end
  end.

(** [initialize()] *)
Definition initialize : M (world A) () := λ w,
  if wd_dir w then (Raise OSError, w)
  else write_journal new_journal
    (World true (wd_file w) (wd_stat w) (wd_app w) (wd_clock w) (wd_faults w) (wd_log w)).

(** [_time(record)] *)
Definition time_ (r : journal) : M (world A) (Z * journal) := λ w,
  let w' := World (wd_dir w) (wd_file w) (wd_stat w) (wd_app w) (λ n, wd_clock w (S n)) (wd_faults w) (wd_log w) in
  (now ← of_option (ConfigError "CLOCK") (as_int (wd_clock w 0%nat));
   raise_if (now <? jn_last_now r) (ConfigError "CLOCK");;
   Ok (now, set_now now r), w').

(** The loop of [_ack] over the outbox. *)
Fixpoint find_ack (digest status error : pystr) (l : list pystr) : result (option pystr) :=
  match l with
  | [] => Ok None
  | text :: l =>
      b ← stored_ack text;
      if str_eqb (ab_hash b) digest && str_eqb (ab_status b) status && str_eqb (ab_error b) error
      then Ok (Some text) else find_ack digest status error l
  end.

(** [_ack(record, digest=..., verified=..., status=..., error=..., now=..., final=...)] *)
Definition ack_record (r : journal) (digest : pystr) (v : option (verified ST)) (status error : string)
    (now : Z) (final : bool) : result journal :=
  found ← find_ack digest (py status) (py error) (jn_outbox r);
  match found with
  | Some text => Ok (if final then set_result (Some text) r else r)
  | None =>
      raw ← create_ack float_repr device digest (vf_config_id <$> v)
              (match v with Some v => vf_revision v | None => 0 end) (py status) (py error) now;
      let text := b64encode raw in
      r ← (if existsb (str_eqb text) (jn_outbox r) then Ok r
           else if 64 <=? zlen (jn_outbox r) then Raise (ProvisioningRejected "ACK outbox full")
           else Ok (set_outbox (jn_outbox r ++ [text]) r));
      Ok (if final then set_result (Some text) r else r)
  end.

(** [{**baseline, 'expired_active': baseline['active'], 'active': []}] *)
Fixpoint put_member (name : string) (v : pyval) (d : list (pyval * pyval)) : list (pyval * pyval) :=
  match d with
  | [] => [(PStr (py name), v)]
  | (k, x) :: d => if key_is_str (py name) k then (k, v) :: d else (k, x) :: put_member name v d
  end.

Definition expire_baseline (baseline : pyval) : result pyval :=
  d ← of_option TypeError (as_dict baseline);
  active ← item "active" d;
  Ok (PDict (put_member "active" (PList []) (put_member "expired_active" active d))).

(** The last known good configuration, if its lease still allows a connection,
    and the baseline without it otherwise. *)
Definition previous_good (r : journal) (now : Z) : result (option (verified ST) * pyval) :=
  match jn_committed r with
  | None => Ok (None, jn_baseline r)
  | Some e =>
      match unpack_at e now with
      | Ok v => Ok (Some v, jn_baseline r)
      | Raise (ConfigError _) => b ← expire_baseline (jn_baseline r); Ok (None, b)
      | Raise err => Raise err
      end
  end.

Definition staged_entry (r : journal) : result entry := of_option TypeError (jn_staged r).

(** [_rollback(directory, record, error=...)]: the status and the record as the
    caller sees it after the call. *)
Definition rollback (r : journal) (error : string) : M (world A) (string * journal) :=
  '(now, r) ← time_ r;
  e ← lift (staged_entry r);
  staged ← lift (unpack_at e (en_at e));
  let r := set_phase ROLLING_BACK r in
  write_journal r;;
  done_ ← tryM ('(previous, baseline) ← lift (previous_good r now);
               note (ERollback (vf_digest staged));;
               on_app (app_rollback staged previous baseline);; mret true)
              (λ _, mret false);
  if (done_ : bool) then
    r ← lift (ack_record (set_idle r) (vf_digest staged) (Some staged) "ROLLED_BACK" error now true);
    write_journal r;;
    mret ("ROLLED_BACK"%string, r)
  else
    r ← lift (ack_record r (vf_digest staged) (Some staged) "FAILED" "ROLLBACK" now false);
    write_journal r;;
    mret ("FAILED"%string, r).

(** [@application_transaction]: the application's context manager around the
    method; its exit runs whatever the method did, and its error replaces the
    method's. *)
Definition in_transaction {X} (m : M (world A) X) : M (world A) X :=
  match app_scope with
  | None => m
  | Some (enter, leave) =>
      λ w, match on_app enter w with
           | (Raise e, w) => (Raise e, w)
           | (Ok _, w) =>
               let '(res, w) := m w in
               let '(found, w) := read_journal w in
               match on_app (leave (jn_phase <$> found)) w with
               | (Ok _, w) => (res, w)
               | (Raise e, w) => (Raise e, w)
               end
           end
  end.

(** [recover()] *)
Definition recover : M (world A) string := in_transaction (
  r ← read_journal;
  '(_, r) ← time_ r;
  match jn_staged r with
  | Some _ => fst <$> rollback r "RECOVERY"
  | None => write_journal r;; mret "IDLE"%string
  end).

(** The [try] of [receive]: what to do with a delivery. *)
Inductive verdict :=
  | Known (status : pystr) (r : journal)
  | Fresh (v : verified ST).

Definition admit_delivery (r : journal) (raw : bytes) (digest : pystr) (now : Z) : result verdict :=
  v ← verify_config raw now;
  earlier ← match jn_result r with
            | None => Ok None
            | Some text =>
                b ← stored_ack text;
                Ok (if str_eqb (ab_hash b) digest then Some (ab_status b, text) else None)
            end;
  match earlier with
  | Some (status, text) =>
      Ok (Known status (if existsb (str_eqb text) (jn_outbox r) then r
                        else set_outbox (jn_outbox r ++ [text]) r))
  | None =>
      if match jn_committed r with Some e => str_eqb (en_digest e) digest | None => false end then
        r ← ack_record r digest (Some v) "COMMITTED" "NONE" now false;
        Ok (Known (py "COMMITTED") r)
      else
        raise_if (vf_revision v <=? jn_floor r) (ConfigError "REPLAY");;
        require (bool_decide (vf_previous v = (en_digest <$> jn_committed r))) (ConfigError "PREVIOUS_HASH");;
        Ok (Fresh v)
  end.

(** The second [try] of [receive]: [_time] changes the record also when the
    verification after it fails. *)
Definition check_health (r : journal) (raw : bytes) (v : verified ST) : M (world A) (bool * journal) :=
  healthy ← tryM (Some <$> on_app (app_healthy v)) (λ _, mret None);
  match healthy with
  | None => mret (false, r)
  | Some h =>
      t ← tryM (Some <$> time_ r) (λ _, mret None);
      match t with
      | None => mret (false, r)
      | Some (now, r) => mret (h && is_ok (verify_config raw now), r)
      end
  end.

(** From [application.apply] to the end of [receive]. *)
Definition apply_staged (r : journal) (raw : bytes) (v : verified ST) (baseline : pyval) : M (world A) pystr :=
  let digest := tohex (full_hash raw) in
  applied ← tryM (note (EApply (vf_digest v));; on_app (app_apply v baseline);; mret true) (λ _, mret false);
  if (applied : bool) then
    let r := set_phase APPLIED_PENDING r in
    '(now, r) ← time_ r;
    r ← lift (ack_record r digest (Some v) "APPLIED" "NONE" now false);
    write_journal r;;
    '(healthy, r) ← check_health r raw v;
    if (healthy : bool) then
      runtime ← on_app (app_snapshot PNone);
      let r := set_committed runtime r in
      r ← lift (ack_record r digest (Some v) "COMMITTED" "NONE" (jn_last_now r) true);
      write_journal r;;
      mret (py "COMMITTED")
    else (λ p, py (fst p)) <$> rollback r "HEALTH"
  else (λ p, py (fst p)) <$> rollback r "APPLY".

(** The part of [receive] after recovery. *)
Definition deliver (r : journal) (raw : bytes) : M (world A) pystr :=
  let digest := tohex (full_hash raw) in
  '(now, r) ← time_ r;
  lift (raise_if (58 <? zlen (jn_outbox r)) (ProvisioningRejected "ACK outbox requires delivery"));;
  match admit_delivery r raw digest now with
  | Raise (ConfigError category) =>
      r ← lift (ack_record r digest None "REJECTED" category now false);
      write_journal r;;
      mret (py "REJECTED")
  | Raise e => raise e
  | Ok (Known status r) => write_journal r;; mret status
  | Ok (Fresh v) =>
      baseline ← on_app (app_snapshot (match jn_committed r with Some e => en_runtime e | None => PNone end));
      match app_reserve with Some reserve => on_app reserve | None => mret () end;;
      let r := set_staged (pack_entry v now) baseline (vf_revision v) r in
      r ← lift (ack_record r digest (Some v) "RECEIVED" "NONE" now false);
      write_journal r;;
      let r := set_phase APPLYING r in
      write_journal r;;
      apply_staged r raw v baseline
  end.

(** [receive(raw)] *)
Definition receive_config (raw : pyval) : M (world A) pystr := in_transaction (
  raw ← lift (of_option (ConfigError "SIZE") (as_bytes raw));
  r ← read_journal;
  match jn_staged r with
  | Some _ =>
      '(_, r) ← rollback r "RECOVERY";
      match jn_staged r with
      | Some _ => mret (py "FAILED")
      | None => deliver r raw
      end
  | None => deliver r raw
  end).

(** [flush_acks(carrier)]; [sends] are the outcomes of [carrier.send_ack], the
    loop ends at the first that is not [True]. *)
Fixpoint flush_outbox (l : list pystr) (sends : list bool) (r : journal) : M (world A) bool :=
  match l with
  | [] => mret true
  | text :: l =>
      raw ← lift (of_option bad (b64decode text));
      note (ESend text);;
      let sent := default false (head sends) in
      let sends := tail sends in
      if (sent : bool) then
        let r := set_outbox l r in
        write_journal r;;
        lift (verify_ack float_repr raw);;
        flush_outbox l sends r
      else
        lift (verify_ack float_repr raw);; mret false
  end.

Definition flush_acks (sends : list bool) : M (world A) bool :=
  r ← read_journal;
  flush_outbox (jn_outbox r) sends r.

(** [refresh(carrier)]: [sends1] and [sends2] the outcomes of the two flushes,
    [delivery] what [carrier.receive()] returns or raises. *)
Definition refresh (sends1 sends2 : list bool) (delivery : result pyval) : M (world A) pystr :=
  flush_acks sends1;;
  recover;;
  raw ← lift delivery;
  res ← receive_config raw;
  flush_acks sends2;;
  mret res.
End Core.
