(* ===== verification/JournalSpec.v ===== *)
(** What the control journal promises: whatever an operation and its
    environment do, the record on disk stays readable, moves only along the
    transitions of the protocol, and every effect on the application happens
    under the durable intent that announces it.

    The protocol of the control journal as a transition system on durable
    records, and the proof that the operations follow it. *)
From Stdlib Require Import ZArith Lia.
From S2P Require Import Prelude PyData Json JsonText Rns Ack AckSize Journal.

Local Open Scope Z_scope.

(** What the core needs of the configuration verifier. *)
Class VerifierLaws {RN : Rns} (ST : Type) {VF : Verifier ST} : Prop := {
  verify_envelope raw now v : verify_config raw now = Ok v → vf_envelope v = raw ∧ vf_digest v = tohex (full_hash raw);
  verify_revision raw now v : verify_config raw now = Ok v → 1 <= vf_revision v < 2 ^ 63;
  verify_id raw now v : verify_config raw now = Ok v → identifier (vf_config_id v) = true;
  (* accepted envelopes of one SHA-256 digest have one place in the chain *)
  verify_unique raw raw' now now' v v' :
    verify_config raw now = Ok v → verify_config raw' now' = Ok v' → vf_digest v = vf_digest v' →
    vf_revision v = vf_revision v' ∧ vf_previous v = vf_previous v';
  (* verification fails with a category, and only so *)
  verify_raises raw now e : verify_config raw now = Raise e → ∃ c, e = ConfigError c;
  verify_category raw now c : verify_config raw now = Raise (ConfigError c) → existsb (str_eqb (py c)) ACK_ERRORS = true;
}.

(** Snapshots are documents of strings and numbers, which the journal can
    store. *)
Class ApplicationLaws (ST A : Type) {AP : Application ST A} : Prop := {
  snapshot_jsonable p a v a' : app_snapshot p a = (Ok v, a') → jsonable v = true;
}.

Section Readable.
Context {RN : Rns} {ST : Type} {VF : Verifier ST} (float_repr : spec_float → pystr) (device : identity).
Implicit Types (r : journal).

Local Abbreviation check_entry := (check_entry (ST := ST)).
Local Abbreviation check_ack := (check_ack float_repr device).

Definition entry_good (r : journal) (e : option entry) : Prop :=
  check_entry r e = Ok ()
  ∧ ∀ x, e = Some x → forallb is_scalar (en_envelope x) = true ∧ forallb is_scalar (en_digest x) = true
                      ∧ jsonable (en_runtime x) = true.

Definition ack_good (ok : ack_body → bool) (text : pystr) : Prop :=
  forallb is_scalar text = true ∧ check_ack ok text = Ok ().

(** A record that [read] accepts and JSON text can hold. *)
Record good (r : journal) : Prop := Good {
  gd_schema : jn_schema r = PInt 1;
  gd_baseline : jsonable (jn_baseline r) = true;
  gd_committed : entry_good r (jn_committed r);
  gd_staged : entry_good r (jn_staged r);
  gd_floor : 0 <= jn_floor r < 2 ^ 63;
  gd_now : 0 <= jn_last_now r < 2 ^ 63;
  gd_phase : jn_phase r = IDLE ↔ jn_staged r = None;
  gd_length : zlen (jn_outbox r) <= 64;
  gd_outbox : Forall (ack_good (λ b, ab_sequence b <=? jn_floor r)) (jn_outbox r);
  gd_result text : jn_result r = Some text → ack_good (λ b, ab_sequence b <=? jn_floor r) text;
}.

Lemma entry_roundtrip e : optional entry_of (entry_json e) = Ok e.
Proof. by destruct e as [[env at_ dg [ap|] rt]|]. Qed.

Lemma phase_roundtrip p : phase_of (PStr (phase_name p)) = Some p.
Proof. by destruct p. Qed.

Lemma mapR_strings l : mapR str_of (List.map PStr l) = Ok l.
Proof. induction l as [|s l IH]; [done|]. cbn [List.map mapR]. by rewrite IH. Qed.

Lemma journal_roundtrip r : good r → journal_of (journal_json r) = Ok r.
Proof.
  intros Hg. destruct r as [sc cm sg ph bl fl ln ob rs]. destruct Hg as [Hsc _ _ _ Hf Hn Hp Hl _ _].
  cbn [jn_schema jn_committed jn_staged jn_phase jn_baseline jn_floor jn_last_now jn_outbox jn_result] in *. subst sc.
  unfold journal_of, journal_json.
  cbn [jn_schema jn_committed jn_staged jn_phase jn_baseline jn_floor jn_last_now jn_outbox jn_result].
  cbn [as_dict of_option mbind result_bind].
  match goal with |- context [keys_are journal_names ?d] => set (doc := d) end.
  assert (keys_are journal_names doc = true ∧ item "schema" doc = Ok (PInt 1) ∧ item "floor" doc = Ok (PInt fl)
    ∧ item "last_now" doc = Ok (PInt ln) ∧ item "phase" doc = Ok (PStr (phase_name ph))
    ∧ item "staged" doc = Ok (entry_json sg) ∧ item "outbox" doc = Ok (PList (List.map PStr ob))
    ∧ item "committed" doc = Ok (entry_json cm) ∧ item "result" doc = Ok (opt_str rs)
    ∧ item "baseline" doc = Ok bl) as (-> & -> & -> & -> & -> & -> & -> & -> & -> & ->) by (repeat split).
  clear doc. cbn [require mbind result_bind int_of as_int of_option].
  change (key_is_Z 1 (PInt 1)) with true. cbn [require mbind result_bind].
  rewrite (proj2 (Z.leb_le _ _) (proj1 Hf)), (proj2 (Z.ltb_lt _ _) (proj2 Hf)), (proj2 (Z.leb_le _ _) (proj1 Hn)).
  cbn [andb require mbind result_bind]. rewrite phase_roundtrip. cbn [of_option mbind result_bind].
  rewrite !entry_roundtrip. cbn [mbind result_bind].
  assert (bool_decide (ph = IDLE) = negb (if sg then true else false)) as ->.
  { destruct sg as [e|]; [apply bool_decide_eq_false_2|apply bool_decide_eq_true_2]; [|by apply Hp].
    intros Hi. by apply Hp in Hi. }
  rewrite Bool.eqb_reflx.
  cbn [require mbind result_bind as_list of_option].
  unfold zlen. rewrite length_map. fold (zlen ob). rewrite (proj2 (Z.leb_le _ _) Hl).
  cbn [require mbind result_bind]. rewrite mapR_strings. cbn [mbind result_bind].
  by destruct rs.
Qed.

Lemma journal_jsonable r : good r → jsonable (journal_json r) = true.
Proof.
  intros [Hsc Hb [_ Hc] [_ Hs] _ _ _ _ Ho Hr]. unfold journal_json. cbn [jsonable]. apply andb_true_iff.
  split; [vm_compute; reflexivity|]. cbn [forallb fst snd]. rewrite Hsc, Hb.
  assert (∀ e, (∀ x, e = Some x → forallb is_scalar (en_envelope x) = true ∧ forallb is_scalar (en_digest x) = true
                      ∧ jsonable (en_runtime x) = true) → jsonable (entry_json e) = true) as He.
  { intros [x|] Hx; [|done]. destruct (Hx x eq_refl) as (H1 & H2 & H3). cbn [entry_json jsonable].
    apply andb_true_iff. split; [vm_compute; reflexivity|]. cbn [forallb fst snd jsonable]. rewrite H1, H2, H3.
    by destruct (en_applied_at x). }
  rewrite (He _ Hc), (He _ Hs). cbn [jsonable].
  assert (forallb is_scalar (phase_name (jn_phase r)) = true) as -> by (by destruct (jn_phase r)).
  assert (forallb jsonable (List.map PStr (jn_outbox r)) = true) as ->.
  { induction Ho as [|t l [Ht _] Hl IH]; [done|]. cbn [List.map forallb jsonable]. by rewrite Ht. }
  destruct (jn_result r) as [t|]; [|reflexivity]. destruct (Hr t eq_refl) as [Ht _]. cbn [opt_str jsonable].
  by rewrite Ht.
Qed.

Lemma mapR_units {B} (f : B → result ()) l : Forall (λ x, f x = Ok ()) l → ∃ us, mapR f l = Ok us.
Proof.
  induction 1 as [|x l Hx Hl (us & IH)]; [by exists []|]. cbn [mapR]. rewrite Hx. cbn [mbind result_bind].
  rewrite IH. by eexists.
Qed.

Lemma check_ack_weaken (p q : ack_body → bool) text :
  (∀ b, p b = true → q b = true) → check_ack p text = Ok () → check_ack q text = Ok ().
Proof.
  unfold Journal.check_ack. intros Hpq. destruct (stored_ack float_repr text) as [b|e]; [|done].
  cbn [mbind result_bind]. intros Hp%require_Ok. bools. rewrite H. by rewrite Hpq.
Qed.

(** What is written is what the next reader gets. *)
Lemma written_readable r text :
  good r → journal_text float_repr r = Ok text → decode_journal (ST := ST) float_repr device text = Ok r.
Proof.
  intros Hg Ht. unfold journal_text in Ht. apply bind_Ok in Ht as (t & Hc & Ht).
  apply bind_Ok in Ht as (u & Hsz & Ht). apply raise_if_Ok in Hsz. injection Ht as ->.
  pose proof (journal_jsonable r Hg) as Hj.
  destruct (compact_loads float_repr _ Hj) as (t' & Ht' & Hl). rewrite Ht' in Hc. injection Hc as ->.
  pose proof (compact_ascii float_repr _ _ Hj Ht') as Ha. unfold decode_journal.
  apply Z.ltb_ge in Hsz. rewrite (proj2 (Z.leb_le _ _)) by done. cbn [require mbind result_bind].
  unfold json_loads_bytes. rewrite json_decode_ascii by done. cbn [mbind option_bind]. rewrite Hl.
  cbn [of_option mbind result_bind]. rewrite journal_roundtrip by done. cbn [mbind result_bind].
  destruct Hg as [_ _ [Hcm _] [Hst _] _ _ _ _ Ho Hr]. rewrite Hcm. cbn [mbind result_bind]. rewrite Hst.
  cbn [mbind result_bind].
  destruct (mapR_units (check_ack (λ _, true)) (jn_outbox r)) as (us & ->);
    [by eapply Forall_impl; [exact Ho|]; intros x [_ Hx]; eapply check_ack_weaken, Hx|]. cbn [mbind result_bind].
  destruct (jn_result r) as [text'|]; [|done]. destruct (Hr text' eq_refl) as [_ Hck]. by rewrite Hck.
Qed.
End Readable.

Section Protocol.
Context {RN : Rns} {RNL : RnsLaws} {RNO : RnsOctets} {ST A : Type}.
Context {VF : Verifier ST} {VFL : VerifierLaws ST} {AP : Application ST A} {APL : ApplicationLaws ST A}.
Context (float_repr : spec_float → pystr) (device : identity).
Implicit Types (r : journal) (w : world A).

Local Abbreviation good := (good (ST := ST) float_repr device).

(** ** The protocol *)

(** A stored receipt of this device for a message, with a status. *)
Definition says (text digest : pystr) (status : string) : Prop :=
  ∃ b, stored_ack float_repr text = Ok b ∧ ab_hash b = digest ∧ ab_status b = py status
    ∧ ab_device b = reference device.

(** Time does not run backwards, floors do not fall, receipts are only added. *)
Record later r r' : Prop := Later {
  lt_now : jn_last_now r <= jn_last_now r';
  lt_floor : jn_floor r <= jn_floor r';
  lt_outbox : jn_outbox r `prefix_of` jn_outbox r';
}.

(** The transitions between one durable record and the next. *)
Inductive jstep : journal → journal → Prop :=
  | js_note r r' :
      later r r' → jn_committed r' = jn_committed r → jn_staged r' = jn_staged r → jn_phase r' = jn_phase r →
      jn_baseline r' = jn_baseline r → jn_floor r' = jn_floor r → jn_result r' = jn_result r →
      jstep r r'
  | js_sent r text l :
      jn_outbox r = text :: l → jstep r (set_outbox l r)
  | js_stage r r' raw v :
      jn_phase r = IDLE → verify_config raw (jn_last_now r') = Ok v →
      jn_floor r < vf_revision v → vf_previous v = en_digest <$> jn_committed r →
      later r r' → jn_committed r' = jn_committed r → jn_phase r' = STAGED →
      jn_staged r' = Some (pack_entry v (jn_last_now r')) → jn_floor r' = vf_revision v →
      (∃ text, text ∈ jn_outbox r' ∧ says text (vf_digest v) "RECEIVED") →
      jstep r r'
  | js_apply r :
      jn_phase r = STAGED → jstep r (set_phase APPLYING r)
  | js_applied r r' e :
      jn_phase r = APPLYING → jn_staged r = Some e →
      later r r' → jn_committed r' = jn_committed r → jn_staged r' = jn_staged r →
      jn_phase r' = APPLIED_PENDING → jn_baseline r' = jn_baseline r → jn_floor r' = jn_floor r →
      (∃ text, text ∈ jn_outbox r' ∧ says text (en_digest e) "APPLIED") →
      jstep r r'
  | js_commit r r' e runtime text :
      jn_phase r = APPLIED_PENDING → jn_staged r = Some e →
      later r r' → jn_committed r' = Some (Entry (en_envelope e) (en_at e) (en_digest e) (Some (jn_last_now r')) runtime) →
      jn_staged r' = None → jn_phase r' = IDLE → jn_floor r' = jn_floor r →
      jn_result r' = Some text → text ∈ jn_outbox r' → says text (en_digest e) "COMMITTED" →
      jstep r r'
  | js_rolling r t :
      jn_phase r ≠ IDLE → jn_last_now r <= t → jstep r (set_phase ROLLING_BACK (set_now t r))
  | js_rolled r r' e text :
      jn_phase r = ROLLING_BACK → jn_staged r = Some e →
      later r r' → jn_committed r' = jn_committed r → jn_staged r' = None → jn_phase r' = IDLE →
      jn_floor r' = jn_floor r →
      jn_result r' = Some text → text ∈ jn_outbox r' → says text (en_digest e) "ROLLED_BACK" →
      jstep r r'.

(** What may happen while a record is the durable one: a transition to another
    readable record, or an effect the record announces. *)
Inductive allowed : journal → event → journal → Prop :=
  | al_write r r' : jstep r r' → good r' → allowed r (EWrite r') r'
  | al_apply r e : jn_phase r = APPLYING → jn_staged r = Some e → allowed r (EApply (en_digest e)) r
  | al_rollback r e : jn_phase r = ROLLING_BACK → jn_staged r = Some e → allowed r (ERollback (en_digest e)) r
  | al_send r text l : jn_outbox r = text :: l → allowed r (ESend text) r.

Inductive path : journal → list event → journal → Prop :=
  | path_nil r : path r [] r
  | path_cons r e r1 l r2 : allowed r e r1 → path r1 l r2 → path r (e :: l) r2.

Lemma path_app r l1 r1 l2 r2 : path r l1 r1 → path r1 l2 r2 → path r (l1 ++ l2) r2.
Proof. induction 1; [done|]. intros. econstructor; eauto. Qed.

Lemma path_one r e r1 : allowed r e r1 → path r [e] r1.
Proof. intros. econstructor; [done|constructor]. Qed.

(** A crash cuts the run short: what happened before it is still a path. *)
Lemma path_prefix r l1 l2 r2 : path r (l1 ++ l2) r2 → ∃ r1, path r l1 r1 ∧ path r1 l2 r2.
Proof.
  revert r. induction l1 as [|e l1 IH]; intros r Hp; [by exists r; split; [constructor|]|].
  inversion Hp as [|? ? r1 ? ? Ha Hp']; subst. destruct (IH _ Hp') as (r3 & H1 & H2).
  exists r3. split; [|done]. by econstructor.
Qed.

(** ** Running an operation over a stored record *)

(** The directory holds a record the next [read] accepts. *)
Definition stored w r : Prop :=
  read_journal float_repr device w = (Ok r, w) ∧ good r ∧ ∀ n z, wd_clock w n = PInt z → z < 2 ^ 63.

Definition runs {X} r0 (m : M (world A) X) (Q : X → journal → Prop) (E : journal → Prop) : Prop :=
  ∀ w, stored w r0 → ∃ l r1,
    wd_log (m w).2 = wd_log w ++ l ∧ path r0 l r1 ∧ stored (m w).2 r1
    ∧ match (m w).1 with Ok x => Q x r1 | Raise _ => E r1 end.

Lemma runs_bind {X Y} r0 (m : M (world A) X) (f : X → M (world A) Y) Q Q' E :
  runs r0 m Q E → (∀ x r1, Q x r1 → runs r1 (f x) Q' E) → runs r0 (m ≫= f) Q' E.
Proof.
  intros Hm Hf w Hw. destruct (Hm w Hw) as (l & r1 & Hlog & Hp & Hs & Hq). unfold mbind, M_bind.
  destruct (m w) as [[x|e] w1]; simpl in *; [|by exists l, r1].
  destruct (Hf x r1 Hq w1 Hs) as (l2 & r2 & Hlog2 & Hp2 & Hs2 & Hq2). exists (l ++ l2), r2.
  rewrite Hlog2, Hlog, (assoc_L (++)). split_and!; [done|by eapply path_app|done|done].
Qed.

Lemma runs_ret {X} r0 (x : X) (Q : X → journal → Prop) E : Q x r0 → runs r0 (mret x) Q E.
Proof. intros Hq w Hw. exists [], r0. rewrite app_nil_r. by split_and!; [|constructor| |]. Qed.

Lemma runs_lift {X} r0 (c : result X) (Q : X → journal → Prop) (E : journal → Prop) :
  (∀ x, c = Ok x → Q x r0) → E r0 → runs r0 (lift c) Q E.
Proof.
  intros Hq He w Hw. exists [], r0. rewrite app_nil_r. split_and!; [done|constructor|done|].
  unfold lift. simpl. destruct c; eauto.
Qed.

Lemma runs_raise {X} r0 e (Q : X → journal → Prop) (E : journal → Prop) : E r0 → runs r0 (raise e) Q E.
Proof. intros He. by apply (runs_lift r0 (Raise e)). Qed.

Lemma runs_weaken {X} r0 (m : M (world A) X) (Q Q' : X → journal → Prop) (E E' : journal → Prop) :
  runs r0 m Q E → (∀ x r1, Q x r1 → Q' x r1) → (∀ r1, E r1 → E' r1) → runs r0 m Q' E'.
Proof.
  intros Hm HQ HE w Hw. destruct (Hm w Hw) as (l & r1 & H1 & H2 & H3 & H4). exists l, r1. split_and!; [done..|].
  destruct (m w).1; eauto.
Qed.

(** A handler that runs when the body failed and left the record alone. *)
Lemma runs_try {X} r0 (m : M (world A) X) h Q E E0 :
  runs r0 m Q E0 → (∀ e r1, E0 r1 → runs r1 (h e) Q E) → runs r0 (tryM m h) Q E.
Proof.
  intros Hm Hh w Hw. destruct (Hm w Hw) as (l & r1 & Hlog & Hp & Hs & Hq). unfold tryM.
  destruct (m w) as [[x|e] w1]; simpl in *; [by exists l, r1|].
  destruct (Hh e r1 Hq w1 Hs) as (l2 & r2 & Hlog2 & Hp2 & Hs2 & Hq2). exists (l ++ l2), r2.
  rewrite Hlog2, Hlog, (assoc_L (++)). split_and!; [done|by eapply path_app|done|done].
Qed.

(** Reading depends only on the directory. *)
Lemma stored_ext w w' r :
  stored w r → wd_dir w' = wd_dir w → wd_file w' = wd_file w → wd_stat w' = wd_stat w →
  (∀ n z, wd_clock w' n = PInt z → z < 2 ^ 63) → stored w' r.
Proof.
  intros (Hr & Hg & _) H1 H2 H3 H4. split; [|done]. unfold read_journal in *. rewrite H1, H2, H3.
  injection Hr as ->. done.
Qed.

Lemma runs_read r0 : runs r0 (read_journal float_repr device) (λ r r1, r = r0 ∧ r1 = r0) (λ _, False).
Proof.
  intros w Hw. destruct Hw as (Hr & Hrest). rewrite Hr. exists [], r0. rewrite app_nil_r.
  split_and!; [done|constructor|by split|done..].
Qed.

Lemma runs_app {X} r0 (m : M A X) :
  runs r0 (on_app m) (λ x r1, r1 = r0 ∧ ∃ a a', m a = (Ok x, a')) (λ r1, r1 = r0).
Proof.
  intros w Hw. exists [], r0. unfold on_app. destruct (m (wd_app w)) as [res a] eqn:Em. simpl. rewrite app_nil_r.
  split_and!; [done|constructor|by eapply stored_ext; [exact Hw|..]; try done; apply Hw|].
  destruct res; [|done]. split; [done|]. by eexists _, _.
Qed.

Lemma runs_event r0 e : allowed r0 e r0 → runs r0 (note e) (λ _ r1, r1 = r0) (λ _, False).
Proof.
  intros He w Hw. exists [e], r0. simpl. split_and!; [done|by apply path_one| |done].
  eapply stored_ext; [exact Hw|..]; try done; apply Hw.
Qed.

Lemma runs_time r0 r :
  runs r0 (time_ r) (λ p r1, r1 = r0 ∧ p.2 = set_now p.1 r ∧ jn_last_now r <= p.1 < 2 ^ 63) (λ r1, r1 = r0).
Proof.
  intros w Hw. exists [], r0. unfold time_. simpl. rewrite app_nil_r.
  split_and!; [done|constructor|eapply stored_ext; [exact Hw|..]; try done; intros n z; apply Hw|].
  destruct (wd_clock w 0%nat) as [| |z| | | | |] eqn:Ec; simpl; try done.
  unfold raise_if. destruct (Z.ltb_spec z (jn_last_now r)); simpl; [done|]. split_and!; try done.
  by eapply Hw.
Qed.

(** A record that was written is the stored one. *)
Lemma stored_replace r text w :
  good r → journal_text float_repr r = Ok text → wd_dir w = true → (∀ n z, wd_clock w n = PInt z → z < 2 ^ 63) →
  stored (replace_file r text w) r.
Proof.
  intros Hg Et Hdir Hclock. split; [|by split]. unfold read_journal. cbn [replace_file wd_dir wd_file wd_stat]. rewrite Hdir.
  cbn [require safe_stat fresh_stat fs_regular fs_owned fs_private fs_links Z.eqb Pos.eqb andb mbind result_bind].
  by rewrite (written_readable float_repr device r text Hg Et).
Qed.

Lemma stored_dir w r : stored w r → wd_dir w = true.
Proof. intros (Hr & _). unfold read_journal in Hr. by destruct (wd_dir w). Qed.

Lemma runs_write r0 r (E : journal → Prop) :
  jstep r0 r → good r → E r0 → E r → runs r0 (write_journal float_repr r) (λ _ r1, r1 = r) E.
Proof.
  intros Hstep Hg He0 He w Hw. unfold write_journal.
  destruct (journal_text float_repr r) as [text|e] eqn:Et.
  2: { exists [], r0. simpl. rewrite app_nil_r. by split_and!; [|constructor| |]. }
  assert (stored (replace_file r text w) r) as Hs
    by (apply stored_replace; [done|done|by eapply stored_dir|apply Hw]).
  destruct (wd_faults w 0%nat); simpl.
  - exists [EWrite r], r. by split_and!; [|apply path_one, al_write| |].
  - exists [], r0. rewrite app_nil_r. split_and!; [done|constructor| |done].
    eapply stored_ext; [exact Hw|..]; try done; apply Hw.
  - exists [EWrite r], r. by split_and!; [|apply path_one, al_write| |].
Qed.

(** The same, for the first step of a sequence. *)
Section Steps.
Context {X Y : Type} (Q : Y → journal → Prop) (E : journal → Prop).

Lemma runs_then_lift r0 (c : result X) (f : X → M (world A) Y) :
  E r0 → (∀ x, c = Ok x → runs r0 (f x) Q E) → runs r0 (lift c ≫= f) Q E.
Proof.
  intros He Hf. apply (runs_bind _ _ _ (λ x r1, r1 = r0 ∧ c = Ok x)).
  - by apply runs_lift.
  - by intros x r1 [-> Hx]; apply Hf.
Qed.

Lemma runs_then_app r0 (m : M A X) (f : X → M (world A) Y) :
  E r0 → (∀ x, (∃ a a', m a = (Ok x, a')) → runs r0 (f x) Q E) → runs r0 (on_app m ≫= f) Q E.
Proof.
  intros He Hf. apply (runs_bind _ _ _ (λ x r1, r1 = r0 ∧ ∃ a a', m a = (Ok x, a'))).
  - eapply runs_weaken; [apply runs_app|done|by intros ? ->].
  - by intros x r1 [-> Hx]; apply Hf.
Qed.

Lemma runs_then_event r0 e (f : () → M (world A) Y) :
  allowed r0 e r0 → runs r0 (f ()) Q E → runs r0 (note e ≫= f) Q E.
Proof.
  intros He Hf. apply (runs_bind _ _ _ (λ _ r1, r1 = r0)).
  - eapply runs_weaken; [by apply runs_event|done|done].
  - by intros [] r1 ->.
Qed.

Lemma runs_then_time r0 r (f : Z * journal → M (world A) Y) :
  E r0 → (∀ now, jn_last_now r <= now < 2 ^ 63 → runs r0 (f (now, set_now now r)) Q E) → runs r0 (time_ r ≫= f) Q E.
Proof.
  intros He Hf. eapply runs_bind; [eapply runs_weaken; [apply runs_time|done|by intros ? ->]|].
  intros [now r'] r1 (-> & E' & Hn). cbn [fst snd] in *. subst r'. by apply Hf.
Qed.

Lemma runs_then_write r0 r (f : () → M (world A) Y) :
  jstep r0 r → good r → E r0 → E r → runs r (f ()) Q E → runs r0 (write_journal float_repr r ≫= f) Q E.
Proof.
  intros Hs Hg H0 H1 Hf. eapply runs_bind; [by apply runs_write|]. by intros [] r1 ->.
Qed.

Lemma runs_then_read r0 (f : journal → M (world A) Y) :
  runs r0 (f r0) Q E → runs r0 (read_journal float_repr device ≫= f) Q E.
Proof.
  intros Hf. eapply runs_bind; [eapply runs_weaken; [apply runs_read|done|done]|]. by intros r r1 [-> ->].
Qed.
End Steps.
End Protocol.
