(* ===== verification/JournalRuns.v ===== *)
(** Every operation of the control core follows the protocol of the journal,
    whatever the delivery, the application, the clock and the disk do. *)
From Stdlib Require Import ZArith Lia.
From S2P Require Import Prelude PyData Json JsonText Rns Ack AckSize Journal JournalSpec.

Local Open Scope Z_scope.

Section Runs.
Context {RN : Rns} {RNL : RnsLaws} {RNO : RnsOctets} {ST A : Type}.
Context {VF : Verifier ST} {VFL : VerifierLaws ST} {AP : Application ST A} {APL : ApplicationLaws ST A}.
Context (float_repr : spec_float → pystr) (device : identity).
Implicit Types (r : journal) (w : world A).

Local Abbreviation good := (good (ST := ST) float_repr device).
Local Abbreviation says := (says float_repr device).
Local Abbreviation jstep := (jstep (ST := ST) float_repr device).
Local Abbreviation runs := (runs (ST := ST) (A := A) float_repr device).
Local Abbreviation entry_good := (entry_good (ST := ST)).
Local Abbreviation check_entry := (check_entry (ST := ST)).
Local Abbreviation ack_good := (ack_good float_repr device).

(** ** Records stay good *)

Lemma check_entry_mono r r' e :
  check_entry r e = Ok () → jn_floor r <= jn_floor r' → jn_last_now r <= jn_last_now r' → check_entry r' e = Ok ().
Proof.
  unfold Journal.check_entry. destruct e as [e|]; [|done]. destruct (unpack_at e (en_at e)) as [v|]; [|done].
  cbn [mbind result_bind]. intros H%require_Ok Hf Hn. bools.
  by rewrite (proj2 (Z.leb_le _ _)), (proj2 (Z.leb_le _ _)) by lia.
Qed.

Lemma entry_good_mono r r' e :
  entry_good r e → jn_floor r <= jn_floor r' → jn_last_now r <= jn_last_now r' → entry_good r' e.
Proof. intros [H1 H2] Hf Hn. split; [by eapply check_entry_mono|done]. Qed.

Lemma entry_good_None r : entry_good r None.
Proof. by split. Qed.

Lemma ack_good_mono f f' text :
  ack_good (λ b, ab_sequence b <=? f) text → f <= f' → ack_good (λ b, ab_sequence b <=? f') text.
Proof.
  intros [H1 H2] Hf. split; [done|]. eapply check_ack_weaken, H2. intros b. rewrite !Z.leb_le. lia.
Qed.

(** A change of the record that keeps what the receipts are checked against. *)
Lemma good_change r r' :
  good r → jn_schema r' = jn_schema r → jn_floor r <= jn_floor r' < 2 ^ 63 →
  jn_last_now r <= jn_last_now r' < 2 ^ 63 →
  jsonable (jn_baseline r') = true → entry_good r' (jn_committed r') → entry_good r' (jn_staged r') →
  (jn_phase r' = IDLE ↔ jn_staged r' = None) → jn_outbox r' = jn_outbox r → jn_result r' = jn_result r → good r'.
Proof.
  intros [Hsc Hb Hc Hs Hf Hn Hp Hl Ho Hr] Esc Ef En Eb Ec Es Ep Eo Er. split; try done; [congruence|lia|lia| | |].
  - by rewrite Eo.
  - rewrite Eo. eapply Forall_impl; [exact Ho|]. intros x Hx. eapply ack_good_mono; [exact Hx|lia].
  - rewrite Er. intros text Ht. eapply ack_good_mono; [by apply Hr|lia].
Qed.

Lemma good_set_now r t : good r → jn_last_now r <= t < 2 ^ 63 → good (set_now t r).
Proof.
  intros Hg Ht. apply (good_change r); try done; try (split; [done|apply Hg]); try apply Hg; simpl.
  - eapply entry_good_mono; [apply Hg|done..|simpl; lia].
  - eapply entry_good_mono; [apply Hg|done..|simpl; lia].
Qed.

Lemma good_set_phase r p : good r → (p = IDLE ↔ jn_staged r = None) → good (set_phase p r).
Proof.
  intros Hg Hp. apply (good_change r); try done; try apply Hg.
  - split; [done|apply Hg].
  - split; [done|apply Hg].
Qed.

Lemma good_idle r : good r → good (set_idle r).
Proof.
  intros Hg. apply (good_change r); try done; try apply Hg.
  - split; [done|apply Hg].
  - split; [done|apply Hg].
Qed.

Lemma good_set_outbox r o :
  good r → zlen o <= 64 → Forall (ack_good (λ b, ab_sequence b <=? jn_floor r)) o → good (set_outbox o r).
Proof. intros [] Hl Ho. by split. Qed.

Lemma good_set_result r text :
  good r → ack_good (λ b, ab_sequence b <=? jn_floor r) text → good (set_result (Some text) r).
Proof. intros [] Ht. split; try done. by intros t [= <-]. Qed.

(** The staged configuration of a good record verifies as it did when staged. *)
Lemma unpack_known e now (v : verified ST) :
  unpack_at e now = Ok v → ∃ raw, verify_config raw now = Ok v ∧ vf_digest v = en_digest e.
Proof.
  unfold unpack_at. intros H. repeat inv_ok1. subst v. bools. exists a.
  split; [done|]. by apply str_eqb_eq.
Qed.

Lemma check_entry_spec r e :
  check_entry r (Some e) = Ok () →
  ∃ v, unpack_at (ST := ST) e (en_at e) = Ok v ∧ vf_revision v <= jn_floor r ∧ en_at e <= jn_last_now r.
Proof.
  unfold Journal.check_entry. intros H. apply bind_Ok in H as (v & Hv & H). apply require_Ok in H. bools.
  by exists v.
Qed.

(** ** Receipts *)

Lemma find_ack_spec digest status error l text :
  find_ack float_repr digest (py status) error l = Ok (Some text) →
  Forall (λ x, ∃ ok, ack_good ok x) l →
  text ∈ l ∧ says text digest status.
Proof.
  induction l as [|x l IH]; [done|]. cbn [find_ack]. intros H Hl. apply Forall_cons in Hl as [[ok [_ Hx]] Hl].
  apply bind_Ok in H as (b & Hb & H). destruct (_ && _) eqn:Em.
  - injection H as <-. bools. split; [by left|]. exists b. apply str_eqb_eq in H0, H. split_and!; try done.
    unfold check_ack in Hx. rewrite Hb in Hx. cbn [mbind result_bind] in Hx. apply require_Ok in Hx. bools.
    by apply str_eqb_eq.
  - destruct (IH H Hl) as [H1 H2]. split; [by right|done].
Qed.

Definition known_status (status error : string) : Prop :=
  existsb (str_eqb (py status)) STATUSES = true ∧ existsb (str_eqb (py error)) ACK_ERRORS = true.

Lemma known status error :
  existsb (str_eqb (py status)) STATUSES = true → existsb (str_eqb (py error)) ACK_ERRORS = true →
  known_status status error.
Proof. by split. Qed.

(** The subject of a receipt: nothing verified, or a verified configuration
    within the floor. *)
Definition subject (floor : Z) (v : option (verified ST)) : Prop :=
  match v with
  | None => True
  | Some v => identifier (vf_config_id v) = true ∧ 1 <= vf_revision v <= floor
  end.

Definition sequence_of (v : option (verified ST)) : Z := match v with Some v => vf_revision v | None => 0 end.

(** A receipt the device creates, as the journal stores it. *)
Lemma created_good r digest (v : option (verified ST)) status error now raw :
  good r → hex_match 64 digest = true → subject (jn_floor r) v → known_status status error → 0 <= now < 2 ^ 63 →
  create_ack float_repr device digest (vf_config_id <$> v) (sequence_of v) (py status) (py error) now = Ok raw →
  says (b64encode raw) digest status ∧ ack_good (λ b, ab_sequence b <=? jn_floor r) (b64encode raw).
Proof.
  intros Hg Hd Hv [Hst Her] Hnow Hraw. pose proof (gd_floor _ _ _ Hg) as Hf.
  assert (ack_wf digest (vf_config_id <$> v) (sequence_of v) (py status) (py error) now) as Hwf.
  { split; try done; [|destruct v; simpl in *; lia|lia]. intros s Hs. destruct v as [v|]; simpl in *; simplify_eq.
    apply Hv. }
  destruct (create_ack_fits float_repr device _ _ _ _ _ _ Hwf ltac:(lia)) as (raw' & Hraw' & Hlen & Ha).
  rewrite Hraw in Hraw'. injection Hraw' as <-.
  assert (all_bytes raw) as Hb.
  { eapply Forall_impl; [exact Ha|]. intros x Hx. simpl in Hx. unfold is_byte. apply andb_true_iff.
    split; [apply Z.leb_le|apply Z.ltb_lt]; lia. }
  assert (stored_ack float_repr (b64encode raw) = Ok (AckBody (reference device) (public_text device) digest
      (vf_config_id <$> v) (sequence_of v) (py status) (py error) now)) as Hstored.
  { unfold stored_ack. rewrite b64_roundtrip by done. cbn [of_option mbind result_bind].
    by apply (create_ack_verifies float_repr device). }
  split; [eexists; split_and!; [exact Hstored|done..]|]. split; [by apply b64encode_scalar|].
  unfold check_ack. rewrite Hstored. cbn [mbind result_bind ab_device ab_sequence].
  rewrite (proj2 (str_eqb_eq _ _) eq_refl). rewrite (proj2 (Z.leb_le _ _)); [done|].
  destruct v as [v|]; simpl in *; lia.
Qed.

(** What [_ack] leaves: the same record with the receipt in its outbox. *)
Lemma ack_record_good r digest v status error now final r' :
  good r → hex_match 64 digest = true → subject (jn_floor r) v → known_status status error → 0 <= now < 2 ^ 63 →
  ack_record float_repr device r digest v status error now final = Ok r' →
  ∃ o text, jn_outbox r `prefix_of` o ∧ text ∈ o ∧ says text digest status ∧ good r'
    ∧ r' = (if final then set_result (Some text) (set_outbox o r) else set_outbox o r).
Proof.
  intros Hg Hd Hv Hst Hnow H. unfold ack_record in H. apply bind_Ok in H as (found & Hfound & H).
  assert (∀ o text, jn_outbox r `prefix_of` o → text ∈ o → says text digest status → good (set_outbox o r) →
    r' = (if final then set_result (Some text) (set_outbox o r) else set_outbox o r) →
    ∃ o text, jn_outbox r `prefix_of` o ∧ text ∈ o ∧ says text digest status ∧ good r'
      ∧ r' = (if final then set_result (Some text) (set_outbox o r) else set_outbox o r)) as Hdone.
  { intros o text Ho Ht Hs Hgo ->. exists o, text. split_and!; try done. destruct final; [|done].
    apply good_set_result; [done|]. pose proof (gd_outbox _ _ _ Hgo) as Hall. rewrite Forall_forall in Hall.
    by apply Hall. }
  assert (good (set_outbox (jn_outbox r) r)) as Hself by (by destruct r).
  assert (set_outbox (jn_outbox r) r = r) as Er by (by destruct r).
  destruct found as [text|].
  - apply find_ack_spec in Hfound as [Hin Hs].
    2: { eapply Forall_impl; [apply Hg|]. intros x Hx. by eexists. }
    injection H as <-. by apply (Hdone (jn_outbox r) text); rewrite ?Er.
  - apply bind_Ok in H as (raw & Hraw & H). apply bind_Ok in H as (r1 & Hr1 & H). injection H as <-.
    destruct (created_good r digest v status error now raw Hg Hd Hv Hst Hnow Hraw) as [Hsays Hack].
    destruct (existsb (str_eqb (b64encode raw)) (jn_outbox r)) eqn:Ex.
    + injection Hr1 as <-. apply (Hdone (jn_outbox r) (b64encode raw)); rewrite ?Er; try done.
      apply existsb_exists in Ex as (x & Hx & ->%str_eqb_eq). by apply list_elem_of_In.
    + destruct (64 <=? zlen (jn_outbox r)) eqn:E64; [done|]. injection Hr1 as <-. apply Z.leb_gt in E64.
      apply (Hdone (jn_outbox r ++ [b64encode raw]) (b64encode raw)); try done.
      * by apply prefix_app_r.
      * apply elem_of_app. right. by left.
      * apply good_set_outbox; [done| |].
        -- unfold zlen in *. rewrite length_app. simpl. lia.
        -- apply Forall_app. split; [apply Hg|by constructor].
Qed.

(** ** Rolling back *)

(** The record in memory, which may have read the clock since the last write. *)
Definition ahead r0 r : Prop := r = set_now (jn_last_now r) r0 ∧ jn_last_now r0 <= jn_last_now r < 2 ^ 63.

Lemma ahead_refl r : good r → ahead r r.
Proof. intros Hg. pose proof (gd_now _ _ _ Hg). destruct r. split; simpl in *; [done|lia]. Qed.

Lemma ahead_now r0 r t : ahead r0 r → jn_last_now r <= t < 2 ^ 63 → ahead r0 (set_now t r).
Proof. intros [-> Hn] Ht. split; [done|]. simpl in *. lia. Qed.

Lemma ahead_good r0 r : good r0 → ahead r0 r → good r.
Proof. intros Hg [-> Hn]. by apply good_set_now. Qed.

Lemma ahead_later r0 r r' : ahead r0 r → jn_last_now r <= jn_last_now r' → jn_floor r <= jn_floor r' →
  jn_outbox r `prefix_of` jn_outbox r' → later r0 r'.
Proof. intros [E Hn] H1 H2 H3. split; [lia| |]; rewrite E in *; done. Qed.

Lemma staged_subject r e (v : verified ST) :
  good r → jn_staged r = Some e → unpack_at e (en_at e) = Ok v →
  subject (jn_floor r) (Some v) ∧ hex_match 64 (vf_digest v) = true ∧ vf_digest v = en_digest e.
Proof.
  intros Hg Hs Hv. pose proof (proj1 (gd_staged _ _ _ Hg)) as Hc. rewrite Hs in Hc.
  destruct (check_entry_spec _ _ Hc) as (v' & Hv' & Hrev & _). rewrite Hv in Hv'. injection Hv' as <-.
  destruct (unpack_known _ _ _ Hv) as (raw & Hraw & Hd). split_and!; [..|done].
  - split; [by eapply verify_id|]. pose proof (verify_revision _ _ _ Hraw). lia.
  - destruct (verify_envelope _ _ _ Hraw) as [_ ->]. unfold hex_match.
    rewrite length_tohex, full_hash_length. apply forallb_forall. intros x Hx.
    pose proof (tohex_lhex (full_hash raw) (full_hash_bytes raw)) as Hall. rewrite forallb_forall in Hall. by apply Hall.
Qed.

Local Abbreviation rollback := (rollback (ST := ST) (A := A) float_repr device).

Lemma runs_rollback r0 r error :
  good r0 → ahead r0 r → jn_staged r0 ≠ None → existsb (str_eqb (py error)) ACK_ERRORS = true →
  runs r0 (rollback r error) (λ p r1, p.2 = r1) (λ _, True).
Proof.
  intros Hg Ha Hst Her. pose proof (ahead_good _ _ Hg Ha) as Hgr. unfold Journal.rollback.
  apply runs_then_time; [done|]. intros now Hnow. set (r2 := set_now now r).
  assert (ahead r0 r2) as Ha2 by (by apply ahead_now).
  pose proof (ahead_good _ _ Hg Ha2) as Hg2.
  apply runs_then_lift; [done|]. intros e He. unfold staged_entry in He. apply of_option_Ok in He.
  apply runs_then_lift; [done|]. intros v Hv.
  destruct (staged_subject _ _ _ Hg2 He Hv) as (Hsub & Hhex & Hdg).
  set (rw := set_phase ROLLING_BACK r2).
  assert (good rw) as Hgw by (apply good_set_phase; [done|rewrite He; done]).
  apply runs_then_write; [|exact Hgw|done|done|].
  { unfold rw. replace (set_phase ROLLING_BACK r2) with (set_phase ROLLING_BACK (set_now (jn_last_now r2) r0))
      by (f_equal; symmetry; apply Ha2). apply js_rolling; [|apply Ha2]. intros Hp. by apply (gd_phase _ _ _ Hg) in Hp. }
  assert (jn_phase rw = ROLLING_BACK ∧ jn_staged rw = Some e) as [Hpw Hsw] by done.
  pose proof (gd_now _ _ _ Hg2) as Hn2. change (0 <= now < 2 ^ 63) in Hn2.
  eapply (runs_bind _ _ _ _ _ (λ (_ : bool) r1, r1 = rw)).
  { eapply (runs_try _ _ _ _ _ _ _ (λ r1, r1 = rw)); [|by intros ? r1 ->; apply runs_ret].
    apply runs_then_lift; [done|]. intros [previous baseline] _.
    apply runs_then_event; [rewrite Hdg; by apply al_rollback|].
    apply runs_then_app; [done|]. intros x _. by apply runs_ret. }
  intros ok r1 ->. destruct ok; (apply runs_then_lift; [done|]; intros r' Hr').
  - destruct (ack_record_good _ _ _ _ _ _ _ _ (good_idle _ Hgw) Hhex Hsub (known "ROLLED_BACK" error eq_refl Her) Hn2 Hr')
      as (o & text & Ho & Hin & Hs & Hg' & E').
    apply runs_then_write; [|exact Hg'|done|done|by apply runs_ret].
    rewrite E'. eapply (js_rolled _ _ _ _ e text); try done. by rewrite <- Hdg.
  - destruct (ack_record_good _ _ _ _ _ _ _ _ Hgw Hhex Hsub (known "FAILED" "ROLLBACK" eq_refl eq_refl) Hn2 Hr')
      as (o & text & Ho & Hin & Hs & Hg' & E').
    apply runs_then_write; [|exact Hg'|done|done|by apply runs_ret].
    rewrite E'. by apply js_note.
Qed.

(** ** Delivering *)

Lemma digest_hex raw : hex_match 64 (tohex (full_hash raw)) = true.
Proof.
  unfold hex_match. rewrite length_tohex, full_hash_length. apply forallb_forall. intros x Hx.
  pose proof (tohex_lhex (full_hash raw) (full_hash_bytes raw)) as Hall. rewrite forallb_forall in Hall. by apply Hall.
Qed.

Lemma refuse_category {X} msg (m : result X) c : refuse msg m ≠ Raise (ConfigError c).
Proof. unfold refuse, try_with. destruct m as [|[]]; simpl; congruence. Qed.

Lemma stored_category text c : stored_ack float_repr text ≠ Raise (ConfigError c).
Proof.
  unfold stored_ack. destruct (b64decode text); [|done]. apply refuse_category.
Qed.

Lemma find_category digest status error l c : find_ack float_repr digest status error l ≠ Raise (ConfigError c).
Proof.
  induction l as [|x l IH]; [done|]. cbn [find_ack]. pose proof (stored_category x c) as Hx.
  destruct (stored_ack float_repr x) as [b|e]; cbn [mbind result_bind]; [by case_match|congruence].
Qed.

Lemma ack_category r digest v status error now final c :
  good r → hex_match 64 digest = true → subject (jn_floor r) v → known_status status error → 0 <= now < 2 ^ 63 →
  ack_record float_repr device r digest v status error now final ≠ Raise (ConfigError c).
Proof.
  intros Hg Hd Hv [Hst Her] Hnow. unfold ack_record.
  pose proof (find_category digest (py status) (py error) (jn_outbox r) c) as Hf.
  destruct (find_ack _ _ _ _ _) as [[text|]|e]; cbn [mbind result_bind]; [done| |congruence].
  pose proof (gd_floor _ _ _ Hg) as Hfl.
  destruct (create_ack_fits float_repr device digest (vf_config_id <$> v) (sequence_of v) (py status) (py error) now)
    as (raw & Hraw & _); [|lia|].
  - split; try done; [|destruct v; simpl in *; lia|lia]. intros s Hs. destruct v as [v|]; simpl in *; simplify_eq.
    apply Hv.
  - unfold sequence_of in Hraw. rewrite Hraw. cbn [mbind result_bind]. repeat case_match; simplify_eq/=; done.
Qed.

(** The accepted configuration behind an entry of a good record. *)
Lemma committed_known r e raw now (v : verified ST) :
  good r → jn_committed r = Some e → verify_config raw now = Ok v → en_digest e = vf_digest v →
  vf_revision v <= jn_floor r.
Proof.
  intros Hg He Hv Hd. pose proof (proj1 (gd_committed _ _ _ Hg)) as Hc. rewrite He in Hc.
  destruct (check_entry_spec _ _ Hc) as (v' & Hv' & Hrev & _).
  destruct (unpack_known _ _ _ Hv') as (raw' & Hraw' & Hd').
  destruct (verify_unique _ _ _ _ _ _ Hv Hraw') as [-> _]; [congruence|done].
Qed.

Lemma verified_subject raw now (v : verified ST) floor :
  verify_config raw now = Ok v → vf_revision v <= floor → subject floor (Some v).
Proof.
  intros Hv Hf. split; [by eapply verify_id|]. pose proof (verify_revision _ _ _ Hv). lia.
Qed.

Lemma admit_spec r raw now :
  good r → zlen (jn_outbox r) <= 58 → 0 <= now < 2 ^ 63 →
  match admit_delivery float_repr device r raw (tohex (full_hash raw)) now with
  | Ok (Known status r') => good r' ∧ ∃ o, jn_outbox r `prefix_of` o ∧ r' = set_outbox o r
  | Ok (Fresh v) => verify_config raw now = Ok v ∧ jn_floor r < vf_revision v
                    ∧ vf_previous v = en_digest <$> jn_committed r
  | Raise (ConfigError c) => existsb (str_eqb (py c)) ACK_ERRORS = true
  | Raise _ => True
  end.
Proof.
  intros Hg Hl Hnow. unfold admit_delivery.
  destruct (verify_config raw now) as [v|[]] eqn:Ev; cbn [mbind result_bind]; try done.
  2: by eapply verify_category.
  assert (∀ x, (∃ text, jn_result r = Some text ∧ x = text) → ack_good (λ b, ab_sequence b <=? jn_floor r) x) as Hres.
  { intros x (text & Ht & ->). by apply (gd_result _ _ _ Hg). }
  assert (vf_digest v = tohex (full_hash raw)) as Hd by (by eapply verify_envelope).
  destruct (match jn_result r with Some text => _ | None => Ok None end) as [[[status text]|]|e] eqn:Er.
  - cbn [mbind result_bind]. destruct (jn_result r) as [t|] eqn:Et; [|done].
    apply bind_Ok in Er as (b & Hb & Er). case_match; [|done]. injection Er as <- <-.
    destruct (existsb _ _).
    + split; [done|]. exists (jn_outbox r). split; [done|]. by destruct r.
    + split; [|exists (jn_outbox r ++ [t]); split; [by apply prefix_app_r|done]].
      apply good_set_outbox; [done|unfold zlen in *; rewrite length_app; simpl; lia|].
      apply Forall_app. split; [apply Hg|]. constructor; [|constructor]. apply Hres. by exists t.
  - cbn [mbind result_bind].
    destruct (match jn_committed r with Some e => _ | None => false end) eqn:Ec.
    + destruct (jn_committed r) as [e|] eqn:Ece; [|done]. apply str_eqb_eq in Ec.
      assert (subject (jn_floor r) (Some v)) as Hsub.
      { eapply verified_subject; [exact Ev|]. apply (committed_known r e raw now v Hg Ece Ev). congruence. }
      pose proof (λ c, ack_category r (tohex (full_hash raw)) (Some v) "COMMITTED" "NONE" now false c Hg (digest_hex raw) Hsub
        (known "COMMITTED" "NONE" eq_refl eq_refl) Hnow) as Hcat.
      destruct (ack_record _ _ _ _ _ _ _ _ _) as [r'|[]] eqn:Ea; cbn [mbind result_bind]; try done.
      2: by destruct (Hcat category).
      destruct (ack_record_good _ _ _ _ _ _ _ _ Hg (digest_hex raw) Hsub (known "COMMITTED" "NONE" eq_refl eq_refl) Hnow Ea)
        as (o & text & Ho & _ & _ & Hg' & E'). split; [done|]. by exists o.
    + unfold raise_if. destruct (vf_revision v <=? jn_floor r) eqn:Ef; [done|]. cbn [negb require mbind result_bind].
      destruct (decide (vf_previous v = en_digest <$> jn_committed r)) as [Hp|Hp].
      * rewrite bool_decide_true by done. cbn [require mbind result_bind]. apply Z.leb_gt in Ef. split_and!; done.
      * by rewrite bool_decide_false.
  - cbn [mbind result_bind]. destruct e; try done. exfalso. destruct (jn_result r) as [t|]; [|done].
    pose proof (stored_category t category) as Hn. destruct (stored_ack float_repr t) as [b|e]; [done|].
    cbn [mbind result_bind] in Er. injection Er as ->. by apply Hn.
Qed.

Local Abbreviation apply_staged := (apply_staged (ST := ST) (A := A) float_repr device).
Local Abbreviation deliver := (deliver (ST := ST) (A := A) float_repr device).
Local Abbreviation anything := (λ _ _, True).

Lemma runs_health r0 r raw (v : verified ST) (Q : bool * journal → journal → Prop) (E : journal → Prop) :
  (∀ b t, jn_last_now r <= t < 2 ^ 63 → Q (b, set_now t r) r0) → (∀ b, Q (b, r) r0) →
  runs r0 (check_health r raw v) Q E.
Proof.
  intros Hq Hq0. unfold check_health. apply (runs_bind _ _ _ _ _ (λ _ r1, r1 = r0)).
  { apply (runs_try _ _ _ _ _ _ _ (λ r1, r1 = r0)); [|by intros ? r1 ->; apply runs_ret].
    intros w Hw. destruct (runs_app float_repr device r0 (app_healthy v) w Hw) as (l & r1 & H1 & H2 & H3 & H4).
    exists l, r1. unfold fmap, M_fmap. destruct (on_app (app_healthy v) w) as [[h|e] w'];
      cbn [fst snd fmap result_fmap] in *; split_and!; try done. by apply H4. }
  intros h r1 ->. destruct h as [h|]; [|by apply runs_ret].
  apply (runs_bind _ _ _ _ _ (λ o r1, r1 = r0 ∧ ∀ p, o = Some p → p.2 = set_now p.1 r ∧ jn_last_now r <= p.1 < 2 ^ 63)).
  { apply (runs_try _ _ _ _ _ _ _ (λ r1, r1 = r0)); [|by intros ? r1 ->; apply runs_ret].
    intros w Hw. destruct (runs_time float_repr device r0 r w Hw) as (l & r1 & H1 & H2 & H3 & H4).
    exists l, r1. unfold fmap, M_fmap. destruct (time_ r w) as [[[t r']|e] w'];
      cbn [fst snd fmap result_fmap] in *; split_and!; try done; [by apply H4|].
    intros p [= <-]. by apply H4. }
  intros o r1 (-> & Ho). destruct o as [[now r']|]; [|by apply runs_ret].
  destruct (Ho _ eq_refl) as [E' Ht]. cbn [fst snd] in *. subst r'. apply runs_ret. by apply Hq.
Qed.

(** From the durable intent to apply to the end of the delivery. *)
Lemma runs_apply r raw now (v : verified ST) baseline :
  good r → jn_phase r = APPLYING → jn_staged r = Some (pack_entry v now) → verify_config raw now = Ok v →
  vf_revision v <= jn_floor r → now <= jn_last_now r →
  runs r (apply_staged r raw v baseline) anything (λ _, True).
Proof.
  intros Hg Hp Hs Hv Hf Hnow. unfold Journal.apply_staged.
  assert (vf_digest v = tohex (full_hash raw)) as Hd by (by eapply verify_envelope).
  assert (subject (jn_floor r) (Some v)) as Hsub by (by eapply verified_subject).
  assert (∀ r0 r1 error, good r0 → ahead r0 r1 → jn_staged r0 ≠ None → existsb (str_eqb (py error)) ACK_ERRORS = true →
    runs r0 ((λ p : string * journal, py (fst p)) <$> rollback r1 error) anything (λ _, True)) as Hroll.
  { intros r0 r1 error H1 H2 H3 H4 w Hw.
    destruct (runs_rollback r0 r1 error H1 H2 H3 H4 w Hw) as (l & r2 & Hl & Hpath & Hst & _).
    exists l, r2. unfold fmap, M_fmap. destruct (rollback r1 error w) as [[x|e] w']; by split_and!. }
  apply (runs_bind _ _ _ _ _ (λ _ r1, r1 = r)).
  { apply (runs_try _ _ _ _ _ _ _ (λ r1, r1 = r)); [|by intros ? r1 ->; apply runs_ret].
    apply runs_then_event.
    { change (vf_digest v) with (en_digest (pack_entry v now)). by apply al_apply. }
    apply runs_then_app; [done|]. intros x _. by apply runs_ret. }
  intros applied r1 ->. destruct applied; [|apply Hroll; [done|by apply ahead_refl|by rewrite Hs|by vm_compute]].
  apply runs_then_time; [done|]. intros t Ht. change (jn_last_now r <= t < 2 ^ 63) in Ht.
  set (r2 := set_now t (set_phase APPLIED_PENDING r)).
  assert (good r2) as Hg2.
  { apply good_set_now; [|done]. apply good_set_phase; [done|]. by rewrite Hs. }
  apply runs_then_lift; [done|]. intros r3 Hr3. pose proof (gd_now _ _ _ Hg2) as Hn2. change (0 <= t < 2 ^ 63) in Hn2.
  destruct (ack_record_good _ _ _ _ _ _ _ _ Hg2 (digest_hex raw) Hsub (known "APPLIED" "NONE" eq_refl eq_refl) Hn2 Hr3)
    as (o & text & Ho & Hin & Hsays & Hg3 & E3).
  assert (jn_phase r3 = APPLIED_PENDING ∧ jn_staged r3 = Some (pack_entry v now) ∧ jn_committed r3 = jn_committed r
    ∧ jn_floor r3 = jn_floor r ∧ jn_last_now r3 = t) as (Hp3 & Hs3 & Hc3 & Hf3 & Hn3) by (by rewrite E3).
  apply runs_then_write; [|exact Hg3|done|done|].
  { rewrite E3. apply (js_applied _ _ _ _ (pack_entry v now)); try done; [split; simpl; [lia|done|done]|].
    exists text. split; [done|]. simpl. by rewrite Hd. }
  apply (runs_bind _ _ _ _ _ (λ p r1, r1 = r3 ∧ ahead r3 p.2)).
  { apply runs_health; [|by intros b; split; [done|apply ahead_refl]].
    intros b u Hu. split; [done|]. cbn [snd]. apply ahead_now; [by apply ahead_refl|done]. }
  intros [healthy r4] r1 (-> & Ha4). cbn [snd] in Ha4.
  destruct healthy; [|apply Hroll; [done|done|by rewrite Hs3|by vm_compute]].
  apply runs_then_app; [done|]. intros runtime (a & a' & Hsnap). pose proof (snapshot_jsonable _ _ _ _ Hsnap) as Hj.
  pose proof (ahead_good _ _ Hg3 Ha4) as Hg4. destruct Ha4 as [E4 Hn4].
  assert (jn_staged r4 = Some (pack_entry v now) ∧ jn_floor r4 = jn_floor r ∧ jn_outbox r4 = jn_outbox r3) as (Hs4 & Hf4 & Ho4)
    by (rewrite E4; by split_and!).
  set (r5 := set_committed runtime r4).
  assert (jn_committed r5 = Some (Entry (b64encode (vf_envelope v)) now (vf_digest v) (Some (jn_last_now r4)) runtime)) as Hc5.
  { unfold r5, set_committed. cbn [jn_committed]. by rewrite Hs4. }
  assert (good r5) as Hg5.
  { apply (good_change r4); try done; try apply Hg4.
    - split; [done|apply Hg4].
    - split; [done|apply Hg4].
    - pose proof (gd_staged _ _ _ Hg4) as [Hcs Hes]. rewrite Hs4 in Hcs. destruct (Hes _ Hs4) as (He1 & He2 & _).
      rewrite Hc5. split; [|by intros x [= <-]].
      unfold Journal.check_entry in *. unfold unpack_at in *. cbn [en_envelope en_at en_digest en_applied_at pack_entry] in *.
      destruct (of_option bad _) as [raw'|]; [|done]. cbn [mbind result_bind] in *.
      destruct (verify_config raw' now) as [v'|]; [|done]. cbn [mbind result_bind] in *.
      rewrite andb_true_r in Hcs. destruct (str_eqb _ _); [|done].
      rewrite (proj2 (Z.leb_le now (jn_last_now r4))) by lia. exact Hcs. }
  apply runs_then_lift; [done|]. intros r6 Hr6.
  assert (0 <= jn_last_now r4 < 2 ^ 63) as Hn5 by apply Hg4.
  assert (subject (jn_floor r5) (Some v)) as Hsub5 by (change (jn_floor r5) with (jn_floor r4); by rewrite Hf4).
  change (jn_last_now r5) with (jn_last_now r4) in Hr6.
  destruct (ack_record_good _ _ _ _ _ _ _ _ Hg5 (digest_hex raw) Hsub5 (known "COMMITTED" "NONE" eq_refl eq_refl) Hn5 Hr6)
    as (o' & text' & Ho' & Hin' & Hsays' & Hg6 & E6).
  apply runs_then_write; [|exact Hg6|done|done|by apply runs_ret].
  change (jn_outbox r5) with (jn_outbox r4) in Ho'. rewrite Ho4 in Ho'.
  rewrite E6. apply (js_commit _ _ _ _ (pack_entry v now) runtime text'); try done.
  - split; simpl; [lia|by rewrite Hf4, Hf3|done].
  - simpl. by rewrite Hf4, Hf3.
  - simpl. by rewrite Hd.
Qed.

Lemma good_staged r raw (v : verified ST) baseline :
  good r → verify_config raw (jn_last_now r) = Ok v → all_bytes raw → jn_floor r < vf_revision v →
  jsonable baseline = true → good (set_staged (pack_entry v (jn_last_now r)) baseline (vf_revision v) r).
Proof.
  intros Hg Hv Hb Hf Hj. pose proof (verify_revision _ _ _ Hv) as Hr. destruct (verify_envelope _ _ _ Hv) as [He Hd].
  apply (good_change r); try done; try apply Hg; cbn [set_staged jn_floor jn_last_now jn_committed jn_staged jn_phase].
  - lia.
  - split; [done|apply Hg].
  - eapply entry_good_mono; [apply Hg|cbn [set_staged jn_floor jn_last_now]; lia..].
  - split.
    + unfold Journal.check_entry, unpack_at, pack_entry. cbn [en_envelope en_at en_digest en_applied_at].
      rewrite He, (b64_roundtrip _ Hb). cbn [of_option mbind result_bind]. rewrite Hv. cbn [mbind result_bind].
      rewrite (proj2 (str_eqb_eq _ _) eq_refl). cbn [andb require mbind result_bind jn_floor jn_last_now].
      by rewrite !Z.leb_refl.
    + intros x [= <-]. cbn [pack_entry en_envelope en_digest en_runtime]. rewrite He, Hd. split_and!; [|..|done].
      * by apply b64encode_scalar.
      * apply tohex_scalar, full_hash_bytes.
Qed.

Lemma runs_deliver r0 r raw :
  good r0 → ahead r0 r → jn_staged r0 = None → all_bytes raw →
  runs r0 (deliver r raw) anything (λ _, True).
Proof.
  intros Hg Ha Hst Hb. unfold Journal.deliver.
  apply runs_then_time; [done|]. intros now Hnow. set (r2 := set_now now r).
  assert (ahead r0 r2) as Ha2 by (by apply ahead_now).
  pose proof (ahead_good _ _ Hg Ha2) as Hg2.
  pose proof (gd_now _ _ _ Hg2) as Hn2. change (0 <= now < 2 ^ 63) in Hn2.
  assert (jn_committed r2 = jn_committed r0 ∧ jn_staged r2 = jn_staged r0 ∧ jn_phase r2 = jn_phase r0 ∧ jn_baseline r2 = jn_baseline r0
    ∧ jn_floor r2 = jn_floor r0 ∧ jn_result r2 = jn_result r0 ∧ jn_outbox r2 = jn_outbox r0 ∧ jn_last_now r0 <= now)
    as (E1 & E2 & E3 & E4 & E5 & E6 & E7 & Hle).
  { destruct Ha2 as [E Hn]. change (jn_last_now r2) with now in *. rewrite E. by split_and!; try lia. }
  assert (∀ o, jn_outbox r2 `prefix_of` o → jstep r0 (set_outbox o r2)) as Hnote.
  { intros o Ho. apply js_note; try done. split; cbn [set_outbox jn_last_now jn_floor jn_outbox]; [done|by rewrite E5|by rewrite <- E7]. }
  apply runs_then_lift; [done|]. intros [] Hl. apply raise_if_Ok in Hl. apply Z.ltb_ge in Hl.
  pose proof (admit_spec r2 raw now Hg2 Hl Hn2) as Hadm.
  destruct (admit_delivery _ _ _ _ _ _) as [[status r'|v]|e]; [| |destruct e; try by apply runs_raise].
  - destruct Hadm as (Hg' & o & Ho & ->).
    apply runs_then_write; [by apply Hnote|done..|by apply runs_ret].
  - destruct Hadm as (Hv & Hf & Hprev).
    assert (jn_phase r0 = IDLE) as Hidle by (by apply (gd_phase _ _ _ Hg)).
    apply runs_then_app; [done|]. intros baseline (a & a' & Hsnap). pose proof (snapshot_jsonable _ _ _ _ Hsnap) as Hj.
    apply (runs_bind _ _ _ _ _ (λ _ r1, r1 = r0)).
    { destruct app_reserve as [reserve|]; [|by apply runs_ret].
      eapply runs_weaken; [apply runs_app|by intros ? ? [-> _]|done]. }
    intros [] r1 ->. set (r3 := set_staged (pack_entry v now) baseline (vf_revision v) r2).
    assert (good r3) as Hg3 by (by apply (good_staged r2 raw v baseline)).
    assert (subject (jn_floor r3) (Some v)) as Hsub by (by eapply verified_subject).
    apply runs_then_lift; [done|]. intros r4 Hr4.
    destruct (ack_record_good _ _ _ _ _ _ _ _ Hg3 (digest_hex raw) Hsub (known "RECEIVED" "NONE" eq_refl eq_refl) Hn2 Hr4)
      as (o & text & Ho & Hin & Hsays & Hg4 & E').
    assert (vf_digest v = tohex (full_hash raw)) as Hd by (by eapply verify_envelope).
    change (jn_outbox r3) with (jn_outbox r2) in Ho.
    apply runs_then_write; [|exact Hg4|done|done|].
    { rewrite E'. apply (js_stage _ _ _ _ raw v); try done; [by rewrite <- E5|by rewrite <- E1| |].
      - split; simpl; [done|rewrite <- E5; lia|by rewrite <- E7].
      - exists text. rewrite Hd. by split. }
    assert (jn_phase r4 = STAGED ∧ jn_staged r4 = Some (pack_entry v now) ∧ jn_floor r4 = vf_revision v ∧ jn_last_now r4 = now)
      as (P1 & P2 & P3 & P4) by (by rewrite E').
    apply runs_then_write; [by apply js_apply|apply good_set_phase; [done|by rewrite P2]|done|done|].
    eapply (runs_apply _ raw now v); try done; [|simpl; lia..].
    apply good_set_phase; [done|by rewrite P2].
  - apply runs_then_lift; [done|]. intros r' Hr'.
    destruct (ack_record_good _ _ _ _ _ _ _ _ Hg2 (digest_hex raw) (I : subject (jn_floor r2) None) (known "REJECTED" category eq_refl Hadm) Hn2 Hr')
      as (o & text & Ho & Hin & Hsays & Hg' & E').
    apply runs_then_write; [rewrite E'; by apply Hnote|done..|by apply runs_ret].
Qed.

(** ** The operations *)

Lemma runs_in_transaction {X} r0 (m : M (world A) X) :
  runs r0 m anything (λ _, True) →
  runs r0 (in_transaction (ST := ST) float_repr device m) anything (λ _, True).
Proof.
  intros Hm. unfold in_transaction. destruct app_scope as [[enter leave]|]; [|done]. intros w Hw.
  destruct (runs_app float_repr device r0 enter w Hw) as (l1 & r1 & Hl1 & Hp1 & Hs1 & Hq1).
  destruct (on_app enter w) as [[x|e] w1]; cbn [fst snd] in *; [|by exists l1, r1].
  destruct Hq1 as [-> _]. destruct (Hm w1 Hs1) as (l2 & r2 & Hl2 & Hp2 & Hs2 & _).
  destruct (m w1) as [res w2]. cbn [fst snd] in *.
  destruct (runs_read float_repr device r2 w2 Hs2) as (l3 & r3 & Hl3 & Hp3 & Hs3 & Hq3).
  destruct (read_journal float_repr device w2) as [found w3]. cbn [fst snd] in *.
  destruct found as [r|]; [|done]. destruct Hq3 as [-> ->].
  destruct (runs_app float_repr device r2 (leave (jn_phase <$> Ok r2)) w3 Hs3) as (l4 & r4 & Hl4 & Hp4 & Hs4 & Hq4).
  exists (l1 ++ l2 ++ l3 ++ l4), r4.
  assert (path (ST := ST) float_repr device r0 (l1 ++ l2 ++ l3 ++ l4) r4) as Hp by (repeat (eapply path_app; [eassumption|]); done).
  destruct (on_app (leave _) w3) as [[y|e] w4]; cbn [fst snd] in *; rewrite Hl4, Hl3, Hl2, Hl1, !(assoc_L (++)) in *;
    split_and!; try done; by destruct res.
Qed.

Lemma runs_recover r0 : good r0 → runs r0 (recover (ST := ST) float_repr device) anything (λ _, True).
Proof.
  intros Hg. apply runs_in_transaction. apply runs_then_read. apply runs_then_time; [done|]. intros now Hnow.
  set (r := set_now now r0). assert (ahead r0 r) as Ha by (apply ahead_now; [by apply ahead_refl|done]).
  pose proof (ahead_good _ _ Hg Ha) as Hgr. destruct (jn_staged r) as [e|] eqn:Es.
  - intros w Hw. assert (jn_staged r0 ≠ None) as Hn by (change (jn_staged r0) with (jn_staged r); by rewrite Es).
    destruct (runs_rollback r0 r "RECOVERY" Hg Ha Hn eq_refl w Hw) as (l & r2 & Hl & Hpath & Hst & _).
    exists l, r2. unfold fmap, M_fmap. destruct (rollback r "RECOVERY" w) as [[x|err] w']; by split_and!.
  - apply runs_then_write; [|done..|by apply runs_ret]. apply js_note; try done. by split; simpl; try lia.
Qed.

Lemma runs_receive r0 raw :
  good r0 → (∀ b, raw = PBytes b → all_bytes b) → runs r0 (receive_config (ST := ST) float_repr device raw) anything (λ _, True).
Proof.
  intros Hg Hb. apply runs_in_transaction. apply runs_then_lift; [done|]. intros b Hraw. apply of_option_Ok in Hraw.
  destruct raw as [| | | | |b'| |]; simplify_eq/=. specialize (Hb b eq_refl).
  apply runs_then_read. destruct (jn_staged r0) as [e|] eqn:Es.
  - eapply runs_bind; [apply runs_rollback; [done|by apply ahead_refl|by rewrite Es|by vm_compute]|].
    intros [s r] r1 Hr. cbn [snd] in Hr. subst r1. intros w Hw.
    assert (good r) as Hgr by apply Hw. destruct (jn_staged r) as [e'|] eqn:Es'; revert w Hw; [by apply runs_ret|].
    apply runs_deliver; [done|by apply ahead_refl|done|done].
  - apply runs_deliver; [done|by apply ahead_refl|done|done].
Qed.

Lemma runs_flush r0 sends :
  good r0 → runs r0 (flush_outbox float_repr (jn_outbox r0) sends r0) anything (λ _, True).
Proof.
  remember (jn_outbox r0) as l eqn:El. revert r0 sends El. induction l as [|text l IH]; intros r0 sends El Hg;
    cbn [flush_outbox]; [by apply runs_ret|].
  apply runs_then_lift; [done|]. intros raw _. apply runs_then_event; [by eapply al_send|].
  destruct (default false (head sends)).
  - assert (good (set_outbox l r0)) as Hgl.
    { pose proof (gd_length _ _ _ Hg) as Hlen. pose proof (gd_outbox _ _ _ Hg) as Hall. rewrite <- El in *.
      apply good_set_outbox; [done|unfold zlen in *; simpl in Hlen; lia|]. by apply Forall_cons in Hall as [_ Hall]. }
    apply runs_then_write; [by eapply js_sent|done..|]. apply runs_then_lift; [done|]. intros _ _. by apply IH.
  - apply runs_then_lift; [done|]. intros _ _. by apply runs_ret.
Qed.

(** The calls of an owner, and of the carrier's runner. *)
Inductive operation :=
  | ORecover
  | OReceive (raw : pyval)
  | OFlush (sends : list bool)
  | ORefresh (sends1 sends2 : list bool) (delivery : result pyval).

Definition forget {X} (m : M (world A) X) : M (world A) () := λ w, (Ok (), (m w).2).

(** One call, its result or error left to the caller. *)
Definition call (o : operation) : M (world A) () :=
  match o with
  | ORecover => forget (recover (ST := ST) float_repr device)
  | OReceive raw => forget (receive_config (ST := ST) float_repr device raw)
  | OFlush sends => forget (flush_acks float_repr device sends)
  | ORefresh sends1 sends2 delivery => forget (refresh (ST := ST) float_repr device sends1 sends2 delivery)
  end.

Definition octets (v : pyval) : Prop := ∀ b, v = PBytes b → all_bytes b.

(** What a carrier delivers is octets. *)
Definition delivers_octets (o : operation) : Prop :=
  match o with
  | OReceive raw => octets raw
  | ORefresh _ _ (Ok raw) => octets raw
  | _ => True
  end.

Lemma runs_forget {X} r0 (m : M (world A) X) Q E : runs r0 m Q E → runs r0 (forget m) anything (λ _, True).
Proof. intros Hm w Hw. destruct (Hm w Hw) as (l & r1 & H1 & H2 & H3 & _). by exists l, r1. Qed.

(** The durable record after a step is good: the next step starts from it. *)
Lemma runs_after {X Y} r0 (m : M (world A) X) (f : X → M (world A) Y) :
  runs r0 m anything (λ _, True) → (∀ x r1, good r1 → runs r1 (f x) anything (λ _, True)) →
  runs r0 (m ≫= f) anything (λ _, True).
Proof.
  intros Hm Hf. eapply runs_bind; [exact Hm|]. intros x r1 _ w Hw. by apply Hf, Hw; apply Hw.
Qed.

Lemma runs_flush_acks r0 sends : good r0 → runs r0 (flush_acks float_repr device sends) anything (λ _, True).
Proof. intros Hg. apply runs_then_read. by apply runs_flush. Qed.

Lemma runs_call r0 o : good r0 → delivers_octets o → runs r0 (call o) anything (λ _, True).
Proof.
  intros Hg Ho. destruct o as [|raw|sends|s1 s2 d]; eapply runs_forget.
  - by apply runs_recover.
  - by apply runs_receive.
  - by apply runs_flush_acks.
  - apply runs_after; [by apply runs_flush_acks|]. intros _ r1 Hg1.
    apply runs_after; [by apply runs_recover|]. intros _ r2 Hg2. apply runs_then_lift; [done|]. intros raw ->.
    apply runs_after; [by apply runs_receive|]. intros res r3 Hg3.
    apply runs_after; [by apply runs_flush_acks|]. intros _ r4 Hg4. by apply runs_ret.
Qed.

Lemma runs_calls r0 os : good r0 → Forall delivers_octets os → runs r0 (iterM call os) anything (λ _, True).
Proof.
  intros Hg Hos. revert r0 Hg. induction Hos as [|o os Ho Hos IH]; intros r0 Hg; cbn [iterM]; [by apply runs_ret|].
  apply runs_after; [by apply runs_call|]. intros _ r1 Hg1. by apply IH.
Qed.
End Runs.
