(* ===== verification/JournalSafety.v ===== *)
(** The safety theorems of the control journal: write-ahead intent at every
    effect and every crash point, and the chain of committed configurations. *)
From Stdlib Require Import ZArith Lia.
From stdpp Require Import relations.
From S2P Require Import Prelude PyData Json JsonText Rns Ack AckSize Journal JournalSpec JournalRuns.

Local Open Scope Z_scope.

Section Safety.
Context {RN : Rns} {RNL : RnsLaws} {RNO : RnsOctets} {ST A : Type}.
Context {VF : Verifier ST} {VFL : VerifierLaws ST} {AP : Application ST A} {APL : ApplicationLaws ST A}.
Context (float_repr : spec_float → pystr) (device : identity).
Implicit Types (r : journal) (w : world A).

Local Abbreviation good := (good (ST := ST) float_repr device).
Local Abbreviation path := (path (ST := ST) float_repr device).
Local Abbreviation stored := (stored (ST := ST) (A := A) float_repr device).
Local Abbreviation calls os := (iterM (call (ST := ST) (A := A) float_repr device) os).

Lemma path_good r l r' : path r l r' → good r → good r'.
Proof.
  induction 1 as [|r e r1 l r2 Ha Hp IH]; [done|]. intros Hg. apply IH. by inversion Ha; subst.
Qed.

(** C2: The journal is a write-ahead log.  Whatever calls are made, whatever
    the carrier delivers, and however the application, the clock and the disk
    fail, the effects of the calls are a path of the protocol: every write goes
    from one durable record to the next along a transition, the application
    applies a configuration only while the durable record says [APPLYING] it
    and rolls one back only while it says [ROLLING_BACK] it, and only the first
    receipt of the outbox is sent.  A crash at any point leaves a record that
    reads back, from which the remaining effects were still to come. *)
Theorem journal_write_ahead w r os :
  stored w r → Forall delivers_octets os →
  ∃ l r', wd_log (calls os w).2 = wd_log w ++ l ∧ path r l r' ∧ stored (calls os w).2 r'
    ∧ ∀ done_ rest, l = done_ ++ rest →
        ∃ cut, path r done_ cut ∧ path cut rest r'
          ∧ ∀ text, journal_text float_repr cut = Ok text → decode_journal (ST := ST) float_repr device text = Ok cut.
Proof.
  intros Hw Hos. assert (good r) as Hg by apply Hw.
  destruct (runs_calls float_repr device r os Hg Hos w Hw) as (l & r' & Hl & Hp & Hs & _).
  exists l, r'. split_and!; try done. intros done_ rest ->.
  destruct (path_prefix _ _ _ _ _ _ Hp) as (cut & H1 & H2). exists cut. split_and!; try done.
  intros text. apply written_readable. by eapply path_good.
Qed.

(** ** The chain of committed configurations *)

(** The next committed configuration names the digest of the one before it and
    has a greater revision. *)
Definition succeeds (c c' : option entry) : Prop :=
  ∃ e v, c' = Some e ∧ unpack_at (ST := ST) e (en_at e) = Ok v ∧ vf_previous v = en_digest <$> c
    ∧ ∀ e0 v0, c = Some e0 → unpack_at (ST := ST) e0 (en_at e0) = Ok v0 → vf_revision v0 < vf_revision v.

(** The staged configuration is the one that would succeed the committed one. *)
Definition chained r : Prop :=
  ∀ e, jn_staged r = Some e →
    ∃ v, unpack_at (ST := ST) e (en_at e) = Ok v ∧ vf_previous v = en_digest <$> jn_committed r
      ∧ ∀ e0 v0, jn_committed r = Some e0 → unpack_at (ST := ST) e0 (en_at e0) = Ok v0 → vf_revision v0 < vf_revision v.

Lemma chained_same r r' :
  chained r → jn_staged r' = jn_staged r → jn_committed r' = jn_committed r → chained r'.
Proof. intros Hc Hs Hcm e. rewrite Hs, Hcm. apply Hc. Qed.

Lemma chained_none r : jn_staged r = None → chained r.
Proof. intros Hs e He. congruence. Qed.

(** The configuration of a good record's entry has the place of the one that
    was packed. *)
Lemma packed_unpack r now raw (v : verified ST) :
  good r → jn_staged r = Some (pack_entry v now) → verify_config raw now = Ok v →
  ∃ v', unpack_at (pack_entry v now) (en_at (pack_entry v now)) = Ok v' ∧ vf_revision v' = vf_revision v ∧ vf_previous v' = vf_previous v.
Proof.
  intros Hg Hs Hv. pose proof (proj1 (gd_staged _ _ _ Hg)) as Hc. rewrite Hs in Hc.
  destruct (check_entry_spec _ _ Hc) as (v' & Hv' & _). destruct (unpack_known _ _ _ Hv') as (raw' & Hraw' & Hd).
  exists v'. split; [done|]. by apply (verify_unique _ _ _ _ _ _ Hraw' Hv).
Qed.

Lemma commit_unpack e t runtime (v : verified ST) :
  unpack_at e (en_at e) = Ok v → en_at e <= t →
  unpack_at (Entry (en_envelope e) (en_at e) (en_digest e) (Some t) runtime) (en_at e) = Ok v.
Proof.
  unfold unpack_at. cbn [en_envelope en_digest en_applied_at]. destruct (of_option bad _) as [raw|]; [|done].
  cbn [mbind result_bind]. destruct (verify_config raw (en_at e)) as [v'|]; [|done]. cbn [mbind result_bind].
  intros Hv Ht. destruct (str_eqb _ _); [|done]. simpl in *. rewrite (proj2 (Z.leb_le _ _)) by done.
  destruct (en_applied_at e) as [a|]; [destruct (en_at e <=? a)|]; simpl in *; done.
Qed.

(** One transition: floors rise, the commit extends the chain. *)
Lemma step_chain r r' :
  jstep (ST := ST) float_repr device r r' → good r → good r' → chained r →
  chained r' ∧ jn_floor r <= jn_floor r' ∧ jn_last_now r <= jn_last_now r'
  ∧ rtc succeeds (jn_committed r) (jn_committed r').
Proof.
  intros Hstep Hg Hg' Hc.
  destruct Hstep as [r r' Hl Ec Es Ep Eb Ef Er|r text l Eo|r r' raw v Ep Hv Hf Hprev Hl Ec Ep' Es Ef _
    |r Ep|r r' e Ep Ese Hl Ec Es Ep' Eb Ef _|r r' e rt text Ep Es Hl Ec Es' Ep' Ef _ _ _|r t Ep Ht
    |r r' e text Ep Es Hl Ec Es' Ep' Ef _ _ _].
  - split_and!; [by eapply chained_same|apply Hl..|by rewrite Ec].
  - split_and!; try done; by eapply chained_same.
  - split; [|split; [apply Hl|split; [apply Hl|by rewrite Ec]]]. intros e He. rewrite Es in He. injection He as <-.
    destruct (packed_unpack _ _ _ _ Hg' Es Hv) as (v' & Hu & Hrev' & Hprev').
    exists v'. split; [done|split; [by rewrite Ec, Hprev'|]]. rewrite Ec. intros e0 v0 He0 Hv0.
    pose proof (proj1 (gd_committed _ _ _ Hg)) as Hck. rewrite He0 in Hck.
    destruct (check_entry_spec _ _ Hck) as (v1 & Hv1 & Hle & _). rewrite Hv0 in Hv1. injection Hv1 as <-. lia.
  - split_and!; try done; by eapply chained_same.
  - split_and!; [by eapply chained_same|apply Hl..|by rewrite Ec].
  - split_and!; [by apply chained_none|apply Hl..|]. destruct (Hc e Es) as (v & Hv & Hprev & Hrev).
    apply rtc_once. exists (Entry (en_envelope e) (en_at e) (en_digest e) (Some (jn_last_now r')) rt), v.
    split_and!; try done. cbn [en_at]. apply commit_unpack; [done|].
    pose proof (proj1 (gd_staged _ _ _ Hg)) as Hck. rewrite Es in Hck.
    destruct (check_entry_spec _ _ Hck) as (_ & _ & _ & Hat). destruct Hl. lia.
  - split_and!; try done; by eapply chained_same.
  - split_and!; [by apply chained_none|apply Hl..|by rewrite Ec].
Qed.

Lemma path_chain r l r' :
  path r l r' → good r → chained r →
  chained r' ∧ jn_floor r <= jn_floor r' ∧ jn_last_now r <= jn_last_now r'
  ∧ rtc succeeds (jn_committed r) (jn_committed r').
Proof.
  induction 1 as [r|r e r1 l r2 Ha Hp IH]; [done|]. intros Hg Hc.
  assert (good r1 ∧ chained r1 ∧ jn_floor r <= jn_floor r1 ∧ jn_last_now r <= jn_last_now r1
          ∧ rtc succeeds (jn_committed r) (jn_committed r1)) as (Hg1 & Hc1 & Hf1 & Hn1 & Hr1).
  { inversion Ha; subst; try done. destruct (step_chain r r1) as (? & ? & ? & ?); done. }
  destruct (IH Hg1 Hc1) as (? & ? & ? & ?). split_and!; [done|lia|lia|]. by etransitivity.
Qed.

(** C5: No downgrade, no fork.  From a fresh journal, after any calls and at any
    crash point, every configuration the journal has committed names the digest
    of the one it replaced and has a greater revision; the revision floor and
    the last accepted time never decrease, whatever is delivered and however
    often a configuration is rolled back. *)
Theorem committed_chain w r os :
  stored w r → chained r → Forall delivers_octets os →
  ∃ l r', wd_log (calls os w).2 = wd_log w ++ l ∧ stored (calls os w).2 r' ∧ chained r'
    ∧ rtc succeeds (jn_committed r) (jn_committed r')
    ∧ ∀ done_ rest, l = done_ ++ rest → ∃ cut, path r done_ cut
        ∧ rtc succeeds (jn_committed r) (jn_committed cut)
        ∧ jn_floor r <= jn_floor cut <= jn_floor r' ∧ jn_last_now r <= jn_last_now cut <= jn_last_now r'.
Proof.
  intros Hw Hc Hos. assert (good r) as Hg by apply Hw.
  destruct (runs_calls float_repr device r os Hg Hos w Hw) as (l & r' & Hl & Hp & Hs & _).
  destruct (path_chain _ _ _ Hp Hg Hc) as (Hc' & Hf & Hn & Hr). exists l, r'. split_and!; try done.
  intros done_ rest ->. destruct (path_prefix _ _ _ _ _ _ Hp) as (cut & H1 & H2).
  destruct (path_chain _ _ _ H1 Hg Hc) as (Hc1 & Hf1 & Hn1 & Hr1).
  destruct (path_chain _ _ _ H2 (path_good _ _ _ H1 Hg) Hc1) as (_ & Hf2 & Hn2 & _).
  exists cut. by split_and!.
Qed.
End Safety.
