(* ===== verification/JournalRecovery.v ===== *)
(** Recovery of the control journal terminates in a known state: the journal
    always has room for what recovery writes, and [recover] then rolls an
    unfinished application back. *)
From Stdlib Require Import ZArith Lia.
From S2P Require Import Prelude PyData Json JsonText Rns Ack AckSize Journal JournalSpec JournalRuns.

Local Open Scope Z_scope.

Lemma plain_alphabet c n : unb64 c = Some n → plain_char c = true.
Proof.
  unfold unb64. intros H. repeat case_match; simplify_eq; apply plain_in_range; ranges; lia.
Qed.

(** The length and the characters of a base64 text. *)
Lemma b64decode_text s b : b64decode s = Some b → forallb plain_char s = true ∧ zlen s <= 4 * ((zlen b + 2) / 3).
Proof.
  remember (length s) as n eqn:Hn. revert s b Hn. induction (lt_wf n) as [n _ IH]. intros s b -> H.
  destruct s as [|w [|x [|y [|z s]]]]; simplify_eq/=; [done|].
  destruct (unb64 w) as [p|] eqn:Ep; [|done]. destruct (unb64 x) as [q|] eqn:Eq; [|done].
  apply plain_alphabet in Ep, Eq.
  destruct (Z.eqb_spec y 61) as [->|Hy].
  - destruct (Z.eqb_spec z 61) as [->|]; [|done]. case_bool_decide; simplify_eq/=. by rewrite Ep, Eq.
  - destruct (unb64 y) as [r|] eqn:Er; [|done]. apply plain_alphabet in Er.
    destruct (Z.eqb_spec z 61) as [->|Hz].
    + case_bool_decide; simplify_eq/=. by rewrite Ep, Eq, Er.
    + destruct (unb64 z) as [u|] eqn:Eu; [|done]. apply plain_alphabet in Eu.
      destruct (b64decode s) as [t|] eqn:Et; simplify_eq/=.
      destruct (IH (length s) ltac:(lia) s t eq_refl Et) as [Hc Hl]. rewrite Ep, Eq, Er, Eu. split; [exact Hc|].
      unfold zlen in *. simpl length. zdiv.
Qed.

Section Recovery.
Context {RN : Rns} {RNL : RnsLaws} {RNO : RnsOctets} {ST A : Type}.
Context {VF : Verifier ST} {VFL : VerifierLaws ST} {AP : Application ST A} {APL : ApplicationLaws ST A}.
Context (float_repr : spec_float → pystr) (device : identity).
Implicit Types (r : journal) (w : world A).

Local Abbreviation good := (good (ST := ST) float_repr device).
Local Abbreviation stored := (stored (ST := ST) (A := A) float_repr device).
Local Abbreviation sized := (sized float_repr).

(** ** Room for every record *)

Lemma stored_ack_size text b : stored_ack float_repr text = Ok b → forallb plain_char text = true ∧ zlen text <= 5464.
Proof.
  unfold stored_ack. intros H. apply bind_Ok in H as (raw & Hraw & H). apply of_option_Ok in Hraw.
  destruct (b64decode_text _ _ Hraw) as [Hp Hl]. split; [done|].
  unfold verify_ack, refuse, try_with in H. destruct (verify_body float_repr raw) as [b'|e] eqn:Ev; [|by destruct e].
  unfold verify_body in Ev. apply bind_Ok in Ev as (u & Hu & _). apply require_Ok in Hu. unfold MAX_ACK_BYTES in Hu.
  bools. zdiv.
Qed.

Lemma ack_good_size ok text : ack_good float_repr device ok text → sized (PStr text) 5466.
Proof.
  intros [_ H]. unfold check_ack in H. destruct (stored_ack float_repr text) as [b|e] eqn:Es; [|done].
  destruct (stored_ack_size _ _ Es). by apply (sized_str _ _ 5464).
Qed.

Lemma sized_list l m : Forall (λ v, sized v m) l → 0 <= m → sized (PList l) (2 + (m + 1) * zlen l).
Proof.
  intros Hl Hm. unfold AckSize.sized. rewrite json_text_list.
  enough (∃ ss, mapR (json_compact float_repr) l = Ok ss ∧ zlen (join [44] ss) <= (m + 1) * zlen l) as (ss & -> & Hlen).
  { eexists. split; [reflexivity|]. unfold zlen in *. cbn [app length]. rewrite length_app. simpl length. lia. }
  induction Hl as [|x l (t & Ht & Hn) Hl IH]; [exists []; split; [done|unfold zlen; simpl; lia]|].
  destruct IH as (ss & Hss & Hlen). cbn [mapR]. rewrite Ht. cbn [mbind result_bind]. rewrite Hss. cbn [mbind result_bind]. eexists. split; [reflexivity|].
  unfold zlen in *. destruct ss as [|s ss]; cbn [join] in *; rewrite ?length_app; simpl in *; lia.
Qed.

(** The configurations and the baseline leave room for a full outbox. *)
Definition roomy r : Prop :=
  ∃ n1 n2 n3, sized (entry_json (jn_committed r)) n1 ∧ sized (entry_json (jn_staged r)) n2
    ∧ sized (jn_baseline r) n3 ∧ 4 <= n2 ∧ 4 <= n3 ∧ n1 + n2 + n3 <= 600000.

Definition journal_members r : list (pystr * pyval) :=
  [(py "schema", PInt 1); (py "committed", entry_json (jn_committed r)); (py "staged", entry_json (jn_staged r));
   (py "phase", PStr (phase_name (jn_phase r))); (py "baseline", jn_baseline r); (py "floor", PInt (jn_floor r));
   (py "last_now", PInt (jn_last_now r)); (py "outbox", PList (List.map PStr (jn_outbox r)));
   (py "result", opt_str (jn_result r))].

Lemma journal_fits r : good r → roomy r → ∃ text, journal_text float_repr r = Ok text.
Proof.
  intros Hg (n1 & n2 & n3 & H1 & H2 & H3 & _ & _ & Hn).
  assert (sized (journal_json r) 1000000) as (text & Htext & Hlen).
  { assert (journal_json r = PDict (List.map member (journal_members r))) as ->.
    { unfold journal_json. rewrite (gd_schema _ _ _ Hg). reflexivity. }
    apply (sized_members _ _ [py "schema"; py "committed"; py "staged"; py "phase"; py "baseline"; py "floor"; py "last_now";
        py "outbox"; py "result"] [19; n1; n2; 17; n3; 19; 19; 2 + 5467 * 64; 5466]); [reflexivity| |].
    { change (overhead _) with 97. simpl. lia. }
    unfold members_size, journal_members.
    repeat (apply Forall2_cons; split; [split; [by vm_compute|]|]); [..|by apply Forall2_nil]; cbn [snd]; try done.
    - by apply sized_int.
    - apply (sized_str _ _ 15); by destruct (jn_phase r); vm_compute.
    - apply sized_int, Hg.
    - apply sized_int, Hg.
    - destruct (sized_list (List.map PStr (jn_outbox r)) 5466) as (t & Ht & Hl); [|done|].
      + apply Forall_fmap. eapply Forall_impl; [apply Hg|]. intros x Hx. by eapply ack_good_size.
      + exists t. split; [done|]. pose proof (gd_length _ _ _ Hg). unfold zlen in *. rewrite length_map in Hl. lia.
    - destruct (jn_result r) as [t|] eqn:Et; [|by exists (py "null")]. apply (ack_good_size (λ b, ab_sequence b <=? jn_floor r)).
      by apply (gd_result _ _ _ Hg). }
  exists text. unfold journal_text. rewrite Htext. cbn [mbind result_bind].
  unfold raise_if, MAX_STATE_BYTES. rewrite (proj2 (Z.ltb_ge _ _)) by lia. done.
Qed.

(** ** Recovery ends *)

Lemma find_ack_total digest status error l :
  Forall (λ x, ∃ ok, ack_good float_repr device ok x) l → ∃ o, find_ack float_repr digest status error l = Ok o.
Proof.
  induction 1 as [|x l [ok [_ Hx]] Hl IH]; [by exists None|]. cbn [find_ack]. unfold check_ack in Hx.
  destruct (stored_ack float_repr x) as [b|e]; [|done]. cbn [mbind result_bind]. case_match; [by eexists|done].
Qed.

Lemma ack_record_total r digest (v : option (verified ST)) status error now final :
  good r → hex_match 64 digest = true → subject (jn_floor r) v → known_status status error → 0 <= now < 2 ^ 63 →
  zlen (jn_outbox r) < 64 → ∃ r', ack_record float_repr device r digest v status error now final = Ok r'.
Proof.
  intros Hg Hd Hv [Hst Her] Hnow Hl. unfold ack_record.
  destruct (find_ack_total digest (py status) (py error) (jn_outbox r)) as (o & ->);
    [by eapply Forall_impl; [apply Hg|]; intros x Hx; eexists|].
  cbn [mbind result_bind]. destruct o as [text|]; [by eexists|]. pose proof (gd_floor _ _ _ Hg).
  destruct (create_ack_fits float_repr device digest (vf_config_id <$> v) (sequence_of v) (py status) (py error) now)
    as (raw & Hraw & _); [|lia|].
  - split; try done; [|destruct v; simpl in *; lia|lia]. intros s Hs. destruct v as [v|]; simpl in *; simplify_eq.
    apply Hv.
  - unfold sequence_of in Hraw. rewrite Hraw. cbn [mbind result_bind].
    destruct (existsb (str_eqb (b64encode raw)) _); [eexists; reflexivity|]. rewrite (proj2 (Z.leb_gt _ _)) by done. eexists. reflexivity.
Qed.

(** A committed configuration either still verifies, or its lease no longer
    does and the baseline is restored without it. *)
Lemma previous_good_total r now :
  good r → is_ok (expire_baseline (jn_baseline r)) = true → ∃ p, previous_good (ST := ST) r now = Ok p.
Proof.
  intros Hg Hb. unfold previous_good. destruct (jn_committed r) as [e|] eqn:Ec; [|by eexists].
  pose proof (proj1 (gd_committed _ _ _ Hg)) as Hc. rewrite Ec in Hc.
  destruct (check_entry_spec _ _ Hc) as (v & Hv & _). unfold unpack_at in *.
  destruct (of_option bad (b64decode (en_envelope e))) as [raw|]; [|done]. cbn [mbind result_bind] in *.
  destruct (verify_config raw (en_at e)) as [v1|] eqn:E1; [|done]. cbn [mbind result_bind] in Hv.
  destruct (verify_config raw now) as [v2|err] eqn:E2; cbn [mbind result_bind].
  - assert (vf_digest v2 = vf_digest v1) as ->.
    { by rewrite (proj2 (verify_envelope _ _ _ E1)), (proj2 (verify_envelope _ _ _ E2)). }
    destruct (require _ _); [|done]. cbn [mbind result_bind]. by eexists.
  - destruct (verify_raises _ _ _ E2) as (c & ->). destruct (expire_baseline (jn_baseline r)); [|done]. by eexists.
Qed.

(** The application's part of a recovery succeeds. *)
Record working : Prop := Working {
  wk_rollback (v : verified ST) p b (a : A) : ∃ a', app_rollback v p b a = (Ok (), a');
  wk_scope enter leave : app_scope (ST := ST) (A := A) = Some (enter, leave) →
    (∀ a, ∃ a', enter a = (Ok (), a')) ∧ ∀ p a, ∃ a', leave p a = (Ok (), a');
}.

(** Leaving or changing the phase takes no more room. *)
Lemma roomy_change r r' :
  roomy r → jn_committed r' = jn_committed r →
  jn_staged r' = jn_staged r ∧ jn_baseline r' = jn_baseline r ∨ jn_staged r' = None ∧ jn_baseline r' = PNone →
  roomy r'.
Proof.
  intros (n1 & n2 & n3 & H1 & H2 & H3 & Hn2 & Hn3 & Hn) Hc [[Hs Hb]|[Hs Hb]].
  - exists n1, n2, n3. by rewrite Hc, Hs, Hb.
  - exists n1, 4, 4. rewrite Hc, Hs, Hb. split_and!; try done; [by exists (py "null")..|lia].
Qed.

(** One write, when the disk takes it. *)
Lemma write_total r w :
  good r → roomy r → wd_faults w 0%nat = Written →
  ∃ text, journal_text float_repr r = Ok text ∧ write_journal float_repr r w = (Ok (), replace_file r text w).
Proof.
  intros Hg Hr Hf. destruct (journal_fits r Hg Hr) as (text & Ht). exists text. split; [done|].
  unfold write_journal. by rewrite Ht, Hf.
Qed.

Lemma time_total r w z :
  wd_clock w 0%nat = PInt z → jn_last_now r <= z →
  time_ r w = (Ok (z, set_now z r),
               World (wd_dir w) (wd_file w) (wd_stat w) (wd_app w) (λ n, wd_clock w (S n)) (wd_faults w) (wd_log w)).
Proof.
  intros Hc Hz. unfold time_. rewrite Hc. cbn [as_int of_option mbind result_bind]. unfold raise_if.
  by rewrite (proj2 (Z.ltb_ge _ _)) by done.
Qed.

(** What [_rollback] does when nothing outside fails. *)
Lemma rollback_total r0 r w e z error :
  stored w r0 → ahead r0 r → jn_staged r0 = Some e → working → roomy r0 → zlen (jn_outbox r0) < 64 →
  is_ok (expire_baseline (jn_baseline r0)) = true → existsb (str_eqb (py error)) ACK_ERRORS = true →
  (∀ n, wd_faults w n = Written) → wd_clock w 0%nat = PInt z → jn_last_now r <= z →
  ∃ w' r' text, rollback (ST := ST) float_repr device r error w = (Ok ("ROLLED_BACK"%string, r'), w') ∧ stored w' r'
    ∧ jn_phase r' = IDLE ∧ jn_staged r' = None ∧ jn_committed r' = jn_committed r0 ∧ jn_floor r' = jn_floor r0
    ∧ wd_log w' = wd_log w ++ [EWrite (set_phase ROLLING_BACK (set_now z r0)); ERollback (en_digest e); EWrite r']
    ∧ text ∈ jn_outbox r' ∧ jn_result r' = Some text ∧ says float_repr device text (en_digest e) "ROLLED_BACK".
Proof.
  intros Hw Ha He [Hroll _] Hroom Hlen Hexp Her Hf Hc Hz. assert (good r0) as Hg by apply Hw.
  assert (z < 2 ^ 63) as Hzb by (by eapply Hw).
  unfold rollback. unfold mbind at 1, M_bind at 1. rewrite (time_total r w z Hc Hz).
  set (w1 := World _ _ _ _ _ _ _).
  assert (set_now z r = set_now z r0) as -> by (destruct Ha as [-> _]; done).
  assert (jn_last_now r0 <= z) as Hz0 by (destruct Ha; lia).
  assert (good (set_now z r0)) as Hg2 by (by apply good_set_now).
  change (staged_entry (set_now z r0)) with (of_option TypeError (jn_staged r0)). rewrite He. cbn [of_option].
  change (lift (Ok e)) with (mret (M := M (world A)) e). unfold mbind at 1, M_bind at 1, mret at 1, M_ret at 1.
  destruct (check_entry_spec _ _ (eq_trans (f_equal _ (eq_sym He)) (proj1 (gd_staged _ _ _ Hg)))) as (v & Hv & _).
  rewrite Hv. unfold mbind at 1, M_bind at 1, lift at 1.
  destruct (staged_subject float_repr device _ _ _ Hg2 He Hv) as (Hsub & Hhex & Hdg).
  set (rw := set_phase ROLLING_BACK (set_now z r0)).
  assert (good rw) as Hgw by (apply good_set_phase; [done|cbn; by rewrite He]).
  assert (roomy rw) as Hrw by (apply (roomy_change r0); [done|done|by left]).
  destruct (write_total rw w1 Hgw Hrw (Hf 0%nat)) as (text1 & Htext1 & Hwrite1).
  unfold mbind at 1, M_bind at 1. rewrite Hwrite1. set (w2 := replace_file rw text1 w1).
  destruct (previous_good_total rw z Hgw Hexp) as ([p b] & Hpg).
  destruct (Hroll v p b (wd_app w2)) as (a' & Ha').
  unfold mbind at 1, M_bind at 1, tryM.
  assert (∀ X (f : X → M (world A) bool) x, ((lift (Ok x) : M (world A) X) ≫= f) w2 = f x w2) as Hlift by done.
  change (previous_good (ST := ST) rw z) with (previous_good (ST := ST) rw z). rewrite Hpg, Hlift.
  unfold mbind at 1, M_bind at 1, note at 1, modify. unfold mbind at 1, M_bind at 1, on_app at 1. cbn [wd_app].
  rewrite Ha'. cbn [mret M_ret].
  set (w3 := World _ _ _ _ _ _ _).
  assert (good (set_idle rw)) as Hgi by (by apply good_idle).
  destruct (ack_record_total (set_idle rw) (vf_digest v) (Some v) "ROLLED_BACK" error z true Hgi Hhex Hsub
    (known "ROLLED_BACK" error eq_refl Her) (conj (proj1 (gd_now _ _ _ Hg2)) Hzb) Hlen) as (r' & Hr').
  destruct (ack_record_good float_repr device _ _ _ _ _ _ _ _ Hgi Hhex Hsub (known "ROLLED_BACK" error eq_refl Her)
    (conj (proj1 (gd_now _ _ _ Hg2)) Hzb) Hr') as (o & text & Ho & Hin & Hs & Hg' & E').
  rewrite Hr'. unfold mbind at 1, M_bind at 1, lift at 1.
  assert (roomy r') as Hrr' by (apply (roomy_change r0); [done|by rewrite E'|right; by rewrite E']).
  destruct (write_total r' w3 Hg' Hrr' (Hf 1%nat)) as (text2 & Htext2 & Hwrite2).
  unfold mbind at 1, M_bind at 1. rewrite Hwrite2. cbn [mret M_ret].
  exists (replace_file r' text2 w3), r', text. split; [done|]. split.
  { apply stored_replace; try done. - exact (stored_dir _ _ _ _ Hw). - intros n y. apply Hw. }
  rewrite E'. split_and!; try done.
  - unfold w3, w2, w1. cbn [replace_file wd_log]. rewrite <- !(assoc_L (++)). unfold rw. by rewrite Hdg.
  - by rewrite <- Hdg.
Qed.

End Recovery.
