(* ===== verification/JournalExamples.v ===== *)
(** The control journal of a small device: a verifier of one-octet messages, an
    application that cannot apply the second configuration, and the theorems about
    the journal at concrete runs. *)
From Stdlib Require Import ZArith Lia.
From stdpp Require Import relations.
From S2P Require Import Prelude PyData Json JsonText Rns RnsModel Ack AckSize Journal JournalSpec.
From S2P Require Import JournalSpec JournalRuns JournalSafety JournalRecovery.

Local Open Scope Z_scope.

Definition no_floats : spec_float → pystr := λ _, [].

(** Message [n] is configuration [n]; it follows configuration [n - 1] and its
    lease ends at 5000. *)
Definition digest_of (n : Z) : pystr := tohex (toy_hash [n]).

#[export] Instance toy_verifier : Verifier () := λ raw now,
  match raw with
  | [n] =>
      if in_range 1 9 n then
        if now <? 5000 then
          Ok (Verified (py "cfg") n (if n =? 1 then None else Some (digest_of (n - 1))) () raw (digest_of n))
        else Raise (ConfigError "LEASE")
      else Raise (ConfigError "SIGNATURE")
  | _ => Raise (ConfigError "MALFORMED")
  end.

Definition toy_snapshot : pyval := PDict [(PStr (py "known"), PList []); (PStr (py "active"), PList [])].

(** The application counts the configurations it applied. *)
#[export] Instance toy_application : Application () Z := {|
  app_scope := Some (mret (), λ _, mret ());
  app_snapshot := λ _ a, (Ok toy_snapshot, a);
  app_reserve := Some (mret ());
  app_apply := λ v _ a, if vf_revision v =? 2 then (Raise (RuntimeError "apply"), a) else (Ok (), a + 1);
  app_healthy := λ _ a, (Ok true, a);
  app_rollback := λ _ _ _ a, (Ok (), 0);
|}.

Lemma toy_verify_inv raw now v :
  toy_verifier raw now = Ok v → ∃ n, raw = [n] ∧ 1 <= n <= 9 ∧
    v = Verified (py "cfg") n (if n =? 1 then None else Some (digest_of (n - 1))) () raw (digest_of n).
Proof.
  unfold toy_verifier. destruct raw as [|n [|]]; try done. destruct (in_range 1 9 n) eqn:E; [|done].
  destruct (now <? 5000); [|done]. intros [= <-]. exists n. apply in_range_true in E. done.
Qed.

#[export] Instance toy_verifier_laws : VerifierLaws ().
Proof.
  split; intros.
  - apply toy_verify_inv in H as (n & -> & _ & ->). done.
  - apply toy_verify_inv in H as (n & -> & Hn & ->). simpl. lia.
  - apply toy_verify_inv in H as (n & -> & Hn & ->). reflexivity.
  - apply toy_verify_inv in H as (n & -> & Hn & ->), H0 as (m & -> & Hm & ->). simpl in H1.
    assert (n = m) as ->; [|by split].
    assert (n ∈ [1; 2; 3; 4; 5; 6; 7; 8; 9] ∧ m ∈ [1; 2; 3; 4; 5; 6; 7; 8; 9]) as [Hn' Hm'].
    { rewrite !elem_of_cons. lia. }
    assert (NoDup (digest_of <$> [1; 2; 3; 4; 5; 6; 7; 8; 9])) as Hnd
      by (apply (bool_decide_unpack _); vm_compute; exact I).
    apply list_elem_of_lookup in Hn' as [i Hi], Hm' as [j Hj].
    assert (i = j) as -> by (eapply (NoDup_lookup _ i j (digest_of n) Hnd); rewrite list_lookup_fmap; [by rewrite Hi|];
      rewrite Hj; by rewrite H1).
    congruence.
  - unfold verify_config, toy_verifier in H. repeat case_match; simplify_eq; by eexists.
  - unfold verify_config, toy_verifier in H. repeat case_match; simplify_eq; by vm_compute.
Qed.

#[export] Instance toy_application_laws : ApplicationLaws () Z.
Proof. split. intros p a v a' H. injection H as <- <-. vm_compute. reflexivity. Qed.

(** ** A fresh journal *)

Section Fresh.
Context {RN : Rns} {RNL : RnsLaws} {RNO : RnsOctets} {ST A : Type}.
Context {VF : Verifier ST} {VFL : VerifierLaws ST} {AP : Application ST A} {APL : ApplicationLaws ST A}.

Lemma new_journal_good float_repr device : good (ST := ST) float_repr device new_journal.
Proof.
  split; try done; try (by apply entry_good_None); try (cbn; lia).
Qed.

(** [initialize] leaves the journal the operations start from. *)
Lemma initialize_stored float_repr device (w : world A) :
  wd_dir w = false → wd_faults w 0%nat = Written → (∀ n z, wd_clock w n = PInt z → z < 2 ^ 63) →
  stored (ST := ST) float_repr device (initialize float_repr w).2 new_journal
  ∧ chained (ST := ST) new_journal.
Proof.
  intros Hd Hf Hc. split; [|by apply chained_none]. unfold initialize, write_journal. rewrite Hd.
  destruct (journal_fits float_repr device new_journal (new_journal_good float_repr device)) as (text & Ht).
  { exists 4, 4, 4. split_and!; try done; by exists (py "null"). }
  rewrite Ht. cbn [wd_faults]. rewrite Hf. cbn [snd]. apply stored_replace; done.
Qed.
End Fresh.

(** ** A device at work *)

Definition device : @identity toy_rns := 11.

(** The clock advances by ten at every reading up to 4000. *)
Definition toy_clock (n : nat) : pyval := PInt (Z.min (1000 + 10 * Z.of_nat n) 4000).

Definition fresh_world (faults : nat → fault) : world Z := World false None fresh_stat 0 toy_clock faults [].
Definition installed (faults : nat → fault) : world Z := (initialize no_floats (fresh_world faults)).2.

Abbreviation work os w := ((iterM (call (ST := ()) (A := Z) no_floats device) os w).2).

Lemma installed_stored faults :
  faults 0%nat = Written →
  stored (ST := ()) no_floats device (installed faults) new_journal ∧ chained (ST := ()) new_journal.
Proof.
  intros Hf. apply initialize_stored; [done|exact Hf|]. intros n z [= <-]. lia.
Qed.

(** What a log did, in short. *)
Definition effect (e : event) : string :=
  match e with
  | EWrite r => match jn_phase r with IDLE => "idle" | STAGED => "staged" | APPLYING => "applying"
                | APPLIED_PENDING => "applied" | ROLLING_BACK => "rolling" end
  | EApply _ => "apply" | ERollback _ => "rollback" | ESend _ => "send"
  end.

(** Configuration 1 commits, the application cannot apply configuration 2. *)
Definition deliveries : list operation := [OReceive (PBytes [1]); OReceive (PBytes [2])].

Lemma deliveries_octets : Forall delivers_octets deliveries.
Proof. repeat constructor; intros b [= <-]; repeat constructor. Qed.

Lemma journal_write_ahead_witness :
  effect <$> wd_log (work deliveries (installed (λ _, Written)))
  = ["idle"; "staged"; "applying"; "apply"; "applied"; "idle"; "staged"; "applying"; "apply"; "rolling"; "rollback"; "idle"]%string
  ∧ ∃ l r', wd_log (work deliveries (installed (λ _, Written))) = wd_log (installed (λ _, Written)) ++ l
    ∧ path (ST := ()) no_floats device new_journal l r'.
Proof.
  split; [vm_compute; reflexivity|].
  destruct (journal_write_ahead no_floats device (installed (λ _, Written)) new_journal deliveries
    (proj1 (installed_stored (λ _, Written) eq_refl)) deliveries_octets) as (l & r' & Hl & Hp & _).
  exists l, r'. split; [exact Hl|exact Hp].
Defined.

(** After both deliveries configuration 1 is the committed one. *)
Definition current (w : world Z) : journal :=
  match (read_journal (ST := ()) no_floats device w).1 with Ok r => r | Raise _ => new_journal end.

Lemma current_stored (w : world Z) r : stored (ST := ()) no_floats device w r → current w = r.
Proof. intros (Hr & _). unfold current. by rewrite Hr. Qed.

Definition outcome (r : journal) : option pystr * Z := (en_digest <$> jn_committed r, jn_floor r).

Lemma committed_chain_witness :
  outcome (current (work deliveries (installed (λ _, Written)))) = (Some (digest_of 1), 2)
  ∧ rtc (succeeds (ST := ())) None (jn_committed (current (work deliveries (installed (λ _, Written))))).
Proof.
  split; [vm_compute; reflexivity|].
  destruct (committed_chain no_floats device (installed (λ _, Written)) new_journal deliveries
    (proj1 (installed_stored (λ _, Written) eq_refl)) (proj2 (installed_stored (λ _, Written) eq_refl)) deliveries_octets)
    as (l & r' & _ & Hs & _ & Hc & _).
  rewrite (current_stored _ r' Hs). exact Hc.
Defined.

(** ** A crash *)

(** The fourth write, which would record that configuration 1 was applied, is
    lost: the application has applied it, the journal still says [APPLYING]. *)
Definition crashed : world Z :=
  work [OReceive (PBytes [1])] (installed (λ n, if Nat.eqb n 3 then Lost else Written)).

Definition sizedb (v : pyval) (n : Z) : bool :=
  match json_compact no_floats v with Ok t => zlen t <=? n | Raise _ => false end.

Lemma sizedb_sized v n : sizedb v n = true → sized no_floats v n.
Proof. unfold sizedb. destruct (json_compact no_floats v) as [t|] eqn:E; [|done]. intros H%Z.leb_le. by exists t. Qed.

Lemma crashed_stored : stored (ST := ()) no_floats device crashed (current crashed).
Proof.
  destruct (installed_stored (λ n, if Nat.eqb n 3 then Lost else Written) eq_refl) as [Hs _].
  assert (Forall delivers_octets [OReceive (PBytes [1])]) as Ho by (repeat constructor; intros b [= <-]; repeat constructor).
  destruct (runs_calls no_floats device new_journal _ (proj1 (proj2 Hs)) Ho _ Hs) as (l & r' & _ & _ & Hst & _).
  fold crashed in Hst. rewrite (current_stored crashed r' Hst). exact Hst.
Qed.

Lemma toy_working : working (ST := ()) (A := Z).
Proof. split; [intros; by eexists|]. intros enter leave [= <- <-]. split; intros; by eexists. Qed.

Lemma crashed_roomy : roomy no_floats (current crashed).
Proof.
  exists 10, 1000, 100. split_and!; try lia; apply sizedb_sized; vm_compute; reflexivity.
Qed.

Definition staged_now : entry := default (Entry [] 0 [] None PNone) (jn_staged (current crashed)).

