(* ===== verification/Configuration.v ===== *)
(** The signed control configuration (provisioning/configuration.py): its
    gateways and transport profiles with their validators, what the offline
    authority issues and what a device verifies before it believes any of it. *)
From Stdlib Require Import ZArith Lia.
From S2P Require Import Prelude PyData Json JsonText Ipaddress ProfileConfig Rns Ack Journal.

Local Open Scope Z_scope.

(** ** The data *)

Inductive transport := WireGuard | AmneziaWG | VlessReality.
Inductive transport_version := V1 | V2_0 | V3_1.

#[export] Instance transport_eq_dec : EqDecision transport.
Proof. solve_decision. Defined.
#[export] Instance transport_version_eq_dec : EqDecision transport_version.
Proof. solve_decision. Defined.

Definition transport_name (t : transport) : pystr :=
  py (match t with WireGuard => "wireguard" | AmneziaWG => "amneziawg" | VlessReality => "vless-reality" end).
Definition version_name (v : transport_version) : pystr := py (match v with V1 => "1" | V2_0 => "2.0" | V3_1 => "3.1" end).

Record control_gateway := ControlGateway {
  gw_id : pystr;
  gw_endpoint : pystr;
  gw_port : Z;
}.

Record transport_profile := TransportProfile {
  tp_id : pystr;
  tp_gateway : pystr;
  tp_transport : transport;
  tp_version : transport_version;
  tp_config : pystr;
}.

(** The schema number and the audience are literals. *)
Record control_configuration := ControlConfiguration {
  cf_id : pystr;
  cf_revision : Z;
  cf_issued : Z;
  cf_expires : Z;
  cf_recipient : pystr;
  cf_wg : pystr;
  cf_min_version : pystr;
  cf_previous : option pystr;
  cf_signer : pystr;
  cf_gateways : list control_gateway;
  cf_profiles : list transport_profile;
}.

(** The JSON reader and writer of the models' base class (pydantic):
    [model_validate_json] reads a document with the one, [model_dump_json] is
    the other. *)
Class Pydantic := {
  model_json : bytes → option pyval;
  model_dump_json : control_configuration → pystr;
}.

Definition DOMAIN : bytes := py "family-connect/control-config/v1" ++ [0].
Definition AUDIENCE : pystr := py "family-connect/control-config/v1".
Definition LOCAL_KEY : pystr := py "LOCAL_DEVICE_KEY".
Definition MAX_ENVELOPE_BYTES : Z := 65536.

(** ** Field validators *)

(** [GatewayCandidate.valid_key]: canonical base64 of thirty-two octets, not
    all zero. *)
Definition valid_key (s : pystr) : bool :=
  match b64decode s with
  | Some raw => (zlen raw =? 32) && existsb (λ b, negb (b =? 0)) raw && str_eqb (b64encode raw) s
  | None => false
  end.

(** [updates.version(value)] *)
Definition version_part (s : pystr) : bool :=
  ascii_digits s && (zlen s <=? 6) && (bool_decide (s = [48]) || negb (bool_decide (head s = Some 48))).
Definition version (s : pystr) : result (Z * Z * Z) :=
  match split_on 46 s with
  | [a; b; c] =>
      require (version_part a && version_part b && version_part c) (invalid "invalid version");;
      Ok (decimal a, decimal b, decimal c)
  | _ => Raise (invalid "invalid version")
  end.
Definition version_above (a b : Z * Z * Z) : bool :=
  match a, b with
  | (x, y, z), (x', y', z') => (x' <? x) || ((x =? x') && ((y' <? y) || ((y =? y') && (z' <? z))))
  end.

(** [ControlGateway.valid_endpoint] *)
Definition valid_endpoint (s : pystr) : bool :=
  match ip_address s with
  | Some a => negb (is_unspecified a || is_multicast a || is_loopback a) && str_eqb (ip_text a) s
  | None => false
  end.

Definition positive (z : Z) : bool := (1 <=? z) && (z <? 2 ^ 63).

Definition valid_gateway (g : control_gateway) : result () :=
  require (identifier (gw_id g) && valid_endpoint (gw_endpoint g) && in_range 1 65535 (gw_port g)) (invalid "gateway").

(** ** Transport profiles *)

(** [s.replace(old, new)] and [s.count(old)], [old] not empty; the fuel is the
    length of the text. *)
Fixpoint replace_all (fuel : nat) (old new s : pystr) : pystr :=
  match fuel, s with
  | O, _ | _, [] => s
  | S fuel, c :: r =>
      if startswith old s then new ++ replace_all fuel old new (drop (length old) s) else c :: replace_all fuel old new r
  end.
Fixpoint occurrences (fuel : nat) (old s : pystr) : Z :=
  match fuel, s with
  | O, _ | _, [] => 0
  | S fuel, c :: r => if startswith old s then 1 + occurrences fuel old (drop (length old) s) else occurrences fuel old r
  end.

(** What may follow the key on its line: blanks to the end of a line, or a
    comment. *)
Definition line_end (s : pystr) : bool :=
  let t := lstrip s in
  bool_decide (t = []) || bool_decide (head t = Some 35) || has_char 10 (take (length s - length t) s).

(** The line the pattern describes, at its start: [PrivateKey], [=] and the
    placeholder, with blanks before each. *)
Definition expect (word s : pystr) : option pystr :=
  let s := lstrip s in if startswith word s then Some (drop (length word) s) else None.
Definition local_key_here (s : pystr) : bool :=
  match (s ← expect (py "PrivateKey") s; s ← expect (py "=") s; expect LOCAL_KEY s) with
  | Some rest => line_end rest
  | None => false
  end.
(** [re.search] of the pattern with [MULTILINE]: at the start of some line. *)
Fixpoint local_key_line (start : bool) (s : pystr) : bool :=
  (start && local_key_here s) || match s with [] => false | c :: r => local_key_line (c =? 10) r end.

(** The key of thirty-two zero octets that stands for the device's own. *)
Definition SENTINEL : pystr := b64encode (repeat 0 32).

Inductive parsed_profile :=
  | ParsedTunnel (s : sections)
  | ParsedTcp (p : list (pyval * pyval)).

Definition awg_of (p : transport_profile) : bool := bool_decide (tp_transport p = AmneziaWG).
Definition awg31_of (p : transport_profile) : bool := awg_of p && bool_decide (tp_version p = V3_1).

(** [TransportProfile.parsed()] *)
Definition parsed (p : transport_profile) : result parsed_profile :=
  match tp_transport p with
  | VlessReality =>
      v ← parse_tcp (tp_config p);
      kind ← item "type" v;
      require (key_is_str REALITY kind) (invalid "transport/profile mismatch");;
      id ← str_field "id" v;
      key ← str_field "public_key" v;
      raw ← of_option (invalid "binascii.Error") (b64decode (List.map of_urlsafe key ++ [61]));
      raise_if (str_eqb id NIL_UUID || negb (existsb (λ b, negb (b =? 0)) raw)) (invalid "invalid TCP credential");;
      Ok (ParsedTcp v)
  | _ =>
      let config := tp_config p in
      s ← parse (awg_of p) (awg31_of p) (replace_all (length config) LOCAL_KEY SENTINEL config);
      interface ← of_option KeyError (dget INTERFACE s);
      key ← fitem "PrivateKey" interface;
      require (str_eqb key SENTINEL && (occurrences (length config) LOCAL_KEY config =? 1) && local_key_line true config)
        (invalid "local device key binding required");;
      Ok (ParsedTunnel s)
  end.

Definition expected_version (t : transport) (v : transport_version) : bool :=
  match t, v with
  | WireGuard, V1 | VlessReality, V1 | AmneziaWG, V2_0 | AmneziaWG, V3_1 => true
  | _, _ => false
  end.
Definition interface_of (p : parsed_profile) : fields :=
  match p with ParsedTunnel s => default [] (dget INTERFACE s) | ParsedTcp _ => [] end.

(** The field constraints of [TransportProfile] and [valid_profile]. *)
Definition valid_profile (p : transport_profile) : result () :=
  require (identifier (tp_id p) && identifier (tp_gateway p) && in_range 1 16384 (zlen (tp_config p))) (invalid "profile");;
  require (expected_version (tp_transport p) (tp_version p)) (invalid "transport version mismatch");;
  f ← parsed p;
  raise_if (bool_decide (tp_version p = V3_1) && negb (forallb (λ k, dmem k (interface_of f)) AWG31_FIELDS))
    (invalid "complete AWG 3.1 parameters required");;
  raise_if (awg_of p && negb (existsb (λ k, dmem k (interface_of f)) AWG_FIELDS)) (invalid "AWG parameters required").

(** ** The configuration *)

(** The host and the port a parsed profile connects to. *)
Definition profile_endpoint (f : parsed_profile) : result (pystr * Z) :=
  match f with
  | ParsedTcp v =>
      host ← str_field "server" v;
      port ← item "port" v;
      port ← of_option TypeError (as_int port);
      Ok (host, port)
  | ParsedTunnel s => peer ← of_option KeyError (dget PEER s); endpoint_of peer
  end.

(** The last gateway of an identifier, as the comprehension keeps it. *)
Definition gateway_of (id : pystr) (l : list control_gateway) : option control_gateway :=
  List.find (λ g, str_eqb (gw_id g) id) (reverse l).

Definition matched_profile (gateways : list control_gateway) (p : transport_profile) : result () :=
  g ← of_option (invalid "unknown gateway") (gateway_of (tp_gateway p) gateways);
  f ← parsed p;
  '(host, port) ← profile_endpoint f;
  require (str_eqb host (gw_endpoint g) && (port =? gw_port g)) (invalid "gateway/profile mismatch").

(** The field constraints of [ControlConfiguration] and its validators. *)
Definition declared_fields (c : control_configuration) : bool :=
  identifier (cf_id c) && positive (cf_revision c) && positive (cf_issued c) && positive (cf_expires c)
  && hex_match 32 (cf_recipient c) && match cf_previous c with Some d => hex_match 64 d | None => true end
  && hex_match 64 (cf_signer c) && in_range 1 8 (zlen (cf_gateways c)) && in_range 1 8 (zlen (cf_profiles c)).
Definition valid_configuration (c : control_configuration) : result () :=
  require (declared_fields c) (invalid "fields");;
  mapR valid_gateway (cf_gateways c);;
  mapR valid_profile (cf_profiles c);;
  require (valid_key (cf_wg c)) (invalid "invalid public key");;
  version (cf_min_version c);;
  require ((0 <? cf_expires c - cf_issued c) && (cf_expires c - cf_issued c <=? 86400)) (invalid "invalid lease");;
  require (bool_decide (NoDup (gw_id <$> cf_gateways c))) (invalid "duplicate gateway");;
  require (bool_decide (NoDup (tp_id <$> cf_profiles c))) (invalid "duplicate profile");;
  mapR (matched_profile (cf_gateways c)) (cf_profiles c);;
  Ok ().

(** ** Its JSON document *)

Definition gateway_value (g : control_gateway) : pyval :=
  PDict [(PStr (py "gateway_id"), PStr (gw_id g)); (PStr (py "endpoint"), PStr (gw_endpoint g)); (PStr (py "port"), PInt (gw_port g))].
Definition profile_value (p : transport_profile) : pyval :=
  PDict [(PStr (py "profile_id"), PStr (tp_id p)); (PStr (py "gateway_id"), PStr (tp_gateway p));
         (PStr (py "transport"), PStr (transport_name (tp_transport p)));
         (PStr (py "transport_version"), PStr (version_name (tp_version p))); (PStr (py "config"), PStr (tp_config p))].
Definition configuration_value (c : control_configuration) : pyval :=
  PDict [(PStr (py "schema_version"), PInt 2); (PStr (py "config_id"), PStr (cf_id c)); (PStr (py "revision"), PInt (cf_revision c));
         (PStr (py "issued_at"), PInt (cf_issued c)); (PStr (py "expires_at"), PInt (cf_expires c));
         (PStr (py "recipient"), PStr (cf_recipient c)); (PStr (py "audience"), PStr AUDIENCE);
         (PStr (py "wireguard_public_key"), PStr (cf_wg c)); (PStr (py "min_client_version"), PStr (cf_min_version c));
         (PStr (py "previous_config_hash"), match cf_previous c with Some d => PStr d | None => PNone end);
         (PStr (py "signer_key_id"), PStr (cf_signer c)); (PStr (py "gateways"), PList (gateway_value <$> cf_gateways c));
         (PStr (py "transport_profiles"), PList (profile_value <$> cf_profiles c))].

(** The declared types, strictly; unknown members are forbidden. *)
Definition bad_field : exn := invalid "ValidationError".
Definition text_in (name : string) (d : list (pyval * pyval)) : result pystr := v ← item name d; of_option bad_field (as_str v).
Definition int_in (name : string) (d : list (pyval * pyval)) : result Z := v ← item name d; of_option bad_field (as_int v).
Definition list_in (name : string) (d : list (pyval * pyval)) : result (list pyval) := v ← item name d; of_option bad_field (as_list v).
Definition model_of (names : list string) (v : pyval) : result (list (pyval * pyval)) :=
  d ← of_option bad_field (as_dict v);
  require (keys_are names d) bad_field;;
  Ok d.

Definition gateway_fields (v : pyval) : result control_gateway :=
  d ← model_of ["gateway_id"; "endpoint"; "port"] v;
  id ← text_in "gateway_id" d; endpoint ← text_in "endpoint" d; port ← int_in "port" d;
  Ok (ControlGateway id endpoint port).

Definition transport_of (s : pystr) : option transport :=
  List.find (λ t, str_eqb (transport_name t) s) [WireGuard; AmneziaWG; VlessReality].
Definition version_of (s : pystr) : option transport_version := List.find (λ v, str_eqb (version_name v) s) [V1; V2_0; V3_1].

Definition profile_fields (v : pyval) : result transport_profile :=
  d ← model_of ["profile_id"; "gateway_id"; "transport"; "transport_version"; "config"] v;
  id ← text_in "profile_id" d; gateway ← text_in "gateway_id" d;
  t ← text_in "transport" d; t ← of_option bad_field (transport_of t);
  ver ← text_in "transport_version" d; ver ← of_option bad_field (version_of ver);
  config ← text_in "config" d;
  Ok (TransportProfile id gateway t ver config).

Definition configuration_names : list string :=
  ["schema_version"; "config_id"; "revision"; "issued_at"; "expires_at"; "recipient"; "audience"; "wireguard_public_key";
   "min_client_version"; "previous_config_hash"; "signer_key_id"; "gateways"; "transport_profiles"]%string.
Definition configuration_fields (v : pyval) : result control_configuration :=
  d ← model_of configuration_names v;
  schema ← int_in "schema_version" d; require (schema =? 2) bad_field;;
  id ← text_in "config_id" d; revision ← int_in "revision" d;
  issued ← int_in "issued_at" d; expires ← int_in "expires_at" d; recipient ← text_in "recipient" d;
  audience ← text_in "audience" d; require (str_eqb audience AUDIENCE) bad_field;;
  wg ← text_in "wireguard_public_key" d; min_version ← text_in "min_client_version" d;
  previous ← item "previous_config_hash" d;
  previous ← match previous with PNone => Ok None | PStr s => Ok (Some s) | _ => Raise bad_field end;
  signer ← text_in "signer_key_id" d;
  gateways ← list_in "gateways" d; gateways ← mapR gateway_fields gateways;
  profiles ← list_in "transport_profiles" d; profiles ← mapR profile_fields profiles;
  Ok (ControlConfiguration id revision issued expires recipient wg min_version previous signer gateways profiles).

(** [ControlConfiguration.model_validate_json(plain)]; a validator's ValueError
    becomes a ValidationError. *)
Definition model_validate {PY : Pydantic} (plain : bytes) : result control_configuration :=
  try_with (
    v ← of_option bad_field (model_json plain);
    c ← configuration_fields v;
    valid_configuration c;;
    Ok c)
  (λ e, Raise (if is_ValueError e then bad_field else e)).

(** ** Issuing and verifying *)

(** [ConfigVerifier]: the pinned anchor, the device with its WireGuard key, the
    client's version and whether it runs AmneziaWG 3.1. *)
Record config_verifier {RN : Rns} := ConfigVerifier {
  cv_anchor : bytes;
  cv_device : identity;
  cv_wg : pystr;
  cv_version : Z * Z * Z;
  cv_awg31 : bool;
}.
Arguments ConfigVerifier {RN}.

Section Configuration.
Context {RN : Rns} {ED : Ed25519} {PY : Pydantic} (float_repr : spec_float → pystr).

(** [ConfigVerifier(anchor=..., device=..., client_version=..., supports_awg31=...)]
    of an anchor the package accepts. *)
Definition new_verifier (anchor : bytes) (device : identity) (wg client_version : pystr) (awg31 : bool) : result config_verifier :=
  require (zlen anchor =? 32) (ValueError "An Ed25519 public key is 32 bytes long");;
  v ← version client_version;
  Ok (ConfigVerifier anchor device wg v awg31).

Definition key_id (anchor : bytes) : pystr := tohex (full_hash anchor).

(** [public_identity(raw)] *)
Definition public_identity (raw : bytes) : result bytes :=
  require (zlen raw =? 64) (ProvisioningRejected "invalid public identity");; Ok raw.

(** [issue_config(state, recipient_public=..., signing_key=...)]; [random] is
    the ephemeral randomness of the encryption. *)
Definition issue_config (c : control_configuration) (recipient_public : bytes) (key : signing_key) (random : bytes) : result bytes :=
  recipient ← public_identity recipient_public;
  require (str_eqb (cf_recipient c) (tohex (identity_hash recipient)) && str_eqb (cf_signer c) (key_id (ed_public key)))
    (ValueError "signer or recipient mismatch");;
  plain ← of_option (ValueError "UnicodeEncodeError") (utf8_encode (model_dump_json c));
  let ciphertext := encrypt recipient random plain in
  text ← json_compact float_repr (PDict [(PStr (py "ciphertext"), PStr (b64encode ciphertext));
    (PStr (py "signature"), PStr (b64encode (ed_sign key (DOMAIN ++ ciphertext))))]);
  raw ← of_option (ValueError "UnicodeEncodeError") (utf8_encode text);
  raise_if (MAX_ENVELOPE_BYTES <? zlen raw) (ValueError "oversized configuration");;
  Ok raw.

(** [except ConfigError: raise], [except (ValueError, ...): raise ConfigError(category)] *)
Definition categorize {A} (category : string) (m : result A) : result A :=
  try_with m (λ e, match e with ConfigError _ => Raise e | _ => Raise (ConfigError category) end).

(** The signed envelope: its ciphertext, when the anchor signed it. *)
Definition open_envelope (anchor raw : bytes) : result bytes :=
  v ← of_option (ValueError "JSONDecodeError") (json_loads_bytes raw);
  outer ← of_option (ValueError "envelope") (as_dict v);
  require (keys_are ["ciphertext"; "signature"] outer) (ValueError "envelope");;
  c ← text_in "ciphertext" outer;
  ciphertext ← of_option (ValueError "binascii.Error") (b64decode c);
  s ← text_in "signature" outer;
  signature ← of_option (ValueError "binascii.Error") (b64decode s);
  require (ed_verify anchor signature (DOMAIN ++ ciphertext)) (ConfigError "SIGNATURE");;
  Ok ciphertext.

(** A profile only an AmneziaWG 3.1 runtime can apply. *)
Definition needs_awg31 (v : pyval) : bool :=
  match v with
  | PDict d => match lookup_str "transport" d, lookup_str "transport_version" d with
               | Some t, Some ver => key_is_str (transport_name AmneziaWG) t && key_is_str (version_name V3_1) ver
               | _, _ => false
               end
  | _ => false
  end.

Definition has_member (name : string) (p : pyval → bool) (d : list (pyval * pyval)) : bool :=
  match lookup_str name d with Some v => p v | None => false end.

(** What the plaintext is checked for before its types, and the typed state. *)
Definition read_state (cv : config_verifier) (ciphertext : bytes) : result control_configuration :=
  plain ← of_option TypeError (decrypt (cv_device cv) ciphertext);
  v ← of_option (ValueError "JSONDecodeError") (json_loads_bytes plain);
  d ← of_option (ValueError "envelope") (as_dict v);
  require (has_member "schema_version" (λ v, bool_decide (as_int v = Some 2)) d) (ConfigError "SCHEMA");;
  require (has_member "audience" (key_is_str AUDIENCE) d && has_member "recipient" (key_is_str (reference (cv_device cv))) d)
    (ConfigError "TARGET");;
  require (has_member "signer_key_id" (key_is_str (key_id (cv_anchor cv))) d) (ConfigError "SIGNER");;
  raise_if (negb (cv_awg31 cv) && has_member "transport_profiles" (λ v, match v with PList l => existsb needs_awg31 l | _ => false end) d)
    (ConfigError "UNSUPPORTED_TRANSPORT_VERSION");;
  model_validate plain.

(** [verify(raw, now=...)] of octets at an integer time. *)
Definition verify (cv : config_verifier) (raw : bytes) (now : Z) : result (verified control_configuration) :=
  require (0 <=? now) (ConfigError "CLOCK");;
  raise_if (MAX_ENVELOPE_BYTES <? zlen raw) (ConfigError "SIZE");;
  ciphertext ← categorize "MALFORMED" (open_envelope (cv_anchor cv) raw);
  c ← categorize "STRUCTURE" (read_state cv ciphertext);
  require (str_eqb (cf_wg c) (cv_wg cv)) (ConfigError "TARGET");;
  require ((cf_issued c <=? now) && (now <? cf_expires c)) (ConfigError "LEASE");;
  minimum ← version (cf_min_version c);
  raise_if (version_above minimum (cv_version cv)) (ConfigError "CLIENT_VERSION");;
  Ok (Verified (cf_id c) (cf_revision c) (cf_previous c) c raw (tohex (full_hash raw))).

(** The verifier a control journal is given. *)
Definition config_core (cv : config_verifier) : Verifier control_configuration := verify cv.
End Configuration.
