(* ===== verification/ConfigurationSpec.v ===== *)
(** What a verified control configuration promises, the round trip of issuing
    and verifying, and the verifier as the control journal relies on it. *)
From Stdlib Require Import ZArith Lia.
From S2P Require Import Prelude PyData Json JsonText Ipaddress ProfileConfig ProfileSpec Rns Ack Journal JournalSpec.
From S2P Require Import Configuration.

Local Open Scope Z_scope.

(** ** Documented behaviour of the libraries *)

Class Ed25519Laws {ED : Ed25519} : Prop := {
  ed_verify_sign k m : ed_verify (ed_public k) (ed_sign k m) m = true;
  ed_sign_bytes k m : all_bytes (ed_sign k m);
  ed_public_bytes k : all_bytes (ed_public k);
}.

(** The package's JSON reader and the standard library's agree on a document
    both accept, and what [model_dump_json] writes reads back. *)
Class PydanticLaws {PY : Pydantic} : Prop := {
  model_json_agrees b v w : model_json b = Some v → json_loads_bytes b = Some w → v = w;
  model_dump_reads c b : utf8_encode (model_dump_json c) = Some b →
    model_json b = Some (configuration_value c) ∧ json_loads_bytes b = Some (configuration_value c);
}.

(** Encryption of octets gives octets. *)
Class RnsCipher {RN : Rns} : Prop := {
  encrypt_bytes p r m : all_bytes p → all_bytes r → all_bytes m → all_bytes (encrypt p r m);
}.

(** ** The typed fields *)

Lemma gateway_fields_value g : gateway_fields (gateway_value g) = Ok g.
Proof. by destruct g. Qed.

Lemma profile_fields_value p : profile_fields (profile_value p) = Ok p.
Proof. by destruct p as [? ? [] [] ?]. Qed.

Lemma mapR_fmap {A B} (f : B → result A) (g : A → B) l : (∀ x, f (g x) = Ok x) → mapR f (g <$> l) = Ok l.
Proof. intros H. induction l as [|x l IH]; csimpl; [done|]. by rewrite H, IH. Qed.

Lemma configuration_fields_value c : configuration_fields (configuration_value c) = Ok c.
Proof.
  destruct c as [id rev iss exp rec wg mv prev sig gws ps].
  unfold configuration_fields, configuration_value, text_in, int_in, list_in, model_of, configuration_names.
  cbn [cf_id cf_revision cf_issued cf_expires cf_recipient cf_wg cf_min_version cf_previous cf_signer cf_gateways cf_profiles].
  do 8 (mred; dict_simpl). mred. rewrite (proj2 (str_eqb_eq AUDIENCE _) eq_refl).
  rewrite (mapR_fmap _ _ _ gateway_fields_value), (mapR_fmap _ _ _ profile_fields_value). by destruct prev.
Qed.

(** ** What a verified configuration is *)

Section Verified.
Context {RN : Rns} {ED : Ed25519} {PY : Pydantic}.

(** The signed envelope carries the state, encrypted to the device. *)
Record signed_state (cv : config_verifier) (raw plain : bytes) (c : control_configuration) : Prop := SignedState {
  ss_envelope : ∃ outer ciphertext signature s t,
    json_loads_bytes raw = Some (PDict outer)
    ∧ lookup_str "ciphertext" outer = Some (PStr s) ∧ b64decode s = Some ciphertext
    ∧ lookup_str "signature" outer = Some (PStr t) ∧ b64decode t = Some signature
    ∧ ed_verify (cv_anchor cv) signature (DOMAIN ++ ciphertext) = true
    ∧ decrypt (cv_device cv) ciphertext = Some plain;
  ss_document : ∃ v, model_json plain = Some v ∧ configuration_fields v = Ok c;
}.

(** A profile and the gateway it belongs to. *)
Record profile_good (awg31 : bool) (gateways : list control_gateway) (p : transport_profile) : Prop := ProfileGood {
  pg_gateway : ∃ g f, g ∈ gateways ∧ gw_id g = tp_gateway p ∧ parsed p = Ok f ∧ profile_endpoint f = Ok (gw_endpoint g, gw_port g);
  pg_version : expected_version (tp_transport p) (tp_version p) = true;
  pg_awg31 : awg31_of p = true → awg31 = true;
  (* a tunnel holds known fields only, and no private key but the device's *)
  pg_tunnel s : parsed p = Ok (ParsedTunnel s) →
    sections_ok (awg_of p) (awg31_of p) s ∧ ∃ d, dget INTERFACE s = Some d ∧ fget "PrivateKey" d = Some SENTINEL;
}.

(** What the client may rely on. *)
Record trusted (cv : config_verifier) (now : Z) (c : control_configuration) : Prop := Trusted {
  tr_recipient : cf_recipient c = reference (cv_device cv);
  tr_signer : cf_signer c = key_id (cv_anchor cv);
  tr_key : cf_wg c = cv_wg cv;
  tr_lease : cf_issued c <= now < cf_expires c ∧ cf_expires c <= cf_issued c + 86400;
  tr_client : ∃ v, version (cf_min_version c) = Ok v ∧ version_above v (cv_version cv) = false;
  tr_revision : 1 <= cf_revision c < 2 ^ 63;
  tr_id : identifier (cf_id c) = true;
  tr_gateways : NoDup (gw_id <$> cf_gateways c) ∧ Forall (λ g, valid_endpoint (gw_endpoint g) = true ∧ 1 <= gw_port g <= 65535) (cf_gateways c);
  tr_profiles : cf_profiles c ≠ [] ∧ NoDup (tp_id <$> cf_profiles c) ∧ Forall (profile_good (cv_awg31 cv) (cf_gateways c)) (cf_profiles c);
}.

Lemma find_spec {A} (p : A → bool) l x : List.find p l = Some x → x ∈ l ∧ p x = true.
Proof. intros H%find_some. by rewrite list_elem_of_In. Qed.

Lemma mapR_Forall {A B} (f : A → result B) l l' : mapR f l = Ok l' → Forall (λ x, ∃ y, f x = Ok y) l.
Proof. intros H%mapR_Forall2. induction H; constructor; eauto. Qed.

Lemma matched_good gateways p u : matched_profile gateways p = Ok u →
  ∃ g f, g ∈ gateways ∧ gw_id g = tp_gateway p ∧ parsed p = Ok f ∧ profile_endpoint f = Ok (gw_endpoint g, gw_port g).
Proof.
  unfold matched_profile. intros H. inv_ok1. inv_ok1. inv_ok1. destruct a1 as [host port]. apply require_Ok in H. sbools.
  apply of_option_Ok in Ha. unfold gateway_of in Ha. apply find_spec in Ha as [Hin Hid]. sbools.
  rewrite elem_of_reverse in Hin. subst. eauto 8.
Qed.

Lemma parsed_tunnel p s : parsed p = Ok (ParsedTunnel s) →
  sections_ok (awg_of p) (awg31_of p) s ∧ ∃ d, dget INTERFACE s = Some d ∧ fget "PrivateKey" d = Some SENTINEL.
Proof.
  unfold parsed. intros H.
  assert (∃ text, parse (awg_of p) (awg31_of p) text = Ok s ∧ ∃ d, dget INTERFACE s = Some d ∧ fget "PrivateKey" d = Some SENTINEL)
    as (text & Hp & Hd).
  { destruct (tp_transport p); [..|repeat inv_ok1; discriminate]; repeat inv_ok1; subst;
      unfold fitem in *; sbools; subst; repeat inv_ok1; eauto. }
  split; [|done]. unfold parse in Hp. repeat inv_ok1. subst. by eapply read_sections_ok.
Qed.

Lemma valid_profile_version p u : valid_profile p = Ok u → expected_version (tp_transport p) (tp_version p) = true.
Proof. unfold valid_profile. intros H. inv_ok1. inv_ok1. destruct a0. by apply require_Ok in Ha0. Qed.

Lemma transport_of_name s t : transport_of s = Some t → s = transport_name t.
Proof. intros [_ H]%find_spec. by sbools. Qed.
Lemma version_of_name s t : version_of s = Some t → s = version_name t.
Proof. intros [_ H]%find_spec. by sbools. Qed.

(** Read the fields back from a successful typing. *)
Ltac typed :=
  unfold model_of, text_in, int_in, list_in, item in *;
  inv_ok;
  repeat match goal with
  | H : of_option _ _ = Ok _ |- _ => apply of_option_Ok in H
  | H : as_str ?v = Some _ |- _ => destruct v; try discriminate H; injection H as H; subst
  | H : as_list ?v = Some _ |- _ => destruct v; try discriminate H; injection H as H; subst
  | H : as_dict ?v = Some _ |- _ => destruct v; try discriminate H; injection H as H; subst
  end.

(** A typed profile of AmneziaWG 3.1 was one in the document. *)
Lemma profile_needs v p : profile_fields v = Ok p → awg31_of p = true → needs_awg31 v = true.
Proof.
  unfold profile_fields. intros H Ha. typed. unfold awg31_of, awg_of in Ha. cbn [tp_transport tp_version] in Ha. bools. subst.
  cbn [needs_awg31].
  repeat match goal with H : lookup_str _ _ = Some _ |- _ => rewrite H; clear H end.
  match goal with H : transport_of _ = Some _ |- _ => apply transport_of_name in H as -> end.
  match goal with H : version_of _ = Some _ |- _ => apply version_of_name in H as -> end.
  reflexivity.
Qed.

Lemma document_fields d c : configuration_fields (PDict d) = Ok c →
  lookup_str "recipient" d = Some (PStr (cf_recipient c)) ∧ lookup_str "signer_key_id" d = Some (PStr (cf_signer c))
  ∧ ∃ l, lookup_str "transport_profiles" d = Some (PList l) ∧ mapR profile_fields l = Ok (cf_profiles c).
Proof.
  unfold configuration_fields. intros H. cbn [model_of as_dict of_option mbind result_bind] in H. typed. eauto.
Qed.

Lemma awg31_document (awg31 : bool) l ps : (negb awg31 && existsb needs_awg31 l) = false → mapR profile_fields l = Ok ps →
  Forall (λ p, awg31_of p = true → awg31 = true) ps.
Proof.
  intros H Hm%mapR_Forall2. destruct awg31; [by apply Forall_true|]. cbn [negb andb] in H.
  induction Hm as [|v p l ps Hv Hm IH]; [constructor|]. apply orb_false_iff in H as [H1 H2]. constructor; [|by apply IH].
  intros Ha. by rewrite (profile_needs v p Hv Ha) in H1.
Qed.

(** ** The checks of the verifier *)

Lemma categorize_Ok {X} category (m : result X) x : categorize category m = Ok x ↔ m = Ok x.
Proof. unfold categorize. destruct m as [y|e]; simpl; [done|]. by destruct e. Qed.

Lemma open_envelope_Ok anchor raw ciphertext : open_envelope anchor raw = Ok ciphertext →
  ∃ outer signature s t, json_loads_bytes raw = Some (PDict outer)
    ∧ lookup_str "ciphertext" outer = Some (PStr s) ∧ b64decode s = Some ciphertext
    ∧ lookup_str "signature" outer = Some (PStr t) ∧ b64decode t = Some signature
    ∧ ed_verify anchor signature (DOMAIN ++ ciphertext) = true.
Proof. unfold open_envelope. intros H. typed. eauto 12. Qed.

Lemma model_validate_Ok plain c : model_validate plain = Ok c →
  ∃ v, model_json plain = Some v ∧ configuration_fields v = Ok c ∧ valid_configuration c = Ok ().
Proof.
  unfold model_validate. intros H. destruct (of_option _ _ ≫= _) as [c0|e] eqn:E; cbn [try_with] in H; [|done]. injection H as <-.
  apply bind_Ok in E as (v & Hv%of_option_Ok & E). apply bind_Ok in E as (c' & Hc & E). apply bind_Ok in E as ([] & Hok & E).
  injection E as <-. eauto.
Qed.

Lemma valid_configuration_Ok c : valid_configuration c = Ok () →
  declared_fields c = true ∧ (∃ v, version (cf_min_version c) = Ok v)
  ∧ 0 < cf_expires c - cf_issued c <= 86400
  ∧ NoDup (gw_id <$> cf_gateways c) ∧ NoDup (tp_id <$> cf_profiles c)
  ∧ Forall (λ g, ∃ u, valid_gateway g = Ok u) (cf_gateways c)
  ∧ Forall (λ p, ∃ u, valid_profile p = Ok u) (cf_profiles c)
  ∧ Forall (λ p, ∃ u, matched_profile (cf_gateways c) p = Ok u) (cf_profiles c).
Proof.
  unfold valid_configuration. intros H. repeat inv_ok1. bools. split_and!; try done; try lia; eauto using mapR_Forall.
Qed.

Lemma has_member_str name s d : has_member name (key_is_str s) d = true → lookup_str name d = Some (PStr s).
Proof.
  unfold has_member. destruct (lookup_str name d) as [[]|]; try done. simpl. by intros ->%str_eqb_eq.
Qed.

Context {PYL : PydanticLaws}.

Lemma read_state_Ok cv ciphertext c : read_state cv ciphertext = Ok c →
  ∃ plain v, decrypt (cv_device cv) ciphertext = Some plain ∧ model_json plain = Some v ∧ configuration_fields v = Ok c
    ∧ valid_configuration c = Ok () ∧ cf_recipient c = reference (cv_device cv) ∧ cf_signer c = key_id (cv_anchor cv)
    ∧ Forall (λ p, awg31_of p = true → cv_awg31 cv = true) (cf_profiles c).
Proof.
  unfold read_state. intros H. repeat inv_ok1. apply model_validate_Ok in H as (v & Hv & Hc & Hok).
  match goal with H : json_loads_bytes _ = Some _ |- _ => pose proof (model_json_agrees _ _ _ Hv H) as <- end.
  match goal with H : as_dict v = Some _ |- _ => destruct v; try discriminate H; injection H as -> end.
  match goal with H : _ && _ = true |- _ => apply andb_true_iff in H as [_ Hr%has_member_str] end.
  match goal with H : has_member "signer_key_id" _ _ = true |- _ => apply has_member_str in H as Hs end.
  destruct (document_fields _ _ Hc) as (Dr & Ds & l & Dl & Hl). rewrite Hr in Dr. rewrite Hs in Ds.
  injection Dr as Dr. injection Ds as Ds.
  eexists _, _. split_and!; try done.
  eapply awg31_document; [|exact Hl].
  match goal with H : _ && has_member "transport_profiles" _ _ = false |- _ => unfold has_member in H; by rewrite Dl in H end.
Qed.

Lemma verify_Ok cv raw now v : verify cv raw now = Ok v →
  vf_envelope v = raw ∧ vf_digest v = tohex (full_hash raw) ∧ vf_config_id v = cf_id (vf_state v)
  ∧ vf_revision v = cf_revision (vf_state v) ∧ vf_previous v = cf_previous (vf_state v)
  ∧ (∃ plain, signed_state cv raw plain (vf_state v)) ∧ trusted cv now (vf_state v).
Proof.
  unfold verify. intros H. repeat inv_ok1.
  repeat match goal with H : categorize _ _ = Ok _ |- _ => apply categorize_Ok in H end. sbools. subst v.
  cbn [vf_envelope vf_digest vf_config_id vf_revision vf_previous vf_state].
  match goal with H : open_envelope _ _ = Ok ?x |- _ => rename x into ciphertext; destruct (open_envelope_Ok _ _ _ H) as (outer & signature & s & t & E1 & E2 & E3 & E4 & E5 & E6) end.
  match goal with H : read_state _ _ = Ok ?x |- _ => rename x into c; destruct (read_state_Ok _ _ _ H) as (plain & v & Hd & Hm & Hf & Hok & Hr & Hs & Hawg) end.
  destruct (valid_configuration_Ok c Hok) as (V1 & V2 & V3 & V4 & V5 & V6 & V7 & V8).
  split_and!; try done.
  - exists plain. split; [by exists outer, ciphertext, signature, s, t|eauto].
  - unfold declared_fields in V1. unfold positive, in_range in V1. bools. split; try done; try lia.
    + eauto.
    + split; [done|]. eapply Forall_impl; [exact V6|]. intros g [u Hu]. unfold valid_gateway, in_range in Hu. inv_ok1. bools. done.
    + split; [by intros E; rewrite E in *|]. split; [done|].
      rewrite Forall_forall in *. intros p Hp. destruct (V7 p Hp) as [u1 Hu1], (V8 p Hp) as [u2 Hu2].
      split; [by eapply matched_good|by eapply valid_profile_version|by apply Hawg|apply parsed_tunnel].
Qed.
End Verified.
