(* ===== verification/ConfigurationSafety.v ===== *)
(** The theorems of the control configuration: what verification guarantees,
    that an issued configuration verifies, and that the verifier is the one the
    control journal is proved against. *)
From Stdlib Require Import ZArith Lia.
From S2P Require Import Prelude PyData Json JsonText Ipaddress ProfileConfig ProfileSpec Rns Ack AckSize.
From S2P Require Import Journal JournalSpec JournalRuns Configuration ConfigurationSpec.

Local Open Scope Z_scope.

(** ** Issuing *)

Lemma utf8_char_bytes c : is_scalar c = true → all_bytes (utf8_char c).
Proof.
  intros Hc. unfold is_scalar in Hc. apply orb_true_iff in Hc. rewrite !in_range_true in Hc. unfold utf8_char.
  destruct (c <? 128) eqn:E1; [|destruct (c <? 2048) eqn:E2; [|destruct (c <? 65536) eqn:E3]]; ranges;
    repeat constructor; apply is_byte_range; zdiv.
Qed.

Lemma utf8_encode_bytes s b : utf8_encode s = Some b → all_bytes b.
Proof.
  revert b. induction s as [|c s IH]; simpl; intros b H; [by simplify_eq|].
  destruct (is_scalar c) eqn:Hc; [|done]. destruct (utf8_encode s) as [b'|]; [|done]. simplify_eq/=.
  apply Forall_app. split; [by apply utf8_char_bytes|by apply IH].
Qed.

Definition signed_envelope (ciphertext signature : bytes) : pyval :=
  PDict [(PStr (py "ciphertext"), PStr (b64encode ciphertext)); (PStr (py "signature"), PStr (b64encode signature))].

Lemma envelope_reads float_repr c s t raw : all_bytes c → all_bytes s →
  json_compact float_repr (signed_envelope c s) = Ok t → utf8_encode t = Some raw →
  json_loads_bytes raw = Some (signed_envelope c s).
Proof.
  intros Hc Hs Ht Hr. assert (jsonable (signed_envelope c s) = true) as Hj.
  { unfold signed_envelope. cbn [jsonable forallb fst snd]. rewrite (b64encode_scalar _ Hc), (b64encode_scalar _ Hs). reflexivity. }
  pose proof (compact_ascii _ _ _ Hj Ht) as Ha. rewrite (utf8_ascii _ Ha) in Hr. injection Hr as <-.
  destruct (compact_loads float_repr _ Hj) as (t' & Ht' & Hl). rewrite Ht in Ht'. injection Ht' as <-.
  unfold json_loads_bytes. by rewrite (json_decode_ascii _ Ha).
Qed.

Section Issue.
Context {RN : Rns} {RNL : RnsLaws} {RNC : RnsCipher} {RNO : RnsOctets}.
Context {ED : Ed25519} {EDL : Ed25519Laws} {PY : Pydantic} {PYL : PydanticLaws}.
Context (float_repr : spec_float → pystr).

Lemma needs_profile p : needs_awg31 (profile_value p) = true → awg31_of p = true.
Proof. by destruct p as [? ? [] [] ?]. Qed.

Lemma document_awg31 (awg31 : bool) ps : Forall (λ p, awg31_of p = true → awg31 = true) ps →
  (negb awg31 && existsb needs_awg31 (profile_value <$> ps)) = false.
Proof.
  intros H. destruct awg31; [done|]. cbn [negb andb]. apply not_true_iff_false.
  intros (v & Hv & Hn)%existsb_exists. apply list_elem_of_In, list_elem_of_fmap in Hv as (p & -> & Hp).
  rewrite Forall_forall in H. by apply needs_profile, H in Hn.
Qed.

Lemma issued_state cv c key random plain : valid_configuration c = Ok () →
  cv_anchor cv = ed_public key → cf_signer c = key_id (cv_anchor cv) →
  cf_recipient c = reference (cv_device cv) → Forall (λ p, awg31_of p = true → cv_awg31 cv = true) (cf_profiles c) →
  utf8_encode (model_dump_json c) = Some plain →
  read_state cv (encrypt (public_of (cv_device cv)) random plain) = Ok c.
Proof.
  intros Hok Hk Hs Hr Ha Hp. destruct (model_dump_reads _ _ Hp) as [Hm Hj].
  unfold read_state. rewrite decrypt_encrypt. cbn [of_option mbind result_bind]. rewrite Hj. cbn [of_option mbind result_bind].
  assert (model_validate plain = Ok c) as ->.
  { unfold model_validate. rewrite Hm. cbn [of_option mbind result_bind]. rewrite configuration_fields_value. cbn [mbind result_bind].
    by rewrite Hok. }
  unfold configuration_value. cbn [as_dict of_option mbind result_bind]. unfold has_member. dict_simpl.
  cbn [key_is_str]. rewrite (proj2 (str_eqb_eq AUDIENCE _) eq_refl), Hr, Hs, !(proj2 (str_eqb_eq _ _) eq_refl).
  rewrite bool_decide_eq_true_2 by done. rewrite (document_awg31 _ _ Ha). reflexivity.
Qed.

(** A configuration the authority issues for a device is accepted by that
    device's verifier, at every time of its lease, as exactly the configuration
    that was issued. *)
Theorem issued_verifies cv c key random raw now :
  valid_configuration c = Ok () → all_bytes random → all_bytes (public_of (cv_device cv)) →
  issue_config float_repr c (public_of (cv_device cv)) key random = Ok raw →
  cv_anchor cv = ed_public key → cf_wg c = cv_wg cv →
  (∀ v, version (cf_min_version c) = Ok v → version_above v (cv_version cv) = false) →
  Forall (λ p, awg31_of p = true → cv_awg31 cv = true) (cf_profiles c) →
  cf_issued c <= now < cf_expires c →
  verify cv raw now = Ok (Verified (cf_id c) (cf_revision c) (cf_previous c) c raw (tohex (full_hash raw))).
Proof.
  intros Hok Hrnd Hpub Hi Hk Hw Hv Ha Hn. destruct (valid_configuration_Ok c Hok) as (V1 & [ver V2] & V3 & _).
  unfold issue_config, public_identity in Hi. repeat inv_ok1. sbools. subst.
  match goal with H : utf8_encode (model_dump_json c) = Some ?x |- _ => rename x into plain, H into Hplain end.
  match goal with H : json_compact _ _ = Ok _ |- _ => rename H into Ht end.
  match goal with H : utf8_encode _ = Some raw |- _ => rename H into Hraw end.
  rewrite <- Hk in *. set (ct := encrypt (public_of (cv_device cv)) random plain) in *.
  assert (all_bytes ct) as Hct by (apply encrypt_bytes; [done|done|by eapply utf8_encode_bytes]).
  pose proof (ed_sign_bytes key (DOMAIN ++ ct)) as Hsg.
  unfold verify. assert (1 <= cf_issued c) by (unfold declared_fields, positive in V1; bools; lia).
  rewrite (proj2 (Z.leb_le 0 now)) by lia. cbn [require mbind result_bind].
  match goal with H : _ <= MAX_ENVELOPE_BYTES |- _ => rewrite (proj2 (Z.ltb_ge _ _) H) end. cbn [raise_if require negb mbind result_bind].
  assert (open_envelope (cv_anchor cv) raw = Ok ct) as ->.
  { unfold open_envelope. rewrite (envelope_reads float_repr _ _ _ _ Hct Hsg Ht Hraw). unfold signed_envelope.
    cbn [of_option as_dict mbind result_bind]. unfold text_in. dict_simpl. mred. dict_simpl. mred.
    rewrite !b64_roundtrip by done. mred. rewrite Hk, ed_verify_sign. reflexivity. }
  cbn [categorize try_with mbind result_bind]. subst ct.
  rewrite (issued_state cv c key random plain) by done. cbn [categorize try_with mbind result_bind].
  rewrite Hw, (proj2 (str_eqb_eq _ _) eq_refl), (proj2 (Z.leb_le _ _)), (proj2 (Z.ltb_lt _ _)) by lia.
  cbn [require mbind result_bind andb]. rewrite V2. cbn [mbind result_bind]. by rewrite (Hv ver V2).
Qed.
End Issue.

(** ** How verification fails *)

Lemma bind_Raise {A B} (m : result A) (f : A → result B) e :
  m ≫= f = Raise e ↔ m = Raise e ∨ ∃ a, m = Ok a ∧ f a = Raise e.
Proof. destruct m; simpl; naive_solver. Qed.

Lemma require_Raise b e e' : require b e = Raise e' → e' = e.
Proof. unfold require. destruct b; naive_solver. Qed.

Lemma of_option_Raise {A} e e' (o : option A) : of_option e o = Raise e' → e' = e.
Proof. destruct o; naive_solver. Qed.

(** Follow a failure to the check that raised it. *)
Ltac raised :=
  repeat match goal with
  | H : (_ ≫= _) = Raise _ |- _ => apply bind_Raise in H as [H|(? & _ & H)]
  | H : require _ _ = Raise _ |- _ => apply require_Raise in H
  | H : raise_if _ _ = Raise _ |- _ => apply require_Raise in H
  | H : of_option _ _ = Raise _ |- _ => apply of_option_Raise in H
  | H : Ok _ = Raise _ |- _ => discriminate H
  end.

Definition known_category (c : string) : bool := existsb (str_eqb (py c)) ACK_ERRORS.

Section Laws.
Context {RN : Rns} {RNL : RnsLaws} {RNO : RnsOctets} {ED : Ed25519} {PY : Pydantic} {PYL : PydanticLaws}.

Lemma categorize_raises {X} category (m : result X) e :
  known_category category = true → (∀ c, m = Raise (ConfigError c) → known_category c = true) →
  categorize category m = Raise e → ∃ c, e = ConfigError c ∧ known_category c = true.
Proof.
  unfold categorize. intros Hc Hm H. destruct m as [x|e']; [done|]. cbn [try_with] in H.
  destruct e'; injection H as <-; eauto.
Qed.

Lemma open_envelope_category anchor raw c : open_envelope anchor raw = Raise (ConfigError c) → known_category c = true.
Proof. unfold open_envelope, text_in, item. intros H. raised; simplify_eq; done. Qed.

Lemma model_validate_category plain c : model_validate plain ≠ Raise (ConfigError c).
Proof.
  unfold model_validate. destruct (of_option _ _ ≫= _) as [x|e]; cbn [try_with]; [done|].
  intros H. destruct (is_ValueError e) eqn:E; simplify_eq; done.
Qed.

Lemma read_state_category cv ciphertext c : read_state cv ciphertext = Raise (ConfigError c) → known_category c = true.
Proof. unfold read_state. intros H. raised; try (simplify_eq; done). by apply model_validate_category in H. Qed.

Lemma verify_raise cv raw now e : verify cv raw now = Raise e → ∃ c, e = ConfigError c ∧ known_category c = true.
Proof.
  unfold verify. intros H.
  repeat match goal with
  | H : (_ ≫= _) = Raise _ |- _ => apply bind_Raise in H as [H|(? & ? & H)]
  end; raised; subst; eauto.
  - by eapply categorize_raises in H; [| |apply open_envelope_category].
  - by eapply categorize_raises in H; [| |apply read_state_category].
  - exfalso. match goal with H : categorize _ (read_state _ _) = Ok _ |- _ => apply categorize_Ok, read_state_Ok in H as (? & ? & _ & _ & _ & Hok & _) end.
    apply valid_configuration_Ok in Hok as (_ & [v Hv] & _). congruence.
Qed.

(** No two envelopes the verifier accepts share a SHA-256 digest and differ in
    their place in the chain. *)
Definition collision_free (cv : config_verifier) : Prop := ∀ raw raw' now now' v v',
  verify cv raw now = Ok v → verify cv raw' now' = Ok v' → full_hash raw = full_hash raw' →
  vf_revision v = vf_revision v' ∧ vf_previous v = vf_previous v'.

(** The verifier is one the journal's theorems are about. *)
Lemma config_laws cv : collision_free cv → VerifierLaws control_configuration (VF := config_core cv).
Proof.
  intros Hf. split; unfold verify_config, config_core; intros.
  - destruct (verify_Ok _ _ _ _ H) as (? & ? & _). done.
  - destruct (verify_Ok _ _ _ _ H) as (_ & _ & _ & -> & _ & _ & [? ? ? ? ? Hr _ _ _]). done.
  - destruct (verify_Ok _ _ _ _ H) as (_ & _ & -> & _ & _ & _ & [? ? ? ? ? _ Hi _ _]). done.
  - apply (Hf raw raw' now now'); try done.
    destruct (verify_Ok _ _ _ _ H) as (_ & E & _), (verify_Ok _ _ _ _ H0) as (_ & E' & _). rewrite E, E' in H1.
    pose proof (fromhex_tohex (full_hash raw) (full_hash_bytes raw)) as R. rewrite H1, fromhex_tohex in R by apply full_hash_bytes.
    by injection R.
  - destruct (verify_raise _ _ _ _ H) as (c & -> & _). eauto.
  - destruct (verify_raise _ _ _ _ H) as (c' & [= <-] & Hc). done.
Qed.

(** C17: What a device believes is what the authority said.  An envelope its
    verifier accepts was signed by the pinned anchor over a ciphertext the
    device decrypts to exactly this configuration; the configuration names the
    device, its WireGuard key and the anchor, is inside a lease of at most a
    day, fits the client, and every one of its profiles connects to a listed
    gateway, with known fields only and no private key but the device's own. *)
Theorem verified_authentic cv raw now v : verify cv raw now = Ok v →
  (∃ plain, signed_state cv raw plain (vf_state v)) ∧ trusted cv now (vf_state v)
  ∧ vf_envelope v = raw ∧ vf_digest v = tohex (full_hash raw).
Proof. intros H. destruct (verify_Ok _ _ _ _ H) as (? & ? & _ & _ & _ & ? & ?). done. Qed.

(** A configuration a digest stands for: accepted at a time at most [limit]. *)
Definition believed (cv : config_verifier) (limit : Z) (digest : pystr) : Prop :=
  ∃ raw plain c at_, digest = tohex (full_hash raw) ∧ signed_state cv raw plain c ∧ trusted cv at_ c ∧ at_ <= limit.

Context {A : Type} {AP : Application control_configuration A} {APL : ApplicationLaws control_configuration A}.
Context (float_repr : spec_float → pystr).

Section Core.
Context (cv : config_verifier) (Hfree : collision_free cv).

Local Instance core_verifier : Verifier control_configuration := config_core cv.
Local Instance core_laws : VerifierLaws control_configuration := config_laws cv Hfree.

Lemma entry_believed r e : good (ST := control_configuration) float_repr (cv_device cv) r →
  jn_committed r = Some e ∨ jn_staged r = Some e → believed cv (jn_last_now r) (en_digest e).
Proof.
  intros Hg He. assert (check_entry (ST := control_configuration) r (Some e) = Ok ()) as Hc.
  { destruct He as [He|He]; [pose proof (proj1 (gd_committed _ _ _ Hg)) as H|pose proof (proj1 (gd_staged _ _ _ Hg)) as H]; by rewrite He in H. }
  destruct (check_entry_spec _ _ Hc) as (v & Hv & _ & Hat). destruct (unpack_known _ _ _ Hv) as (raw & Hraw & <-).
  destruct (verify_Ok _ _ _ _ Hraw) as (_ & -> & _ & _ & _ & [plain Hs] & Ht). exists raw, plain, (vf_state v), (en_at e). done.
Qed.

Lemma path_believed r l r' : path (ST := control_configuration) float_repr (cv_device cv) r l r' →
  good (ST := control_configuration) float_repr (cv_device cv) r →
  good (ST := control_configuration) float_repr (cv_device cv) r'
  ∧ Forall (λ e, match e with EApply d => ∃ limit, believed cv limit d | _ => True end) l.
Proof.
  induction 1 as [r|r e r1 l r2 Ha Hp IH]; intros Hg; [done|].
  assert (good (ST := control_configuration) float_repr (cv_device cv) r1) as Hg1 by (by inversion Ha; subst).
  destruct (IH Hg1) as [H1 H2]. split; [done|]. constructor; [|done].
  inversion Ha; subst; try done. exists (jn_last_now r1). apply entry_believed; [done|]. by right.
Qed.
End Core.

(** C16: The journal run with this verifier only ever applies, stages and commits
    configurations the authority signed for the device: whatever the carrier
    delivers, the application, the clock and the disk do. *)
Theorem journal_believes cv w r os :
  collision_free cv →
  stored (VF := config_core cv) (A := A) float_repr (cv_device cv) w r → Forall delivers_octets os →
  ∃ l r', let w' := (iterM (call (VF := config_core cv) (A := A) float_repr (cv_device cv)) os w).2 in
    wd_log w' = wd_log w ++ l ∧ stored (VF := config_core cv) (A := A) float_repr (cv_device cv) w' r'
    ∧ (∀ d, EApply d ∈ l → ∃ limit, believed cv limit d)
    ∧ ∀ e, jn_committed r' = Some e ∨ jn_staged r' = Some e → believed cv (jn_last_now r') (en_digest e).
Proof.
  intros Hf Hw Hos. assert (good (VF := config_core cv) float_repr (cv_device cv) r) as Hg by apply Hw.
  destruct (runs_calls (VF := config_core cv) (VFL := config_laws cv Hf) float_repr (cv_device cv) r os Hg Hos w Hw)
    as (l & r' & Hl & Hp & Hs & _).
  destruct (path_believed cv _ _ _ Hp Hg) as [Hg' Hall]. exists l, r'. cbv zeta. split_and!; try done.
  - intros d Hd. rewrite Forall_forall in Hall. apply (Hall _ Hd).
  - intros e. by apply entry_believed.
Qed.
End Laws.
