(* ===== verification/ConfigurationExamples.v ===== *)
(** The theorems of the control configuration on a concrete one: a WireGuard
    profile issued for a device and verified by it, and a journal that stages,
    applies and commits it. *)
From Stdlib Require Import ZArith Lia.
From S2P Require Import Prelude PyData Json JsonText Ipaddress ProfileConfig ProfileSpec Rns RnsModel Ack AckSize.
From S2P Require Import Journal JournalSpec JournalRuns JournalExamples.
From S2P Require Import Configuration ConfigurationSpec ConfigurationSafety.

Local Open Scope Z_scope.

(** ** A profile *)

Definition newline : pystr := [10].
Definition wg_key : pystr := b64encode (repeat 7 32).

Definition profile_text (key : pystr) : pystr :=
  join newline [py "[Interface] # the client"; py "PrivateKey=" ++ key; py "Address = 10.0.0.2/32, fd00::2/128"; py "DNS = 1.1.1.1";
    []; py "[Peer]"; py "PublicKey = " ++ wg_key; py "AllowedIPs = 0.0.0.0/0, ::/0"; py "Endpoint = 192.0.2.7:51820"; []].

Definition sample_sections : sections := match parse false false (profile_text wg_key) with Ok s => s | Raise _ => [] end.

Lemma profile_normal_form_witness :
  small_profile (render sample_sections) = Ok () ∧ negb (str_eqb (render sample_sections) (profile_text wg_key)) = true
  ∧ parse false false (render sample_sections) = Ok sample_sections.
Proof.
  assert (small_profile (render sample_sections) = Ok ()) as Hz by (vm_compute; reflexivity).
  split; [exact Hz|]. split; [vm_compute; reflexivity|].
  destruct (profile_normal_form false false (profile_text wg_key) sample_sections) as [H _]; [vm_compute; reflexivity|].
  rewrite H, Hz. reflexivity.
Defined.

(** What the profile parser refuses. *)
Example refused_profiles :
  List.map (λ t, is_ok (parse true true t))
    [profile_text wg_key; profile_text wg_key ++ py "PostUp = rm -rf /"; profile_text (py "AAAA");
     profile_text (wg_key ++ newline ++ py "MTU = 1279"); profile_text (wg_key ++ newline ++ py "Jc = 1"); profile_text [] ]
  = [true; false; false; false; false; false].
Proof. vm_compute. reflexivity. Qed.

(** Numbers are read by [int], which takes more than the decimal digits the
    tunnel engines read: a profile with such a port is accepted and kept as it
    is written. *)
Example underscored_number_accepted :
  (λ s, fget "MTU" (default [] (dget INTERFACE s))) <$> parse false false (profile_text (wg_key ++ newline ++ py "MTU = 1_400"))
  = Ok (Some (py "1_400")).
Proof. vm_compute. reflexivity. Qed.

(** ** Third-party code *)

Definition toy_seed (k : Z) : bytes := fit 32 (le_bytes 2 k).

#[export] Instance toy_ed25519 : Ed25519 := {|
  signing_key := Z;
  ed_public := toy_seed;
  ed_sign := λ k m, toy_sign (toy_seed k) m;
  ed_verify := λ p s m, str_eqb s (toy_sign p m);
|}.

#[export] Instance toy_ed25519_laws : Ed25519Laws.
Proof. split; intros; [by apply str_eqb_eq|apply fit_bytes..]. Qed.

(** Both readers are the standard library's; a state that cannot be written as
    text has no octets. *)
#[export] Instance toy_pydantic : Pydantic := {|
  model_json := json_loads_bytes;
  model_dump_json := λ c,
    if jsonable (configuration_value c) then match json_compact no_floats (configuration_value c) with Ok t => t | Raise _ => [-1] end else [-1];
|}.

#[export] Instance toy_pydantic_laws : PydanticLaws.
Proof.
  split; [intros; simpl in *; congruence|]. intros c b H. cbn [model_dump_json toy_pydantic] in H.
  destruct (jsonable (configuration_value c)) eqn:Hj; [|discriminate H].
  destruct (compact_loads no_floats _ Hj) as (t & Ht & Hl). rewrite Ht in H. pose proof (compact_ascii _ _ _ Hj Ht) as Ha.
  rewrite (utf8_ascii _ Ha) in H. injection H as <-. cbn [model_json toy_pydantic]. unfold json_loads_bytes.
  rewrite (json_decode_ascii _ Ha). cbn [mbind option_bind]. by rewrite Hl.
Qed.

#[export] Instance toy_cipher : RnsCipher.
Proof. split. intros p r m Hp _ Hm. cbn [encrypt toy_rns]. by apply Forall_app. Qed.

(** ** An issued configuration *)

Definition sample_configuration : control_configuration :=
  ControlConfiguration (py "cfg-1") 1 900 5000 (reference device) wg_key (py "0.2.9") None (key_id (toy_seed 5))
    [ControlGateway (py "gw") (py "192.0.2.7") 51820]
    [TransportProfile (py "main") (py "gw") WireGuard V1 (profile_text LOCAL_KEY)].

Definition sample_verifier : config_verifier := ConfigVerifier (toy_seed 5) device wg_key (0, 2, 9) false.

Definition issuer : @signing_key toy_ed25519 := 5.

Definition issued : bytes :=
  match issue_config no_floats sample_configuration (public_of device) issuer [1; 2; 3] with Ok raw => raw | Raise _ => [] end.

Lemma sample_valid : valid_configuration sample_configuration = Ok ().
Proof. vm_compute. reflexivity. Qed.

Definition sample_verified : verified control_configuration :=
  Verified (py "cfg-1") 1 None sample_configuration issued (tohex (toy_hash issued)).

Lemma issued_verifies_witness : verify sample_verifier issued 1000 = Ok sample_verified.
Proof.
  apply (issued_verifies no_floats sample_verifier sample_configuration issuer [1; 2; 3] issued 1000).
  - exact sample_valid.
  - repeat constructor.
  - apply fit_bytes.
  - vm_compute. reflexivity.
  - reflexivity.
  - reflexivity.
  - intros v. vm_compute. by intros [= <-].
  - repeat constructor. vm_compute. discriminate.
  - split; [apply Z.leb_le|apply Z.ltb_lt]; vm_compute; reflexivity.
Defined.

Lemma verified_authentic_witness :
  verify sample_verifier issued 1000 = Ok sample_verified ∧ trusted sample_verifier 1000 sample_configuration
  ∧ is_ok (verify sample_verifier issued 5000) = false.
Proof.
  assert (verify sample_verifier issued 1000 = Ok sample_verified) as H by (vm_compute; reflexivity).
  split; [exact H|]. split; [|vm_compute; reflexivity].
  apply (verified_authentic sample_verifier issued 1000 sample_verified H).
Defined.

(** ** A journal with the verifier *)

(** An authority that ever signed this one configuration. *)
Definition sample_plain : bytes := default [] (utf8_encode (model_dump_json sample_configuration)).
Definition sample_ciphertext : bytes := toy_public 11 ++ sample_plain.

Definition single_ed25519 : Ed25519 := {|
  signing_key := Z;
  ed_public := toy_seed;
  ed_sign := λ k m, toy_sign (toy_seed k) m;
  ed_verify := λ p s m, str_eqb m (DOMAIN ++ sample_ciphertext) && str_eqb s (toy_sign p m);
|}.

Lemma single_collision_free : collision_free (ED := single_ed25519) sample_verifier.
Proof.
  intros raw raw' now now' v v' H H' _.
  destruct (verify_Ok (ED := single_ed25519) _ _ _ _ H) as (_ & _ & _ & -> & -> & [plain S] & _).
  destruct (verify_Ok (ED := single_ed25519) _ _ _ _ H') as (_ & _ & _ & -> & -> & [plain' S'] & _).
  assert (vf_state v = vf_state v') as ->; [|done].
  assert (∀ raw plain c, signed_state (ED := single_ed25519) sample_verifier raw plain c →
    decrypt device sample_ciphertext = Some plain ∧ ∃ w, model_json plain = Some w ∧ configuration_fields w = Ok c) as Hd.
  { intros r p c [(outer & ct & sg & s & t & _ & _ & _ & _ & _ & Hv & Hdec) Hdoc]. split; [|done].
    cbn [ed_verify single_ed25519] in Hv. apply andb_true_iff in Hv as [Hv _]. apply str_eqb_eq, app_inv_head in Hv as ->. exact Hdec. }
  destruct (Hd _ _ _ S) as (D1 & w & W1 & C1), (Hd _ _ _ S') as (D2 & w' & W2 & C2).
  rewrite D1 in D2. injection D2 as ->. rewrite W1 in W2. injection W2 as ->. rewrite C1 in C2. by injection C2.
Qed.

#[export] Instance config_application : Application control_configuration Z := {|
  app_scope := Some (mret (), λ _, mret ());
  app_snapshot := λ _ a, (Ok toy_snapshot, a);
  app_reserve := Some (mret ());
  app_apply := λ v _ a, (Ok (), vf_revision v);
  app_healthy := λ _ a, (Ok true, a);
  app_rollback := λ _ _ _ a, (Ok (), 0);
|}.

#[export] Instance config_application_laws : ApplicationLaws control_configuration Z.
Proof. split. intros p a v a' H. injection H as <- <-. vm_compute. reflexivity. Qed.

Definition sample_core : Verifier control_configuration := config_core (ED := single_ed25519) sample_verifier.
Definition config_world : world Z := (initialize no_floats (fresh_world (λ _, Written))).2.

Lemma config_world_stored : stored (VF := sample_core) (A := Z) no_floats device config_world new_journal.
Proof.
  apply (initialize_stored (VF := sample_core)); [done|exact eq_refl|]. intros n z [= <-]. lia.
Qed.

(** A configuration is delivered between two pieces of garbage. *)
Definition deliveries_of (raw : bytes) : list operation :=
  [OReceive (PBytes [1]); OReceive (PBytes raw); OReceive (PBytes (123 :: raw))].

Lemma deliveries_of_octets raw : all_bytes raw → Forall delivers_octets (deliveries_of raw).
Proof.
  intros H. repeat apply Forall_cons_2; try apply Forall_nil_2; intros b Hb; injection Hb as <-; [by repeat constructor|done|by constructor].
Qed.

Lemma issued_bytes : all_bytes issued.
Proof. apply (bool_decide_unpack _). vm_compute. exact I. Qed.

Definition config_run : world Z :=
  (iterM (call (VF := sample_core) (A := Z) no_floats device) (deliveries_of issued) config_world).2.

Lemma journal_believes_witness :
  effect <$> wd_log config_run = ["idle"; "idle"; "staged"; "applying"; "apply"; "applied"; "idle"; "idle"]%string
  ∧ ∃ l r', wd_log config_run = wd_log config_world ++ l
    ∧ (∀ d, EApply d ∈ l → ∃ limit, believed (ED := single_ed25519) sample_verifier limit d)
    ∧ ∀ e, jn_committed r' = Some e ∨ jn_staged r' = Some e →
        believed (ED := single_ed25519) sample_verifier (jn_last_now r') (en_digest e).
Proof.
  split; [vm_compute; reflexivity|].
  destruct (journal_believes (ED := single_ed25519) (A := Z) no_floats sample_verifier config_world new_journal (deliveries_of issued)
    single_collision_free config_world_stored (deliveries_of_octets issued issued_bytes)) as (l & r' & H1 & _ & H2 & H3).
  exists l, r'. split; [exact H1|]. split; [exact H2|exact H3].
Defined.
