(* ===== verification/Fleet.v ===== *)
(** The fleet inventory (control/fleet.py): gateways and control ingresses as
    the operator's registry declares them, which registry may follow another,
    and the gateways proposed for a new assignment. *)
From Stdlib Require Import ZArith Lia.
From S2P Require Import Prelude PyData Json JsonText Ipaddress ProfileConfig Rns Ack Journal Configuration.

Local Open Scope Z_scope.

(** ** The data *)

Inductive node_state := Provisioning_ | Active | Draining | Disabled.
#[export] Instance node_state_eq_dec : EqDecision node_state.
Proof. solve_decision. Defined.

Record fleet_endpoint := FleetEndpoint {
  fe_transport : transport;
  fe_version : transport_version;
  fe_address : pystr;
  fe_port : Z;
}.

Record fleet_gateway := FleetGateway {
  fg_id : pystr;
  fg_domain : pystr;
  fg_country : pystr;
  fg_state : node_state;
  fg_endpoints : list fleet_endpoint;
  fg_pool : pystr;
  fg_max : Z;
  fg_weight : spec_float;
  fg_egress : spec_float;
}.

Record ingress := Ingress {
  in_id : pystr;
  in_domain : pystr;
  in_address : pystr;
  in_port : Z;
  in_public : pystr;
}.

Record fleet_registry := FleetRegistry {
  fr_revision : Z;
  fr_gateways : list fleet_gateway;
  fr_ingresses : list ingress;
}.

#[export] Instance fleet_endpoint_eq_dec : EqDecision fleet_endpoint.
Proof. solve_decision. Defined.
#[export] Instance fleet_gateway_eq_dec : EqDecision fleet_gateway.
Proof. solve_decision. Defined.
#[export] Instance ingress_eq_dec : EqDecision ingress.
Proof. solve_decision. Defined.
#[export] Instance fleet_registry_eq_dec : EqDecision fleet_registry.
Proof. solve_decision. Defined.

(** What an authenticated collector reports of a gateway. *)
Record observation := Observation {
  ob_gateway : pystr;
  ob_revision : Z;
  ob_at : Z;
  ob_ready : list transport;
  ob_allocated : Z;
  ob_cpu : spec_float;
  ob_memory : spec_float;
  ob_tx : spec_float;
}.

Definition MAX_REGISTRY_BYTES : Z := 262144.

(** The writer of the registry's models (pydantic). *)
Class FleetJson := {
  registry_dump_json : fleet_registry → pystr;
  node_dump_json : fleet_gateway → pystr;
}.

(** ** Addresses *)

(** A network: its address and prefix length. *)
Definition in_network (a : ip_addr) (x : ip_addr * Z) : bool :=
  match a, x with
  | IPv4 n, (IPv4 m, p) => n / 2 ^ (32 - p) =? m / 2 ^ (32 - p)
  | IPv6 n _, (IPv6 m _, p) => n / 2 ^ (128 - p) =? m / 2 ^ (128 - p)
  | _, _ => false
  end.

(** [ipaddress]: the networks that are not global, and the exceptions in them
    (Python 3.13 and 3.14). *)
Definition PRIVATE_NETWORKS : list (ip_addr * Z) := Eval vm_compute in
  omap (λ s, ip_network (py s))
    ["0.0.0.0/8"; "10.0.0.0/8"; "127.0.0.0/8"; "169.254.0.0/16"; "172.16.0.0/12"; "192.0.0.0/24"; "192.0.0.170/31"; "192.0.2.0/24";
     "192.168.0.0/16"; "198.18.0.0/15"; "198.51.100.0/24"; "203.0.113.0/24"; "240.0.0.0/4"; "255.255.255.255/32";
     "::1/128"; "::/128"; "::ffff:0:0/96"; "64:ff9b:1::/48"; "100::/64"; "2001::/23"; "2001:db8::/32"; "2002::/16"; "3fff::/20";
     "fc00::/7"; "fe80::/10"]%string.
Definition PRIVATE_EXCEPTIONS : list (ip_addr * Z) := Eval vm_compute in
  omap (λ s, ip_network (py s))
    ["192.0.0.9/32"; "192.0.0.10/32"; "2001:1::1/128"; "2001:1::2/128"; "2001:3::/32"; "2001:4:112::/48"; "2001:20::/28";
     "2001:30::/28"]%string.
Definition SHARED_NETWORK : ip_addr * Z := Eval vm_compute in default (IPv4 0, 0) (ip_network (py "100.64.0.0/10")).

Definition is_private (a : ip_addr) : bool := existsb (in_network a) PRIVATE_NETWORKS && negb (existsb (in_network a) PRIVATE_EXCEPTIONS).
Definition is_global (a : ip_addr) : bool := negb (in_network a SHARED_NETWORK) && negb (is_private a).
Definition ipv4_mapped (a : ip_addr) : bool := match a with IPv6 n _ => n / 2 ^ 32 =? 65535 | IPv4 _ => false end.
Definition has_scope (a : ip_addr) : bool := match a with IPv6 _ (Some _) => true | _ => false end.

(** [public_address(value)]; the classes of a mapped address do not matter, as
    it is refused. *)
Definition public_address (s : pystr) : bool :=
  match ip_address s with
  | Some a => str_eqb (ip_text a) s && is_global a && negb (is_multicast a) && negb (has_scope a) && negb (ipv4_mapped a)
  | None => false
  end.

(** [ip_network(node.tunnel_pool)] of a validated pool: base and prefix. *)
Definition pool_of (s : pystr) : option (Z * Z) :=
  match ip_network s with Some (IPv4 n, p) => Some (n, p) | _ => None end.
Definition pool_size (p : Z) : Z := 2 ^ (32 - p).
Definition PRIVATE_POOLS : list (ip_addr * Z) := Eval vm_compute in
  omap (λ s, ip_network (py s)) ["10.0.0.0/8"; "172.16.0.0/12"; "192.168.0.0/16"]%string.

(** [Gateway.valid_pool]; a network of prefix 16 or more is in one of the three
    when its address is. *)
Definition valid_pool (s : pystr) : bool :=
  match pool_of s with
  | Some (n, p) =>
      in_range 16 29 p && str_eqb (network_text (IPv4 n, p)) s && existsb (in_network (IPv4 n)) PRIVATE_POOLS
  | None => false
  end.

Definition overlaps (a b : Z * Z) : bool :=
  (a.1 <? b.1 + pool_size b.2) && (b.1 <? a.1 + pool_size a.2).

(** ** Validation *)

Definition fgt (a b : spec_float) : bool := flt b a.
Definition zero_float : spec_float := S754_zero false.
Definition float_in_range (lo hi f : spec_float) : bool := isfinite f && fle lo f && fle f hi.

Definition valid_country (s : pystr) : bool := Nat.eqb (length s) 2 && forallb (in_range 97 122) s.

(** The field constraints of [Endpoint] and [version_matches]. *)
Definition valid_fleet_endpoint (e : fleet_endpoint) : bool :=
  public_address (fe_address e) && in_range 1 65535 (fe_port e) && expected_version (fe_transport e) (fe_version e).

(** The field constraints of [Gateway] and its validators. *)
Definition valid_fleet_gateway (g : fleet_gateway) : bool :=
  identifier (fg_id g) && identifier (fg_domain g) && valid_country (fg_country g)
  && in_range 1 8 (zlen (fg_endpoints g)) && forallb valid_fleet_endpoint (fg_endpoints g)
  && valid_pool (fg_pool g) && in_range 1 1000000 (fg_max g)
  && fgt (fg_weight g) zero_float && float_in_range zero_float (float_of_Z 1000) (fg_weight g)
  && fgt (fg_egress g) zero_float && float_in_range zero_float (float_of_Z 1000000000) (fg_egress g)
  && match pool_of (fg_pool g) with Some (_, p) => fg_max g <=? pool_size p - 3 | None => false end.

(** The field constraints of [Ingress] and [valid_provider]. *)
Definition valid_ingress (i : ingress) : bool :=
  identifier (in_id i) && identifier (in_domain i) && public_address (in_address i) && in_range 1 65535 (in_port i)
  && match b64decode (in_public i) with
     | Some raw => (zlen raw =? 64) && existsb (λ b, negb (b =? 0)) raw && str_eqb (b64encode raw) (in_public i)
     | None => false
     end.

(** [Endpoint.socket] *)
Definition socket_of (e : fleet_endpoint) : bool * pystr * Z := (bool_decide (fe_transport e = VlessReality), fe_address e, fe_port e).
Definition sockets_of (r : fleet_registry) : list (bool * pystr * Z) :=
  List.concat (List.map (λ g, socket_of <$> fg_endpoints g) (fr_gateways r))
  ++ ((λ i, (true, in_address i, in_port i)) <$> fr_ingresses r).

(** No network of the list overlaps one before it. *)
Fixpoint disjoint_pools (l : list (Z * Z)) : bool :=
  match l with [] => true | x :: l => forallb (λ y, negb (overlaps x y)) l && disjoint_pools l end.

(** The field constraints of [Registry] and [unique_inventory]. *)
Definition valid_registry (r : fleet_registry) : bool :=
  positive (fr_revision r) && in_range 1 256 (zlen (fr_gateways r)) && in_range 1 16 (zlen (fr_ingresses r))
  && forallb valid_fleet_gateway (fr_gateways r) && forallb valid_ingress (fr_ingresses r)
  && bool_decide (NoDup (fg_id <$> fr_gateways r)) && bool_decide (NoDup (in_id <$> fr_ingresses r))
  && disjoint_pools (omap (λ g, pool_of (fg_pool g)) (fr_gateways r))
  && bool_decide (NoDup (sockets_of r)).

(** ** Reading a registry *)

(** A strict float takes an integer, and never a bool. *)
Definition float_in (name : string) (d : list (pyval * pyval)) : result spec_float :=
  v ← item name d;
  match v with PFloat f => Ok f | PInt n => Ok (float_of_Z n) | _ => Raise bad_field end.

Definition state_name (s : node_state) : pystr :=
  py (match s with Provisioning_ => "provisioning" | Active => "active" | Draining => "draining" | Disabled => "disabled" end).
Definition state_of (s : pystr) : option node_state :=
  List.find (λ t, str_eqb (state_name t) s) [Provisioning_; Active; Draining; Disabled].

Definition fleet_endpoint_fields (v : pyval) : result fleet_endpoint :=
  d ← model_of ["transport"; "version"; "address"; "port"] v;
  t ← text_in "transport" d; t ← of_option bad_field (transport_of t);
  ver ← text_in "version" d; ver ← of_option bad_field (version_of ver);
  address ← text_in "address" d; port ← int_in "port" d;
  Ok (FleetEndpoint t ver address port).

Definition fleet_gateway_names : list string :=
  ["gateway_id"; "failure_domain"; "country"; "state"; "endpoints"; "tunnel_pool"; "max_devices"; "egress_budget_mbps"]%string.
(** [weight] has a default; every other field is required. *)
Definition fleet_gateway_fields (v : pyval) : result fleet_gateway :=
  d ← of_option bad_field (as_dict v);
  require (keys_are fleet_gateway_names d || keys_are ("weight" :: fleet_gateway_names)%string d) bad_field;;
  id ← text_in "gateway_id" d; domain ← text_in "failure_domain" d; country ← text_in "country" d;
  state ← text_in "state" d; state ← of_option bad_field (state_of state);
  endpoints ← list_in "endpoints" d; endpoints ← mapR fleet_endpoint_fields endpoints;
  pool ← text_in "tunnel_pool" d; max ← int_in "max_devices" d;
  weight ← match lookup_str "weight" d with None => Ok (float_of_Z 1) | Some _ => float_in "weight" d end;
  egress ← float_in "egress_budget_mbps" d;
  Ok (FleetGateway id domain country state endpoints pool max weight egress).

Definition ingress_fields (v : pyval) : result ingress :=
  d ← model_of ["ingress_id"; "failure_domain"; "address"; "port"; "provider_public"] v;
  id ← text_in "ingress_id" d; domain ← text_in "failure_domain" d; address ← text_in "address" d;
  port ← int_in "port" d; public ← text_in "provider_public" d;
  Ok (Ingress id domain address port public).

Definition registry_fields (v : pyval) : result fleet_registry :=
  d ← model_of ["schema_version"; "revision"; "gateways"; "control_ingresses"] v;
  schema ← int_in "schema_version" d; require (schema =? 1) bad_field;;
  revision ← int_in "revision" d;
  gateways ← list_in "gateways" d; gateways ← mapR fleet_gateway_fields gateways;
  ingresses ← list_in "control_ingresses" d; ingresses ← mapR ingress_fields ingresses;
  Ok (FleetRegistry revision gateways ingresses).

Section Registry.
Context {PY : Pydantic} (float_repr : spec_float → pystr).

(** [load_registry(raw)] *)
Definition load_registry (raw : bytes) : result fleet_registry :=
  require ((0 <? zlen raw) && (zlen raw <=? MAX_REGISTRY_BYTES)) (ValueError "invalid registry size");;
  parsed ← of_option (ValueError "JSONDecodeError") (json_decode raw ≫= json_loads_with unique false);
  text ← json_default float_repr parsed;
  octets ← of_option (ValueError "UnicodeEncodeError") (utf8_encode text);
  v ← of_option bad_field (model_json octets);
  r ← registry_fields v;
  require (valid_registry r) bad_field;;
  Ok r.
End Registry.

(** ** Succession *)

Definition find_node (id : pystr) (r : fleet_registry) : option fleet_gateway :=
  dget id (dict_of ((λ g, (fg_id g, g)) <$> fr_gateways r)).

Definition ingress_binding (i : ingress) : pystr * Z * pystr := (in_address i, in_port i, in_public i).

(** [validate_update(previous, candidate)] *)
Definition validate_update (previous candidate : fleet_registry) : result fleet_registry :=
  raise_if (fr_revision candidate <=? fr_revision previous) (ValueError "registry revision must increase");;
  require (forallb (λ old,
    match find_node (fg_id old) candidate with
    | Some new => str_eqb (fg_pool new) (fg_pool old) && str_eqb (fg_domain new) (fg_domain old)
    | None => false
    end) (fr_gateways previous)) (ValueError "node removal, relocation or pool change requires lease migration");;
  require (existsb (λ i, bool_decide (ingress_binding i ∈ ingress_binding <$> fr_ingresses candidate)) (fr_ingresses previous))
    (ValueError "control ingress rotation requires bootstrap overlap");;
  Ok candidate.

(** ** Proposals *)

(** [sorted(l)] by an order *)
Fixpoint insert_by {A} (le : A → A → bool) (x : A) (l : list A) : list A :=
  match l with [] => [x] | y :: l' => if le x y then x :: l else y :: insert_by le x l' end.
Definition sort_by {A} (le : A → A → bool) (l : list A) : list A := foldr (insert_by le) [] l.

(** [math.log], the C library's. *)
Class LibM := { flog : spec_float → spec_float }.

Definition fdiv (a b : spec_float) : spec_float := SFdiv prec64 emax64 a b.
Definition fsub (a b : spec_float) : spec_float := SFsub prec64 emax64 a b.
Definition fmax (a b : spec_float) : spec_float := if flt a b then b else a.
Definition fmin (a b : spec_float) : spec_float := if flt b a then b else a.
Definition is_zero (f : spec_float) : bool := match f with S754_zero _ => true | _ => false end.

(** What the caller asks for, as the annotated parameters have it. *)
Record admission := Admission {
  ad_device : pystr;
  ad_country : option pystr;
  ad_transport : pystr;
  ad_version : pystr;
  ad_families : list Z;
}.

(** The pairs of transport and version that exist. *)
Definition supported (transport version : pystr) : bool :=
  match transport_of transport, version_of version with
  | Some t, Some v => expected_version t v
  | _, _ => false
  end.
Definition valid_families (l : list Z) : bool := negb (bool_decide (l = [])) && forallb (λ v, (v =? 4) || (v =? 6)) l.

Definition ip_family (s : pystr) : Z := match ip_address s with Some (IPv4 _) => 4 | Some (IPv6 _ _) => 6 | None => 0 end.
Definition offers (a : admission) (g : fleet_gateway) : bool :=
  existsb (λ e, str_eqb (transport_name (fe_transport e)) (ad_transport a) && str_eqb (version_name (fe_version e)) (ad_version a)
                && existsb (Z.eqb (ip_family (fe_address e))) (ad_families a)) (fg_endpoints g).

(** [samples[sample.gateway_id] = sample], each gateway once. *)
Definition samples_of (l : list observation) : result (list (pystr * observation)) :=
  foldR (λ d o, raise_if (dmem (ob_gateway o) d) (ValueError "ambiguous telemetry");; Ok (dset (ob_gateway o) o d)) [] l.

(** The sample of a gateway that may be proposed or kept. *)
Definition fresh_sample (r : fleet_registry) (a : admission) (now max_age : Z) (samples : list (pystr * observation)) (g : fleet_gateway)
    : option observation :=
  if (match ad_country a with Some c => str_eqb (fg_country g) c | None => true end) && offers a g then
    o ← dget (fg_id g) samples;
    if (ob_revision o =? fr_revision r) && (0 <=? now - ob_at o) && (now - ob_at o <=? max_age)
       && existsb (λ t, str_eqb (transport_name t) (ad_transport a)) (ob_ready o)
       && bool_decide (fg_state g = Active ∨ fg_state g = Draining)
    then Some o else None
  else None.

Definition pressure (g : fleet_gateway) (o : observation) : spec_float :=
  fmax (fmax (fdiv (ob_cpu o) (float_of_Z 100)) (fdiv (ob_memory o) (float_of_Z 100))) (fdiv (ob_tx o) (fg_egress g)).
Definition LIMIT : spec_float := Eval vm_compute in float_of_decimal false 85 (-2).

(** Room for one more device, with the reserve of load. *)
Definition has_room (g : fleet_gateway) (o : observation) : bool :=
  bool_decide (fg_state g = Active) && negb (fg_max g <=? ob_allocated o) && negb (fle LIMIT (pressure g o)).

Section Rank.
Context {RN : Rns} {LM : LibM} (float_repr : spec_float → pystr).

(** The integer of six octets of the hash, as a fraction between zero and one. *)
Definition unit_of (device gateway : pystr) : result spec_float :=
  text ← json_compact float_repr (PList [PStr device; PStr gateway]);
  raw ← of_option (ValueError "UnicodeEncodeError") (utf8_encode text);
  Ok (truediv (le_int (reverse (take 6 (full_hash raw))) + 1) (2 ^ 48 + 1)).

Definition ZeroDivisionError : exn := RuntimeError "ZeroDivisionError".

Definition score (device : pystr) (g : fleet_gateway) (o : observation) : result spec_float :=
  let one := float_of_Z 1 in
  let headroom := fmin (fsub one (pressure g o)) (fsub one (truediv (ob_allocated o) (fg_max g))) in
  u ← unit_of device (fg_id g);
  let d := fmul (fg_weight g) headroom in
  raise_if (is_zero d) ZeroDivisionError;;
  Ok (fdiv (SFopp (flog u)) d).

Definition ranked_le (a b : spec_float * pystr) : bool :=
  flt a.1 b.1 || (fle a.1 b.1 && fle b.1 a.1 && str_leb a.2 b.2).

(** [rank_gateways(registry, observations, ...)] *)
Definition rank_gateways (r : fleet_registry) (observations : list observation) (a : admission) (now : Z)
    (current : option pystr) (max_age : Z) : result (list pystr) :=
  require ((0 <=? now) && in_range 1 300 max_age && in_range 1 128 (zlen (ad_device a)) && valid_families (ad_families a)
           && supported (ad_transport a) (ad_version a)) (ValueError "invalid admission request");;
  samples ← samples_of observations;
  '(ranked, retained) ← foldR (λ '(ranked, retained) g,
      match fresh_sample r a now max_age samples g with
      | None => Ok (ranked, retained)
      | Some o =>
          if bool_decide (current = Some (fg_id g)) then Ok (ranked, Some (fg_id g))
          else if has_room g o then s ← score (ad_device a) g o; Ok (ranked ++ [(s, fg_id g)], retained)
          else Ok (ranked, retained)
      end) ([], None) (fr_gateways r);
  Ok (match retained with Some id => [id] | None => [] end ++ (snd <$> sort_by ranked_le ranked)).
End Rank.
