(* ===== verification/FleetStore.v ===== *)
(** The controller's store of leases (control/fleet_store.py) and the proof-gated
    reservation over it (control/fleet_access.py): registries, access grants,
    leases with their addresses, work for the gateways and its claims, as tables
    of one database whose transactions are serialized. *)
From Stdlib Require Import ZArith Lia.
From S2P Require Import Prelude PyData Json JsonText Ipaddress ProfileConfig Rns Ack DeviceProof Journal Configuration Fleet.

Local Open Scope Z_scope.

(** ** The tables *)

Inductive lease_state := Reserved | Ready | Retiring | Released.
#[export] Instance lease_state_eq_dec : EqDecision lease_state.
Proof. solve_decision. Defined.

(** A row of [leases]; its identifier is the key. *)
Record lease := Lease {
  ls_device : pystr;
  ls_gateway : pystr;
  ls_country : pystr;
  ls_transport : pystr;
  ls_version : pystr;
  ls_address : pystr;
  ls_registry : Z;
  ls_access : Z;
  ls_created : Z;
  ls_expires : Z;
  ls_state : lease_state;
  ls_generation : Z;
}.

Record access_row := AccessRow {
  ac_public : pystr;
  ac_wg : pystr;
  ac_revision : Z;
  ac_expires : Z;
  ac_max : Z;
  ac_revoked : bool;
}.

Record request_row := RequestRow { rq_fingerprint : pystr; rq_lease : pystr }.
Record fleet_event := FleetEvent { fv_at : Z; fv_kind : string; fv_subject : pystr }.
Record reservation_challenge := ReservationChallenge { rc_device : pystr; rc_revision : Z; rc_request : pystr; rc_expires : Z }.
Record job := Job { jb_token : pystr; jb_until : Z; jb_attempts : Z; jb_next : Z; jb_result : pystr }.
Record publication := Publication {
  pb_revision : Z;
  pb_signer : pystr;
  pb_policy : pystr;
  pb_previous : option pystr;
  pb_envelope : bytes;
}.

#[export] Instance lease_eq_dec : EqDecision lease.
Proof. solve_decision. Defined.
#[export] Instance access_row_eq_dec : EqDecision access_row.
Proof. solve_decision. Defined.

(** Requests have the device and its request name as key, jobs the lease and its
    generation, publications the lease and the access revision. *)
Record fleet_db := FleetDb {
  fd_schema : Z;
  fd_now : Z;
  fd_registries : list (Z * pystr);
  fd_access : list (pystr * access_row);
  fd_leases : list (pystr * lease);
  fd_requests : list ((pystr * pystr) * request_row);
  fd_events : list fleet_event;
  fd_challenges : list (pystr * reservation_challenge);
  fd_jobs : list ((pystr * Z) * job);
  fd_authority : option pystr;
  fd_counters : list (pystr * Z);
  fd_publications : list ((pystr * Z) * publication);
}.

Definition set_clock x (s : fleet_db) := FleetDb (fd_schema s) x (fd_registries s) (fd_access s) (fd_leases s) (fd_requests s) (fd_events s) (fd_challenges s) (fd_jobs s) (fd_authority s) (fd_counters s) (fd_publications s).
Definition set_registries x (s : fleet_db) := FleetDb (fd_schema s) (fd_now s) x (fd_access s) (fd_leases s) (fd_requests s) (fd_events s) (fd_challenges s) (fd_jobs s) (fd_authority s) (fd_counters s) (fd_publications s).
Definition set_grants x (s : fleet_db) := FleetDb (fd_schema s) (fd_now s) (fd_registries s) x (fd_leases s) (fd_requests s) (fd_events s) (fd_challenges s) (fd_jobs s) (fd_authority s) (fd_counters s) (fd_publications s).
Definition set_leases x (s : fleet_db) := FleetDb (fd_schema s) (fd_now s) (fd_registries s) (fd_access s) x (fd_requests s) (fd_events s) (fd_challenges s) (fd_jobs s) (fd_authority s) (fd_counters s) (fd_publications s).
Definition set_requests x (s : fleet_db) := FleetDb (fd_schema s) (fd_now s) (fd_registries s) (fd_access s) (fd_leases s) x (fd_events s) (fd_challenges s) (fd_jobs s) (fd_authority s) (fd_counters s) (fd_publications s).
Definition set_events x (s : fleet_db) := FleetDb (fd_schema s) (fd_now s) (fd_registries s) (fd_access s) (fd_leases s) (fd_requests s) x (fd_challenges s) (fd_jobs s) (fd_authority s) (fd_counters s) (fd_publications s).
Definition set_nonces x (s : fleet_db) := FleetDb (fd_schema s) (fd_now s) (fd_registries s) (fd_access s) (fd_leases s) (fd_requests s) (fd_events s) x (fd_jobs s) (fd_authority s) (fd_counters s) (fd_publications s).
Definition set_jobs x (s : fleet_db) := FleetDb (fd_schema s) (fd_now s) (fd_registries s) (fd_access s) (fd_leases s) (fd_requests s) (fd_events s) (fd_challenges s) x (fd_authority s) (fd_counters s) (fd_publications s).
Definition set_authority x (s : fleet_db) := FleetDb (fd_schema s) (fd_now s) (fd_registries s) (fd_access s) (fd_leases s) (fd_requests s) (fd_events s) (fd_challenges s) (fd_jobs s) x (fd_counters s) (fd_publications s).
Definition set_published c x (s : fleet_db) := FleetDb (fd_schema s) (fd_now s) (fd_registries s) (fd_access s) (fd_leases s) (fd_requests s) (fd_events s) (fd_challenges s) (fd_jobs s) (fd_authority s) c x.
Definition set_schema x (s : fleet_db) := FleetDb x (fd_now s) (fd_registries s) (fd_access s) (fd_leases s) (fd_requests s) (fd_events s) (fd_challenges s) (fd_jobs s) (fd_authority s) (fd_counters s) (fd_publications s).

Definition MAX_INT : Z := 2 ^ 63 - 1.

(** [raise LeaseRejected(code)] unless the condition holds. *)
Definition admit_if {S} (b : bool) (code : string) : M S () := lift (require b (LeaseRejected code)).
(** A row that must be there. *)
Definition must {S A} (o : option A) (code : string) : M S A := lift (of_option (LeaseRejected code) o).

(** [positive(value, maximum)] of an integer *)
Definition positive_to (maximum z : Z) : M fleet_db () := admit_if (in_range 1 maximum z) "invalid-integer".

(** [_transaction(...)]: the clock is read under the lock. *)
Definition fleet_transaction {A} (migrating : bool) (now : Z) (m : M fleet_db A) : M fleet_db A := transaction (
  admit_if ((0 <=? now) && (now <? 2 ^ 63)) "invalid-clock";;
  s ← get_state;
  admit_if (((fd_schema s =? 3) || (migrating && in_range 1 2 (fd_schema s))) && (fd_now s <=? now)) "state-or-clock";;
  modify (set_clock now);;
  m).

(** [_event(db, now, kind, subject)] *)
Definition log_event (now : Z) (kind : string) (subject : pystr) : M fleet_db () :=
  modify (λ s, set_events (fd_events s ++ [FleetEvent now kind subject]) s).

(** [_lease(db, lease_id)] *)
Definition get_lease (id : pystr) : M fleet_db lease := s ← get_state; must (dget id (fd_leases s)) "lease-missing".

Definition live (l : lease) : bool := negb (bool_decide (ls_state l = Released)).
Definition current_lease (l : lease) : bool := bool_decide (ls_state l = Reserved ∨ ls_state l = Ready).
Definition pending_lease (l : lease) : bool := bool_decide (ls_state l = Reserved ∨ ls_state l = Retiring).
Definition with_state (st : lease_state) (generation : Z) (l : lease) : lease :=
  Lease (ls_device l) (ls_gateway l) (ls_country l) (ls_transport l) (ls_version l) (ls_address l) (ls_registry l) (ls_access l)
    (ls_created l) (ls_expires l) st generation.
Definition put_lease (id : pystr) (l : lease) : M fleet_db () := modify (λ s, set_leases (dset id l (fd_leases s)) s).

(** [_authorized(db, device, now)] *)
Definition in_force (now : Z) (a : access_row) : bool := negb (ac_revoked a) && negb (ac_expires a <=? now).
Definition authorized (device : pystr) (now : Z) : M fleet_db access_row :=
  s ← get_state;
  a ← must (dget device (fd_access s)) "access-denied";
  admit_if (in_force now a) "access-denied";;
  mret a.

(** [_retire(db, lease_id, now)] *)
Definition retire_lease (id : pystr) (now : Z) : M fleet_db lease :=
  l ← get_lease id;
  (if current_lease l then put_lease id (with_state Retiring (ls_generation l + 1) l);; log_event now "retiring" id else mret ());;
  get_lease id.

(** [for row in rows: self._retire(db, row, now)], the rows fetched before. *)
Fixpoint retire_all (ids : list pystr) (now : Z) : M fleet_db (list (pystr * lease)) :=
  match ids with
  | [] => mret []
  | id :: ids => l ← retire_lease id now; ls ← retire_all ids now; mret ((id, l) :: ls)
  end.

(** The identifiers of the leases a query selects. *)
Definition ids_where (p : lease → bool) (s : fleet_db) : list pystr := fst <$> List.filter (λ x, p x.2) (fd_leases s).

Section Store.
Context {RN : Rns} {PY : Pydantic} {FJ : FleetJson} {LM : LibM} (float_repr : spec_float → pystr).

Abbreviation load_registry := (load_registry float_repr).
Abbreviation rank_gateways := (rank_gateways float_repr).

(** The registry of the greatest revision. *)
Definition newest_text (l : list (Z * pystr)) : option (Z * pystr) :=
  foldl (λ best r, match best with Some b => if b.1 <? r.1 then Some r else best | None => Some r end) None l.
Definition read_registry (text : pystr) : result fleet_registry :=
  raw ← of_option (ValueError "UnicodeEncodeError") (utf8_encode text); load_registry raw.
(** [_registry(db)] *)
Definition latest_registry : M fleet_db fleet_registry :=
  s ← get_state;
  row ← must (newest_text (fd_registries s)) "registry-missing";
  lift (read_registry row.2).

(** [initialize(registry)] in a directory that does not exist. *)
Definition initialize_fleet (r : fleet_registry) (now : Z) : result fleet_db :=
  r ← read_registry (registry_dump_json r);
  require ((0 <=? now) && (now <? 2 ^ 63)) (LeaseRejected "invalid-clock");;
  Ok (FleetDb 3 now [(fr_revision r, registry_dump_json r)] [] [] []
        [FleetEvent now "registry" (json_int (fr_revision r))] [] [] None [] []).

(** What the update of one node does to its leases. *)
Definition update_node (previous : fleet_registry) (now : Z) (node : fleet_gateway) : M fleet_db () :=
  match find_node (fg_id node) previous with
  | None => mret ()
  | Some old =>
      s ← get_state;
      admit_if (bool_decide (fg_endpoints node = fg_endpoints old)
                || negb (existsb (λ x, str_eqb (ls_gateway x.2) (fg_id node) && live x.2) (fd_leases s))) "endpoint-migration-required";;
      (if bool_decide (fg_state node = Disabled ∨ fg_state node = Provisioning_)
       then retire_all (ids_where (λ l, str_eqb (ls_gateway l) (fg_id node) && current_lease l) s) now;; mret ()
       else mret ())
  end.

(** [install_registry(candidate)]; the revision is the table's key. *)
Definition install_registry (candidate : fleet_registry) (now : Z) : M fleet_db () :=
  candidate ← lift (read_registry (registry_dump_json candidate));
  fleet_transaction false now (
    previous ← latest_registry;
    if bool_decide (candidate = previous) then mret ()
    else
      lift (validate_update previous candidate);;
      iterM (update_node previous now) (fr_gateways candidate);;
      s ← get_state;
      (if dmem (fr_revision candidate) (fd_registries s) then raise SqliteError else mret ());;
      modify (λ s, set_registries (fd_registries s ++ [(fr_revision candidate, registry_dump_json candidate)]) s);;
      log_event now "registry" (json_int (fr_revision candidate))).

(** A row with the same unique column. *)
Definition taken_keys (public wg : pystr) (l : list (pystr * access_row)) : bool :=
  existsb (λ x, str_eqb (ac_public x.2) public || str_eqb (ac_wg x.2) wg) l.

(** [set_access(device=..., ...)] *)
Definition set_access (device public wg : pystr) (revision expires_at max_leases : Z) (revoked : bool) (now : Z) : M fleet_db () :=
  positive_to MAX_INT revision;; positive_to MAX_INT expires_at;; positive_to 8 max_leases;;
  raw ← lift (decode_field (PStr public) 64);
  wg_bytes ← lift (decode_field (PStr wg) 32);
  raw ← lift (public_identity raw);
  admit_if (str_eqb (tohex (identity_hash raw)) device && existsb (λ b, negb (b =? 0)) wg_bytes) "binding-mismatch";;
  let row := AccessRow public wg revision expires_at max_leases revoked in
  fleet_transaction false now (
    s ← get_state;
    let old := dget device (fd_access s) in
    if bool_decide (old = Some row) then mret ()
    else
      admit_if (match old with
                | Some o => str_eqb (ac_public o) public && str_eqb (ac_wg o) wg && negb (revision <=? ac_revision o)
                | None => true
                end) "access-revision-or-binding";;
      admit_if (negb (expires_at <=? now) || revoked) "expired-access";;
      (match old with None => if taken_keys public wg (fd_access s) then raise SqliteError else mret () | Some _ => mret () end);;
      modify (λ s, set_grants (dset device row (fd_access s)) s);;
      retire_all (ids_where (λ l, str_eqb (ls_device l) device && current_lease l && (revoked || (expires_at <? ls_expires l))) s) now;;
      log_event now (if revoked then "access-revoked" else "access") device).

(** ** Reservation *)

(** What a reservation asks for, as the annotated parameters have it. *)
Record reservation := Reservation {
  rv_request : pystr;
  rv_revision : Z;
  rv_country : pystr;
  rv_transport : pystr;
  rv_version : pystr;
  rv_lifetime : Z;
  rv_families : list Z;
}.

Definition valid_request (r : reservation) : bool :=
  identifier (rv_request r) && valid_country (rv_country r) && supported (rv_transport r) (rv_version r) && valid_families (rv_families r).

(** [sorted(set(families))] of fours and sixes *)
Definition family_set (l : list Z) : list Z := List.filter (λ v, existsb (Z.eqb v) l) [4; 6].
Definition fingerprint (r : reservation) : result pystr :=
  text ← json_compact float_repr (PList [PStr (rv_country r); PStr (rv_transport r); PStr (rv_version r); PInt (rv_lifetime r);
    PList (PInt <$> family_set (rv_families r))]);
  raw ← of_option (ValueError "UnicodeEncodeError") (utf8_encode text);
  Ok (tohex (full_hash raw)).

(** The leases that are not released, by gateway. *)
Definition live_count (gateway : pystr) (l : list (pystr * lease)) : Z :=
  zlen (List.filter (λ x, live x.2 && str_eqb (ls_gateway x.2) gateway) l).
(** A sample with the store's own reservations counted. *)
Definition counted (l : list (pystr * lease)) (o : observation) : observation :=
  Observation (ob_gateway o) (ob_revision o) (ob_at o) (ob_ready o) (Z.max (ob_allocated o) (live_count (ob_gateway o) l))
    (ob_cpu o) (ob_memory o) (ob_tx o).

Definition host_route (n : Z) : pystr := ipv4_text n ++ py "/32".
(** The first address of the pool that no lease of the gateway holds. *)
Definition free_address (pool : Z * Z) (used : list pystr) : option pystr :=
  host_route <$> List.find (λ n, negb (bool_decide (host_route n ∈ used)))
    (seqZ (pool.1 + 2) (pool_size pool.2 - 3)).

Definition same_scope (r : reservation) (l : lease) : bool :=
  str_eqb (ls_country l) (rv_country r) && str_eqb (ls_transport l) (rv_transport r) && str_eqb (ls_version l) (rv_version r).

(** The unique indexes over the leases that are not released. *)
Definition same_slot (a b : lease) : bool :=
  live a && live b
  && (str_eqb (ls_gateway a) (ls_gateway b) && (str_eqb (ls_address a) (ls_address b) || str_eqb (ls_device a) (ls_device b))
      || str_eqb (ls_device a) (ls_device b) && str_eqb (ls_country a) (ls_country b)
         && str_eqb (ls_transport a) (ls_transport b) && str_eqb (ls_version a) (ls_version b)).

(** [INSERT INTO leases] with the keys of the table. *)
Definition insert_lease (id : pystr) (l : lease) : M fleet_db () :=
  s ← get_state;
  (if dmem id (fd_leases s) || existsb (λ x, same_slot x.2 l) (fd_leases s) || negb (dmem (ls_registry l) (fd_registries s))
      || negb (dmem (ls_device l) (fd_access s))
   then raise SqliteError else mret ());;
  put_lease id l.

(** The loop over the proposed gateways: the first with an address left. *)
Definition place (registry : fleet_registry) (leases : list (pystr * lease)) (used_gateways : list pystr) (id : pystr)
    : result (option (pystr * pystr)) :=
  node ← of_option KeyError (find_node id registry);
  if bool_decide (id ∈ used_gateways) || (fg_max node <=? live_count id leases) then Ok None
  else
    pool ← of_option (ValueError "pool") (pool_of (fg_pool node));
    Ok ((λ a, (id, a)) <$> free_address pool
      (List.map (λ x, ls_address x.2) (List.filter (λ x, live x.2 && str_eqb (ls_gateway x.2) id) leases))).
Fixpoint first_place (registry : fleet_registry) (leases : list (pystr * lease)) (used_gateways candidates : list pystr)
    : result (option (pystr * pystr)) :=
  match candidates with
  | [] => Ok None
  | id :: rest =>
      found ← place registry leases used_gateways id;
      match found with Some x => Ok (Some x) | None => first_place registry leases used_gateways rest end
  end.

(** [_reserve(db, now, ...)]; [id] is the random name of the lease. *)
Definition reserve_in (device : pystr) (r : reservation) (observations : list observation) (id : pystr) (now : Z)
    : M fleet_db (pystr * lease) :=
  positive_to MAX_INT (rv_revision r);; positive_to 86400 (rv_lifetime r);;
  admit_if (valid_request r) "invalid-request";;
  print ← lift (fingerprint r);
  access ← authorized device now;
  s ← get_state;
  match dget (device, rv_request r) (fd_requests s) with
  | Some prior =>
      admit_if (str_eqb (rq_fingerprint prior) print) "request-conflict";;
      l ← get_lease (rq_lease prior);
      mret (rq_lease prior, l)
  | None =>
      registry ← latest_registry;
      admit_if (fr_revision registry =? rv_revision r) "registry-stale";;
      let existing := List.filter (λ x, str_eqb (ls_device x.2) device && live x.2) (fd_leases s) in
      admit_if (negb (existsb (λ x, same_scope r x.2) existing)) "assignment-exists";;
      admit_if (zlen existing <? ac_max access) "device-limit";;
      candidates ← lift (rank_gateways registry (counted (fd_leases s) <$> observations)
        (Admission device (Some (rv_country r)) (rv_transport r) (rv_version r) (rv_families r)) now None 45);
      found ← lift (first_place registry (fd_leases s) ((λ x, ls_gateway x.2) <$> existing) candidates);
      '(gateway, address) ← must found "no-capacity";
      insert_lease id (Lease device gateway (rv_country r) (rv_transport r) (rv_version r) address (fr_revision registry)
        (ac_revision access) now (Z.min (now + rv_lifetime r) (ac_expires access)) Reserved 1);;
      modify (λ s, set_requests (fd_requests s ++ [((device, rv_request r), RequestRow print id)]) s);;
      log_event now "reserved" id;;
      l ← get_lease id;
      mret (id, l)
  end.

(** [reserve(...)] *)
Definition reserve (device : pystr) (r : reservation) (observations : list observation) (id : pystr) (now : Z)
    : M fleet_db (pystr * lease) := fleet_transaction false now (reserve_in device r observations id now).

(** ** Work *)

Definition get (id : pystr) (now : Z) : M fleet_db lease := fleet_transaction false now (get_lease id).

Definition state_rank (l : lease) : Z := if bool_decide (ls_state l = Retiring) then 0 else 1.
Definition pending_le (a b : pystr * lease) : bool :=
  (state_rank a.2 <? state_rank b.2) || ((state_rank a.2 =? state_rank b.2)
    && ((ls_created a.2 <? ls_created b.2) || ((ls_created a.2 =? ls_created b.2) && str_leb a.1 b.1))).
(** [pending(limit=...)] *)
Definition pending (limit now : Z) : M fleet_db (list (pystr * lease)) :=
  positive_to 1000 limit;;
  fleet_transaction false now (
    s ← get_state;
    mret (take (Z.to_nat limit) (sort_by pending_le (List.filter (λ x, pending_lease x.2) (fd_leases s))))).

Record lease_work := LeaseWork { lw_lease : pystr * lease; lw_gateway : fleet_gateway; lw_public : pystr; lw_wg : pystr }.

(** [work_item(lease_id, generation=...)] *)
Definition work_item (id : pystr) (generation now : Z) : M fleet_db lease_work :=
  positive_to MAX_INT generation;;
  fleet_transaction false now (
    l ← get_lease id;
    admit_if ((ls_generation l =? generation) && pending_lease l) "stale-work";;
    s ← get_state;
    (if bool_decide (ls_state l = Reserved)
     then authorized (ls_device l) now;; admit_if (negb (ls_expires l <=? now)) "expired-work"
     else mret ());;
    text ← lift (of_option TypeError (dget (ls_registry l) (fd_registries s)));
    registry ← lift (read_registry text);
    gateway ← lift (of_option StopIteration (List.find (λ g, str_eqb (fg_id g) (ls_gateway l)) (fr_gateways registry)));
    binding ← lift (of_option TypeError (dget (ls_device l) (fd_access s)));
    mret (LeaseWork (id, l) gateway (ac_public binding) (ac_wg binding))).

(** [mark_ready(lease_id, generation=...)] *)
Definition mark_ready (id : pystr) (generation now : Z) : M fleet_db lease :=
  positive_to MAX_INT generation;;
  fleet_transaction false now (
    l ← get_lease id;
    authorized (ls_device l) now;;
    admit_if ((ls_generation l =? generation) && current_lease l && negb (ls_expires l <=? now)) "stale-ready";;
    (if bool_decide (ls_state l = Ready) then mret ()
     else put_lease id (with_state Ready (ls_generation l) l);; log_event now "ready" id);;
    get_lease id).

(** [publishable(lease_id)] *)
Definition publishable (id : pystr) (now : Z) : M fleet_db lease :=
  fleet_transaction false now (
    l ← get_lease id;
    authorized (ls_device l) now;;
    admit_if (bool_decide (ls_state l = Ready) && negb (ls_expires l <=? now)) "not-ready";;
    mret l).

(** [retire(lease_id)] *)
Definition retire (id : pystr) (now : Z) : M fleet_db lease := fleet_transaction false now (retire_lease id now).

(** The leases whose time or whose device's access is over. *)
Definition overdue (s : fleet_db) (now : Z) (x : pystr * lease) : bool :=
  current_lease x.2 && match dget (ls_device x.2) (fd_access s) with
  | Some a => (ls_expires x.2 <=? now) || (ac_expires a <=? now) || ac_revoked a
  | None => false
  end.
Definition expires_le (a b : pystr * lease) : bool :=
  (ls_expires a.2 <? ls_expires b.2) || ((ls_expires a.2 =? ls_expires b.2) && str_leb a.1 b.1).
(** [expire(limit=...)] *)
Definition expire (limit now : Z) : M fleet_db (list (pystr * lease)) :=
  positive_to 1000 limit;;
  fleet_transaction false now (
    s ← get_state;
    retire_all (fst <$> take (Z.to_nat limit) (sort_by expires_le (List.filter (overdue s now) (fd_leases s)))) now).

(** [confirm_removed(lease_id, generation=...)] *)
Definition confirm_removed (id : pystr) (generation now : Z) : M fleet_db lease :=
  positive_to MAX_INT generation;;
  fleet_transaction false now (
    l ← get_lease id;
    admit_if ((ls_generation l =? generation) && bool_decide (ls_state l = Retiring ∨ ls_state l = Released)) "stale-removal";;
    (if bool_decide (ls_state l = Retiring)
     then put_lease id (with_state Released (ls_generation l) l);; log_event now "released" id
     else mret ());;
    get_lease id).

(** [upgrade_services()]: the tables a version lacks are created empty. *)
Definition upgrade_services (now : Z) : M fleet_db () :=
  fleet_transaction true now (
    s ← get_state;
    if fd_schema s =? 3 then mret ()
    else
      (if fd_schema s =? 1 then modify (λ s, set_nonces [] (set_jobs [] s)) else mret ());;
      modify (λ s, set_authority None (set_published [] [] s));;
      modify (set_schema 3);;
      log_event now "schema" (py "3")).

(** [pin_publication_authority(public)] *)
Definition pin_publication_authority (public : pystr) (now : Z) : M fleet_db () :=
  lift (decode_field (PStr public) 32);;
  fleet_transaction false now (
    s ← get_state;
    match fd_authority s with
    | Some old => admit_if (str_eqb old public) "authority-migration-required"
    | None => modify (set_authority (Some public));; log_event now "publication-authority" (py "1")
    end).

(** ** Claims *)

Definition job_of (s : fleet_db) (x : pystr * lease) : option job := dget (x.1, ls_generation x.2) (fd_jobs s).
Definition claimable (s : fleet_db) (now : Z) (x : pystr * lease) : bool :=
  pending_lease x.2 && match job_of s x with Some j => (jb_until j <=? now) && (jb_next j <=? now) | None => true end.
Definition next_of (s : fleet_db) (x : pystr * lease) : Z := match job_of s x with Some j => jb_next j | None => 0 end.
Definition claim_le (s : fleet_db) (a b : pystr * lease) : bool :=
  (state_rank a.2 <? state_rank b.2) || ((state_rank a.2 =? state_rank b.2)
    && ((next_of s a <? next_of s b) || ((next_of s a =? next_of s b)
    && ((ls_created a.2 <? ls_created b.2) || ((ls_created a.2 =? ls_created b.2) && str_leb a.1 b.1))))).

(** [claim_work(hold=...)] *)
Definition claim_work (hold : Z) (token : pystr) (now : Z) : M fleet_db (option ((pystr * lease) * pystr)) :=
  positive_to 300 hold;;
  fleet_transaction false now (
    s ← get_state;
    match sort_by (claim_le s) (List.filter (claimable s now) (fd_leases s)) with
    | [] => mret None
    | x :: _ =>
        let j := match job_of s x with
                 | Some j => Job token (now + hold) (Z.min (jb_attempts j + 1) 16) (jb_next j) (py "running")
                 | None => Job token (now + hold) 1 now (py "running")
                 end in
        modify (λ s, set_jobs (dset (x.1, ls_generation x.2) j (fd_jobs s)) s);;
        mret (Some (x, token))
    end).

Definition RESULTS : list pystr := [py "ready"; py "released"; py "retry"; py "state-changed"].
(** [finish_work(lease, token, result)] *)
Definition finish_work (x : pystr * lease) (token outcome : pystr) (now : Z) : M fleet_db bool :=
  admit_if (existsb (str_eqb outcome) RESULTS) "invalid-job-result";;
  fleet_transaction false now (
    s ← get_state;
    match job_of s x with
    | Some j =>
        if str_eqb (jb_token j) token then
          let delay := Z.min 300 (5 * 2 ^ (jb_attempts j - 1)) in
          modify (λ s, set_jobs (dset (x.1, ls_generation x.2) (Job token 0 (jb_attempts j) (now + delay) outcome) (fd_jobs s)) s);;
          mret true
        else mret false
    | None => mret false
    end).

(** [published(lease_id, device=...)] *)
Definition published (id device : pystr) (now : Z) : M fleet_db bytes :=
  fleet_transaction false now (
    access ← authorized device now;
    l ← get_lease id;
    admit_if (str_eqb (ls_device l) device && bool_decide (ls_state l = Ready) && negb (ls_expires l <=? now)) "not-publishable";;
    s ← get_state;
    p ← must (dget (id, ac_revision access) (fd_publications s)) "not-published";
    admit_if (bool_decide (fd_authority s = Some (pb_signer p))) "not-published";;
    mret (pb_envelope p)).
End Store.

(** ** Reservation by proof (control/fleet_access.py) *)

Definition FLEET_AUDIENCE : pystr := py "family-connect/fleet-reservation/v1".

(** The writer of the [Reservation] model (pydantic). *)
Class ReservationJson := { reservation_dump_json : reservation → pystr }.

(** The field constraints of [Reservation] and [supported]. *)
Definition valid_reservation (r : reservation) : bool :=
  identifier (rv_request r) && in_range 1 MAX_INT (rv_revision r) && valid_country (rv_country r)
  && negb (str_eqb (rv_transport r) (py "vless-reality")) && supported (rv_transport r) (rv_version r)
  && in_range 1 86400 (rv_lifetime r) && bool_decide (rv_families r ∈ [[4]; [6]; [4; 6]]).

Definition reservation_names : list string :=
  ["request_id"; "registry_revision"; "country"; "transport"; "version"; "lifetime"]%string.
(** [address_families] has a default. *)
Definition reservation_fields (v : pyval) : result reservation :=
  d ← of_option bad_field (as_dict v);
  require (keys_are reservation_names d || keys_are (reservation_names ++ ["address_families"%string]) d) bad_field;;
  request ← text_in "request_id" d; revision ← int_in "registry_revision" d; country ← text_in "country" d;
  t ← text_in "transport" d; ver ← text_in "version" d; lifetime ← int_in "lifetime" d;
  families ← match lookup_str "address_families" d with
             | None => Ok [4]
             | Some _ => l ← list_in "address_families" d; mapR (λ v, of_option bad_field (as_int v)) l
             end;
  Ok (Reservation request revision country t ver lifetime families).

Section Access.
Context {RN : Rns} {PY : Pydantic} {FJ : FleetJson} {RJ : ReservationJson} {LM : LibM} (float_repr : spec_float → pystr).

(** [Reservation.model_validate_json(text)] *)
Definition read_reservation (text : pystr) : result reservation :=
  raw ← of_option bad_field (utf8_encode text);
  v ← of_option bad_field (model_json raw);
  r ← reservation_fields v;
  require (valid_reservation r) bad_field;;
  Ok r.

(** [hashlib.sha256(nonce.encode()).hexdigest()] *)
Definition nonce_key (nonce : pystr) : result pystr :=
  raw ← of_option (ValueError "UnicodeEncodeError") (utf8_encode nonce); Ok (tohex (full_hash raw)).

(** [challenge(public=..., wg=..., request=...)]: the nonce and when it expires. *)
Definition fleet_challenge (public wg : pystr) (r : reservation) (random : bytes) (now : Z) : M fleet_db (pystr * Z) :=
  lift (require (valid_reservation r) bad_field);;
  raw ← lift (decode_field (PStr public) 64);
  raw ← lift (public_identity raw);
  let device := tohex (identity_hash raw) in
  lift (decode_field (PStr wg) 32);;
  fleet_transaction false now (
    access ← authorized device now;
    admit_if (str_eqb (ac_public access) public && str_eqb (ac_wg access) wg) "binding-mismatch";;
    modify (λ s, set_nonces (List.filter (λ x, negb (rc_expires x.2 <=? now)) (fd_challenges s)) s);;
    s ← get_state;
    admit_if (zlen (List.filter (λ x, str_eqb (rc_device x.2) device) (fd_challenges s)) <? 8) "challenge-limit";;
    let nonce := b64encode random in
    let expires := Z.min (now + 120) (ac_expires access) in
    key ← lift (nonce_key nonce);
    (if dmem key (fd_challenges s) then raise SqliteError else mret ());;
    modify (λ s, set_nonces (fd_challenges s ++ [(key, ReservationChallenge device (ac_revision access) (reservation_dump_json r) expires)]) s);;
    mret (nonce, expires)).

(** [complete(proof, observations=...)] *)
Definition fleet_complete (proof : pyval) (observations : list observation) (id : pystr) (now : Z) : M fleet_db (pystr * lease) :=
  d ← must (as_dict proof) "invalid-proof";
  '(device, c) ← lift (verify_proof float_repr proof (default PNone (lookup_str "challenge" d)) FLEET_AUDIENCE);
  key ← lift (nonce_key (cl_challenge c));
  fleet_transaction false now (
    s ← get_state;
    let challenge := dget key (fd_challenges s) in
    access ← authorized device now;
    challenge ← must challenge "challenge-denied";
    admit_if (str_eqb (rc_device challenge) device && negb (rc_expires challenge <=? now) && (rc_revision challenge =? ac_revision access)
              && str_eqb (ac_public access) (cl_public c) && str_eqb (ac_wg access) (cl_wg c)) "challenge-denied";;
    r ← lift (read_reservation (rc_request challenge));
    x ← reserve_in float_repr device r observations id now;
    modify (λ s, set_nonces (ddel key (fd_challenges s)) s);;
    mret x).
End Access.

(** ** Publication (control/fleet_publish.py, provisioning/fleet.py) *)

(** [ProfileBinding]: what the operator pins for a gateway's transport. *)
Record profile_binding := ProfileBinding {
  pn_transport : transport;
  pn_version : transport_version;
  pn_server : pystr;
  pn_dns : list pystr;
  pn_mtu : Z;
  pn_parameters : list (pystr * pystr);
}.

Definition valid_dns (s : pystr) : bool :=
  match ip_address s with
  | Some a => str_eqb (ip_text a) s && negb (is_unspecified a || is_multicast a || is_loopback a)
  | None => false
  end.

(** The field constraints of [ProfileBinding] and its validators. *)
Definition valid_binding (p : profile_binding) : bool :=
  valid_key (pn_server p) && in_range 1 3 (zlen (pn_dns p)) && in_range 1280 1500 (pn_mtu p)
  && bool_decide (NoDup (dkeys (pn_parameters p))) && forallb valid_dns (pn_dns p)
  && match pn_transport p with
     | WireGuard => bool_decide (pn_version p = V1) && bool_decide (pn_parameters p = [])
     | AmneziaWG =>
         let v31 := bool_decide (pn_version p = V3_1) in
         (v31 || bool_decide (pn_version p = V2_0))
         && forallb (λ x, one_of x.1 (AWG_FIELDS ++ if v31 then AWG31_FIELDS else [])) (pn_parameters p)
         && forallb (λ x, (zlen x.2 <=? 2048) && negb (has_char 10 x.2) && negb (has_char 13 x.2)) (pn_parameters p)
         && (negb v31 || forallb (λ k, dmem k (pn_parameters p)) AWG31_FIELDS)
         && is_ok (validate_awg (pn_parameters p))
     | VlessReality => false
     end.

Definition binding_value (p : profile_binding) : pyval :=
  PDict [(PStr (py "transport"), PStr (transport_name (pn_transport p))); (PStr (py "version"), PStr (version_name (pn_version p)));
         (PStr (py "server_public"), PStr (pn_server p)); (PStr (py "dns"), PList (PStr <$> pn_dns p)); (PStr (py "mtu"), PInt (pn_mtu p));
         (PStr (py "parameters"), PDict ((λ x, (PStr x.1, PStr x.2)) <$> pn_parameters p))].

Section Publisher.
Context {RN : Rns} {ED : Ed25519} {PY : Pydantic} {FJ : FleetJson} (float_repr : spec_float → pystr).

(** [FleetPublisher(store, signer=..., bindings=...)] *)
Record publisher := Publisher { pu_signer : signing_key; pu_bindings : list ((pystr * pystr * pystr) * profile_binding) }.
Definition pu_public (p : publisher) : pystr := b64encode (ed_public (pu_signer p)).
Definition new_publisher (signer : signing_key) (bindings : list ((pystr * pystr * pystr) * profile_binding)) : result publisher :=
  require (forallb (λ x, valid_binding x.2) bindings) bad_field;;
  Ok (Publisher signer bindings).

(** The hash of what a publication of the lease is bound to. *)
Definition policy_digest (profile : profile_binding) (min_client_version : pystr) : result pystr :=
  raw ← canonical float_repr (PDict [(PStr (py "profile"), binding_value profile); (PStr (py "minimum"), PStr min_client_version)]);
  Ok (tohex (full_hash raw)).

Definition newline_ : pystr := [10].
Definition pair_le (a b : pystr * pystr) : bool := str_leb a.1 b.1.
(** The text of the tunnel's configuration. *)
Definition lease_config (l : lease) (profile : profile_binding) (endpoint : fleet_endpoint) : pystr :=
  let host := if has_char 58 (fe_address endpoint) then [91] ++ fe_address endpoint ++ [93] else fe_address endpoint in
  py "[Interface]" ++ newline_ ++ py "PrivateKey = " ++ LOCAL_KEY ++ newline_ ++ py "Address = " ++ ls_address l ++ newline_
  ++ py "DNS = " ++ join (py ", ") (pn_dns profile) ++ newline_ ++ py "MTU = " ++ json_int (pn_mtu profile) ++ newline_
  ++ List.concat (List.map (λ x, x.1 ++ py " = " ++ x.2 ++ newline_) (sort_by pair_le (pn_parameters profile)))
  ++ py "[Peer]" ++ newline_ ++ py "PublicKey = " ++ pn_server profile ++ newline_
  ++ py "Endpoint = " ++ host ++ [58] ++ json_int (fe_port endpoint) ++ newline_
  ++ py "AllowedIPs = 0.0.0.0/0, ::/0" ++ newline_ ++ py "PersistentKeepalive = 25" ++ newline_.

(** The newest publication of a lease, with its access revision. *)
Definition newest_publication (id : pystr) (l : list ((pystr * Z) * publication)) : option (Z * publication) :=
  foldl (λ best x, if str_eqb x.1.1 id then
      match best with Some (_, b) => if pb_revision b <? pb_revision x.2 then Some (x.1.2, x.2) else best | None => Some (x.1.2, x.2) end
    else best) None l.

(** The only endpoint of the lease's gateway with its transport. *)
Definition lease_endpoint (registries : list (Z * pystr)) (l : lease) : result fleet_endpoint :=
  text ← of_option TypeError (dget (ls_registry l) registries);
  registry ← read_registry float_repr text;
  gateway ← of_option StopIteration (List.find (λ g, str_eqb (fg_id g) (ls_gateway l)) (fr_gateways registry));
  match List.filter (λ e, str_eqb (transport_name (fe_transport e)) (ls_transport l) && str_eqb (version_name (fe_version e)) (ls_version l))
          (fg_endpoints gateway) with
  | [e] => Ok e
  | _ => Raise (LeaseRejected "ambiguous-endpoint")
  end.

Definition lease_document (id : pystr) (l : lease) (access : access_row) (profile : profile_binding) (endpoint : fleet_endpoint)
    (signer : signing_key) (revision : Z) (previous : option pystr) (min_client_version : pystr) (now : Z) : control_configuration :=
  ControlConfiguration id revision now (Z.min (ls_expires l) (ac_expires access)) (ls_device l) (ac_wg access) min_client_version previous
    (key_id (ed_public signer)) [ControlGateway (ls_gateway l) (fe_address endpoint) (fe_port endpoint)]
    [TransportProfile id (ls_gateway l) (pn_transport profile) (pn_version profile) (lease_config l profile endpoint)].

(** The clocks of a publication: when it starts, when it is signed, and the
    monotonic time it took, in nanoseconds. *)
Record publish_clock := PublishClock { pc_now : Z; pc_after : Z; pc_elapsed : Z }.

(** [publish(lease_id, device=..., previous_config_hash=..., min_client_version=...)];
    [random] is the ephemeral randomness of the encryption. *)
Definition publish (pu : publisher) (id device : pystr) (previous : option pystr) (min_client_version : pystr) (random : bytes)
    (ck : publish_clock) : M fleet_db bytes :=
  let now := pc_now ck in
  fleet_transaction false now (
    l ← get_lease id;
    access ← authorized device now;
    admit_if (str_eqb (ls_device l) device && bool_decide (ls_state l = Ready) && negb (ls_expires l <=? now)) "not-publishable";;
    s ← get_state;
    admit_if (bool_decide (fd_authority s = Some (pu_public pu))) "publication-authority";;
    profile ← lift (of_option KeyError (dget (ls_gateway l, ls_transport l, ls_version l) (pu_bindings pu)));
    admit_if (str_eqb (transport_name (pn_transport profile)) (ls_transport l) && str_eqb (version_name (pn_version profile)) (ls_version l))
      "profile-binding";;
    digest ← lift (policy_digest profile min_client_version);
    let old := newest_publication id (fd_publications s) in
    admit_if (match old with Some (_, p) => str_eqb (pb_policy p) digest && str_eqb (pb_signer p) (pu_public pu) | None => true end)
      "profile-migration-required";;
    match (match old with Some (r, p) => if r =? ac_revision access then Some p else None | None => None end) with
    | Some p =>
        admit_if (bool_decide (pb_previous p = previous)) "publication-context";;
        mret (pb_envelope p)
    | None =>
        endpoint ← lift (lease_endpoint (fd_registries s) l);
        let revision := default 0 (dget device (fd_counters s)) + 1 in
        positive_to MAX_INT revision;;
        let state := lease_document id l access profile endpoint (pu_signer pu) revision previous min_client_version now in
        lift (try_with (valid_configuration state) (λ e, Raise (if is_ValueError e then bad_field else e)));;
        recipient ← lift (of_option (ValueError "binascii.Error") (b64decode (ac_public access)));
        envelope ← lift (issue_config float_repr state recipient (pu_signer pu) random);
        admit_if ((now <=? pc_after ck) && (pc_after ck <? cf_expires state) && (pc_elapsed ck <=? 5 * 10 ^ 9)) "publication-timeout";;
        modify (set_clock (pc_after ck));;
        (if dmem (id, ac_revision access) (fd_publications s) then raise SqliteError else mret ());;
        modify (λ s, set_published (dset device revision (fd_counters s))
          (fd_publications s ++ [((id, ac_revision access), Publication revision (pu_public pu) digest previous envelope)]) s);;
        log_event (pc_after ck) "published" id;;
        mret envelope
    end).
End Publisher.
