(* ===== verification/FleetGateway.v ===== *)
(** The gateways' side of the fleet (control/fleet_gateway.py): commands about
    one peer, the journal that fences them, the WireGuard backend that carries
    them out (control/fleet_wg.py), and the worker and the scheduler that bring
    the controller's leases to the gateways (control/fleet_worker.py,
    fleet_scheduler.py). *)
From Stdlib Require Import ZArith Lia.
From S2P Require Import Prelude PyData Json JsonText Ipaddress ProfileConfig Rns Ack DeviceProof Journal Configuration.
From S2P Require Import TransportPolicy Fleet FleetStore.

Local Open Scope Z_scope.

(** ** Commands *)

Inductive operation_kind := Present | Absent.
#[export] Instance operation_kind_eq_dec : EqDecision operation_kind.
Proof. solve_decision. Defined.
Definition operation_name (o : operation_kind) : pystr := py (match o with Present => "present" | Absent => "absent" end).

Record peer_command := PeerCommand {
  pc_lease : pystr;
  pc_gateway : pystr;
  pc_device : pystr;
  pc_wg : pystr;
  pc_address : pystr;
  pc_transport : pystr;
  pc_version : pystr;
  pc_expires : Z;
  pc_generation : Z;
  pc_operation : operation_kind;
}.
#[export] Instance peer_command_eq_dec : EqDecision peer_command.
Proof. solve_decision. Defined.

(** [PeerCommand.host_route]: the canonical text of an address and its prefix. *)
Definition host_address (s : pystr) : option Z :=
  match ip_interface s with
  | Some (IPv4 n, p) => if str_eqb (network_text (IPv4 n, p)) s && (p =? 32) then Some n else None
  | _ => None
  end.

(** The field constraints of [PeerCommand] and its validators. *)
Definition valid_command (c : peer_command) : bool :=
  hex_match 32 (pc_lease c) && identifier (pc_gateway c) && hex_match 32 (pc_device c) && valid_key (pc_wg c)
  && bool_decide (is_Some (host_address (pc_address c)))
  && negb (str_eqb (pc_transport c) (py "vless-reality")) && supported (pc_transport c) (pc_version c)
  && positive (pc_expires c) && positive (pc_generation c)
  && (pc_generation c =? match pc_operation c with Present => 1 | Absent => 2 end).

(** [model_dump()], and without the members that change over a lease's life. *)
Definition binding_members (c : peer_command) : list (pyval * pyval) :=
  [(PStr (py "lease_id"), PStr (pc_lease c)); (PStr (py "gateway_id"), PStr (pc_gateway c)); (PStr (py "device"), PStr (pc_device c));
   (PStr (py "wg"), PStr (pc_wg c)); (PStr (py "address"), PStr (pc_address c)); (PStr (py "transport"), PStr (pc_transport c));
   (PStr (py "version"), PStr (pc_version c)); (PStr (py "expires_at"), PInt (pc_expires c))].
Definition command_value (c : peer_command) : pyval :=
  PDict (binding_members c ++ [(PStr (py "generation"), PInt (pc_generation c)); (PStr (py "operation"), PStr (operation_name (pc_operation c)))]).

Definition command_fields (v : pyval) : result peer_command :=
  d ← model_of ["lease_id"; "gateway_id"; "device"; "wg"; "address"; "transport"; "version"; "expires_at"; "generation"; "operation"] v;
  id ← text_in "lease_id" d; gateway ← text_in "gateway_id" d; device ← text_in "device" d; wg ← text_in "wg" d;
  address ← text_in "address" d; t ← text_in "transport" d; ver ← text_in "version" d; expires ← int_in "expires_at" d;
  generation ← int_in "generation" d; o ← text_in "operation" d;
  o ← of_option bad_field (List.find (λ k, str_eqb (operation_name k) o) [Present; Absent]);
  Ok (PeerCommand id gateway device wg address t ver expires generation o).

Definition fence_rejected (code : string) : exn := FenceRejected code.

Section Commands.
Context {RN : Rns} {PY : Pydantic} (float_repr : spec_float → pystr).

(** [canonical()] and [binding()] *)
Definition command_text (c : peer_command) : result pystr := json_compact float_repr (sort_keys (command_value c)).
Definition binding_text (c : peer_command) : result pystr := json_compact float_repr (sort_keys (PDict (binding_members c))).

(** [receipt(command)] *)
Definition receipt (c : peer_command) : result pyval :=
  raw ← canonical float_repr (command_value c);
  Ok (PDict [(PStr (py "lease_id"), PStr (pc_lease c)); (PStr (py "gateway_id"), PStr (pc_gateway c));
    (PStr (py "generation"), PInt (pc_generation c)); (PStr (py "operation"), PStr (operation_name (pc_operation c)));
    (PStr (py "digest"), PStr (tohex (full_hash raw)))]).

(** [PeerCommand.model_validate_json(text)] *)
Definition read_command (text : pystr) : result peer_command :=
  raw ← of_option bad_field (utf8_encode text);
  v ← of_option bad_field (model_json raw);
  c ← command_fields v;
  require (valid_command c) bad_field;;
  Ok c.
End Commands.

(** ** The backend *)

#[export] Instance ip_addr_eq_dec : EqDecision ip_addr.
Proof. solve_decision. Defined.
#[export] Instance ip_addr_countable : Countable ip_addr.
Proof.
  refine (inj_countable' (λ a, match a with IPv4 n => inl n | IPv6 n s => inr (n, s) end)
    (λ x, match x with inl n => IPv4 n | inr (n, s) => IPv6 n s end) _). by intros [].
Defined.

(** The peers of an interface: the networks routed to each key. *)
Abbreviation network_set := (gset (ip_addr * Z)).
Abbreviation peer_table := (gmap (list Z) (gset (ip_addr * Z))).

(** What the journal needs of an engine. *)
Class PeerBackend := {
  backend : Type;
  preflight : peer_command → M backend ();
  ensure : peer_command → M backend ();
}.

(** The engine a command is for. *)
Definition engine_of (c : peer_command) : pystr * pystr := (pc_transport c, pc_version c).
(** The route of a command's address. *)
Definition route_of (c : peer_command) : network_set :=
  match ip_network (pc_address c) with Some x => {[x]} | None => ∅ end.
(** The peers once a command has taken effect. *)
Definition commanded (c : peer_command) (peers : peer_table) : peer_table :=
  match pc_operation c with Present => <[pc_wg c := route_of c]> peers | Absent => delete (pc_wg c) peers end.

(** What an engine promises the journal: [ensure] that returns has brought about
    the command, [ensure] that fails has brought it about or not, and neither
    touches another peer. *)
Class PeerBackendLaws {PB : PeerBackend} := {
  bk_peers : backend → pystr * pystr → peer_table;
  preflight_peers c b r b' : preflight c b = (r, b') → ∀ e, bk_peers b' e = bk_peers b e;
  ensure_others c b r b' e : ensure c b = (r, b') → e ≠ engine_of c → bk_peers b' e = bk_peers b e;
  ensure_partly c b r b' : ensure c b = (r, b') →
    bk_peers b' (engine_of c) = bk_peers b (engine_of c) ∨ bk_peers b' (engine_of c) = commanded c (bk_peers b (engine_of c));
  ensure_done c b b' : ensure c b = (Ok (), b') → bk_peers b' (engine_of c) = commanded c (bk_peers b (engine_of c));
}.

(** ** WireGuard *)

(** The [wg] tool on a host: a run may fail in any way, also because its time
    is over, before or after its effect. *)
Class WgTool := {
  wg_host : Type;
  wg_run : list pystr → M wg_host bytes;
}.

(** A pinned interface: the tool's path, the name, and the key and port it must
    have. *)
Record interface_pin := InterfacePin { ip_binary : pystr; ip_name : pystr; ip_public : pystr; ip_port : Z }.

Definition interface_char (c : Z) : bool := in_range 48 57 c || in_range 65 90 c || in_range 97 122 c || (c =? 95).
(** [WGPeerBackend(binary=..., ...)] *)
Definition valid_pin (p : interface_pin) : bool :=
  startswith (py "/") (ip_binary p) && in_range 1 15 (zlen (ip_name p)) && interface_char (List.hd 0 (ip_name p))
  && forallb (λ c, interface_char c || (c =? 46) || (c =? 45)) (ip_name p) && in_range 1 65535 (ip_port p) && valid_key (ip_public p).

Definition networks_overlap (x y : ip_addr * Z) : bool := in_network x.1 y || in_network y.1 x.

(** One line of [wg show INTERFACE allowed-ips]. *)
Definition peer_line (peers : peer_table) (line : pystr) : result peer_table :=
  match partition_at 9 line with
  | (key, Some raw) =>
      require (valid_key key) (ValueError "invalid public key");;
      raise_if (bool_decide (is_Some (peers !! key))) (FenceRejected "duplicate-live-key");;
      nets ← mapR (λ x, of_option (ValueError "ipaddress") (ip_network x))
        (List.filter (λ x, negb (str_eqb x (py "(none)"))) (split_words [] (List.map (λ c, if c =? 44 then 32 else c) raw)));
      Ok (<[key := list_to_set nets]> peers)
  | (_, None) => Raise (ValueError "unpack")
  end.
Definition parse_peers (text : pystr) : result peer_table := foldR peer_line ∅ (splitlines [] text).

(** [_conflicts(peers, command)] *)
Definition peers_conflict (peers : peer_table) (c : peer_command) : result () :=
  address ← of_option (ValueError "ipaddress") (ip_network (pc_address c));
  raise_if (existsb (λ x, negb (str_eqb x.1 (pc_wg c)) && existsb (λ n, networks_overlap n address) (base.elements x.2)) (map_to_list peers))
    (FenceRejected "live-address-owned");;
  require (match peers !! pc_wg c with Some nets => bool_decide (nets = {[address]}) | None => true end)
    (FenceRejected "live-binding-changed").

Section Wg.
Context {WG : WgTool} (pin : interface_pin).

(** [_run(args)] decoded *)
Definition wg_text (args : list pystr) : M wg_host pystr :=
  raw ← wg_run (ip_binary pin :: args);
  lift (require (forallb (in_range 0 127) raw) (ValueError "UnicodeDecodeError"));;
  mret raw.

(** [_pin()] *)
Definition check_pin : M wg_host () :=
  public ← wg_text [py "show"; ip_name pin; py "public-key"];
  lift (require (str_eqb (strip public) (ip_public pin)) (FenceRejected "interface-pin"));;
  listen ← wg_text [py "show"; ip_name pin; py "listen-port"];
  lift (require (str_eqb (strip listen) (json_int (ip_port pin))) (FenceRejected "interface-pin")).

(** [_peers()] *)
Definition live_peers : M wg_host peer_table :=
  text ← wg_text [py "show"; ip_name pin; py "allowed-ips"]; lift (parse_peers text).

(** [WGPeerBackend.preflight(command)] *)
Definition wg_preflight (c : peer_command) : M wg_host () :=
  check_pin;;
  peers ← live_peers;
  lift (raise_if (bool_decide (is_Some (peers !! pc_wg c))) (FenceRejected "unmanaged-live-key"));;
  lift (peers_conflict peers c).

(** [WGPeerBackend.ensure(command)] *)
Definition wg_ensure (c : peer_command) : M wg_host () :=
  check_pin;;
  before ← live_peers;
  lift (peers_conflict before c);;
  (match pc_operation c with
   | Present =>
       if bool_decide (is_Some (before !! pc_wg c)) then mret ()
       else wg_text [py "set"; ip_name pin; py "peer"; pc_wg c; py "allowed-ips"; pc_address c];; mret ()
   | Absent =>
       if bool_decide (is_Some (before !! pc_wg c)) then wg_text [py "set"; ip_name pin; py "peer"; pc_wg c; py "remove"];; mret ()
       else mret ()
   end);;
  after ← live_peers;
  check_pin;;
  lift (require (bool_decide (delete (pc_wg c) before = delete (pc_wg c) after)) (FenceRejected "other-peers-changed"));;
  lift (match pc_operation c with
        | Present => require (bool_decide (after !! pc_wg c = Some (route_of c))) (FenceRejected "peer-not-confirmed")
        | Absent => require (bool_decide (after !! pc_wg c = None)) (FenceRejected "removal-not-confirmed")
        end).
End Wg.

(** [WGBackends(bindings)]: one pinned interface for each engine; each has its
    own host state, so that a step changes one of them. *)
Section Backends.
Context {WG : WgTool} (pins : list ((pystr * pystr) * interface_pin)).

Definition on_engine (c : peer_command) (m : interface_pin → M wg_host ()) : M (list ((pystr * pystr) * wg_host)) () := λ hosts,
  match dget (engine_of c) pins, dget (engine_of c) hosts with
  | Some pin, Some h => let '(r, h') := m pin h in (r, dset (engine_of c) h' hosts)
  | _, _ => (Raise KeyError, hosts)
  end.

Definition wg_backends : PeerBackend := {|
  backend := list ((pystr * pystr) * wg_host);
  preflight c := on_engine c (λ pin, wg_preflight pin c);
  ensure c := on_engine c (λ pin, wg_ensure pin c);
|}.
End Backends.

(** ** The journal of a gateway *)

Record command_row := CommandRow {
  cw_binding : pystr;
  cw_command : pystr;
  cw_generation : Z;
  cw_address : pystr;
  cw_wg : pystr;
  cw_held : bool;
  cw_done : bool;
}.

(** The database of a gateway, with its declared gateway, next to its engine. *)
Record fence {PB : PeerBackend} := Fence {
  fn_gateway : pystr;
  fn_now : Z;
  fn_commands : list (pystr * command_row);
  fn_backend : backend;
}.
Arguments Fence {PB}.

(** The readings of the clock: at the gate, before an installation, and when
    the intent is written. *)
Record fence_clock := FenceClock { fk_gate : Z; fk_expiry : Z; fk_write : Z }.

Section Gateway.
Context {RN : Rns} {PY : Pydantic} {FJ : FleetJson} {PB : PeerBackend} (float_repr : spec_float → pystr).

Definition with_commands x (s : fence) : fence := Fence (fn_gateway s) (fn_now s) x (fn_backend s).
Definition on_backend {A} (m : M backend A) : M fence A := λ s,
  let '(r, b) := m (fn_backend s) in (r, Fence (fn_gateway s) (fn_now s) (fn_commands s) b).

Definition fence_if (b : bool) (code : string) : M fence () := lift (require b (fence_rejected code)).
(** [_now()] *)
Definition fence_time (now : Z) : M fence Z := fence_if ((0 <=? now) && (now <? 2 ^ 63)) "clock";; mret now.

(** [initialize()] of an agent for this gateway *)
Definition initialize_fence (g : fleet_gateway) (b : backend) (now : Z) : result fence :=
  require ((0 <=? now) && (now <? 2 ^ 63)) (fence_rejected "clock");;
  Ok (Fence (node_dump_json g) now [] b).

(** [_gate()] *)
Definition gate (g : fleet_gateway) (now : Z) : M fence () :=
  s ← get_state;
  now ← fence_time now;
  fence_if ((fn_now s <=? now) && str_eqb (fn_gateway s) (node_dump_json g)) "gateway-state".

(** The command is for this gateway: a host of its pool and a transport it has. *)
Definition for_gateway (g : fleet_gateway) (c : peer_command) : bool :=
  match pool_of (fg_pool g), host_address (pc_address c) with
  | Some (base, p), Some ip =>
      str_eqb (pc_gateway c) (fg_id g) && in_network (IPv4 ip) (IPv4 base, p)
      && negb ((ip =? base) || (ip =? base + 1) || (ip =? base + pool_size p - 1))
      && existsb (λ e, str_eqb (transport_name (fe_transport e)) (pc_transport c) && str_eqb (version_name (fe_version e)) (pc_version c))
           (fg_endpoints g)
  | _, _ => false
  end.

(** The unique indexes over the rows that hold their address and key. *)
Definition resource_free (id : pystr) (r : command_row) (l : list (pystr * command_row)) : bool :=
  negb (cw_held r) || forallb (λ x, str_eqb x.1 id || negb (cw_held x.2)
    || negb (str_eqb (cw_address x.2) (cw_address r) || str_eqb (cw_wg x.2) (cw_wg r))) l.

(** The intent of a command: the upsert keeps the binding, address and key. *)
Definition write_intent (c : peer_command) (binding text : pystr) (held never_installed : bool) (now : Z) : M fence () :=
  transaction (
    now ← fence_time now;
    s ← get_state;
    let r := match dget (pc_lease c) (fn_commands s) with
             | Some old => CommandRow (cw_binding old) text (pc_generation c) (cw_address old) (cw_wg old) held never_installed
             | None => CommandRow binding text (pc_generation c) (pc_address c) (pc_wg c) held never_installed
             end in
    fence_if (resource_free (pc_lease c) r (fn_commands s)) "resource-owned";;
    modify (λ s, Fence (fn_gateway s) now (dset (pc_lease c) r (fn_commands s)) (fn_backend s))).

(** The end of a command. *)
Definition write_done (c : peer_command) : M fence () :=
  modify (λ s, with_commands (List.map (λ x,
    if str_eqb x.1 (pc_lease c)
    then (x.1, CommandRow (cw_binding x.2) (cw_command x.2) (cw_generation x.2) (cw_address x.2) (cw_wg x.2)
                 (bool_decide (pc_operation c = Present)) true)
    else x) (fn_commands s)) s).

(** [execute(command, _restore=restore)] *)
Definition execute (g : fleet_gateway) (restore : bool) (ck : fence_clock) (c : peer_command) : M fence pyval :=
  lift (require (valid_command c) bad_field);;
  fence_if (for_gateway g c) "gateway-binding";;
  gate g (fk_gate ck);;
  s ← get_state;
  let old := dget (pc_lease c) (fn_commands s) in
  binding ← lift (binding_text float_repr c);
  fence_if (match old with Some o => str_eqb (cw_binding o) binding && (cw_generation o <=? pc_generation c) | None => true end)
    "stale-or-conflicting-command";;
  (if bool_decide (pc_operation c = Present)
   then now ← fence_time (fk_expiry ck); fence_if (negb (pc_expires c <=? now)) "expired-command"
   else mret ());;
  text ← lift (command_text float_repr c);
  let repeated := match old with Some o => cw_generation o =? pc_generation c | None => false end in
  fence_if (match old with Some o => negb repeated || str_eqb (cw_command o) text | None => true end) "command-conflict";;
  if repeated && match old with Some o => cw_done o | None => false end && negb (restore && bool_decide (pc_operation c = Present))
  then lift (receipt float_repr c)
  else
    let never_installed := match old with None => bool_decide (pc_operation c = Absent) | Some _ => false end in
    (match old with None => if bool_decide (pc_operation c = Present) then on_backend (preflight c) else mret () | Some _ => mret () end);;
    let held := bool_decide (pc_operation c = Present) || match old with Some o => cw_held o | None => false end in
    write_intent c binding text held never_installed (fk_write ck);;
    if never_installed then lift (receipt float_repr c)
    else
      on_backend (ensure c);;
      write_done c;;
      lift (receipt float_repr c).

Definition recover_le (a b : pystr * command_row) : bool :=
  (cw_generation b.2 <? cw_generation a.2) || ((cw_generation a.2 =? cw_generation b.2) && str_leb a.1 b.1).

(** [recover()]: the commands are read first, then each is executed with the
    clock of its time. *)
Fixpoint execute_all (g : fleet_gateway) (l : list peer_command) (cks : nat → fence_clock) : M fence (list pyval) :=
  match l with
  | [] => mret []
  | c :: l => r ← execute g true (cks 0%nat) c; rs ← execute_all g l (λ n, cks (S n)); mret (r :: rs)
  end.
Definition recover (g : fleet_gateway) (now : Z) (cks : nat → fence_clock) : M fence (list pyval) :=
  gate g now;;
  s ← get_state;
  cs ← lift (mapR (λ x, read_command (cw_command x.2))
    (sort_by recover_le (List.filter (λ x, cw_held x.2 || negb (cw_done x.2)) (fn_commands s))));
  execute_all g cs cks.
End Gateway.

(** ** The worker *)

(** How a call over the network ends: the answer comes back, the request is
    lost, or the command runs and its answer is lost. *)
Inductive link := Delivered | LostRequest | LostAnswer.

(** The controller's store and its gateways, each with its declaration. *)
Record fleet_world {PB : PeerBackend} := FleetWorld {
  fw_store : fleet_db;
  fw_hosts : list (pystr * (fleet_gateway * fence));
}.
Arguments FleetWorld {PB}.

(** The clocks of one piece of work. *)
Record work_clock := WorkClock { wk_item : Z; wk_gateway : fence_clock; wk_mark : Z }.

Section Worker.
Context {RN : Rns} {PY : Pydantic} {FJ : FleetJson} {LM : LibM} {PB : PeerBackend} (float_repr : spec_float → pystr).

Definition on_store {A} (m : M fleet_db A) : M fleet_world A := λ w,
  let '(r, s) := m (fw_store w) in (r, FleetWorld s (fw_hosts w)).

Definition ProcessFailed : exn := RuntimeError "process-exit".

(** [adapter.execute(command)]: an error of the gateway is a failed process. *)
Definition call_gateway (lk : link) (ck : fence_clock) (c : peer_command) : M fleet_world pyval := λ w,
  match dget (pc_gateway c) (fw_hosts w) with
  | None => (Raise KeyError, w)
  | Some (g, h) =>
      match lk with
      | LostRequest => (Raise ProcessFailed, w)
      | _ =>
          let '(r, h') := execute float_repr g false ck c h in
          (match lk, r with Delivered, Ok a => Ok a | _, _ => Raise ProcessFailed end,
           FleetWorld (fw_store w) (dset (pc_gateway c) (g, h') (fw_hosts w)))
      end
  end.

(** The command for a lease that waits for work. *)
Definition command_of (x : pystr * lease) (wg : pystr) : peer_command :=
  PeerCommand x.1 (ls_gateway x.2) (ls_device x.2) wg (ls_address x.2) (ls_transport x.2) (ls_version x.2) (ls_expires x.2)
    (ls_generation x.2) (if bool_decide (ls_state x.2 = Reserved) then Present else Absent).

(** The body of [process]'s [try]. *)
Definition work_on (x : pystr * lease) (lk : link) (ck : work_clock) : M fleet_world pystr :=
  work ← on_store (work_item float_repr x.1 (ls_generation x.2) (wk_item ck));
  let c := command_of x (lw_wg work) in
  lift (require (valid_command c) bad_field);;
  answer ← call_gateway lk (wk_gateway ck) c;
  expected ← lift (receipt float_repr c);
  lift (require (py_eqb answer expected) (ValueError "receipt-mismatch"));;
  match pc_operation c with
  | Present => on_store (mark_ready x.1 (ls_generation x.2) (wk_mark ck));; mret (py "ready")
  | Absent => on_store (confirm_removed x.1 (ls_generation x.2) (wk_mark ck));; mret (py "released")
  end.

(** [process(lease)] *)
Definition process (x : pystr * lease) (lk : link) (ck : work_clock) : M fleet_world pystr :=
  tryM (work_on x lk ck) (λ e, mret (match e with LeaseRejected _ => py "state-changed" | _ => py "retry" end)).

(** What the environment decides of the n-th piece of work. *)
Record work_script := WorkScript { sc_link : link; sc_clock : work_clock; sc_token : pystr; sc_claim : Z; sc_finish : Z; sc_mono : Z }.

(** [once(limit=...)] *)
Fixpoint process_all (l : list (pystr * lease)) (script : nat → work_script) : M fleet_world (list (pystr * pystr)) :=
  match l with
  | [] => mret []
  | x :: l =>
      let sc := script 0%nat in
      r ← process x (sc_link sc) (sc_clock sc);
      rs ← process_all l (λ n, script (S n));
      mret ((x.1, r) :: rs)
  end.
Definition once (limit expire_at pending_at : Z) (script : nat → work_script) : M fleet_world (list (pystr * pystr)) :=
  on_store (expire 1000 expire_at);;
  l ← on_store (pending limit pending_at);
  process_all l script.

(** [FleetScheduler.tick(limit=..., budget=...)]; the monotonic clock in
    nanoseconds. *)
Fixpoint run_claims (n : nat) (deadline : Z) (script : nat → work_script) : M fleet_world (list (pystr * pystr)) :=
  match n with
  | O => mret []
  | S n =>
      let sc := script 0%nat in
      if deadline <=? sc_mono sc then mret []
      else
        claim ← on_store (claim_work 60 (sc_token sc) (sc_claim sc));
        match claim with
        | None => mret []
        | Some (x, token) =>
            r ← process x (sc_link sc) (sc_clock sc);
            on_store (finish_work x token r (sc_finish sc));;
            rs ← run_claims n deadline (λ n, script (S n));
            mret ((x.1, r) :: rs)
        end
  end.
Definition tick (limit budget started expire_at : Z) (script : nat → work_script) : M fleet_world (list (pystr * pystr)) :=
  on_store (positive_to 100 limit);;
  on_store (positive_to 300 budget);;
  on_store (expire 100 expire_at);;
  run_claims (Z.to_nat limit) (started + budget * 10 ^ 9) script.
End Worker.
