(* ===== verification/FleetSpec.v ===== *)
(** What the store of leases keeps true: live leases never share an address, a
    gateway of their device or a scope; a lease moves forward only; addresses
    lie in pools that no registry may move; what a device may use is never more
    than its access grants. *)
From Stdlib Require Import ZArith Lia Sorted.
From stdpp Require Import sorting.
From S2P Require Import Prelude PyData Json JsonText Ipaddress ProfileConfig Rns Ack DeviceProof Registry.
From S2P Require Import AckSize RegistrySpec Journal Configuration ConfigurationSpec ConfigurationSafety Fleet FleetStore.

Local Open Scope Z_scope.

(** ** The steps of a transaction *)

Lemma admit_if_Ok {S} b code (s : S) u s' : admit_if b code s = (Ok u, s') ↔ b = true ∧ s' = s.
Proof. unfold admit_if. rewrite lift_Ok, require_Ok. done. Qed.
Lemma must_Ok {S A} (o : option A) code (s : S) a s' : must o code s = (Ok a, s') ↔ o = Some a ∧ s' = s.
Proof. unfold must. rewrite lift_Ok, of_option_Ok. done. Qed.
Lemma guard_raise_Ok {S} (b : bool) e (s : S) u s' : (if b then raise e else mret ()) s = (Ok u, s') ↔ b = false ∧ s' = s.
Proof. destruct b, u; cbn; split; [done|by intros []|by intros [= <-]|by intros [_ ->]]. Qed.

Lemma bind_lift {S A B} (r : result A) (f : A → M S B) (s : S) :
  (lift r ≫= f) s = match r with Ok a => f a s | Raise e => (Raise e, s) end.
Proof. by destruct r. Qed.

Lemma get_lease_Ok id s l s' : get_lease id s = (Ok l, s') ↔ dget id (fd_leases s) = Some l ∧ s' = s.
Proof.
  unfold get_lease. rewrite M_bind_Ok. setoid_rewrite get_state_Ok. setoid_rewrite must_Ok. naive_solver.
Qed.
Lemma authorized_Ok device now s a s' :
  authorized device now s = (Ok a, s') ↔ dget device (fd_access s) = Some a ∧ in_force now a = true ∧ s' = s.
Proof.
  unfold authorized. rewrite M_bind_Ok. setoid_rewrite get_state_Ok. setoid_rewrite M_bind_Ok. setoid_rewrite must_Ok.
  setoid_rewrite M_bind_Ok. setoid_rewrite admit_if_Ok. setoid_rewrite mret_Ok. naive_solver.
Qed.

Ltac inv_f1 :=
  match goal with
  | H : admit_if _ _ _ = (Ok _, _) |- _ => let E := fresh "E" in apply admit_if_Ok in H as [E ->]
  | H : must _ _ _ = (Ok _, _) |- _ => let E := fresh "E" in apply must_Ok in H as [E ->]
  | H : positive_to _ _ _ = (Ok _, _) |- _ => let E := fresh "E" in apply admit_if_Ok in H as [E ->]
  | H : get_state _ = (Ok _, _) |- _ => apply get_state_Ok in H as [-> ->]
  | H : get_lease _ _ = (Ok _, _) |- _ => let E := fresh "E" in apply get_lease_Ok in H as [E ->]
  | H : authorized _ _ _ = (Ok _, _) |- _ => let E := fresh "E" in let F := fresh "F" in apply authorized_Ok in H as (E & F & ->)
  | H : (if _ then raise _ else mret ()) _ = (Ok _, _) |- _ => let E := fresh "E" in apply guard_raise_Ok in H as [E ->]
  | H : log_event _ _ _ _ = (Ok _, _) |- _ => apply modify_Ok in H as ->
  | H : put_lease _ _ _ = (Ok _, _) |- _ => apply modify_Ok in H as ->
  end.
Ltac inv_f := repeat (first [inv_f1 | inv_m1]; cbv beta iota zeta in * |-).

(** A transaction that returned: its clock, and its body from the state with
    that clock. *)
Definition at_clock (now : Z) (s : fleet_db) : fleet_db := set_clock now s.
Lemma fleet_transaction_Ok {A} mig now (m : M fleet_db A) s a s' : fleet_transaction mig now m s = (Ok a, s') →
  0 <= now < 2 ^ 63 ∧ fd_now s <= now ∧ m (at_clock now s) = (Ok a, s').
Proof.
  unfold fleet_transaction. intros H. inv_f. sbools. subst.
  match goal with H : m _ = _ |- _ => rename H into Hm end. unfold at_clock. split_and!; try lia; done.
Qed.

Lemma M_bind_step {S A B} (m : M S A) (f : A → M S B) s a s1 out : m s = (Ok a, s1) → f a s1 = out → (m ≫= f) s = out.
Proof. unfold mbind, M_bind. by intros -> ->. Qed.
Lemma fleet_transaction_Ok_2 {A} mig now (m : M fleet_db A) s a s' : 0 <= now < 2 ^ 63 → fd_now s <= now → fd_schema s = 3 →
  m (at_clock now s) = (Ok a, s') → fleet_transaction mig now m s = (Ok a, s').
Proof.
  intros C N E H. unfold fleet_transaction. apply transaction_Ok. eapply (M_bind_step _ _ _ ()); [apply admit_if_Ok; split; [lia|done]|].
  eapply M_bind_step; [by apply get_state_Ok|]. eapply (M_bind_step _ _ _ ()); [apply admit_if_Ok; split; [|done]; rewrite E; cbn; lia|].
  eapply (M_bind_step _ _ _ ()); [by apply modify_Ok|exact H].
Qed.

(** ** The life of a lease *)

(** Everything but the state and the generation is fixed. *)
Definition same_terms (a b : lease) : Prop := with_state Reserved 1 a = with_state Reserved 1 b.

(** One step forward. *)
Inductive lease_step : lease → lease → Prop :=
  | step_ready l : ls_state l = Reserved → lease_step l (with_state Ready (ls_generation l) l)
  | step_retire l : current_lease l = true → lease_step l (with_state Retiring (ls_generation l + 1) l)
  | step_release l : ls_state l = Retiring → lease_step l (with_state Released (ls_generation l) l).
Definition lease_moves : lease → lease → Prop := rtc lease_step.

Definition generation_ok (l : lease) : Prop := ls_generation l = if current_lease l then 1 else 2.

Lemma current_lease_true l : current_lease l = true ↔ ls_state l = Reserved ∨ ls_state l = Ready.
Proof. apply bool_decide_eq_true. Qed.
Lemma live_true l : live l = true ↔ ls_state l ≠ Released.
Proof. unfold live. rewrite negb_true_iff. apply bool_decide_eq_false. Qed.

(** What a step keeps. *)
Lemma moves_ind_step (P : lease → lease → Prop) : (∀ x, P x x) → (∀ x y z, P x y → P y z → P x z) →
  (∀ x y, lease_step x y → P x y) → ∀ x y, lease_moves x y → P x y.
Proof. intros Hr Ht Hs x y H. induction H as [|x y z Hxy _ IH]; [apply Hr|]. by eapply Ht; [apply Hs|]. Qed.

Lemma moves_terms a b : lease_moves a b → same_terms a b.
Proof. apply (moves_ind_step same_terms); unfold same_terms; [done|congruence|]. by intros x y []. Qed.
Lemma moves_current a b : lease_moves a b → current_lease b = true → current_lease a = true.
Proof.
  apply (moves_ind_step (λ a b, current_lease b = true → current_lease a = true)); [tauto|tauto|].
  intros x y []; cbn; [|done|done]. intros _. apply current_lease_true. by left.
Qed.
Lemma moves_live a b : lease_moves a b → live b = true → live a = true.
Proof.
  apply (moves_ind_step (λ a b, live b = true → live a = true)); [tauto|tauto|].
  intros x y [l H|l H|l H]; cbn; try done; intros _; apply live_true; [by rewrite H|]. apply current_lease_true in H. by destruct H as [->| ->].
Qed.
Lemma moves_released a b : lease_moves a b → ls_state a = Released → b = a.
Proof.
  intros H Ha. inversion H as [|? y ? Hs _]; subst; [done|]. exfalso.
  inversion Hs as [l E|l E|l E]; subst; [| |]; [congruence| |congruence]. apply current_lease_true in E. destruct E; congruence.
Qed.
Lemma moves_generation a b : lease_moves a b → generation_ok a → generation_ok b.
Proof.
  apply (moves_ind_step (λ a b, generation_ok a → generation_ok b)); [tauto|tauto|].
  intros x y [l H|l H|l H] G; unfold generation_ok in *; cbn.
  - assert (current_lease l = true) as C by (apply current_lease_true; by left). by rewrite C in G.
  - rewrite H in G. rewrite G. done.
  - assert (current_lease l = false) as C by (apply not_true_iff_false; rewrite current_lease_true; intros []; congruence). by rewrite C in G.
Qed.
(** A lease that has left its current states only keeps or ends. *)
Lemma moves_retired a b : lease_moves a b → current_lease a = false → ls_generation b = ls_generation a.
Proof.
  intros H. induction H as [|x y z Hxy _ IH]; [done|]. intros C. rewrite IH.
  - inversion Hxy; subst; cbn; try done. congruence.
  - apply not_true_iff_false. intros Cy. apply not_true_iff_false in C. apply C. eapply moves_current; [by apply rtc_once|done].
Qed.

(** ** Tables of leases *)

Implicit Types (L : list (pystr * lease)) (A : list (pystr * access_row)).

(** Each row moved forward, and no other row appeared. *)
Definition stepped L L' : Prop :=
  dkeys L' = dkeys L ∧ ∀ id l, dget id L = Some l → ∃ l', dget id L' = Some l' ∧ lease_moves l l'.

Lemma stepped_refl L : stepped L L.
Proof. split; [done|]. intros id l H. exists l. split; [done|constructor]. Qed.
Lemma stepped_trans L1 L2 L3 : stepped L1 L2 → stepped L2 L3 → stepped L1 L3.
Proof.
  intros [K1 H1] [K2 H2]. split; [congruence|]. intros id l H. destruct (H1 _ _ H) as (l2 & H' & M1).
  destruct (H2 _ _ H') as (l3 & H'' & M2). exists l3. split; [done|]. by etrans.
Qed.
Lemma stepped_put L id l l' : dget id L = Some l → lease_step l l' → stepped L (dset id l' L).
Proof.
  intros H Hs. split; [apply dkeys_dset_old; by eapply dget_Some_key|]. intros id2 l2 H2. rewrite dget_dset. case_decide; subst.
  - rewrite H in H2. injection H2 as <-. eexists. split; [done|]. by apply rtc_once.
  - eexists. split; [done|constructor].
Qed.
Lemma stepped_back L L' id l' : stepped L L' → dget id L' = Some l' → ∃ l, dget id L = Some l ∧ lease_moves l l'.
Proof.
  intros [K H] H'. destruct (dget id L) as [l|] eqn:E.
  - destruct (H _ _ E) as (x & Hx & M). rewrite H' in Hx. injection Hx as <-. eauto.
  - exfalso. apply dget_None in E. rewrite <- K in E. apply E. by eapply dget_Some_key.
Qed.

(** No two rows collide in a unique index. *)
Definition slots_ok L : Prop :=
  ∀ id1 l1 id2 l2, dget id1 L = Some l1 → dget id2 L = Some l2 → id1 ≠ id2 → same_slot l1 l2 = false.

(** What a lease may have of its device's access. *)
Definition granted A (l : lease) : Prop :=
  ∃ a, dget (ls_device l) A = Some a ∧ (current_lease l = true → ac_revoked a = false ∧ ls_expires l <= ac_expires a).

Lemma same_slot_terms a b a' b' : same_terms a a' → same_terms b b' → (live a' = true → live a = true) → (live b' = true → live b = true) →
  same_slot a b = false → same_slot a' b' = false.
Proof.
  unfold same_terms, with_state. intros [= Ha1 Ha2 Ha3 Ha4 Ha5 Ha6 _ _ _ _] [= Hb1 Hb2 Hb3 Hb4 Hb5 Hb6 _ _ _ _] La Lb. unfold same_slot.
  rewrite Ha1, Ha2, Ha3, Ha4, Ha5, Ha6, Hb1, Hb2, Hb3, Hb4, Hb5, Hb6.
  destruct (live a'), (live b'); [|by rewrite ?andb_false_r..]. rewrite La, Lb by done. done.
Qed.

Lemma slots_stepped L L' : stepped L L' → slots_ok L → slots_ok L'.
Proof.
  intros H S id1 l1 id2 l2 H1 H2 Hne.
  destruct (stepped_back _ _ _ _ H H1) as (x1 & X1 & M1), (stepped_back _ _ _ _ H H2) as (x2 & X2 & M2).
  eapply same_slot_terms; [by apply moves_terms|by apply moves_terms|by apply moves_live|by apply moves_live|by eapply S].
Qed.

Lemma terms_eq a b : same_terms a b → ls_device a = ls_device b ∧ ls_gateway a = ls_gateway b ∧ ls_address a = ls_address b
  ∧ ls_expires a = ls_expires b ∧ ls_registry a = ls_registry b ∧ ls_transport a = ls_transport b ∧ ls_version a = ls_version b.
Proof. unfold same_terms, with_state. intros [=]. done. Qed.

(** A property of the terms and of being current carries over. *)
Lemma stepped_rows (P : pystr → lease → Prop) L L' :
  (∀ id a b, lease_moves a b → P id a → P id b) → stepped L L' →
  (∀ id l, dget id L = Some l → P id l) → ∀ id l, dget id L' = Some l → P id l.
Proof. intros HP H HL id l Hl. destruct (stepped_back _ _ _ _ H Hl) as (x & Hx & M). eapply HP; [done|]. by apply HL. Qed.

Lemma granted_moves A a b : lease_moves a b → granted A a → granted A b.
Proof.
  intros M (r & Hr & C). destruct (terms_eq _ _ (moves_terms _ _ M)) as (D & _ & _ & X & _). exists r. rewrite <- D. split; [done|].
  intros Cb. rewrite <- X. apply C. by eapply moves_current.
Qed.

(** ** Retiring *)

Lemma retire_lease_Ok id now s l s' : retire_lease id now s = (Ok l, s') →
  ∃ L E, s' = set_events E (set_leases L s) ∧ stepped (fd_leases s) L ∧ dget id L = Some l ∧ current_lease l = false
    ∧ (∀ id', id' ≠ id → dget id' L = dget id' (fd_leases s)).
Proof.
  unfold retire_lease. intros H. inv_f1 || idtac. apply M_bind_Ok in H as (l0 & s0 & H0 & H). inv_f1.
  destruct (current_lease l0) eqn:C.
  - inv_f. subst. eexists _, _. split; [reflexivity|]. cbn in *. split; [by eapply stepped_put, step_retire|].
    match goal with H : dget id (dset id _ _) = Some _ |- _ => rewrite dget_dset_eq in H; injection H as <- end.
    split; [by rewrite dget_dset_eq|]. split; [done|]. intros id' Hne. by apply dget_dset_ne.
  - inv_f. subst. exists (fd_leases s), (fd_events s). split; [by destruct s|]. split; [apply stepped_refl|].
    split_and!; try done. congruence.
Qed.

Lemma retire_all_Ok ids now s ls s' : retire_all ids now s = (Ok ls, s') →
  ∃ L E, s' = set_events E (set_leases L s) ∧ stepped (fd_leases s) L ∧ ls.*1 = ids
    ∧ (∀ id, id ∈ ids → ∃ l, dget id L = Some l ∧ current_lease l = false)
    ∧ (∀ id, id ∉ ids → dget id L = dget id (fd_leases s)).
Proof.
  revert s ls s'. induction ids as [|id ids IH]; intros s ls s' H; cbn [retire_all] in H.
  - inv_f. exists (fd_leases s), (fd_events s). split; [by destruct s|]. split_and!; [apply stepped_refl|done| |done].
    intros id Hin. by apply not_elem_of_nil in Hin.
  - apply M_bind_Ok in H as (l & s1 & H1 & H). apply M_bind_Ok in H as (ls1 & s2 & H2 & H). apply mret_Ok in H as [-> ->].
    destruct (retire_lease_Ok _ _ _ _ _ H1) as (L1 & E1 & -> & S1 & G1 & C1 & O1).
    destruct (IH _ _ _ H2) as (L2 & E2 & -> & S2 & K2 & F2 & O2). cbn in *. exists L2, E2. split; [reflexivity|].
    split; [by eapply stepped_trans|]. split; [by rewrite K2|]. split.
    + intros id' [->|Hin]%elem_of_cons; [|by apply F2].
      destruct (proj2 S2 _ _ G1) as (l' & Gl' & M). exists l'. split; [done|]. apply not_true_iff_false. intros C.
      apply (moves_current _ _ M) in C. congruence.
    + intros id' Hn. apply not_elem_of_cons in Hn as [Hne Hn]. rewrite O2 by done. by apply O1.
Qed.

(** ** Registries *)

(** Reading back what the writer wrote. *)
Class FleetJsonLaws {PY : Pydantic} {FJ : FleetJson} (float_repr : spec_float → pystr) : Prop := {
  registry_reads_back r r' : read_registry float_repr (registry_dump_json r) = Ok r' → r' = r;
}.

Lemma find_node_in id r g : find_node id r = Some g → g ∈ fr_gateways r ∧ fg_id g = id.
Proof. unfold find_node. intros H%dict_of_elem. apply list_elem_of_fmap in H as (x & [= -> ->] & H). done. Qed.

(** A later registry keeps every gateway's pool. *)
Definition pools_kept (a b : fleet_registry) : Prop :=
  ∀ id g, find_node id a = Some g → ∃ g', find_node id b = Some g' ∧ fg_pool g' = fg_pool g.
Definition succeeds (a b : fleet_registry) : Prop := fr_revision a < fr_revision b ∧ pools_kept a b.

#[export] Instance succeeds_trans : Transitive succeeds.
Proof.
  intros a b c [R1 P1] [R2 P2]. split; [lia|]. intros id g H. destruct (P1 _ _ H) as (g' & H' & E).
  destruct (P2 _ _ H') as (g'' & H'' & E'). exists g''. split; [done|congruence].
Qed.

Lemma validate_update_Ok a b c : validate_update a b = Ok c → c = b ∧ succeeds a b.
Proof.
  unfold validate_update. intros H. steps. split; [done|]. split; [lia|]. intros id g Hg.
  destruct (find_node_in _ _ _ Hg) as [Hin <-].
  match goal with H : forallb _ (fr_gateways a) = true |- _ => rewrite forallb_forall in H; apply list_elem_of_In in Hin; apply H in Hin end.
  destruct (find_node (fg_id g) c) as [g'|]; [|done]. sbools. eauto.
Qed.

Section Spec.
Context {RN : Rns} {PY : Pydantic} {FJ : FleetJson} {LM : LibM} (float_repr : spec_float → pystr) {FJL : FleetJsonLaws float_repr}.
Abbreviation read_registry := (read_registry float_repr).

(** The stored registries read back, each a successor of the ones before. *)
Definition registries_ok (l : list (Z * pystr)) : Prop :=
  ∃ rs, Forall2 (λ x r, x.1 = fr_revision r ∧ read_registry x.2 = Ok r) l rs ∧ StronglySorted succeeds rs ∧ rs ≠ [].

Lemma newest_last (l : list (Z * pystr)) rs : Forall2 (λ x r, x.1 = fr_revision r ∧ read_registry x.2 = Ok r) l rs →
  StronglySorted succeeds rs → newest_text l = last l.
Proof.
  unfold newest_text. destruct l as [|x l]; [done|]. intros F S. inversion F as [|? r ? rs' [Hx _] F']; subst. cbn [foldl].
  inversion S as [|? ? S' Hr]; subst. clear F S. revert x r Hx rs' F' S' Hr.
  induction l as [|y l IH]; intros x r Hx rs' F' S' Hr; [done|]. inversion F' as [|? r2 ? rs2 [Hy _] F2]; subst. cbn [foldl].
  inversion S' as [|? ? S2 Hr2]; subst. inversion Hr as [|? ? [Hlt _] _]; subst.
  replace (x.1 <? y.1) with true by lia. rewrite (IH y r2 Hy rs2 F2 S2 Hr2). done.
Qed.

Lemma latest_registry_Ok s r s' : registries_ok (fd_registries s) → latest_registry float_repr s = (Ok r, s') →
  s' = s ∧ ∃ text, (fr_revision r, text) ∈ fd_registries s ∧ read_registry text = Ok r
    ∧ (∀ x r', x ∈ fd_registries s → read_registry x.2 = Ok r' → r' = r ∨ succeeds r' r).
Proof.
  intros (rs & F & S & _) H. unfold latest_registry in H. inv_f.
  match goal with H : newest_text _ = Some _ |- _ => rewrite (newest_last _ _ F S) in H; apply last_Some in H as (l0 & El) end.
  split; [done|]. rewrite El in *. apply Forall2_app_inv_l in F as (rs0 & rs1 & F0 & F1 & ->).
  inversion F1 as [|? r1 ? ? [Hr1 Hr2] F2]; subst. inversion F2; subst. cbn in *.
  match goal with H : read_registry _ = Ok r, H' : read_registry _ = Ok r1 |- _ => rewrite H in H'; injection H' as <- end.
  eexists. split; [apply elem_of_app; right; rewrite <- Hr1; left|]. split; [done|]. intros x r' Hx Hr'.
  apply elem_of_app in Hx as [Hx|Hx%list_elem_of_singleton]; [|subst; left; cbn in *; congruence].
  right. apply list_elem_of_lookup in Hx as (i & Hi). destruct (Forall2_lookup_l _ _ _ _ _ F0 Hi) as (r2 & H2 & _ & E2).
  rewrite Hr' in E2. injection E2 as <-. eapply StronglySorted_app_1_elem_of; [exact S| |left].
  by eapply list_elem_of_lookup_2.
Qed.

Lemma registries_snoc l r text : registries_ok l →
  (∀ x r', x ∈ l → read_registry x.2 = Ok r' → succeeds r' r) → read_registry text = Ok r → registries_ok (l ++ [(fr_revision r, text)]).
Proof.
  intros (rs & F & S & N) Hs Ht. exists (rs ++ [r]). split; [apply Forall2_app; [done|by repeat constructor]|].
  split; [|by destruct rs]. clear N. induction F as [|x r' l rs [Hx Hr] F IH]; [by repeat constructor|].
  inversion S as [|? ? S' Hall]; subst. cbn. constructor.
  - apply IH; [done|]. intros y r2 Hy. apply Hs. by right.
  - apply Forall_app. split; [done|]. constructor; [|done]. eapply Hs; [left|done].
Qed.

(** ** The invariant *)

(** The address is a host of the gateway's pool, in the registry of the lease. *)
Definition placed (registries : list (Z * pystr)) (l : lease) : Prop :=
  ∃ text r g pool n, dget (ls_registry l) registries = Some text ∧ read_registry text = Ok r ∧ find_node (ls_gateway l) r = Some g
    ∧ pool_of (fg_pool g) = Some pool ∧ pool.1 + 2 <= n < pool.1 + pool_size pool.2 - 1 ∧ ls_address l = host_route n.

Lemma placed_moves R a b : lease_moves a b → placed R a → placed R b.
Proof.
  intros M (text & r & g & pool & n & P). destruct (terms_eq _ _ (moves_terms _ _ M)) as (_ & Eg & Ea & _ & Er & _).
  rewrite Eg, Ea, Er in P. by exists text, r, g, pool, n.
Qed.

Lemma requests_stepped L L' id d : stepped L L' →
  (∃ l, dget id L = Some l ∧ ls_device l = d) → ∃ l, dget id L' = Some l ∧ ls_device l = d.
Proof.
  intros [_ S] (l & Hl & Hd). destruct (S _ _ Hl) as (l' & Hl' & M). exists l'. split; [done|].
  destruct (terms_eq _ _ (moves_terms _ _ M)) as [<- _]. done.
Qed.

Record store_ok (s : fleet_db) : Prop := {
  so_schema : fd_schema s = 3;
  so_clock : 0 <= fd_now s < 2 ^ 63;
  so_registries : registries_ok (fd_registries s);
  so_keys : NoDup (dkeys (fd_leases s));
  so_slots : slots_ok (fd_leases s);
  so_generation id l : dget id (fd_leases s) = Some l → generation_ok l;
  so_granted id l : dget id (fd_leases s) = Some l → granted (fd_access s) l;
  so_placed id l : dget id (fd_leases s) = Some l → placed (fd_registries s) l;
  so_wg d1 a1 d2 a2 : dget d1 (fd_access s) = Some a1 → dget d2 (fd_access s) = Some a2 → ac_wg a1 = ac_wg a2 → d1 = d2;
  so_requests d q r : dget (d, q) (fd_requests s) = Some r → ∃ l, dget (rq_lease r) (fd_leases s) = Some l ∧ ls_device l = d;
}.

(** What later states keep of earlier ones. *)
Definition access_kept (a a' : access_row) : Prop :=
  ac_public a' = ac_public a ∧ ac_wg a' = ac_wg a ∧ (a' = a ∨ ac_revision a < ac_revision a').
Record advances (s s' : fleet_db) : Prop := {
  av_clock : fd_now s <= fd_now s';
  av_access d a : dget d (fd_access s) = Some a → ∃ a', dget d (fd_access s') = Some a' ∧ access_kept a a';
  av_leases id l : dget id (fd_leases s) = Some l → ∃ l', dget id (fd_leases s') = Some l' ∧ lease_moves l l';
  av_requests k r : dget k (fd_requests s) = Some r → dget k (fd_requests s') = Some r;
  av_registries k t : dget k (fd_registries s) = Some t → dget k (fd_registries s') = Some t;
  av_authority p : fd_authority s = Some p → fd_authority s' = Some p;
  av_publications k p : dget k (fd_publications s) = Some p → dget k (fd_publications s') = Some p;
}.

Lemma access_kept_refl a : access_kept a a.
Proof. unfold access_kept. tauto. Qed.
Lemma access_kept_trans a b c : access_kept a b → access_kept b c → access_kept a c.
Proof. intros (P1 & W1 & R1) (P2 & W2 & R2). split; [congruence|]. split; [congruence|]. destruct R1 as [->|], R2 as [->|]; auto. right. lia. Qed.

Lemma advances_refl s : advances s s.
Proof.
  split; try done; [intros d a H; exists a; split; [done|apply access_kept_refl]|intros id l H; exists l; split; [done|constructor]].
Qed.
Lemma advances_trans a b c : advances a b → advances b c → advances a c.
Proof.
  intros A B. split.
  - destruct A, B. lia.
  - intros d x Hx. destruct (av_access _ _ A _ _ Hx) as (y & Hy & K). destruct (av_access _ _ B _ _ Hy) as (z & Hz & K').
    exists z. split; [done|]. by eapply access_kept_trans.
  - intros d x Hx. destruct (av_leases _ _ A _ _ Hx) as (y & Hy & K). destruct (av_leases _ _ B _ _ Hy) as (z & Hz & K').
    exists z. split; [done|]. by etrans.
  - intros k r H. by apply B, A.
  - intros k r H. by apply B, A.
  - intros k H. by apply B, A.
  - intros k r H. by apply B, A.
Qed.

(** A change that keeps the invariant and moves forward. *)
Definition good (s s' : fleet_db) : Prop := store_ok s → store_ok s' ∧ advances s s'.
#[local] Instance good_preorder : PreOrder good.
Proof.
  split; [intros s H; split; [done|apply advances_refl]|]. intros a b c F G H. destruct (F H) as [H1 A1]. destruct (G H1) as [H2 A2].
  split; [done|]. by eapply advances_trans.
Qed.

Ltac good_trivial := intros H0; split; [destruct H0; by split|]; split; cbn;
  first [done|lia|intros ? a ?; exists a; split; [done|apply access_kept_refl]|intros ? l ?; exists l; split; [done|constructor]|idtac].

Lemma good_clock now s : fd_now s <= now → 0 <= now < 2 ^ 63 → good s (set_clock now s).
Proof. intros H1 H2. good_trivial. Qed.
Lemma good_events E s : good s (set_events E s).
Proof. good_trivial. Qed.
Lemma good_nonces x s : good s (set_nonces x s).
Proof. good_trivial. Qed.
Lemma good_jobs x s : good s (set_jobs x s).
Proof. good_trivial. Qed.
Lemma good_authority p s : fd_authority s = None → good s (set_authority (Some p) s).
Proof. intros H. good_trivial. congruence. Qed.
Lemma good_published c p s : good s (set_published c (fd_publications s ++ [p]) s).
Proof. good_trivial. intros k x H. by apply dget_app_l. Qed.

Lemma good_leases L E s : stepped (fd_leases s) L → good s (set_events E (set_leases L s)).
Proof.
  intros S H0. split.
  - destruct H0. split; cbn; try done.
    + destruct S as [K _]. unfold dkeys in *. by rewrite K.
    + by eapply slots_stepped.
    + eapply (stepped_rows (λ _, generation_ok)); [intros ? a b; apply moves_generation|done|done].
    + eapply (stepped_rows (λ _, granted _)); [intros ? a b; apply granted_moves|done|done].
    + eapply (stepped_rows (λ _, placed _)); [intros ? a b; apply placed_moves|done|done].
    + intros d q r Hr. by eapply requests_stepped, so_requests0.
  - split; cbn; try done; [|apply S]. intros d a Ha. exists a. split; [done|apply access_kept_refl].
Qed.

Lemma good_put id l l' s : dget id (fd_leases s) = Some l → lease_step l l' → good s (set_leases (dset id l' (fd_leases s)) s).
Proof. intros H M. apply (good_leases _ (fd_events s)). by eapply stepped_put. Qed.

Lemma str_eqb_sym a b : str_eqb a b = str_eqb b a.
Proof. apply eq_true_iff_eq. rewrite !str_eqb_eq. done. Qed.
Lemma same_slot_sym a b : same_slot a b = same_slot b a.
Proof.
  unfold same_slot. rewrite (andb_comm (live a)), (str_eqb_sym (ls_gateway a)), (str_eqb_sym (ls_address a)), (str_eqb_sym (ls_device a)),
    (str_eqb_sym (ls_country a)), (str_eqb_sym (ls_transport a)), (str_eqb_sym (ls_version a)). done.
Qed.

(** A new reservation. *)
Lemma good_insert id l q f s :
  dget id (fd_leases s) = None → existsb (λ x, same_slot x.2 l) (fd_leases s) = false → dget (ls_device l, q) (fd_requests s) = None →
  generation_ok l → granted (fd_access s) l → placed (fd_registries s) l →
  good s (set_requests (fd_requests s ++ [((ls_device l, q), RequestRow f id)]) (set_leases (dset id l (fd_leases s)) s)).
Proof.
  intros Hid Hs Hq G A P H0. assert (∀ i x, dget i (fd_leases s) = Some x → i ≠ id) as Hne by (intros i x Hx ->; congruence).
  assert (∀ i x, dget i (fd_leases s) = Some x → same_slot x l = false) as Hslot.
  { intros i x Hx. apply dget_elem in Hx. by apply (existsb_false _ _ _ Hs Hx). }
  assert (∀ (Q : lease → Prop) i x, Q l → (∀ i x, dget i (fd_leases s) = Some x → Q x) → dget i (dset id l (fd_leases s)) = Some x → Q x) as Hrow.
  { intros Q i x Ql Hold. rewrite dget_dset. case_decide; [by intros [= <-]|]. apply Hold. }
  split.
  - destruct H0. split; cbn; try done.
    + by apply dset_NoDup.
    + intros i1 l1 i2 l2. rewrite !dget_dset. repeat case_decide; subst; intros H1 H2 N; simplify_eq; try done.
      * rewrite same_slot_sym. by eapply Hslot.
      * by eapply Hslot.
      * by eapply so_slots0.
    + intros i x. by apply Hrow.
    + intros i x. by apply Hrow.
    + intros i x. by apply Hrow.
    + intros d q' r. rewrite dget_snoc by done. case_decide; [intros [= <-]; simplify_eq; exists l; cbn; by rewrite dget_dset_eq|].
      intros Hr. destruct (so_requests0 _ _ _ Hr) as (x & Hx & D). exists x. rewrite dget_dset_ne by (symmetry; by eapply Hne). done.
  - split; cbn; try done.
    + intros d a Ha. exists a. split; [done|apply access_kept_refl].
    + intros i x Hx. exists x. rewrite dget_dset_ne by (symmetry; by eapply Hne). split; [done|constructor].
    + intros k r Hk. by apply dget_app_l.
Qed.

(** A new registry after the newest. *)
Lemma good_registry r s : registries_ok (fd_registries s ++ [(fr_revision r, registry_dump_json r)]) →
  good s (set_registries (fd_registries s ++ [(fr_revision r, registry_dump_json r)]) s).
Proof.
  intros Hr H0. split.
  - destruct H0. split; cbn; try done. intros id l Hl. destruct (so_placed0 _ _ Hl) as (text & x & g & pool & n & Ht & Rest).
    exists text, x, g, pool, n. split; [by apply dget_app_l|done].
  - split; cbn; try done.
    + intros d a Ha. exists a. split; [done|apply access_kept_refl].
    + intros id l Hl. exists l. split; [done|constructor].
    + intros k t Hk. by apply dget_app_l.
Qed.

(** A new access row, with the leases it does not cover retired. *)
Lemma good_grants device row L E s :
  (∀ old, dget device (fd_access s) = Some old → ac_public old = ac_public row ∧ ac_wg old = ac_wg row ∧ ac_revision old < ac_revision row) →
  (dget device (fd_access s) = None → taken_keys (ac_public row) (ac_wg row) (fd_access s) = false) →
  stepped (fd_leases s) L →
  (∀ id l, dget id L = Some l → ls_device l = device → current_lease l = true → ac_revoked row = false ∧ ls_expires l <= ac_expires row) →
  good s (set_events E (set_leases L (set_grants (dset device row (fd_access s)) s))).
Proof.
  intros Hold Hnew S Hc H0.
  assert (advances s (set_grants (dset device row (fd_access s)) s)) as Adv.
  { split; cbn; try done; [|intros id l Hl; exists l; split; [done|constructor]]. intros d a Ha. rewrite dget_dset. case_decide; subst.
    - exists row. split; [done|]. destruct (Hold _ Ha) as (P & W & R). unfold access_kept. auto.
    - exists a. split; [done|apply access_kept_refl]. }
  split.
  - destruct H0. split; cbn; try done.
    + destruct S as [K _]. unfold dkeys in *. by rewrite K.
    + by eapply slots_stepped.
    + eapply (stepped_rows (λ _, generation_ok)); [intros ? a b; apply moves_generation|done|done].
    + intros id l Hl. destruct (stepped_back _ _ _ _ S Hl) as (x & Hx & M). destruct (granted_moves _ _ _ M (so_granted0 _ _ Hx)) as (a & Ha & C).
      unfold granted. destruct (decide (device = ls_device l)) as [Ed|Ed].
      * exists row. subst device. rewrite dget_dset_eq. split; [done|]. by eapply Hc.
      * exists a. rewrite dget_dset_ne by done. done.
    + eapply (stepped_rows (λ _, placed _)); [intros ? a b; apply placed_moves|done|done].
    + assert (∀ d a, dget d (fd_access s) = Some a → ac_wg a = ac_wg row → d = device) as Hwg.
      { intros d a Ha W. destruct (dget device (fd_access s)) as [old|] eqn:Eo.
        - destruct (Hold _ eq_refl) as (_ & W' & _). eapply so_wg0; [done|done|congruence].
        - specialize (Hnew eq_refl). unfold taken_keys in Hnew. apply dget_elem in Ha. apply (existsb_false _ _ _ Hnew) in Ha. cbn in Ha.
          sbools. congruence. }
      intros d1 a1 d2 a2. rewrite !dget_dset. repeat case_decide; subst; intros H1 H2 W; simplify_eq; try done.
      * symmetry. by eapply Hwg.
      * by eapply Hwg.
      * by eapply so_wg0.
    + intros d q r Hr. by eapply requests_stepped, so_requests0.
  - eapply advances_trans; [exact Adv|]. split; cbn; try done; [|apply S]. intros d a Ha. exists a. split; [done|apply access_kept_refl].
Qed.

(** ** The operations *)

Lemma good_transaction {X} mig now (m : M fleet_db X) s r s' :
  (∀ s a s', m s = (Ok a, s') → good s s') → fleet_transaction mig now m s = (r, s') → good s s'.
Proof.
  intros Hm H. destruct r as [a|e].
  - apply fleet_transaction_Ok in H as (C & N & H). etrans; [by apply (good_clock now)|]. by eapply Hm.
  - apply transaction_raise in H as ->. done.
Qed.

Lemma retire_all_good ids now s ls s' : retire_all ids now s = (Ok ls, s') → good s s'.
Proof. intros H. destruct (retire_all_Ok _ _ _ _ _ H) as (L & E & -> & S & _). by apply good_leases. Qed.

Lemma update_node_good prev now node s u s' : update_node prev now node s = (Ok u, s') → good s s' ∧ fd_registries s' = fd_registries s.
Proof.
  unfold update_node. intros H. destruct (find_node (fg_id node) prev) as [old|]; [|by inv_f; subst].
  inv_f. case_bool_decide.
  - inv_f. subst. match goal with H : retire_all _ _ _ = _ |- _ => split; [by eapply retire_all_good|]; apply retire_all_Ok in H as (L & E' & -> & _) end.
    done.
  - inv_f. by subst.
Qed.

Lemma update_nodes_good prev now l s u s' : iterM (update_node prev now) l s = (Ok u, s') → good s s' ∧ fd_registries s' = fd_registries s.
Proof.
  revert s u s'. induction l as [|x l IH]; intros s u s' H; cbn [iterM] in H; [by inv_f; subst|].
  apply M_bind_Ok in H as (a & s1 & H1 & H). apply update_node_good in H1 as [G1 R1]. apply IH in H as [G2 R2].
  split; [by etrans|congruence].
Qed.

Lemma install_registry_good c now s r s' : install_registry float_repr c now s = (r, s') → good s s'.
Proof.
  unfold install_registry. rewrite bind_lift. destruct (read_registry (registry_dump_json c)) as [c'|e] eqn:Ec; [|by intros [= <- <-]].
  pose proof (registry_reads_back _ _ Ec) as ->. apply good_transaction. clear s r s'. intros s a s' H.
  intros H0. apply M_bind_Ok in H as (p & s1 & Hp & H). destruct (latest_registry_Ok _ _ _ (so_registries _ H0) Hp) as (-> & text & Hin & Ht & Hnew).
  case_bool_decide as Ec'; [apply mret_Ok in H as [_ ->]; split; [done|apply advances_refl]|].
  apply M_bind_Ok in H as (v & s2 & Hv & H). apply lift_Ok in Hv as [Hv ->]. apply validate_update_Ok in Hv as [-> Hs].
  apply M_bind_Ok in H as (u & s2 & Hu & H). apply update_nodes_good in Hu as [G R]. destruct (G H0) as [H2 A2].
  inv_f. subst. destruct (good_registry c s2) as [H3 A3]; [|done|].
  { rewrite R. apply registries_snoc; [apply H0| |done]. intros x r' Hx Hr'. destruct (Hnew _ _ Hx Hr') as [->|]; [done|by etrans]. }
  destruct (good_events (fd_events s2 ++ [FleetEvent now "registry" (json_int (fr_revision c))]) _ H3) as [H4 A4].
  split; [exact H4|]. eapply advances_trans; [exact A2|]. by eapply advances_trans.
Qed.

Lemma ids_where_in p s id l : dget id (fd_leases s) = Some l → p l = true → id ∈ ids_where p s.
Proof.
  intros H Hp. unfold ids_where. apply list_elem_of_fmap. exists (id, l). split; [done|]. apply list_elem_of_In, List.filter_In.
  split; [|done]. by apply list_elem_of_In, dget_elem.
Qed.

Lemma set_access_good d p w rev ex mx rk now s r s' : set_access d p w rev ex mx rk now s = (r, s') → good s s'.
Proof.
  unfold set_access. intros H. destruct r as [u|e].
  2:{ assert (atomic (set_access d p w rev ex mx rk now)) as Ha; [|by apply Ha in H as ->].
      unfold set_access, positive_to, admit_if. repeat (apply atomic_bind_lift; intros). apply atomic_transaction. }
  repeat match type of H with (mbind _ _) _ = _ => apply M_bind_Ok in H as (? & ? & ?H' & H) end.
  repeat match goal with H : positive_to _ _ _ = _ |- _ => apply admit_if_Ok in H as [? ->] | H : lift _ _ = _ |- _ => apply lift_Ok in H as [? ->]
    | H : admit_if _ _ _ = (Ok _, _) |- _ => apply admit_if_Ok in H as [? ->] end.
  revert H. apply good_transaction. clear s s'. intros s a s' H.
  apply M_bind_Ok in H as (? & ? & Hg & H). apply get_state_Ok in Hg as [-> ->].
  case_bool_decide as Eo; [inv_f; by subst|]. apply M_bind_Ok in H as (u1 & s1 & Hc & H). apply admit_if_Ok in Hc as [Hc ->]. inv_f. subst.
  match goal with H : retire_all _ _ _ = (Ok _, _) |- _ => apply retire_all_Ok in H as (L & E' & -> & S & _ & Hin & Hout) end.
  match goal with H : match dget d _ with Some _ => _ | None => _ end s = (Ok _, ?x) |- _ => rename H into Hk, x into s2 end.
  assert (s2 = s ∧ (dget d (fd_access s) = None → taken_keys p w (fd_access s) = false)) as [-> Htk].
  { destruct (dget d (fd_access s)); [by inv_f|]. apply guard_raise_Ok in Hk as [? ->]. done. }
  apply good_grants; [|done|done|].
  - intros old Hold. rewrite Hold in Hc. clear -Hc.
    sbools. cbn. split_and!; [done|done|lia].
  - intros id l Hl D C. destruct (stepped_back _ _ _ _ S Hl) as (xl & Hx & M). destruct (terms_eq _ _ (moves_terms _ _ M)) as (Dx & _ & _ & Xx & _).
    destruct (rk || (ex <? ls_expires l)) eqn:Er; [exfalso|by apply orb_false_iff in Er as [-> ?]; split; [done|cbn; lia]].
    destruct (Hin id) as (l' & Hl' & C'); [|congruence]. eapply ids_where_in; [exact Hx|].
    by rewrite (proj2 (str_eqb_eq _ d)), Xx, Er, (moves_current _ _ M C) by congruence.
Qed.

(** ** Proposals *)

Lemma insert_by_perm {X} (le : X → X → bool) x l : insert_by le x l ≡ₚ x :: l.
Proof. induction l as [|y l IH]; cbn; [done|]. destruct (le x y); [done|]. rewrite IH. constructor. Qed.
Lemma sort_by_perm {X} (le : X → X → bool) l : sort_by le l ≡ₚ l.
Proof. induction l as [|x l IH]; cbn; [done|]. by rewrite insert_by_perm, IH. Qed.

(** A gateway that may take a new device. *)
Definition eligible (r : fleet_registry) (a : admission) (now max_age : Z) samples (g : fleet_gateway) : bool :=
  match fresh_sample r a now max_age samples g with Some o => has_room g o | None => false end.
(** The gateway of an assignment that may be kept. *)
Definition healthy (r : fleet_registry) (a : admission) (now max_age : Z) samples (g : fleet_gateway) : bool :=
  bool_decide (is_Some (fresh_sample r a now max_age samples g)).

(** The proposal: the assignment that may be kept, then every gateway with room,
    in the order of their scores. *)
Lemma rank_gateways_Ok r obs a now current max_age ids :
  rank_gateways float_repr r obs a now current max_age = Ok ids →
  ∃ samples rest, samples_of obs = Ok samples
    ∧ ids = (if existsb (λ g, bool_decide (current = Some (fg_id g)) && healthy r a now max_age samples g) (fr_gateways r)
             then option_list current else []) ++ rest
    ∧ rest ≡ₚ fg_id <$> List.filter (λ g, negb (bool_decide (current = Some (fg_id g))) && eligible r a now max_age samples g) (fr_gateways r).
Proof.
  unfold rank_gateways. intros H. apply bind_Ok in H as (u & _ & H). apply bind_Ok in H as (samples & Hs & H).
  apply bind_Ok in H as ([ranked retained] & Hf & H). injection H as <-. exists samples, (snd <$> sort_by ranked_le ranked). split; [done|].
  match type of Hf with foldR ?b _ _ = _ => set (body := b) in Hf end.
  assert (∀ l acc old acc' old', foldR body (acc, old) l = Ok (acc', old') →
    old' = (if existsb (λ g, bool_decide (current = Some (fg_id g)) && healthy r a now max_age samples g) l then current else old) ∧
    acc'.*2 = acc.*2 ++ (fg_id <$> List.filter (λ g, negb (bool_decide (current = Some (fg_id g))) && eligible r a now max_age samples g) l)) as G.
  { clear. induction l as [|g l IH]; intros acc old acc' old' H; cbn [foldR] in H.
    { injection H as <- <-. cbn. by rewrite app_nil_r. }
    apply bind_Ok in H as ([acc1 old1] & H1 & H). apply IH in H as [-> ->]. cbn [existsb List.filter]. unfold body in H1. clear body IH.
    destruct (fresh_sample r a now max_age samples g) as [o|] eqn:Ef.
    2:{ assert (healthy r a now max_age samples g = false ∧ eligible r a now max_age samples g = false) as [-> ->].
        { unfold healthy, eligible. rewrite Ef. split; [|done]. apply bool_decide_eq_false_2. by intros []. }
        injection H1 as <- <-. rewrite !andb_false_r. done. }
    assert (healthy r a now max_age samples g = true ∧ eligible r a now max_age samples g = has_room g o) as [-> ->].
    { unfold healthy, eligible. rewrite Ef. split; [|done]. apply bool_decide_eq_true_2. eauto. }
    rewrite andb_true_r. case_bool_decide as Ec.
    - injection H1 as <- <-. rewrite Ec. split; [by destruct (existsb _ l)|done].
    - destruct (has_room g o).
      + apply bind_Ok in H1 as (sc & _ & H1). injection H1 as <- <-. cbn. rewrite fmap_app, <- app_assoc. done.
      + injection H1 as <- <-. done. }
  destruct (G _ _ _ _ _ Hf) as [-> E]. split; [by destruct (existsb _ _)|]. rewrite sort_by_perm. by rewrite E.
Qed.

Lemma rank_new_eligible r obs a now max_age ids id : rank_gateways float_repr r obs a now None max_age = Ok ids → id ∈ ids →
  ∃ samples g, samples_of obs = Ok samples ∧ g ∈ fr_gateways r ∧ fg_id g = id ∧ eligible r a now max_age samples g = true.
Proof.
  intros (samples & rest & Hs & -> & Hp)%rank_gateways_Ok Hin. exists samples.
  assert (id ∈ rest) as Hr by (apply elem_of_app in Hin as [Hin|]; [|done]; destruct (existsb _ _); by apply not_elem_of_nil in Hin).
  rewrite Hp in Hr. apply list_elem_of_fmap in Hr as (g & -> & Hg). apply list_elem_of_In, List.filter_In in Hg as [Hg He].
  exists g. split; [done|]. split; [by apply list_elem_of_In|]. split; [done|]. by apply andb_true_iff in He as [_ He].
Qed.

(** ** Reservation *)

Lemma find_first {X} (f : X → bool) l x : List.find f l = Some x →
  ∃ i, l !! i = Some x ∧ f x = true ∧ ∀ j y, (j < i)%nat → l !! j = Some y → f y = false.
Proof.
  induction l as [|y l IH]; cbn; [done|]. destruct (f y) eqn:E.
  - intros [= ->]. exists 0%nat. split_and!; [done|done|]. intros; lia.
  - intros H. destruct (IH H) as (i & Hi & Fx & Hj). exists (S i). split_and!; [done|done|]. intros [|j] z Hlt Hz; [injection Hz as <-; done|].
    apply (Hj j); [lia|done].
Qed.

Lemma free_address_Some pool used a : free_address pool used = Some a →
  ∃ n, a = host_route n ∧ pool.1 + 2 <= n < pool.1 + pool_size pool.2 - 1 ∧ a ∉ used
    ∧ (∀ m, pool.1 + 2 <= m < n → host_route m ∈ used).
Proof.
  unfold free_address. destruct (List.find _ _) as [n|] eqn:E; [|done]. intros [= <-].
  apply find_first in E as (i & Hi & Hf & Hj). apply lookup_seqZ in Hi as [-> Hi]. sbools. exists (pool.1 + 2 + Z.of_nat i).
  split_and!; [done|lia|lia|done|]. intros m Hm. specialize (Hj (Z.to_nat (m - (pool.1 + 2))) m ltac:(lia)).
  rewrite lookup_seqZ in Hj. specialize (Hj ltac:(lia)). by sbools.
Qed.

Lemma first_place_Some reg L used cands gw addr : first_place reg L used cands = Ok (Some (gw, addr)) →
  gw ∈ cands ∧ gw ∉ used ∧ ∃ g pool, find_node gw reg = Some g ∧ live_count gw L < fg_max g ∧ pool_of (fg_pool g) = Some pool
    ∧ free_address pool (List.map (λ x, ls_address x.2) (List.filter (λ x, live x.2 && str_eqb (ls_gateway x.2) gw) L)) = Some addr.
Proof.
  induction cands as [|id cands IH]; cbn [first_place]; [done|]. intros H. apply bind_Ok in H as (found & Hp & H).
  destruct found as [x|].
  - injection H as ->. unfold place in Hp. apply bind_Ok in Hp as (g & Hg & Hp). apply of_option_Ok in Hg.
    destruct (_ || _) eqn:Eu; [discriminate Hp|]. apply orb_false_iff in Eu as [Eu Em]. apply bind_Ok in Hp as (pool & Hpool & Hp).
    apply of_option_Ok in Hpool. injection Hp as Hp. destruct (free_address _ _) as [a|] eqn:Ea; [|discriminate Hp]. injection Hp as <- <-.
    sbools. split; [left|]. split; [done|]. exists g, pool. split_and!; try done; lia.
  - destruct (IH H) as (Hin & Rest). split; [by right|done].
Qed.


(** What a new reservation gives: an active gateway with room in the registry in
    force, the lowest of its addresses that is free, within what the device's
    access grants. *)
Definition reserved_new (s : fleet_db) (device : pystr) (r : reservation) (now : Z) (l : lease) : Prop :=
  ∃ access text reg g pool, dget device (fd_access s) = Some access ∧ in_force now access = true
    ∧ zlen (List.filter (λ x, str_eqb (ls_device x.2) device && live x.2) (fd_leases s)) < ac_max access
    ∧ dget (rv_revision r) (fd_registries s) = Some text ∧ read_registry text = Ok reg ∧ fr_revision reg = rv_revision r
    ∧ find_node (ls_gateway l) reg = Some g ∧ fg_state g = Active ∧ live_count (ls_gateway l) (fd_leases s) < fg_max g
    ∧ pool_of (fg_pool g) = Some pool
    ∧ free_address pool (List.map (λ x, ls_address x.2) (List.filter (λ x, live x.2 && str_eqb (ls_gateway x.2) (ls_gateway l)) (fd_leases s)))
      = Some (ls_address l)
    ∧ l = Lease device (ls_gateway l) (rv_country r) (rv_transport r) (rv_version r) (ls_address l) (rv_revision r) (ac_revision access) now
            (Z.min (now + rv_lifetime r) (ac_expires access)) Reserved 1.

Lemma registries_keys l rs : Forall2 (λ x r, x.1 = fr_revision r ∧ read_registry x.2 = Ok r) l rs → StronglySorted succeeds rs → NoDup (dkeys l).
Proof.
  intros F S. unfold dkeys. assert (l.*1 = fr_revision <$> rs) as ->.
  { clear S. induction F as [|x r l rs [H _] F IH]; [done|]. cbn. by rewrite H, IH. }
  clear F. induction S as [|r rs S IH Hr]; [constructor|]. cbn. constructor; [|done].
  intros Hin. apply list_elem_of_fmap in Hin as (x & E & Hx). rewrite Forall_forall in Hr. destruct (Hr _ Hx). lia.
Qed.

Lemma read_registry_valid text r : read_registry text = Ok r → valid_registry r = true.
Proof. unfold FleetStore.read_registry, load_registry. intros H. repeat inv_ok1. by subst. Qed.

(** A gateway of a stored registry is known by its identifier. *)
Lemma loaded_same text r g g' : read_registry text = Ok r → g ∈ fr_gateways r → g' ∈ fr_gateways r → fg_id g = fg_id g' → g' = g.
Proof.
  intros H%read_registry_valid Hg Hg' E. unfold valid_registry in H. rewrite !andb_true_iff in H.
  destruct H as [[[[_ Hnd%bool_decide_eq_true] _] _] _].
  apply list_elem_of_lookup in Hg as (i & Hi). apply list_elem_of_lookup in Hg' as (j & Hj).
  assert (i = j) as ->; [|congruence]. eapply NoDup_lookup; [exact Hnd|by rewrite list_lookup_fmap, Hi|by rewrite list_lookup_fmap, Hj, E].
Qed.

Lemma insert_lease_Ok id l s u s' : insert_lease id l s = (Ok u, s') →
  dget id (fd_leases s) = None ∧ existsb (λ x, same_slot x.2 l) (fd_leases s) = false ∧ dmem (ls_registry l) (fd_registries s) = true
  ∧ dmem (ls_device l) (fd_access s) = true ∧ s' = set_leases (dset id l (fd_leases s)) s.
Proof. unfold insert_lease. intros H. inv_f. sbools. split_and!; try done. by apply dmem_none. Qed.

Lemma reserve_in_Ok device r obs id now s x s' : reserve_in float_repr device r obs id now s = (Ok x, s') → store_ok s →
  (∃ print prior, fingerprint float_repr r = Ok print ∧ dget (device, rv_request r) (fd_requests s) = Some (RequestRow print prior)
     ∧ x.1 = prior ∧ dget prior (fd_leases s) = Some x.2 ∧ s' = s) ∨
  (∃ print, fingerprint float_repr r = Ok print ∧ dget (device, rv_request r) (fd_requests s) = None ∧ x.1 = id ∧ reserved_new s device r now x.2
     ∧ dget id (fd_leases s) = None ∧ existsb (λ y, same_slot y.2 x.2) (fd_leases s) = false
     ∧ s' = set_events (fd_events s ++ [FleetEvent now "reserved" id])
              (set_requests (fd_requests s ++ [((device, rv_request r), RequestRow print id)]) (set_leases (dset id x.2 (fd_leases s)) s))).
Proof.
  intros H H0. unfold reserve_in in H.
  apply M_bind_Ok in H as (u1 & s1 & H1 & H). apply admit_if_Ok in H1 as [_ ->].
  apply M_bind_Ok in H as (u2 & s2 & H2 & H). apply admit_if_Ok in H2 as [Hlife ->].
  apply M_bind_Ok in H as (u3 & s3 & H3 & H). apply admit_if_Ok in H3 as [_ ->].
  apply M_bind_Ok in H as (print & s4 & H4 & H). apply lift_Ok in H4 as [Hp ->].
  apply M_bind_Ok in H as (access & s5 & H5 & H). apply authorized_Ok in H5 as (Ha & Hf & ->).
  apply M_bind_Ok in H as (s6 & s7 & H6 & H). apply get_state_Ok in H6 as [-> ->].
  destruct (dget (device, rv_request r) (fd_requests s)) as [[pr pl]|] eqn:Eq.
  - inv_f. subst. sbools. cbn in *. subst. left. exists print, pl. done.
  - right. apply M_bind_Ok in H as (reg & s8 & H8 & H). destruct (latest_registry_Ok _ _ _ (so_registries _ H0) H8) as (-> & text & Hin & Ht & _).
    apply M_bind_Ok in H as (u9 & s9 & H9 & H). apply admit_if_Ok in H9 as [Hrev ->]. apply Z.eqb_eq in Hrev.
    apply M_bind_Ok in H as (u10 & s10 & H10 & H). apply admit_if_Ok in H10 as [_ ->].
    apply M_bind_Ok in H as (u11 & s11 & H11 & H). apply admit_if_Ok in H11 as [Hmax ->]. apply Z.ltb_lt in Hmax.
    apply M_bind_Ok in H as (cands & s12 & H12 & H). apply lift_Ok in H12 as [Hrank ->].
    apply M_bind_Ok in H as (found & s13 & H13 & H). apply lift_Ok in H13 as [Hfound ->].
    apply M_bind_Ok in H as ([gw addr] & s14 & H14 & H). apply must_Ok in H14 as [-> ->].
    apply M_bind_Ok in H as (u15 & s15 & H15 & H). apply insert_lease_Ok in H15 as (Hid & Hslot & Hfk & _ & ->).
    inv_f. subst. cbn [fst snd]. match goal with H : dget id _ = Some _ |- _ => cbn in H; rewrite dget_dset_eq in H; injection H as <- end.
    destruct (first_place_Some _ _ _ _ _ _ Hfound) as (Hc & _ & g & pool & Hg & Hroom & Hpool & Hfree).
    destruct (rank_new_eligible _ _ _ _ _ _ _ Hrank Hc) as (samples & g' & _ & Hg' & Eg & He).
    exists print. split_and!; try done. exists access, text, reg, g, pool. cbn.
    destruct (so_registries _ H0) as (rs & F & S & _).
    assert (g' = g) as ->. { destruct (find_node_in _ _ _ Hg) as [Hin' <-]. symmetry in Eg. by eapply loaded_same. }
    split_and!; try done; [rewrite <- Hrev; apply dget_NoDup; [by eapply registries_keys|done]| |by rewrite Hrev].
    unfold eligible in He. destruct (fresh_sample _ _ _ _ _ _); [|done]. unfold has_room in He. by bools.
Qed.

Lemma reserved_new_fits s device r now l : reserved_new s device r now l →
  ls_device l = device ∧ generation_ok l ∧ granted (fd_access s) l ∧ placed (fd_registries s) l.
Proof.
  intros (access & text & reg & g & pool & Ha & Hf & _ & Ht & Hr & _ & Hg & _ & _ & Hp & Hfree & ->). cbn in *.
  split; [done|]. split; [done|]. split.
  - exists access. split; [done|]. intros _. unfold in_force in Hf. sbools. cbn. split; [done|lia].
  - destruct (free_address_Some _ _ _ Hfree) as (n & Ea & Hn & _). by exists text, reg, g, pool, n.
Qed.

Lemma reserve_in_good device r obs id now s x s' : reserve_in float_repr device r obs id now s = (Ok x, s') → good s s'.
Proof.
  intros H H0. destruct (reserve_in_Ok _ _ _ _ _ _ _ _ H H0) as [(_ & _ & _ & _ & _ & _ & ->)|(print & _ & Hq & _ & Hnew & Hid & Hslot & ->)];
    [split; [done|apply advances_refl]|].
  destruct (reserved_new_fits _ _ _ _ _ Hnew) as (<- & G & A & P).
  destruct (good_insert id x.2 (rv_request r) print s Hid Hslot Hq G A P H0) as [H1 A1].
  destruct (good_events (fd_events s ++ [FleetEvent now "reserved" id]) _ H1) as [H2 A2]. split; [exact H2|by eapply advances_trans].
Qed.

Lemma good_log now kind subject s u s' : log_event now kind subject s = (Ok u, s') → good s s'.
Proof. intros ->%modify_Ok. apply good_events. Qed.

Lemma retire_lease_good id now s l s' : retire_lease id now s = (Ok l, s') → good s s'.
Proof. intros H. destruct (retire_lease_Ok _ _ _ _ _ H) as (L & E & -> & S & _). by apply good_leases. Qed.

Lemma mark_ready_atomic id gen now : atomic (mark_ready id gen now).
Proof. apply atomic_bind_lift. intros _. apply atomic_transaction. Qed.
Lemma confirm_removed_atomic id gen now : atomic (confirm_removed id gen now).
Proof. apply atomic_bind_lift. intros _. apply atomic_transaction. Qed.

Lemma mark_ready_Ok id gen now s l' s' : mark_ready id gen now s = (Ok l', s') →
  ∃ l a E, 0 <= now < 2 ^ 63 ∧ fd_now s <= now ∧ dget id (fd_leases s) = Some l ∧ dget (ls_device l) (fd_access s) = Some a ∧ in_force now a = true
    ∧ ls_generation l = gen ∧ current_lease l = true ∧ now < ls_expires l ∧ l' = with_state Ready gen l
    ∧ s' = set_events E (set_leases (dset id l' (fd_leases s)) (set_clock now s)).
Proof.
  unfold mark_ready, positive_to, admit_if. rewrite bind_lift. destruct (require _ _); [|done]. intros Hx. apply fleet_transaction_Ok in Hx as (C & N & H).
  apply M_bind_Ok in H as (l & s1 & H1 & H). apply get_lease_Ok in H1 as [Hl ->].
  apply M_bind_Ok in H as (ac & s1 & H1 & H). apply authorized_Ok in H1 as (Ha & Hf & ->).
  apply M_bind_Ok in H as (u & s1 & H1 & H). apply admit_if_Ok in H1 as [Hc ->]. sbools.
  apply M_bind_Ok in H as (u2 & s1 & Hm & H). apply get_lease_Ok in H as [Hl' ->]. exists l, ac. case_bool_decide as Es.
  - apply mret_Ok in Hm as [_ ->]. exists (fd_events s). cbn in *. rewrite Hl in Hl'. injection Hl' as <-.
    assert (with_state Ready (ls_generation l) l = l) as El by (destruct l; cbn in *; by subst).
    split_and!; try done; try lia; [congruence|]. rewrite (dset_same _ _ _ Hl). by destruct s.
  - apply M_bind_Ok in Hm as (u3 & s2 & Hm1 & Hm2). apply modify_Ok in Hm1 as ->. apply modify_Ok in Hm2 as ->. cbn in *.
    rewrite dget_dset_eq in Hl'. injection Hl' as <-. subst gen. eexists. split_and!; try done; try lia.
Qed.

Lemma confirm_removed_Ok id gen now s l' s' : confirm_removed id gen now s = (Ok l', s') →
  ∃ l E, 0 <= now < 2 ^ 63 ∧ fd_now s <= now ∧ dget id (fd_leases s) = Some l ∧ ls_generation l = gen
    ∧ (ls_state l = Retiring ∨ ls_state l = Released) ∧ l' = with_state Released gen l
    ∧ s' = set_events E (set_leases (dset id l' (fd_leases s)) (set_clock now s)).
Proof.
  unfold confirm_removed, positive_to, admit_if. rewrite bind_lift. destruct (require _ _); [|done]. intros Hx. apply fleet_transaction_Ok in Hx as (C & N & H).
  apply M_bind_Ok in H as (l & s1 & H1 & H). apply get_lease_Ok in H1 as [Hl ->].
  apply M_bind_Ok in H as (u & s1 & H1 & H). apply admit_if_Ok in H1 as [Hc ->]. sbools.
  apply M_bind_Ok in H as (u2 & s1 & Hm & H). apply get_lease_Ok in H as [Hl' ->]. exists l. case_bool_decide as Es.
  - apply M_bind_Ok in Hm as (u3 & s2 & Hm1 & Hm2). apply modify_Ok in Hm1 as ->. apply modify_Ok in Hm2 as ->. cbn in *.
    rewrite dget_dset_eq in Hl'. injection Hl' as <-. subst gen. eexists. split_and!; try done; try lia.
  - apply mret_Ok in Hm as [_ ->]. exists (fd_events s). cbn in *. rewrite Hl in Hl'. injection Hl' as <-.
    assert (ls_state l = Released) as Er by naive_solver.
    assert (with_state Released (ls_generation l) l = l) as El by (destruct l; cbn in *; by subst).
    split_and!; try done; try lia; [congruence|]. rewrite (dset_same _ _ _ Hl). by destruct s.
Qed.

(** A transition of one lease, at a later clock. *)
Lemma good_transition id l l' E now s : 0 <= now < 2 ^ 63 → fd_now s <= now → dget id (fd_leases s) = Some l → lease_moves l l' →
  good s (set_events E (set_leases (dset id l' (fd_leases s)) (set_clock now s))).
Proof.
  intros C N Hl M. etrans; [by apply (good_clock now)|]. apply (good_leases (dset id l' (fd_leases s)) E (set_clock now s)). cbn.
  split; [apply dkeys_dset_old; by eapply dget_Some_key|]. intros id2 l2 H2. rewrite dget_dset. case_decide; subst.
  - rewrite Hl in H2. injection H2 as <-. eauto.
  - eexists. split; [done|constructor].
Qed.

Lemma mark_ready_good id gen now s r s' : mark_ready id gen now s = (r, s') → good s s'.
Proof.
  intros H. destruct r as [l'|e]; [|by apply mark_ready_atomic in H as ->].
  apply mark_ready_Ok in H as (l & a & E & C & N & Hl & _ & _ & <- & Hc & _ & -> & ->). eapply good_transition; try done.
  apply current_lease_true in Hc as [Hc|Hc]; [by apply rtc_once, step_ready|].
  replace (with_state Ready (ls_generation l) l) with l; [constructor|]. destruct l; cbn in *. by subst.
Qed.

Lemma confirm_removed_good id gen now s r s' : confirm_removed id gen now s = (r, s') → good s s'.
Proof.
  intros H. destruct r as [l'|e]; [|by apply confirm_removed_atomic in H as ->].
  apply confirm_removed_Ok in H as (l & E & C & N & Hl & <- & Hc & -> & ->). eapply good_transition; try done.
  destruct Hc as [Hc|Hc]; [by apply rtc_once, step_release|].
  replace (with_state Released (ls_generation l) l) with l; [constructor|]. destruct l; cbn in *. by subst.
Qed.

Lemma expire_good limit now s r s' : expire limit now s = (r, s') → good s s'.
Proof.
  unfold expire, positive_to, admit_if. rewrite bind_lift. destruct (require _ _); [|by intros [= <- <-]].
  apply good_transaction. clear s s'. intros st out st' H. inv_f. by eapply retire_all_good.
Qed.

Lemma upgrade_good now s r s' : upgrade_services now s = (r, s') → good s s'.
Proof.
  intros H. unfold upgrade_services in H. destruct r as [out|e]; [|apply transaction_raise in H as ->; done].
  apply fleet_transaction_Ok in H as (C & N & H). intros H0. apply M_bind_Ok in H as (s0 & s1 & H1 & H). apply get_state_Ok in H1 as [-> ->].
  change (fd_schema (at_clock now s)) with (fd_schema s) in H. rewrite (so_schema _ H0) in H. cbn in H. apply mret_Ok in H as [_ ->].
  by apply good_clock.
Qed.

Lemma pin_good public now s r s' : pin_publication_authority public now s = (r, s') → good s s'.
Proof.
  unfold pin_publication_authority. rewrite bind_lift. destruct (decode_field _ _); [|by intros [= <- <-]].
  apply good_transaction. clear s s'. intros st out st' H. apply M_bind_Ok in H as (s0 & s1 & H1 & H). apply get_state_Ok in H1 as [-> ->].
  destruct (fd_authority st) as [old|] eqn:E; [by inv_f|]. inv_f. subst. etrans; [by apply (good_authority public)|]. apply good_events.
Qed.

Lemma claim_work_good hold token now s r s' : claim_work hold token now s = (r, s') → good s s'.
Proof.
  unfold claim_work, positive_to, admit_if. rewrite bind_lift. destruct (require _ _); [|by intros [= <- <-]].
  apply good_transaction. clear s s'. intros st out st' H. apply M_bind_Ok in H as (s0 & s1 & H1 & H). apply get_state_Ok in H1 as [-> ->].
  destruct (sort_by _ _); inv_f; subst; [done|]. apply good_jobs.
Qed.

Lemma finish_work_good x token outcome now s r s' : finish_work x token outcome now s = (r, s') → good s s'.
Proof.
  unfold finish_work, admit_if. rewrite bind_lift. destruct (require _ _); [|by intros [= <- <-]].
  apply good_transaction. clear s s'. intros st out st' H. apply M_bind_Ok in H as (s0 & s1 & H1 & H). apply get_state_Ok in H1 as [-> ->].
  destruct (job_of st x) as [j|]; [|by inv_f]. destruct (str_eqb _ _); inv_f; subst; [|done]. apply good_jobs.
Qed.

Lemma reserve_good device r obs id now s x s' : reserve float_repr device r obs id now s = (x, s') → good s s'.
Proof. apply good_transaction. intros st out st'. apply reserve_in_good. Qed.

Lemma fleet_challenge_good {RJ : ReservationJson} public wg r random now s x s' : fleet_challenge public wg r random now s = (x, s') → good s s'.
Proof.
  unfold fleet_challenge. rewrite bind_lift. destruct (require _ _); [|by intros [= <- <-]].
  rewrite bind_lift. destruct (decode_field _ 64) as [raw|]; [|by intros [= <- <-]].
  rewrite bind_lift. destruct (public_identity raw) as [raw'|]; [|by intros [= <- <-]].
  rewrite bind_lift. destruct (decode_field _ 32); [|by intros [= <- <-]].
  apply good_transaction. clear s s'. intros st out st' H. inv_f. subst. cbn.
  match goal with |- good st (set_nonces ?x (set_nonces _ st)) => apply (good_nonces x st) end.
Qed.

Lemma fleet_complete_good proof obs id now s x s' : fleet_complete float_repr proof obs id now s = (x, s') → good s s'.
Proof.
  unfold fleet_complete, must. rewrite bind_lift. destruct (of_option _ _) as [d|]; [|by intros [= <- <-]].
  rewrite bind_lift. destruct (verify_proof _ _ _ _) as [[device c]|]; [|by intros [= <- <-]].
  rewrite bind_lift. destruct (nonce_key _) as [key|]; [|by intros [= <- <-]].
  apply good_transaction. clear s s' x. intros st out st' H.
  apply M_bind_Ok in H as (st0 & s1 & H1 & H). apply get_state_Ok in H1 as [-> ->].
  apply M_bind_Ok in H as (access & s1 & H1 & H). apply authorized_Ok in H1 as (Ha & Hf & ->).
  apply M_bind_Ok in H as (ch & s1 & H1 & H). apply must_Ok in H1 as [Hch ->].
  apply M_bind_Ok in H as (u & s1 & H1 & H). apply admit_if_Ok in H1 as [_ ->].
  apply M_bind_Ok in H as (r & s1 & H1 & H). apply lift_Ok in H1 as [_ ->].
  apply M_bind_Ok in H as (y & s1 & H1 & H). apply reserve_in_good in H1.
  apply M_bind_Ok in H as (u2 & s2 & H2 & H). apply modify_Ok in H2 as ->. apply mret_Ok in H as [_ ->].
  etrans; [exact H1|]. apply good_nonces.
Qed.

(** ** Publication *)

Section Publishing.
Context {ED : Ed25519}.

(** What a publication that is not a repetition writes, and from what. *)
Record publishes (pu : publisher) (id device : pystr) (previous : option pystr) (min_version : pystr) (random : bytes) (ck : publish_clock)
    (s : fleet_db) (l : lease) (access : access_row) (profile : profile_binding) (endpoint : fleet_endpoint) (digest : pystr) (raw : bytes) : Prop := {
  ps_lease : dget id (fd_leases s) = Some l;
  ps_access : dget device (fd_access s) = Some access;
  ps_in_force : in_force (pc_now ck) access = true;
  ps_device : ls_device l = device;
  ps_ready : ls_state l = Ready;
  ps_unexpired : pc_now ck < ls_expires l;
  ps_authority : fd_authority s = Some (pu_public pu);
  ps_profile : dget (ls_gateway l, ls_transport l, ls_version l) (pu_bindings pu) = Some profile;
  ps_digest : policy_digest float_repr profile min_version = Ok digest;
  ps_endpoint : lease_endpoint float_repr (fd_registries s) l = Ok endpoint;
  ps_fresh : ∀ r p, newest_publication id (fd_publications s) = Some (r, p) → r ≠ ac_revision access ∧ pb_policy p = digest ∧ pb_signer p = pu_public pu;
  ps_valid : valid_configuration (lease_document id l access profile endpoint (pu_signer pu) (default 0 (dget device (fd_counters s)) + 1) previous min_version (pc_now ck)) = Ok ();
  ps_envelope : ∃ recipient, b64decode (ac_public access) = Some recipient ∧
    issue_config float_repr (lease_document id l access profile endpoint (pu_signer pu) (default 0 (dget device (fd_counters s)) + 1) previous min_version (pc_now ck))
      recipient (pu_signer pu) random = Ok raw;
  ps_after : pc_now ck <= pc_after ck < Z.min (ls_expires l) (ac_expires access);
  ps_new : dget (id, ac_revision access) (fd_publications s) = None;
}.

Lemma publish_Ok pu id device previous min_version random ck s raw s' :
  publish float_repr pu id device previous min_version random ck s = (Ok raw, s') →
  0 <= pc_now ck < 2 ^ 63 ∧ fd_now s <= pc_now ck ∧
  ((∃ r p, newest_publication id (fd_publications s) = Some (r, p) ∧ (∃ a, dget device (fd_access s) = Some a ∧ ac_revision a = r) ∧ raw = pb_envelope p
      ∧ pb_previous p = previous ∧ s' = set_clock (pc_now ck) s) ∨
   (∃ l access profile endpoint digest, publishes pu id device previous min_version random ck s l access profile endpoint digest raw
      ∧ s' = set_events (fd_events s ++ [FleetEvent (pc_after ck) "published" id])
               (set_published (dset device (default 0 (dget device (fd_counters s)) + 1) (fd_counters s))
                  (fd_publications s ++ [((id, ac_revision access),
                     Publication (default 0 (dget device (fd_counters s)) + 1) (pu_public pu) digest previous raw)])
                  (set_clock (pc_after ck) s)))).
Proof.
  unfold publish. intros Hx. apply fleet_transaction_Ok in Hx as (C & N & H). split; [done|]. split; [done|].
  apply M_bind_Ok in H as (l & s1 & H1 & H). apply get_lease_Ok in H1 as [Hl ->].
  apply M_bind_Ok in H as (access & s1 & H1 & H). apply authorized_Ok in H1 as (Ha & Hf & ->).
  apply M_bind_Ok in H as (u & s1 & H1 & H). apply admit_if_Ok in H1 as [Hc ->].
  apply M_bind_Ok in H as (st & s1 & H1 & H). apply get_state_Ok in H1 as [-> ->].
  apply M_bind_Ok in H as (u1 & s1 & H1 & H). apply admit_if_Ok in H1 as [Hau ->]. apply bool_decide_eq_true in Hau.
  apply M_bind_Ok in H as (profile & s1 & H1 & H). apply lift_Ok in H1 as [Hp ->]. apply of_option_Ok in Hp.
  apply M_bind_Ok in H as (u2 & s1 & H1 & H). apply admit_if_Ok in H1 as [_ ->].
  apply M_bind_Ok in H as (digest & s1 & H1 & H). apply lift_Ok in H1 as [Hd ->].
  apply M_bind_Ok in H as (u3 & s1 & H1 & H). apply admit_if_Ok in H1 as [Hold ->].
  cbn [at_clock set_clock fd_publications fd_counters fd_registries fd_access fd_leases fd_authority] in *.
  destruct (match newest_publication id (fd_publications s) with Some (r, p) => if r =? ac_revision access then Some p else None | None => None end) as [p|] eqn:Enew.
  - left. destruct (newest_publication id (fd_publications s)) as [[r p']|]; [|done]. destruct (r =? ac_revision access) eqn:Er; [|done]. injection Enew as ->.
    apply Z.eqb_eq in Er. apply M_bind_Ok in H as (u4 & s1 & H1 & H). apply admit_if_Ok in H1 as [Hpr ->]. apply bool_decide_eq_true in Hpr.
    apply mret_Ok in H as [-> ->]. exists r, p. split_and!; try done. exists access. done.
  - right. apply M_bind_Ok in H as (endpoint & s1 & H1 & H). apply lift_Ok in H1 as [He ->].
    apply M_bind_Ok in H as (u4 & s1 & H1 & H). apply admit_if_Ok in H1 as [_ ->].
    apply M_bind_Ok in H as (u5 & s1 & H1 & H). apply lift_Ok in H1 as [Hv ->].
    apply M_bind_Ok in H as (recipient & s1 & H1 & H). apply lift_Ok in H1 as [Hr ->]. apply of_option_Ok in Hr.
    apply M_bind_Ok in H as (envelope & s1 & H1 & H). apply lift_Ok in H1 as [Hi ->].
    apply M_bind_Ok in H as (u6 & s1 & H1 & H). apply admit_if_Ok in H1 as [Ht ->].
    apply M_bind_Ok in H as (u7 & s1 & H1 & H). apply modify_Ok in H1 as ->.
    apply M_bind_Ok in H as (u8 & s1 & H1 & H). apply guard_raise_Ok in H1 as [Hk ->].
    apply M_bind_Ok in H as (u9 & s1 & H1 & H). apply modify_Ok in H1 as ->.
    apply M_bind_Ok in H as (u10 & s1 & H1 & H). apply modify_Ok in H1 as ->. apply mret_Ok in H as [-> ->].
    exists l, access, profile, endpoint, digest. split; [|reflexivity]. cbn in Ht. sbools. split; try done.
    + intros r p Hn. rewrite Hn in Enew, Hold. destruct (r =? ac_revision access) eqn:Er; [done|]. apply Z.eqb_neq in Er. sbools. done.
    + destruct (valid_configuration _) as [[]|e]; [done|]. discriminate Hv.
    + by exists recipient.
    + cbn in Hk. destruct (dget _ (fd_publications s)) eqn:En; [|done]. exfalso. revert Hk. unfold dmem. rewrite En. rewrite bool_decide_eq_true_2 by eauto. done.
Qed.

Lemma publish_good pu id device previous min_version random ck s r s' :
  publish float_repr pu id device previous min_version random ck s = (r, s') → good s s'.
Proof.
  intros H. destruct r as [raw|e]; [|unfold publish in H; by apply transaction_raise in H as ->].
  apply publish_Ok in H as (C & N & [(? & ? & _ & _ & _ & _ & ->)|(l & access & profile & endpoint & digest & P & ->)]); [by apply good_clock|].
  intros H0. assert (pc_after ck < 2 ^ 63) as Hb.
  { pose proof (ps_valid _ _ _ _ _ _ _ _ _ _ _ _ _ _ P) as V. pose proof (ps_after _ _ _ _ _ _ _ _ _ _ _ _ _ _ P).
    unfold valid_configuration in V. apply bind_Ok in V as (u & V & _). apply require_Ok in V. unfold declared_fields, positive, lease_document in V.
    cbn [cf_expires cf_revision cf_issued] in V. bools. lia. }
  pose proof (ps_after _ _ _ _ _ _ _ _ _ _ _ _ _ _ P).
  destruct (good_clock (pc_after ck) s ltac:(lia) ltac:(lia) H0) as [G1 A1].
  match goal with |- store_ok (set_events ?E (set_published ?c (_ ++ [?p]) ?s1)) ∧ _ =>
    destruct (good_published c p s1 G1) as [G2 A2]; destruct (good_events E _ G2) as [G3 A3] end.
  split; [exact G3|]. eapply advances_trans; [exact A1|]. by eapply advances_trans.
Qed.

(** ** Every operation *)

Context {RJ : ReservationJson}.

(** The operations of the store, of its proof-gated access and of the
    publisher, with what their caller and the random source give them. *)
Inductive fleet_op :=
  | FRegistry (candidate : fleet_registry)
  | FAccess (device public wg : pystr) (revision expires_at max_leases : Z) (revoked : bool)
  | FReserve (device : pystr) (r : reservation) (observations : list observation) (id : pystr)
  | FChallenge (public wg : pystr) (r : reservation) (random : bytes)
  | FComplete (proof : pyval) (observations : list observation) (id : pystr)
  | FGet (id : pystr)
  | FPending (limit : Z)
  | FWork (id : pystr) (generation : Z)
  | FReady (id : pystr) (generation : Z)
  | FPublishable (id : pystr)
  | FRetire (id : pystr)
  | FExpire (limit : Z)
  | FRemoved (id : pystr) (generation : Z)
  | FUpgrade
  | FPin (public : pystr)
  | FClaim (hold : Z) (token : pystr)
  | FFinish (x : pystr * lease) (token outcome : pystr)
  | FPublish (pu : publisher) (id device : pystr) (previous : option pystr) (min_version : pystr) (random : bytes) (after elapsed : Z)
  | FPublished (id device : pystr).

Definition forget {X} (m : M fleet_db X) : M fleet_db () := m;; mret ().
Definition perform (now : Z) (o : fleet_op) : M fleet_db () :=
  match o with
  | FRegistry c => install_registry float_repr c now
  | FAccess d p w rev ex mx rk => set_access d p w rev ex mx rk now
  | FReserve d r obs id => forget (reserve float_repr d r obs id now)
  | FChallenge p w r random => forget (fleet_challenge p w r random now)
  | FComplete proof obs id => forget (fleet_complete float_repr proof obs id now)
  | FGet id => forget (get id now)
  | FPending limit => forget (pending limit now)
  | FWork id gen => forget (work_item float_repr id gen now)
  | FReady id gen => forget (mark_ready id gen now)
  | FPublishable id => forget (publishable id now)
  | FRetire id => forget (retire id now)
  | FExpire limit => forget (expire limit now)
  | FRemoved id gen => forget (confirm_removed id gen now)
  | FUpgrade => upgrade_services now
  | FPin public => pin_publication_authority public now
  | FClaim hold token => forget (claim_work hold token now)
  | FFinish x token outcome => forget (finish_work x token outcome now)
  | FPublish pu id d prev minv random after elapsed =>
      forget (publish float_repr pu id d prev minv random (PublishClock now after elapsed))
  | FPublished id d => forget (published id d now)
  end.
(** Operations in the order the database serializes them, each with its clock;
    one that fails leaves what its transaction left. *)
Definition run_fleet (ops : list (Z * fleet_op)) (s : fleet_db) : fleet_db := foldl (λ s x, (perform x.1 x.2 s).2) s ops.

Lemma good_forget {X} (m : M fleet_db X) s r s' : (∀ r s', m s = (r, s') → good s s') → forget m s = (r, s') → good s s'.
Proof.
  intros Hm H. unfold forget in H. unfold mbind, M_bind in H. destruct (m s) as [[x|e] s1] eqn:E; cbn in H; injection H as _ <-; by eapply Hm.
Qed.

(** A transaction whose body changes nothing. *)
Definition reads {X} (m : M fleet_db X) : Prop := ∀ s r s', m s = (r, s') → s' = s.
Lemma reads_lift {X} (r : result X) : reads (lift r).
Proof. by intros s x s' [= _ <-]. Qed.
Lemma reads_bind {X Y} (m : M fleet_db X) (f : X → M fleet_db Y) : reads m → (∀ x, reads (f x)) → reads (m ≫= f).
Proof.
  intros Hm Hf s r s' H. unfold mbind, M_bind in H. destruct (m s) as [[x|e] s1] eqn:E; apply Hm in E as ->; [by apply Hf in H|].
  by injection H as _ <-.
Qed.
Lemma reads_state : reads get_state.
Proof. by intros s x s' [= _ <-]. Qed.
Lemma reads_ret {X} (x : X) : reads (mret x).
Proof. by intros s y s' [= _ <-]. Qed.
Lemma reads_lease id : reads (get_lease id).
Proof. apply reads_bind; [apply reads_state|]. intros. apply reads_lift. Qed.
Lemma reads_authorized d now : reads (authorized d now).
Proof.
  apply reads_bind; [apply reads_state|]. intros. apply reads_bind; [apply reads_lift|]. intros.
  apply reads_bind; [apply reads_lift|]. intros. apply reads_ret.
Qed.
Lemma reads_if {X} (b : bool) (m m' : M fleet_db X) : reads m → reads m' → reads (if b then m else m').
Proof. by destruct b. Qed.
Hint Resolve reads_lift reads_bind reads_state reads_ret reads_lease reads_authorized reads_if : fleet_reads.

Lemma good_reads {X} mig now (m : M fleet_db X) s r s' : reads m → fleet_transaction mig now m s = (r, s') → good s s'.
Proof. intros Hm. apply good_transaction. intros st a st' H. by apply Hm in H as ->. Qed.

Lemma reading_good s :
  (∀ id now r s', get id now s = (r, s') → good s s') ∧ (∀ limit now r s', pending limit now s = (r, s') → good s s')
  ∧ (∀ id gen now r s', work_item float_repr id gen now s = (r, s') → good s s') ∧ (∀ id now r s', publishable id now s = (r, s') → good s s')
  ∧ (∀ id d now r s', published id d now s = (r, s') → good s s').
Proof.
  split_and!; intros *; unfold get, pending, work_item, publishable, published, positive_to, admit_if, must;
    try (rewrite bind_lift; destruct (require _ _); [|by intros [= <- <-]]); apply good_reads; eauto 20 with fleet_reads.
Qed.

Lemma retire_good id now s r s' : retire id now s = (r, s') → good s s'.
Proof. apply good_transaction. intros st l st'. apply retire_lease_good. Qed.

Lemma perform_good now o s r s' : perform now o s = (r, s') → good s s'.
Proof.
  destruct (reading_good s) as (G1 & G2 & G3 & G4 & G5).
  destruct o; cbn [perform];
    eauto using install_registry_good, set_access_good, upgrade_good, pin_good;
    apply good_forget; intros;
    eauto using reserve_good, fleet_challenge_good, fleet_complete_good, mark_ready_good, retire_good, expire_good, confirm_removed_good,
      claim_work_good, finish_work_good, publish_good.
Qed.

(** Every run keeps the invariant and moves forward. *)
Lemma run_good ops s : good s (run_fleet ops s).
Proof.
  unfold run_fleet. revert s. induction ops as [|[now o] ops IH]; intros s; [done|]. cbn [foldl fst snd].
  destruct (perform now o s) as [r s'] eqn:E. cbn [snd]. etrans; [by eapply perform_good|apply IH].
Qed.

Lemma initialize_ok r now s : initialize_fleet float_repr r now = Ok s → store_ok s.
Proof.
  unfold initialize_fleet. intros H. apply bind_Ok in H as (r' & Hr & H). pose proof (registry_reads_back _ _ Hr) as ->.
  apply bind_Ok in H as (u & Hc & H). apply require_Ok in Hc. injection H as <-. bools.
  split; cbn; try done.
  - exists [r]. split; [by repeat constructor|]. by repeat constructor.
  - apply NoDup_nil_2.
Qed.

(** The states of a store over its life. *)
Definition fleet_reachable (s : fleet_db) : Prop :=
  ∃ r now s0 ops, initialize_fleet float_repr r now = Ok s0 ∧ s = run_fleet ops s0.
Lemma reachable_ok s : fleet_reachable s → store_ok s.
Proof. intros (r & now & s0 & ops & H & ->). apply (run_good ops s0). by eapply initialize_ok. Qed.

(** ** Addresses over the whole fleet *)

Lemma host_route_inj a b : 0 <= a < 2 ^ 32 → 0 <= b < 2 ^ 32 → host_route a = host_route b → a = b.
Proof.
  intros Ha Hb E. unfold host_route in E. apply app_inv_tail in E. pose proof (ipv4_text_read _ Ha). pose proof (ipv4_text_read _ Hb). congruence.
Qed.

Lemma pool_bound g base p : valid_fleet_gateway g = true → pool_of (fg_pool g) = Some (base, p) → 0 <= base ∧ base + pool_size p <= 2 ^ 32.
Proof.
  unfold valid_fleet_gateway. intros H Hp. rewrite !andb_true_iff in H. destruct H as [[[[[[[_ H] _] _] _] _] _] _].
  unfold valid_pool in H. rewrite Hp, !andb_true_iff in H. destruct H as [[Hr%in_range_true _] Hin].
  assert (pool_size p <= 2 ^ 16) as Hs by (unfold pool_size; apply Z.pow_le_mono_r; lia).
  apply existsb_exists in Hin as (x & Hx & Hin). change (2 ^ 16) with 65536 in Hs. change (2 ^ 32) with 4294967296.
  assert (∀ m q, x = (IPv4 m, q) → 0 <= m → 0 < 2 ^ (32 - q) → m + 2 ^ (32 - q) + 65536 <= 4294967296 → 0 <= base ∧ base + pool_size p <= 4294967296) as Hb.
  { intros m q -> Hm Hq Hle. cbn [in_network] in Hin. apply Z.eqb_eq in Hin. set (k := 2 ^ (32 - q)) in *.
    pose proof (Z.div_mod base k ltac:(lia)). pose proof (Z.div_mod m k ltac:(lia)). pose proof (Z.div_pos m k Hm Hq).
    pose proof (Z.mod_pos_bound base k Hq). pose proof (Z.mod_pos_bound m k Hq). rewrite Hin in *. split; nia. }
  destruct Hx as [<-|[<-|[<-|[]]]]; eapply Hb; try reflexivity; apply Z.leb_le; reflexivity.
Qed.

Lemma disjoint_pools_apart gs g1 g2 p1 p2 : disjoint_pools (omap (λ g, pool_of (fg_pool g)) gs) = true → g1 ∈ gs → g2 ∈ gs → g1 ≠ g2 →
  pool_of (fg_pool g1) = Some p1 → pool_of (fg_pool g2) = Some p2 → overlaps p1 p2 = false.
Proof.
  assert (∀ gs g p, g ∈ gs → pool_of (fg_pool g) = Some p → List.In p (omap (λ g, pool_of (fg_pool g)) gs)) as Hin.
  { intros l g p H Hp. apply list_elem_of_In, list_elem_of_omap. eauto. }
  assert (∀ a b, overlaps a b = overlaps b a) as Hsym by (intros; unfold overlaps; apply andb_comm).
  induction gs as [|g gs IH]; intros D I1 I2 N P1 P2; [by apply not_elem_of_nil in I1|]. cbn [omap list_omap] in D.
  assert (disjoint_pools (omap (λ g, pool_of (fg_pool g)) gs) = true) as D'.
  { destruct (pool_of (fg_pool g)); [|done]. cbn [disjoint_pools] in D. by apply andb_true_iff in D as [_ D]. }
  assert (∀ p p' h, pool_of (fg_pool g) = Some p → h ∈ gs → pool_of (fg_pool h) = Some p' → overlaps p p' = false) as Hd.
  { intros p p' h Hp Hh Hp'. rewrite Hp in D. cbn [disjoint_pools] in D. apply andb_true_iff in D as [D _]. rewrite forallb_forall in D.
    apply negb_true_iff, D. by eapply Hin. }
  apply elem_of_cons in I1 as [->|I1]; apply elem_of_cons in I2 as [->|I2]; [done| | |by apply IH].
  - by eapply Hd.
  - rewrite Hsym. by eapply Hd.
Qed.

(** Every lease's gateway is in the newest registry, with the pool its address
    is from. *)
Lemma placed_newest s reg s' l : store_ok s → latest_registry float_repr s = (Ok reg, s') → placed (fd_registries s) l →
  ∃ g pool n, find_node (ls_gateway l) reg = Some g ∧ pool_of (fg_pool g) = Some pool
    ∧ pool.1 + 2 <= n < pool.1 + pool_size pool.2 - 1 ∧ ls_address l = host_route n.
Proof.
  intros H0 Hl (text & r & g & pool & n & Ht & Hr & Hg & Hp & Hn & Ha).
  destruct (latest_registry_Ok _ _ _ (so_registries _ H0) Hl) as (_ & text' & _ & Hr' & Hnew).
  destruct (Hnew _ _ (dget_elem _ _ _ Ht) Hr) as [->|[_ K]]; [eauto 10|]. destruct (K _ _ Hg) as (g' & Hg' & Ep).
  exists g', pool, n. rewrite Ep. done.
Qed.

Lemma latest_exists s : store_ok s → ∃ reg, latest_registry float_repr s = (Ok reg, s) ∧ valid_registry reg = true.
Proof.
  intros H0. destruct (so_registries _ H0) as (rs & F & S & N). pose proof (newest_last _ _ F S) as E.
  destruct (exists_last (A := fleet_registry) (l := rs) N) as (rs0 & r & ->).
  apply Forall2_app_inv_r in F as (l0 & l1 & _ & F & El). inversion F as [|x ? ? ? [_ Hx] F' E1 E2]; subst. inversion F'; subst.
  rewrite El, last_snoc in E. exists r. split; [|by eapply read_registry_valid].
  unfold latest_registry, must, lift, mbind, M_bind, get_state. rewrite El, E. cbn. by rewrite Hx.
Qed.

Lemma live_apart s reg : store_ok s → latest_registry float_repr s = (Ok reg, s) → valid_registry reg = true →
  (∀ id l, dget id (fd_leases s) = Some l → ∃ g pool n, find_node (ls_gateway l) reg = Some g ∧ pool_of (fg_pool g) = Some pool
     ∧ pool.1 + 2 <= n < pool.1 + pool_size pool.2 - 1 ∧ ls_address l = host_route n) ∧
  (∀ id1 l1 id2 l2, dget id1 (fd_leases s) = Some l1 → dget id2 (fd_leases s) = Some l2 → id1 ≠ id2 → live l1 = true → live l2 = true →
     ls_address l1 ≠ ls_address l2 ∧
     (ls_device l1 = ls_device l2 → ls_gateway l1 ≠ ls_gateway l2 ∧
        (ls_country l1, ls_transport l1, ls_version l1) ≠ (ls_country l2, ls_transport l2, ls_version l2))).
Proof.
  intros H0 Hreg Hv.
  assert (∀ id l, dget id (fd_leases s) = Some l → ∃ g pool n, find_node (ls_gateway l) reg = Some g ∧ pool_of (fg_pool g) = Some pool
     ∧ pool.1 + 2 <= n < pool.1 + pool_size pool.2 - 1 ∧ ls_address l = host_route n) as Hp.
  { intros id l Hl. by eapply placed_newest, so_placed. }
  split; [exact Hp|]. intros id1 l1 id2 l2 H1 H2 N L1 L2. pose proof (so_slots _ H0 _ _ _ _ H1 H2 N) as Hs. unfold same_slot in Hs.
  rewrite L1, L2 in Hs. cbn [andb] in Hs. apply orb_false_iff in Hs as [Hg Hd]. split.
  - intros Ea. destruct (decide (ls_gateway l1 = ls_gateway l2)) as [Eg|Eg].
    { rewrite (proj2 (str_eqb_eq _ _) Eg), (proj2 (str_eqb_eq _ _) Ea) in Hg. discriminate Hg. }
    destruct (Hp _ _ H1) as (g1 & [b1 p1] & n1 & F1 & P1 & R1 & A1), (Hp _ _ H2) as (g2 & [b2 p2] & n2 & F2 & P2 & R2 & A2).
    destruct (find_node_in _ _ _ F1) as [I1 E1], (find_node_in _ _ _ F2) as [I2 E2]. cbn [fst snd] in *.
    unfold valid_registry in Hv. rewrite !andb_true_iff in Hv. destruct Hv as [[[[[[_ Hall] _] _] _] Hdis] _]. rewrite forallb_forall in Hall.
    pose proof (pool_bound _ _ _ (Hall _ (proj1 (list_elem_of_In _ _) I1)) P1). pose proof (pool_bound _ _ _ (Hall _ (proj1 (list_elem_of_In _ _) I2)) P2).
    assert (n1 = n2) as -> by (apply host_route_inj; [lia|lia|congruence]).
    assert (g1 ≠ g2) as Ng by congruence. pose proof (disjoint_pools_apart _ _ _ _ _ Hdis I1 I2 Ng P1 P2) as Ho.
    unfold overlaps in Ho. cbn [fst snd] in Ho. bools; lia.
  - intros Ed. rewrite (proj2 (str_eqb_eq _ _) Ed) in Hg, Hd. split.
    + intros Eg. rewrite (proj2 (str_eqb_eq _ _) Eg), orb_true_r in Hg. discriminate Hg.
    + intros [= E1 E2 E3]. rewrite E1, E2, E3, !(proj2 (str_eqb_eq _ _) eq_refl) in Hd. discriminate Hd.
Qed.

(** C4: Over every run of the store, two leases that are not released never have
    the same address anywhere in the fleet, never a gateway of the same device,
    and never the same scope of a device; and the address of every lease is a
    host of its gateway's pool in the newest registry. *)
Theorem leases_exclusive s : fleet_reachable s →
  ∃ reg, latest_registry float_repr s = (Ok reg, s) ∧
  (∀ id l, dget id (fd_leases s) = Some l → ∃ g pool n, find_node (ls_gateway l) reg = Some g ∧ pool_of (fg_pool g) = Some pool
     ∧ pool.1 + 2 <= n < pool.1 + pool_size pool.2 - 1 ∧ ls_address l = host_route n) ∧
  (∀ id1 l1 id2 l2, dget id1 (fd_leases s) = Some l1 → dget id2 (fd_leases s) = Some l2 → id1 ≠ id2 → live l1 = true → live l2 = true →
     ls_address l1 ≠ ls_address l2 ∧
     (ls_device l1 = ls_device l2 → ls_gateway l1 ≠ ls_gateway l2 ∧
        (ls_country l1, ls_transport l1, ls_version l1) ≠ (ls_country l2, ls_transport l2, ls_version l2))).
Proof.
  intros H0%reachable_ok. destruct (latest_exists _ H0) as (reg & Hreg & Hv). exists reg. split; [done|]. by apply live_apart.
Qed.

(** ** Revocation *)

Lemma set_access_Ok d p w rev ex mx rk now s u s' : set_access d p w rev ex mx rk now s = (Ok u, s') →
  dget d (fd_access s') = Some (AccessRow p w rev ex mx rk).
Proof.
  unfold set_access. intros H.
  repeat match type of H with (mbind _ _) _ = _ => apply M_bind_Ok in H as (? & ? & ?H' & H) end.
  apply fleet_transaction_Ok in H as (_ & _ & H). apply M_bind_Ok in H as (? & ? & Hg & H). apply get_state_Ok in Hg as [-> ->].
  case_bool_decide as Eo; [by inv_f; subst|]. apply M_bind_Ok in H as (u1 & s1 & Hc & H). apply admit_if_Ok in Hc as [Hc ->].
  apply M_bind_Ok in H as (u2 & s1 & _ & H). apply M_bind_Ok in H as (u3 & s2 & _ & H). apply M_bind_Ok in H as (u4 & s3 & Hm & H).
  apply modify_Ok in Hm as ->. apply M_bind_Ok in H as (ls & s4 & Hr & H). apply modify_Ok in H as ->.
  apply retire_all_Ok in Hr as (L & E & -> & _). cbn. by rewrite dget_dset_eq.
Qed.

(** A lease that is not current is not served. *)
Lemma retired_refused id l s : dget id (fd_leases s) = Some l → current_lease l = false →
  ∀ gen now e, (∀ r s', mark_ready id gen now s = (r, s') → r ≠ Ok e) ∧ (∀ r s', publishable id now s = (r, s') → r ≠ Ok e)
  ∧ (∀ d raw r s', published id d now s = (r, s') → r ≠ Ok raw)
  ∧ (∀ pu d prev minv random ck raw r s', publish float_repr pu id d prev minv random ck s = (r, s') → r ≠ Ok raw)
  ∧ (∀ r s' w, work_item float_repr id gen now s = (r, s') → r = Ok w → ls_state l = Retiring).
Proof.
  intros Hl C gen now e. assert (ls_state l ≠ Ready) as NR by (intros E; apply not_true_iff_false in C; apply C, current_lease_true; auto).
  split_and!; intros *.
  - intros H ->. apply mark_ready_Ok in H as (l' & a & E & _ & _ & Hl' & _ & _ & _ & C' & _). congruence.
  - intros H ->. unfold publishable in H. apply fleet_transaction_Ok in H as (_ & _ & H). apply M_bind_Ok in H as (l' & s1 & Hg & H).
    apply get_lease_Ok in Hg as [Hl' ->]. cbn in Hl'. apply M_bind_Ok in H as (a & s1 & Ha & H). apply authorized_Ok in Ha as (_ & _ & ->).
    apply M_bind_Ok in H as (u & s1 & Hc & H). apply admit_if_Ok in Hc as [Hc _]. rewrite Hl in Hl'. injection Hl' as <-. by sbools.
  - intros H ->. unfold published in H. apply fleet_transaction_Ok in H as (_ & _ & H).
    apply M_bind_Ok in H as (a & s1 & Ha & H). apply authorized_Ok in Ha as (_ & _ & ->). apply M_bind_Ok in H as (l' & s1 & Hg & H).
    apply get_lease_Ok in Hg as [Hl' ->]. cbn in Hl'. apply M_bind_Ok in H as (u & s1 & Hc & H). apply admit_if_Ok in Hc as [Hc _].
    rewrite Hl in Hl'. injection Hl' as <-. by sbools.
  - intros H ->. unfold publish in H. apply fleet_transaction_Ok in H as (_ & _ & H). apply M_bind_Ok in H as (l' & s1 & Hg & H).
    apply get_lease_Ok in Hg as [Hl' ->]. cbn in Hl'. apply M_bind_Ok in H as (a & s1 & Ha & H). apply authorized_Ok in Ha as (_ & _ & ->).
    apply M_bind_Ok in H as (u & s1 & Hc & H). apply admit_if_Ok in Hc as [Hc _]. rewrite Hl in Hl'. injection Hl' as <-. by sbools.
  - intros H ->. unfold work_item, positive_to, admit_if in H. rewrite bind_lift in H. destruct (require _ _); [|done].
    apply fleet_transaction_Ok in H as (_ & _ & H). apply M_bind_Ok in H as (l' & s1 & Hg & H). apply get_lease_Ok in Hg as [Hl' ->]. cbn in Hl'.
    apply M_bind_Ok in H as (u & s1 & Hc & H). rewrite Hl in Hl'. injection Hl' as <-. apply admit_if_Ok in Hc as [Hc _]. sbools.
    unfold pending_lease in Hc. unfold current_lease in C. sbools. tauto.
Qed.

(** C12: Once a device's access is revoked, no lease it had then is ever marked
    ready, served or published again, and no gateway is given work for it but
    its removal, in any later state of any run, a new grant included. *)
Theorem revocation_final device public wg revision expires_at max_leases now s u s' ops id l :
  fleet_reachable s → set_access device public wg revision expires_at max_leases true now s = (Ok u, s') →
  dget id (fd_leases s) = Some l → ls_device l = device →
  let s2 := run_fleet ops s' in
  ∃ l2, dget id (fd_leases s2) = Some l2 ∧ current_lease l2 = false ∧
  ∀ gen t e, (∀ r x, mark_ready id gen t s2 = (r, x) → r ≠ Ok e) ∧ (∀ r x, publishable id t s2 = (r, x) → r ≠ Ok e)
  ∧ (∀ d raw r x, published id d t s2 = (r, x) → r ≠ Ok raw)
  ∧ (∀ pu d prev minv random ck raw r x, publish float_repr pu id d prev minv random ck s2 = (r, x) → r ≠ Ok raw)
  ∧ (∀ r x w, work_item float_repr id gen t s2 = (r, x) → r = Ok w → ls_state l2 = Retiring).
Proof.
  intros H0%reachable_ok Hs Hl Hd s2. destruct (set_access_good _ _ _ _ _ _ _ _ _ _ _ Hs H0) as [H1 A1].
  pose proof (set_access_Ok _ _ _ _ _ _ _ _ _ _ _ Hs) as Hrow. destruct (av_leases _ _ A1 _ _ Hl) as (l1 & Hl1 & M1).
  destruct (run_good ops s' H1) as [_ A2]. destruct (av_leases _ _ A2 _ _ Hl1) as (l2 & Hl2 & M2). exists l2.
  assert (current_lease l2 = false) as C.
  { apply not_true_iff_false. intros C. apply (moves_current _ _ M2) in C. destruct (so_granted _ H1 _ _ Hl1) as (a & Ha & Ca).
    destruct (terms_eq _ _ (moves_terms _ _ M1)) as [D _]. rewrite <- D, Hd, Hrow in Ha. injection Ha as <-. by destruct (Ca C). }
  split; [exact Hl2|]. split; [exact C|]. by apply retired_refused.
Qed.


(** ** Publications *)

(** Operations that neither publish nor release: whatever relation holds across a
    step that leaves the leases and the publications, and across a write of a
    lease that is not released, holds across them. *)
Section Frame.
Context (R : fleet_db → fleet_db → Prop) {PO : PreOrder R}
  (Hsame : ∀ s s', fd_leases s' = fd_leases s → fd_publications s' = fd_publications s → R s s')
  (Hput : ∀ id l s, ls_state l ≠ Released → R s (set_leases (dset id l (fd_leases s)) s)).

Definition framed {X} (m : M fleet_db X) : Prop := ∀ s r s', m s = (r, s') → R s s'.
Lemma frame_reads {X} (m : M fleet_db X) : reads m → framed m.
Proof. intros Hm s r s' ->%Hm. reflexivity. Qed.
Lemma frame_lift {X} (r : result X) : framed (lift r).
Proof. apply frame_reads, reads_lift. Qed.
Lemma frame_state : framed get_state.
Proof. apply frame_reads, reads_state. Qed.
Lemma frame_ret {X} (x : X) : framed (mret x).
Proof. apply frame_reads, reads_ret. Qed.
Lemma frame_bind {X Y} (m : M fleet_db X) (f : X → M fleet_db Y) : framed m → (∀ x, framed (f x)) → framed (m ≫= f).
Proof.
  intros Hm Hf s r s' H. unfold mbind, M_bind in H. destruct (m s) as [[x|e] s1] eqn:E; apply Hm in E.
  - apply Hf in H. by etrans.
  - by injection H as _ <-.
Qed.
Lemma frame_modify f : (∀ s, fd_leases (f s) = fd_leases s) → (∀ s, fd_publications (f s) = fd_publications s) → framed (modify f).
Proof. intros H1 H2 s r s' [= _ <-]. by apply Hsame. Qed.
Lemma frame_put id l : ls_state l ≠ Released → framed (put_lease id l).
Proof. intros Hl s r s' [= _ <-]. by apply Hput. Qed.
Lemma frame_transaction {X} mig now (m : M fleet_db X) : framed m → framed (fleet_transaction mig now m).
Proof.
  intros Hm s r s' H. destruct r as [x|e]; [|by apply transaction_raise in H as ->].
  apply fleet_transaction_Ok in H as (_ & _ & H). apply Hm in H. etrans; [by apply (Hsame s (at_clock now s))|exact H].
Qed.

Ltac keeping := repeat (intros; first
  [ apply frame_bind | apply frame_lift | apply frame_state | apply frame_ret | apply frame_transaction
  | apply frame_put; discriminate | apply frame_modify; reflexivity | assumption
  | match goal with |- framed (match ?x with _ => _ end) => destruct x end
  | match goal with |- framed (raise ?e) => apply (frame_lift (Raise e)) end
  | progress cbn beta iota ]).

Lemma frame_retire id now : framed (retire_lease id now).
Proof. unfold retire_lease, get_lease, log_event, must. keeping. Qed.
Lemma frame_retire_all ids now : framed (retire_all ids now).
Proof. induction ids; cbn [retire_all]; keeping. Qed.
Lemma frame_update prev now l : framed (iterM (update_node prev now) l).
Proof.
  induction l as [|g l IH]; cbn [iterM]; [keeping|]. apply frame_bind; [|done]. unfold update_node, admit_if. keeping. apply frame_retire_all.
Qed.
Lemma frame_reserve device r obs id now : framed (reserve_in float_repr device r obs id now).
Proof.
  unfold reserve_in, positive_to, admit_if, insert_lease, log_event, authorized, get_lease, must, latest_registry. keeping.
Qed.
Lemma frame_forget {X} (m : M fleet_db X) : framed m → framed (forget m).
Proof. intros. unfold forget. keeping. Qed.

Lemma perform_frame now o : match o with FUpgrade | FPublish _ _ _ _ _ _ _ _ | FRemoved _ _ => True | _ => framed (perform now o) end.
Proof.
  destruct o; try exact I; cbn [perform]; try apply frame_forget;
    unfold install_registry, set_access, reserve, fleet_challenge, fleet_complete, get, pending, work_item, mark_ready, publishable, retire,
      expire, pin_publication_authority, claim_work, finish_work, published, positive_to, admit_if, authorized, get_lease, must,
      log_event, latest_registry; keeping;
    intros; first [apply frame_update | apply frame_retire_all].
Qed.
End Frame.

Lemma upgrade_leases now s r s' : store_ok s → upgrade_services now s = (r, s') → fd_leases s' = fd_leases s ∧ fd_publications s' = fd_publications s.
Proof.
  intros H0 H. destruct r as [[]|e]; [|by apply transaction_raise in H as ->].
  apply fleet_transaction_Ok in H as (_ & _ & H). apply M_bind_Ok in H as (s0 & s1 & H1 & H). apply get_state_Ok in H1 as [-> ->].
  change (fd_schema (at_clock now s)) with (fd_schema s) in H. rewrite (so_schema _ H0) in H. cbn in H. by apply mret_Ok in H as [_ ->].
Qed.

(** A lease is released by [confirm_removed] only. *)
Definition unreleased (s s' : fleet_db) : Prop :=
  ∀ id l, dget id (fd_leases s') = Some l → ls_state l = Released → ∃ l0, dget id (fd_leases s) = Some l0 ∧ ls_state l0 = Released.
Lemma perform_unreleased now o s r s' : store_ok s → (∀ id gen, o ≠ FRemoved id gen) → perform now o s = (r, s') → unreleased s s'.
Proof.
  intros H0 Hn H. assert (fd_leases s' = fd_leases s → unreleased s s') as Hk by (intros E id l; rewrite E; eauto).
  assert (PreOrder unreleased) as PO.
  { split; [by intros x id l; eauto|]. intros x y z F G id l Hl Hr. destruct (G _ _ Hl Hr) as (l1 & Hl1 & Hr1). eauto. }
  pose proof (perform_frame unreleased) as K.
  specialize (K ltac:(intros x y E _ id l; rewrite E; eauto)
    ltac:(intros id l x Hl id' l'; cbn; rewrite dget_dset; case_decide; [by intros [= <-]|eauto]) now o).
  destruct o; try (by eapply K); [by destruct (Hn id generation)|apply Hk; by eapply upgrade_leases|].
  cbn [perform] in H. unfold forget in H. unfold mbind, M_bind in H.
  destruct (publish _ _ _ _ _ _ _ _ s) as [[raw|e] s1] eqn:E; cbn in H; injection H as _ <-.
  - apply publish_Ok in E as (_ & _ & [(_ & _ & _ & _ & _ & _ & ->)|(l & access & profile & endpoint & digest & _ & ->)]); by apply Hk.
  - unfold publish in E. apply transaction_raise in E as ->. by apply Hk.
Qed.

(** What is published of a lease: a valid configuration with the lease's terms
    and its gateway's endpoint, for the device as its access was at that
    revision, signed by the authority and encrypted for the device. *)
Definition published_soundly (s : fleet_db) (id : pystr) (rev : Z) (p : publication) : Prop :=
  ∃ l a a0 profile endpoint signer recipient random minv issued,
    dget id (fd_leases s) = Some l ∧ dget (ls_device l) (fd_access s) = Some a ∧ access_kept a0 a ∧ ac_revision a0 = rev ∧
    lease_endpoint float_repr (fd_registries s) l = Ok endpoint ∧ issued <= fd_now s ∧
    let c := lease_document id l a0 profile endpoint signer (pb_revision p) (pb_previous p) minv issued in
    valid_configuration c = Ok () ∧ b64decode (ac_public a0) = Some recipient ∧ all_bytes random ∧
    issue_config float_repr c recipient signer random = Ok (pb_envelope p) ∧ pb_signer p = b64encode (ed_public signer).
Definition publications_ok (s : fleet_db) : Prop :=
  ∀ id rev p, dget (id, rev) (fd_publications s) = Some p → published_soundly s id rev p.

Lemma document_terms id l l' a profile endpoint signer rev prev minv issued : same_terms l l' →
  lease_document id l a profile endpoint signer rev prev minv issued = lease_document id l' a profile endpoint signer rev prev minv issued.
Proof.
  intros (D & G & A & X & _)%terms_eq. unfold lease_document, lease_config. by rewrite D, G, A, X.
Qed.
Lemma endpoint_terms R l l' : same_terms l l' → lease_endpoint float_repr R l = lease_endpoint float_repr R l'.
Proof. intros (_ & G & _ & _ & R' & T & V)%terms_eq. unfold lease_endpoint. by rewrite G, R', T, V. Qed.
Lemma endpoint_kept s s' l e : advances s s' → lease_endpoint float_repr (fd_registries s) l = Ok e → lease_endpoint float_repr (fd_registries s') l = Ok e.
Proof.
  intros A H. unfold lease_endpoint in *. apply bind_Ok in H as (text & Ht & H). apply of_option_Ok in Ht.
  by rewrite (av_registries _ _ A _ _ Ht).
Qed.

Lemma soundly_advances s s' id rev p : advances s s' → published_soundly s id rev p → published_soundly s' id rev p.
Proof.
  intros A (l & a & a0 & profile & endpoint & signer & recipient & random & minv & issued & Hl & Ha & Hk & Hr & He & Hi & Hv & Hp & Hb & Hc & Hs).
  destruct (av_leases _ _ A _ _ Hl) as (l' & Hl' & M%moves_terms). destruct (av_access _ _ A _ _ Ha) as (a' & Ha' & K).
  destruct (terms_eq _ _ M) as [D _]. exists l', a', a0, profile, endpoint, signer, recipient, random, minv, issued.
  rewrite <- D. split_and!; try done; [by eapply access_kept_trans|rewrite <- (endpoint_terms _ _ _ M); by eapply endpoint_kept| |by rewrite <- (document_terms _ _ _ _ _ _ _ _ _ _ _ M)..].
  destruct A. lia.
Qed.

(** The random octets of the encryption are octets. *)
Definition octets_op (o : fleet_op) : Prop := match o with FPublish _ _ _ _ _ random _ _ => all_bytes random | _ => True end.

Lemma perform_publications now o s r s' : octets_op o → store_ok s → perform now o s = (r, s') → publications_ok s → publications_ok s'.
Proof.
  intros Hb H0 H P. destruct (perform_good _ _ _ _ _ H H0) as [H1 A].
  assert (fd_publications s' = fd_publications s → publications_ok s') as Hk.
  { intros E id rev p. rewrite E. intros Hp. by eapply soundly_advances, P. }
  assert (PreOrder (λ s s', fd_publications s' = fd_publications s)) as PO by (split; [done|intros ? ? ?; congruence]).
  pose proof (perform_frame (λ s s', fd_publications s' = fd_publications s) ltac:(done) ltac:(done) now o) as K.
  destruct o; try (apply Hk; by eapply K).
  - apply Hk. cbn [perform] in H. unfold forget, mbind, M_bind in H. destruct (confirm_removed _ _ _ s) as [[l|e] s1] eqn:E; cbn in H; injection H as _ <-.
    + by apply confirm_removed_Ok in E as (l0 & E' & _ & _ & _ & _ & _ & _ & ->).
    + by apply confirm_removed_atomic in E as ->.
  - apply Hk. by eapply upgrade_leases.
  - cbn [perform] in H. unfold forget in H. unfold mbind, M_bind in H.
    destruct (publish _ _ _ _ _ _ _ _ s) as [[raw|e] s1] eqn:E; cbn in H; injection H as _ <-.
    2:{ unfold publish in E. by apply transaction_raise in E as ->. }
    apply publish_Ok in E as (C & N & [(_ & _ & _ & _ & _ & _ & ->)|(l & access & profile & endpoint & digest & Q & ->)]); [by apply Hk|].
    intros id' rev p. cbn [set_events set_published fd_publications]. destruct Q. rewrite dget_snoc by done. case_decide as Ek.
    + injection Ek as -> ->. intros [= <-]. destruct ps_envelope0 as (recipient & Hr & Hi).
      exists l, access, access, profile, endpoint, (pu_signer pu), recipient, random, min_version, now. cbn in *. subst device.
      split_and!; try done; [apply access_kept_refl|lia].
    + intros Hp. eapply soundly_advances; [exact A|]. by apply P.
Qed.

Lemma run_publications ops s : Forall (λ x, octets_op x.2) ops → store_ok s → publications_ok s → publications_ok (run_fleet ops s).
Proof.
  unfold run_fleet. intros F. revert s. induction F as [|[now o] ops Ho F IH]; intros s H0 P; [done|]. cbn [foldl fst snd].
  destruct (perform now o s) as [r s'] eqn:E. cbn [snd]. apply IH; [by apply (perform_good _ _ _ _ _ E)|by eapply perform_publications].
Qed.

Context {RNL : RnsLaws} {RNC : RnsCipher} {RNO : RnsOctets} {EDL : Ed25519Laws} {PYL : PydanticLaws}.

(** C11: What the store serves of a ready lease, over every run, is a
    configuration that its device's verifier accepts at that moment: it carries
    the lease's address, its gateway's endpoint and the times of the lease and of
    the access in force, and comes from the pinned authority. *)
Theorem published_verifies r0 t0 s0 ops id device now raw s' :
  let s := run_fleet ops s0 in
  initialize_fleet float_repr r0 t0 = Ok s0 → Forall (λ x, octets_op x.2) ops → published id device now s = (Ok raw, s') →
  ∃ l a profile endpoint signer revision previous minv issued,
    let c := lease_document id l a profile endpoint signer revision previous minv issued in
    dget id (fd_leases s) = Some l ∧ ls_device l = device ∧ ls_state l = Ready ∧ dget device (fd_access s) = Some a ∧
    lease_endpoint float_repr (fd_registries s) l = Ok endpoint ∧ valid_configuration c = Ok () ∧
    ∀ cv, ac_public a = b64encode (public_of (cv_device cv)) → all_bytes (public_of (cv_device cv)) → cv_wg cv = ac_wg a →
      fd_authority s = Some (b64encode (cv_anchor cv)) → all_bytes (cv_anchor cv) →
      (∀ v, version minv = Ok v → version_above v (cv_version cv) = false) →
      Forall (λ p, awg31_of p = true → cv_awg31 cv = true) (cf_profiles c) →
      Configuration.verify cv raw now = Ok (Verified id revision previous c raw (tohex (full_hash raw))).
Proof.
  intros s Hi F H. assert (store_ok s0) as H0 by (by eapply initialize_ok).
  assert (publications_ok s0) as P0.
  { unfold initialize_fleet in Hi. repeat inv_ok1. subst. intros ? ? ?. done. }
  pose proof (run_publications ops s0 F H0 P0) as P. fold s in P. unfold published in H. apply fleet_transaction_Ok in H as (C & N & H).
  apply M_bind_Ok in H as (a & s1 & H1 & H). apply authorized_Ok in H1 as (Ha & Hf & ->).
  apply M_bind_Ok in H as (l & s1 & H1 & H). apply get_lease_Ok in H1 as [Hl ->].
  apply M_bind_Ok in H as (u & s1 & H1 & H). apply admit_if_Ok in H1 as [Hc ->].
  apply M_bind_Ok in H as (s2 & s1 & H1 & H). apply get_state_Ok in H1 as [-> ->].
  apply M_bind_Ok in H as (p & s1 & H1 & H). apply must_Ok in H1 as [Hp ->].
  apply M_bind_Ok in H as (u2 & s1 & H1 & H). apply admit_if_Ok in H1 as [Hau ->]. apply bool_decide_eq_true in Hau.
  apply mret_Ok in H as [-> ->]. cbn [at_clock set_clock fd_access fd_leases fd_publications fd_authority] in *.
  rewrite !andb_true_iff in Hc. destruct Hc as [[Hd%str_eqb_eq Hst%bool_decide_eq_true] Hex%negb_true_iff%Z.leb_gt].
  destruct (P _ _ _ Hp) as (l' & a' & a0 & profile & endpoint & signer & recipient & random & minv & issued & Hl' & Ha' & (K1 & K2 & K) & Hr & He & Hn & Hv & Hk & Hb & Hiss & Hs).
  rewrite Hl in Hl'. injection Hl' as <-. rewrite Hd, Ha in Ha'. injection Ha' as <-.
  destruct K as [<-|K]; [|lia]. exists l, a, profile, endpoint, signer, (pb_revision p), (pb_previous p), minv, issued. cbv zeta.
  split_and!; try done. intros cv Hpub Hbytes Hwg Hanchor Hab Hver Hawg.
  assert (recipient = public_of (cv_device cv)) as ->. { rewrite Hpub, b64_roundtrip in Hk by done. by injection Hk. }
  assert (cv_anchor cv = ed_public signer) as Han.
  { rewrite Hs in Hau. rewrite Hau in Hanchor. injection Hanchor as E.
    pose proof (b64_roundtrip _ Hab) as E1. pose proof (b64_roundtrip _ (ed_public_bytes signer)) as E2. rewrite E in E2. congruence. }
  apply (issued_verifies float_repr cv (lease_document id l a profile endpoint signer (pb_revision p) (pb_previous p) minv issued) signer random);
    try done. unfold in_force in Hf. sbools. cbn. lia.
Qed.

End Publishing.
End Spec.
