(* ===== verification/FleetFence.v ===== *)
(** What the gateways' journals guarantee: whatever is delivered late, twice or
    out of order, and whatever is lost in a restart, an address of the fleet is
    live at one peer at most, the one whose lease holds it. *)
From Stdlib Require Import ZArith Lia.
From S2P Require Import Prelude PyData Json JsonText Ipaddress ProfileConfig Rns Ack DeviceProof Registry.
From S2P Require Import RegistrySpec Journal Configuration ConfigurationSpec TransportPolicy Fleet FleetStore FleetGateway FleetSpec.

Local Open Scope Z_scope.

Lemma dget_map {K V} `{EqDecision K} (f : K * V → K * V) k (l : list (K * V)) : (∀ x, (f x).1 = x.1) →
  dget k (List.map f l) = (λ v, (f (k, v)).2) <$> dget k l.
Proof.
  intros Hf. induction l as [|[k0 v0] l IH]; [done|]. cbn. pose proof (Hf (k0, v0)) as E. destruct (f (k0, v0)) as [k1 v1] eqn:Ef.
  cbn in E. subst k1. case_decide; [subst; cbn; by rewrite Ef|exact IH].
Qed.

Lemma dkeys_map {K V} (f : K * V → K * V) (l : list (K * V)) : (∀ x, (f x).1 = x.1) → dkeys (List.map f l) = dkeys l.
Proof. intros Hf. unfold dkeys. induction l as [|x l IH]; [done|]. csimpl. by rewrite Hf, IH. Qed.

Section Fence.
Context {RN : Rns} {PY : Pydantic} {FJ : FleetJson} {PB : PeerBackend} {PBL : PeerBackendLaws} (float_repr : spec_float → pystr).
Abbreviation command_text := (command_text float_repr).
Abbreviation binding_text := (binding_text float_repr).
Abbreviation execute := (execute float_repr).

Implicit Types (h : fence) (c : peer_command).

Definition peers_of h (e : pystr * pystr) : peer_table := bk_peers (fn_backend h) e.

(** ** What a run of a command does *)

(** The row a command writes over an older one. *)
Record writes c (C : list (pystr * command_row)) (row : command_row) : Prop := {
  wr_binding : binding_text c = Ok (cw_binding row);
  wr_command : command_text c = Ok (cw_command row);
  wr_generation : cw_generation row = pc_generation c;
  wr_old old : dget (pc_lease c) C = Some old → cw_binding old = cw_binding row ∧ cw_generation old <= pc_generation c
    ∧ cw_address row = cw_address old ∧ cw_wg row = cw_wg old
    ∧ (cw_generation old = pc_generation c → cw_command old = cw_command row ∧ (cw_done old = true → pc_operation c = Present));
  wr_new : dget (pc_lease c) C = None → cw_address row = pc_address c ∧ cw_wg row = pc_wg c;
  wr_held : cw_held row = bool_decide (pc_operation c = Present) || match dget (pc_lease c) C with Some old => cw_held old | None => false end;
  wr_free : resource_free (pc_lease c) row C = true;
}.
Definition with_done (row : command_row) (held done : bool) : command_row :=
  CommandRow (cw_binding row) (cw_command row) (cw_generation row) (cw_address row) (cw_wg row) held done.
Definition updates (C C' : list (pystr * command_row)) (id : pystr) (row : command_row) : Prop :=
  (∀ k, dget k C' = if decide (id = k) then Some row else dget k C) ∧ (NoDup (dkeys C) → NoDup (dkeys C')).

Inductive outcome c h (r : result pyval) h' : Prop :=
  | out_same : fn_commands h' = fn_commands h → (∀ e, peers_of h' e = peers_of h e) →
      (∀ a, r = Ok a → ∃ old, dget (pc_lease c) (fn_commands h) = Some old ∧ cw_generation old = pc_generation c ∧ cw_done old = true) →
      outcome c h r h'
  | out_never row : writes c (fn_commands h) row → dget (pc_lease c) (fn_commands h) = None → pc_operation c = Absent →
      updates (fn_commands h) (fn_commands h') (pc_lease c) (with_done row false true) → (∀ e, peers_of h' e = peers_of h e) → outcome c h r h'
  | out_tried row e : writes c (fn_commands h) row → r = Raise e →
      (dget (pc_lease c) (fn_commands h) = None → pc_operation c = Present) →
      updates (fn_commands h) (fn_commands h') (pc_lease c) (with_done row (cw_held row) false) →
      (∀ e, e ≠ engine_of c → peers_of h' e = peers_of h e) →
      (peers_of h' (engine_of c) = peers_of h (engine_of c) ∨ peers_of h' (engine_of c) = commanded c (peers_of h (engine_of c))) → outcome c h r h'
  | out_done row : writes c (fn_commands h) row → (dget (pc_lease c) (fn_commands h) = None → pc_operation c = Present) →
      updates (fn_commands h) (fn_commands h') (pc_lease c) (with_done row (bool_decide (pc_operation c = Present)) true) →
      (∀ e, e ≠ engine_of c → peers_of h' e = peers_of h e) →
      peers_of h' (engine_of c) = commanded c (peers_of h (engine_of c)) → outcome c h r h'.

Lemma fence_if_eq b code h : fence_if b code h = ((if b then Ok () else Raise (fence_rejected code)), h).
Proof. by destruct b. Qed.
Lemma fence_bind {S A B} (m : M S A) (f : A → M S B) s : (m ≫= f) s = match m s with (Ok a, s1) => f a s1 | (Raise e, s1) => (Raise e, s1) end.
Proof. unfold mbind, M_bind. destruct (m s) as [[]]; done. Qed.

(** What comes back from a check: the same journal and engine. *)
Definition quiet {A} (m : M fence A) : Prop := ∀ s, (m s).2 = s.
Lemma quiet_fence_if b code : quiet (fence_if b code).
Proof. by intros s; destruct b. Qed.
Lemma quiet_lift {A} (x : result A) : quiet (lift x).
Proof. done. Qed.
Lemma quiet_ret {A} (x : A) : quiet (mret x).
Proof. done. Qed.
Lemma quiet_bind {A B} (m : M fence A) (f : A → M fence B) : quiet m → (∀ a, quiet (f a)) → quiet (m ≫= f).
Proof. intros Hm Hf s. rewrite fence_bind. pose proof (Hm s) as E. destruct (m s) as [[a|e] s1]; cbn in *; subst; [apply Hf|done]. Qed.
Lemma quiet_gate g now : quiet (gate g now).
Proof.
  unfold gate, fence_time. apply quiet_bind; [done|]. intros s. apply quiet_bind; [|intros; apply quiet_fence_if].
  apply quiet_bind; [apply quiet_fence_if|done].
Qed.

Lemma lift_Ok_state {S A} (x : result A) (s : S) r s' : lift x s = (r, s') → s' = s.
Proof. by intros [= _ <-]. Qed.

(** A check in front: it fails and nothing changed, or the rest runs. *)
Lemma quiet_step {A B} (m : M fence A) (f : A → M fence B) s r s' : quiet m → (m ≫= f) s = (r, s') →
  (∃ e, r = Raise e ∧ s' = s) ∨ (∃ a, m s = (Ok a, s) ∧ f a s = (r, s')).
Proof.
  intros Hm H. rewrite fence_bind in H. pose proof (Hm s) as E. destruct (m s) as [[a|e] s1]; cbn in E; subst s1; [right; eauto|].
  injection H as <- <-. left. eauto.
Qed.

Lemma quiet_present c now : quiet (if bool_decide (pc_operation c = Present)
  then now ← fence_time now; fence_if (negb (pc_expires c <=? now)) "expired-command" else mret ()).
Proof.
  case_bool_decide; [|done]. unfold fence_time. apply quiet_bind; [apply quiet_bind; [apply quiet_fence_if|done]|intros; apply quiet_fence_if].
Qed.

Lemma write_intent_out c binding text held ni now h r h' : write_intent c binding text held ni now h = (r, h') →
  (∃ e, r = Raise e ∧ h' = h) ∨
  (∃ row, r = Ok () ∧ fn_backend h' = fn_backend h ∧ fn_gateway h' = fn_gateway h ∧ fn_commands h' = dset (pc_lease c) row (fn_commands h)
     ∧ resource_free (pc_lease c) row (fn_commands h) = true
     ∧ row = match dget (pc_lease c) (fn_commands h) with
             | Some old => CommandRow (cw_binding old) text (pc_generation c) (cw_address old) (cw_wg old) held ni
             | None => CommandRow binding text (pc_generation c) (pc_address c) (pc_wg c) held ni
             end).
Proof.
  intros H. destruct r as [[]|e]; [right|left; apply transaction_raise in H; eauto]. unfold write_intent in H. apply transaction_done in H.
  apply M_bind_Ok in H as (t & s1 & H1 & H). unfold fence_time in H1. apply M_bind_Ok in H1 as (u & s2 & H2 & H1).
  apply lift_Ok in H2 as [_ ->]. apply mret_Ok in H1 as [-> ->]. apply M_bind_Ok in H as (s & s1 & H1 & H). apply get_state_Ok in H1 as [-> ->].
  apply M_bind_Ok in H as (u1 & s1 & H1 & H). apply lift_Ok in H1 as [Hr ->]. apply require_Ok in Hr. apply modify_Ok in H as ->.
  eexists. split_and!; try reflexivity. exact Hr.
Qed.

Lemma write_done_updates c h r h' row : write_done c h = (r, h') → dget (pc_lease c) (fn_commands h) = Some row →
  fn_backend h' = fn_backend h ∧ r = Ok ()
  ∧ updates (fn_commands h) (fn_commands h') (pc_lease c) (with_done row (bool_decide (pc_operation c = Present)) true).
Proof.
  intros [= <- <-] Hrow. split; [done|]. split; [done|]. split.
  2:{ cbn [with_commands fn_commands]. rewrite dkeys_map; [done|]. intros x. by destruct (str_eqb _ _). }
  intros k. cbn [with_commands fn_commands].
  rewrite dget_map by (intros x; by destruct (str_eqb _ _)). cbn [fst snd]. case_decide as Ek.
  - subst k. rewrite Hrow. cbn. by rewrite (proj2 (str_eqb_eq _ _) eq_refl).
  - assert (str_eqb k (pc_lease c) = false) as -> by (apply not_true_iff_false; intros E%str_eqb_eq; congruence). by destruct (dget k _).
Qed.

Lemma updates_dset id row (C : list (pystr * command_row)) : updates C (dset id row C) id row.
Proof. split; [intros k; apply dget_dset|apply dset_NoDup]. Qed.
Lemma updates_twice id row row' (C C' C'' : list (pystr * command_row)) : updates C C' id row → updates C' C'' id row' → updates C C'' id row'.
Proof. intros [H1 N1] [H2 N2]. split; [|auto]. intros k. rewrite H2. case_decide; [done|]. by rewrite H1, decide_False. Qed.

Lemma on_backend_out (m : M backend ()) h r h' : on_backend m h = (r, h') →
  fn_commands h' = fn_commands h ∧ fn_gateway h' = fn_gateway h ∧ m (fn_backend h) = (r, fn_backend h').
Proof. unfold on_backend. destruct (m (fn_backend h)) as [x b] eqn:E. by intros [= <- <-]. Qed.

(** The question asked of the engine before a first installation. *)
Lemma first_check_out c (old : option command_row) h r h1 :
  (match old with Some _ => mret () | None => if bool_decide (pc_operation c = Present) then on_backend (preflight c) else mret () end : M fence ()) h = (r, h1) →
  fn_commands h1 = fn_commands h ∧ ∀ e, peers_of h1 e = peers_of h e.
Proof.
  destruct old; [by intros [_ ->]%pair_equal_spec|]. destruct (bool_decide _); [|by intros [_ ->]%pair_equal_spec].
  intros (Ec & _ & Ep)%on_backend_out. split; [done|]. intros e. by eapply preflight_peers.
Qed.

(** Past the next check of a run [H]: one that fails changes nothing. *)
Tactic Notation "past_check" hyp(H) simple_intropattern(a) simple_intropattern(Ha) :=
  apply quiet_step in H as [(? & -> & ->)|(a & Ha & H)];
    [by apply out_same| |first [apply quiet_lift|apply quiet_fence_if|apply quiet_gate|apply quiet_present|done]].

Lemma execute_outcome g restore ck c h r h' : execute g restore ck c h = (r, h') → outcome c h r h'.
Proof.
  intros H. unfold FleetGateway.execute in H.
  past_check H u1 _. past_check H u2 _. past_check H u3 _. past_check H s Hs. apply get_state_Ok in Hs as [-> _].
  past_check H binding Hb. apply lift_Ok in Hb as [Hb _]. past_check H u4 Hold. past_check H u5 _.
  past_check H text Ht. apply lift_Ok in Ht as [Ht _]. past_check H u6 Hconf.
  rewrite fence_if_eq in Hold, Hconf. set (old := dget (pc_lease c) (fn_commands h)) in *.
  destruct (match old with Some o => str_eqb (cw_binding o) binding && (cw_generation o <=? pc_generation c) | None => true end) eqn:Eold; [|done].
  destruct (match old with Some o => negb match old with Some o0 => cw_generation o0 =? pc_generation c | None => false end || str_eqb (cw_command o) text | None => true end) eqn:Econf; [|done].
  clear Hold Hconf.
  destruct (match old with Some o => cw_generation o =? pc_generation c | None => false end && _ && _) eqn:Erep.
  { injection H as <- <-. apply out_same; [done|done|]. intros a _. fold old. destruct old as [o|]; [|done]. exists o.
    rewrite !andb_true_iff in Erep. destruct Erep as [[E1%Z.eqb_eq E2] _]. done. }
  (* the first installation asks the engine *)
  rewrite fence_bind in H. destruct ((match old with Some _ => mret () | None => if bool_decide (pc_operation c = Present) then on_backend (preflight c) else mret () end : M fence ()) h)
    as [v h1] eqn:Hpre.
  apply first_check_out in Hpre as [Hc1 Hp1]. destruct v as [v|e]; [|injection H as <- <-; by apply out_same].
  rewrite fence_bind in H. destruct (write_intent _ _ _ _ _ _ h1) as [x h2] eqn:Hw.
  apply write_intent_out in Hw as [(e & -> & ->)|(row & -> & Hb2 & _ & Hc2 & Hf & Hrow)]; [injection H as <- <-; by apply out_same|].
  rewrite Hc1 in Hc2, Hf, Hrow. fold old in Hrow.
  assert (updates (fn_commands h) (fn_commands h2) (pc_lease c) row) as Hup by (rewrite Hc2; apply updates_dset).
  assert (∀ e, peers_of h2 e = peers_of h e) as Hp2 by (intros e; unfold peers_of; rewrite Hb2; apply Hp1).
  assert (writes c (fn_commands h) row) as Hwr.
  { split; fold old; subst row; destruct old as [o|]; sbools; cbn [cw_binding cw_command cw_generation cw_address cw_wg cw_held];
      try done; try congruence.
    - intros o' [= <-]. split_and!; try done; intros Eg. split.
      + destruct (cw_generation o =? pc_generation c) eqn:E2; [|lia]. cbn in Econf. by apply str_eqb_eq in Econf.
      + intros Ed. rewrite Ed in Erep. rewrite (proj2 (Z.eqb_eq _ _) Eg) in Erep. destruct restore; cbn in Erep; [|done]. by sbools. }
  destruct (match old with Some _ => false | None => bool_decide (pc_operation c = Absent) end) eqn:Eni.
  - destruct old as [o|] eqn:Eo; [done|]. apply bool_decide_eq_true in Eni. apply lift_Ok_state in H as ->.
    eapply out_never; [exact Hwr|exact Eo|done| |exact Hp2].
    replace (with_done row false true) with row; [exact Hup|]. rewrite Hrow. unfold with_done. cbn. by rewrite Eni.
  - rewrite fence_bind in H. destruct (on_backend (ensure c) h2) as [[[]|e] h3] eqn:He; apply on_backend_out in He as (Hc3 & _ & He).
    + rewrite fence_bind in H. destruct (write_done c h3) as [y h4] eqn:Hd.
      apply (write_done_updates _ _ _ _ row) in Hd as (Hb4 & -> & Hu4); [|rewrite Hc3, (proj1 Hup); by rewrite decide_True].
      apply lift_Ok_state in H as ->. eapply out_done; [exact Hwr| | | |].
      * fold old. intros E. rewrite E in Eni. destruct (pc_operation c); [done|]. by rewrite bool_decide_eq_true_2 in Eni.
      * eapply updates_twice; [exact Hup|]. by rewrite <- Hc3.
      * intros e Ne. unfold peers_of. rewrite Hb4, (ensure_others _ _ _ _ _ He Ne). apply Hp2.
      * unfold peers_of. rewrite Hb4, (ensure_done _ _ _ He). f_equal. apply Hp2.
    + injection H as <- <-. eapply out_tried; [exact Hwr|done| | | |].
      * fold old. intros E. rewrite E in Eni. destruct (pc_operation c); [done|]. by rewrite bool_decide_eq_true_2 in Eni.
      * rewrite Hc3. replace (with_done row (cw_held row) false) with row; [exact Hup|]. rewrite Hrow. by destruct old.
      * intros e' Ne. unfold peers_of. rewrite (ensure_others _ _ _ _ _ He Ne). apply Hp2.
      * unfold peers_of. destruct (ensure_partly _ _ _ _ He) as [E|E]; rewrite E; [left|right; f_equal]; apply Hp2.
Qed.

(** ** A gateway *)

(** A command without what changes over its lease's life. *)
Definition as_present c : peer_command :=
  PeerCommand (pc_lease c) (pc_gateway c) (pc_device c) (pc_wg c) (pc_address c) (pc_transport c) (pc_version c) (pc_expires c) 1 Present.
(** The commands ever sent are well formed, and those of a lease agree. *)
Record coherent (sent : list peer_command) : Prop := {
  co_valid c : c ∈ sent → valid_command c = true;
  co_same c c' : c ∈ sent → c' ∈ sent → pc_lease c = pc_lease c' → as_present c = as_present c';
}.

Lemma as_present_eq c c' : as_present c = as_present c' →
  pc_gateway c = pc_gateway c' ∧ pc_device c = pc_device c' ∧ pc_wg c = pc_wg c' ∧ pc_address c = pc_address c' ∧ engine_of c = engine_of c' ∧ route_of c = route_of c'.
Proof. intros [= E1 E2 E3 E4 E5 E6 E7 E8]. unfold engine_of, route_of. by rewrite E2, E3, E4, E5, E6, E7. Qed.
Lemma valid_generation c : valid_command c = true → pc_generation c = match pc_operation c with Present => 1 | Absent => 2 end.
Proof. unfold valid_command. rewrite !andb_true_iff. intros [_ H]. by apply Z.eqb_eq. Qed.

(** The row is of the command; it lets go of its address only when a removal is
    done. *)
Record row_of (id : pystr) c (row : command_row) : Prop := {
  ro_lease : pc_lease c = id;
  ro_command : command_text c = Ok (cw_command row);
  ro_generation : cw_generation row = pc_generation c;
  ro_address : cw_address row = pc_address c;
  ro_wg : cw_wg row = pc_wg c;
  ro_free : cw_held row = false → pc_operation c = Absent ∧ cw_done row = true;
  ro_removed : pc_operation c = Absent → cw_done row = true → cw_held row = false;
}.

Record host_ok (sent : list peer_command) (gw : pystr) h : Prop := {
  ho_keys : NoDup (dkeys (fn_commands h));
  ho_rows id row : dget id (fn_commands h) = Some row → ∃ c, c ∈ sent ∧ pc_gateway c = gw ∧ row_of id c row;
  ho_held id1 row1 id2 row2 : dget id1 (fn_commands h) = Some row1 → dget id2 (fn_commands h) = Some row2 → id1 ≠ id2 →
    cw_held row1 = true → cw_held row2 = true → cw_address row1 ≠ cw_address row2 ∧ cw_wg row1 ≠ cw_wg row2;
  ho_peers e w nets : peers_of h e !! w = Some nets → ∃ id row c, dget id (fn_commands h) = Some row ∧ cw_held row = true
    ∧ c ∈ sent ∧ pc_gateway c = gw ∧ row_of id c row ∧ engine_of c = e ∧ pc_wg c = w ∧ nets = route_of c;
}.

Lemma host_ok_mono sent sent' gw h : (∀ c, c ∈ sent → c ∈ sent') → host_ok sent gw h → host_ok sent' gw h.
Proof.
  intros Hs [K R D P]. split; [done| |done|].
  - intros id row H. destruct (R _ _ H) as (c & Hc & Rest). eauto.
  - intros e w nets H. destruct (P _ _ _ H) as (id & row & c & H1 & H2 & Hc & Rest). exists id, row, c. eauto.
Qed.

Lemma resource_free_ne id row C id' row' : resource_free id row C = true → cw_held row = true → dget id' C = Some row' → id' ≠ id →
  cw_held row' = true → cw_address row' ≠ cw_address row ∧ cw_wg row' ≠ cw_wg row.
Proof.
  unfold resource_free. intros H Hh Hd Hn Hh'. rewrite Hh in H. cbn [negb orb] in H. rewrite forallb_forall in H.
  apply dget_elem, list_elem_of_In in Hd. specialize (H _ Hd). cbn [fst snd] in H. rewrite Hh' in H.
  assert (str_eqb id' id = false) as E by (apply not_true_iff_false; by intros ->%str_eqb_eq). rewrite E in H. cbn [negb orb] in H. by sbools.
Qed.

Section Host.
Context (sent : list peer_command) (Hco : coherent sent) (gw : pystr).

Implicit Types (row : command_row).

Lemma writes_row c h row : c ∈ sent → host_ok sent gw h → writes c (fn_commands h) row →
  cw_address row = pc_address c ∧ cw_wg row = pc_wg c ∧
  ((dget (pc_lease c) (fn_commands h) = None → pc_operation c = Present) → cw_held row = true) ∧
  ∀ held done : bool, (held = false → pc_operation c = Absent ∧ done = true) → (pc_operation c = Absent → done = true → held = false) →
    row_of (pc_lease c) c (with_done row held done).
Proof.
  intros Hc Hh W. assert (cw_address row = pc_address c ∧ cw_wg row = pc_wg c) as [Ea Ew].
  { destruct (dget (pc_lease c) (fn_commands h)) as [old|] eqn:Eo; [|by apply W].
    destruct (wr_old _ _ _ W _ Eo) as (_ & _ & -> & -> & _). destruct (ho_rows _ _ _ Hh _ _ Eo) as (c0 & Hc0 & _ & R).
    destruct (as_present_eq _ _ (co_same _ Hco _ _ Hc0 Hc (ro_lease _ _ _ R))) as (_ & _ & Ew & Ea & _). destruct R. by rewrite <- Ea, <- Ew. }
  split; [done|]. split; [done|]. split.
  - intros Hn. rewrite (wr_held _ _ _ W). case_bool_decide as Eop; [done|]. cbn [orb].
    destruct (dget (pc_lease c) (fn_commands h)) as [old|] eqn:Eo; [|by destruct Eop; apply Hn].
    destruct (ho_rows _ _ _ Hh _ _ Eo) as (c0 & Hc0 & _ & R). destruct (cw_held old) eqn:Eh; [done|].
    destruct (ro_free _ _ _ R Eh) as [E0 Ed]. destruct (wr_old _ _ _ W _ Eo) as (_ & _ & _ & _ & Hg).
    pose proof (valid_generation _ (co_valid _ Hco _ Hc0)) as G0. pose proof (valid_generation _ (co_valid _ Hco _ Hc)) as G. rewrite E0 in G0.
    destruct (pc_operation c) eqn:Ec; [done|]. exfalso. destruct Hg as [_ Hg]; [rewrite (ro_generation _ _ _ R); congruence|]. by specialize (Hg Ed).
  - intros held done H1 H2. split; cbn; try done; apply W.
Qed.

(** The other rows are as before, and the row of the command is of it. *)
Lemma host_update c h h' row held done : c ∈ sent → pc_gateway c = gw → host_ok sent gw h → writes c (fn_commands h) row →
  updates (fn_commands h) (fn_commands h') (pc_lease c) (with_done row held done) →
  row_of (pc_lease c) c (with_done row held done) → (held = true → cw_held row = true) →
  (∀ e w nets, peers_of h' e !! w = Some nets →
     (held = true ∧ e = engine_of c ∧ w = pc_wg c ∧ nets = route_of c) ∨
     (peers_of h e !! w = Some nets ∧ (held = true ∨ dget (pc_lease c) (fn_commands h) = None ∨ ¬ (e = engine_of c ∧ w = pc_wg c)))) →
  host_ok sent gw h'.
Proof.
  intros Hc Hg Hh W U R Hheld Hp. split; [apply U, Hh|..].
  - intros id row1. rewrite (proj1 U). case_decide as Ei; [intros [= <-]; subst id; eauto|apply Hh].
  - assert (∀ id1 row1, dget id1 (fn_commands h) = Some row1 → id1 ≠ pc_lease c → cw_held row1 = true → held = true →
      cw_address row1 ≠ cw_address row ∧ cw_wg row1 ≠ cw_wg row) as Hx.
    { intros id1 row1 H1 N Hh1 Ht. eapply resource_free_ne; [apply W|by apply Hheld|done..]. }
    intros id1 row1 id2 row2. rewrite !(proj1 U). repeat case_decide; subst; intros H1 H2 N; simplify_eq; try done; cbn; intros E1 E2.
    + destruct (Hx _ _ H2); try done.
    + by apply (Hx _ _ H1).
    + by eapply (ho_held _ _ _ Hh).
  - intros e w nets H. destruct (Hp _ _ _ H) as [(-> & -> & -> & ->)|[Hold Hne]].
    + exists (pc_lease c), (with_done row true done), c. rewrite (proj1 U), decide_True by done. done.
    + destruct (ho_peers _ _ _ Hh _ _ _ Hold) as (id & row1 & c1 & H1 & Hh1 & Hc1 & Hg1 & R1 & <- & <- & ->).
      destruct (decide (pc_lease c = id)) as [Ei|Ei]; [|exists id, row1, c1; by rewrite (proj1 U), decide_False].
      assert (as_present c1 = as_present c) as Ep by (eapply co_same; [done|done|done|rewrite (ro_lease _ _ _ R1); congruence]).
      destruct (as_present_eq _ _ Ep) as (_ & _ & Ew & _ & Ee & Er).
      destruct Hne as [->|[Hne|Hne]]; [|congruence|destruct Hne; by rewrite Ew, Ee]. exists (pc_lease c), (with_done row true done), c.
      rewrite (proj1 U), decide_True by done. done.
Qed.

Lemma execute_host_ok g restore ck c h r h' : c ∈ sent → pc_gateway c = gw → execute g restore ck c h = (r, h') → host_ok sent gw h → host_ok sent gw h'.
Proof.
  intros Hc Hg He Hh. apply execute_outcome in He as [E1 E2 _|row W En Eo U Hp|row e W -> Hn U Hother Hp|row W Hn U Hother Hp].
  - destruct Hh as [K R D P]. split; rewrite ?E1; [done|done|done|]. intros e w nets. rewrite E2. apply P.
  - destruct (writes_row _ _ _ Hc Hh W) as (_ & _ & _ & R). eapply host_update; try done; [by apply R|].
    intros e w nets. rewrite Hp. auto.
  - destruct (writes_row _ _ _ Hc Hh W) as (_ & _ & Hheld & R). specialize (Hheld Hn). eapply host_update; try done; [apply R; congruence|].
    intros e' w nets H. rewrite Hheld. destruct (decide (e' = engine_of c)) as [->|Ne]; [|rewrite Hother in H by done; auto].
    destruct Hp as [->| ->] in H; [auto|]. revert H. unfold commanded. destruct (pc_operation c).
    + rewrite lookup_insert. case_decide; [intros [= <-]; subst; auto|auto].
    + rewrite lookup_delete. case_decide; [done|auto].
  - destruct (writes_row _ _ _ Hc Hh W) as (_ & _ & Hheld & R). specialize (Hheld Hn).
    eapply host_update; try done; [apply R; by destruct (pc_operation c)|].
    intros e' w nets H. destruct (decide (e' = engine_of c)) as [->|Ne]; [|rewrite Hother in H by done; right; split; [done|right; right; by intros []]].
    rewrite Hp in H. revert H. unfold commanded. destruct (pc_operation c).
    + rewrite lookup_insert. destruct (decide (pc_wg c = w)) as [<-|]; [intros [= <-]; by left|intros H; right; split; [exact H|by left]].
    + rewrite lookup_delete. destruct (decide (pc_wg c = w)) as [|Ew]; [done|]. intros H. right. split; [done|]. right. right. by intros [_ ->].
Qed.

(** A lease whose removal is done: its commands change nothing any more. *)
Definition settled (id : pystr) h : Prop :=
  ∃ row, dget id (fn_commands h) = Some row ∧ cw_generation row = 2 ∧ cw_done row = true ∧ cw_held row = false.

Lemma execute_settled_same g restore ck c h r h' : c ∈ sent → execute g restore ck c h = (r, h') → settled (pc_lease c) h →
  fn_commands h' = fn_commands h ∧ ∀ e, peers_of h' e = peers_of h e.
Proof.
  intros Hc He (row0 & H0 & G0 & D0 & F0). pose proof (valid_generation _ (co_valid _ Hco _ Hc)) as G.
  assert (∀ row, ¬ writes c (fn_commands h) row) as Hno.
  { intros row W. destruct (wr_old _ _ _ W _ H0) as (_ & Hle & _ & _ & Hg). rewrite G0 in *. destruct (pc_operation c) eqn:Eo; [lia|].
    destruct Hg as [_ Hg]; [congruence|]. by specialize (Hg D0). }
  apply execute_outcome in He as [E1 E2 _|row W|row e W|row W]; [done|by destruct (Hno row)..].
Qed.

Lemma execute_settled g restore ck c h r h' id : c ∈ sent → execute g restore ck c h = (r, h') → settled id h → settled id h'.
Proof.
  intros Hc He Hs. destruct (decide (pc_lease c = id)) as [<-|Ne].
  - destruct (execute_settled_same _ _ _ _ _ _ _ Hc He Hs) as [E _]. unfold settled in *. by rewrite E.
  - destruct Hs as (row0 & H0 & Rest). exists row0. split; [|done].
    apply execute_outcome in He as [E1 _ _|row _ _ _ U _|row e _ _ _ U _ _|row _ _ U _ _]; [by rewrite E1|by rewrite (proj1 U), decide_False..].
Qed.

(** A removal that is answered is settled. *)
Lemma execute_removes g restore ck c h a h' : c ∈ sent → host_ok sent gw h → pc_operation c = Absent →
  execute g restore ck c h = (Ok a, h') → settled (pc_lease c) h'.
Proof.
  intros Hc Hh Ea He. pose proof (valid_generation _ (co_valid _ Hco _ Hc)) as G. rewrite Ea in G. unfold settled.
  apply execute_outcome in He as [E1 E2 Hr|row W En Eo U Hp|row e W Er|row W Hn U Hother Hp].
  - destruct (Hr _ eq_refl) as (old & Ho & Eg & Ed). exists old. rewrite E1. split; [done|]. split; [congruence|]. split; [done|].
    destruct (ho_rows _ _ _ Hh _ _ Ho) as (c0 & Hc0 & _ & R). apply (ro_removed _ _ _ R); [|done].
    pose proof (valid_generation _ (co_valid _ Hco _ Hc0)) as G0. rewrite <- (ro_generation _ _ _ R), Eg, G in G0. by destruct (pc_operation c0).
  - eexists. rewrite (proj1 U), decide_True by done. split; [done|]. cbn. rewrite (wr_generation _ _ _ W). done.
  - discriminate Er.
  - eexists. rewrite (proj1 U), decide_True by done. split; [done|]. cbn. rewrite (wr_generation _ _ _ W), Ea. done.
Qed.
End Host.
End Fence.

(** ** The fleet *)

Section System.
Context {RN : Rns} {ED : Ed25519} {PY : Pydantic} {FJ : FleetJson} {RJ : ReservationJson} {LM : LibM} {PB : PeerBackend} {PBL : PeerBackendLaws}.
Context (float_repr : spec_float → pystr) {FJL : FleetJsonLaws float_repr}.

(** The controller's store and its gateways, every command ever sent to one of
    them, and those it answered. *)
Record fleet_sys := FleetSys {
  sy_store : fleet_db;
  sy_hosts : list (pystr * (fleet_gateway * fence));
  sy_sent : list peer_command;
  sy_answered : list peer_command;
}.

(** What a worker holds was read from the store at some time. *)
Definition was_pending (s : fleet_db) (x : pystr * lease) : Prop :=
  pending_lease x.2 = true ∧ generation_ok x.2 ∧ ∃ l, dget x.1 (fd_leases s) = Some l ∧ lease_moves x.2 l.
Definition is_removal (o : fleet_op) : bool := match o with FRemoved _ _ => true | _ => false end.
(** The engines after a restart have some of their peers. *)
Definition restarted (h h' : fence) : Prop :=
  fn_commands h' = fn_commands h ∧ ∀ e w nets, peers_of h' e !! w = Some nets → peers_of h e !! w = Some nets.

(** One step: an operation of the store other than the confirmation of a removal;
    a command taken from the store and sent; a command that was sent carried out
    by its gateway, now or late or again; the confirmation of a removal that was
    answered; a restart; a new gateway. *)
Inductive sys_step : fleet_sys → fleet_sys → Prop :=
  | sys_store now o s hosts sent answered : is_removal o = false →
      sys_step (FleetSys s hosts sent answered) (FleetSys (perform float_repr now o s).2 hosts sent answered)
  | sys_send x now work s s' hosts sent answered : was_pending s x →
      work_item float_repr x.1 (ls_generation x.2) now s = (Ok work, s') → valid_command (command_of x (lw_wg work)) = true →
      sys_step (FleetSys s hosts sent answered) (FleetSys s' hosts (command_of x (lw_wg work) :: sent) answered)
  | sys_deliver c g h restore ck r h' s hosts sent answered : c ∈ sent → dget (pc_gateway c) hosts = Some (g, h) →
      execute float_repr g restore ck c h = (r, h') →
      sys_step (FleetSys s hosts sent answered)
        (FleetSys s (dset (pc_gateway c) (g, h') hosts) sent (if is_ok r then c :: answered else answered))
  | sys_confirm c now s hosts sent answered : c ∈ answered → pc_operation c = Absent →
      sys_step (FleetSys s hosts sent answered) (FleetSys (confirm_removed (pc_lease c) (pc_generation c) now s).2 hosts sent answered)
  | sys_restart gw g h h' s hosts sent answered : dget gw hosts = Some (g, h) → restarted h h' →
      sys_step (FleetSys s hosts sent answered) (FleetSys s (dset gw (g, h') hosts) sent answered)
  | sys_join gw g h s hosts sent answered : dget gw hosts = None → fn_commands h = [] → (∀ e, peers_of h e = ∅) →
      sys_step (FleetSys s hosts sent answered) (FleetSys s (dset gw (g, h) hosts) sent answered).

(** What was sent for a lease is what its row says, at a generation not above
    its own. *)
Definition sent_ok (s : fleet_db) (sent : list peer_command) : Prop := ∀ c, c ∈ sent → valid_command c = true ∧
  ∃ l a, dget (pc_lease c) (fd_leases s) = Some l ∧ dget (ls_device l) (fd_access s) = Some a
    ∧ as_present c = as_present (command_of (pc_lease c, l) (ac_wg a)) ∧ pc_generation c <= ls_generation l.
Definition settled_at (hosts : list (pystr * (fleet_gateway * fence))) (gw id : pystr) : Prop :=
  ∃ g h, dget gw hosts = Some (g, h) ∧ settled id h.

Record sys_ok (y : fleet_sys) : Prop := {
  yo_store : store_ok float_repr (sy_store y);
  yo_sent : sent_ok (sy_store y) (sy_sent y);
  yo_hosts gw g h : dget gw (sy_hosts y) = Some (g, h) → host_ok float_repr (sy_sent y) gw h;
  yo_answered c : c ∈ sy_answered y → c ∈ sy_sent y ∧ (pc_operation c = Absent → settled_at (sy_hosts y) (pc_gateway c) (pc_lease c));
  yo_released id l : dget id (fd_leases (sy_store y)) = Some l → ls_state l = Released → settled_at (sy_hosts y) (ls_gateway l) id;
}.

Lemma sent_coherent s sent : sent_ok s sent → coherent sent.
Proof.
  intros H. split; [intros c Hc; by apply H|]. intros c c' Hc Hc' E.
  destruct (H _ Hc) as (_ & l & a & H1 & H2 & H3 & _), (H _ Hc') as (_ & l' & a' & H1' & H2' & H3' & _).
  rewrite <- E in H1', H3'. rewrite H1 in H1'. injection H1' as <-. rewrite H2 in H2'. injection H2' as <-. congruence.
Qed.

Lemma command_terms x l wg : same_terms x l → ∀ id, as_present (command_of (id, x) wg) = as_present (command_of (id, l) wg).
Proof. unfold same_terms, with_state, command_of, as_present. intros [=] id. cbn. congruence. Qed.

Lemma moves_le a b : generation_ok a → lease_moves a b → ls_generation a <= ls_generation b.
Proof.
  intros G M. pose proof (moves_generation _ _ M G) as G'. unfold generation_ok in *. rewrite G, G'.
  destruct (current_lease a) eqn:Ca, (current_lease b) eqn:Cb; try lia. apply (moves_current _ _ M) in Cb. congruence.
Qed.

Lemma sent_advances s s' sent : store_ok float_repr s → advances s s' → sent_ok s sent → sent_ok s' sent.
Proof.
  intros H0 A H c Hc. destruct (H _ Hc) as (Hv & l & a & Hl & Ha & Ep & Hg). split; [done|].
  destruct (av_leases _ _ A _ _ Hl) as (l' & Hl' & M), (av_access _ _ A _ _ Ha) as (a' & Ha' & _ & Ew & _).
  exists l', a'. pose proof (moves_terms _ _ M) as T. destruct (terms_eq _ _ T) as [D _]. rewrite <- D. split_and!; try done.
  - rewrite Ep, Ew. by apply command_terms.
  - pose proof (moves_le _ _ (so_generation _ _ H0 _ _ Hl) M). lia.
Qed.

Lemma work_item_Ok id gen now s w s' : work_item float_repr id gen now s = (Ok w, s') →
  ∃ l a, dget id (fd_leases s) = Some l ∧ ls_generation l = gen ∧ pending_lease l = true ∧ dget (ls_device l) (fd_access s) = Some a
    ∧ lw_lease w = (id, l) ∧ lw_public w = ac_public a ∧ lw_wg w = ac_wg a ∧ s' = set_clock now s ∧ fd_now s <= now < 2 ^ 63.
Proof.
  unfold work_item, positive_to, admit_if. rewrite bind_lift. destruct (require _ _); [|done]. intros H.
  apply fleet_transaction_Ok in H as (C & N & H). apply M_bind_Ok in H as (l & s1 & H1 & H). apply get_lease_Ok in H1 as [Hl ->].
  apply M_bind_Ok in H as (u & s1 & H1 & H). apply admit_if_Ok in H1 as [Hg ->]. apply andb_true_iff in Hg as [Hg%Z.eqb_eq Hp].
  apply M_bind_Ok in H as (s0 & s1 & H1 & H). apply get_state_Ok in H1 as [-> ->]. apply M_bind_Ok in H as (u1 & s1 & H1 & H).
  assert (s1 = at_clock now s) as ->.
  { case_bool_decide; [|by apply mret_Ok in H1 as [_ ->]]. apply M_bind_Ok in H1 as (b & s2 & H2 & H1). apply authorized_Ok in H2 as (_ & _ & ->).
    by apply admit_if_Ok in H1 as [_ ->]. }
  apply M_bind_Ok in H as (text & s1 & H2 & H). apply lift_Ok in H2 as [_ ->]. apply M_bind_Ok in H as (reg & s1 & H2 & H). apply lift_Ok in H2 as [_ ->].
  apply M_bind_Ok in H as (g & s1 & H2 & H). apply lift_Ok in H2 as [_ ->]. apply M_bind_Ok in H as (ac & s1 & H2 & H). apply lift_Ok in H2 as [Ha ->].
  apply of_option_Ok in Ha. apply mret_Ok in H as [-> ->]. exists l, ac. split_and!; try done; lia.
Qed.

Lemma restarted_ok sent gw h h' : restarted h h' → host_ok float_repr sent gw h → host_ok float_repr sent gw h'.
Proof. intros [E P] [K R D Q]. split; rewrite ?E; [done|done|done|]. intros e w nets H%P. by apply Q in H. Qed.

Lemma confirm_released id gen now s r s' : confirm_removed id gen now s = (r, s') → ∀ id' l', dget id' (fd_leases s') = Some l' →
  ls_state l' = Released → (∃ l, dget id' (fd_leases s) = Some l ∧ ls_state l = Released) ∨
    (id' = id ∧ ls_generation l' = gen ∧ ∃ l, dget id (fd_leases s) = Some l ∧ same_terms l l').
Proof.
  intros H id' l' Hl Hr. destruct r as [l1|e]; [|apply confirm_removed_atomic in H as ->; eauto].
  apply confirm_removed_Ok in H as (l & E & _ & _ & Hl0 & Hg & _ & -> & ->). cbn in Hl. rewrite dget_dset in Hl. case_decide; [subst|eauto].
  injection Hl as <-. right. split; [done|]. split; [done|]. exists l. done.
Qed.

(** Steps of the store alone. *)
Lemma store_step_ok y s' : sys_ok y → good float_repr (sy_store y) s' →
  (∀ id l, dget id (fd_leases s') = Some l → ls_state l = Released → settled_at (sy_hosts y) (ls_gateway l) id) →
  sys_ok (FleetSys s' (sy_hosts y) (sy_sent y) (sy_answered y)).
Proof.
  intros [Y1 Y2 Y3 Y4 Y5] G Hr. destruct (G Y1) as [H1 A].
  split; [exact H1|by eapply (sent_advances (sy_store y))|exact Y3|exact Y4|exact Hr].
Qed.

Lemma released_before y s' : sys_ok y → advances (sy_store y) s' → unreleased (sy_store y) s' →
  ∀ id l, dget id (fd_leases s') = Some l → ls_state l = Released → settled_at (sy_hosts y) (ls_gateway l) id.
Proof.
  intros Y A U id l Hl Hr. destruct (U _ _ Hl Hr) as (l0 & Hl0 & Hr0). destruct (av_leases _ _ A _ _ Hl0) as (l1 & Hl1 & M).
  rewrite Hl in Hl1. injection Hl1 as <-. destruct (terms_eq _ _ (moves_terms _ _ M)) as (_ & <- & _). by apply Y.
Qed.

(** Steps of one gateway. *)
Lemma host_step_ok s hosts sent answered gw g h' : sys_ok (FleetSys s hosts sent answered) → host_ok float_repr sent gw h' →
  (∀ id, settled_at hosts gw id → settled id h') → sys_ok (FleetSys s (dset gw (g, h') hosts) sent answered).
Proof.
  intros [Y1 Y2 Y3 Y4 Y5] Hok Hs. cbn [sy_store sy_hosts sy_sent sy_answered] in *.
  assert (∀ gw' id, settled_at hosts gw' id → settled_at (dset gw (g, h') hosts) gw' id) as Hset.
  { intros gw' id H. unfold settled_at. rewrite dget_dset. case_decide as E; [|exact H]. rewrite <- E in H. eauto. }
  split; cbn [sy_store sy_hosts sy_sent sy_answered]; [done|done| | |].
  - intros gw' g' h1. rewrite dget_dset. case_decide as E; [by intros [= <- <-]; subst|apply Y3].
  - intros c Hc. destruct (Y4 _ Hc) as [H1 H2]. split; [done|]. intros Ea. by apply Hset, H2.
  - intros id l Hl Hr. by eapply Hset, Y5.
Qed.

Lemma deliver_ok s hosts sent answered c g h restore ck r h' : sys_ok (FleetSys s hosts sent answered) → c ∈ sent →
  dget (pc_gateway c) hosts = Some (g, h) → execute float_repr g restore ck c h = (r, h') →
  sys_ok (FleetSys s (dset (pc_gateway c) (g, h') hosts) sent (if is_ok r then c :: answered else answered)).
Proof.
  intros Y Hc Hh He. pose proof (sent_coherent _ _ (yo_sent _ Y)) as Co. pose proof (yo_hosts _ Y _ _ _ Hh) as Hok. cbn in Co, Hok.
  assert (sys_ok (FleetSys s (dset (pc_gateway c) (g, h') hosts) sent answered)) as [Y1 Y2 Y3 Y4 Y5].
  { apply host_step_ok; [exact Y|eapply execute_host_ok; eauto|]. intros id (g0 & h0 & H & S). rewrite Hh in H. injection H as <- <-.
    by eapply execute_settled. }
  destruct r as [a|e]; cbn [is_ok]; [|by split]. split; try done. cbn [sy_store sy_hosts sy_sent sy_answered] in *.
  intros c0 [->|H0]%elem_of_cons; [|by apply Y4]. split; [done|]. intros Ea.
  exists g, h'. rewrite dget_dset_eq. split; [done|]. by eapply execute_removes.
Qed.

Lemma sys_step_ok y y' : sys_step y y' → sys_ok y → sys_ok y'.
Proof.
  intros St Y. destruct St as [now o s hosts sent answered Hn|x now work s s' hosts sent answered Hx Hw Hv
    |c g h restore ck r h' s hosts sent answered Hc Hh He|c now s hosts sent answered Hc Ha|gw g h h' s hosts sent answered Hh Hr
    |gw g h s hosts sent answered Hh Hc Hp].
  - destruct (perform float_repr now o s) as [r s'] eqn:E. cbn [snd]. pose proof (perform_good _ _ _ _ _ _ E) as G.
    apply (store_step_ok _ s' Y G). eapply released_before; [exact Y|exact (proj2 (G (yo_store _ Y)))|].
    eapply perform_unreleased; [exact (yo_store _ Y)| |exact E].
    by intros ? ? ->.
  - destruct (work_item_Ok _ _ _ _ _ _ Hw) as (l & a & Hl & Hg & Hp & Ha & _ & _ & Ewg & -> & N).
    pose proof (so_clock _ _ (yo_store _ Y)) as C0. cbn in C0.
    assert (good float_repr s (set_clock now s)) as G by (apply good_clock; lia).
    destruct (G (yo_store _ Y)) as [H1 A]. destruct Hx as (_ & Gx & l0 & Hl0 & M). rewrite Hl in Hl0. injection Hl0 as <-.
    destruct Y as [Y1 Y2 Y3 Y4 Y5]. cbn [sy_store sy_hosts sy_sent sy_answered] in *. split; cbn [sy_store sy_hosts sy_sent sy_answered].
    + done.
    + intros c [->|Hc]%elem_of_cons; [|by eapply (sent_advances s)]. split; [done|]. exists l, a. cbn.
      split_and!; try done; [|lia]. rewrite Ewg. by apply (command_terms x.2 l (ac_wg a) (moves_terms _ _ M)).
    + intros gw g h H. eapply host_ok_mono; [|by eapply Y3]. intros c Hc. by right.
    + intros c Hc. destruct (Y4 _ Hc). split; [by right|done].
    + done.
  - by eapply deliver_ok.
  - destruct (confirm_removed (pc_lease c) (pc_generation c) now s) as [r s'] eqn:E. cbn [snd].
    pose proof (confirm_removed_good float_repr _ _ _ _ _ _ E) as G. apply (store_step_ok _ s' Y G). intros id l Hl Hr.
    destruct (G (yo_store _ Y)) as [_ A]. destruct (confirm_released _ _ _ _ _ _ E _ _ Hl Hr) as [(l0 & Hl0 & Hr0)|(-> & Hg & l0 & Hl0 & T)].
    + destruct (av_leases _ _ A _ _ Hl0) as (l1 & Hl1 & M). rewrite Hl in Hl1. injection Hl1 as <-.
      destruct (terms_eq _ _ (moves_terms _ _ M)) as (_ & <- & _). by apply (yo_released _ Y).
    + destruct (yo_answered _ Y _ Hc) as [Hs Hset]. destruct (yo_sent _ Y _ Hs) as (_ & l1 & a & Hl1 & _ & Ep & _).
      cbn [sy_store] in Hl1. rewrite Hl0 in Hl1. injection Hl1 as <-. destruct (as_present_eq _ _ Ep) as (Eg & _). cbn in Eg.
      destruct (terms_eq _ _ T) as (_ & <- & _). rewrite <- Eg. by apply Hset.
  - apply host_step_ok; [exact Y|eapply restarted_ok, (yo_hosts _ Y); eauto|]. intros id (g0 & h0 & H & S). rewrite Hh in H.
    injection H as <- <-. destruct Hr as [E _]. unfold settled. by rewrite E.
  - apply host_step_ok; [exact Y| |].
    + split; rewrite ?Hc; [constructor|done|done|]. intros e w nets. rewrite Hp. by rewrite lookup_empty.
    + intros id (g0 & h0 & H & _). congruence.
Qed.

(** ** Every fleet *)

Definition sys_initial (y : fleet_sys) : Prop :=
  ∃ r now s, initialize_fleet float_repr r now = Ok s ∧ y = FleetSys s [] [] [].
Definition sys_reachable (y : fleet_sys) : Prop := ∃ y0, sys_initial y0 ∧ rtc sys_step y0 y.

Lemma sys_steps_ok y y' : rtc sys_step y y' → sys_ok y → sys_ok y'.
Proof. induction 1; eauto using sys_step_ok. Qed.
Lemma sys_reachable_ok y : sys_reachable y → sys_ok y.
Proof.
  intros (y0 & (r & now & s & Hi & ->) & St). eapply sys_steps_ok; [exact St|]. pose proof (initialize_ok _ _ _ _ Hi) as H0.
  unfold initialize_fleet in Hi. repeat inv_ok1. subst. split; cbn; [exact H0|by intros c Hc%not_elem_of_nil|done|by intros c Hc%not_elem_of_nil|done].
Qed.

Lemma valid_route c : valid_command c = true → ∃ n, pc_address c = host_route n ∧ route_of c = {[(IPv4 n, 32)]}.
Proof.
  intros H. unfold valid_command in H. rewrite !andb_true_iff in H. destruct H as [[[[[[_ H%bool_decide_eq_true] _] _] _] _] _].
  destruct H as [n H]. unfold host_address in H. unfold route_of, ip_network.
  destruct (ip_interface (pc_address c)) as [[[m|] p]|]; [|done|done]. destruct (_ && _) eqn:E; [|done]. injection H as ->.
  apply andb_true_iff in E as [E%str_eqb_eq ->%Z.eqb_eq]. exists n. split; [by rewrite <- E|]. cbn [mbind option_bind].
  change (2 ^ (32 - 32)) with 1. by rewrite Z.mod_1_r.
Qed.

(** What a live peer stands for. *)
Lemma peer_lease y gw g h e w nets : sys_ok y → dget gw (sy_hosts y) = Some (g, h) → peers_of h e !! w = Some nets →
  ∃ id l a n, dget id (fd_leases (sy_store y)) = Some l ∧ live l = true ∧ ls_gateway l = gw ∧ (ls_transport l, ls_version l) = e
    ∧ dget (ls_device l) (fd_access (sy_store y)) = Some a ∧ ac_wg a = w ∧ ls_address l = host_route n ∧ nets = {[(IPv4 n, 32)]}.
Proof.
  intros Y Hh Hp. destruct (ho_peers _ _ _ _ (yo_hosts _ Y _ _ _ Hh) _ _ _ Hp) as (id & row & c & Hr & Hheld & Hc & Hg & R & He & Hw & ->).
  destruct (yo_sent _ Y _ Hc) as (Hv & l & a & Hl & Ha & Ep & _). destruct (as_present_eq _ _ Ep) as (Eg & _ & Ew & Ea & Ee & _). cbn in Eg, Ew, Ea.
  destruct (valid_route _ Hv) as (n & En & Er). rewrite (ro_lease _ _ _ _ R) in Hl. exists id, l, a, n.
  split_and!; try done; [|congruence|by rewrite <- He, Ee|congruence|congruence].
  apply live_true. intros Hrel. destruct (yo_released _ Y _ _ Hl Hrel) as (g' & h' & Hh' & row' & Hr' & _ & _ & Hf).
  rewrite <- Eg, Hg, Hh in Hh'. injection Hh' as <- <-. rewrite Hr in Hr'. injection Hr' as <-. congruence.
Qed.

(** C3: Over every run of the fleet, with commands late, repeated, lost or half
    done and engines restarting, a live peer of a gateway always is the key and
    the address of a lease of that gateway that is not released, on that lease's
    transport, and no two live peers of the fleet have a route in common. *)
Theorem fence_holds y : sys_reachable y →
  (∀ gw g h e w nets, dget gw (sy_hosts y) = Some (g, h) → peers_of h e !! w = Some nets →
     ∃ id l a n, dget id (fd_leases (sy_store y)) = Some l ∧ live l = true ∧ ls_gateway l = gw ∧ (ls_transport l, ls_version l) = e
       ∧ dget (ls_device l) (fd_access (sy_store y)) = Some a ∧ ac_wg a = w ∧ ls_address l = host_route n ∧ nets = {[(IPv4 n, 32)]}) ∧
  (∀ gw1 g1 h1 e1 w1 nets1 gw2 g2 h2 e2 w2 nets2,
     dget gw1 (sy_hosts y) = Some (g1, h1) → peers_of h1 e1 !! w1 = Some nets1 →
     dget gw2 (sy_hosts y) = Some (g2, h2) → peers_of h2 e2 !! w2 = Some nets2 →
     (gw1, e1, w1) ≠ (gw2, e2, w2) → nets1 ## nets2).
Proof.
  intros Y%sys_reachable_ok. split; [intros; by eapply peer_lease|].
  intros gw1 g1 h1 e1 w1 nets1 gw2 g2 h2 e2 w2 nets2 H1 P1 H2 P2 N.
  destruct (peer_lease _ _ _ _ _ _ _ Y H1 P1) as (id1 & l1 & a1 & n1 & Hl1 & L1 & <- & <- & Ha1 & <- & A1 & ->).
  destruct (peer_lease _ _ _ _ _ _ _ Y H2 P2) as (id2 & l2 & a2 & n2 & Hl2 & L2 & <- & <- & Ha2 & <- & A2 & ->).
  destruct (latest_exists _ _ (yo_store _ Y)) as (reg & Hreg & Hv). destruct (live_apart _ _ _ (yo_store _ Y) Hreg Hv) as [_ Hap].
  destruct (decide (id1 = id2)) as [->|Ni]; [destruct N; congruence|]. destruct (Hap _ _ _ _ Hl1 Hl2 Ni L1 L2) as [Hn _].
  apply disjoint_singleton_l. intros E%elem_of_singleton. apply Hn. injection E as ->. congruence.
Qed.

(** C20: Once the removal of a lease is confirmed, no command ever sent for it
    changes its gateway's journal or engines, whenever it arrives. *)
Theorem late_commands_fenced y id l c g h restore ck r h' : sys_reachable y →
  dget id (fd_leases (sy_store y)) = Some l → ls_state l = Released → c ∈ sy_sent y → pc_lease c = id →
  dget (pc_gateway c) (sy_hosts y) = Some (g, h) → execute float_repr g restore ck c h = (r, h') →
  pc_gateway c = ls_gateway l ∧ fn_commands h' = fn_commands h ∧ ∀ e, peers_of h' e = peers_of h e.
Proof.
  intros Y%sys_reachable_ok Hl Hr Hc <- Hh He. destruct (yo_sent _ Y _ Hc) as (_ & l' & a & Hl' & _ & Ep & _). rewrite Hl in Hl'. injection Hl' as <-.
  destruct (as_present_eq _ _ Ep) as (Eg & _). cbn in Eg. split; [done|]. destruct (yo_released _ Y _ _ Hl Hr) as (g' & h0 & Hh0 & Hs).
  rewrite <- Eg, Hh in Hh0. injection Hh0 as <- <-. eapply execute_settled_same; [by eapply sent_coherent, Y|exact Hc|exact He|exact Hs].
Qed.

(** ** The worker and the scheduler are such runs *)

Definition world_of (y : fleet_sys) : fleet_world := FleetWorld (sy_store y) (sy_hosts y).
(** A computation of the worker that is a sequence of steps. *)
Definition simulated {A} (m : M fleet_world A) (y : fleet_sys) (Q : result A → fleet_sys → Prop) : Prop :=
  ∀ r w', m (world_of y) = (r, w') → ∃ y', rtc sys_step y y' ∧ world_of y' = w' ∧ Q r y'.

Lemma simulated_bind {A B} (m : M fleet_world A) (f : A → M fleet_world B) y Q Q' : simulated m y Q →
  (∀ e y', Q (Raise e) y' → Q' (Raise e) y') → (∀ a y', Q (Ok a) y' → simulated (f a) y' Q') → simulated (m ≫= f) y Q'.
Proof.
  intros Hm Hr Hf r w' H. rewrite fence_bind in H. destruct (m (world_of y)) as [x w1] eqn:E.
  destruct (Hm _ _ E) as (y1 & S1 & <- & Q1). destruct x as [a|e].
  - destruct (Hf _ _ Q1 _ _ H) as (y2 & S2 & E2 & Q2). exists y2. split; [by etrans|done].
  - injection H as <- <-. exists y1. auto.
Qed.
Lemma simulated_here {A} (m : M fleet_world A) y (Q : result A → fleet_sys → Prop) : (∀ w, (m w).2 = w) →
  (∀ r, (m (world_of y)).1 = r → Q r y) → simulated m y Q.
Proof.
  intros Hm HQ r w' H. pose proof (Hm (world_of y)) as E. rewrite H in E. cbn in E. subst w'. exists y. split; [constructor|]. split; [done|].
  apply HQ. by rewrite H.
Qed.
Lemma simulated_weaken {A} (m : M fleet_world A) y (Q Q' : result A → fleet_sys → Prop) : simulated m y Q → (∀ r y', Q r y' → Q' r y') → simulated m y Q'.
Proof. intros Hm HQ r w' H. destruct (Hm _ _ H) as (y' & S & E & HQ'). eauto. Qed.

(** An operation of the store, as a step. *)
Lemma simulated_op {A} (m : M fleet_db A) now o y : (∀ s, (perform float_repr now o s).2 = (m s).2) → is_removal o = false →
  simulated (on_store m) y (λ r y', m (sy_store y) = (r, sy_store y') ∧ sy_hosts y' = sy_hosts y ∧ sy_sent y' = sy_sent y
    ∧ sy_answered y' = sy_answered y).
Proof.
  intros Hm Hn r w' H. unfold on_store in H. cbn [world_of fw_store fw_hosts] in H. destruct (m (sy_store y)) as [x s'] eqn:E. injection H as <- <-.
  destruct y as [s hosts sent answered]. exists (FleetSys s' hosts sent answered). split.
  - apply rtc_once. replace s' with (perform float_repr now o s).2; [by constructor|]. rewrite Hm. cbn in E. by rewrite E.
  - done.
Qed.
Lemma forget_state {X} (m : M fleet_db X) s : (forget m s).2 = (m s).2.
Proof. unfold forget, mbind, M_bind. by destruct (m s) as [[x|e] s1]. Qed.

Definition holds_pending (x : pystr * lease) (y : fleet_sys) : Prop := was_pending (sy_store y) x.

Lemma was_pending_later y y' x : sys_ok y → rtc sys_step y y' → was_pending (sy_store y) x → was_pending (sy_store y') x.
Proof.
  intros Y St (Hp & G & l & Hl & M). split; [done|]. split; [done|]. assert (advances (sy_store y) (sy_store y')) as A.
  { clear -Y St FJL PBL. induction St as [|y y1 y2 S St IH]; [apply advances_refl|]. eapply advances_trans; [|apply IH; by eapply sys_step_ok].
    clear -Y S FJL. destruct S as [now o s hosts sent answered Hn|x now work s s' hosts sent answered Hx Hw Hv| |c now s hosts sent answered Hc Ha| |];
      try apply advances_refl; cbn [sy_store].
    - destruct (perform float_repr now o s) as [r s'] eqn:E. by apply (perform_good _ _ _ _ _ _ E), Y.
    - destruct (reading_good float_repr s) as (_ & _ & Gw & _). by apply (Gw _ _ _ _ _ Hw), Y.
    - destruct (confirm_removed _ _ _ s) as [r s'] eqn:E. by apply (confirm_removed_good float_repr _ _ _ _ _ _ E), Y. }
  destruct (av_leases _ _ A _ _ Hl) as (l' & Hl' & M'). exists l'. split; [done|]. by etrans.
Qed.

(** The call of a gateway, of a command that was sent. *)
Lemma simulated_call lk ck c y : c ∈ sy_sent y →
  simulated (call_gateway float_repr lk ck c) y (λ r y', sy_store y' = sy_store y ∧ (∀ a, r = Ok a → c ∈ sy_answered y')).
Proof.
  intros Hc r w' H. unfold call_gateway in H. cbn [world_of fw_hosts fw_store] in H. destruct y as [s hosts sent answered]. cbn [sy_sent sy_store sy_hosts] in *.
  destruct (dget (pc_gateway c) hosts) as [[g h]|] eqn:Eh.
  2:{ injection H as <- <-. exists (FleetSys s hosts sent answered). by split; [constructor|]. }
  destruct (match lk with LostRequest => true | _ => false end) eqn:El.
  { destruct lk; try done. injection H as <- <-. exists (FleetSys s hosts sent answered). by split; [constructor|]. }
  destruct (execute float_repr g false ck c h) as [x h'] eqn:Ex.
  exists (FleetSys s (dset (pc_gateway c) (g, h') hosts) sent (if is_ok x then c :: answered else answered)).
  assert (w' = FleetWorld s (dset (pc_gateway c) (g, h') hosts)) as -> by (destruct lk; try done; by injection H as _ <-).
  split; [apply rtc_once; by eapply sys_deliver|]. split; [done|]. split; [done|]. intros a ->. destruct lk; try done.
  destruct x; [by left|discriminate H].
Qed.

Lemma process_simulated x lk ck y : sys_ok y → was_pending (sy_store y) x → simulated (process float_repr x lk ck) y (λ r y', is_ok r = true).
Proof.
  intros Y Hx. assert (simulated (work_on float_repr x lk ck) y (λ _ _, True)) as Hw.
  { intros r w' H. unfold work_on in H. rewrite fence_bind in H. unfold on_store in H at 1. cbn [world_of fw_store fw_hosts] in H.
    destruct (work_item float_repr x.1 (ls_generation x.2) (wk_item ck) (sy_store y)) as [q s1] eqn:Ew.
    destruct y as [s hosts sent answered]. cbn [sy_store sy_hosts] in *.
    assert (rtc sys_step (FleetSys s hosts sent answered) (FleetSys s1 hosts sent answered)) as Sread.
    { apply rtc_once. replace s1 with (perform float_repr (wk_item ck) (FWork x.1 (ls_generation x.2)) s).2; [by constructor|].
      cbn [perform]. rewrite forget_state. by rewrite Ew. }
    destruct q as [work|e]; [|injection H as <- <-; by exists (FleetSys s1 hosts sent answered)].
    rewrite fence_bind in H. set (c := command_of x (lw_wg work)) in *. destruct (valid_command c) eqn:Ev; cbn [require lift] in H;
      [|injection H as <- <-; by exists (FleetSys s1 hosts sent answered)].
    assert (sys_step (FleetSys s hosts sent answered) (FleetSys s1 hosts (c :: sent) answered)) as Ssend by (by eapply sys_send).
    set (y1 := FleetSys s1 hosts (c :: sent) answered) in *. change (FleetWorld s1 hosts) with (world_of y1) in H.
    revert r w' H. match goal with |- ∀ r w', ?m (world_of y1) = _ → _ => assert (simulated m y1 (λ _ _, True)) as Hs end.
    2:{ intros r w' H. destruct (Hs _ _ H) as (y' & S' & E' & _). exists y'. split; [|done]. by eapply rtc_l. }
    eapply simulated_bind; [apply (simulated_call lk _ c); by left|done|]. intros answer y2 [_ Ha]. specialize (Ha _ eq_refl).
    eapply (simulated_bind _ _ _ (λ _ y3, y3 = y2)); [by apply simulated_here|done|]. intros expected y3 ->.
    eapply (simulated_bind _ _ _ (λ _ y3, y3 = y2)); [by apply simulated_here|done|]. intros u y3 ->.
    destruct (pc_operation c) eqn:Eo.
    - eapply simulated_bind; [apply (simulated_op _ (wk_mark ck) (FReady x.1 (ls_generation x.2))); [intros; cbn [perform]; apply forget_state|done]|done|].
      intros l y3 _. by apply simulated_here.
    - eapply (simulated_bind _ _ _ (λ _ _, True)); [|done|intros l y3 _; by apply simulated_here]. intros r w' H. unfold on_store in H.
      destruct y2 as [s2 hosts2 sent2 answered2]. cbn [world_of fw_store fw_hosts sy_store sy_hosts] in H.
      destruct (confirm_removed x.1 (ls_generation x.2) (wk_mark ck) s2) as [q s3] eqn:Ec. injection H as <- <-.
      exists (FleetSys s3 hosts2 sent2 answered2). split; [|done]. apply rtc_once.
      replace s3 with (confirm_removed (pc_lease c) (pc_generation c) (wk_mark ck) s2).2; [by apply sys_confirm|]. cbn. by rewrite Ec. }
  intros r w' H. unfold process, tryM in H. destruct (work_on _ _ _ _ (world_of y)) as [[a|e] w1] eqn:E; destruct (Hw _ _ E) as (y' & S' & E' & _);
    injection H as <- <-; by exists y'.
Qed.

Lemma simulated_ok {A} (m : M fleet_world A) y Q : sys_ok y → simulated m y Q → simulated m y (λ r y', sys_ok y' ∧ rtc sys_step y y' ∧ Q r y').
Proof. intros Y Hm r w' H. destruct (Hm _ _ H) as (y' & S & E & HQ). exists y'. split_and!; try done. by eapply sys_steps_ok. Qed.

Lemma row_was_pending s x : store_ok float_repr s → x ∈ fd_leases s → pending_lease x.2 = true → was_pending s x.
Proof.
  intros H0 Hx Hp. assert (dget x.1 (fd_leases s) = Some x.2) as Hl by (apply dget_NoDup; [apply H0|by destruct x]).
  split; [done|]. split; [by apply (so_generation _ _ H0 x.1)|]. exists x.2. split; [done|constructor].
Qed.

Lemma claim_work_Ok hold token now s x tk s' : claim_work hold token now s = (Ok (Some (x, tk)), s') →
  fd_leases s' = fd_leases s ∧ x ∈ fd_leases s ∧ pending_lease x.2 = true.
Proof.
  unfold claim_work, positive_to, admit_if. rewrite bind_lift. destruct (require _ _); [|done]. intros H. apply fleet_transaction_Ok in H as (_ & _ & H).
  apply M_bind_Ok in H as (s0 & s1 & H1 & H). apply get_state_Ok in H1 as [-> ->].
  destruct (sort_by _ _) as [|x0 l] eqn:Es; [apply mret_Ok in H as [? _]; done|].
  apply M_bind_Ok in H as (u & s1 & H1 & H). apply modify_Ok in H1 as ->. apply mret_Ok in H as [E ->]. injection E as -> _. split; [done|].
  assert (x0 ∈ x0 :: l) as Hin by left. rewrite <- Es, sort_by_perm in Hin. apply list_elem_of_In, List.filter_In in Hin as [Hin Hc].
  apply andb_true_iff in Hc as [Hc _]. split; [by apply list_elem_of_In|done].
Qed.
Lemma pending_Ok limit now s l s' : pending limit now s = (Ok l, s') → fd_leases s' = fd_leases s ∧ ∀ x, x ∈ l → x ∈ fd_leases s ∧ pending_lease x.2 = true.
Proof.
  unfold pending, positive_to, admit_if. rewrite bind_lift. destruct (require _ _); [|done]. intros H. apply fleet_transaction_Ok in H as (_ & _ & H).
  apply M_bind_Ok in H as (s0 & s1 & H1 & H). apply get_state_Ok in H1 as [-> ->]. apply mret_Ok in H as [-> ->]. split; [done|]. intros x Hx.
  apply elem_of_take in Hx as (i & Hi & _). apply list_elem_of_lookup_2 in Hi. rewrite sort_by_perm in Hi.
  apply list_elem_of_In, List.filter_In in Hi as [Hi Hc]. split; [by apply list_elem_of_In|done].
Qed.

Lemma simulated_true {A} (m : M fleet_world A) y Q : simulated m y Q → simulated m y (λ _ _, True).
Proof. intros H. by eapply simulated_weaken. Qed.

Lemma run_claims_simulated n deadline script y : sys_ok y → simulated (run_claims float_repr n deadline script) y (λ _ _, True).
Proof.
  revert script y. induction n as [|n IH]; intros script y Y; cbn [run_claims]; [by apply simulated_here|].
  destruct (_ <=? _); [by apply simulated_here|]. set (sc := script 0%nat).
  eapply simulated_bind; [eapply (simulated_ok _ _ _ Y), (simulated_op _ (sc_claim sc) (FClaim 60 (sc_token sc)));
    [intros; cbn [perform]; apply forget_state|done]|done|].
  intros [[x token]|] y1 (Y1 & S1 & Hc & _ & _ & _); [|by apply simulated_here]. destruct (claim_work_Ok _ _ _ _ _ _ _ Hc) as (El & Hin & Hp).
  assert (was_pending (sy_store y1) x) as Hx by (apply row_was_pending; [apply Y1|by rewrite El|done]).
  eapply simulated_bind; [eapply (simulated_ok _ _ _ Y1); by apply process_simulated|done|]. intros r y2 (Y2 & _ & _).
  eapply simulated_bind; [eapply (simulated_ok _ _ _ Y2), (simulated_op _ (sc_finish sc) (FFinish x token r)); [intros; cbn [perform]; apply forget_state|done]|done|].
  intros u y3 (Y3 & _). eapply simulated_bind; [by eapply (simulated_ok _ _ _ Y3), IH|done|]. intros rs y4 _. by apply simulated_here.
Qed.

Lemma process_all_simulated l script y : sys_ok y → (∀ x, x ∈ l → was_pending (sy_store y) x) → simulated (process_all float_repr l script) y (λ _ _, True).
Proof.
  revert script y. induction l as [|x l IH]; intros script y Y Hl; cbn [process_all]; [by apply simulated_here|].
  eapply simulated_bind; [eapply (simulated_ok _ _ _ Y), process_simulated; [done|apply Hl; by left]|done|]. intros r y1 (Y1 & S1 & _).
  eapply simulated_bind; [apply IH; [done|]|done|intros rs y2 _; by apply simulated_here].
  intros x' Hx'. eapply was_pending_later; [exact Y|exact S1|]. apply Hl. by right.
Qed.

(** ** Recovery *)

Lemma ascii_scalar s : ascii s → forallb is_scalar s = true.
Proof. intros H. apply forallb_forall. intros c Hc%list_elem_of_In. unfold ascii in H. rewrite Forall_forall in H. specialize (H _ Hc). unfold is_scalar. by rewrite (proj2 (in_range_true _ _ _)) by lia. Qed.

Lemma valid_jsonable c : valid_command c = true → jsonable (command_value c) = true.
Proof.
  intros H. destruct (valid_route _ H) as (n & En & _). unfold valid_command in H. rewrite !andb_true_iff in H.
  destruct H as [[[[[[[[[H1 H2] H3] H4] _] _] H5] _] _] _].
  assert (∀ s k, hex_match k s = true → forallb is_scalar s = true) as Hhex.
  { intros s k Hs. unfold hex_match in Hs. apply andb_true_iff in Hs as [_ Hs]. by apply lhex_word. }
  assert (forallb is_scalar (pc_wg c) = true) as Hw.
  { unfold valid_key in H4. destruct (b64decode (pc_wg c)) as [raw|] eqn:Eb; [|done]. rewrite !andb_true_iff in H4. destruct H4 as [_ Er%str_eqb_eq].
    rewrite <- Er. apply b64encode_scalar. by eapply b64decode_bytes. }
  assert (forallb is_scalar (pc_address c) = true) as Ha.
  { rewrite En. unfold host_route, ipv4_text. rewrite forallb_app. apply andb_true_iff. split; [|reflexivity].
    cbn [List.map join]. rewrite !forallb_app. cbn [forallb]. rewrite !(ascii_scalar _ (json_int_ascii _)). reflexivity. }
  unfold supported in H5. destruct (transport_of (pc_transport c)) as [tr|] eqn:Et; [|done]. destruct (version_of (pc_version c)) as [vr|] eqn:Evr; [|done].
  apply find_some in Et as [_ Et%str_eqb_eq]. apply find_some in Evr as [_ Evr%str_eqb_eq].
  unfold command_value, binding_members. cbn [jsonable app forallb fst snd]. rewrite (Hhex _ _ H1), (Hhex _ _ H3), Hw, Ha, <- Et, <- Evr.
  unfold identifier in H2. apply andb_true_iff in H2 as [_ H2]. rewrite (word_scalar _ H2).
  by destruct tr, vr, (pc_operation c).
Qed.

Lemma command_fields_value c : command_fields (sort_keys (command_value c)) = Ok c.
Proof.
  destruct c as [id gw device wg address t ver expires gen o].
  set (v := sort_keys _). assert (v = PDict [(PStr (py "address"), PStr address); (PStr (py "device"), PStr device); (PStr (py "expires_at"), PInt expires);
    (PStr (py "gateway_id"), PStr gw); (PStr (py "generation"), PInt gen); (PStr (py "lease_id"), PStr id); (PStr (py "operation"), PStr (operation_name o));
    (PStr (py "transport"), PStr t); (PStr (py "version"), PStr ver); (PStr (py "wg"), PStr wg)]) as -> by reflexivity.
  unfold command_fields, text_in, int_in, model_of. do 11 (mred; dict_simpl). mred. by destruct o.
Qed.

(** What the journal stored reads back, when it reads back at all. *)
Lemma read_command_text {PYL : PydanticLaws} c text c' : valid_command c = true → command_text float_repr c = Ok text → read_command text = Ok c' → c' = c.
Proof.
  intros Hv Ht Hr. pose proof (sort_keys_jsonable _ (valid_jsonable _ Hv)) as Hj. unfold FleetGateway.command_text in Ht.
  pose proof (compact_ascii _ _ _ Hj Ht) as Ha. destruct (compact_loads float_repr _ Hj) as (t' & Ht' & Hl). rewrite Ht in Ht'. injection Ht' as <-.
  unfold read_command in Hr. rewrite (utf8_ascii _ Ha) in Hr. cbn [of_option mbind result_bind] in Hr.
  destruct (model_json text) as [v|] eqn:Em; [|done]. cbn [of_option mbind result_bind] in Hr.
  assert (json_loads_bytes text = Some (sort_keys (command_value c))) as Hb by (unfold json_loads_bytes; by rewrite (json_decode_ascii _ Ha)).
  rewrite (model_json_agrees _ _ _ Em Hb), command_fields_value in Hr. cbn [mbind result_bind] in Hr. destruct (valid_command c); [|done]. by injection Hr.
Qed.

(** The gateway's part of a later fleet. *)
Definition host_becomes (y y' : fleet_sys) (gw : pystr) (g : fleet_gateway) (h' : fence) : Prop :=
  sy_store y' = sy_store y ∧ sy_sent y' = sy_sent y ∧ dget gw (sy_hosts y') = Some (g, h')
  ∧ ∀ gw', gw' ≠ gw → dget gw' (sy_hosts y') = dget gw' (sy_hosts y).

Lemma execute_all_steps l : ∀ cks y gw g h r h', dget gw (sy_hosts y) = Some (g, h) → (∀ c, c ∈ l → c ∈ sy_sent y ∧ pc_gateway c = gw) →
  execute_all float_repr g l cks h = (r, h') → ∃ y', rtc sys_step y y' ∧ host_becomes y y' gw g h'.
Proof.
  induction l as [|c l IH]; intros cks y gw g h r h' Hh Hl H; cbn [execute_all] in H; [injection H as _ <-; by exists y|].
  rewrite fence_bind in H. destruct (execute float_repr g true (cks 0%nat) c h) as [x h1] eqn:Ex. destruct (Hl c ltac:(by left)) as [Hc Hg].
  destruct y as [s hosts sent answered]. cbn [sy_hosts sy_sent] in *. set (y1 := FleetSys s (dset gw (g, h1) hosts) sent (if is_ok x then c :: answered else answered)).
  assert (sys_step (FleetSys s hosts sent answered) y1) as St by (unfold y1; rewrite <- Hg; eapply sys_deliver; [done|by rewrite Hg|done]).
  assert (host_becomes (FleetSys s hosts sent answered) y1 gw g h1) as B1.
  { split; [done|]. split; [done|]. cbn. split; [apply dget_dset_eq|]. intros gw' N. by apply dget_dset_ne. }
  destruct x as [a|e]; [|injection H as _ <-; exists y1; split; [by apply rtc_once|done]].
  rewrite fence_bind in H. destruct (execute_all float_repr g l (λ n, cks (S n)) h1) as [q h2] eqn:Eq.
  assert (h' = h2) as -> by (by destruct q; injection H as _ <-).
  destruct (IH _ y1 gw g h1 _ _ (proj1 (proj2 (proj2 B1))) ltac:(intros c' Hc'; apply Hl; by right) Eq) as (y2 & S2 & B2).
  exists y2. split; [by eapply rtc_l|]. destruct B1 as (A1 & A2 & A3 & A4), B2 as (C1 & C2 & C3 & C4). split; [congruence|]. split; [congruence|]. split; [done|].
  intros gw' N. by rewrite C4, A4.
Qed.

Lemma recover_steps {PYL : PydanticLaws} y gw g h now cks r h' : sys_ok y → dget gw (sy_hosts y) = Some (g, h) → recover float_repr g now cks h = (r, h') →
  ∃ y', rtc sys_step y y' ∧ host_becomes y y' gw g h'.
Proof.
  intros Y Hh H. assert (host_becomes y y gw g h) as Here by done. unfold recover in H.
  apply quiet_step in H as [(e & -> & ->)|(u & _ & H)]; [by exists y| |apply quiet_gate].
  apply quiet_step in H as [(e & -> & ->)|(s & Hs & H)]; [by exists y| |done]. apply get_state_Ok in Hs as [-> _].
  apply quiet_step in H as [(e & -> & ->)|(cs & Hcs & H)]; [by exists y| |apply quiet_lift]. apply lift_Ok in Hcs as [Hcs _].
  eapply execute_all_steps; [exact Hh| |exact H]. intros c Hc. apply list_elem_of_lookup in Hc as (i & Hi).
  destruct (Forall2_lookup_r _ _ _ _ _ (proj1 (mapR_Forall2 _ _ _) Hcs) Hi) as ([id row] & Hx & Hr). apply list_elem_of_lookup_2 in Hx.
  rewrite sort_by_perm in Hx. apply list_elem_of_In, List.filter_In in Hx as [Hx _]. apply list_elem_of_In in Hx.
  pose proof (yo_hosts _ Y _ _ _ Hh) as Hok. destruct (ho_rows _ _ _ _ Hok _ _ (dget_NoDup _ _ _ (ho_keys _ _ _ _ Hok) Hx)) as (c0 & Hc0 & Hg & R).
  destruct (yo_sent _ Y _ Hc0) as [Hv _]. rewrite (read_command_text _ _ _ Hv (ro_command _ _ _ _ R) Hr). done.
Qed.

(** C19: A tick of the scheduler and a pass of the worker, with whatever becomes
    of their calls, and the recovery of a gateway are sequences of the steps
    over which the fence holds. *)
Theorem workers_refine {PYL : PydanticLaws} y : sys_reachable y →
  (∀ limit budget started expire_at script r w', tick float_repr limit budget started expire_at script (world_of y) = (r, w') →
     ∃ y', rtc sys_step y y' ∧ world_of y' = w') ∧
  (∀ limit expire_at pending_at script r w', once float_repr limit expire_at pending_at script (world_of y) = (r, w') →
     ∃ y', rtc sys_step y y' ∧ world_of y' = w') ∧
  (∀ gw g h now cks r h', dget gw (sy_hosts y) = Some (g, h) → recover float_repr g now cks h = (r, h') →
     ∃ y', rtc sys_step y y' ∧ host_becomes y y' gw g h').
Proof.
  intros Y%sys_reachable_ok.
  assert (∀ A (m : M fleet_world A), simulated m y (λ _ _, True) → ∀ r w', m (world_of y) = (r, w') → ∃ y', rtc sys_step y y' ∧ world_of y' = w') as Hrun.
  { intros A m Hm r w' H. destruct (Hm _ _ H) as (y' & S & E & _). eauto. }
  assert (∀ limit now y, simulated (on_store (positive_to limit now)) y (λ _ y', y' = y)) as Hpos.
  { intros limit now y0. apply simulated_here; [|done]. intros [s hosts]. unfold on_store, positive_to, admit_if. by destruct (require _ _). }
  split; [|split; [|intros; by eapply recover_steps]].
  - intros limit budget started expire_at script. apply Hrun. unfold tick.
    eapply simulated_bind; [apply Hpos|done|]. intros u y1 ->. eapply simulated_bind; [apply Hpos|done|]. intros u1 y1 ->.
    eapply simulated_bind; [eapply (simulated_ok _ _ _ Y), (simulated_op _ expire_at (FExpire 100)); [intros; cbn [perform]; apply forget_state|done]|done|].
    intros ls y1 (Y1 & _). by apply run_claims_simulated.
  - intros limit expire_at pending_at script. apply Hrun. unfold once.
    eapply simulated_bind; [eapply (simulated_ok _ _ _ Y), (simulated_op _ expire_at (FExpire 1000)); [intros; cbn [perform]; apply forget_state|done]|done|].
    intros ls y1 (Y1 & _). eapply simulated_bind; [eapply (simulated_ok _ _ _ Y1), (simulated_op _ pending_at (FPending limit));
      [intros; cbn [perform]; apply forget_state|done]|done|].
    intros l y2 (Y2 & _ & Hl & _). destruct (pending_Ok _ _ _ _ _ Hl) as [El Hin]. apply process_all_simulated; [done|].
    intros x Hx. destruct (Hin _ Hx). apply row_was_pending; [apply Y2|by rewrite El|done].
Qed.
End System.

(** ** The WireGuard engine keeps the contract *)

(** What [wg] does to an interface: [show] changes nothing and prints its peers;
    [set ... allowed-ips] makes the network the only one of the peer and of no
    other, [remove] removes the peer; a run that fails did it or not. *)
Definition assign_route (key : pystr) (net : ip_addr * Z) (peers : peer_table) : peer_table :=
  <[key := {[net]}]> ((λ nets, nets ∖ {[net]}) <$> peers).
Class WgLaws {WG : WgTool} := {
  wg_table : wg_host → pystr → peer_table;
  wg_show_table bin name what h r h' : wg_run [bin; py "show"; name; what] h = (r, h') → wg_table h' = wg_table h;
  wg_show_peers bin name h raw h' : wg_run [bin; py "show"; name; py "allowed-ips"] h = (Ok raw, h') → parse_peers raw = Ok (wg_table h name);
  wg_set_table bin name key text net h r h' : wg_run [bin; py "set"; name; py "peer"; key; py "allowed-ips"; text] h = (r, h') →
    ip_network text = Some net →
    (wg_table h' name = wg_table h name ∧ is_ok r = false) ∨ wg_table h' name = assign_route key net (wg_table h name);
  wg_remove_table bin name key h r h' : wg_run [bin; py "set"; name; py "peer"; key; py "remove"] h = (r, h') →
    (wg_table h' name = wg_table h name ∧ is_ok r = false) ∨ wg_table h' name = delete key (wg_table h name);
}.

Lemma networks_overlap_refl n : networks_overlap n n = true.
Proof. destruct n as [[n|n s] p]; unfold networks_overlap; cbn; by rewrite Z.eqb_refl. Qed.

Lemma peers_conflict_Ok peers c u : peers_conflict peers c = Ok u →
  ∃ net, ip_network (pc_address c) = Some net ∧ route_of c = {[net]} ∧ (∀ k nets, k ≠ pc_wg c → peers !! k = Some nets → net ∉ nets)
    ∧ (∀ nets, peers !! pc_wg c = Some nets → nets = {[net]}).
Proof.
  unfold peers_conflict, route_of. intros H. apply bind_Ok in H as (net & Hn & H). apply of_option_Ok in Hn. rewrite Hn.
  apply bind_Ok in H as (u1 & H1 & H2). apply raise_if_Ok in H1. apply require_Ok in H2. exists net. split_and!; try done.
  - intros k nets Nk Hk Hin. apply elem_of_map_to_list in Hk. pose proof (existsb_false _ _ _ H1 Hk) as Hf. cbn [fst snd] in Hf.
    assert (str_eqb k (pc_wg c) = false) as E by (apply not_true_iff_false; by intros E%str_eqb_eq). rewrite E in Hf. cbn [negb andb] in Hf.
    assert (net ∈ base.elements nets) as Hel by (by apply elem_of_elements). pose proof (existsb_false _ _ _ Hf Hel) as Ho. cbv beta in Ho. by rewrite networks_overlap_refl in Ho.
  - intros nets Hk. rewrite Hk in H2. by apply bool_decide_eq_true in H2.
Qed.

(** Where no other peer has the network, assigning it is the insertion. *)
Lemma assign_route_insert key net peers : (∀ k nets, k ≠ key → peers !! k = Some nets → net ∉ nets) → assign_route key net peers = <[key := {[net]}]> peers.
Proof.
  intros H. apply map_eq. intros k. unfold assign_route. rewrite !lookup_insert. destruct (decide (key = k)) as [|Nk]; [done|].
  rewrite lookup_fmap. destruct (peers !! k) as [nets|] eqn:E; [|done]. cbn. f_equal. specialize (H k nets ltac:(congruence) E). set_solver.
Qed.

Section WgEngine.
Context {WG : WgTool} {WGL : WgLaws}.

Definition still {A} (m : M wg_host A) : Prop := ∀ h r h', m h = (r, h') → wg_table h' = wg_table h.
Lemma still_bind {A B} (m : M wg_host A) (f : A → M wg_host B) : still m → (∀ a, still (f a)) → still (m ≫= f).
Proof.
  intros Hm Hf h r h' H. rewrite fence_bind in H. destruct (m h) as [[a|e] h1] eqn:E; apply Hm in E; [apply Hf in H; congruence|].
  by injection H as _ <-.
Qed.
Lemma still_lift {A} (x : result A) : still (lift x).
Proof. by intros h r h' [= _ <-]. Qed.
Lemma still_show pin what : still (wg_text pin [py "show"; ip_name pin; what]).
Proof.
  unfold wg_text. apply still_bind; [intros h r h'; apply wg_show_table|]. intros raw. apply still_bind; [apply still_lift|].
  intros u. apply (still_lift (Ok raw)).
Qed.
Lemma still_pin pin : still (check_pin pin).
Proof.
  unfold check_pin. apply still_bind; [apply still_show|]. intros. apply still_bind; [apply still_lift|]. intros.
  apply still_bind; [apply still_show|]. intros. apply still_lift.
Qed.
Lemma still_peers pin : still (live_peers pin).
Proof. unfold live_peers. apply still_bind; [apply still_show|]. intros. apply still_lift. Qed.
Lemma live_peers_Ok pin h p h' : live_peers pin h = (Ok p, h') → p = wg_table h (ip_name pin).
Proof.
  unfold live_peers, wg_text. intros H. apply M_bind_Ok in H as (text & h1 & H1 & H). apply M_bind_Ok in H1 as (raw & h2 & H2 & H1).
  apply wg_show_peers in H2. apply M_bind_Ok in H1 as (u & h3 & _ & H1). apply mret_Ok in H1 as [-> ->]. apply lift_Ok in H as [H _]. congruence.
Qed.

Lemma wg_preflight_still pin c : still (wg_preflight pin c).
Proof.
  unfold wg_preflight. apply still_bind; [apply still_pin|]. intros _. apply still_bind; [apply still_peers|]. intros peers.
  apply still_bind; [apply still_lift|]. intros _. apply still_lift.
Qed.

(** The one effect of [ensure], between the two readings. *)
Definition wg_effect (pin : interface_pin) (c : peer_command) (before : peer_table) : M wg_host () :=
  match pc_operation c with
  | Present => if bool_decide (is_Some (before !! pc_wg c)) then mret ()
      else wg_text pin [py "set"; ip_name pin; py "peer"; pc_wg c; py "allowed-ips"; pc_address c];; mret ()
  | Absent => if bool_decide (is_Some (before !! pc_wg c)) then wg_text pin [py "set"; ip_name pin; py "peer"; pc_wg c; py "remove"];; mret ()
      else mret ()
  end.

Lemma wg_text_table pin args h r h' (m : M wg_host ()) T' : m = (wg_text pin args;; mret ()) → m h = (r, h') →
  (∀ x h1, wg_run (ip_binary pin :: args) h = (x, h1) →
     (wg_table h1 (ip_name pin) = wg_table h (ip_name pin) ∧ is_ok x = false) ∨ wg_table h1 (ip_name pin) = T') →
  (wg_table h' (ip_name pin) = wg_table h (ip_name pin) ∧ is_ok r = false) ∨ wg_table h' (ip_name pin) = T'.
Proof.
  intros -> H Hrun. unfold wg_text in H. rewrite !fence_bind in H. destruct (wg_run _ h) as [[raw|e] h1] eqn:E.
  - rewrite fence_bind in H. destruct (Hrun _ _ eq_refl) as [[_ Hf]|HT]; [done|]. right. unfold lift in H. destruct (require _ _); injection H as _ <-; exact HT.
  - injection H as <- <-. by destruct (Hrun _ _ eq_refl) as [[-> _]|]; [left|right].
Qed.

Lemma wg_effect_table pin c h r h' : peers_conflict (wg_table h (ip_name pin)) c = Ok () →
  wg_effect pin c (wg_table h (ip_name pin)) h = (r, h') →
  (wg_table h' (ip_name pin) = wg_table h (ip_name pin) ∧ is_ok r = false)
  ∨ wg_table h' (ip_name pin) = commanded c (wg_table h (ip_name pin)).
Proof.
  set (T := wg_table h (ip_name pin)). intros Hc H. destruct (peers_conflict_Ok _ _ _ Hc) as (net & Hn & Hr & Hothers & Hown).
  unfold wg_effect in H. unfold commanded. rewrite Hr. destruct (pc_operation c); case_bool_decide as Eb.
  - injection H as <- <-. right. destruct Eb as [nets Eb]. pose proof (Hown _ Eb) as ->. by rewrite insert_id.
  - eapply wg_text_table; [reflexivity|exact H|]. intros x h1 Hx. rewrite <- (assign_route_insert _ _ _ Hothers). by eapply wg_set_table.
  - eapply wg_text_table; [reflexivity|exact H|]. intros x h1 Hx. by eapply wg_remove_table.
  - injection H as <- <-. right. symmetry. apply delete_id. by destruct (T !! pc_wg c) eqn:E; [destruct Eb; eauto|].
Qed.

Lemma wg_ensure_table pin c h r h' : wg_ensure pin c h = (r, h') →
  (wg_table h' (ip_name pin) = wg_table h (ip_name pin) ∨ wg_table h' (ip_name pin) = commanded c (wg_table h (ip_name pin)))
  ∧ (r = Ok () → wg_table h' (ip_name pin) = commanded c (wg_table h (ip_name pin))).
Proof.
  intros H. unfold wg_ensure in H. rewrite fence_bind in H. destruct (check_pin pin h) as [[u|e] h1] eqn:E1; pose proof (still_pin _ _ _ _ E1) as S1;
    [|injection H as <- <-; rewrite S1; split; [by left|done]].
  rewrite fence_bind in H. destruct (live_peers pin h1) as [[p|e] h2] eqn:E2; pose proof (still_peers _ _ _ _ E2) as S2;
    [|injection H as <- <-; rewrite S2, S1; split; [by left|done]]. apply live_peers_Ok in E2 as ->. rewrite S1 in *.
  rewrite fence_bind in H. destruct (peers_conflict (wg_table h (ip_name pin)) c) as [[]|e] eqn:Ec; cbn [lift] in H;
    [|injection H as <- <-; rewrite S2; split; [by left|done]]. rewrite fence_bind in H.
  match type of H with match ?m with _ => _ end = _ => change m with (wg_effect pin c (wg_table h (ip_name pin)) h2) in H end.
  destruct (wg_effect pin c (wg_table h (ip_name pin)) h2) as [x h3] eqn:E3. rewrite <- S2 in E3, Ec.
  pose proof (wg_effect_table _ _ _ _ _ Ec E3) as Ht. rewrite S2 in Ht.
  destruct x as [[]|e]; [|injection H as <- <-; split; [|done]; tauto]. destruct Ht as [[_ Hf]|Ht]; [done|].
  assert (still (after ← live_peers pin; check_pin pin;;
    lift (require (bool_decide (delete (pc_wg c) (wg_table h (ip_name pin)) = delete (pc_wg c) after)) (FenceRejected "other-peers-changed"));;
    lift (match pc_operation c with
          | Present => require (bool_decide (after !! pc_wg c = Some (route_of c))) (FenceRejected "peer-not-confirmed")
          | Absent => require (bool_decide (after !! pc_wg c = None)) (FenceRejected "removal-not-confirmed")
          end))) as Hst.
  { apply still_bind; [apply still_peers|]. intros. apply still_bind; [apply still_pin|]. intros. apply still_bind; [apply still_lift|]. intros. apply still_lift. }
  apply Hst in H. rewrite H, Ht. split; [by right|done].
Qed.
End WgEngine.

(** The engines of a host, each behind its pinned interface, keep the contract
    of the journal. *)
#[export] Instance wg_backends_laws {WG : WgTool} {WGL : WgLaws} (pins : list ((pystr * pystr) * interface_pin)) :
  PeerBackendLaws (PB := wg_backends pins).
Proof.
  set (table := λ (hosts : list ((pystr * pystr) * wg_host)) e,
    match dget e pins, dget e hosts with Some pin, Some h => wg_table h (ip_name pin) | _, _ => ∅ end).
  assert (∀ c (m : interface_pin → M wg_host ()) hosts r hosts', on_engine pins c m hosts = (r, hosts') →
    (hosts' = hosts ∧ r = Raise KeyError) ∨ ∃ pin h h', dget (engine_of c) pins = Some pin ∧ m pin h = (r, h')
      ∧ table hosts (engine_of c) = wg_table h (ip_name pin) ∧ table hosts' (engine_of c) = wg_table h' (ip_name pin)
      ∧ ∀ e, e ≠ engine_of c → table hosts' e = table hosts e) as Hon.
  { intros c m hosts r hosts' H. unfold on_engine in H. destruct (dget (engine_of c) pins) as [pin|] eqn:Ep; [|injection H as <- <-; by left].
    destruct (dget (engine_of c) hosts) as [h|] eqn:Eh; [|injection H as <- <-; by left]. destruct (m pin h) as [x h'] eqn:Em. injection H as <- <-.
    right. exists pin, h, h'. unfold table. rewrite Ep, Eh, dget_dset_eq. split_and!; try done. intros e Ne. by rewrite dget_dset_ne by done. }
  refine {| bk_peers := table : @backend (wg_backends pins) → _ |}.
  - intros c hosts r hosts' H e. destruct (Hon _ _ _ _ _ H) as [[-> _]|(pin & h & h' & _ & Hm & T & T' & Hne)]; [done|].
    destruct (decide (e = engine_of c)) as [->|Ne]; [|by apply Hne]. rewrite T, T'. by rewrite (wg_preflight_still _ _ _ _ _ Hm).
  - intros c hosts r hosts' e H Ne. destruct (Hon _ _ _ _ _ H) as [[-> _]|(pin & h & h' & _ & Hm & T & T' & Hne)]; [done|by apply Hne].
  - intros c hosts r hosts' H. destruct (Hon _ _ _ _ _ H) as [[-> _]|(pin & h & h' & _ & Hm & T & T' & Hne)]; [by left|].
    rewrite T, T'. by destruct (wg_ensure_table _ _ _ _ _ Hm).
  - intros c hosts hosts' H. destruct (Hon _ _ _ _ _ H) as [[-> Hr]|(pin & h & h' & _ & Hm & T & T' & Hne)]; [done|].
    rewrite T, T'. apply wg_ensure_table in Hm as [_ Hm]. by apply Hm.
Defined.
