(* ===== verification/FleetExamples.v ===== *)
(** The theorems of the fleet on a concrete one: a device is admitted, a lease
    reserved and installed by the worker at a gateway with a WireGuard engine,
    its configuration published and verified, then the access revoked and the
    peer removed. *)
From Stdlib Require Import ZArith Lia.
From S2P Require Import Prelude PyData Json JsonText Ipaddress ProfileConfig Rns RnsModel Ack DeviceProof Registry RegistrySpec Journal JournalExamples.
From S2P Require Import Configuration ConfigurationSpec ConfigurationSafety ConfigurationExamples.
From S2P Require Import TransportPolicy Fleet FleetStore FleetGateway FleetSpec FleetFence.

Local Open Scope Z_scope.

(** ** Third-party code *)

(** A writer of registries whose limits are whole numbers; a registry that does
    not read back has no octets. *)
Definition whole (f : spec_float) : Z := match f with S754_finite false m e => Z.shiftl (Zpos m) e | _ => 0 end.
Definition endpoint_value (e : fleet_endpoint) : pyval :=
  PDict [(PStr (py "transport"), PStr (transport_name (fe_transport e))); (PStr (py "version"), PStr (version_name (fe_version e)));
         (PStr (py "address"), PStr (fe_address e)); (PStr (py "port"), PInt (fe_port e))].
Definition node_value (g : fleet_gateway) : pyval :=
  PDict [(PStr (py "gateway_id"), PStr (fg_id g)); (PStr (py "failure_domain"), PStr (fg_domain g)); (PStr (py "country"), PStr (fg_country g));
         (PStr (py "state"), PStr (state_name (fg_state g))); (PStr (py "endpoints"), PList (endpoint_value <$> fg_endpoints g));
         (PStr (py "tunnel_pool"), PStr (fg_pool g)); (PStr (py "max_devices"), PInt (fg_max g)); (PStr (py "weight"), PInt (whole (fg_weight g)));
         (PStr (py "egress_budget_mbps"), PInt (whole (fg_egress g)))].
Definition ingress_value (i : ingress) : pyval :=
  PDict [(PStr (py "ingress_id"), PStr (in_id i)); (PStr (py "failure_domain"), PStr (in_domain i)); (PStr (py "address"), PStr (in_address i));
         (PStr (py "port"), PInt (in_port i)); (PStr (py "provider_public"), PStr (in_public i))].
Definition registry_value (r : fleet_registry) : pyval :=
  PDict [(PStr (py "schema_version"), PInt 1); (PStr (py "revision"), PInt (fr_revision r));
         (PStr (py "gateways"), PList (node_value <$> fr_gateways r)); (PStr (py "control_ingresses"), PList (ingress_value <$> fr_ingresses r))].
Definition written (v : pyval) : pystr := match json_compact no_floats v with Ok t => t | Raise _ => [-1] end.
Definition reads_registry (t : pystr) : result fleet_registry :=
  raw ← of_option (ValueError "UnicodeEncodeError") (utf8_encode t); load_registry no_floats raw.

#[export] Instance toy_fleet_json : FleetJson := {|
  registry_dump_json r :=
    let t := written (registry_value r) in
    match reads_registry t with Ok r' => if bool_decide (r' = r) then t else [-1] | Raise _ => [-1] end;
  node_dump_json g := written (node_value g);
|}.

#[export] Instance toy_fleet_json_laws : FleetJsonLaws no_floats.
Proof.
  split. intros r r' H. cbn [registry_dump_json toy_fleet_json] in H. change (read_registry no_floats) with reads_registry in H.
  destruct (reads_registry (written (registry_value r))) as [q|e] eqn:E; [|discriminate H].
  case_bool_decide as Eq; [subst q; congruence|discriminate H].
Qed.

#[export] Instance toy_libm : LibM := {| flog := λ _, float_of_Z (-1) |}.
#[export] Instance toy_reservation_json : ReservationJson := {| reservation_dump_json := λ r, written (PInt (rv_lifetime r)) |}.

(** ** A fleet of one gateway *)

Definition gateway_1 : fleet_gateway :=
  FleetGateway (py "gw-1") (py "rack-1") (py "nl") Active [FleetEndpoint WireGuard V1 (py "8.8.8.8") 51820] (py "10.9.0.0/24") 10
    (float_of_Z 1) (float_of_Z 100).
Definition registry_1 : fleet_registry :=
  FleetRegistry 1 [gateway_1] [Ingress (py "in-1") (py "rack-2") (py "9.9.9.9") 443 (b64encode (repeat 9 64))].

Definition store_0 : fleet_db := Eval vm_compute in match initialize_fleet no_floats registry_1 1000 with Ok s => s | Raise _ => FleetDb 0 0 [] [] [] [] [] [] [] None [] [] end.
Example store_0_ok : initialize_fleet no_floats registry_1 1000 = Ok store_0.
Proof. vm_compute. reflexivity. Qed.

(** A host with one interface that one peer may join. *)
Definition wg_binary : pystr := py "/usr/bin/wg".
Definition server_key : pystr := b64encode (repeat 8 32).
Definition pin_1 : interface_pin := InterfacePin wg_binary (py "wg0") server_key 51820.
Definition route_1 : pystr := py "10.9.0.2/32".
Definition network_1 : ip_addr * Z := (IPv4 168361986, 32).
Definition line_1 : pystr := wg_key ++ [9] ++ route_1 ++ [10].
Definition table_1 (joined : bool) : peer_table := if joined then {[wg_key := {[network_1]}]} else ∅.

Definition set_args : list pystr := [wg_binary; py "set"; py "wg0"; py "peer"; wg_key; py "allowed-ips"; route_1].
Definition remove_args : list pystr := [wg_binary; py "set"; py "wg0"; py "peer"; wg_key; py "remove"].
Definition show_args (what : pystr) : list pystr := [wg_binary; py "show"; py "wg0"; what].

#[export] Instance toy_wg : WgTool := {|
  wg_host := bool;
  wg_run args := λ joined,
    if bool_decide (args = show_args (py "public-key")) then (Ok (server_key ++ [10]), joined)
    else if bool_decide (args = show_args (py "listen-port")) then (Ok (py "51820" ++ [10]), joined)
    else if bool_decide (args = show_args (py "allowed-ips")) then (Ok (if joined then line_1 else []), joined)
    else if bool_decide (args = set_args) then (Ok [], true)
    else if bool_decide (args = remove_args) then (Ok [], false)
    else (Raise (RuntimeError "wg"), joined);
|}.

Example table_1_text b : parse_peers (if b : bool then line_1 else []) = Ok (table_1 b).
Proof.
  assert (∀ x, match parse_peers x with Ok q => bool_decide (q = table_1 b) | Raise _ => false end = true → parse_peers x = Ok (table_1 b)) as H.
  { intros x. destruct (parse_peers x); [|done]. by intros ->%bool_decide_eq_true. }
  apply H. by destruct b; vm_compute.
Qed.
Example network_1_text : ip_network route_1 = Some network_1.
Proof. vm_compute. reflexivity. Qed.
Example table_1_joins b : assign_route wg_key network_1 (table_1 b) = table_1 true.
Proof. apply (bool_decide_unpack _). by destruct b; vm_compute. Qed.
Example table_1_leaves b : delete wg_key (table_1 b) = table_1 false.
Proof. apply (bool_decide_unpack _). by destruct b; vm_compute. Qed.

#[export] Instance toy_wg_laws : WgLaws.
Proof.
  refine {| wg_table := λ (b : @wg_host toy_wg) name, if bool_decide (name = py "wg0") then table_1 b else ∅ |}.
  - intros bin name what h r h' H. cbn [wg_run toy_wg] in H. repeat case_bool_decide; by injection H as _ <-.
  - intros bin name h raw h' H. cbn [wg_run toy_wg] in H.
    repeat match type of H with (if bool_decide ?P then _ else _) = _ => destruct (bool_decide_reflect P) as [E|E]; [try discriminate E|clear E] end;
      try discriminate H.
    injection H as <- <-. pose proof (f_equal (λ l, nth 2 l []) E) as En. cbn [nth show_args] in En. rewrite bool_decide_eq_true_2 by done.
    apply table_1_text.
  - intros bin name key text net h r h' H Hn. cbn [wg_run toy_wg] in H.
    repeat match type of H with (if bool_decide ?P then _ else _) = _ => destruct (bool_decide_reflect P) as [E|E]; [try discriminate E|clear E] end;
      injection H as <- <-; [|by left].
    pose proof (f_equal (λ l, nth 2 l []) E) as En. pose proof (f_equal (λ l, nth 4 l []) E) as Ek. pose proof (f_equal (λ l, nth 6 l []) E) as Et.
    cbn [nth set_args] in En, Ek, Et. subst key text. rewrite network_1_text in Hn. assert (net = network_1) as -> by congruence. right. rewrite !bool_decide_eq_true_2 by done.
    by rewrite table_1_joins.
  - intros bin name key h r h' H. cbn [wg_run toy_wg] in H.
    repeat match type of H with (if bool_decide ?P then _ else _) = _ => destruct (bool_decide_reflect P) as [E|E]; [try discriminate E|clear E] end;
      injection H as <- <-; [|by left].
    pose proof (f_equal (λ l, nth 2 l []) E) as En. pose proof (f_equal (λ l, nth 4 l []) E) as Ek.
    cbn [nth remove_args] in En, Ek. subst key. right. rewrite !bool_decide_eq_true_2 by done.
    by rewrite table_1_leaves.
Defined.

Definition engine_1 : pystr * pystr := (py "wireguard", py "1").
#[export] Instance toy_engines : PeerBackend := wg_backends [(engine_1, pin_1)].
#[export] Instance toy_engines_laws : PeerBackendLaws := wg_backends_laws _.

(** ** A device's lease *)

Definition phone : pystr := reference device.
Definition phone_public : pystr := b64encode (public_of device).
Definition lease_1 : pystr := List.repeat 97 32.
Definition sample_1 : observation := Observation (py "gw-1") 1 1000 [WireGuard] 0 (float_of_Z 10) (float_of_Z 10) (float_of_Z 10).
Definition request_1 : reservation := Reservation (py "req-1") 1 (py "nl") (py "wireguard") (py "1") 3600 [4].

Definition admit_phone : fleet_op := FAccess phone phone_public wg_key 1 9000 2 false.
Definition reserve_phone : fleet_op := FReserve phone request_1 [sample_1] lease_1.
Definition revoke_phone : fleet_op := FAccess phone phone_public wg_key 2 9000 2 true.



Definition ended {A} (d : fleet_db) (x : result A * fleet_db) : fleet_db := match x with (Ok _, s) => s | (Raise _, _) => d end.
Definition store_1 : fleet_db := Eval vm_compute in ended store_0 (perform no_floats 1001 admit_phone store_0).
Definition store_2 : fleet_db := Eval vm_compute in ended store_1 (perform no_floats 1002 reserve_phone store_1).
Definition row_1 : lease := Eval vm_compute in
  default (Lease [] [] [] [] [] [] 0 0 0 0 Released 0) (dget lease_1 (fd_leases store_2)).

Example store_1_run : perform no_floats 1001 admit_phone store_0 = (Ok (), store_1).
Proof. vm_compute. reflexivity. Qed.
Example store_2_run : perform no_floats 1002 reserve_phone store_1 = (Ok (), store_2).
Proof. vm_compute. reflexivity. Qed.
Example store_2_lease : dget lease_1 (fd_leases store_2) = Some row_1 ∧ ls_address row_1 = route_1.
Proof. split; vm_compute; reflexivity. Qed.

Lemma store_2_reachable : fleet_reachable no_floats store_2.
Proof.
  exists registry_1, 1000, store_0, [(1001, admit_phone); (1002, reserve_phone)]. split; [exact store_0_ok|].
  unfold run_fleet. cbn [foldl fst snd]. rewrite store_1_run. cbn [snd]. by rewrite store_2_run.
Qed.

Lemma leases_exclusive_witness : ∃ reg g pool n, latest_registry no_floats store_2 = (Ok reg, store_2) ∧ find_node (py "gw-1") reg = Some g
  ∧ pool_of (fg_pool g) = Some pool ∧ pool.1 + 2 <= n < pool.1 + pool_size pool.2 - 1 ∧ route_1 = host_route n.
Proof.
  destruct (leases_exclusive no_floats store_2 store_2_reachable) as (reg & Hreg & Hp & _). destruct store_2_lease as [Hl <-].
  destruct (Hp _ _ Hl) as (g & pool & n & Hg & Rest). exists reg, g, pool, n. split; [exact Hreg|]. split; [exact Hg|exact Rest].
Defined.


(** ** The worker installs it *)

Definition host_1 : fence := Fence (node_dump_json gateway_1) 1000 [] [(engine_1, false)].
Definition clock_at (t : Z) : fence_clock := FenceClock t t t.
Definition script_at (t : Z) : nat → work_script := λ n, WorkScript Delivered (WorkClock t (clock_at t) t) (py "token") t t 0.

Definition fleet_2 : fleet_sys := FleetSys store_2 [(py "gw-1", (gateway_1, host_1))] [] [].

Lemma host_1_empty e : peers_of host_1 e = ∅.
Proof.
  unfold peers_of, host_1. cbv [bk_peers toy_engines_laws wg_backends_laws fn_backend]. cbn [dget]. case_decide; [reflexivity|done].
Qed.

Lemma fleet_2_reachable : sys_reachable no_floats fleet_2.
Proof.
  exists (FleetSys store_0 [] [] []). split; [by exists registry_1, 1000, store_0; split; [exact store_0_ok|]|].
  eapply rtc_l; [apply (sys_store no_floats 1001 admit_phone); reflexivity|]. rewrite store_1_run. cbn [snd].
  eapply rtc_l; [apply (sys_store no_floats 1002 reserve_phone); reflexivity|]. rewrite store_2_run. cbn [snd].
  apply rtc_once. apply (sys_join no_floats (py "gw-1") gateway_1 host_1); [done|done|exact host_1_empty].
Qed.

Lemma first_is {A B} (x : A * B) a : x.1 = a → ∃ b, x = (a, b).
Proof. intros <-. exists x.2. by destruct x. Qed.

Lemma workers_refine_witness : ∃ w' y', tick no_floats 10 60 0 1010 (script_at 1011) (world_of fleet_2) = (Ok [(lease_1, py "ready")], w')
  ∧ rtc (sys_step no_floats) fleet_2 y' ∧ world_of y' = w'.
Proof.
  assert (∃ w', tick no_floats 10 60 0 1010 (script_at 1011) (world_of fleet_2) = (Ok [(lease_1, py "ready")], w')) as [w' H]
    by (apply first_is; vm_compute; reflexivity).
  destruct (workers_refine no_floats fleet_2 fleet_2_reachable) as [Ht _]. destruct (Ht _ _ _ _ _ _ _ H) as (y' & S & E).
  exists w', y'. split; [exact H|]. split; [exact S|exact E].
Defined.

(** ** Its life, step by step *)

Definition command_1 : peer_command := Eval vm_compute in command_of (lease_1, row_1) wg_key.
Definition store_3 : fleet_db := Eval vm_compute in set_clock 1003 store_2.
Definition rows_4 : list (pystr * command_row) := Eval vm_compute in
  fn_commands (execute no_floats gateway_1 false (clock_at 1004) command_1 host_1).2.
Definition host_4 : fence := Fence (node_dump_json gateway_1) 1004 rows_4 [(engine_1, true)].
Definition hosts_with (h : fence) : list (pystr * (fleet_gateway * fence)) := [(py "gw-1", (gateway_1, h))].
Definition fleet_4 : fleet_sys := FleetSys store_3 (hosts_with host_4) [command_1] [command_1].

(** A command taken from the store and carried out at once. *)
Lemma sent_and_delivered s s' x now g h h' sent answered c :
  was_pending s x → (∃ w, work_item no_floats x.1 (ls_generation x.2) now s = (Ok w, s') ∧ c = command_of x (lw_wg w)) → valid_command c = true →
  pc_gateway c = py "gw-1" → (∃ t a, execute no_floats g false t c h = (Ok a, h')) →
  rtc (sys_step no_floats) (FleetSys s [(py "gw-1", (g, h))] sent answered) (FleetSys s' [(py "gw-1", (g, h'))] (c :: sent) (c :: answered)).
Proof.
  intros Hx (w & Hw & Ec) Hv Hg (t & a & He). eapply rtc_l; [rewrite Ec in Hv; by apply (sys_send no_floats x now w)|]. rewrite <- Ec. apply rtc_once.
  pose proof (sys_deliver no_floats c g h false t (Ok a) h' s' [(py "gw-1", (g, h))] (c :: sent) answered) as St. rewrite Hg in St.
  cbn [dset is_ok] in St. apply St; [by left|done|exact He].
Qed.

Lemma ok_pair {A S} (x : result A * S) s : is_ok x.1 = true → x.2 = s → ∃ a, x = (Ok a, s).
Proof. destruct x as [[a|e] s']; cbn; [|done]. intros _ ->. by exists a. Qed.
Lemma same_fence (h : fence) gateway now rows engines :
  fn_gateway h = gateway → fn_now h = now → fn_commands h = rows → fn_backend h = engines → h = Fence gateway now rows engines.
Proof. destruct h; cbn. congruence. Qed.

Example executed_1 : ∃ t a, execute no_floats gateway_1 false t command_1 host_1 = (Ok a, host_4).
Proof. exists (clock_at 1004). apply ok_pair; [vm_compute; reflexivity|]. apply same_fence; vm_compute; reflexivity. Qed.

Lemma fleet_4_reachable : sys_reachable no_floats fleet_4.
Proof.
  destruct fleet_2_reachable as (y0 & I & St). exists y0. split; [exact I|]. etrans; [exact St|].
  apply (sent_and_delivered store_2 store_3 (lease_1, row_1) 1003); [| |vm_compute; reflexivity|reflexivity|exact executed_1].
  - apply (row_was_pending no_floats); [exact (reachable_ok _ _ store_2_reachable)| |reflexivity]. apply dget_elem. exact (proj1 store_2_lease).
  - assert (∃ w, work_item no_floats lease_1 1 1003 store_2 = (Ok w, store_3)) as [w Hw] by (apply ok_pair; vm_compute; reflexivity).
    exists w. split; [exact Hw|]. destruct (work_item_Ok _ _ _ _ _ _ _ Hw) as (l & a & Hl & _ & _ & Ha & _ & _ & -> & _).
    rewrite (proj1 store_2_lease) in Hl. injection Hl as <-. injection Ha as <-. reflexivity.
Qed.

(** The peer is live at the gateway. *)
Lemma fence_holds_witness : peers_of host_4 engine_1 !! wg_key = Some {[network_1]} ∧
  ∃ id l n, dget id (fd_leases store_3) = Some l ∧ live l = true ∧ ls_gateway l = py "gw-1" ∧ ls_address l = host_route n
    ∧ ({[network_1]} : gset (ip_addr * Z)) = {[(IPv4 n, 32)]}.
Proof.
  assert (peers_of host_4 engine_1 !! wg_key = Some {[network_1]}) as Hp.
  { unfold peers_of, host_4. cbv [bk_peers toy_engines_laws wg_backends_laws fn_backend]. cbn [dget]. unfold engine_1.
    rewrite !decide_True by reflexivity. apply lookup_singleton_eq. }
  split; [exact Hp|]. destruct (fence_holds no_floats fleet_4 fleet_4_reachable) as [Hf _].
  destruct (Hf (py "gw-1") gateway_1 host_4 engine_1 wg_key _ eq_refl Hp) as (id & l & a & n & H1 & H2 & H3 & _ & _ & _ & H7 & H8).
  exists id, l, n. split; [exact H1|]. split; [exact H2|]. split; [exact H3|]. split; [exact H7|exact H8].
Defined.

Definition store_5 : fleet_db := Eval vm_compute in ended store_3 (perform no_floats 1100 revoke_phone store_3).
Definition row_5 : lease := Eval vm_compute in default row_1 (dget lease_1 (fd_leases store_5)).
Definition store_6 : fleet_db := Eval vm_compute in set_clock 1101 store_5.
Definition command_2 : peer_command := Eval vm_compute in command_of (lease_1, row_5) wg_key.
Definition rows_6 : list (pystr * command_row) := Eval vm_compute in
  fn_commands (execute no_floats gateway_1 false (clock_at 1102) command_2 host_4).2.
Definition host_6 : fence := Fence (node_dump_json gateway_1) 1102 rows_6 [(engine_1, false)].
Definition store_7 : fleet_db := Eval vm_compute in ended store_6 (confirm_removed lease_1 2 1103 store_6).
Definition row_7 : lease := Eval vm_compute in default row_1 (dget lease_1 (fd_leases store_7)).
Definition fleet_7 : fleet_sys := FleetSys store_7 (hosts_with host_6) [command_2; command_1] [command_2; command_1].

Example store_5_run : perform no_floats 1100 revoke_phone store_3 = (Ok (), store_5).
Proof. vm_compute. reflexivity. Qed.
Example executed_2 : ∃ t a, execute no_floats gateway_1 false t command_2 host_4 = (Ok a, host_6).
Proof. exists (clock_at 1102). apply ok_pair; [vm_compute; reflexivity|]. apply same_fence; vm_compute; reflexivity. Qed.
Example store_7_run : confirm_removed lease_1 2 1103 store_6 = (Ok row_7, store_7).
Proof. vm_compute. reflexivity. Qed.

Lemma store_3_reachable : fleet_reachable no_floats store_3.
Proof.
  exists registry_1, 1000, store_0, [(1001, admit_phone); (1002, reserve_phone); (1003, FGet lease_1)]. split; [exact store_0_ok|].
  unfold run_fleet. cbn [foldl fst snd]. rewrite store_1_run. cbn [snd]. rewrite store_2_run. vm_compute. reflexivity.
Qed.

Lemma revocation_final_witness : ∃ l2, dget lease_1 (fd_leases (run_fleet no_floats [(1200, FAccess phone phone_public wg_key 3 9500 2 false)] store_5)) = Some l2
  ∧ current_lease l2 = false ∧ is_ok (perform no_floats 1200 (FAccess phone phone_public wg_key 3 9500 2 false) store_5).1 = true.
Proof.
  assert (set_access phone phone_public wg_key 2 9000 2 true 1100 store_3 = (Ok (), store_5)) as H by exact store_5_run.
  destruct (revocation_final no_floats phone phone_public wg_key 2 9000 2 1100 store_3 (()) store_5
    [(1200, FAccess phone phone_public wg_key 3 9500 2 false)] lease_1 row_1 store_3_reachable H) as (l2 & H1 & H2 & _);
    [vm_compute; reflexivity|vm_compute; reflexivity|].
  exists l2. split; [exact H1|]. split; [exact H2|vm_compute; reflexivity].
Defined.

Lemma fleet_7_reachable : sys_reachable no_floats fleet_7.
Proof.
  destruct fleet_4_reachable as (y0 & I & St). exists y0. split; [exact I|]. etrans; [exact St|].
  eapply rtc_l; [apply (sys_store no_floats 1100 revoke_phone); reflexivity|]. rewrite store_5_run. cbn [snd].
  etrans.
  - apply (sent_and_delivered store_5 store_6 (lease_1, row_5) 1101 gateway_1 host_4 host_6 _ _ command_2);
      [| |vm_compute; reflexivity|reflexivity|exact executed_2].
    + apply (row_was_pending no_floats); [|by left|reflexivity].
      pose proof (perform_good no_floats _ _ _ _ _ store_5_run (reachable_ok _ _ store_3_reachable)) as [G _]. exact G.
    + assert (∃ w, work_item no_floats lease_1 2 1101 store_5 = (Ok w, store_6)) as [w Hw] by (apply ok_pair; vm_compute; reflexivity).
      exists w. split; [exact Hw|]. destruct (work_item_Ok _ _ _ _ _ _ _ Hw) as (l & a & Hl & _ & _ & Ha & _ & _ & -> & _).
      injection Hl as <-. injection Ha as <-. reflexivity.
  - apply rtc_once. pose proof (sys_confirm no_floats command_2 1103 store_6 (hosts_with host_6) [command_2; command_1] [command_2; command_1]) as Sc.
    change (pc_lease command_2) with lease_1 in Sc. change (pc_generation command_2) with 2 in Sc. rewrite store_7_run in Sc. apply Sc; [by left|reflexivity].
Qed.

(** The installation of the released lease arrives again, and changes nothing. *)
Lemma late_commands_fenced_witness : ls_state row_7 = Released ∧ ∀ restore ck, fn_commands (execute no_floats gateway_1 restore ck command_1 host_6).2 = fn_commands host_6.
Proof.
  split; [reflexivity|]. intros restore ck. destruct (execute no_floats gateway_1 restore ck command_1 host_6) as [r h'] eqn:He.
  destruct (late_commands_fenced no_floats fleet_7 lease_1 row_7 command_1 gateway_1 host_6 restore ck r h' fleet_7_reachable) as (_ & H & _);
    [vm_compute; reflexivity|reflexivity|right; left|reflexivity|reflexivity|exact He|exact H].
Defined.

(** ** Its configuration *)

Definition binding_1 : profile_binding := ProfileBinding WireGuard V1 server_key [py "1.1.1.1"] 1280 [].
Definition publisher_1 : publisher := Publisher issuer [((py "gw-1", py "wireguard", py "1"), binding_1)].
Definition ready_ops : list (Z * fleet_op) :=
  [(1001, admit_phone); (1002, reserve_phone); (1003, FGet lease_1); (1005, FReady lease_1 1); (1006, FPin (pu_public publisher_1));
   (1007, FPublish publisher_1 lease_1 phone None (py "0.2.9") [1; 2; 3] 1008 10)].
Definition store_9 : fleet_db := Eval vm_compute in run_fleet no_floats ready_ops store_0.
Definition served : bytes := Eval vm_compute in match published lease_1 phone 1010 store_9 with (Ok raw, _) => raw | _ => [] end.

Example store_9_run : run_fleet no_floats ready_ops store_0 = store_9.
Proof. vm_compute. reflexivity. Qed.

Definition phone_verifier : config_verifier := ConfigVerifier (toy_seed 5) device wg_key (0, 2, 9) true.

Lemma published_verifies_witness : is_ok (verify phone_verifier served 1010) = true ∧
  ∃ c minv, valid_configuration c = Ok () ∧ cf_id c = lease_1 ∧
  ((∀ v, version minv = Ok v → version_above v (0, 2, 9) = false) →
   verify phone_verifier served 1010 = Ok (Verified lease_1 (cf_revision c) (cf_previous c) c served (tohex (full_hash served)))).
Proof.
  split; [vm_compute; reflexivity|].
  assert (∃ s', published lease_1 phone 1010 (run_fleet no_floats ready_ops store_0) = (Ok served, s')) as [s' H]
    by (rewrite store_9_run; apply first_is; vm_compute; reflexivity).
  destruct (published_verifies no_floats registry_1 1000 store_0 ready_ops lease_1 phone 1010 served s' store_0_ok)
    as (l & a & profile & endpoint & signer & revision & previous & minv & issued & _ & _ & _ & Ha & _ & Hv & Hall);
    [repeat constructor|exact H|]. rewrite store_9_run in Ha, Hall.
  assert (dget phone (fd_access store_9) = Some (AccessRow phone_public wg_key 1 9000 2 false)) as Ha' by (vm_compute; reflexivity).
  rewrite Ha' in Ha. assert (∀ x y : access_row, Some x = Some y → x = y) as Hinj by (intros x y E; congruence). apply Hinj in Ha as <-.
  exists (lease_document lease_1 l (AccessRow phone_public wg_key 1 9000 2 false) profile endpoint signer revision previous minv issued), minv.
  split; [exact Hv|]. split; [reflexivity|]. intros Hver. apply (Hall phone_verifier).
  - reflexivity.
  - apply fit_bytes.
  - reflexivity.
  - vm_compute. reflexivity.
  - apply fit_bytes.
  - exact Hver.
  - repeat constructor.
Defined.
