(* ===== verification/FriendsCatalog.v ===== *)
(** The signed catalog of the invite test (provisioning/friends_catalog.py): the
    common template of two gateways, the floor a verifier keeps of it, and the
    profile a device makes of it with the assignment of its own reply. *)
From Stdlib Require Import ZArith Lia.
From S2P Require Import Prelude PyData Json JsonText Ipaddress Rns Ack Registry Referrals PaidBeta TransportPolicy ProfileConfig.

Local Open Scope Z_scope.

(** ** Texts *)

(** [s.count(pat)] and [s.replace(pat, by)] for a pattern that is not empty:
    occurrences from the left that do not overlap. *)
Fixpoint count_from (pat : pystr) (skip : nat) (s : pystr) : Z :=
  match s with
  | [] => 0
  | _ :: s' =>
      match skip with
      | S k => count_from pat k s'
      | O => if startswith pat s then 1 + count_from pat (length pat - 1) s' else count_from pat 0 s'
      end
  end.
Definition count_of (pat s : pystr) : Z := count_from pat 0 s.

Fixpoint replace_from (pat by_ : pystr) (skip : nat) (s : pystr) : pystr :=
  match s with
  | [] => []
  | c :: s' =>
      match skip with
      | S k => replace_from pat by_ k s'
      | O => if startswith pat s then by_ ++ replace_from pat by_ (length pat - 1) s' else c :: replace_from pat by_ 0 s'
      end
  end.
Definition replace_all (pat by_ s : pystr) : pystr := replace_from pat by_ 0 s.

(** [re.search(r'(?m)^line$', s)] for a line without special characters. *)
Definition has_line (line s : pystr) : bool := one_of line (split_on 10 s).

(** ** The common template *)

Definition CATALOG_DOMAIN : bytes := py "family-connect/invited-test/v1" ++ [0].
Definition MAX_SEQUENCE : Z := 9007199254740991.
Definition GATEWAY_CHOICES : list pystr := List.map py ["nl-amsterdam-1"; "nl-amsterdam-2"]%string.
Definition COUNTRIES : list pystr := List.map py ["ru"; "nl"]%string.

Definition not_a_catalog : exn := ValueError "Invalid Friends configuration".
Definition need (b : bool) : result () := require b not_a_catalog.
Definition as_text (v : pyval) : result pystr := of_option not_a_catalog (as_str v).

(** [parse(raw)]: no duplicate names and no NaN or infinity. *)
Definition parse_strict (s : pystr) : result pyval := of_option not_a_catalog (json_loads_with unique false s).

(** [parse(raw.decode())] *)
Definition parse_octets (raw : bytes) : result pyval :=
  s ← of_option (ValueError "UnicodeDecodeError") (utf8_decode raw); parse_strict s.

(** [fields(value, names)] *)
Definition fields_of (l : list string) (v : pyval) : result (list (pyval * pyval)) :=
  d ← of_option not_a_catalog (as_dict v);
  need (keys_are l d);;
  Ok d.

(** [key(text, size)] *)
Definition catalog_key (v : pyval) (size : Z) : result bytes :=
  s ← as_text v;
  raw ← of_option (ValueError "binascii.Error") (b64decode s);
  need ((zlen raw =? size) && str_eqb (b64encode raw) s);;
  Ok raw.

(** The bytes a signature covers, from the payload of an envelope. *)
Definition payload_octets (e : list (pyval * pyval)) : result bytes :=
  v ← item "payload" e;
  s ← as_text v;
  raw ← of_option (ValueError "binascii.Error") (b64decode s);
  need (in_range 1 8192 (zlen raw) && str_eqb (b64encode raw) s);;
  Ok raw.

(** [{**tcp, 'id': id}]: the field is there, and keeps its place. *)
Definition with_tcp_id (id : pystr) (d : list (pyval * pyval)) : list (pyval * pyval) :=
  List.map (λ p, if key_is_str (py "id") p.1 then (p.1, PStr id) else p) d.

Definition SAMPLE_ID : pystr := py "11111111-1111-4111-8111-111111111111".
Definition SAMPLE_KEY : pystr := b64encode (List.repeat 1 32).
Definition DEVICE_KEY : pystr := py "LOCAL_DEVICE_KEY".
Definition DEVICE_ADDRESS : pystr := py "ASSIGNED_ADDRESS".

(** A unicast address that a gateway may have. *)
Definition gateway_host (s : pystr) : result () :=
  ip ← of_option bad_address (ipv4_int s);
  need (str_eqb (ipv4_text ip) s && negb (is_loopback (IPv4 ip)) && (0 <? ip / 16777216) && (ip / 16777216 <? 224)).

(** The two transports of a gateway. *)
Record gateway_template := GatewayTemplate { gt_tcp : list (pyval * pyval); gt_awg : pystr }.

Definition TCP_TEMPLATE : list string := ["type"; "server"; "port"; "id"; "public_key"; "server_name"; "short_id"]%string.

Section Catalog.
Context {RN : Rns} {ED : Ed25519} (float_repr : spec_float → pystr).

(** The TCP template: what it becomes with an identity must be a profile. *)
Definition tcp_template (v : pyval) : result (list (pyval * pyval) * pystr) :=
  tcp ← fields_of TCP_TEMPLATE v;
  id ← item "id" tcp;
  need (key_is_str (py "DEVICE_CREDENTIAL") id);;
  text ← json_default float_repr (PDict (with_tcp_id SAMPLE_ID tcp));
  parsed ← parse_tcp text;
  server ← str_field "server" parsed;
  gateway_host server;;
  public ← str_field "public_key" parsed;
  raw ← of_option (ValueError "binascii.Error") (reality_key public);
  need (existsb (λ b, negb (b =? 0)) raw);;
  Ok (tcp, server).

(** [int(face[name]) >= 1] *)
Definition positive_field (name : string) (d : fields) : result () :=
  v ← fitem name d;
  n ← of_option bad_integer (int_of_text v);
  need (1 <=? n).

(** The AmneziaWG template, with the two places a device fills in; the host of
    its endpoint. *)
Definition awg_template (v : pyval) : result (pystr * pystr) :=
  awg ← as_text v;
  b ← of_option (ValueError "UnicodeEncodeError") (utf8_encode awg);
  need (zlen b <=? 8192);;
  need ((count_of DEVICE_KEY awg =? 1) && (count_of DEVICE_ADDRESS awg =? 1));;
  need (has_line (py "PrivateKey = LOCAL_DEVICE_KEY") awg && has_line (py "Address = ASSIGNED_ADDRESS") awg);;
  let normalized := replace_all DEVICE_ADDRESS (py "10.83.0.2/32") (replace_all DEVICE_KEY SAMPLE_KEY awg) in
  parts ← ProfileConfig.parse true true normalized;
  face ← of_option KeyError (dget INTERFACE parts);
  need (dmem (py "HeaderProtectionKey") face && dmem (py "ContentPaddingAddition") face);;
  mapR (λ name, positive_field name face) ["Jc"; "Jmin"; "Jmax"]%string;;
  peer ← of_option KeyError (dget PEER parts);
  endpoint ← fitem "Endpoint" peer;
  let host := match rsplit_at 58 endpoint with Some (h, _) => h | None => endpoint end in
  gateway_host host;;
  Ok (awg, host).

(** One turn of the loop over the gateways. *)
Definition catalog_gateway (schema : Z) (profiles : list (pystr * gateway_template)) (v : pyval) :
    result (list (pystr * gateway_template)) :=
  d ← fields_of (["country"; "tcp"; "awg"]%string ++ (if schema =? 3 then ["gateway_id"]%string else [])) v;
  region ← item "country" d;
  region ← as_text region;
  need (one_of region COUNTRIES);;
  target ← (if schema =? 3 then t ← item "gateway_id" d; as_text t else Ok region);
  need (negb (dmem target profiles));;
  need (negb (schema =? 3) || (str_eqb region (py "nl") && one_of target GATEWAY_CHOICES));;
  tcp ← item "tcp" d;
  '(tcp, server) ← tcp_template tcp;
  awg ← item "awg" d;
  '(awg, host) ← awg_template awg;
  (if schema =? 3 then
     others ← mapR (λ p, item "server" (gt_tcp p.2)) profiles;
     need (str_eqb host server && forallb (λ s, negb (key_is_str host s)) others)
   else Ok ());;
  Ok (dset target (GatewayTemplate tcp awg) profiles).

(** A floor given to the verifier. *)
Definition floor_ok (floor : Z) : bool := in_range 0 MAX_SEQUENCE floor.

Record catalog := Catalog {
  ct_sequence : Z;
  ct_hash : pystr;
  ct_profiles : list (pystr * gateway_template);
}.

(** [_catalog(raw, floor, previous_hash, schema=schema)] *)
Definition read_catalog (raw : bytes) (floor : Z) (previous : option pystr) (schema : Z) : result catalog :=
  need (in_range 1 8192 (zlen raw));;
  need (floor_ok floor);;
  v ← parse_octets raw;
  d ← fields_of ["schema"; "sequence"; "access"; "gateways"]%string v;
  sch ← item "schema" d;
  access ← item "access" d;
  need (((schema =? 2) || (schema =? 3)) && bool_decide (as_int sch = Some schema) && key_is_str (py "invite-test") access);;
  sequence ← item "sequence" d;
  sequence ← of_option not_a_catalog (as_int sequence);
  need ((Z.max 1 floor <=? sequence) && (sequence <=? MAX_SEQUENCE));;
  let digest := tohex (full_hash raw) in
  match previous with
  | None => Ok ()
  | Some h => need (hex_match 64 h);; need (negb (sequence =? floor) || str_eqb digest h)
  end;;
  gateways ← item "gateways" d;
  gateways ← of_option not_a_catalog (as_list gateways);
  need (zlen gateways =? 2);;
  profiles ← foldR (catalog_gateway schema) [] gateways;
  Ok (Catalog sequence digest profiles).

(** The octets of an envelope whose signature the anchor made. *)
Definition signed_payload (e : pyval) (anchor : bytes) : result bytes :=
  need (zlen anchor =? 32);;
  d ← fields_of ["payload"; "signature"]%string e;
  text ← json_default float_repr (PDict d);
  b ← of_option (ValueError "UnicodeEncodeError") (utf8_encode text);
  need (zlen b <=? 16384);;
  raw ← payload_octets d;
  s ← item "signature" d;
  signature ← catalog_key s 64;
  require (ed_verify anchor signature (CATALOG_DOMAIN ++ raw)) (ValueError "InvalidSignature");;
  Ok raw.

(** [except Exception: raise ValueError(msg)] *)
Definition any_error {A} (msg : string) (m : result A) : result A := try_with m (λ _, Raise (ValueError msg)).

Record catalog_floor := CatalogFloor { cl_sequence : Z; cl_hash : pystr }.

(** [verify_catalog(envelope, anchor, floor=..., previous_hash=..., schema=...)] *)
Definition verify_catalog (e : pyval) (anchor : bytes) (floor : Z) (previous : option pystr) (schema : Z) : result catalog_floor :=
  any_error "Invalid Friends catalog floor" (
    raw ← signed_payload e anchor;
    c ← read_catalog raw floor previous schema;
    Ok (CatalogFloor (ct_sequence c) (ct_hash c))).

(** ** The profile of a device *)

Record friends_configuration := FriendsConfiguration {
  fc_country : pystr;
  fc_sequence : Z;
  fc_hash : pystr;
  fc_address : pystr;
  fc_tcp : pystr;
  fc_awg : pystr;
  fc_gateway : option pystr;
}.

(** The address of a device inside its country's network, one host of it. *)
Definition assigned_address (region address : pystr) : result () :=
  '(a, p) ← of_option bad_address (ip_interface address);
  match a with
  | IPv4 n =>
      let base := (if str_eqb region (py "ru") then 10 * 16777216 + 84 * 65536 else 10 * 16777216 + 83 * 65536) in
      need (str_eqb (network_text (a, p)) address && (p =? 32) && (base <=? n) && (n <? base + 65536)
            && negb (n =? base) && negb (n =? base + 1) && negb (n =? base + 65535))
  | IPv6 _ _ => Raise bad_address
  end.

(** [_verified_profile(reply, raw, device, country, wireguard_key, ...)] *)
Definition profile_of_reply (reply : pyval) (raw : bytes) (device country : pystr) (wg : bytes)
    (floor : Z) (previous : option pystr) : result friends_configuration :=
  need (floor_ok floor && one_of country (COUNTRIES ++ GATEWAY_CHOICES));;
  let explicit := one_of country GATEWAY_CHOICES in
  let region := if explicit then py "nl" else country in
  d ← fields_of (["device"; "country"; "address"; "tcp_id"; "catalog"]%string ++ (if explicit then ["gateway_id"]%string else [])) reply;
  v ← item "device" d;
  c ← item "country" d;
  need (key_is_str device v && key_is_str region c);;
  (if explicit then g ← item "gateway_id" d; need (key_is_str country g) else Ok ());;
  e ← item "catalog" d;
  e ← fields_of ["payload"; "signature"]%string e;
  need (in_range 1 8192 (zlen raw));;
  payload ← item "payload" e;
  need (key_is_str (b64encode raw) payload);;
  c ← read_catalog raw floor previous (if explicit then 3 else 2);
  address ← item "address" d;
  address ← as_text address;
  assigned_address region address;;
  credential ← item "tcp_id" d;
  credential ← as_text credential;
  need (canonical_uuid credential && negb (str_eqb credential NIL_UUID));;
  need (zlen wg =? 32);;
  t ← of_option KeyError (dget country (ct_profiles c));
  tcp ← json_compact float_repr (PDict (with_tcp_id credential (gt_tcp t)));
  awg ← validate_profile true true (replace_all DEVICE_ADDRESS address (replace_all DEVICE_KEY (b64encode wg) (gt_awg t)));
  Ok (FriendsConfiguration region (ct_sequence c) (ct_hash c) address tcp awg (if explicit then Some country else None)).

Definition verified_profile (reply : pyval) (raw : bytes) (device country : pystr) (wg : bytes)
    (floor : Z) (previous : option pystr) : result friends_configuration :=
  any_error "Invalid Friends configuration" (profile_of_reply reply raw device country wg floor previous).

(** [verify(reply, anchor, device, country, wireguard_key, floor=..., previous_hash=...)] *)
Definition verify_reply (reply : pyval) (anchor : bytes) (device country : pystr) (wg : bytes)
    (floor : Z) (previous : option pystr) : result friends_configuration :=
  any_error "Invalid Friends configuration" (
    need (floor_ok floor);;
    need (one_of country (COUNTRIES ++ GATEWAY_CHOICES));;
    d ← of_option TypeError (as_dict reply);
    e ← item "catalog" d;
    raw ← signed_payload e anchor;
    verified_profile reply raw device country wg floor previous).
End Catalog.
