(* ===== verification/GatewayRouting.v ===== *)
(** The sticky assignment of devices to physical gateways
    (control/friends/gateway_routing.py) and the explicit choice of a node
    (gateway_selection.py): policies over offline-signed catalogs, the tables
    that record who is served which catalog, and the operator's requests. *)
From Stdlib Require Import ZArith Lia.
From S2P Require Import Prelude PyData Json JsonText Ipaddress Rns Ack DeviceProof Registry Referrals PaidBeta.
From S2P Require Import TransportPolicy Journal ProfileConfig FriendsCatalog.

Local Open Scope Z_scope.

Definition routing_rejected : exn := ValueError "Gateway routing rejected".
Definition insist (b : bool) : result () := require b routing_rejected.
Definition required {A} (o : option A) : result A := of_option routing_rejected o.

(** ** Private files *)

Record private_file := PrivateFile { pf_stat : file_stat; pf_bytes : bytes }.
(** A directory: whether every component of its path is one, whether it is its
    owner's alone, and its files. *)
Record private_dir := PrivateDir { pd_path : bool; pd_private : bool; pd_files : list (pystr * private_file) }.
(** The access root and its [gateway-routing] directory. *)
Record routing_files := RoutingFiles { rf_root : private_dir; rf_routing : private_dir }.

Definition plain_name (name : pystr) : bool :=
  negb (has_char 47 name) && negb (str_eqb name (py ".")) && negb (str_eqb name (py "..")).

(** [private_read(root, name, limit)] *)
Definition private_read (d : private_dir) (name : pystr) (limit : Z) : result bytes :=
  insist (plain_name name);;
  insist (pd_path d);;
  insist (pd_private d);;
  f ← of_option OSError (dget name (pd_files d));
  insist (safe_stat (pf_stat f));;
  insist ((0 <? zlen (pf_bytes f)) && (zlen (pf_bytes f) <=? limit));;
  Ok (pf_bytes f).

(** ** Values *)

Fixpoint finite_floats (v : pyval) : bool :=
  match v with
  | PFloat f => isfinite f
  | PList l => forallb finite_floats l
  | PDict d => forallb (λ p, finite_floats p.1 && finite_floats p.2) d
  | _ => true
  end.

(** [address(value)] *)
Definition address_of (v : pyval) : result pystr :=
  s ← required (as_str v);
  ip ← of_option bad_address (ipv4_int s);
  insist (str_eqb (ipv4_text ip) s && negb (is_loopback (IPv4 ip)) && negb (is_unspecified (IPv4 ip))
          && negb (is_multicast (IPv4 ip)) && (0 <? ip / 16777216) && (ip / 16777216 <? 224));;
  Ok s.

(** [re.fullmatch(r'nl-[a-z0-9][a-z0-9-]{0,47}', node)] *)
Definition node_name (s : pystr) : bool :=
  let r := drop 3 s in
  startswith (py "nl-") s && in_range 1 48 (zlen r) && is_lower_alnum (List.hd 0 r)
  && forallb (λ c, is_lower_alnum c || (c =? 45)) r.

(** [operation(value)] *)
Definition operation (v : pyval) : result pystr :=
  s ← required (as_str v);
  insist (in_range 8 96 (zlen s) && forallb is_word s && negb (existsb (Z.eqb (List.hd 0 s)) [45; 95]));;
  Ok s.

(** The leading characters a class matches, and the rest. *)
Fixpoint span (p : Z → bool) (s : pystr) : pystr * pystr :=
  match s with
  | [] => ([], [])
  | c :: s' => if p c then let '(a, r) := span p s' in (c :: a, r) else ([], s)
  end.

(** What follows each line break, and the text itself. *)
Fixpoint after_breaks (s : pystr) : list pystr :=
  match s with
  | [] => []
  | c :: s' => if c =? 10 then s' :: after_breaks s' else after_breaks s'
  end.
Definition line_starts (s : pystr) : list pystr := s :: after_breaks s.

(** The group of [(?m)^Endpoint\s*=\s*([0-9.]+):[0-9]+\s*$] at a place.  Every
    class stops where the next one starts, and a match holds no other start. *)
Definition endpoint_at (s : pystr) : option pystr :=
  if startswith (py "Endpoint") s then
    match lstrip (drop 8 s) with
    | 61 :: r =>
        let '(host, r) := span (λ c, is_digit c || (c =? 46)) (lstrip r) in
        match host, r with
        | _ :: _, 58 :: r =>
            let '(port, r) := span is_digit r in
            let '(blanks, r) := span is_space r in
            if negb (bool_decide (port = [])) && (bool_decide (r = []) || has_char 10 blanks) then Some host else None
        | _, _ => None
        end
    | _ => None
    end
  else None.
(** [re.findall] of it *)
Definition endpoint_hosts (awg : pystr) : list pystr := omap endpoint_at (line_starts awg).

(** ** The policy *)

Record route := Route { rt_node : pystr; rt_host : pystr; rt_sequence : Z }.
#[export] Instance route_eq_dec : EqDecision route.
Proof. solve_decision. Defined.

Record policy := Policy {
  pl_sha : pystr;
  pl_generation : Z;
  pl_legacy : pystr;
  pl_admit : pystr;
  pl_catalogs : list (pystr * pyval);
  pl_routes : list (pystr * route);
}.

(** What the loop over the records has collected. *)
Record building := Building {
  bl_catalogs : list (pystr * pyval);
  bl_routes : list (pystr * route);
  bl_sequences : list Z;
  bl_hosts : list (pystr * pystr);
  bl_countries : option bytes;
}.

Section Routing.
Context {RN : Rns} {ED : Ed25519} (float_repr : spec_float → pystr).

(** [digest(raw)] *)
Definition digest (raw : bytes) : pystr := tohex (full_hash raw).

(** [canonical(value)], with [allow_nan=False] *)
Definition strict_canonical (v : pyval) : result bytes :=
  require (finite_floats v) (ValueError "Out of range float values are not JSON compliant");;
  canonical float_repr v.

(** The signed payload of an envelope, read again. *)
Definition payload_of (envelope : pyval) : result (list (pyval * pyval)) :=
  e ← of_option TypeError (as_dict envelope);
  p ← item "payload" e;
  s ← of_option TypeError (as_str p);
  raw ← of_option (ValueError "binascii.Error") (b64decode s);
  v ← parse_octets raw;
  of_option TypeError (as_dict v).

Definition gateways_of (payload : list (pyval * pyval)) : result (list (list (pyval * pyval))) :=
  g ← item "gateways" payload;
  l ← of_option TypeError (as_list g);
  mapR (λ v, of_option TypeError (as_dict v)) l.

(** [{item['country']: item for item in payload['gateways']}] *)
Definition by_country (payload : list (pyval * pyval)) : result (list (pystr * list (pyval * pyval))) :=
  l ← gateways_of payload;
  pairs ← mapR (λ d, c ← item "country" d; s ← of_option TypeError (as_str c); Ok (s, d)) l;
  Ok (dict_of pairs).

(** [gateway['tcp']['server']] *)
Definition server_of (gateway : list (pyval * pyval)) : result pyval :=
  t ← item "tcp" gateway;
  d ← of_option TypeError (as_dict t);
  item "server" d.

(** One turn of the loop over the policy's records. *)
Definition policy_record (anchor : bytes) (catalogs : list (pystr * bytes)) (b : building) (record : pyval) : result building :=
  d ← required (as_dict record);
  insist (keys_are ["node"; "sha256"]%string d);;
  node ← item "node" d;
  node ← required (as_str node);
  insist (node_name node);;
  sha ← item "sha256" d;
  sha ← required (as_str sha);
  insist (hex_match 64 sha);;
  insist (negb (dmem sha (bl_catalogs b)));;
  raw ← required (dget sha catalogs);
  insist (str_eqb (digest raw) sha);;
  envelope ← parse_octets raw;
  verified ← verify_catalog float_repr envelope anchor 0 None 2;
  insist (negb (existsb (Z.eqb (cl_sequence verified)) (bl_sequences b)));;
  payload ← payload_of envelope;
  gateways ← by_country payload;
  ru ← of_option KeyError (dget (py "ru") gateways);
  ru ← strict_canonical (PDict ru);
  insist (match bl_countries b with None => true | Some c => str_eqb c ru end);;
  nl ← of_option KeyError (dget (py "nl") gateways);
  server ← server_of nl;
  host ← address_of server;
  awg ← item "awg" nl;
  awg ← of_option TypeError (as_str awg);
  insist (bool_decide (endpoint_hosts awg = [host]));;
  insist (match dget node (bl_hosts b) with None => true | Some h => str_eqb h host end);;
  insist (forallb (λ p, str_eqb p.1 node || negb (str_eqb p.2 host)) (bl_hosts b));;
  Ok (Building (dset sha envelope (bl_catalogs b))
        (dset sha (Route node host (cl_sequence verified)) (bl_routes b))
        (cl_sequence verified :: bl_sequences b) (dset node host (bl_hosts b)) (Some ru)).

(** [Policy(raw, anchor, catalogs)] *)
Definition new_policy (raw anchor : bytes) (catalogs : list (pystr * bytes)) : result policy :=
  v ← parse_octets raw;
  d ← of_option TypeError (as_dict v);
  insist (keys_are ["schema"; "generation"; "legacy"; "admit"; "catalogs"]%string d);;
  schema ← item "schema" d;
  insist (bool_decide (as_int schema = Some 1));;
  generation ← item "generation" d;
  generation ← required (as_int generation);
  insist ((0 <? generation) && (generation <? 2 ^ 53));;
  records ← item "catalogs" d;
  records ← required (as_list records);
  insist (in_range 1 32 (zlen records));;
  b ← foldR (policy_record anchor catalogs) (Building [] [] [] [] None) records;
  legacy ← item "legacy" d;
  legacy ← required (as_str legacy);
  old ← required (dget legacy (bl_routes b));
  admit_ ← item "admit" d;
  admit_ ← required (as_str admit_);
  new ← required (dget admit_ (bl_routes b));
  insist (rt_sequence old <=? rt_sequence new);;
  Ok (Policy (digest raw) generation legacy admit_ (bl_catalogs b) (bl_routes b)).

(** The offline authority's key, as its file holds it. *)
Definition read_anchor (d : private_dir) : result bytes :=
  raw ← private_read d (py "anchor.pub") 128;
  of_option (ValueError "binascii.Error") (b64decode (strip_of [32; 9; 10; 11; 12; 13] raw)).

(** One catalog of the policy's list, by its hash. *)
Definition load_catalog (d : private_dir) (record : pyval) : result (pystr * bytes) :=
  r ← required (as_dict record);
  sha ← required (lookup_str "sha256" r);
  sha ← required (as_str sha);
  insist (hex_match 64 sha);;
  raw ← private_read d (sha ++ py ".catalog.json") 16384;
  Ok (sha, raw).

(** [Policy.load(root, sha256)] *)
Definition load_policy (d : private_dir) (v : pyval) : result policy :=
  sha ← required (as_str v);
  insist (hex_match 64 sha);;
  raw ← private_read d (sha ++ py ".policy.json") 16384;
  insist (str_eqb (digest raw) sha);;
  v ← parse_octets raw;
  value ← of_option AttributeError (as_dict v);
  anchor ← read_anchor d;
  records ← required (lookup_str "catalogs" value);
  records ← required (as_list records);
  insist (zlen records <=? 32);;
  catalogs ← mapR (load_catalog d) records;
  new_policy raw anchor (dict_of catalogs).

(** ** The tables *)

Record assignment := Assignment { as_sha : pystr; as_node : pystr; as_sequence : Z }.
Record route_event := RouteEvent { re_request : pystr; re_device : pystr; re_previous : pystr; re_catalog : pystr }.
Record selection_event := SelectionEvent { se_request : pystr; se_catalog : pystr; se_policy : pystr; se_sequence : Z }.

(** [gateway_routing_state] has one row from the transaction that creates it;
    the two other tables are created with it. *)
Record routing_tables := RoutingTables {
  tb_policy : pystr;
  tb_generation : Z;
  tb_assignments : list (pystr * assignment);
  tb_events : list (pystr * route_event);
}.
Record routing_db := RoutingDb {
  db_registry : registry;
  db_routing : option routing_tables;
  db_selection : option (list (pystr * selection_event));
}.

Definition set_routing (t : routing_tables) : M routing_db () :=
  modify (λ s, RoutingDb (db_registry s) (Some t) (db_selection s)).
Definition set_selection (l : list (pystr * selection_event)) : M routing_db () :=
  modify (λ s, RoutingDb (db_registry s) (db_routing s) (Some l)).
Definition check (b : bool) : M routing_db () := lift (insist b).

(** An answer of the module: a dict with literal names. *)
Abbreviation answer := (list (string * pyval)).
Definition answered (result : string) (l : answer) : answer := ("result"%string, PStr (py result)) :: l.

(** [replayed(database, operation_id, request_hash)] *)
Definition replayed (events : list (pystr * route_event)) (id hash : pystr) : result bool :=
  match dget id events with
  | None => Ok false
  | Some e => insist (str_eqb (re_request e) hash);; Ok true
  end.

(** [digest(canonical(dict(...)))] *)
Definition request_digest (l : answer) : result pystr :=
  digest <$> strict_canonical (PDict (List.map (λ p, (PStr (py p.1), p.2)) l)).

Definition in_force (p : policy) (t : routing_tables) : bool :=
  str_eqb (tb_policy t) (pl_sha p) && (tb_generation t =? pl_generation p).

(** The device's row joined with its invitation. *)
Definition active_device (g : registry) (device : pystr) : bool :=
  match dget device (rg_devices g), invite_of device g with
  | Some d, Some i => negb (dv_revoked d) && negb (iv_revoked i)
  | _, _ => false
  end.

(** [install(access, policy, legacy_raw, operation_id=...)] *)
Definition install (p : policy) (legacy : bytes) (id : pyval) : M routing_db answer :=
  check (str_eqb (digest legacy) (pl_legacy p));;
  id ← lift (operation id);
  hash ← lift (request_digest [("action", PStr (py "install")); ("policy", PStr (pl_sha p))]%string);
  transaction (
    s ← get_state;
    match db_routing s with
    | Some t =>
        check (in_force p t);;
        seen ← lift (replayed (tb_events t) id hash);
        check seen;;
        mret (answered "UNCHANGED" [("policy_sha256"%string, PStr (pl_sha p))])
    | None =>
        r ← lift (of_option KeyError (dget (pl_legacy p) (pl_routes p)));
        let rows := List.map (λ d, (d.1, Assignment (pl_legacy p) (rt_node r) (rt_sequence r))) (rg_devices (db_registry s)) in
        set_routing (RoutingTables (pl_sha p) (pl_generation p) rows [(id, RouteEvent hash [] (pl_legacy p) (pl_sha p))]);;
        mret (answered "INSTALLED" [("policy_sha256", PStr (pl_sha p)); ("preserved_devices", PInt (zlen rows))]%string)
    end).

(** [set(previous.catalogs) <= set(replacement.catalogs)], with equal routes *)
Definition retains (previous replacement : policy) : bool :=
  forallb (λ c, dmem c.1 (pl_catalogs replacement)) (pl_catalogs previous)
  && forallb (λ r, bool_decide (dget r.1 (pl_routes replacement) = dget r.1 (pl_routes previous))) (pl_routes previous).

(** [replace_policy(access, previous, replacement, operation_id=...)] *)
Definition replace_policy (previous replacement : policy) (id : pyval) : M routing_db answer :=
  check (pl_generation previous <? pl_generation replacement);;
  check (str_eqb (pl_legacy previous) (pl_legacy replacement));;
  check (retains previous replacement);;
  id ← lift (operation id);
  hash ← lift (request_digest [("action", PStr (py "replace-policy")); ("previous", PStr (pl_sha previous)); ("policy", PStr (pl_sha replacement))]%string);
  transaction (
    s ← get_state;
    t ← lift (required (db_routing s));
    check (str_eqb (tb_policy t) (pl_sha previous) || str_eqb (tb_policy t) (pl_sha replacement));;
    let expected := if str_eqb (tb_policy t) (pl_sha previous) then previous else replacement in
    check (tb_generation t =? pl_generation expected);;
    seen ← lift (replayed (tb_events t) id hash);
    if seen : bool then mret (answered "UNCHANGED" [("policy_sha256"%string, PStr (pl_sha replacement))])
    else
      check (str_eqb (tb_policy t) (pl_sha previous));;
      set_routing (RoutingTables (pl_sha replacement) (pl_generation replacement) (tb_assignments t)
        (tb_events t ++ [(id, RouteEvent hash [] (pl_sha previous) (pl_sha replacement))]));;
      mret (answered "POLICY_INSTALLED" [("policy_sha256"%string, PStr (pl_sha replacement))])).

(** [assign(database, policy, device)] *)
Definition assign (p : policy) (device : pyval) : M routing_db pystr :=
  check (is_device device);;
  let device := str_or_empty device in
  s ← get_state;
  (if active_device (db_registry s) device then mret () else raise Rejected);;
  t ← lift (of_option SqliteError (db_routing s));
  match dget device (tb_assignments t) with
  | None =>
      r ← lift (of_option KeyError (dget (pl_admit p) (pl_routes p)));
      set_routing (RoutingTables (tb_policy t) (tb_generation t)
        (tb_assignments t ++ [(device, Assignment (pl_admit p) (rt_node r) (rt_sequence r))]) (tb_events t));;
      mret (pl_admit p)
  | Some a =>
      r ← lift (required (dget (as_sha a) (pl_routes p)));
      check (str_eqb (as_node a) (rt_node r) && (as_sequence a =? rt_sequence r));;
      mret (as_sha a)
  end.

(** [next(item for item in payload['gateways'] if item[name] == value)] *)
Fixpoint find_gateway (name : string) (value : pystr) (l : list (list (pyval * pyval))) : result (list (pyval * pyval)) :=
  match l with
  | [] => Raise StopIteration
  | d :: l => v ← item name d; if key_is_str value v then Ok d else find_gateway name value l
  end.

(** [configuration(access, root, country, device)] *)
Definition route_configuration (files : routing_files) (country : pystr) (device : pyval) : M routing_db (option (pyval * pystr)) :=
  check (one_of country COUNTRIES);;
  transaction (
    s ← get_state;
    match db_routing s with
    | None => mret None
    | Some t =>
        p ← lift (load_policy (rf_routing files) (PStr (tb_policy t)));
        check (tb_generation t =? pl_generation p);;
        sha ← assign p device;
        envelope ← lift (of_option KeyError (dget sha (pl_catalogs p)));
        payload ← lift (payload_of envelope);
        gateways ← lift (gateways_of payload);
        gateway ← lift (find_gateway "country" country gateways);
        server ← lift (server_of gateway);
        host ← lift (address_of server);
        mret (Some (envelope, host))
    end).

(** [name in policy.routes] and the route of the name *)
Definition route_named (p : policy) (name : pyval) : result (pystr * route) :=
  require (hashable name) TypeError;;
  sha ← required (as_str name);
  r ← required (dget sha (pl_routes p));
  Ok (sha, r).

(** [move(access, policy, device=..., expected=..., destination=..., operation_id=...)] *)
Definition move (p : policy) (device expected destination id : pyval) : M routing_db answer :=
  id' ← lift (operation id);
  '(from, old) ← lift (route_named p expected);
  '(to, new) ← lift (route_named p destination);
  check (rt_sequence old <? rt_sequence new);;
  hash ← lift (request_digest [("action", PStr (py "assign")); ("device", device); ("expected", expected);
    ("destination", destination); ("policy", PStr (pl_sha p)); ("operation_id", id)]%string);
  transaction (
    s ← get_state;
    t ← lift (required (db_routing s));
    check (in_force p t);;
    seen ← lift (replayed (tb_events t) id' hash);
    if seen : bool then mret (answered "UNCHANGED" [("operation_id"%string, PStr id')])
    else
      sha ← assign p device;
      check (str_eqb sha from);;
      s ← get_state;
      t ← lift (required (db_routing s));
      let device := str_or_empty device in
      set_routing (RoutingTables (tb_policy t) (tb_generation t)
        (dset device (Assignment to (rt_node new) (rt_sequence new)) (tb_assignments t))
        (tb_events t ++ [(id', RouteEvent hash device from to)]));;
      mret (answered "ASSIGNED" [("operation_id"%string, PStr id')])).

(** ** The choice of a node *)

(** [current(database)]: the event of the greatest sequence. *)
Definition latest (a b : pystr * selection_event) : pystr * selection_event :=
  if se_sequence a.2 <? se_sequence b.2 then b else a.
Definition current_selection (s : routing_db) : option selection_event :=
  match db_selection s with
  | Some (x :: l) => Some (foldl latest x l).2
  | _ => None
  end.

(** [{key: value for key, value in gateway.items() if key != 'gateway_id'}] *)
Definition without_gateway (d : list (pyval * pyval)) : list (pyval * pyval) :=
  List.filter (λ p, negb (key_is_str (py "gateway_id") p.1)) d.

(** [max(candidates, key=...)]: the first of the newest routes to a node. *)
Definition newer (best : option (pystr * route)) (r : pystr * route) : option (pystr * route) :=
  match best with Some b => if rt_sequence b.2 <? rt_sequence r.2 then Some r else best | None => Some r end.
Definition newest_route (p : policy) (node : pyval) : option pystr :=
  fst <$> foldl newer None (List.filter (λ r, key_is_str (rt_node r.2) node) (pl_routes p)).

(** A gateway of the selection is the template of the newest catalog routed to it. *)
Definition check_choice (p : policy) (gateway : list (pyval * pyval)) : result () :=
  id ← item "gateway_id" gateway;
  sha ← required (newest_route p id);
  envelope ← of_option KeyError (dget sha (pl_catalogs p));
  bound ← payload_of envelope;
  gateways ← gateways_of bound;
  template ← find_gateway "country" (py "nl") gateways;
  insist (py_eqb (PDict (without_gateway gateway)) (PDict template)).

(** [load(root, policy, sha256)] *)
Definition load_selection (d : private_dir) (p : policy) (v : pyval) : result (pyval * list (pyval * pyval) * catalog_floor) :=
  sha ← required (as_str v);
  insist (hex_match 64 sha);;
  raw ← private_read d (sha ++ py ".selection.json") 16384;
  insist (str_eqb (digest raw) sha);;
  anchor ← read_anchor d;
  envelope ← parse_octets raw;
  verified ← verify_catalog float_repr envelope anchor 0 None 3;
  payload ← payload_of envelope;
  gateways ← gateways_of payload;
  mapR (check_choice p) gateways;;
  Ok (envelope, payload, verified).

Definition text_of (v : pyval) : pystr := str_or_empty v.

(** [gateway_selection.install(access, root, request)] *)
Definition install_selection (files : routing_files) (request : list (pyval * pyval)) : M routing_db answer :=
  check (keys_are ["schema"; "action"; "operation_id"; "policy_sha256"; "catalog_sha256"; "previous_sha256"]%string request);;
  id ← lift (item "operation_id" request);
  id ← lift (operation id);
  policy_sha ← lift (item "policy_sha256" request);
  p ← lift (load_policy (rf_routing files) policy_sha);
  catalog_sha ← lift (item "catalog_sha256" request);
  '(_, verified) ← lift (load_selection (rf_routing files) p catalog_sha);
  hash ← lift (digest <$> strict_canonical (PDict request));
  previous_sha ← lift (item "previous_sha256" request);
  transaction (
    s ← get_state;
    t ← lift (required (db_routing s));
    check (str_eqb (tb_policy t) (pl_sha p));;
    let previous := current_selection s in
    check (match previous, previous_sha with None, PNone => true | None, _ => false | Some _, _ => true end);;
    let events := default [] (db_selection s) in
    match dget id events with
    | Some e =>
        check (str_eqb (se_request e) hash);;
        mret (answered "UNCHANGED" [("operation_id"%string, PStr id)])
    | None =>
        check (match previous with
               | Some e => key_is_str (se_catalog e) previous_sha && (se_sequence e <? cl_sequence verified)
               | None => true
               end);;
        lift (require (negb (existsb (λ e, se_sequence e.2 =? cl_sequence verified) events)) SqliteError);;
        set_selection (events ++ [(id, SelectionEvent hash (text_of catalog_sha) (pl_sha p) (cl_sequence verified))]);;
        mret (answered "SELECTION_CATALOG_INSTALLED" [("operation_id", PStr id); ("sequence", PInt (cl_sequence verified));
          ("catalog_sha256", catalog_sha); ("legacy_assignments", PStr (py "UNCHANGED"))]%string)
    end).

(** [gateway_selection.configuration(access, root, gateway_id, device)] *)
Definition selected_configuration (files : routing_files) (gateway_id device : pystr) : M routing_db (pyval * pystr) :=
  check (one_of gateway_id GATEWAY_CHOICES);;
  transaction (
    s ← get_state;
    (if active_device (db_registry s) device then mret () else raise Rejected);;
    e ← lift (required (current_selection s));
    t ← lift (required (db_routing s));
    check (str_eqb (se_policy e) (tb_policy t));;
    p ← lift (load_policy (rf_routing files) (PStr (tb_policy t)));
    '(envelope, payload, verified) ← lift (load_selection (rf_routing files) p (PStr (se_catalog e)));
    check (cl_sequence verified =? se_sequence e);;
    gateways ← lift (gateways_of payload);
    gateway ← lift (find_gateway "gateway_id" gateway_id gateways);
    server ← lift (server_of gateway);
    host ← lift (of_option TypeError (as_str server));
    mret (envelope, host)).

(** ** The operator's requests *)

(** [SELECT node, COUNT( * ) ... GROUP BY node] *)
Definition node_counts (l : list (pystr * assignment)) : list (pystr * Z) :=
  let nodes := remove_dups (List.map (λ r, as_node r.2) l) in
  List.map (λ n, (n, zlen (List.filter (λ r, str_eqb (as_node r.2) n) l))) nodes.

Definition routing_status (files : routing_files) : M routing_db answer :=
  transaction (
    s ← get_state;
    match db_routing s with
    | None => mret (answered "LEGACY_SINGLE_NL" [("mutations"%string, PInt 0)])
    | Some t =>
        p ← lift (load_policy (rf_routing files) (PStr (tb_policy t)));
        check (tb_generation t =? pl_generation p);;
        let counts := node_counts (tb_assignments t) in
        check (forallb (λ c, existsb (λ r, str_eqb (rt_node r.2) c.1) (pl_routes p)) counts);;
        mret (answered "ROUTING_CONFIGURED" [("policy_sha256", PStr (pl_sha p));
          ("assigned_counts", PDict (List.map (λ c, (PStr c.1, PInt c.2)) counts)); ("mutations", PInt 0);
          ("dataplane_acceptance", PStr (py "NOT_CHECKED")); ("restricted_routing", PStr (py "UNCHANGED"))]%string)
    end).

(** [dict(result, operation_id=..., dataplane_acceptance=..., restricted_routing=...)] *)
Definition with_disclaimer (id : pystr) (a : answer) : answer :=
  dset "restricted_routing"%string (PStr (py "UNCHANGED")) (dset "dataplane_acceptance"%string (PStr (py "NOT_CHECKED"))
    (dset "operation_id"%string (PStr id) a)).

Inductive routing_action := InstallSelection | Install | ReplacePolicy | Assign | Status.

(** The action of a request and the names it must have. *)
Definition action_of (v : pyval) : option (routing_action * list string) :=
  match v with
  | PStr s =>
      let common := ["schema"; "action"; "operation_id"; "policy_sha256"]%string in
      if str_eqb s (py "install-selection") then Some (InstallSelection, [])
      else if str_eqb s (py "install") then Some (Install, common ++ ["legacy_sha256"]%string)
      else if str_eqb s (py "replace-policy") then Some (ReplacePolicy, common ++ ["previous_policy_sha256"]%string)
      else if str_eqb s (py "assign") then Some (Assign, common ++ ["device"; "expected"; "destination"]%string)
      else if str_eqb s (py "status") then Some (Status, ["schema"; "action"]%string)
      else None
  | _ => None
  end.

(** [administer(access, root, request)] *)
Definition administer (files : routing_files) (request : pyval) : M routing_db answer :=
  d ← lift (required (as_dict request));
  schema ← lift (required (lookup_str "schema" d));
  check (bool_decide (as_int schema = Some 1));;
  '(action, l) ← lift (required (lookup_str "action" d ≫= action_of));
  match action with
  | InstallSelection => install_selection files d
  | _ =>
      check (keys_are l d);;
      match action with
      | Status => routing_status files
      | _ =>
          raw_id ← lift (item "operation_id" d);
          id ← lift (operation raw_id);
          sha ← lift (item "policy_sha256" d);
          p ← lift (load_policy (rf_routing files) sha);
          a ← match action with
              | Install =>
                  legacy ← lift (private_read (rf_root files) (py "catalog.json") 16384);
                  expected ← lift (item "legacy_sha256" d);
                  check (key_is_str (digest legacy) expected);;
                  install p legacy raw_id
              | ReplacePolicy =>
                  old ← lift (item "previous_policy_sha256" d);
                  previous ← lift (load_policy (rf_routing files) old);
                  replace_policy previous p raw_id
              | _ =>
                  device ← lift (item "device" d);
                  expected ← lift (item "expected" d);
                  destination ← lift (item "destination" d);
                  move p device expected destination raw_id
              end;
          mret (with_disclaimer id a)
      end
  end.
End Routing.
