(* ===== verification/GatewayRoutingSpec.v ===== *)
(** What the gateway routing keeps true: a policy is determined by its files,
    every assignment is a route of the policy in force, and nothing moves a
    device but a recorded request. *)
From Stdlib Require Import ZArith Lia Sorted.
From S2P Require Import Prelude PyData Json JsonText Ipaddress Rns Ack DeviceProof Registry Referrals PaidBeta.
From S2P Require Import TransportPolicy Journal RegistrySpec ProfileConfig FriendsCatalog GatewayRouting.

Local Open Scope Z_scope.

(** ** The steps of a transaction *)

Lemma routing_check_Ok b s u s' : check b s = (Ok u, s') ↔ b = true ∧ s' = s.
Proof. unfold check, insist. rewrite lift_Ok, require_Ok. done. Qed.

Ltac inv_g1 :=
  match goal with
  | H : get_state _ = (Ok _, _) |- _ => apply get_state_Ok in H as [-> ->]
  | H : check _ _ = (Ok _, _) |- _ => let E := fresh "E" in apply routing_check_Ok in H as [E ->]
  | H : (if _ then mret () else raise _) _ = (Ok _, _) |- _ => let E := fresh "E" in apply guard_Ok in H as [E ->]
  | H : set_routing _ _ = (Ok _, _) |- _ => apply modify_Ok in H as ->
  | H : set_selection _ _ = (Ok _, _) |- _ => apply modify_Ok in H as ->
  | H : required _ = Ok _ |- _ => apply of_option_Ok in H
  | H : insist _ = Ok _ |- _ => apply require_Ok in H
  end.
Ltac inv_g := repeat (first [inv_m1 | inv_g1]; cbv beta iota zeta in * |-).

(** Run a computation whose steps are all known. *)
Ltac rerun :=
  repeat match goal with H : ?m = _ |- context [?m] => rewrite H; cbn [of_option require mbind result_bind] end.

(** ** Catalogs *)

Lemma any_error_Ok {A} msg (m : result A) a : any_error msg m = Ok a ↔ m = Ok a.
Proof. unfold any_error. destruct m; simpl; split; congruence. Qed.

Section Policies.
Context {RN : Rns} {ED : Ed25519} (float_repr : spec_float → pystr).
Abbreviation load_policy := (load_policy float_repr).
Abbreviation new_policy := (new_policy float_repr).
Abbreviation policy_record := (policy_record float_repr).

(** The anchor signed the envelope's payload, and the catalog in it is the one
    with this sequence and hash. *)
Definition catalog_signed (anchor : bytes) (envelope : pyval) (schema : Z) (f : catalog_floor) : Prop :=
  ∃ d raw signature c, as_dict envelope = Some d ∧ payload_octets d = Ok raw
    ∧ ed_verify anchor signature (CATALOG_DOMAIN ++ raw) = true
    ∧ read_catalog float_repr raw 0 None schema = Ok c ∧ cl_sequence f = ct_sequence c ∧ cl_hash f = tohex (full_hash raw).

Lemma signed_payload_Ok e anchor raw : signed_payload float_repr e anchor = Ok raw →
  ∃ d signature, as_dict e = Some d ∧ payload_octets d = Ok raw ∧ ed_verify anchor signature (CATALOG_DOMAIN ++ raw) = true.
Proof.
  unfold signed_payload, fields_of. intros H. repeat inv_ok1. subst. eauto 6.
Qed.

Lemma read_catalog_Ok raw floor previous schema c : read_catalog float_repr raw floor previous schema = Ok c →
  Z.max 1 floor <= ct_sequence c <= MAX_SEQUENCE ∧ ct_hash c = tohex (full_hash raw)
  ∧ ∀ h, previous = Some h → ct_sequence c = floor → ct_hash c = h.
Proof.
  unfold read_catalog, need. intros H. repeat inv_ok1. subst c. simpl. bools. split_and!; [lia..|done|].
  intros h -> E. repeat inv_ok1.
  repeat match goal with H : _ || _ = true |- _ => apply orb_true_iff in H as [?|?] end; sbools; congruence.
Qed.

Lemma verify_catalog_signed e anchor schema f :
  verify_catalog float_repr e anchor 0 None schema = Ok f → catalog_signed anchor e schema f.
Proof.
  unfold verify_catalog. rewrite any_error_Ok. intros H. inv_ok1. inv_ok1. inv_ok1. subst f.
  destruct (signed_payload_Ok _ _ _ Ha) as (d & s & ? & ? & ?). exists d, a, s, a0. split_and!; try done.
  cbn. by destruct (read_catalog_Ok _ _ _ _ _ Ha0) as (_ & ? & _).
Qed.

(** ** What a policy serves *)

(** The envelope is the verified catalog of this hash, and its Dutch gateway is
    the host of the route. *)
Definition served (anchor : bytes) (sha : pystr) (envelope : pyval) (r : route) : Prop :=
  ∃ raw f payload gateways nl server, digest raw = sha ∧ parse_octets raw = Ok envelope
    ∧ verify_catalog float_repr envelope anchor 0 None 2 = Ok f ∧ cl_sequence f = rt_sequence r
    ∧ payload_of envelope = Ok payload ∧ by_country payload = Ok gateways ∧ dget (py "nl") gateways = Some nl
    ∧ server_of nl = Ok server ∧ address_of server = Ok (rt_host r).

Record built (anchor : bytes) (b : building) : Prop := {
  bu_routes sha r : dget sha (bl_routes b) = Some r →
    ∃ e, dget sha (bl_catalogs b) = Some e ∧ served anchor sha e r ∧ rt_sequence r ∈ bl_sequences b;
  bu_catalogs sha e : dget sha (bl_catalogs b) = Some e → is_Some (dget sha (bl_routes b));
  bu_unique s1 s2 r1 r2 : dget s1 (bl_routes b) = Some r1 → dget s2 (bl_routes b) = Some r2 →
    rt_sequence r1 = rt_sequence r2 → s1 = s2;
  bu_hosts sha r : dget sha (bl_routes b) = Some r → dget (rt_node r) (bl_hosts b) = Some (rt_host r);
}.

Lemma policy_record_built anchor catalogs b v b' :
  built anchor b → policy_record anchor catalogs b v = Ok b' → built anchor b'.
Proof.
  intros [B1 B2 B3 B4] H. unfold GatewayRouting.policy_record, insist, required in H. cbv zeta in H.
  repeat inv_ok1. subst b'. sbools. subst.
  match goal with H : existsb _ _ = false |- _ => rename H into Hnew end.
  match goal with H : dmem ?s _ = false |- _ => set (sha := s) in *; apply dmem_false, dget_None in H; rename H into Hsha end.
  match goal with H : verify_catalog _ ?e _ _ _ _ = Ok ?f |- _ => set (env := e) in *; set (fl := f) in *; rename H into Hv end.
  assert (∀ s r, dget s (bl_routes b) = Some r → rt_sequence r ≠ cl_sequence fl) as Hfresh.
  { intros s r Hr E. destruct (B1 _ _ Hr) as (_ & _ & _ & Hin). rewrite E in Hin.
    apply not_true_iff_false in Hnew. apply Hnew, existsb_exists. eexists. split; [by apply list_elem_of_In|apply Z.eqb_refl]. }
  split; simpl; intros *; rewrite ?dget_dset.
  - case_decide as E; [intros [= <-]|].
    + eexists. split_and!; [done| |left]. unfold served. eauto 20.
    + intros Hr. destruct (B1 _ _ Hr) as (e & ? & ? & ?). exists e. split_and!; [done..|by right].
  - case_decide as E; [intros _; by eexists|apply B2].
  - case_decide as E1; case_decide as E2; [congruence|intros [= <-] Hr; simpl|intros Hr [= <-]; simpl|apply B3].
    + intros Heq. by destruct (Hfresh _ _ Hr).
    + intros Heq. by destruct (Hfresh _ _ Hr).
  - case_decide as E; [intros [= <-]; simpl; by rewrite decide_True|].
    intros Hr. pose proof (B4 _ _ Hr) as Hh. case_decide as En; [|done]. subst.
    match goal with H : match dget ?n _ with _ => _ end = true |- _ => rewrite Hh in H; apply str_eqb_eq in H end. congruence.
Qed.

Record policy_ok (anchor : bytes) (p : policy) : Prop := {
  po_routes sha r : dget sha (pl_routes p) = Some r → ∃ e, dget sha (pl_catalogs p) = Some e ∧ served anchor sha e r;
  po_catalogs sha e : dget sha (pl_catalogs p) = Some e → is_Some (dget sha (pl_routes p));
  po_unique s1 s2 r1 r2 : dget s1 (pl_routes p) = Some r1 → dget s2 (pl_routes p) = Some r2 →
    rt_sequence r1 = rt_sequence r2 → s1 = s2;
  po_hosts s1 s2 r1 r2 : dget s1 (pl_routes p) = Some r1 → dget s2 (pl_routes p) = Some r2 →
    rt_node r1 = rt_node r2 → rt_host r1 = rt_host r2;
  po_order : ∃ r1 r2, dget (pl_legacy p) (pl_routes p) = Some r1 ∧ dget (pl_admit p) (pl_routes p) = Some r2
    ∧ rt_sequence r1 <= rt_sequence r2;
  po_generation : 0 < pl_generation p < 2 ^ 53;
}.

Lemma new_policy_ok raw anchor catalogs p : new_policy raw anchor catalogs = Ok p → pl_sha p = digest raw ∧ policy_ok anchor p.
Proof.
  unfold GatewayRouting.new_policy, insist, required. intros H. repeat inv_ok1. subst p. bools.
  match goal with H : foldR _ _ _ = Ok ?b |- _ => rename H into Hf, b into bl end.
  assert (built anchor bl) as [B1 B2 B3 B4].
  { eapply (foldR_inv (built anchor)); [intros; by eapply policy_record_built| |exact Hf]. by split. }
  split; [done|]. split; simpl; [|done|done| |eauto|lia].
  - intros sha r Hr. destruct (B1 _ _ Hr) as (e & ? & ? & _). eauto.
  - intros s1 s2 r1 r2 H1 H2 E. apply B4 in H1, H2. congruence.
Qed.

(** The envelopes are what the catalog files hold. *)
Lemma policy_record_files anchor catalogs b v b' : policy_record anchor catalogs b v = Ok b' →
  (∀ sha e, dget sha (bl_catalogs b) = Some e → ∃ raw, dget sha catalogs = Some raw ∧ parse_octets raw = Ok e) →
  ∀ sha e, dget sha (bl_catalogs b') = Some e → ∃ raw, dget sha catalogs = Some raw ∧ parse_octets raw = Ok e.
Proof.
  intros H Hb sha e. unfold GatewayRouting.policy_record, insist, required in H. cbv zeta in H. repeat inv_ok1. subst b'. simpl.
  rewrite dget_dset. match goal with |- context [decide (?s = sha)] => destruct (decide (s = sha)) as [<-|] end; [|apply Hb].
  intros [= <-]. eauto.
Qed.

(** ** Files that are never rewritten *)

(** What can be read from [d] reads the same from [e]. *)
Definition agree (e d : private_dir) : Prop :=
  ∀ name limit raw, private_read d name limit = Ok raw → private_read e name limit = Ok raw.

Lemma agree_refl d : agree d d.
Proof. by intros ?. Qed.

Lemma read_anchor_agree e d raw : agree e d → read_anchor d = Ok raw → read_anchor e = Ok raw.
Proof. unfold read_anchor. intros Ha H. inv_ok1. rewrite (Ha _ _ _ Ha0). exact H. Qed.

Lemma load_catalog_agree e d v x : agree e d → load_catalog d v = Ok x → load_catalog e v = Ok x.
Proof.
  intros Ha H. unfold load_catalog, insist, required in *. repeat inv_ok1. subst x.
  match goal with H : private_read d _ _ = Ok _ |- _ => apply Ha in H end. by rerun.
Qed.

Lemma load_policy_agree e d v p : agree e d → load_policy d v = Ok p → load_policy e v = Ok p.
Proof.
  intros Ha H. unfold GatewayRouting.load_policy, insist, required in *. repeat inv_ok1.
  repeat match goal with
  | H : private_read d _ _ = Ok _ |- _ => apply Ha in H
  | H : read_anchor d = Ok _ |- _ => apply (read_anchor_agree _ _ _ Ha) in H
  end.
  match goal with H : mapR _ ?l = Ok ?l' |- _ =>
    assert (mapR (load_catalog e) l = Ok l') by
      (apply mapR_Forall2; apply mapR_Forall2 in H; eapply Forall2_impl; [exact H|]; intros; by eapply load_catalog_agree) end.
  by rerun.
Qed.

Lemma mapR_elem_r {A B} (f : A → result B) l l' y : mapR f l = Ok l' → y ∈ l' → ∃ x, f x = Ok y.
Proof.
  rewrite mapR_Forall2. induction 1 as [|x z l l' Hx _ IH]; intros Hy; [by apply not_elem_of_nil in Hy|].
  apply elem_of_cons in Hy as [->|]; eauto.
Qed.

Lemma new_policy_files raw anchor catalogs p sha e : new_policy raw anchor catalogs = Ok p →
  dget sha (pl_catalogs p) = Some e → ∃ r, dget sha catalogs = Some r ∧ parse_octets r = Ok e.
Proof.
  unfold GatewayRouting.new_policy, insist, required. intros H. repeat inv_ok1. subst p. simpl.
  match goal with Hf : foldR _ _ _ = Ok ?b |- _ => revert Hf; generalize b end. intros bl Hf. revert sha e.
  eapply (foldR_inv (λ b, ∀ sha e, dget sha (bl_catalogs b) = Some e → ∃ r, dget sha catalogs = Some r ∧ parse_octets r = Ok e));
    [| |exact Hf]; [intros; by eapply policy_record_files|by intros].
Qed.

Lemma load_policy_files d v p sha e : load_policy d v = Ok p → dget sha (pl_catalogs p) = Some e →
  ∃ raw, private_read d (sha ++ py ".catalog.json") 16384 = Ok raw ∧ parse_octets raw = Ok e.
Proof.
  unfold GatewayRouting.load_policy. intros H He. repeat inv_ok1.
  destruct (new_policy_files _ _ _ _ _ _ H He) as (raw & Hraw & Hp). exists raw. split; [|done]. apply dict_of_elem in Hraw.
  destruct (mapR_elem_r _ _ _ _ Ha9 Hraw) as (x & Hx).
  unfold load_catalog, insist, required in Hx. repeat inv_ok1. by simplify_eq.
Qed.

Lemma load_policy_Ok d v p : load_policy d v = Ok p → v = PStr (pl_sha p) ∧ ∃ anchor, read_anchor d = Ok anchor ∧ policy_ok anchor p.
Proof.
  unfold GatewayRouting.load_policy, insist, required. intros H. repeat inv_ok1. destruct v; simplify_eq/=. sbools.
  destruct (new_policy_ok _ _ _ _ H) as [Hs Hp]. rewrite Hs. split; [congruence|eauto].
Qed.

(** ** The invariant *)

(** The assignment is a route of the policy. *)
Definition follows (p : policy) (a : assignment) : Prop :=
  ∃ r, dget (as_sha a) (pl_routes p) = Some r ∧ as_node a = rt_node r ∧ as_sequence a = rt_sequence r.

Record tables_ok (d : private_dir) (t : routing_tables) (p : policy) : Prop := {
  to_policy : load_policy d (PStr (tb_policy t)) = Ok p;
  to_generation : tb_generation t = pl_generation p;
  to_devices : NoDup (dkeys (tb_assignments t));
  to_events : NoDup (dkeys (tb_events t));
  to_follow device a : dget device (tb_assignments t) = Some a → follows p a;
}.

Record selection_ok (l : list (pystr * selection_event)) : Prop := {
  so_ids : NoDup (dkeys l);
  so_order : StronglySorted Z.lt (se_sequence <$> l.*2);
}.

(** [d] holds every file the operator ever wrote. *)
Record routed (d : private_dir) (s : routing_db) : Prop := {
  ro_devices : NoDup (dkeys (rg_devices (db_registry s)));
  ro_tables t : db_routing s = Some t → ∃ p, tables_ok d t p;
  ro_selection l : db_selection s = Some l → selection_ok l;
}.

(** ** What only grows *)

(** The policy's generation rises with every change of policy; events are
    appended; a device keeps its assignment unless one of them names it, and its
    catalog is never replaced by an older one. *)
Definition advances (t t' : routing_tables) : Prop :=
  tb_generation t <= tb_generation t' ∧ (tb_generation t = tb_generation t' → tb_policy t = tb_policy t')
  ∧ ∃ new, tb_events t' = tb_events t ++ new ∧ ∀ device a, dget device (tb_assignments t) = Some a →
      ∃ a', dget device (tb_assignments t') = Some a' ∧ (a' = a ∨ as_sequence a < as_sequence a')
        ∧ (Forall (λ e, re_device e.2 ≠ device) new → a' = a).

Definition db_advances (s s' : routing_db) : Prop :=
  (∀ t, db_routing s = Some t → ∃ t', db_routing s' = Some t' ∧ advances t t')
  ∧ (∀ l, db_selection s = Some l → ∃ l', db_selection s' = Some (l ++ l')).

#[export] Instance advances_preorder : PreOrder advances.
Proof.
  split.
  - intros t. split_and!; [lia|done|]. exists []. rewrite app_nil_r. eauto 6.
  - intros t1 t2 t3 (G1 & P1 & n1 & E1 & A1) (G2 & P2 & n2 & E2 & A2). split_and!; [lia| |].
    { intros E. rewrite P1, P2; [done|lia|lia]. }
    exists (n1 ++ n2). rewrite E2, E1, app_assoc. split; [done|]. intros device a Ha.
    destruct (A1 _ _ Ha) as (a1 & Ha1 & S1 & K1). destruct (A2 _ _ Ha1) as (a2 & Ha2 & S2 & K2).
    exists a2. split_and!; [done| |].
    + destruct S1 as [->|S1], S2 as [->|S2]; auto; right; lia.
    + intros [F1 F2]%Forall_app. rewrite (K2 F2). auto.
Qed.

#[export] Instance db_advances_preorder : PreOrder db_advances.
Proof.
  split.
  - intros s. split; [intros t Ht; by exists t|]. intros l Hl. exists []. by rewrite app_nil_r.
  - intros s1 s2 s3 [T1 L1] [T2 L2]. split.
    + intros t Ht. destruct (T1 _ Ht) as (t2 & Ht2 & A1). destruct (T2 _ Ht2) as (t3 & ? & A2).
      exists t3. split; [done|by etrans].
    + intros l Hl. destruct (L1 _ Hl) as (l1 & Hl1). destruct (L2 _ Hl1) as (l2 & ?).
      exists (l1 ++ l2). by rewrite app_assoc.
Qed.

Definition moves (d : private_dir) (s s' : routing_db) : Prop := routed d s' ∧ db_advances s s'.

Lemma moves_refl d s : routed d s → moves d s s.
Proof. by split. Qed.

(** A change of the routing tables alone. *)
Lemma moves_tables d s t t' p : routed d s → db_routing s = Some t → tables_ok d t' p → advances t t' →
  moves d s (RoutingDb (db_registry s) (Some t') (db_selection s)).
Proof.
  intros [R1 R2 R3] Ht Ho Ha. split; [split; simpl; [done| |done]|split; simpl].
  - intros ? [= <-]. eauto.
  - intros t0 E. rewrite Ht in E. injection E as <-. eauto.
  - intros l Hl. exists []. by rewrite app_nil_r.
Qed.

Lemma routed_policy d s t p : routed d s → db_routing s = Some t → load_policy d (PStr (tb_policy t)) = Ok p → tables_ok d t p.
Proof. intros Hr Ht Hp. destruct (ro_tables _ _ Hr _ Ht) as (q & Hq). pose proof (to_policy _ _ _ Hq). congruence. Qed.

Lemma replayed_Ok events id hash b : replayed events id hash = Ok b →
  if b then ∃ e, dget id events = Some e ∧ re_request e = hash else dget id events = None.
Proof.
  unfold replayed. destruct (dget id events) as [e|] eqn:E; intros H; [|by injection H as <-].
  unfold insist in H. repeat inv_ok1. subst b. sbools. eauto.
Qed.

Lemma NoDup_snoc {A} (l : list A) x : NoDup l → x ∉ l → NoDup (l ++ [x]).
Proof.
  intros Hl Hx. apply NoDup_app. split_and!; [done| |apply NoDup_singleton].
  intros y Hy ->%list_elem_of_singleton. done.
Qed.

Lemma dkeys_snoc {K V} (l : list (K * V)) k v : dkeys (l ++ [(k, v)]) = dkeys l ++ [k].
Proof. unfold dkeys. by rewrite fmap_app. Qed.

(** [assign]: the device is in force, and holds the catalog returned. *)
Lemma assign_Ok d p device s t sha s' :
  routed d s → db_routing s = Some t → tables_ok d t p → assign p device s = (Ok sha, s') →
  moves d s s' ∧ ∃ name t', device = PStr name ∧ hex_match 32 name = true ∧ active_device (db_registry s) name = true
    ∧ db_registry s' = db_registry s ∧ db_routing s' = Some t' ∧ tables_ok d t' p ∧ advances t t' ∧ tb_events t' = tb_events t
    ∧ ∃ a, dget name (tb_assignments t') = Some a ∧ as_sha a = sha.
Proof.
  intros Hr Ht Ho H. unfold assign in H. inv_g. subst. destruct device as [| | | |name| | |]; try done. cbn [is_device str_or_empty as_str default from_option id] in *.
  match goal with H : db_routing _ = Some ?x |- _ => rewrite Ht in H; injection H as <- end.
  destruct (dget name (tb_assignments t)) as [cur|] eqn:Ecur; inv_g; subst.
  - split; [by apply moves_refl|]. exists name, t. split_and!; try done. by exists cur.
  - set (fresh_row := Assignment _ _ _). set (t' := RoutingTables _ _ _ _).
    assert (tables_ok d t' p) as Ho'.
    { destruct Ho as [O1 O2 O3 O4 O5]. split; simpl; try done.
      - rewrite dkeys_snoc. apply NoDup_snoc; [done|]. by apply dget_None.
      - intros x b. rewrite dget_snoc by done. case_decide as Ex; [intros [= <-]|apply O5].
        eexists. split_and!; [eassumption|done..]. }
    assert (advances t t') as Ha.
    { split_and!; [done|done|]. exists []. rewrite app_nil_r. split; [done|]. intros x b Hb. exists b.
      simpl. rewrite dget_snoc by done. split_and!; [|by left|done]. rewrite decide_False; [done|congruence]. }
    split; [by eapply moves_tables|]. exists name, t'. split_and!; try done. exists fresh_row.
    split; [|done]. simpl. rewrite dget_snoc by done. by rewrite decide_True.
Qed.

Lemma operation_Ok v id : operation v = Ok id → v = PStr id.
Proof. unfold operation. intros H. inv_g. repeat inv_ok1. destruct v; simplify_eq/=. inv_g. by simplify_eq/=. Qed.

(** The tables record the request under the operation's name. *)
Definition seen (id hash : pystr) (s : routing_db) : Prop :=
  ∃ t e, db_routing s = Some t ∧ dget id (tb_events t) = Some e ∧ re_request e = hash.

Lemma seen_advances id hash s s' : seen id hash s → db_advances s s' → seen id hash s'.
Proof.
  intros (t & e & Ht & He & Hh) [T _]. destruct (T _ Ht) as (t' & Ht' & _ & _ & new & En & _).
  exists t', e. split_and!; try done. rewrite En. by apply dget_app_l.
Qed.

Lemma snoc_tables_ok d t p id e l : tables_ok d t p → dget id (tb_events t) = None → NoDup (dkeys l) →
  (∀ device a, dget device l = Some a → follows p a) →
  tables_ok d (RoutingTables (tb_policy t) (tb_generation t) l (tb_events t ++ [(id, e)])) p.
Proof.
  intros [O1 O2 O3 O4 O5] He Hl Hf. split; simpl; try done. rewrite dkeys_snoc. apply NoDup_snoc; [done|]. by apply dget_None.
Qed.

Lemma seen_snoc id hash e l t s : db_routing s = Some t → tb_events t = l ++ [(id, e)] → dget id l = None →
  re_request e = hash → seen id hash s.
Proof. intros Ht He Hl Hh. exists t, e. split_and!; [done| |done]. rewrite He, dget_snoc by done. by rewrite decide_True. Qed.

(** [install] seeds every device and acts on an empty database only. *)
Lemma install_done d p legacy id s a s' :
  routed d s → load_policy d (PStr (pl_sha p)) = Ok p → install float_repr p legacy id s = (Ok a, s') →
  moves d s s' ∧ is_Some (db_routing s').
Proof.
  intros Hr Hp H. unfold install in H. inv_g. destruct (db_routing _) as [tb|] eqn:Et; inv_g; subst.
  - split; [by apply moves_refl|by rewrite Et].
  - split; [|by eexists]. set (tb := RoutingTables _ _ _ _).
    assert (tables_ok d tb p) as Ho.
    { split; simpl; try done.
      - unfold dkeys. rewrite <- list_fmap_compose. apply (ro_devices _ _ Hr).
      - apply NoDup_singleton.
      - intros device x Hx%dget_elem. apply list_elem_of_fmap in Hx as (y & [= _ ->] & _). eexists. by split_and!. }
    destruct Hr as [R1 R2 R3]. split; [split; simpl; [done| |done]|split; simpl].
    + intros ? [= <-]. eauto.
    + intros ? ?. congruence.
    + intros l Hl. exists []. by rewrite app_nil_r.
Qed.

Lemma install_again p legacy id s a s' : is_Some (db_routing s) → install float_repr p legacy id s = (Ok a, s') → s' = s.
Proof. intros [t Ht] H. unfold install in H. inv_g. rewrite Ht in *. by inv_g. Qed.

Lemma retains_route previous replacement sha r :
  retains previous replacement = true → dget sha (pl_routes previous) = Some r → dget sha (pl_routes replacement) = Some r.
Proof.
  unfold retains. intros [_ H]%andb_true_iff Hr. rewrite forallb_forall in H.
  specialize (H (sha, r) (proj1 (list_elem_of_In _ _) (dget_elem _ _ _ Hr))). apply bool_decide_eq_true in H. simpl in H. congruence.
Qed.

(** [replace_policy] moves no device. *)
Lemma replace_done d old new id s a s' :
  routed d s → load_policy d (PStr (pl_sha old)) = Ok old → load_policy d (PStr (pl_sha new)) = Ok new →
  replace_policy float_repr old new id s = (Ok a, s') →
  moves d s s' ∧ ∃ name hash, operation id = Ok name ∧ seen name hash s'
    ∧ request_digest float_repr [("action", PStr (py "replace-policy")); ("previous", PStr (pl_sha old)); ("policy", PStr (pl_sha new))]%string = Ok hash.
Proof.
  intros Hr Hold Hnew H. unfold replace_policy in H. inv_g.
  match goal with H : replayed _ _ _ = Ok ?b |- _ => apply replayed_Ok in H; destruct b end.
  - inv_g. subst. split; [by apply moves_refl|]. match goal with H : ∃ _, _ |- _ => destruct H as (e & He & Hh) end.
    eexists _, _. split_and!; try done. unfold seen. eauto 6.
  - inv_g. subst. sbools.
    match goal with H : db_routing _ = Some ?x |- _ => rename x into t, H into Ht end.
    match goal with H : tb_policy t = pl_sha old |- _ => rename H into Hs end.
    rewrite Hs, (proj2 (str_eqb_eq _ _) eq_refl) in *. simpl in *. sbools.
    assert (tables_ok d t old) as Ho by (eapply routed_policy; [done..|by rewrite Hs]).
    split.
    + eapply (moves_tables _ _ t _ new); [done..| |].
      * destruct Ho as [O1 O2 O3 O4 O5]. split; simpl; try done.
        { rewrite dkeys_snoc. apply NoDup_snoc; [done|]. by apply dget_None. }
        intros device x Hx. destruct (O5 _ _ Hx) as (r & Hrt & ? & ?). exists r. split_and!; [|done..]. by eapply retains_route.
      * split_and!; simpl; [lia|lia|]. eexists. split; [done|]. intros device x Hx. exists x. split_and!; [done|by left|done].
    + eexists _, _. split_and!; [done| |done]. by eapply seen_snoc.
Qed.

Lemma replace_again old new id name hash s a s' :
  operation id = Ok name → seen name hash s →
  request_digest float_repr [("action", PStr (py "replace-policy")); ("previous", PStr (pl_sha old)); ("policy", PStr (pl_sha new))]%string = Ok hash →
  replace_policy float_repr old new id s = (Ok a, s') → s' = s.
Proof.
  intros Hid (t & e & Ht & He & Hh) Hd H. unfold replace_policy in H. inv_g. simplify_eq.
  match goal with H : replayed _ _ _ = Ok ?b |- _ => apply replayed_Ok in H; destruct b end; [by inv_g|congruence].
Qed.

Definition move_digest (p : policy) (device expected destination id : pyval) : result pystr :=
  request_digest float_repr [("action", PStr (py "assign")); ("device", device); ("expected", expected);
    ("destination", destination); ("policy", PStr (pl_sha p)); ("operation_id", id)]%string.

Lemma route_named_Ok p v sha r : route_named p v = Ok (sha, r) → v = PStr sha ∧ dget sha (pl_routes p) = Some r.
Proof. unfold route_named. intros H. repeat inv_ok1. inv_g. destruct v; simplify_eq/=. done. Qed.

(** The event of a device that moved from [from] to [to]. *)
Lemma advances_move t id e device from r to :
  dget device (tb_assignments t) = Some from → as_sequence from < rt_sequence r → re_device e = device →
  advances t (RoutingTables (tb_policy t) (tb_generation t)
    (dset device (Assignment to (rt_node r) (rt_sequence r)) (tb_assignments t)) (tb_events t ++ [(id, e)])).
Proof.
  intros Hf Hs He. split_and!; [simpl; lia|done|]. exists [(id, e)]. split; [done|]. intros x a Hx. simpl. rewrite dget_dset.
  case_decide as Ed; [|exists a; split_and!; [done|by left|done]]. subst x. rewrite Hf in Hx. injection Hx as <-.
  eexists. split_and!; [done|by right|]. rewrite Forall_singleton. done.
Qed.

(** [move] takes the device it names forward, from the catalog it names. *)
Lemma move_done d p device expected destination op s a s' :
  routed d s → load_policy d (PStr (pl_sha p)) = Ok p → move float_repr p device expected destination op s = (Ok a, s') →
  moves d s s' ∧ ∃ name hash, operation op = Ok name ∧ seen name hash s' ∧ move_digest p device expected destination op = Ok hash.
Proof.
  intros Hr Hp H. unfold move in H. fold (move_digest p device expected destination op) in H. inv_g.
  match goal with H : operation _ = Ok ?n, H' : move_digest _ _ _ _ _ = Ok ?h |- _ => rename n into opn, h into hash end.
  match goal with H : route_named _ expected = Ok (?f, ?o) |- _ => rename f into from, o into old; apply route_named_Ok in H as [-> Hold] end.
  match goal with H : route_named _ destination = Ok (?f, ?o) |- _ => rename f into to, o into new; apply route_named_Ok in H as [-> Hnew] end.
  match goal with H : replayed _ _ _ = Ok ?b |- _ => apply replayed_Ok in H; destruct b end.
  - inv_g. subst. split; [by apply moves_refl|]. match goal with H : ∃ _, _ |- _ => destruct H as (e & He & Hh) end.
    eexists _, _. split_and!; try done. unfold seen. eauto 6.
  - inv_g. subst. sbools.
    match goal with H : assign _ _ ?x = (Ok _, ?y) |- _ => rename x into s, y into s2, H into Has end.
    match goal with H : db_routing s = Some ?x |- _ => rename x into t, H into Ht end.
    match goal with H : in_force _ _ = true |- _ => unfold in_force in H; sbools; rename H into Hs end.
    assert (tables_ok d t p) as Ho by (eapply routed_policy; [done..|congruence]).
    destruct (assign_Ok _ _ _ _ _ _ _ Hr Ht Ho Has) as (M & name & t' & -> & _ & _ & Hg & Ht' & Ho' & Hadv & Hev & cur & Hcur & Hsha).
    rewrite Ht' in *. match goal with H : Some _ = Some _ |- _ => injection H as <- end. cbn [str_or_empty as_str default from_option id].
    assert (as_sequence cur = rt_sequence old) as Hseq.
    { destruct (to_follow _ _ _ Ho' _ _ Hcur) as (r & Hrt & _ & ->). rewrite Hsha in Hrt. congruence. }
    rewrite <- Hev in *.
    split.
    + destruct M as [R2 A2]. assert (moves d s2 (RoutingDb (db_registry s2) (Some (RoutingTables (tb_policy t') (tb_generation t')
        (dset name (Assignment to (rt_node new) (rt_sequence new)) (tb_assignments t')) (tb_events t' ++ [(opn, RouteEvent hash name from to)]))) (db_selection s2))) as [R3 A3].
      { eapply (moves_tables _ _ t' _ p); [done..| |].
        * apply snoc_tables_ok; [done|done|apply dset_NoDup, Ho'|]. intros x b. rewrite dget_dset. case_decide; [intros [= <-]|apply Ho'].
          by exists new.
        * eapply advances_move; [done|lia|done]. }
      split; [exact R3|by etrans].
    + eexists _, _. split_and!; [done| |done]. by eapply seen_snoc.
Qed.
End Policies.
