(* ===== verification/GatewayRoutingSafety.v ===== *)
(** The gateway routing over all runs: registries that change, operators that
    repeat themselves, devices that ask in between. *)
From Stdlib Require Import ZArith Lia Sorted.
From S2P Require Import Prelude PyData Json JsonText Ipaddress Rns Ack DeviceProof Registry Referrals PaidBeta.
From S2P Require Import TransportPolicy Journal RegistrySpec ProfileConfig FriendsCatalog GatewayRouting GatewayRoutingSpec.

Local Open Scope Z_scope.

Section Safety.
Context {RN : Rns} {ED : Ed25519} (float_repr : spec_float → pystr).
Abbreviation load_policy := (load_policy float_repr).
Abbreviation routed := (routed float_repr).
Abbreviation moves := (moves float_repr).
Abbreviation tables_ok := (tables_ok float_repr).

(** ** The two gateways of a verified catalog *)

Lemma catalog_gateway_region ps v ps' : catalog_gateway float_repr 2 ps v = Ok ps' →
  ∃ d region template, as_dict v = Some d ∧ item "country" d = Ok (PStr region) ∧ dmem region ps = false ∧ ps' = dset region template ps.
Proof.
  unfold catalog_gateway, fields_of, need, as_text. cbn [Z.eqb Pos.eqb]. intros H. repeat inv_ok1. subst.
  repeat match goal with x : (_ * _)%type |- _ => destruct x; repeat inv_ok1; subst end.
  match goal with H : as_str ?v = Some _ |- _ => destruct v; simplify_eq/= end. bools. eauto 8.
Qed.

(** Reading the payload again finds what the verifier read: two gateways of
    different countries. *)
Lemma verified_gateways e anchor f payload l :
  verify_catalog float_repr e anchor 0 None 2 = Ok f → payload_of e = Ok payload → gateways_of payload = Ok l →
  ∃ c1 d1 c2 d2, l = [d1; d2] ∧ c1 ≠ c2 ∧ item "country" d1 = Ok (PStr c1) ∧ item "country" d2 = Ok (PStr c2).
Proof.
  unfold verify_catalog. rewrite any_error_Ok. intros H Hp Hl. inv_ok1. inv_ok1.
  apply signed_payload_Ok in Ha as (d & sg & Hd & Hr & _).
  unfold payload_octets in Hr. repeat inv_ok1. subst a.
  unfold payload_of in Hp. rewrite Hd in Hp. cbn [of_option mbind result_bind] in Hp. rewrite Ha in Hp. cbn [mbind result_bind] in Hp.
  unfold as_text in Ha1. apply of_option_Ok in Ha1. rewrite Ha1 in Hp. cbn [of_option mbind result_bind] in Hp.
  rewrite Ha2 in Hp. cbn [of_option mbind result_bind] in Hp.
  unfold read_catalog, fields_of, need in Ha0. repeat inv_ok1. subst.
  simplify_eq. unfold gateways_of in Hl. repeat inv_ok1. simplify_eq.
  repeat (match goal with H : ?m = Ok ?x, H' : ?m = Ok ?y |- _ => rewrite H in H'; injection H' as <- end; simplify_eq).
  match goal with H : foldR _ _ ?l = Ok _, H' : mapR _ ?l = Ok _ |- _ =>
    rename H into Hf, H' into Hm; destruct l as [|x1 [|x2 [|x3 l3]]]; try done end.
  2: { bools. unfold zlen in *. simpl length in *. lia. }
  cbn [foldR] in Hf. cbn [mapR] in Hm. repeat inv_ok1. subst.
  repeat match goal with H : catalog_gateway _ _ _ _ = Ok _ |- _ =>
    apply catalog_gateway_region in H as (? & ? & ? & ? & ? & ? & ?) end.
  simplify_eq. eexists _, _, _, _. split_and!; [done| |done|done]. intros ->.
  match goal with H : dmem _ (dset _ _ _) = false |- _ => apply dmem_false in H; by destruct H; left end.
Qed.

Ltac same_results :=
  repeat (match goal with H : ?m = Ok ?x, H' : ?m = Ok ?y |- _ => rewrite H in H'; injection H' as <- end; simplify_eq).

(** The first gateway of a country is the only one. *)
Lemma find_by_country e anchor f payload l by_c value g :
  verify_catalog float_repr e anchor 0 None 2 = Ok f → payload_of e = Ok payload → gateways_of payload = Ok l →
  by_country payload = Ok by_c → find_gateway "country" value l = Ok g → dget value by_c = Some g.
Proof.
  intros Hv Hp Hl Hb Hg. destruct (verified_gateways _ _ _ _ _ Hv Hp Hl) as (c1 & d1 & c2 & d2 & -> & Hne & H1 & H2).
  unfold by_country in Hb. rewrite Hl in Hb. cbn [mbind result_bind mapR] in Hb. rewrite H1, H2 in Hb.
  cbn [mbind result_bind of_option as_str] in Hb. injection Hb as <-.
  unfold dict_of. cbn [foldl dset fst snd]. rewrite decide_False by done. cbn [find_gateway] in Hg.
  rewrite H1 in Hg. cbn [mbind result_bind key_is_str] in Hg. cbn [dget].
  destruct (str_eqb value c1) eqn:E1; sbools; [injection Hg as <-; by rewrite decide_True|].
  rewrite decide_False by done. rewrite H2 in Hg. cbn [mbind result_bind key_is_str] in Hg.
  destruct (str_eqb value c2) eqn:E2; [|done]. sbools. injection Hg as <-. by rewrite decide_True.
Qed.

Lemma served_catalog anchor sha e r : served float_repr anchor sha e r →
  ∃ f, verify_catalog float_repr e anchor 0 None 2 = Ok f ∧ cl_sequence f = rt_sequence r.
Proof. intros (raw & f & _ & _ & _ & _ & _ & _ & ? & ? & _). eauto. Qed.

(** The catalog alone determines the host. *)
Lemma served_host a1 a2 s1 s2 e r1 r2 : served float_repr a1 s1 e r1 → served float_repr a2 s2 e r2 → rt_host r1 = rt_host r2.
Proof.
  intros (? & ? & ? & ? & ? & ? & _ & _ & _ & _ & H1 & H2 & H3 & H4 & H5) (? & ? & ? & ? & ? & ? & _ & _ & _ & _ & H1' & H2' & H3' & H4' & H5').
  same_results. done.
Qed.

(** ** Every operation keeps the invariant *)

Lemma move_again p device expected destination op name hash s a s' :
  operation op = Ok name → seen name hash s → move_digest float_repr p device expected destination op = Ok hash →
  move float_repr p device expected destination op s = (Ok a, s') → s' = s.
Proof.
  intros Hid (t & e & Ht & He & Hh) Hd H. unfold move in H. fold (move_digest float_repr p device expected destination op) in H.
  inv_g. simplify_eq. match goal with H : replayed _ _ _ = Ok ?b |- _ => apply replayed_Ok in H; destruct b end; [by inv_g|congruence].
Qed.

(** The events recorded so far. *)
Definition events_of (s : routing_db) : list (pystr * route_event) :=
  match db_routing s with Some t => tb_events t | None => [] end.

(** The answer to a device that asked for a country. *)
Definition answers_device (d : private_dir) (s' : routing_db) (country name : pystr) (envelope : pyval) (host : pystr) : Prop :=
  ∃ t p anchor a r, db_routing s' = Some t ∧ tables_ok d t p ∧ policy_ok float_repr anchor p ∧ read_anchor d = Ok anchor
    ∧ active_device (db_registry s') name = true ∧ dget name (tb_assignments t) = Some a
    ∧ dget (as_sha a) (pl_routes p) = Some r ∧ as_sequence a = rt_sequence r ∧ dget (as_sha a) (pl_catalogs p) = Some envelope
    ∧ served float_repr anchor (as_sha a) envelope r ∧ (country = py "nl" → host = rt_host r).

Lemma configuration_done d files country device s r s' :
  routed d s → agree d (rf_routing files) → route_configuration float_repr files country device s = (Ok r, s') →
  moves d s s' ∧ events_of s' = events_of s
  ∧ ∀ e host, r = Some (e, host) → ∃ name, device = PStr name ∧ answers_device d s' country name e host.
Proof.
  intros Hr Ha H. unfold route_configuration in H. inv_g. destruct (db_routing _) as [tb|] eqn:Et; inv_g; subst; [|split; [by apply moves_refl|done]].
  match goal with H : GatewayRouting.load_policy _ _ _ = Ok ?q |- _ => rename q into p; apply (load_policy_agree _ _ _ _ _ Ha) in H; rename H into Hp end.
  assert (tables_ok d tb p) as Ho by by eapply routed_policy.
  match goal with H : assign _ _ _ = _ |- _ => destruct (assign_Ok _ _ _ _ _ _ _ _ Hr Et Ho H) as
    (M & name & t' & -> & _ & Hact & Hg & Ht' & Ho' & _ & Hev & cur & Hcur & Hsha) end. subst.
  split; [exact M|]. split; [unfold events_of; by rewrite Ht', Et|]. intros e host [= <- <-]. exists name. split; [done|].
  destruct (load_policy_Ok _ _ _ _ Hp) as (_ & anchor & Hanchor & Hpo).
  destruct (to_follow _ _ _ _ Ho' _ _ Hcur) as (rt & Hrt & _ & Hseq). destruct (po_routes _ _ _ Hpo _ _ Hrt) as (e' & He' & Hserved).
  simplify_eq. exists t', p, anchor, cur, rt. rewrite Hg. split_and!; try done. intros ->.
  destruct Hserved as (raw & f & payload & gws & nl & server & _ & _ & Hv & _ & Hpay & Hby & Hnl & Hsrv & Haddr). same_results.
  match goal with H : find_gateway _ _ _ = Ok _ |- _ => eapply find_by_country in H; [|done..]; rewrite Hnl in H; injection H as <- end.
  same_results. done.
Qed.

(** ** Selections *)

Lemma latest_max x l y : y ∈ x :: l → se_sequence y.2 <= se_sequence (foldl latest x l).2.
Proof.
  revert x y. induction l as [|z l IH]; simpl; intros x y Hy.
  - apply list_elem_of_singleton in Hy as ->. lia.
  - assert (se_sequence x.2 <= se_sequence (latest x z).2 ∧ se_sequence z.2 <= se_sequence (latest x z).2) as [Hx Hz].
    { unfold latest. destruct (Z.ltb_spec (se_sequence x.2) (se_sequence z.2)); lia. }
    pose proof (IH _ _ (list_elem_of_here (latest x z) l)). apply elem_of_cons in Hy as [->|[->|Hy]%elem_of_cons]; [lia|lia|].
    apply IH. by right.
Qed.

Lemma latest_elem x l : foldl latest x l ∈ x :: l.
Proof.
  revert x. induction l as [|z l IH]; simpl; intros x; [left|].
  specialize (IH (latest x z)). apply elem_of_cons in IH as [->|]; [|by do 2 right].
  unfold latest. case_match; [right; left|left].
Qed.

(** The current selection is one of the events, and none is newer. *)
Lemma current_newest s e : current_selection s = Some e →
  ∃ l id, db_selection s = Some l ∧ (id, e) ∈ l ∧ ∀ x, x ∈ l → se_sequence x.2 <= se_sequence e.
Proof.
  unfold current_selection. destruct (db_selection s) as [[|x l]|]; try done. intros [= <-].
  exists (x :: l), (foldl latest x l).1. split_and!; [done| |intros y; apply latest_max]. rewrite <- surjective_pairing. apply latest_elem.
Qed.

Lemma sorted_snoc {A} (R : A → A → Prop) l x : StronglySorted R l → Forall (λ y, R y x) l → StronglySorted R (l ++ [x]).
Proof.
  induction 1 as [|y l Hl IH Hy]; intros Hf; simpl; [repeat constructor|].
  apply Forall_cons in Hf as [Hx Hf]. constructor; [by apply IH|]. apply Forall_app. split; [done|by constructor].
Qed.

Definition selected (id hash : pystr) (s : routing_db) : Prop :=
  ∃ l e, db_selection s = Some l ∧ dget id l = Some e ∧ se_request e = hash.

Lemma selected_advances id hash s s' : selected id hash s → db_advances s s' → selected id hash s'.
Proof.
  intros (l & e & Hl & He & Hh) [_ L]. destruct (L _ Hl) as (l' & Hl'). exists (l ++ l'), e.
  split_and!; [done|by apply dget_app_l|done].
Qed.

(** Appending a selection newer than the current one. *)
Lemma moves_selection d s id e : routed d s → dget id (default [] (db_selection s)) = None →
  (∀ c, current_selection s = Some c → se_sequence c < se_sequence e) →
  moves d s (RoutingDb (db_registry s) (db_routing s) (Some (default [] (db_selection s) ++ [(id, e)]))).
Proof.
  intros [R1 R2 R3] Hid Hc. split; [split; simpl; [done|done|]|split; simpl].
  - intros ? [= <-]. assert (selection_ok (default [] (db_selection s))) as [S1 S2].
    { destruct (db_selection s) as [l|]; [by apply R3|]. split; constructor. }
    split; [rewrite dkeys_snoc; apply NoDup_snoc; [done|]; by apply dget_None|].
    rewrite !fmap_app. apply sorted_snoc; [done|]. apply Forall_fmap, Forall_fmap. apply Forall_forall. intros x Hx. simpl.
    destruct (current_selection s) as [c|] eqn:Ec.
    + destruct (current_newest _ _ Ec) as (l & i & El & _ & Hm). rewrite El in Hx. specialize (Hm _ Hx). specialize (Hc _ eq_refl). lia.
    + unfold current_selection in Ec. destruct (db_selection s) as [[|y l]|]; try done; by apply not_elem_of_nil in Hx.
  - intros t Ht. by exists t.
  - intros l Hl. rewrite Hl. simpl. eauto.
Qed.

Lemma install_selection_done d files request s a s' :
  routed d s → install_selection float_repr files request s = (Ok a, s') →
  moves d s s' ∧ ∃ v id hash, item "operation_id" request = Ok v ∧ operation v = Ok id ∧ selected id hash s'
    ∧ digest <$> strict_canonical float_repr (PDict request) = Ok hash.
Proof.
  intros Hr H. unfold install_selection in H. inv_g.
  match goal with H : context [dget ?i (default [] (db_selection ?x))] |- _ => rename i into name, x into s; destruct (dget name (default [] (db_selection s))) as [e|] eqn:Ee end.
  - inv_g. subst. sbools. split; [by apply moves_refl|]. eexists _, _, _. split_and!; try done.
    destruct (db_selection s) as [sels|] eqn:El; simpl in Ee; [|done]. by exists sels, e.
  - inv_g. subst. split.
    + apply moves_selection; [done|done|]. intros newest Hnewest. rewrite Hnewest in *. simpl. sbools. lia.
    + eexists _, _, _. split_and!; [done|done| |done]. eexists _, _.
      split_and!; [done|rewrite dget_snoc by done; by rewrite decide_True|done].
Qed.

Lemma install_selection_again files request v id hash s a s' :
  item "operation_id" request = Ok v → operation v = Ok id → selected id hash s →
  install_selection float_repr files request s = (Ok a, s') → s' = s.
Proof.
  intros Hv Hid (l & e & Hl & He & _) H. unfold install_selection in H. inv_g. same_results. rewrite Hl in H. simpl in H.
  rewrite He in H. by inv_g.
Qed.

Lemma selected_configuration_done files gateway device s r s' :
  selected_configuration float_repr files gateway device s = (Ok r, s') → s' = s.
Proof. intros H. unfold selected_configuration in H. inv_g. done. Qed.

(** ** Requests *)

Lemma status_done files s a s' : routing_status float_repr files s = (Ok a, s') → s' = s.
Proof. intros H. unfold routing_status in H. inv_g. destruct (db_routing _); by inv_g. Qed.

Lemma atomic_check {B} b (f : () → M routing_db B) : (∀ u, atomic (f u)) → atomic (check b ≫= f).
Proof. apply atomic_bind_lift. Qed.

Ltac atomics := repeat (cbv zeta; match goal with
  | |- atomic (transaction _) => apply atomic_transaction
  | |- atomic (check _ ≫= _) => apply atomic_check; intros ?
  | |- atomic (lift _ ≫= _) => apply atomic_bind_lift; intros ?
  | |- atomic (lift _) => apply atomic_lift
  | |- atomic (let '(_, _) := ?x in _) => destruct x
  | |- atomic (match ?x with _ => _ end) => destruct x
  | |- atomic (_ ≫= λ a, mret _) => apply atomic_bind_ret
  end).

Lemma administer_atomic files request : atomic (administer float_repr files request).
Proof. unfold administer, install_selection, routing_status, install, replace_policy, move. atomics. Qed.

Lemma configuration_atomic files country device : atomic (route_configuration float_repr files country device).
Proof. unfold route_configuration. atomics. Qed.

Lemma selected_atomic files gateway device : atomic (selected_configuration float_repr files gateway device).
Proof. unfold selected_configuration. atomics. Qed.

Definition request_action (request : list (pyval * pyval)) : option routing_action :=
  fst <$> (lookup_str "action" request ≫= action_of).

(** The database shows that the request was carried out. *)
Inductive recorded (d : private_dir) (request : list (pyval * pyval)) (s : routing_db) : Prop :=
  | RecordedStatus : request_action request = Some Status → recorded d request s
  | RecordedInstall : request_action request = Some Install → is_Some (db_routing s) → recorded d request s
  | RecordedSelection v id hash : request_action request = Some InstallSelection →
      item "operation_id" request = Ok v → operation v = Ok id → selected id hash s → recorded d request s
  | RecordedReplace v id hash a b old new : request_action request = Some ReplacePolicy →
      item "operation_id" request = Ok v → operation v = Ok id → seen id hash s →
      item "previous_policy_sha256" request = Ok a → load_policy d a = Ok old →
      item "policy_sha256" request = Ok b → load_policy d b = Ok new →
      request_digest float_repr [("action", PStr (py "replace-policy")); ("previous", PStr (pl_sha old)); ("policy", PStr (pl_sha new))]%string = Ok hash →
      recorded d request s
  | RecordedAssign v id hash b p device expected destination : request_action request = Some Assign →
      item "operation_id" request = Ok v → operation v = Ok id → seen id hash s →
      item "policy_sha256" request = Ok b → load_policy d b = Ok p → item "device" request = Ok device →
      item "expected" request = Ok expected → item "destination" request = Ok destination →
      move_digest float_repr p device expected destination v = Ok hash → recorded d request s.

Lemma recorded_advances d request s s' : recorded d request s → db_advances s s' → recorded d request s'.
Proof.
  intros [] Ha.
  - by constructor 1.
  - match goal with H : is_Some _ |- _ => destruct H as [t Ht] end.
    constructor 2; [done|]. destruct Ha as [T _]. destruct (T _ Ht) as (t' & -> & _). by eexists.
  - eapply RecordedSelection; eauto using selected_advances.
  - eapply RecordedReplace; eauto using seen_advances.
  - eapply RecordedAssign; eauto using seen_advances.
Qed.

Lemma load_own d v p : load_policy d v = Ok p → load_policy d (PStr (pl_sha p)) = Ok p.
Proof. intros H. by destruct (load_policy_Ok _ _ _ _ H) as [<- _]. Qed.

Ltac loaded Hf :=
  repeat match goal with H : GatewayRouting.load_policy _ (rf_routing _) _ = Ok _ |- _ => apply (load_policy_agree _ _ _ _ _ Hf) in H end.

Lemma administer_done d files request s a s' :
  routed d s → agree d (rf_routing files) → administer float_repr files request s = (Ok a, s') →
  moves d s s' ∧ ∃ q, as_dict request = Some q ∧ recorded d q s'.
Proof.
  intros Hr Hf H. unfold administer in H. inv_g.
  match goal with H : as_dict request = Some ?x |- _ => rename x into q end.
  match goal with H : _ ≫= action_of = Some (?x, _) |- _ => rename x into act; assert (request_action q = Some act) as Hact by (unfold request_action; by rewrite H) end.
  destruct act; inv_g; loaded Hf.
  - destruct (install_selection_done _ _ _ _ _ _ Hr H) as (M & v & id & hash & ? & ? & ? & _). split; [done|]. exists q. split; [done|].
    by eapply RecordedSelection.
  - match goal with H : install _ _ _ _ _ = _ |- _ => destruct (install_done _ _ _ _ _ _ _ _ Hr (load_own _ _ _ ltac:(eassumption)) H) as [M Hs] end.
    split; [done|]. exists q. split; [done|]. by eapply RecordedInstall.
  - match goal with H : replace_policy _ _ _ _ _ = _ |- _ => eapply replace_done in H as (M & name & hash & ? & ? & ?); [|done|by eapply load_own..] end.
    split; [done|]. exists q. split; [done|]. by eapply RecordedReplace.
  - match goal with H : move _ _ _ _ _ _ _ = _ |- _ => eapply move_done in H as (M & name & hash & ? & ? & ?); [|done|by eapply load_own] end.
    split; [done|]. exists q. split; [done|]. by eapply RecordedAssign.
  - apply status_done in H as ->. split; [by apply moves_refl|]. exists q. split; [done|]. by apply RecordedStatus.
Qed.

Lemma administer_again d files request q s a s' :
  agree d (rf_routing files) → as_dict request = Some q → recorded d q s →
  administer float_repr files request s = (Ok a, s') → s' = s.
Proof.
  intros Hf Hq Hrec H. unfold administer in H. inv_g. simplify_eq.
  match goal with H : _ ≫= action_of = Some (?x, _) |- _ => rename x into act; assert (request_action q = Some act) as Hact by (unfold request_action; by rewrite H) end.
  destruct Hrec; simplify_eq; inv_g; loaded Hf; same_results.
  - by apply status_done in H.
  - eapply install_again; eassumption.
  - eapply install_selection_again; eassumption.
  - eapply replace_again; eassumption.
  - eapply move_again; eassumption.
Qed.

(** ** Runs *)

(** Enrolment and revocation change the registry in any way; the operator's
    requests and the devices' questions come in any order, each over the files
    of its time. *)
Inductive routing_op :=
  | RegistryBecomes (g : registry)
  | Administer (files : routing_files) (request : pyval)
  | AskCountry (files : routing_files) (country : pystr) (device : pyval)
  | AskNode (files : routing_files) (gateway device : pystr).

Definition perform_routing (o : routing_op) : M routing_db () :=
  match o with
  | RegistryBecomes g => modify (λ s, RoutingDb g (db_routing s) (db_selection s))
  | Administer files request => tryM (administer float_repr files request;; mret ()) (λ _, mret ())
  | AskCountry files country device => tryM (route_configuration float_repr files country device;; mret ()) (λ _, mret ())
  | AskNode files gateway device => tryM (selected_configuration float_repr files gateway device;; mret ()) (λ _, mret ())
  end.

(** No file is ever rewritten: what a call can read is in [d].  The registry's
    devices have a primary key. *)
Definition routing_op_ok (d : private_dir) (o : routing_op) : Prop :=
  match o with
  | RegistryBecomes g => NoDup (dkeys (rg_devices g))
  | Administer files _ | AskCountry files _ _ | AskNode files _ _ => agree d (rf_routing files)
  end.

Definition run_routing (ops : list routing_op) (s : routing_db) : routing_db := (iterM perform_routing ops s).2.

Lemma try_moves {A} d (m : M routing_db A) s : routed d s → atomic m →
  (∀ a s', m s = (Ok a, s') → moves d s s') → moves d s (tryM (m;; mret ()) (λ _, mret ()) s).2.
Proof.
  intros Hr Hm Hs. unfold tryM, mbind, M_bind. destruct (m s) as [[a|e] s'] eqn:E; cbn; [by eapply Hs|].
  apply Hm in E as ->. by apply moves_refl.
Qed.

Lemma perform_moves d o s : routed d s → routing_op_ok d o → moves d s (perform_routing o s).2 ∧ is_ok (perform_routing o s).1 = true.
Proof.
  intros Hr Ho. destruct o; cbn [perform_routing].
  - split; [|done]. destruct Hr. split; [by split|]. cbn. split; [intros t Ht; by exists t|]. intros l Hl. exists []. by rewrite app_nil_r.
  - split; [apply try_moves; [done|apply administer_atomic|]|unfold tryM; by repeat case_match].
    intros a s' H. by eapply administer_done in H as [? _].
  - split; [apply try_moves; [done|apply configuration_atomic|]|unfold tryM; by repeat case_match].
    intros a s' H. by eapply configuration_done in H as [? _].
  - split; [apply try_moves; [done|apply selected_atomic|]|unfold tryM; by repeat case_match].
    intros a s' ->%selected_configuration_done. by apply moves_refl.
Qed.

Lemma run_moves d ops s : routed d s → Forall (routing_op_ok d) ops → moves d s (run_routing ops s).
Proof.
  unfold run_routing. intros Hr Hops. revert s Hr. induction Hops as [|o ops Ho Hops IH]; intros s Hr; [by apply moves_refl|].
  cbn [iterM]. destruct (perform_moves d o s Hr Ho) as [[R A] Hok]. unfold mbind, M_bind.
  destruct (perform_routing o s) as [[[]|e] s1]; [|done]. cbn [snd] in *. destruct (IH _ R) as [R' A']. split; [done|by etrans].
Qed.

(** C18: Sticky routing.  Over any run of operator requests, questions of devices
    and changes of the registry, in any order and whether they succeed or fail,
    the policy in force is one the files hold, every assignment is a route of
    it, and operation names are used once.  The policy's generation only rises,
    events and selections are only appended, and a device once assigned keeps its
    catalog unless a recorded request names it, and then takes a newer one. *)
Theorem routing_sticky d ops s : routed d s → Forall (routing_op_ok d) ops →
  routed d (run_routing ops s) ∧ db_advances s (run_routing ops s).
Proof. apply run_moves. Qed.

(** C29: A request is carried out once.  After the operator's request has
    succeeded, repeating it at any later point of any run changes nothing. *)
Theorem request_once d files files' request s a s1 ops r s2 :
  routed d s → agree d (rf_routing files) → agree d (rf_routing files') → Forall (routing_op_ok d) ops →
  administer float_repr files request s = (Ok a, s1) →
  administer float_repr files' request (run_routing ops s1) = (r, s2) → s2 = run_routing ops s1.
Proof.
  intros Hr Hf Hf' Hops H1 H2. destruct (administer_done _ _ _ _ _ _ Hr Hf H1) as ([R1 _] & q & Hq & Hrec).
  destruct (run_moves _ _ _ R1 Hops) as [_ A]. apply (recorded_advances _ _ _ _ Hrec) in A.
  destruct r as [x|e]; [by eapply administer_again|by eapply administer_atomic].
Qed.

Lemma events_grow s s' : db_advances s s' → events_of s' = events_of s ++ drop (length (events_of s)) (events_of s').
Proof.
  intros [T _]. unfold events_of at 2 3. destruct (db_routing s) as [t|] eqn:Et; [|done].
  destruct (T t eq_refl) as (t' & Ht' & _ & _ & n & En & _). unfold events_of. rewrite Ht', En. by rewrite drop_app_length.
Qed.

(** C21: A device's answer stays.  What a device is answered at two points of a
    run are catalogs the anchor signed, for a device then in force, with the
    policy's host for its Dutch gateway; the later is never older than the
    earlier, and is the same catalog if no request in between named the device. *)
Theorem answer_sticky d files files' country country' device s e h s1 ops e' h' s2 new :
  routed d s → agree d (rf_routing files) → agree d (rf_routing files') → Forall (routing_op_ok d) ops →
  route_configuration float_repr files country device s = (Ok (Some (e, h)), s1) →
  route_configuration float_repr files' country' device (run_routing ops s1) = (Ok (Some (e', h')), s2) →
  events_of (run_routing ops s1) = events_of s1 ++ new →
  ∃ name anchor f f', device = PStr name ∧ read_anchor d = Ok anchor
    ∧ active_device (db_registry s1) name = true ∧ active_device (db_registry s2) name = true
    ∧ verify_catalog float_repr e anchor 0 None 2 = Ok f ∧ catalog_signed float_repr anchor e 2 f
    ∧ verify_catalog float_repr e' anchor 0 None 2 = Ok f' ∧ catalog_signed float_repr anchor e' 2 f'
    ∧ cl_sequence f <= cl_sequence f'
    ∧ (Forall (λ x, re_device x.2 ≠ name) new → e' = e ∧ (country' = country → country = py "nl" → h' = h)).
Proof.
  intros Hr Hf Hf' Hops H1 H2 Hnew.
  destruct (configuration_done _ _ _ _ _ _ _ Hr Hf H1) as ([R1 _] & _ & D1). destruct (D1 _ _ eq_refl) as (name & -> & A1).
  destruct (run_moves _ _ _ R1 Hops) as [R2 Adv].
  destruct (configuration_done _ _ _ _ _ _ _ R2 Hf' H2) as ([R3 Adv'] & Ev & D2). destruct (D2 _ _ eq_refl) as (name' & [= <-] & A2).
  assert (db_advances s1 s2) as [T _] by by etrans. rewrite <- Ev in Hnew. clear Adv Adv' Ev R2 D1 D2 H1 H2.
  destruct A1 as (t1 & p1 & anchor & a1 & r1 & Ht1 & O1 & Po1 & An & Act1 & Ha1 & Hr1 & Q1 & He1 & Sv1 & Hh1).
  destruct A2 as (t2 & p2 & anchor' & a2 & r2 & Ht2 & O2 & Po2 & An' & Act2 & Ha2 & Hr2 & Q2 & He2 & Sv2 & Hh2).
  rewrite An in An'. injection An' as <-.
  destruct (T _ Ht1) as (t2' & Ht2' & _ & _ & n & En & K). rewrite Ht2 in Ht2'. injection Ht2' as <-.
  unfold events_of in Hnew. rewrite Ht1, Ht2, En in Hnew. apply app_inv_head in Hnew as ->.
  destruct (K _ _ Ha1) as (a' & Ha' & Sa & Fa). rewrite Ha2 in Ha'. injection Ha' as <-.
  destruct (served_catalog _ _ _ _ Sv1) as (f1 & V1 & S1). destruct (served_catalog _ _ _ _ Sv2) as (f2 & V2 & S2).
  exists name, anchor, f1, f2. split_and!; try done; try by apply verify_catalog_signed.
  - destruct Sa as [->|Sa]; lia.
  - intros E. rewrite (Fa E) in *.
    destruct (load_policy_files _ _ _ _ _ _ (to_policy _ _ _ _ O1) He1) as (raw1 & F1 & P1).
    destruct (load_policy_files _ _ _ _ _ _ (to_policy _ _ _ _ O2) He2) as (raw2 & F2 & P2). same_results.
    split; [done|]. intros -> ->. rewrite (Hh1 eq_refl), (Hh2 eq_refl). by eapply served_host.
Qed.

(** C30: The choice of a node.  A device that asks for a node by name is in force,
    and is answered with a catalog the anchor signed for such choices, the newest
    ever selected, under the policy in force; asking changes nothing. *)
Theorem selection_newest d files gateway device s e h s' :
  routed d s → agree d (rf_routing files) →
  selected_configuration float_repr files gateway device s = (Ok (e, h), s') →
  s' = s ∧ active_device (db_registry s) device = true ∧ gateway ∈ GATEWAY_CHOICES
  ∧ ∃ anchor f t l id ev, read_anchor d = Ok anchor ∧ verify_catalog float_repr e anchor 0 None 3 = Ok f
    ∧ catalog_signed float_repr anchor e 3 f ∧ db_routing s = Some t ∧ se_policy ev = tb_policy t
    ∧ db_selection s = Some l ∧ (id, ev) ∈ l ∧ cl_sequence f = se_sequence ev
    ∧ ∀ x, x ∈ l → se_sequence x.2 <= cl_sequence f.
Proof.
  intros Hr Hf H. unfold selected_configuration in H. inv_g. subst. sbools. split; [done|]. split; [done|]. split.
  { match goal with H : one_of gateway _ = true |- _ => apply existsb_exists in H as (x & Hx & ->%str_eqb_eq) end. by apply list_elem_of_In. }
  match goal with H : current_selection _ = Some ?e |- _ => rename e into ev; destruct (current_newest _ _ H) as (l' & id & Hl & Hin & Hmax) end.
  match goal with H : load_selection _ _ _ _ = Ok _ |- _ => unfold load_selection in H; repeat inv_ok1; subst end. simplify_eq.
  match goal with H : read_anchor _ = Ok ?x |- _ => apply (read_anchor_agree _ _ _ Hf) in H; exists x end.
  eexists _, _, _, _, _. split_and!; [done|done|by apply verify_catalog_signed|done|done|done|done|done|].
  intros x Hx. specialize (Hmax _ Hx). lia.
Qed.
End Safety.
