(* ===== verification/GatewayRoutingExamples.v ===== *)
(** The gateway routing on a concrete deployment: two policies over three signed
    catalogs, one enrolled device that is seeded, moved and asks, and a signed
    choice of nodes. *)
From Stdlib Require Import ZArith Lia.
From S2P Require Import Prelude PyData Json JsonText Ipaddress Rns RnsModel Ack DeviceProof Registry Referrals PaidBeta.
From S2P Require Import TransportPolicy Journal RegistrySpec ProfileConfig JournalExamples ConfigurationExamples.
From S2P Require Import FriendsCatalog GatewayRouting GatewayRoutingSpec GatewayRoutingSafety.

Local Open Scope Z_scope.

(** ** Third-party code *)

(** A short digest, quick to evaluate. *)
Definition light_hash (b : bytes) : bytes := fit 32 (le_bytes 2 (foldl (λ h x, Z.land (h * 31 + x) 65535) 0 b)).
Definition light_rns : Rns := {|
  identity := Z; public_of := toy_public; identity_hash := light_hash; destination_hash := toy_destination;
  full_hash := light_hash; sign := toy_signer; validate := λ p s m, bool_decide (s = toy_sign p m);
  encrypt := λ p r m, p ++ m; decrypt := λ i c, Some c; packb := toy_packb; unpackb := toy_unpackb;
  lxm_pack := lxm_layout toy_public toy_destination light_hash toy_signer toy_packb;
|}.
Definition light_sign (p m : bytes) : bytes := fit 64 (p ++ light_hash m).
Definition light_ed25519 : Ed25519 := {|
  signing_key := Z; ed_public := toy_seed; ed_sign := λ k m, light_sign (toy_seed k) m;
  ed_verify := λ p s m, str_eqb s (light_sign p m);
|}.
Definition authority : Z := 5.

(** ** Signed catalogs *)

Definition member_ (name : string) (v : pyval) : pyval * pyval := (PStr (py name), v).
Definition text (s : string) : pyval := PStr (py s).

Definition sample_awg (host : pystr) : pystr :=
  join [10] ([py "[Interface]"; py "PrivateKey = LOCAL_DEVICE_KEY"; py "Address = ASSIGNED_ADDRESS"; py "DNS = 1.1.1.1";
    py "Jc = 4"; py "Jmin = 40"; py "Jmax = 100"; py "S1 = 16"; py "S2 = 16"; py "S3 = 16"; py "S4 = 16";
    py "H1 = 1"; py "H2 = 2"; py "H3 = 3"; py "H4 = 4"; py "HeaderProtectionKey = " ++ wg_key; py "ContentPaddingAddition = 0-32";
    py "[Peer]"; py "PublicKey = " ++ wg_key; py "Endpoint = " ++ host ++ py ":51823"; py "AllowedIPs = 0.0.0.0/0, ::/0"; []]).

Definition sample_gateway (country : string) (host : pystr) : list (pyval * pyval) :=
  [member_ "country" (text country); member_ "awg" (PStr (sample_awg host));
   member_ "tcp" (PDict [member_ "type" (PStr REALITY); member_ "server" (PStr host); member_ "port" (PInt 443);
     member_ "id" (text "DEVICE_CREDENTIAL"); member_ "public_key" (text "AgICAgICAgICAgICAgICAgICAgICAgICAgICAgICAgI");
     member_ "server_name" (text "example.com"); member_ "short_id" (text "ab")])].

Definition octets_of (v : pyval) : bytes := match canonical no_floats v with Ok b => b | Raise _ => [] end.

Definition signed_catalog (schema sequence : Z) (gateways : list (list (pyval * pyval))) : bytes :=
  let raw := octets_of (PDict [member_ "schema" (PInt schema); member_ "sequence" (PInt sequence); member_ "access" (text "invite-test");
    member_ "gateways" (PList (List.map PDict gateways))]) in
  octets_of (PDict [member_ "payload" (PStr (b64encode raw));
    member_ "signature" (PStr (b64encode (ed_sign (Ed25519 := light_ed25519) authority (CATALOG_DOMAIN ++ raw))))]).

Definition host_ru : pystr := py "192.0.2.10".
Definition host_first : pystr := py "192.0.2.20".
Definition host_second : pystr := py "192.0.2.21".
Definition catalog_at (sequence : Z) (host : pystr) : bytes :=
  signed_catalog 2 sequence [sample_gateway "ru" host_ru; sample_gateway "nl" host].
Definition catalogs : list bytes := Eval vm_compute in [catalog_at 4 host_first; catalog_at 5 host_second].
Definition shas : list pystr := Eval vm_compute in List.map (digest (RN := light_rns)) catalogs.
Definition sha_of (n : nat) : pystr := List.nth n shas [].

Definition choice (id : string) (host : pystr) : list (pyval * pyval) := member_ "gateway_id" (text id) :: sample_gateway "nl" host.
Definition selection : bytes := Eval vm_compute in
  signed_catalog 3 1 [choice "nl-amsterdam-1" host_first; choice "nl-amsterdam-2" host_second].

(** ** Policies and files *)

Definition policy_text (generation : Z) (admit_ : nat) : bytes :=
  octets_of (PDict [member_ "schema" (PInt 1); member_ "generation" (PInt generation); member_ "legacy" (PStr (sha_of 0));
    member_ "admit" (PStr (sha_of admit_));
    member_ "catalogs" (PList (List.map (λ p, PDict [member_ "node" (text p.1); member_ "sha256" (PStr (sha_of p.2))])
      [("nl-amsterdam-1"%string, 0%nat); ("nl-amsterdam-2"%string, 1%nat)]))]).
Definition first_policy : bytes := Eval vm_compute in policy_text 1 1.
Definition second_policy : bytes := Eval vm_compute in policy_text 2 0.
Definition first_sha : pystr := Eval vm_compute in digest (RN := light_rns) first_policy.
Definition second_sha : pystr := Eval vm_compute in digest (RN := light_rns) second_policy.
Definition selection_sha : pystr := Eval vm_compute in digest (RN := light_rns) selection.

Definition private (name : pystr) (b : bytes) : pystr * private_file := (name, PrivateFile fresh_stat b).
Definition first_files : list (pystr * private_file) := Eval vm_compute in
  private (py "anchor.pub") (b64encode (toy_seed authority) ++ [10])
  :: private (first_sha ++ py ".policy.json") first_policy
  :: List.map (λ n, private (sha_of n ++ py ".catalog.json") (List.nth n catalogs [])) (seq 0 2).
Definition later_files : list (pystr * private_file) := Eval vm_compute in
  [private (second_sha ++ py ".policy.json") second_policy;
   private (selection_sha ++ py ".selection.json") selection].

Definition files_of (l : list (pystr * private_file)) : routing_files :=
  RoutingFiles (PrivateDir true true [private (py "catalog.json") (List.nth 0 catalogs [])]) (PrivateDir true true l).
Definition before : routing_files := files_of first_files.
Definition after : routing_files := files_of (first_files ++ later_files).

Lemma agree_after : agree (rf_routing after) (rf_routing before).
Proof.
  intros name limit raw. unfold private_read. cbn [rf_routing after before files_of pd_path pd_private pd_files]. intros H. repeat inv_ok1.
  match goal with H : dget _ _ = Some _ |- _ => apply (dget_app_l _ _ later_files) in H end.
  subst. by rerun.
Qed.

(** ** One device *)

Definition node_device : pystr := List.repeat 97 32.
Definition sample_registry : registry :=
  set_devices [(node_device, Device (py "public") (py "wg") (py "tcp") false)]
    (set_invites [(py "invite", Invite (Some node_device) false)] new_registry).
Definition empty_db : routing_db := RoutingDb sample_registry None None.

Definition request (action op : string) (policy : pystr) (l : list (pyval * pyval)) : pyval :=
  PDict ([member_ "schema" (PInt 1); member_ "action" (text action); member_ "operation_id" (text op); member_ "policy_sha256" (PStr policy)] ++ l).
Definition install_request : pyval := request "install" "install-one" first_sha [member_ "legacy_sha256" (PStr (sha_of 0))].
Definition assign_request : pyval :=
  request "assign" "assign-one" first_sha
    [member_ "device" (PStr node_device); member_ "expected" (PStr (sha_of 0)); member_ "destination" (PStr (sha_of 1))].
Definition replace_request : pyval := request "replace-policy" "replace-one" second_sha [member_ "previous_policy_sha256" (PStr first_sha)].
Definition select_request : pyval :=
  request "install-selection" "select-one" second_sha
    [member_ "catalog_sha256" (PStr selection_sha); member_ "previous_sha256" PNone].

Abbreviation performed ops s := (run_routing (RN := light_rns) (ED := light_ed25519) no_floats ops s).

(** The database after each of the operator's requests: one node for the device,
    then the other, then a policy that admits new devices to the first, and a
    choice of nodes. *)
Definition installed_db : routing_db := Eval vm_compute in performed [Administer before install_request] empty_db.
Definition replaced_db : routing_db := Eval vm_compute in performed [Administer after replace_request] installed_db.
Definition selected_db : routing_db := Eval vm_compute in performed [Administer after select_request] replaced_db.

Example installed_state :
  (λ t, (tb_generation t, List.map (λ a, (as_node a.2, as_sequence a.2)) (tb_assignments t), List.map fst (tb_events t))) <$> db_routing installed_db
  = Some (1, [(py "nl-amsterdam-1", 4)], [py "install-one"]).
Proof. reflexivity. Qed.

Lemma installed : performed [Administer before install_request] empty_db = installed_db.
Proof. vm_compute. reflexivity. Qed.
Lemma replaced : performed [Administer after replace_request] installed_db = replaced_db.
Proof. vm_compute. reflexivity. Qed.
Lemma chosen_installed : performed [Administer after select_request] replaced_db = selected_db.
Proof. vm_compute. reflexivity. Qed.

(** ** The theorems on it *)

#[local] Opaque route_configuration selected_configuration administer run_routing.

Abbreviation routed_here := (routed (RN := light_rns) (ED := light_ed25519) no_floats (rf_routing after)).

Lemma empty_routed : routed_here empty_db.
Proof. split; [apply NoDup_singleton|done|done]. Qed.

Lemma performed_routed o s s' : routed_here s → routing_op_ok (rf_routing after) o → performed [o] s = s' → routed_here s'.
Proof. intros Hr Ho <-. apply (run_moves (RN := light_rns) (ED := light_ed25519) no_floats); [done|by constructor]. Qed.

Lemma installed_routed : routed_here installed_db.
Proof. exact (performed_routed (Administer before install_request) _ _ empty_routed agree_after installed). Qed.
Lemma replaced_routed : routed_here replaced_db.
Proof. exact (performed_routed (Administer after replace_request) _ _ installed_routed (agree_refl _) replaced). Qed.
Lemma selected_routed : routed_here selected_db.
Proof. exact (performed_routed (Administer after select_request) _ _ replaced_routed (agree_refl _) chosen_installed). Qed.

Definition sample_run : list routing_op :=
  [Administer before install_request; AskCountry before (py "nl") (PStr node_device); Administer before assign_request;
   RegistryBecomes new_registry; Administer after replace_request; Administer after select_request;
   AskNode after (py "nl-amsterdam-2") node_device].

Lemma routing_sticky_witness : routed_here (performed sample_run empty_db) ∧ db_advances empty_db (performed sample_run empty_db).
Proof.
  apply (routing_sticky (RN := light_rns) (ED := light_ed25519) no_floats); [apply empty_routed|].
  repeat constructor; first [apply agree_after|apply agree_refl].
Defined.

Lemma ok_of {A S} (x : result A * S) : is_ok x.1 = true → ∃ a, x = (Ok a, x.2).
Proof. destruct x as [[a|] s]; [by exists a|done]. Qed.
Definition some_answer {A S} (x : result (option A) * S) : bool := match x.1 with Ok (Some _) => true | _ => false end.
Lemma some_of {A S} (x : result (option A) * S) : some_answer x = true → ∃ a, x = (Ok (Some a), x.2).
Proof. destruct x as [[[a|]|] s]; try done. by exists a. Qed.

Abbreviation assigned s := (administer (RN := light_rns) (ED := light_ed25519) no_floats before assign_request s).
Lemma assigned_ok : is_ok (assigned installed_db).1 = true.
Proof. vm_compute. reflexivity. Qed.

(** The move is repeated after the policy was replaced. *)
Lemma request_once_witness :
  (assigned (performed [Administer after replace_request] (assigned installed_db).2)).2
  = performed [Administer after replace_request] (assigned installed_db).2.
Proof.
  destruct (ok_of _ assigned_ok) as [a Ha].
  apply (request_once (RN := light_rns) (ED := light_ed25519) no_floats (rf_routing after) before before assign_request installed_db a
    (assigned installed_db).2 [Administer after replace_request] (assigned (performed [Administer after replace_request] (assigned installed_db).2)).1).
  - apply installed_routed.
  - apply agree_after.
  - apply agree_after.
  - repeat constructor. apply agree_refl.
  - exact Ha.
  - apply surjective_pairing.
Defined.

Abbreviation asked files s := (route_configuration (RN := light_rns) (ED := light_ed25519) no_floats files (py "nl") (PStr node_device) s).

Lemma unnamed (l : list (pystr * route_event)) name :
  forallb (λ x, negb (str_eqb (re_device x.2) name)) l = true → Forall (λ x, re_device x.2 ≠ name) l.
Proof.
  induction l as [|x l IH]; simpl; [constructor|]. intros [H1 H2]%andb_true_iff. constructor; [|by apply IH].
  intros E. by rewrite (proj2 (str_eqb_eq _ _) E) in H1.
Qed.

Lemma asked_installed : some_answer (asked before installed_db) = true.
Proof. vm_compute. reflexivity. Qed.
Lemma asked_state : (asked before installed_db).2 = installed_db.
Proof. vm_compute. reflexivity. Qed.
Lemma asked_replaced : some_answer (asked after replaced_db) = true.
Proof. vm_compute. reflexivity. Qed.
Definition events_between : list (pystr * route_event) := drop (length (events_of installed_db)) (events_of replaced_db).

(** A policy that admits new devices elsewhere leaves this one where it is. *)
Lemma answer_sticky_witness : ∃ e h, asked before installed_db = (Ok (Some (e, h)), installed_db)
  ∧ asked after replaced_db = (Ok (Some (e, h)), (asked after replaced_db).2).
Proof.
  destruct (some_of _ asked_installed) as [[e h] E1]. destruct (some_of _ asked_replaced) as [[e' h'] E2]. rewrite asked_state in E1.
  exists e, h. split; [exact E1|].
  assert (Forall (routing_op_ok (rf_routing after)) [Administer after replace_request]) as Hops by (repeat constructor; apply agree_refl).
  assert (events_of (performed [Administer after replace_request] installed_db) = events_of installed_db ++ events_between) as Hnew
    by (rewrite replaced; reflexivity).
  assert (asked after (performed [Administer after replace_request] installed_db) = (Ok (Some (e', h')), (asked after replaced_db).2)) as E2'
    by (rewrite replaced; exact E2).
  destruct (answer_sticky (RN := light_rns) (ED := light_ed25519) no_floats (rf_routing after) before after (py "nl") (py "nl") (PStr node_device)
    installed_db e h installed_db [Administer after replace_request] e' h' (asked after replaced_db).2 events_between
    installed_routed agree_after (agree_refl _) Hops E1 E2' Hnew) as (name & anchor & f & f' & [= <-] & _ & _ & _ & _ & _ & _ & _ & _ & Hsame).
  destruct Hsame as [-> Hh]; [apply unnamed; reflexivity|]. rewrite (Hh eq_refl eq_refl) in E2. exact E2.
Defined.

Lemma only_sequence (l : list (pystr * selection_event)) id ev n :
  (id, ev) ∈ l → List.map (λ x, se_sequence x.2) l = [n] → se_sequence ev = n.
Proof. intros Hin H. apply list_elem_of_In, (in_map (λ x, se_sequence x.2)) in Hin. rewrite H in Hin. destruct Hin as [Hn|[]]. by rewrite Hn. Qed.

Abbreviation chosen s := (selected_configuration (RN := light_rns) (ED := light_ed25519) no_floats after (py "nl-amsterdam-2") node_device s).
Lemma chosen_ok : is_ok (chosen selected_db).1 = true.
Proof. vm_compute. reflexivity. Qed.

Lemma selection_newest_witness : ∃ e h f, chosen selected_db = (Ok (e, h), selected_db)
  ∧ verify_catalog (RN := light_rns) (ED := light_ed25519) no_floats e (toy_seed authority) 0 None 3 = Ok f ∧ cl_sequence f = 1.
Proof.
  destruct (ok_of _ chosen_ok) as [[e h] E].
  destruct (selection_newest (RN := light_rns) (ED := light_ed25519) no_floats _ after _ _ _ e h _ selected_routed (agree_refl _) E)
    as (Hs & _ & _ & anchor & f & t & l & id & ev & Ha & Hv & _ & _ & _ & Hl & Hin & Hseq & _).
  exists e, h, f. split; [rewrite Hs in E; exact E|].
  assert (read_anchor (rf_routing after) = Ok (toy_seed authority)) as Ha' by (vm_compute; reflexivity).
  rewrite Ha in Ha'. injection Ha' as ->. split; [exact Hv|]. rewrite Hseq.
  assert (List.map (λ x, se_sequence x.2) (default [] (db_selection selected_db)) = [1]) as Hone by reflexivity.
  rewrite Hl in Hone. exact (only_sequence _ _ _ _ Hin Hone).
Defined.
