(* ===== verification/Provisioning.v ===== *)
(** The version 1 provisioning of a device (provisioning/models.py, envelope.py,
    cache.py): the typed network state, its signed and encrypted envelope, and
    the cache that keeps the newest one with its revision floors. *)
From Stdlib Require Import ZArith Lia.
From S2P Require Import Prelude PyData Json JsonText Ipaddress ProfileConfig Rns Ack Journal Configuration.

Local Open Scope Z_scope.

(** ** The network state *)

Record gateway_candidate := GatewayCandidate {
  gc_id : pystr;
  gc_provider : pystr;
  gc_region : pystr;
  gc_asn : option Z;
  gc_endpoint : ip_addr;
  gc_port : Z;
  gc_key : pystr;
}.

Record network_state := NetworkState {
  ns_revision : Z;
  ns_recipient : pystr;
  ns_issued : Z;
  ns_expires : Z;
  ns_entitlement : pystr;
  ns_entitlement_revision : Z;
  ns_wg : pystr;
  ns_addresses : list (ip_addr * Z);
  ns_dns : list ip_addr;
  ns_gateways : list gateway_candidate;
}.

(** The address types of the models' base class, and its writer. *)
Class PydanticNetwork := {
  ip_any_address : pyval → option ip_addr;
  ip_any_interface : pyval → option (ip_addr * Z);
  state_dump_json : network_state → pystr;
}.

Definition routable (a : ip_addr) : bool := negb (is_unspecified a || is_multicast a || is_loopback a).
Definition ip_version (a : ip_addr) : Z := match a with IPv4 _ => 4 | IPv6 _ _ => 6 end.

(** The field constraints of [GatewayCandidate] and its validators. *)
Definition valid_candidate (g : gateway_candidate) : bool :=
  identifier (gc_id g) && identifier (gc_provider g)
  && Nat.eqb (length (gc_region g)) 2 && forallb (in_range 65 90) (gc_region g)
  && match gc_asn g with Some n => in_range 1 4294967295 n | None => true end
  && in_range 1 65535 (gc_port g) && valid_key (gc_key g) && routable (gc_endpoint g).

(** The field constraints of [NetworkProvisioningState] and [valid_state]. *)
Definition valid_network (s : network_state) : bool :=
  positive (ns_revision s) && hex_match 32 (ns_recipient s) && positive (ns_issued s) && positive (ns_expires s)
  && identifier (ns_entitlement s) && positive (ns_entitlement_revision s) && valid_key (ns_wg s)
  && in_range 1 2 (zlen (ns_addresses s)) && in_range 1 3 (zlen (ns_dns s)) && in_range 1 8 (zlen (ns_gateways s))
  && forallb valid_candidate (ns_gateways s)
  && (0 <? ns_expires s - ns_issued s) && (ns_expires s - ns_issued s <=? 86400)
  && bool_decide (NoDup (gc_id <$> ns_gateways s))
  && bool_decide (NoDup ((λ a, ip_version a.1) <$> ns_addresses s))
  && forallb routable ((fst <$> ns_addresses s) ++ ns_dns s).

Section Fields.
Context {PN : PydanticNetwork}.

Definition candidate_names : list string :=
  ["gateway_id"; "provider_id"; "region"; "transport"; "endpoint"; "port"; "public_key"]%string.
(** [asn] has a default; every other field is required. *)
Definition candidate_fields (v : pyval) : result gateway_candidate :=
  d ← of_option bad_field (as_dict v);
  require (keys_are candidate_names d || keys_are ("asn" :: candidate_names)%string d) bad_field;;
  id ← text_in "gateway_id" d; provider ← text_in "provider_id" d; region ← text_in "region" d;
  asn ← match lookup_str "asn" d with
        | None | Some PNone => Ok None
        | Some v => z ← of_option bad_field (as_int v); Ok (Some z)
        end;
  t ← text_in "transport" d;
  require (str_eqb t (py "wireguard")) bad_field;;
  endpoint ← item "endpoint" d; endpoint ← of_option bad_field (ip_any_address endpoint);
  port ← int_in "port" d; key ← text_in "public_key" d;
  Ok (GatewayCandidate id provider region asn endpoint port key).

Definition network_names : list string :=
  ["schema_version"; "revision"; "recipient"; "issued_at"; "expires_at"; "entitlement_id"; "entitlement_revision";
   "wireguard_public_key"; "addresses"; "dns"; "gateways"]%string.
Definition network_fields (v : pyval) : result network_state :=
  d ← model_of network_names v;
  schema ← int_in "schema_version" d;
  require (schema =? 1) bad_field;;
  revision ← int_in "revision" d; recipient ← text_in "recipient" d;
  issued ← int_in "issued_at" d; expires ← int_in "expires_at" d;
  entitlement ← text_in "entitlement_id" d; entitlement_revision ← int_in "entitlement_revision" d;
  wg ← text_in "wireguard_public_key" d;
  addresses ← list_in "addresses" d; addresses ← mapR (λ v, of_option bad_field (ip_any_interface v)) addresses;
  dns ← list_in "dns" d; dns ← mapR (λ v, of_option bad_field (ip_any_address v)) dns;
  gateways ← list_in "gateways" d; gateways ← mapR candidate_fields gateways;
  Ok (NetworkState revision recipient issued expires entitlement entitlement_revision wg addresses dns gateways).

(** [NetworkProvisioningState.model_validate_json(plain)] *)
Definition network_validate {PY : Pydantic} (plain : bytes) : result network_state :=
  v ← of_option bad_field (model_json plain);
  s ← network_fields v;
  require (valid_network s) bad_field;;
  Ok s.
End Fields.

(** ** The envelope *)

Definition PROVISIONING_DOMAIN : bytes := py "family-connect/provisioning-envelope/v1" ++ [0].

(** [ProvisioningVerifier]: the trusted signer's public key, the device and its
    WireGuard key. *)
Record provisioning_verifier {RN : Rns} := ProvisioningVerifier {
  pv_signer : bytes;
  pv_device : identity;
  pv_wg : pystr;
}.
Arguments ProvisioningVerifier {RN}.

Section Envelope.
Context {RN : Rns} {PY : Pydantic} {PN : PydanticNetwork} (float_repr : spec_float → pystr).

Definition new_provisioning_verifier (signer : bytes) (device : identity) (wg : pystr) : result provisioning_verifier :=
  signer ← public_identity signer; Ok (ProvisioningVerifier signer device wg).

(** [issue(state, recipient_public=..., signing_identity=...)] *)
Definition issue_state (s : network_state) (recipient_public : bytes) (signer : identity) (random : bytes) : result bytes :=
  recipient ← public_identity recipient_public;
  require (str_eqb (tohex (identity_hash recipient)) (ns_recipient s)) (ProvisioningRejected "wrong provisioning recipient");;
  plain ← of_option (ValueError "UnicodeEncodeError") (utf8_encode (state_dump_json s));
  let ciphertext := encrypt recipient random plain in
  text ← json_compact float_repr (PDict [(PStr (py "ciphertext"), PStr (b64encode ciphertext));
    (PStr (py "signature"), PStr (b64encode (sign signer (PROVISIONING_DOMAIN ++ ciphertext))))]);
  of_option (ValueError "UnicodeEncodeError") (utf8_encode text).

(** The body of [verify]'s [try]. *)
Definition open_state (pv : provisioning_verifier) (envelope : bytes) : result network_state :=
  v ← of_option (ValueError "JSONDecodeError") (json_loads_bytes envelope);
  outer ← of_option bad_field (as_dict v);
  require (keys_are ["ciphertext"; "signature"] outer) bad_field;;
  c ← text_in "ciphertext" outer;
  ciphertext ← of_option (ValueError "binascii.Error") (b64decode c);
  s ← text_in "signature" outer;
  signature ← of_option (ValueError "binascii.Error") (b64decode s);
  require ((zlen signature =? 64) && validate (pv_signer pv) signature (PROVISIONING_DOMAIN ++ ciphertext)) bad_field;;
  plain ← of_option bad_field (decrypt (pv_device pv) ciphertext);
  of_option (ValueError "JSONDecodeError") (json_loads_bytes plain);;
  network_validate plain.

(** [verify(envelope, now=..., minimum_revision=..., minimum_entitlement_revision=...)] *)
Definition verify_state (pv : provisioning_verifier) (envelope : bytes) (now minimum minimum_entitlement : Z) : result network_state :=
  require ((0 <=? now) && (0 <=? minimum) && (1 <=? minimum_entitlement)) (ProvisioningRejected "invalid verification context");;
  raise_if (MAX_ENVELOPE_BYTES <? zlen envelope) (ProvisioningRejected "invalid envelope size");;
  s ← refuse "invalid provisioning envelope" (open_state pv envelope);
  require (str_eqb (ns_recipient s) (reference (pv_device pv)) && str_eqb (ns_wg s) (pv_wg pv))
    (ProvisioningRejected "provisioning device mismatch");;
  require ((ns_issued s <=? now) && (now <? ns_expires s)) (ProvisioningRejected "provisioning outside authorization lease");;
  raise_if (ns_revision s <=? minimum) (ProvisioningRejected "provisioning replay or downgrade");;
  raise_if (ns_entitlement_revision s <? minimum_entitlement) (ProvisioningRejected "stale entitlement revision");;
  Ok s.

(** ** The cache *)

Record cache_record := CacheRecord {
  cr_revision : Z;
  cr_entitlement : Z;
  cr_last_now : Z;
  cr_verified_at : Z;
  cr_envelope : option pystr;
}.

(** The directory with its file, and how the writes to come end. *)
Record cache_dir := CacheDir {
  cd_present : bool;
  cd_file : option bytes;
  cd_stat : file_stat;
  cd_faults : nat → fault;
}.

Definition cache_json (r : cache_record) : pyval :=
  PDict [(PStr (py "revision"), PInt (cr_revision r)); (PStr (py "entitlement_revision"), PInt (cr_entitlement r));
         (PStr (py "last_now"), PInt (cr_last_now r)); (PStr (py "verified_at"), PInt (cr_verified_at r));
         (PStr (py "envelope"), opt_str (cr_envelope r))].

(** [_write(directory, record)] *)
Definition write_cache (r : cache_record) : M cache_dir () := λ w,
  match json_compact float_repr (cache_json r) with
  | Raise e => (Raise e, w)
  | Ok text =>
      let rest := λ n, cd_faults w (S n) in
      match cd_faults w 0%nat with
      | Written => (Ok (), CacheDir (cd_present w) (Some text) fresh_stat rest)
      | Unsynced => (Raise OSError, CacheDir (cd_present w) (Some text) fresh_stat rest)
      | Lost => (Raise OSError, CacheDir (cd_present w) (cd_file w) (cd_stat w) rest)
      end
  end.

(** [initialize()] *)
Definition initialize_cache : M cache_dir () := λ w,
  if cd_present w then (Raise OSError, w)
  else write_cache (CacheRecord 0 1 0 0 None) (CacheDir true (cd_file w) (cd_stat w) (cd_faults w)).

Definition bad_cache : exn := ValueError "cache".

(** The fields of the record and their conditions at [now]. *)
Definition cache_fields (v : pyval) (now : Z) : result cache_record :=
  d ← model_of ["revision"; "entitlement_revision"; "last_now"; "verified_at"; "envelope"] v;
  revision ← int_in "revision" d; entitlement ← int_in "entitlement_revision" d;
  last_now ← int_in "last_now" d; verified_at ← int_in "verified_at" d;
  envelope ← item "envelope" d;
  require ((0 <=? revision) && (revision <? 2 ^ 63) && (1 <=? entitlement) && (entitlement <? 2 ^ 63)
           && (verified_at <=? last_now) && (0 <=? verified_at) && (last_now <=? now)) bad_cache;;
  require (Bool.eqb (revision =? 0) (match envelope with PNone => true | _ => false end)) bad_cache;;
  envelope ← optional str_of envelope;
  Ok (CacheRecord revision entitlement last_now verified_at envelope).

(** The floors of the record are those of its own envelope. *)
Definition check_floors (pv : provisioning_verifier) (r : cache_record) : result () :=
  match cr_envelope r with
  | None => Ok ()
  | Some text =>
      envelope ← of_option bad_cache (b64decode text);
      s ← verify_state pv envelope (cr_verified_at r) (cr_revision r - 1) (cr_entitlement r);
      require ((ns_revision s =? cr_revision r) && (ns_entitlement_revision s =? cr_entitlement r)) bad_cache
  end.

(** [_read(directory, now)] under [_locked()] *)
Definition decode_cache (pv : provisioning_verifier) (raw : bytes) (now : Z) : result cache_record :=
  raise_if (MAX_ENVELOPE_BYTES * 2 <? zlen raw) bad_cache;;
  v ← of_option bad_cache (json_loads_bytes raw);
  r ← cache_fields v now;
  check_floors pv r;;
  Ok r.
Definition read_cache (pv : provisioning_verifier) (now : Z) : M cache_dir cache_record := λ w,
  (if cd_present w then
     match cd_file w with
     | None => Raise OSError
     | Some raw =>
         require (safe_stat (cd_stat w)) (ProvisioningRejected "unsafe cache file");;
         refuse "invalid cache or clock rollback" (decode_cache pv raw now)
     end
   else Raise (ProvisioningRejected "cache requires explicit initialization"), w).

Definition at_time (now : Z) (r : cache_record) : cache_record :=
  CacheRecord (cr_revision r) (cr_entitlement r) now (cr_verified_at r) (cr_envelope r).

(** [accept(envelope, now=now)] *)
Definition accept_envelope (pv : provisioning_verifier) (envelope : bytes) (now : Z) : M cache_dir network_state :=
  r ← read_cache pv now;
  let r := at_time now r in
  write_cache r;;
  let known := match cr_envelope r with Some t => bool_decide (b64decode t = Some envelope) | None => false end in
  let floor := if known then cr_revision r - 1 else cr_revision r in
  s ← lift (verify_state pv envelope now floor (cr_entitlement r));
  write_cache (CacheRecord (ns_revision s) (ns_entitlement_revision s) now now (Some (b64encode envelope)));;
  mret s.

(** [load(now=now)] *)
Definition load_state (pv : provisioning_verifier) (now : Z) : M cache_dir (option network_state) :=
  r ← read_cache pv now;
  let r := at_time now r in
  write_cache r;;
  match cr_envelope r with
  | None => mret None
  | Some t =>
      envelope ← lift (of_option bad_cache (b64decode t));
      s ← lift (verify_state pv envelope now (cr_revision r - 1) (cr_entitlement r));
      write_cache r;;
      mret (Some s)
  end.
End Envelope.
