(* ===== verification/ProvisioningSpec.v ===== *)
(** The provisioning cache over all its runs: its record always reads back, its
    floors never fall, and what it returns is authentic and in force. *)
From Stdlib Require Import ZArith Lia.
From S2P Require Import Prelude PyData Json JsonText Ipaddress ProfileConfig Rns Ack AckSize Journal JournalSpec.
From S2P Require Import Configuration ConfigurationSpec Provisioning.

Local Open Scope Z_scope.

(** ** What a verified state is *)

Section Spec.
Context {RN : Rns} {PY : Pydantic} {PN : PydanticNetwork} (float_repr : spec_float → pystr).
Implicit Types (pv : provisioning_verifier) (w : cache_dir) (r : cache_record).

(** The envelope carries the state, signed by the trusted signer and encrypted
    to the device. *)
Definition carries pv (envelope : bytes) (s : network_state) : Prop :=
  ∃ outer ciphertext signature c t plain v,
    json_loads_bytes envelope = Some (PDict outer)
    ∧ lookup_str "ciphertext" outer = Some (PStr c) ∧ b64decode c = Some ciphertext
    ∧ lookup_str "signature" outer = Some (PStr t) ∧ b64decode t = Some signature
    ∧ validate (pv_signer pv) signature (PROVISIONING_DOMAIN ++ ciphertext) = true
    ∧ decrypt (pv_device pv) ciphertext = Some plain ∧ model_json plain = Some v ∧ network_fields v = Ok s.

Record in_force pv (now : Z) (s : network_state) : Prop := InForce {
  if_recipient : ns_recipient s = reference (pv_device pv);
  if_key : ns_wg s = pv_wg pv;
  if_lease : ns_issued s <= now < ns_expires s ∧ ns_expires s <= ns_issued s + 86400;
  if_valid : valid_network s = true;
}.

Lemma refuse_Ok {A} msg (m : result A) a : refuse msg m = Ok a ↔ m = Ok a.
Proof. unfold refuse, try_with. destruct m as [x|e]; [done|]. destruct e; simpl; split; done. Qed.

Lemma open_state_Ok pv envelope s : open_state pv envelope = Ok s → carries pv envelope s ∧ valid_network s = true.
Proof.
  unfold open_state, network_validate. intros H.
  repeat first [inv_ok1 | progress cbv zeta in H]. subst.
  match goal with H : _ && _ = true |- _ => apply andb_true_iff in H as [_ Hv] end.
  unfold text_in, item in *. repeat inv_ok1.
  repeat match goal with
  | H : of_option _ _ = Ok _ |- _ => apply of_option_Ok in H
  | H : as_str ?v = Some _ |- _ => destruct v; try discriminate H; injection H as H; subst
  | H : as_dict ?v = Some _ |- _ => destruct v; try discriminate H; injection H as H; subst
  end.
  split; [|done]. do 7 eexists. split_and!; eassumption.
Qed.

Lemma verify_state_Ok pv envelope now minimum minimum_entitlement s :
  verify_state pv envelope now minimum minimum_entitlement = Ok s ↔
  (0 <= now ∧ 0 <= minimum ∧ 1 <= minimum_entitlement) ∧ zlen envelope <= MAX_ENVELOPE_BYTES ∧ open_state pv envelope = Ok s
  ∧ ns_recipient s = reference (pv_device pv) ∧ ns_wg s = pv_wg pv ∧ ns_issued s <= now < ns_expires s
  ∧ minimum < ns_revision s ∧ minimum_entitlement <= ns_entitlement_revision s.
Proof.
  unfold verify_state. split.
  - intros H. repeat inv_ok1. match goal with H : refuse _ _ = Ok _ |- _ => apply refuse_Ok in H end. sbools. subst. done.
  - intros ((H1 & H2 & H3) & H4 & H5 & H6 & H7 & H8 & H9 & H10).
    rewrite (proj2 (Z.leb_le _ _) H1), (proj2 (Z.leb_le _ _) H2), (proj2 (Z.leb_le _ _) H3), (proj2 (Z.ltb_ge _ _) H4), H5.
    cbn [raise_if require negb andb mbind result_bind refuse try_with].
    rewrite H6, H7, !(proj2 (str_eqb_eq _ _) eq_refl), (proj2 (Z.leb_le (ns_issued s) _)), (proj2 (Z.ltb_lt now _)) by lia.
    rewrite (proj2 (Z.leb_gt _ _) H9), (proj2 (Z.ltb_ge _ _) H10). done.
Qed.

Lemma valid_network_ranges s : valid_network s = true →
  1 <= ns_revision s < 2 ^ 63 ∧ 1 <= ns_entitlement_revision s < 2 ^ 63 ∧ ns_expires s <= ns_issued s + 86400.
Proof. unfold valid_network, positive. intros H. bools. lia. Qed.

Lemma verify_state_force pv envelope now minimum minimum_entitlement s :
  verify_state pv envelope now minimum minimum_entitlement = Ok s → carries pv envelope s ∧ in_force pv now s.
Proof.
  intros (_ & _ & Ho & ? & ? & ? & _)%verify_state_Ok. apply open_state_Ok in Ho as [Hc Hv].
  pose proof (valid_network_ranges s Hv). split; [done|]. split; [done|done|lia|done].
Qed.
End Spec.

(** ** The record *)

Section Cache.
Context {RN : Rns} {PY : Pydantic} {PN : PydanticNetwork} (float_repr : spec_float → pystr).
Context (pv : provisioning_verifier).
Implicit Types (w : cache_dir) (r : cache_record).

(** A record whose floors are those of the envelope it keeps. *)
Record cache_ok r : Prop := CacheOk {
  co_times : 0 <= cr_verified_at r <= cr_last_now r;
  co_now : cr_last_now r < 2 ^ 63;
  co_content : match cr_envelope r with
    | None => cr_revision r = 0 ∧ cr_entitlement r = 1
    | Some t => ∃ envelope s, t = b64encode envelope ∧ all_bytes envelope
        ∧ verify_state pv envelope (cr_verified_at r) (cr_revision r - 1) (cr_entitlement r) = Ok s
        ∧ ns_revision s = cr_revision r ∧ ns_entitlement_revision s = cr_entitlement r
    end;
}.

Lemma cache_ok_ranges r : cache_ok r →
  0 <= cr_revision r < 2 ^ 63 ∧ 1 <= cr_entitlement r < 2 ^ 63 ∧ (cr_revision r = 0 ↔ cr_envelope r = None).
Proof.
  intros [_ _ Hc]. destruct (cr_envelope r) as [t|].
  - destruct Hc as (e & s & _ & _ & (_ & _ & Ho & _)%verify_state_Ok & <- & <-). apply open_state_Ok in Ho as [_ Hv].
    pose proof (valid_network_ranges s Hv). split_and!; try lia. split; [lia|done].
  - destruct Hc as [-> ->]. split_and!; try lia. done.
Qed.

Lemma cache_ok_floors r : cache_ok r → check_floors pv r = Ok ().
Proof.
  intros [_ _ Hc]. unfold check_floors. destruct (cr_envelope r) as [t|]; [|done].
  destruct Hc as (e & s & -> & He & Hv & Hr & Hn). rewrite (b64_roundtrip _ He). cbn [of_option mbind result_bind]. rewrite Hv.
  cbn [mbind result_bind]. by rewrite Hr, Hn, !Z.eqb_refl.
Qed.

Lemma cache_envelope_plain r t : cache_ok r → cr_envelope r = Some t → forallb plain_char t = true ∧ forallb is_scalar t = true ∧ zlen t <= 87384.
Proof.
  intros [_ _ Hc] E. rewrite E in Hc. destruct Hc as (e & s & -> & He & (_ & Hz & _)%verify_state_Ok & _).
  rewrite length_b64encode. unfold MAX_ENVELOPE_BYTES in Hz. split_and!; [by apply b64_plain|by apply b64encode_scalar|].
  assert ((zlen e + 2) / 3 <= 21846); [|lia]. apply Z.div_le_upper_bound; lia.
Qed.

Lemma cache_fields_json r now : cache_ok r → cr_last_now r <= now → cache_fields (cache_json r) now = Ok r.
Proof.
  intros Hok Hn. destruct (cache_ok_ranges r Hok) as (H1 & H2 & H3). pose proof (co_times _ Hok).
  unfold cache_fields, cache_json, model_of, int_in. do 4 (mred; dict_simpl). mred.
  rewrite !(proj2 (Z.leb_le _ _)), !(proj2 (Z.ltb_lt _ _)) by lia. mred.
  assert (Bool.eqb (cr_revision r =? 0) (match opt_str (cr_envelope r) with PNone => true | _ => false end) = true) as ->.
  { destruct (cr_envelope r) as [t|]; cbn [opt_str]; [|by rewrite (proj2 H3 eq_refl)].
    rewrite (proj2 (Z.eqb_neq _ _)); [done|]. intros E%H3. done. }
  mred. by destruct r as [? ? ? ? [t|]].
Qed.

Lemma cache_text r : cache_ok r → ∃ t, json_compact float_repr (cache_json r) = Ok t ∧ zlen t <= MAX_ENVELOPE_BYTES * 2
  ∧ json_loads_bytes t = Some (cache_json r).
Proof.
  intros Hok. destruct (cache_ok_ranges r Hok) as (H1 & H2 & _). pose proof (co_times _ Hok). pose proof (co_now _ Hok).
  assert (jsonable (cache_json r) = true) as Hj.
  { unfold cache_json. cbn [jsonable forallb fst snd]. destruct (cr_envelope r) as [t|] eqn:E; cbn [opt_str jsonable]; [|reflexivity].
    destruct (cache_envelope_plain r t Hok E) as (_ & -> & _). reflexivity. }
  assert (sized float_repr (cache_json r) 100000) as (t & Ht & Hz).
  { assert (cache_json r = PDict (List.map member [(py "revision", PInt (cr_revision r)); (py "entitlement_revision", PInt (cr_entitlement r));
      (py "last_now", PInt (cr_last_now r)); (py "verified_at", PInt (cr_verified_at r)); (py "envelope", opt_str (cr_envelope r))])) as -> by done.
    apply (sized_members float_repr _ [py "revision"; py "entitlement_revision"; py "last_now"; py "verified_at"; py "envelope"]
      [19; 19; 19; 19; 87386]); [done|by vm_compute|].
    unfold members_size. repeat (apply Forall2_cons; split; [split; [by vm_compute|]|]); [..|by apply Forall2_nil]; cbn [snd];
      try (apply sized_int; lia).
    destruct (cr_envelope r) as [t|] eqn:E; cbn [opt_str]; [|by exists (py "null")].
    destruct (cache_envelope_plain r t Hok E) as (Hp & _ & Hl). by apply (sized_str float_repr _ 87384). }
  exists t. split; [done|]. split; [unfold MAX_ENVELOPE_BYTES; lia|]. pose proof (compact_ascii _ _ _ Hj Ht) as Ha.
  destruct (compact_loads float_repr _ Hj) as (t' & Ht' & Hl). rewrite Ht in Ht'. injection Ht' as <-.
  unfold json_loads_bytes. rewrite (json_decode_ascii _ Ha). exact Hl.
Qed.

(** The directory holds the record. *)
Definition holds w r : Prop :=
  cd_present w = true ∧ safe_stat (cd_stat w) = true ∧ cache_ok r
  ∧ ∃ t, json_compact float_repr (cache_json r) = Ok t ∧ cd_file w = Some t.

Lemma read_holds w r now : holds w r → cr_last_now r <= now → read_cache pv now w = (Ok r, w).
Proof.
  intros (Hp & Hs & Hok & t & Ht & Hf) Hn. unfold read_cache. rewrite Hp, Hf, Hs. cbn [require mbind result_bind].
  destruct (cache_text r Hok) as (t' & Ht' & Hz & Hl). rewrite Ht in Ht'. injection Ht' as <-.
  assert (decode_cache pv t now = Ok r) as ->; [|done].
  unfold decode_cache. rewrite (proj2 (Z.ltb_ge _ _) Hz). cbn [raise_if require negb mbind result_bind]. rewrite Hl.
  cbn [of_option mbind result_bind]. rewrite cache_fields_json by done. cbn [mbind result_bind]. by rewrite cache_ok_floors.
Qed.

(** A clock behind the record is refused. *)
Lemma read_behind w r now : holds w r → now < cr_last_now r → ∃ e, read_cache pv now w = (Raise e, w).
Proof.
  intros (Hp & Hs & Hok & t & Ht & Hf) Hn. unfold read_cache. rewrite Hp, Hf, Hs. cbn [require mbind result_bind].
  destruct (cache_text r Hok) as (t' & Ht' & Hz & Hl). rewrite Ht in Ht'. injection Ht' as <-.
  assert (decode_cache pv t now = Raise bad_cache) as ->; [|by eexists].
  unfold decode_cache. rewrite (proj2 (Z.ltb_ge _ _) Hz). cbn [raise_if require negb mbind result_bind]. rewrite Hl.
  cbn [of_option mbind result_bind]. unfold cache_fields, cache_json, model_of, int_in. do 4 (mred; dict_simpl). mred.
  by rewrite (proj2 (Z.leb_gt (cr_last_now r) now)), andb_false_r by lia.
Qed.

Lemma write_holds w r r' res w' : holds w r → cache_ok r' → write_cache float_repr r' w = (res, w') →
  (res = Ok () ∧ holds w' r') ∨ (∃ e, res = Raise e ∧ (holds w' r' ∨ holds w' r)).
Proof.
  intros Hw Hok H. unfold write_cache in H. destruct (cache_text r' Hok) as (t & Ht & _). rewrite Ht in H.
  destruct Hw as (Hp & Hs & Hr & t0 & Ht0 & Hf).
  destruct (cd_faults w 0%nat); injection H as <- <-; unfold holds; cbn [cd_present cd_stat cd_file].
  - left. split; [done|]. split_and!; eauto.
  - right. eexists. split; [done|]. right. split_and!; eauto.
  - right. eexists. split; [done|]. left. split_and!; eauto.
Qed.

(** ** How a record may be followed by another *)

Record follows r r' : Prop := Follows {
  fo_revision : cr_revision r <= cr_revision r';
  fo_entitlement : cr_entitlement r <= cr_entitlement r';
  fo_now : cr_last_now r <= cr_last_now r';
  fo_same : cr_revision r = cr_revision r' → cr_envelope r = cr_envelope r';
}.

Lemma follows_refl r : follows r r.
Proof. by split. Qed.

Lemma follows_trans r1 r2 r3 : follows r1 r2 → follows r2 r3 → follows r1 r3.
Proof.
  intros [A1 A2 A3 A4] [B1 B2 B3 B4]. split; [lia..|]. intros E. rewrite A4 by lia. apply B4. lia.
Qed.

Lemma at_time_ok r now : cache_ok r → cr_last_now r <= now < 2 ^ 63 → cache_ok (at_time now r) ∧ follows r (at_time now r).
Proof.
  intros [H1 H2 H3] Hn. split; [|split; cbn; lia || done]. split; cbn; [lia|lia|done].
Qed.

(** What an operation leaves, and what it answers when it succeeds. *)
Definition moves {X} (m : M cache_dir X) (w : cache_dir) r (Q : X → cache_record → Prop) : Prop :=
  ∃ r', holds (m w).2 r' ∧ follows r r' ∧ ∀ x, (m w).1 = Ok x → Q x r'.

Lemma moves_bind {X Y} (m : M cache_dir X) (f : X → M cache_dir Y) w r (P : X → cache_record → Prop) Q :
  moves m w r P → (∀ x w1 r1, holds w1 r1 → P x r1 → moves (f x) w1 r1 Q) → moves (m ≫= f) w r Q.
Proof.
  intros (r1 & H1 & F1 & P1) Hf. unfold moves, mbind, M_bind. destruct (m w) as [[x|e] w1] eqn:E; cbn [fst snd] in *.
  - destruct (Hf x w1 r1 H1 (P1 x eq_refl)) as (r2 & H2 & F2 & Q2). exists r2. split; [done|]. split; [by eapply follows_trans|done].
  - exists r1. done.
Qed.

Lemma moves_lift {X} (res : result X) w r (Q : X → cache_record → Prop) : holds w r → (∀ x, res = Ok x → Q x r) → moves (lift res) w r Q.
Proof. intros Hw HQ. exists r. split; [done|]. split; [apply follows_refl|exact HQ]. Qed.

Lemma moves_ret {X} (x : X) w r (Q : X → cache_record → Prop) : holds w r → Q x r → moves (mret x) w r Q.
Proof. intros Hw HQ. exists r. split; [done|]. split; [apply follows_refl|]. by intros y [= <-]. Qed.

Lemma moves_read now w r : holds w r → moves (read_cache pv now) w r (λ r' r0, r' = r0 ∧ r0 = r ∧ cr_last_now r <= now).
Proof.
  intros Hw. destruct (Z.leb_spec (cr_last_now r) now) as [Hn|Hn].
  - exists r. rewrite (read_holds w r now Hw Hn). cbn [fst snd]. split; [done|]. split; [apply follows_refl|]. by intros x [= <-].
  - exists r. destruct (read_behind w r now Hw Hn) as [e ->]. cbn [fst snd]. split; [done|]. split; [apply follows_refl|done].
Qed.

Lemma moves_write r' w r : holds w r → cache_ok r' → follows r r' → moves (write_cache float_repr r') w r (λ _ r0, r0 = r').
Proof.
  intros Hw Hok Hf. destruct (write_cache float_repr r' w) as [res w'] eqn:E. unfold moves. rewrite E. cbn [fst snd].
  destruct (write_holds w r r' res w' Hw Hok E) as [[-> H]|(e & -> & [H|H])]; [exists r'|exists r'|exists r]; split_and!; try done;
    apply follows_refl.
Qed.

Lemma holds_ok w r : holds w r → cache_ok r.
Proof. by intros (_ & _ & ? & _). Qed.

Lemma verify_same envelope now1 now2 m1 m2 n1 n2 s1 s2 :
  verify_state pv envelope now1 m1 n1 = Ok s1 → verify_state pv envelope now2 m2 n2 = Ok s2 → s1 = s2.
Proof. intros (_ & _ & H1 & _)%verify_state_Ok (_ & _ & H2 & _)%verify_state_Ok. congruence. Qed.

(** The record that stores an accepted envelope. *)
Lemma accepted_follows r envelope now s (known : bool) : cache_ok r → cr_last_now r = now → all_bytes envelope →
  (known = true → cr_envelope r = Some (b64encode envelope)) →
  verify_state pv envelope now (if known then cr_revision r - 1 else cr_revision r) (cr_entitlement r) = Ok s →
  let r' := CacheRecord (ns_revision s) (ns_entitlement_revision s) now now (Some (b64encode envelope)) in
  cache_ok r' ∧ follows r r' ∧ (cr_revision r < ns_revision s ∨ cr_envelope r = Some (b64encode envelope)).
Proof.
  intros Hok Hnow He Hk Hv. pose proof Hv as (H1 & H2 & Ho & H4 & H5 & H6 & H7 & H8)%verify_state_Ok.
  pose proof (open_state_Ok _ _ _ Ho) as [_ Hvn]. pose proof (valid_network_ranges s Hvn).
  destruct Hok as [O1 O2 O3]. cbv zeta. split; [|split].
  - split; cbn; [lia|lia|]. exists envelope, s. split; [done|]. split; [done|]. split; [|done]. apply verify_state_Ok. split_and!; try done; lia.
  - destruct known.
    + rewrite (Hk eq_refl) in O3. destruct O3 as (e0 & s0 & E0 & He0 & Hv0 & Hr0 & Hn0).
      assert (e0 = envelope) as ->. { pose proof (b64_roundtrip _ He0) as R. rewrite <- E0, b64_roundtrip in R by done. by injection R. }
      rewrite (verify_same _ _ _ _ _ _ _ _ _ Hv0 Hv) in *. split; cbn; [lia|lia|lia|]. by rewrite (Hk eq_refl).
    + split; cbn; [lia|lia|lia|]. intros E. lia.
  - destruct known; [right; by apply Hk|left; lia].
Qed.

Lemma accept_moves envelope now w r : holds w r → all_bytes envelope → now < 2 ^ 63 →
  moves (accept_envelope float_repr pv envelope now) w r (λ s r',
    carries pv envelope s ∧ in_force pv now s ∧ cr_revision r' = ns_revision s ∧ cr_envelope r' = Some (b64encode envelope)
    ∧ (cr_revision r < ns_revision s ∨ cr_envelope r = Some (b64encode envelope))).
Proof.
  intros Hw He Hn. unfold accept_envelope. eapply moves_bind; [by apply moves_read|].
  intros r0 w0 r1 H0 (-> & -> & Hle). destruct (at_time_ok r now (holds_ok _ _ H0)) as [Hok Hf]; [lia|].
  eapply moves_bind; [by apply moves_write|]. intros [] w1 r2 H1 ->.
  set (known := match cr_envelope (at_time now r) with Some t => bool_decide (b64decode t = Some envelope) | None => false end).
  cbv zeta. eapply moves_bind; [apply (moves_lift _ w1 (at_time now r) (λ s r0, r0 = at_time now r ∧ verify_state pv envelope now
    (if known then cr_revision (at_time now r) - 1 else cr_revision (at_time now r)) (cr_entitlement (at_time now r)) = Ok s)); done|].
  intros s w2 r3 H2 (-> & Hv).
  destruct (accepted_follows (at_time now r) envelope now s known Hok eq_refl He) as (Ho & Hfo & Hor); [|exact Hv|].
  { unfold known. destruct (cr_envelope (at_time now r)) as [t|] eqn:Et; [|done]. intros Hb%bool_decide_eq_true.
    destruct Hok as [_ _ Hc]. rewrite Et in Hc. destruct Hc as (e0 & s0 & -> & He0 & _). rewrite (b64_roundtrip _ He0) in Hb. by injection Hb as ->. }
  eapply moves_bind; [by apply moves_write|]. intros [] w3 r4 H3 ->. apply moves_ret; [done|].
  destruct (verify_state_force _ _ _ _ _ _ Hv) as [Hc Hi]. done.
Qed.

Lemma load_moves now w r : holds w r → now < 2 ^ 63 →
  moves (load_state float_repr pv now) w r (λ o r',
    cr_revision r' = cr_revision r ∧ ∀ s, o = Some s → ∃ envelope, cr_envelope r = Some (b64encode envelope)
      ∧ carries pv envelope s ∧ in_force pv now s ∧ ns_revision s = cr_revision r).
Proof.
  intros Hw Hn. unfold load_state. eapply moves_bind; [by apply moves_read|].
  intros r0 w0 r1 H0 (-> & -> & Hle). destruct (at_time_ok r now (holds_ok _ _ H0)) as [Hok Hf]; [lia|].
  eapply moves_bind; [by apply moves_write|]. intros [] w1 r2 H1 ->.
  change (cr_envelope (at_time now r)) with (cr_envelope r). destruct (cr_envelope r) as [t|] eqn:Et; [|by apply moves_ret].
  pose proof (co_content _ (holds_ok _ _ H0)) as Hc. rewrite Et in Hc. destruct Hc as (e & s0 & -> & He & Hv0 & Hr0 & _).
  eapply moves_bind; [apply (moves_lift _ w1 (at_time now r) (λ x r0, r0 = at_time now r ∧ x = e)); [done|]|].
  { rewrite (b64_roundtrip _ He). by intros x [= <-]. }
  intros x w2 r3 H2 (-> & ->).
  eapply moves_bind; [apply (moves_lift _ w2 (at_time now r) (λ s r0, r0 = at_time now r
    ∧ verify_state pv e now (cr_revision (at_time now r) - 1) (cr_entitlement (at_time now r)) = Ok s)); done|].
  intros s w3 r4 H3 (-> & Hv). eapply moves_bind; [apply moves_write; [done|done|apply follows_refl]|]. intros [] w4 r5 H4 ->.
  apply moves_ret; [done|]. split; [done|]. intros s' [= <-]. destruct (verify_state_force _ _ _ _ _ _ Hv) as [Hca Hi].
  rewrite (verify_same _ _ _ _ _ _ _ _ _ Hv0 Hv) in *. exists e. done.
Qed.

(** ** Runs *)

Inductive cache_op := CacheAccept (envelope : bytes) (now : Z) | CacheLoad (now : Z).

Definition perform_cache (o : cache_op) : M cache_dir () :=
  match o with
  | CacheAccept envelope now => tryM (accept_envelope float_repr pv envelope now;; mret ()) (λ _, mret ())
  | CacheLoad now => tryM (load_state float_repr pv now;; mret ()) (λ _, mret ())
  end.

(** Octets at a 64-bit time. *)
Definition cache_op_ok (o : cache_op) : Prop :=
  match o with CacheAccept envelope now => all_bytes envelope ∧ now < 2 ^ 63 | CacheLoad now => now < 2 ^ 63 end.

Lemma moves_try {X} (m : M cache_dir X) w r Q : moves m w r Q → ∃ r', holds (tryM (m;; mret ()) (λ _, mret ()) w).2 r' ∧ follows r r'.
Proof.
  intros (r' & H & F & _). exists r'. unfold tryM, mbind, M_bind. destruct (m w) as [[x|e] w']; done.
Qed.

Lemma run_cache ops w r : holds w r → Forall cache_op_ok ops → ∃ r', holds (iterM perform_cache ops w).2 r' ∧ follows r r'.
Proof.
  intros Hw H. revert w r Hw. induction H as [|o ops Ho H IH]; intros w r Hw; cbn [iterM]; [exists r; split; [done|apply follows_refl]|].
  assert (∃ r1, holds (perform_cache o w).2 r1 ∧ follows r r1) as (r1 & H1 & F1).
  { destruct o as [envelope now|now]; eapply moves_try; [apply accept_moves|apply load_moves]; [done|apply Ho|apply Ho|done|exact Ho]. }
  destruct (IH _ _ H1) as (r2 & H2 & F2). exists r2. split; [|by eapply follows_trans].
  unfold mbind, M_bind. assert ((perform_cache o w).1 = Ok ()) as E.
  { unfold perform_cache, tryM. destruct o; match goal with |- context [?m w] => destruct (m w) as [[[]|] ?] end; done. }
  destruct (perform_cache o w) as [res w']. cbn in E |- *. by subst res.
Qed.

(** C28: The cache never loses or weakens what it accepted.  From any record it
    holds, after any calls with any envelopes and clock readings, and however
    its writes end, the directory holds a record that reads back at every later
    time; its revision, its entitlement floor and its clock never fall, and the
    revision stays only with the same envelope.  What [accept] then returns is a
    state signed for the device, in force at that time, either newer than
    everything accepted before or the stored envelope itself. *)
Theorem cache_never_regresses ops w r : holds w r → Forall cache_op_ok ops →
  let w' := (iterM perform_cache ops w).2 in
  ∃ r', holds w' r' ∧ follows r r'
    ∧ (∀ now, cr_last_now r' <= now → read_cache pv now w' = (Ok r', w'))
    ∧ ∀ envelope now s w2, all_bytes envelope → now < 2 ^ 63 → accept_envelope float_repr pv envelope now w' = (Ok s, w2) →
        carries pv envelope s ∧ in_force pv now s
        ∧ (cr_revision r' < ns_revision s ∨ cr_envelope r' = Some (b64encode envelope))
        ∧ ∃ r2, holds w2 r2 ∧ cr_revision r2 = ns_revision s ∧ cr_envelope r2 = Some (b64encode envelope).
Proof.
  intros Hw Ho. destruct (run_cache ops w r Hw Ho) as (r' & H' & F). exists r'. split_and!; [done|done| |].
  - intros now. by apply read_holds.
  - intros envelope now s w2 He Hn E. destruct (accept_moves envelope now _ r' H' He Hn) as (r2 & H2 & _ & Q).
    rewrite E in H2, Q. cbn [fst snd] in *. destruct (Q s eq_refl) as (Q1 & Q2 & Q3 & Q4 & Q5). eauto 8.
Qed.
End Cache.

(** The directory [initialize] leaves. *)
Lemma initialize_holds {RN : Rns} {PY : Pydantic} {PN : PydanticNetwork} float_repr pv w :
  cd_present w = false → cd_faults w 0%nat = Written →
  holds float_repr pv (initialize_cache float_repr w).2 (CacheRecord 0 1 0 0 None).
Proof.
  intros Hp Hf. unfold initialize_cache, write_cache. rewrite Hp. cbn [cd_faults]. rewrite Hf.
  assert (cache_ok pv (CacheRecord 0 1 0 0 None)) as Hok by (split; cbn; lia || done).
  destruct (cache_text float_repr pv _ Hok) as (t & Ht & _). rewrite Ht. cbn [snd]. split_and!; eauto.
Qed.
