(* ===== verification/ProvisioningExamples.v ===== *)
(** A provisioning cache in use: a state is issued, accepted, redelivered and
    loaded; an older one, a foreign one and a clock that went back are refused. *)
From Stdlib Require Import ZArith Lia.
From S2P Require Import Prelude PyData Json JsonText Ipaddress ProfileConfig Rns RnsModel Ack Journal JournalExamples.
From S2P Require Import Configuration ConfigurationSpec ConfigurationSafety ConfigurationExamples Provisioning ProvisioningSpec.

Local Open Scope Z_scope.

Definition candidate_value (g : gateway_candidate) : pyval :=
  PDict [(PStr (py "gateway_id"), PStr (gc_id g)); (PStr (py "provider_id"), PStr (gc_provider g)); (PStr (py "region"), PStr (gc_region g));
         (PStr (py "asn"), opt_int (gc_asn g)); (PStr (py "transport"), PStr (py "wireguard"));
         (PStr (py "endpoint"), PStr (ip_text (gc_endpoint g))); (PStr (py "port"), PInt (gc_port g)); (PStr (py "public_key"), PStr (gc_key g))].
Definition network_value (s : network_state) : pyval :=
  PDict [(PStr (py "schema_version"), PInt 1); (PStr (py "revision"), PInt (ns_revision s)); (PStr (py "recipient"), PStr (ns_recipient s));
         (PStr (py "issued_at"), PInt (ns_issued s)); (PStr (py "expires_at"), PInt (ns_expires s));
         (PStr (py "entitlement_id"), PStr (ns_entitlement s)); (PStr (py "entitlement_revision"), PInt (ns_entitlement_revision s));
         (PStr (py "wireguard_public_key"), PStr (ns_wg s));
         (PStr (py "addresses"), PList ((λ a, PStr (network_text a)) <$> ns_addresses s));
         (PStr (py "dns"), PList ((λ a, PStr (ip_text a)) <$> ns_dns s));
         (PStr (py "gateways"), PList (candidate_value <$> ns_gateways s))].

#[export] Instance toy_network : PydanticNetwork := {|
  ip_any_address := λ v, as_str v ≫= ip_address;
  ip_any_interface := λ v, as_str v ≫= ip_interface;
  state_dump_json := λ s, match json_compact no_floats (network_value s) with Ok t => t | Raise _ => [-1] end;
|}.

Definition authority : @identity toy_rns := 12.
Definition sample_pv : provisioning_verifier := ProvisioningVerifier (public_of authority) device wg_key.

Definition sample_state (revision entitlement : Z) (wg : pystr) : network_state :=
  NetworkState revision (reference device) 900 5000 (py "plan") entitlement wg
    [(IPv4 167772162, 32); (IPv6 2 None, 128)] [IPv4 16843009]
    [GatewayCandidate (py "gw") (py "provider") (py "NL") (Some 64500) (IPv4 3221225991) 51820 wg_key].

Definition issued_state (revision entitlement : Z) (wg : pystr) : bytes :=
  match issue_state no_floats (sample_state revision entitlement wg) (public_of device) authority [] with Ok raw => raw | Raise _ => [] end.

Definition empty_dir (faults : nat → fault) : cache_dir := CacheDir false None fresh_stat faults.
Definition fresh_cache (faults : nat → fault) : cache_dir := (initialize_cache no_floats (empty_dir faults)).2.

(** The second write after initialization fails after its rename. *)
Definition flaky (n : nat) : fault := if Nat.eqb n 2 then Unsynced else Written.

(** Two states are accepted in turn; the older one, one with a stale
    entitlement and one for another key are refused, as is a clock gone back. *)
Definition calls_of (first second stale foreign : bytes) : list cache_op :=
  [CacheLoad 1000; CacheAccept first 1010; CacheAccept second 1020; CacheAccept first 1030; CacheAccept stale 1040;
   CacheAccept foreign 1050; CacheLoad 1000].
Definition cache_calls : list cache_op :=
  calls_of (issued_state 1 1 wg_key) (issued_state 2 3 wg_key) (issued_state 3 1 wg_key) (issued_state 4 3 LOCAL_KEY).

Definition cache_after (faults : nat → fault) : cache_dir := (iterM (perform_cache no_floats sample_pv) cache_calls (fresh_cache faults)).2.

(** What the cache holds at a time. *)
Definition held (w : cache_dir) (now : Z) : option (Z * Z * Z) :=
  match (read_cache sample_pv now w).1 with Ok r => Some (cr_revision r, cr_entitlement r, cr_last_now r) | Raise _ => None end.

Lemma forallb_bytes b : forallb is_byte b = true → all_bytes b.
Proof. rewrite forallb_forall, <- List.Forall_forall. done. Qed.

Lemma calls_of_ok a b c d : all_bytes a → all_bytes b → all_bytes c → all_bytes d → Forall cache_op_ok (calls_of a b c d).
Proof. intros. repeat constructor; done. Qed.

Lemma cache_calls_ok : Forall cache_op_ok cache_calls.
Proof. apply calls_of_ok; apply forallb_bytes; vm_compute; reflexivity. Qed.

Lemma cache_never_regresses_witness :
  held (cache_after (λ _, Written)) 2000 = Some (2, 3, 1050)
  ∧ held (cache_after flaky) 2000 = Some (2, 3, 1050)
  ∧ ∃ r', holds no_floats sample_pv (cache_after flaky) r' ∧ follows (CacheRecord 0 1 0 0 None) r'
    ∧ ∀ now, cr_last_now r' <= now → read_cache sample_pv now (cache_after flaky) = (Ok r', cache_after flaky).
Proof.
  split; [vm_compute; reflexivity|]. split; [vm_compute; reflexivity|].
  destruct (cache_never_regresses no_floats sample_pv cache_calls (fresh_cache flaky) (CacheRecord 0 1 0 0 None)
    (initialize_holds no_floats sample_pv (empty_dir flaky) eq_refl eq_refl) cache_calls_ok) as (r' & H1 & H2 & H3 & _).
  exists r'. split; [exact H1|]. split; [exact H2|exact H3].
Defined.
