(* ===== verification/Codec.v ===== *)
(** The bounded LXMF text subset of messenger/codec.py: what a signed message
    may carry, the Ogg/Opus envelope checks, and packing against unpacking. *)
From Stdlib Require Import ZArith Lia.
From S2P Require Import Prelude PyData Rns Notices.

Local Open Scope Z_scope.

Definition MAX_TEXT : Z := 4096.
Definition MAX_PACKED : Z := 131584.
Definition MAX_AUDIO : Z := 131072.

(** ** Ogg pages *)

(** [(crc << 1) ^ 0x04c11db7 if crc & 0x80000000 else crc << 1) & 0xffffffff] *)
Definition crc_shift (crc : Z) : Z :=
  Z.land
    (if Z.land crc 0x80000000 =? 0 then Z.shiftl crc 1
     else Z.lxor (Z.shiftl crc 1) 0x04c11db7)
    0xffffffff.

Definition crc_byte (crc byte : Z) : Z :=
  Nat.iter 8 crc_shift (Z.lxor crc (Z.shiftl byte 24)).

Definition _ogg_crc (page : bytes) : Z := foldl crc_byte 0 page.

(** [page[22:26] = bytes(4)] *)
Definition put_at (off : nat) (field page : bytes) : bytes :=
  take off page ++ field ++ drop (off + length field) page.
Definition clear_crc (page : bytes) : bytes := put_at 22 [0; 0; 0; 0] page.

Definition OGGS : bytes := py "OggS" ++ [0].
Definition octet (i : nat) (raw : bytes) : Z := default 0 (raw !! i).

(** [raw[offset+5] & 4]: the end-of-stream flag of the page at [offset]. *)
Definition eos_flag (offset : nat) (raw : bytes) : bool :=
  negb (Z.land (octet (offset + 5) raw) 4 =? 0).

(** [sum(raw[offset+27:header])] *)
Definition segment_total (offset header : nat) (raw : bytes) : Z :=
  foldr Z.add 0 (slice (offset + 27) header raw).

(** The loop variables of [finalize_recorded_opus]. *)
Record fin_state := FinState { fs_offset : nat; fs_last : option nat; fs_header : nat }.

(** One page; leaves with [(last_offset, header)] at the end of the data. *)
Definition fin_body (raw : bytes) (s : fin_state) : result (fin_state + nat * nat) :=
  let offset := fs_offset s in
  if (offset <? length raw)%nat then
    raise_if (length raw <? offset + 27)%nat (ValueError "Invalid Ogg page");;
    raise_if (negb (bool_decide (slice offset (offset + 5) raw = OGGS)))
      (ValueError "Invalid Ogg page");;
    let count := octet (offset + 26) raw in
    let header := (offset + 27 + Z.to_nat count)%nat in
    raise_if ((count =? 0) || (length raw <? header)%nat) (ValueError "Invalid Ogg segments");;
    let endz := Z.of_nat header + segment_total offset header raw in
    raise_if (zlen raw <? endz) (ValueError "Truncated audio");;
    let end_ := Z.to_nat endz in
    let page := slice offset end_ raw in
    raise_if (negb (_ogg_crc (clear_crc page) =? le_at 4 22 page))
      (ValueError "Invalid Ogg checksum");;
    raise_if (eos_flag offset raw && negb (end_ =? length raw)%nat)
      (ValueError "Chained audio not supported");;
    Ok (inl (FinState end_ (Some offset) header))
  else
    last ← of_option TypeError (fs_last s);
    Ok (inr (last, fs_header s)).

(** [page[5] |= 4; page[22:26] = bytes(4); page[22:26] = pack('<I', crc)] *)
Definition set_eos (page : bytes) : bytes :=
  let page := clear_crc (<[5%nat := Z.lor (octet 5 page) 4]> page) in
  put_at 22 (le_bytes 4 (_ogg_crc page)) page.

(** ** Opus envelope *)

Record opus_state := OpusState {
  os_offset : nat;
  os_sequence : Z;
  os_serial : option Z;
  os_last : Z;
  os_skip : option Z;
  os_eos : bool;
}.

Definition opus_init : opus_state := OpusState 0 0 None 0 None false.

(** [packet.startswith(b'OpusHead') and len(packet) == 19 and packet[8] == 1 and
    packet[9] == 1 and packet[18] == 0] *)
Definition mono_head (packet : bytes) : bool :=
  startswith (py "OpusHead") packet && (length packet =? 19)%nat
  && (octet 8 packet =? 1) && (octet 9 packet =? 1) && (octet 18 packet =? 0).

Definition opus_body (raw : bytes) (s : opus_state) : result (opus_state + opus_state) :=
  let offset := os_offset s in
  if (offset <? length raw)%nat then
    raise_if (length raw <? offset + 27)%nat (ValueError "Invalid Ogg page");;
    raise_if (negb (bool_decide (slice offset (offset + 5) raw = OGGS)))
      (ValueError "Invalid Ogg page");;
    let count := octet (offset + 26) raw in
    let header := (offset + 27 + Z.to_nat count)%nat in
    raise_if (length raw <? header)%nat (ValueError "Invalid Ogg segments");;
    let endz := Z.of_nat header + segment_total offset header raw in
    raise_if (zlen raw <? endz) (ValueError "Truncated audio");;
    let end_ := Z.to_nat endz in
    let page_serial := le_at 4 (offset + 14) raw in
    let number := le_at 4 (offset + 18) raw in
    let serial := default page_serial (os_serial s) in
    raise_if (negb (page_serial =? serial) || negb (number =? os_sequence s))
      (ValueError "Invalid Ogg sequence");;
    skip ←
      (if os_sequence s =? 0 then
         let packet := slice header end_ raw in
         require (mono_head packet) (ValueError "Mono Opus required");;
         Ok (Some (le_at 2 10 packet))
       else Ok (os_skip s));
    let granule := le_at 8 (offset + 6) raw in
    last ←
      (if negb (granule =? 2 ^ 64 - 1) then
         raise_if (granule <? os_last s) (ValueError "Invalid audio duration");;
         Ok granule
       else Ok (os_last s));
    let eos := eos_flag offset raw in
    raise_if (eos && negb (end_ =? length raw)%nat) (ValueError "Chained audio not supported");;
    Ok (inl (OpusState end_ (os_sequence s + 1) (Some serial) last skip eos))
  else Ok (inr s).

(** The whole envelope check; the decoder validates the codec data. *)
Definition opus_duration (v : pyval) : result Z :=
  raw ← of_option (ValueError "Invalid audio size") (as_bytes v);
  require ((64 <=? zlen raw) && (zlen raw <=? MAX_AUDIO)) (ValueError "Invalid audio size");;
  s ← loop (S (length raw)) (opus_body raw) opus_init;
  skip ← of_option TypeError (os_skip s);
  let duration := truediv (os_last s - skip) 48000 in
  require (os_eos s && flt (float_of_Z 0) duration && fle duration (float_of_Z 61))
    (ValueError "Voice limit is 60 seconds");;
  of_option (ValueError "round") (round_of_float (fmul duration (float_of_Z 1000))).

Definition finalize_recorded_opus (v : pyval) : result bytes :=
  raw ← of_option (ValueError "Invalid audio size") (as_bytes v);
  require ((64 <=? zlen raw) && (zlen raw <=? MAX_AUDIO)) (ValueError "Invalid audio size");;
  '(last_offset, header) ← loop (S (length raw)) (fin_body raw) (FinState 0 None 0);
  raise_if (octet (header - 1) raw =? 255) (ValueError "Incomplete Opus packet");;
  let raw' :=
    if eos_flag last_offset raw then raw
    else take last_offset raw ++ set_eos (drop last_offset raw) in
  opus_duration (PBytes raw');;
  Ok raw'.

(** ** Message contents *)

(** What [parse_fields] adds to a message. *)
Inductive extra : Type :=
  | XText
  | XService (event : notice)
  | XStored (target : pystr)
  | XEdit (target : pystr) (revision : Z)
  | XAudio (audio : pystr) (duration_ms : Z) (audio_mode : option Z).

#[export] Instance extra_eq_dec : EqDecision extra.
Proof. solve_decision. Defined.

(** The dictionary [unpack] returns. *)
Record parsed := Parsed {
  p_id : pystr;
  p_peer : pystr;
  p_text : pystr;
  p_timestamp : pyval;
  p_extra : extra;
}.

Section Codec.
Context {LX : Lxmf} {RN : Rns}.

(** [RADIO_FRAMES]: frame size in octets and in milliseconds. *)
Definition RADIO_FRAMES (mode : Z) : option (Z * Z) :=
  if mode =? AM_CODEC2_1600 then Some (8, 40)
  else if mode =? AM_CODEC2_2400 then Some (6, 20)
  else if mode =? AM_CODEC2_3200 then Some (8, 20)
  else None.

Definition radio_duration (v mode : pyval) : result Z :=
  m ← of_option (ValueError "Unsupported audio mode") (as_int mode);
  '(size, millis) ← of_option (ValueError "Unsupported audio mode") (RADIO_FRAMES m);
  raw ← of_option (ValueError "Unsupported audio mode") (as_bytes v);
  raise_if ((zlen raw =? 0) || negb (zlen raw mod size =? 0)
            || (60000 <? zlen raw / size * millis)) (ValueError "Invalid Codec2 frames");;
  Ok (zlen raw / size * millis).

(** [identity(public)]: the public half; only the length is checked here. *)
Definition identity_of (public : bytes) : result bytes :=
  require (length public =? 64)%nat (ValueError "Invalid contact public key");;
  Ok public.

Definition address (public : bytes) : result bytes :=
  destination_hash <$> identity_of public.

(** [edit.get('fc')] is the int 1 and the text is empty. *)
Definition fc_one (edit : list (pyval * pyval)) : bool :=
  match lookup_str "fc" edit with Some (PInt z) => z =? 1 | _ => false end.

Definition field_type_is (name : string) (edit : list (pyval * pyval)) : bool :=
  match lookup_str "type" edit with Some v => key_is_str (py name) v | None => false end.

(** A target is the canonical hexadecimal form of 32 octets. *)
Definition target_of (e : exn) (v : option pyval) : result pystr :=
  s ← of_option e (v ≫= as_str);
  of_option e (canonical_hex 32 s);;
  Ok s.

Definition parse_custom (text : pystr) (custom : pyval) : result extra :=
  match custom with
  | PDict edit =>
      if field_type_is "service" edit || field_type_is "stored" edit then
        require (fc_one edit && bool_decide (text = [])) (ValueError "Invalid delivery fields");;
        if field_type_is "service" edit then
          require (keys_are ["fc"; "type"; "event"] edit) (ValueError "Invalid service fields");;
          event ← item "event" edit;
          XService <$> validate_notice event
        else
          require (keys_are ["fc"; "type"; "target"] edit) (ValueError "Invalid stored receipt");;
          XStored <$> target_of (ValueError "Invalid stored receipt") (lookup_str "target" edit)
      else
        require (keys_are ["fc"; "type"; "target"; "revision"] edit && fc_one edit
                 && field_type_is "edit" edit) (ValueError "Unsupported operation");;
        target ← target_of (ValueError "Invalid edit") (lookup_str "target" edit);
        revision ← of_option (ValueError "Invalid edit") (lookup_str "revision" edit ≫= as_int);
        require (in_range 1 1000000 revision && negb (bool_decide (text = [])))
          (ValueError "Invalid edit");;
        Ok (XEdit target revision)
  | _ => Raise (ValueError "Unsupported operation")
  end.

Definition parse_audio (text : pystr) (audio : pyval) : result extra :=
  match audio with
  | PList [PInt mode; body] =>
      raise_if (negb (bool_decide (text = []))) (ValueError "Unsupported audio");;
      duration ← (if mode =? AM_OPUS_OGG then opus_duration body
                  else radio_duration body (PInt mode));
      raw ← of_option TypeError (as_bytes body);
      Ok (XAudio (b64encode raw) duration
            (if mode =? AM_OPUS_OGG then None else Some mode))
  | _ => Raise (ValueError "Unsupported audio")
  end.

Definition parse_fields (fields : list (pyval * pyval)) (text : pystr) : result extra :=
  match fields with
  | [] => Ok XText
  | _ =>
      if keys_are_Z FIELD_CUSTOM_DATA fields then
        v ← of_option KeyError (lookup_Z FIELD_CUSTOM_DATA fields);
        parse_custom text v
      else if keys_are_Z FIELD_AUDIO fields then
        v ← of_option KeyError (lookup_Z FIELD_AUDIO fields);
        parse_audio text v
      else Raise (ValueError "Unsupported fields")
  end.

(** [fields_for(message)], raising when a stored recording is not base64. *)
Definition fields_for (x : extra) : result (list (pyval * pyval)) :=
  let custom l := Ok [(PInt FIELD_CUSTOM_DATA, PDict ((PStr (py "fc"), PInt 1) :: l))] in
  match x with
  | XText => Ok []
  | XService event => custom [(PStr (py "type"), PStr (py "service"));
                              (PStr (py "event"), notice_val event)]
  | XStored target => custom [(PStr (py "type"), PStr (py "stored"));
                              (PStr (py "target"), PStr target)]
  | XEdit target revision => custom [(PStr (py "type"), PStr (py "edit"));
                                     (PStr (py "target"), PStr target);
                                     (PStr (py "revision"), PInt revision)]
  | XAudio audio _ mode =>
      raw ← of_option (ValueError "Invalid base64") (b64decode audio);
      Ok [(PInt FIELD_AUDIO, PList [PInt (default AM_OPUS_OGG mode); PBytes raw])]
  end.

(** [pack(sender, recipient, text, fields)] at clock reading [ts]. *)
Definition pack (sender : identity) (recipient : bytes) (text : pystr)
    (fields : list (pyval * pyval)) (ts : pyval) : result bytes :=
  b ← of_option (ValueError "Text must contain 1..4096 UTF-8 bytes") (utf8_encode text);
  raise_if ((MAX_TEXT <? zlen b) || (bool_decide (text = []) && bool_decide (length fields = 0%nat)))
    (ValueError "Text must contain 1..4096 UTF-8 bytes");;
  public ← identity_of recipient;
  Ok (lxm_pack sender public b (PDict fields) ts).

(** The payload checks of [unpack], inside its [try]. *)
Definition unpack_body (payload : bytes) : result (pyval * pystr * extra) :=
  body ← of_option (ValueError "UnpackException") (unpackb payload);
  match body with
  | PList [timestamp; title; content; fields] =>
      raise_if (negb (is_number timestamp) || negb (num_isfinite timestamp)
                || num_ltb_Z timestamp 0) (ValueError "");;
      raise_if (match title with PBytes [] => false | _ => true end) (ValueError "");;
      fields ← of_option (ValueError "") (as_dict fields);
      content ← of_option (ValueError "") (as_bytes content);
      raise_if ((MAX_TEXT <? zlen content)
                || (bool_decide (content = []) && bool_decide (length fields = 0%nat))) (ValueError "");;
      text ← of_option (ValueError "UnicodeDecodeError") (utf8_decode content);
      x ← parse_fields fields text;
      Ok (timestamp, text, x)
  | _ => Raise (ValueError "")
  end.

(** [unpack(raw, recipient=..., contacts=...)]: [contacts] maps verified
    delivery addresses to full public keys. *)
Definition unpack (raw : bytes) (recipient : bytes) (contacts : list (bytes * bytes)) :
    result parsed :=
  require ((96 <? zlen raw) && (zlen raw <=? MAX_PACKED)) (ValueError "Invalid message size");;
  let target := slice 0 16 raw in
  let source := slice 16 32 raw in
  let signature := slice 32 96 raw in
  let payload := drop 96 raw in
  own ← address recipient;
  public ← of_option (ValueError "Wrong recipient or unknown contact")
    (if decide (target = own) then dget source contacts else None);
  addr ← address public;
  require (bool_decide (addr = source)) (ValueError "Contact address mismatch");;
  let hashed := target ++ source ++ payload in
  let message_id := full_hash hashed in
  require (validate public signature (hashed ++ message_id))
    (ValueError "Invalid message signature");;
  '(timestamp, text, x) ←
    try_with (unpack_body payload) (λ e,
      match e with
      | TypeError | IndexError => Raise (ValueError "Unsupported LXMF text payload")
      | _ => if is_ValueError e then Raise (ValueError "Unsupported LXMF text payload")
             else Raise e
      end);
  Ok (Parsed (tohex message_id) (tohex source) text timestamp x).
End Codec.
