(* ===== verification/CodecOgg.v ===== *)
(** Ogg/Opus envelope checks of messenger/codec.py: termination, the page
    structure an accepted recording has, and finalization of a recording that
    was stopped without an end-of-stream flag. *)
From Stdlib Require Import ZArith Lia.
From S2P Require Import Prelude PyData Rns Notices Codec.

Local Open Scope Z_scope.

(** ** Reads below a common prefix *)

(** Two buffers of one length that agree on their first [n] octets. *)
Definition agree (n : nat) (r r' : bytes) : Prop :=
  length r = length r' ∧ take n r = take n r'.

Lemma slice_drop_take {A} a b (l : list A) : slice a b l = drop a (take b l).
Proof.
  unfold slice. destruct (decide (a ≤ b)%nat) as [Hle|Hgt].
  - rewrite take_drop_commute. by replace (a + (b - a))%nat with b by lia.
  - replace (b - a)%nat with 0%nat by lia. rewrite take_0. symmetry.
    apply drop_ge. rewrite length_take. lia.
Qed.

Lemma slice_agree n r r' a b : agree n r r' → (b ≤ n)%nat → slice a b r = slice a b r'.
Proof.
  intros [_ Ht] Hb. rewrite !slice_drop_take. f_equal.
  replace b with (Nat.min b n) by lia. by rewrite <- !take_take, Ht.
Qed.

Lemma octet_agree n r r' i : agree n r r' → (i < n)%nat → octet i r = octet i r'.
Proof.
  intros [_ Ht] Hi. unfold octet. f_equal.
  rewrite <- (lookup_take_lt r n i), <- (lookup_take_lt r' n i) by done. by rewrite Ht.
Qed.

Lemma octet_range r i : all_bytes r → 0 <= octet i r < 256.
Proof.
  intros Hb. unfold octet. destruct (r !! i) as [x|] eqn:E; simpl; [|lia].
  eapply Forall_lookup_1 in Hb; [|done]. simpl in Hb. ranges. lia.
Qed.

Lemma segment_total_nonneg o h r : all_bytes r → 0 <= segment_total o h r.
Proof.
  intros Hb. unfold segment_total.
  assert (all_bytes (slice (o + 27) h r)) as Hs.
  { unfold slice. by apply Forall_take, Forall_drop. }
  induction Hs as [|x l Hx Hl IH]; simpl; [done|]. ranges. lia.
Qed.

(** ** Progress of the page loops *)

Lemma fin_body_step raw s s' :
  all_bytes raw → fin_body raw s = Ok (inl s') →
  (fs_offset s + 27 < fs_header s' ≤ fs_offset s')%nat ∧ (fs_offset s' ≤ length raw)%nat
  ∧ fs_last s' = Some (fs_offset s)
  ∧ fs_header s' = (fs_offset s + 27 + Z.to_nat (octet (fs_offset s + 26) raw))%nat
  ∧ (eos_flag (fs_offset s) raw = true → fs_offset s' = length raw).
Proof.
  intros Hb. unfold fin_body. destruct (fs_offset s <? length raw)%nat eqn:Hlt; intros H; inv_ok.
  bools.
  pose proof (octet_range raw (fs_offset s + 26) Hb).
  pose proof (segment_total_nonneg (fs_offset s)
    (fs_offset s + 27 + Z.to_nat (octet (fs_offset s + 26) raw)) raw Hb).
  simpl. unfold zlen in *. split_and!; try lia; [done|].
  intros He. rewrite He in *. simpl in *. bools. lia.
Qed.

Lemma opus_body_step raw s s' :
  all_bytes raw → opus_body raw s = Ok (inl s') →
  (os_offset s + 27 ≤ os_offset s' ≤ length raw)%nat
  ∧ os_sequence s' = os_sequence s + 1
  ∧ os_serial s' = Some (le_at 4 (os_offset s + 14) raw)
  ∧ (∀ n, os_serial s = Some n → n = le_at 4 (os_offset s + 14) raw)
  ∧ le_at 4 (os_offset s + 18) raw = os_sequence s
  ∧ os_last s <= os_last s'
  ∧ os_eos s' = eos_flag (os_offset s) raw
  ∧ (os_eos s' = true → os_offset s' = length raw).
Proof.
  intros Hb. unfold opus_body. destruct (os_offset s <? length raw)%nat eqn:Hlt; intros H; inv_ok.
  bools.
  pose proof (octet_range raw (os_offset s + 26) Hb).
  pose proof (segment_total_nonneg (os_offset s)
    (os_offset s + 27 + Z.to_nat (octet (os_offset s + 26) raw)) raw Hb).
  simpl. unfold zlen in *. split_and!; try lia.
  - destruct (os_serial s); simpl in *; congruence.
  - intros n Hn. rewrite Hn in *. simpl in *. congruence.
  - repeat match goal with H : (if ?b then _ else _) = Ok _ |- _ => destruct b; inv_ok end;
      bools; lia.
  - done.
  - intros He. rewrite He in *. simpl in *. bools. lia.
Qed.

(** Case split on the guards of a computation, closing the decided cases. *)
Ltac run_cases :=
  unfold raise_if, require; cbn [mbind result_bind];
  repeat (match goal with
          | |- context [if negb ?b then _ else _] => destruct b
          | |- context [if ?b then _ else _] => destruct b
          end; cbn [mbind result_bind negb]; try discriminate).

Lemma fin_loop_total raw s :
  all_bytes raw → loop (S (length raw)) (fin_body raw) s ≠ Raise OutOfFuel.
Proof.
  intros Hb. apply (loop_fuel (λ s, length raw - fs_offset s)%nat); [|..|lia].
  - intros t t' Ht. apply fin_body_step in Ht as (? & ? & _); [lia|done].
  - intros t. unfold fin_body.
    destruct (_ <? length raw)%nat; [|by destruct (fs_last t)]. run_cases.
Qed.

Lemma opus_loop_total raw s :
  all_bytes raw → loop (S (length raw)) (opus_body raw) s ≠ Raise OutOfFuel.
Proof.
  intros Hb. apply (loop_fuel (λ s, length raw - os_offset s)%nat); [|..|lia].
  - intros t t' Ht. assert (Hs := Ht). apply opus_body_step in Hs as (? & _); [|done].
    assert (os_offset t < length raw)%nat; [|lia].
    unfold opus_body in Ht. by destruct (os_offset t <? length raw)%nat eqn:E; bools.
  - intros t. unfold opus_body. run_cases.
Qed.

(** ** The structure of an accepted stream *)

(** [pages raw serial n off eos]: octets [0, off) of [raw] are exactly [n]
    consecutive Ogg pages numbered from 0, all of stream [serial]; [eos] is the
    end-of-stream flag of the last one and no earlier page carries it. *)
Inductive pages (raw : bytes) (serial : Z) : Z → nat → bool → Prop :=
  | pages_nil : pages raw serial 0 0 false
  | pages_snoc n off off' :
      pages raw serial n off false →
      (off + 27 ≤ off' ≤ length raw)%nat →
      slice off (off + 5) raw = OGGS →
      le_at 4 (off + 14) raw = serial →
      le_at 4 (off + 18) raw = n →
      pages raw serial (n + 1) off' (eos_flag off raw).

Definition opus_inv (raw : bytes) (s : opus_state) : Prop :=
  (s = opus_init ∨ ∃ serial, os_serial s = Some serial ∧
     pages raw serial (os_sequence s) (os_offset s) (os_eos s))
  ∧ (os_offset s ≤ length raw)%nat ∧ 0 <= os_last s
  ∧ (os_eos s = true → os_offset s = length raw).

Lemma opus_body_magic raw s s' :
  opus_body raw s = Ok (inl s') →
  (os_offset s < length raw)%nat ∧ slice (os_offset s) (os_offset s + 5) raw = OGGS.
Proof.
  unfold opus_body. destruct (os_offset s <? length raw)%nat eqn:E; intros H; inv_ok. by bools.
Qed.

Lemma opus_inv_step raw s s' :
  all_bytes raw → opus_inv raw s → opus_body raw s = Ok (inl s') → opus_inv raw s'.
Proof.
  intros Hb (Hp & Ho & Hl & He) Hs.
  destruct (opus_body_magic _ _ _ Hs) as [Hlt Hm].
  apply opus_body_step in Hs as (Hoff & Hseq & Hser & Hser' & Hnum & Hlast & Heos & Hend); [|done].
  assert (os_eos s = false) as Hf.
  { destruct (os_eos s) eqn:E; [|done]. specialize (He eq_refl). lia. }
  split_and!; [|lia|lia|done]. right. eexists. split; [exact Hser|].
  rewrite Hseq, Heos. apply (pages_snoc raw _ _ (os_offset s)); try done.
  destruct Hp as [->|(serial & Hs & Hp)]; [constructor|].
  rewrite Hf in Hp. specialize (Hser' _ Hs). by subst.
Qed.

Lemma opus_loop_pages raw s :
  all_bytes raw → loop (S (length raw)) (opus_body raw) opus_init = Ok s →
  opus_inv raw s ∧ os_offset s = length raw.
Proof.
  intros Hb Hl.
  apply (loop_inv (opus_inv raw) (λ s, opus_inv raw s ∧ os_offset s = length raw)) in Hl; [done|..].
  - intros t t' Ht Hbody. by eapply opus_inv_step.
  - intros t a Ht Hbody. unfold opus_body in Hbody.
    destruct (os_offset t <? length raw)%nat eqn:E; inv_ok; bools.
    split; [done|]. destruct Ht as (_ & Ho & _). lia.
  - split_and!; simpl; [by left|lia|lia|done].
Qed.

(** ** Checksums *)

Lemma crc_shift_range c : 0 <= crc_shift c < 2 ^ 32.
Proof.
  unfold crc_shift. change 0xffffffff with (Z.ones 32). rewrite Z.land_ones by lia.
  apply Z.mod_pos_bound. lia.
Qed.

Lemma ogg_crc_range page : 0 <= _ogg_crc page < 2 ^ 32.
Proof.
  unfold _ogg_crc. rewrite <- (reverse_involutive page). rewrite foldl_reverse || idtac.
  destruct (reverse page) as [|b l] eqn:E; [simpl; lia|].
  rewrite reverse_cons, foldl_app. simpl. apply crc_shift_range.
Qed.

Lemma length_put_at off f page :
  (off + length f ≤ length page)%nat → length (put_at off f page) = length page.
Proof.
  intros Hl. unfold put_at. rewrite !length_app, length_take, length_drop. lia.
Qed.

Lemma put_at_lookup_lt off f page i :
  (off ≤ length page)%nat → (i < off)%nat → put_at off f page !! i = page !! i.
Proof.
  intros Hl Hi. unfold put_at. rewrite lookup_app_l by (rewrite length_take; lia).
  by apply lookup_take_lt.
Qed.

Lemma put_at_lookup_ge off f page i :
  (off + length f ≤ i)%nat → (off ≤ length page)%nat → put_at off f page !! i = page !! i.
Proof.
  intros Hi Hl. unfold put_at.
  rewrite lookup_app_r by (rewrite length_take; lia).
  rewrite lookup_app_r by (rewrite length_take; lia).
  rewrite lookup_drop, length_take. f_equal. lia.
Qed.

Lemma put_at_put_at off f g page :
  length f = length g → (off ≤ length page)%nat → put_at off f (put_at off g page) = put_at off f page.
Proof.
  intros Hfg Hl. unfold put_at.
  rewrite take_app_le by (rewrite length_take; lia). rewrite take_take, Nat.min_id.
  do 2 f_equal. rewrite app_assoc, drop_app_ge by (rewrite length_app, length_take; lia).
  rewrite drop_drop, length_app, length_take. f_equal. lia.
Qed.

Lemma slice_put_at off f page :
  (off ≤ length page)%nat → slice off (off + length f) (put_at off f page) = f.
Proof.
  intros Hl. unfold slice, put_at.
  rewrite drop_app_ge by (rewrite length_take; lia).
  rewrite length_take, Nat.min_l by lia.
  replace (off - off)%nat with 0%nat by lia. rewrite drop_0.
  replace (off + length f - off)%nat with (length f) by lia. by rewrite take_app_length.
Qed.

(** The flagged page carries its own checksum. *)
Lemma set_eos_checksum page :
  (27 ≤ length page)%nat →
  _ogg_crc (clear_crc (set_eos page)) = le_at 4 22 (set_eos page).
Proof.
  intros Hl. unfold set_eos. set (flagged := <[5%nat:=_]> page).
  assert (length flagged = length page) as Hf by apply length_insert.
  set (cleared := clear_crc flagged).
  assert (length cleared = length page) as Hc.
  { unfold cleared, clear_crc. rewrite length_put_at; simpl; lia. }
  unfold clear_crc at 1.
  rewrite put_at_put_at by (rewrite ?length_le_bytes; simpl; lia).
  fold (clear_crc cleared). unfold cleared at 1, clear_crc at 1 2.
  rewrite put_at_put_at by (simpl; lia). fold (clear_crc flagged). fold cleared.
  unfold le_at.
  pose proof (slice_put_at 22 (le_bytes 4 (_ogg_crc cleared)) cleared ltac:(lia)) as Hs.
  rewrite length_le_bytes in Hs. rewrite Hs, le_int_le_bytes; [done|].
  apply ogg_crc_range.
Qed.

(** ** Finalization *)

Lemma length_set_eos page : (27 ≤ length page)%nat → length (set_eos page) = length page.
Proof.
  intros Hl. unfold set_eos, clear_crc.
  rewrite !length_put_at by (rewrite ?length_le_bytes, ?length_put_at, ?length_insert; simpl;
    rewrite ?length_insert; lia).
  apply length_insert.
Qed.

(** Only octets 5 and 22-25 of the page change. *)
Lemma set_eos_lookup page i :
  (27 ≤ length page)%nat → i ≠ 5%nat → (i < 22 ∨ 26 ≤ i)%nat → set_eos page !! i = page !! i.
Proof.
  intros Hl H5 Hi. unfold set_eos, clear_crc.
  assert (length (put_at 22 [0; 0; 0; 0] (<[5%nat:=Z.lor (octet 5 page) 4]> page)) = length page)
    as Hlen by (rewrite length_put_at; simpl; rewrite length_insert; lia).
  destruct Hi as [Hi|Hi].
  - rewrite !put_at_lookup_lt by (rewrite ?Hlen, ?length_insert; lia).
    by rewrite list_lookup_insert_ne.
  - rewrite !put_at_lookup_ge by (rewrite ?Hlen, ?length_le_bytes, ?length_insert; simpl; lia).
    by rewrite list_lookup_insert_ne.
Qed.

Lemma set_eos_flag page : (27 ≤ length page)%nat → octet 5 (set_eos page) = Z.lor (octet 5 page) 4.
Proof.
  intros Hl. unfold octet at 1. unfold set_eos, clear_crc.
  rewrite put_at_lookup_lt by (rewrite ?length_put_at; simpl; rewrite ?length_insert; lia).
  rewrite put_at_lookup_lt by (rewrite ?length_insert; lia).
  by rewrite list_lookup_insert_eq by lia.
Qed.

Lemma slice_ext {A} a b (r r' : list A) :
  length r = length r' → (∀ i, a ≤ i < b → r !! i = r' !! i)%nat → slice a b r = slice a b r'.
Proof.
  intros Hl Hi. apply list_eq. intros i. unfold slice.
  destruct (decide (i < b - a)%nat) as [Hlt|Hge].
  - rewrite !lookup_take_lt, !lookup_drop by done. apply Hi. lia.
  - by rewrite !lookup_take_ge by lia.
Qed.

Section Finalize.
Context (raw : bytes) (l : nat).
Context (Hb : all_bytes raw) (Hl : (l + 27 ≤ length raw)%nat).

Definition finalized : bytes := take l raw ++ set_eos (drop l raw).

Lemma finalized_length : length finalized = length raw.
Proof.
  unfold finalized. rewrite length_app, length_take, length_set_eos, length_drop;
    rewrite ?length_drop; lia.
Qed.

Lemma finalized_agree : agree l raw finalized.
Proof.
  split; [by rewrite finalized_length|]. unfold finalized.
  rewrite take_app_le by (rewrite length_take; lia). by rewrite take_take, Nat.min_id.
Qed.

Lemma finalized_lookup i :
  (i ≠ l + 5 → i < l + 22 ∨ l + 26 ≤ i → finalized !! i = raw !! i)%nat.
Proof.
  intros H5 Hi. destruct (decide (i < l)%nat) as [Hlt|Hge]; unfold finalized.
  - rewrite lookup_app_l by (rewrite length_take; lia). by apply lookup_take_lt.
  - rewrite lookup_app_r, length_take by (rewrite length_take; lia).
    rewrite set_eos_lookup by (rewrite ?length_drop; lia).
    rewrite lookup_drop. f_equal. lia.
Qed.

Lemma finalized_octet i :
  (i ≠ l + 5 → i < l + 22 ∨ l + 26 ≤ i → octet i finalized = octet i raw)%nat.
Proof. intros. unfold octet. by rewrite finalized_lookup. Qed.

Lemma finalized_page : slice l (length raw) finalized = set_eos (drop l raw).
Proof.
  unfold slice, finalized. rewrite drop_app_ge by (rewrite length_take; lia).
  rewrite length_take, Nat.min_l, Nat.sub_diag, drop_0 by lia.
  rewrite take_ge; [done|]. rewrite length_set_eos; rewrite length_drop; lia.
Qed.

Lemma finalized_eos : eos_flag l finalized = true.
Proof.
  unfold eos_flag. replace (octet (l + 5) finalized) with (octet 5 (set_eos (drop l raw))).
  - rewrite set_eos_flag by (rewrite length_drop; lia).
    apply negb_true_iff, Z.eqb_neq. intros E. apply (f_equal (λ z, Z.testbit z 2)) in E.
    rewrite Z.land_spec, Z.lor_spec in E. simpl in E. by rewrite orb_true_r in E.
  - rewrite <- finalized_page. unfold octet, slice. f_equal.
    rewrite lookup_take_lt by lia. by rewrite lookup_drop.
Qed.

(** A page that ends at or before the last one is read unchanged. *)
Lemma fin_body_before s s' :
  fin_body raw s = Ok (inl s') → (fs_offset s' ≤ l)%nat → fin_body finalized s = Ok (inl s').
Proof.
  intros Hs Hle. assert (Hst := Hs).
  apply fin_body_step in Hst as ([Hh1 Hh2] & Hoff & _ & Hh & _); [|done].
  pose proof finalized_agree as Ha. revert Hs. unfold fin_body, eos_flag, segment_total.
  rewrite finalized_length. unfold zlen. rewrite finalized_length.
  destruct (fs_offset s <? length raw)%nat; [|intros; inv_ok].
  rewrite <- (octet_agree l raw finalized (fs_offset s + 26)) by (done || lia).
  rewrite <- (octet_agree l raw finalized (fs_offset s + 5)) by (done || lia).
  rewrite <- (slice_agree l raw finalized (fs_offset s) (fs_offset s + 5)) by (done || lia).
  set (hdr := (fs_offset s + 27 + Z.to_nat (octet (fs_offset s + 26) raw))%nat) in *.
  rewrite <- (slice_agree l raw finalized (fs_offset s + 27) hdr) by (done || lia).
  set (end_ := Z.to_nat _).
  destruct (decide (end_ ≤ l)%nat) as [Hle'|Hgt].
  - by rewrite <- (slice_agree l raw finalized (fs_offset s) end_) by done.
  - intros H. exfalso. repeat inv_ok1. subst. simpl in Hle. lia.
Qed.

(** The last page is accepted with its new flag and checksum. *)
Lemma fin_body_last s s' :
  fin_body raw s = Ok (inl s') → fs_offset s = l → fs_offset s' = length raw →
  fin_body finalized s = Ok (inl s').
Proof.
  destruct s as [o lst h]. simpl. intros Hs Ho Hend. subst o. assert (Hst := Hs).
  apply fin_body_step in Hst as ([Hh1 Hh2] & _ & _ & Hh & _); [|done]. simpl in *.
  revert Hs. unfold fin_body, segment_total. unfold zlen. rewrite finalized_length. simpl.
  destruct (l <? length raw)%nat; [|intros; inv_ok].
  rewrite finalized_octet by lia. rewrite finalized_eos.
  set (hdr := (l + 27 + Z.to_nat (octet (l + 26) raw))%nat) in *.
  rewrite (slice_ext l (l + 5) finalized raw)
    by (rewrite ?finalized_length; try done; intros; apply finalized_lookup; lia).
  rewrite (slice_ext (l + 27) hdr finalized raw)
    by (rewrite ?finalized_length; try done; intros; apply finalized_lookup; lia).
  set (end_ := Z.to_nat _). intros H.
  assert (end_ = length raw) as He by (repeat inv_ok1; by subst). revert H. rewrite He.
  rewrite finalized_page, set_eos_checksum, Z.eqb_refl, Nat.eqb_refl
    by (rewrite length_drop; lia).
  intros H. repeat inv_ok1. subst. unfold raise_if, require.
  repeat match goal with
  | H : ?b = false |- context [?b] => rewrite H
  end. done.
Qed.
End Finalize.

Lemma fin_body_exit raw s r :
  fin_body raw s = Ok (inr r) → (length raw ≤ fs_offset s)%nat ∧ fs_last s = Some r.1 ∧ fs_header s = r.2.
Proof.
  unfold fin_body. destruct (fs_offset s <? length raw)%nat eqn:E; intros H; repeat inv_ok1.
  bools. by subst.
Qed.

Lemma fin_body_at_end raw s :
  (length raw ≤ fs_offset s)%nat →
  fin_body raw s = (last ← of_option TypeError (fs_last s); Ok (inr (last, fs_header s))).
Proof. intros Hle. unfold fin_body. by rewrite (proj2 (Nat.ltb_ge _ _)). Qed.

(** The loop leaves at the end of the data, having read the page at [l] last. *)
Lemma fin_loop_last raw fuel s l h :
  all_bytes raw → (fs_offset s ≤ length raw)%nat →
  loop fuel (fin_body raw) s = Ok (l, h) →
  (fs_offset s = length raw ∧ fs_last s = Some l ∧ fs_header s = h)
  ∨ (fs_offset s ≤ l ∧ l + 27 < h ≤ length raw)%nat.
Proof.
  intros Hb. revert s. induction fuel as [|fuel IH]; intros s Hs H; [done|].
  simpl in H. destruct (fin_body raw s) as [[s'|r]|e] eqn:E; simpl in H; [|..|done].
  - apply fin_body_step in E as ([? ?] & Ho & Hlast & Hh & _); [|done]. right.
    apply IH in H as [(Hoff & Hl & <-)|?]; [|lia|done].
    rewrite Hlast in Hl. simplify_eq. lia.
  - apply fin_body_exit in E as (? & ? & ?). simplify_eq. simpl in *. left. split; [lia|done].
Qed.

Lemma fin_loop_finalized raw fuel s l h :
  all_bytes raw → (l + 27 ≤ length raw)%nat → (fs_offset s ≤ length raw)%nat →
  loop fuel (fin_body raw) s = Ok (l, h) → (fs_offset s < length raw)%nat →
  loop fuel (fin_body (finalized raw l)) s = Ok (l, h).
Proof.
  intros Hb Hl. revert s. induction fuel as [|fuel IH]; intros s Hs H Hlt; [done|].
  simpl in *. destruct (fin_body raw s) as [[s'|r]|e] eqn:E; simpl in H; [|..|done].
  - assert (Hst := E). apply fin_body_step in Hst as ([? ?] & Ho & Hlast & Hh & _); [|done].
    destruct (decide (fs_offset s' = length raw)) as [Hend|Hne].
    + pose proof (fin_loop_last _ _ _ _ _ Hb Ho H) as [(_ & Hl' & _)|?]; [|lia].
      rewrite Hlast in Hl'. injection Hl' as Hl'.
      rewrite (fin_body_last raw l Hb Hl s s' E Hl' Hend). simpl.
      destruct fuel as [|fuel]; [done|]. simpl in *.
      rewrite fin_body_at_end in H by lia. rewrite fin_body_at_end by (rewrite finalized_length; lia).
      by rewrite Hlast in *.
    + pose proof (fin_loop_last _ _ _ _ _ Hb Ho H) as [(? & _)|?]; [lia|].
      rewrite (fin_body_before raw l Hb Hl s s' E) by lia. simpl. apply IH; [done|done|lia].
  - apply fin_body_exit in E as (? & _). lia.
Qed.

Lemma lor4_byte x : 0 <= x < 256 → is_byte (Z.lor x 4) = true.
Proof.
  intros Hx. assert (forallb (λ n, is_byte (Z.lor (Z.of_nat n) 4)) (seq 0 256) = true) as Hall
    by reflexivity.
  rewrite forallb_forall in Hall. replace x with (Z.of_nat (Z.to_nat x)) by lia.
  apply Hall, in_seq. lia.
Qed.

Lemma all_bytes_finalized raw l :
  all_bytes raw → all_bytes (finalized raw l).
Proof.
  intros Hb. unfold finalized, set_eos, clear_crc, put_at.
  assert (is_byte (Z.lor (octet 5 (drop l raw)) 4) = true) as H5.
  { apply lor4_byte, octet_range. by apply Forall_drop. }
  repeat (apply Forall_app; split); try apply le_bytes_bytes;
    try (apply Forall_take); try (apply Forall_drop);
    repeat (apply Forall_app; split); try (apply Forall_take); try (apply Forall_drop);
    try (apply Forall_insert); try (apply Forall_drop); try done; by repeat constructor.
Qed.

(** *** Theorems *)

(** A recording that [finalize_recorded_opus] accepts keeps its length, is
    accepted by every receiver ([opus_duration]), carries the end-of-stream
    flag, and is a fixed point: finalizing it again returns the same octets. *)
Theorem finalize_recorded_opus_stable raw raw' :
  all_bytes raw →
  finalize_recorded_opus (PBytes raw) = Ok raw' →
  length raw' = length raw
  ∧ (∃ d, opus_duration (PBytes raw') = Ok d)
  ∧ finalize_recorded_opus (PBytes raw') = Ok raw'.
Proof.
  intros Hb H. assert (H0 := H). unfold finalize_recorded_opus in H.
  cbn [as_bytes of_option] in H. repeat inv_ok1. destruct a1 as [l h].
  repeat inv_ok1. subst a.
  pose proof (fin_loop_last raw (S (length raw)) (FinState 0 None 0) l h Hb ltac:(simpl; lia) Ha1)
    as [(_ & Hn & _)|[_ Hlh]]; [done|].
  destruct (eos_flag l raw) eqn:Heos; subst raw'.
  { split; [done|]. split; [by eexists|done]. }
  fold (finalized raw l) in *.
  split; [apply finalized_length; lia|]. split; [by eexists|].
  unfold finalize_recorded_opus. mred. unfold zlen. rewrite finalized_length by lia.
  fold (zlen raw). rewrite Ha0. mred.
  rewrite (fin_loop_finalized raw _ _ l h) by (try done; simpl; lia). mred.
  rewrite finalized_octet by lia. rewrite Ha2. mred.
  rewrite finalized_eos by lia. rewrite Ha3. done.
Qed.

(** The envelope checks terminate on every buffer of octets: neither page
    loop runs out of its bound of one iteration per octet. *)
Theorem ogg_checks_terminate raw :
  all_bytes raw →
  opus_duration (PBytes raw) ≠ Raise OutOfFuel
  ∧ finalize_recorded_opus (PBytes raw) ≠ Raise OutOfFuel.
Proof.
  intros Hb.
  assert (∀ r, all_bytes r → opus_duration (PBytes r) ≠ Raise OutOfFuel) as Hop.
  { intros r Hr. unfold opus_duration. mred. destruct (_ && _); mred; [|done].
    pose proof (opus_loop_total r opus_init Hr) as Ht.
    destruct (loop _ _ _) as [s|e]; mred; [|congruence].
    destruct (os_skip s); mred; [|done]. destruct (_ && _); mred; [|done].
    by destruct (round_of_float _). }
  split; [by apply Hop|]. unfold finalize_recorded_opus. mred.
  destruct (_ && _); mred; [|done].
  pose proof (fin_loop_total raw (FinState 0 None 0) Hb) as Ht.
  destruct (loop _ _ _) as [[l h]|e]; mred; [|congruence].
  destruct (octet (h - 1) raw =? 255); mred; [done|].
  set (raw' := if eos_flag l raw then _ else _).
  specialize (Hop raw'). destruct (opus_duration (PBytes raw')) as [d|e]; mred; [done|].
  intros [= ->]. apply Hop; [|done]. subst raw'. destruct (eos_flag l raw); [done|].
  by apply all_bytes_finalized.
Qed.

(** An accepted voice note is one Ogg stream: its octets are exactly
    consecutive pages of one serial number, numbered from zero, the last and
    only the last of which carries the end-of-stream flag. *)
Theorem opus_duration_single_stream raw d :
  all_bytes raw → opus_duration (PBytes raw) = Ok d →
  64 <= zlen raw <= MAX_AUDIO
  ∧ ∃ serial n, pages raw serial n (length raw) true.
Proof.
  intros Hb H. unfold opus_duration in H. cbn [as_bytes of_option] in H.
  repeat inv_ok1. subst a. bools. split; [done|].
  match goal with H : loop _ _ _ = Ok ?s |- _ =>
    apply opus_loop_pages in H as [(Hp & _) Ho]; [|done]; rename s into st end.
  destruct Hp as [->|(serial & Hs & Hp)]; [done|].
  exists serial, (os_sequence st). rewrite <- Ho.
  match goal with H : os_eos st = true |- _ => by rewrite H in Hp end.
Qed.

(** ** Witnesses *)

(** A one-second recording: an [OpusHead] page and a data page, without and
    with the end-of-stream flag on the latter. *)
Definition sample_page (flags granule number : Z) (packet : bytes) : bytes :=
  let page := OGGS ++ [flags] ++ le_bytes 8 granule ++ le_bytes 4 7 ++ le_bytes 4 number
                ++ [0; 0; 0; 0] ++ [1; zlen packet] ++ packet in
  put_at 22 (le_bytes 4 (_ogg_crc page)) page.

Definition sample_recording (flags : Z) : bytes :=
  sample_page 2 0 0 (py "OpusHead" ++ [1; 1] ++ le_bytes 2 312 ++ le_bytes 4 48000 ++ [0; 0; 0])
    ++ sample_page flags 48312 1 [1; 2; 3; 4].

Definition bytesb (l : bytes) : bool := forallb is_byte l.

Lemma bytesb_all l : bytesb l = true → all_bytes l.
Proof. intros H. apply Forall_forall. intros x Hx. apply forallb_forall with (x := x) in H; [done|].
  by apply list_elem_of_In. Qed.

Lemma finalize_recorded_opus_stable_witness :
  finalize_recorded_opus (PBytes (sample_recording 0)) = Ok (sample_recording 4)
  ∧ length (sample_recording 4) = length (sample_recording 0)
  ∧ (∃ d, opus_duration (PBytes (sample_recording 4)) = Ok d)
  ∧ finalize_recorded_opus (PBytes (sample_recording 4)) = Ok (sample_recording 4).
Proof.
  split; [vm_compute; reflexivity|].
  apply (finalize_recorded_opus_stable (sample_recording 0) (sample_recording 4));
    [apply bytesb_all; vm_compute; reflexivity | vm_compute; reflexivity].
Defined.

Lemma ogg_checks_terminate_witness :
  opus_duration (PBytes (sample_recording 0)) ≠ Raise OutOfFuel
  ∧ finalize_recorded_opus (PBytes (sample_recording 0)) ≠ Raise OutOfFuel.
Proof.
  apply (ogg_checks_terminate (sample_recording 0)). apply bytesb_all. vm_compute. reflexivity.
Defined.

Lemma opus_duration_single_stream_witness :
  opus_duration (PBytes (sample_recording 4)) = Ok 1000
  ∧ 64 <= zlen (sample_recording 4) <= MAX_AUDIO
  ∧ ∃ serial n, pages (sample_recording 4) serial n (length (sample_recording 4)) true.
Proof.
  split; [vm_compute; reflexivity|].
  apply (opus_duration_single_stream (sample_recording 4) 1000);
    [apply bytesb_all; vm_compute; reflexivity | vm_compute; reflexivity].
Defined.
