(* ===== verification/CodecMessage.v ===== *)
(** Message fields and the signed container of messenger/codec.py: the field
    encoding round trips, what a sender packs its recipient unpacks, and what
    an accepted message guarantees. *)
From Stdlib Require Import ZArith Lia.
From S2P Require Import Prelude PyData Rns RnsModel Notices Codec.

Local Open Scope Z_scope.

(** The contents of a message that its text admits. *)
Definition extra_wf {LX : Lxmf} (x : extra) (text : pystr) : Prop :=
  match x with
  | XText => True
  | XService event => notice_wf event ∧ text = []
  | XStored target => (∃ b, canonical_hex 32 target = Some b) ∧ text = []
  | XEdit target revision =>
      (∃ b, canonical_hex 32 target = Some b) ∧ 1 <= revision <= 1000000 ∧ text ≠ []
  | XAudio audio duration mode =>
      text = [] ∧ ∃ raw, all_bytes raw ∧ audio = b64encode raw ∧
        match mode with
        | None => opus_duration (PBytes raw) = Ok duration
        | Some m => m ≠ AM_OPUS_OGG ∧ radio_duration (PBytes raw) (PInt m) = Ok duration
        end
  end.

(** Values whose [bytes] hold octets only. *)
Fixpoint octets_ok (v : pyval) : bool :=
  match v with
  | PBytes b => forallb is_byte b
  | PList l => forallb octets_ok l
  | PDict d => forallb (λ p, octets_ok p.2) d
  | _ => true
  end.

Lemma key_is_Z_refl z : key_is_Z z (PInt z) = true.
Proof. simpl. apply Z.eqb_refl. Qed.

Lemma target_of_spec e v s :
  target_of e v = Ok s ↔ v = Some (PStr s) ∧ ∃ b, canonical_hex 32 s = Some b.
Proof.
  unfold target_of. split.
  - intros H. repeat inv_ok1. destruct v as [[]|]; simplify_eq/=. eauto.
  - intros [-> [b Hb]]. simpl. by rewrite Hb.
Qed.

(** Decide the shape tests of a literal custom-data dictionary. *)
Ltac custom_bools :=
  repeat match goal with
  | |- context [field_type_is ?n ?d] =>
      let r := eval vm_compute in (field_type_is n d) in change (field_type_is n d) with r
  | |- context [fc_one ?d] =>
      let r := eval vm_compute in (fc_one d) in change (fc_one d) with r
  | |- context [keys_are ?n ?d] =>
      let r := eval vm_compute in (keys_are n d) in change (keys_are n d) with r
  end.

Section Fields.
Context {LX : Lxmf} {LXL : LxmfLaws}.

Lemma parse_custom_wf text v x : parse_custom text v = Ok x → extra_wf x text.
Proof.
  unfold parse_custom. destruct v; try done.
  destruct (field_type_is "service" d || field_type_is "stored" d).
  - intros H. repeat inv_ok1. bools. destruct (field_type_is "service" d); repeat inv_ok1.
    + destruct (validate_notice _) eqn:E; simplify_eq/=. split; [|done].
      by eapply validate_notice_wf.
    + destruct (target_of _ _) eqn:E; simplify_eq/=.
      apply target_of_spec in E as [_ ?]. done.
  - intros H. repeat inv_ok1. bools. subst.
    match goal with H : target_of _ _ = Ok _ |- _ => apply target_of_spec in H as [_ ?] end.
    match goal with H : in_range _ _ _ = true |- _ => apply in_range_true in H end.
    done.
Qed.

Lemma parse_audio_wf text v x :
  octets_ok v = true → parse_audio text v = Ok x → extra_wf x text.
Proof.
  intros Hv. unfold parse_audio. destruct v as [| | | | | |[|m [|body []]]|]; try done.
  all: destruct m; try done. simpl in Hv. bools.
  intros Hp. repeat inv_ok1. bools. subst.
  destruct body; try done. match goal with H : as_bytes _ = Some _ |- _ => injection H as <- end.
  split; [done|]. exists b. split.
  { simpl in *. apply Forall_forall. intros y Hy.
    match goal with H : forallb is_byte b = true |- _ =>
      apply forallb_forall with (x := y) in H; [done|] end. by apply list_elem_of_In. }
  split; [done|]. destruct (z =? AM_OPUS_OGG) eqn:E; [done|]. bools. done.
Qed.

(** The contents [parse_fields] accepts are well formed: services are
    valid notices, receipts and edits name a canonical message id, revisions
    are bounded, recordings have the duration of their octets, and text is
    present exactly where it is allowed. *)
Theorem parse_fields_wf fields text x :
  octets_ok (PDict fields) = true → parse_fields fields text = Ok x → extra_wf x text.
Proof.
  intros Ho. unfold parse_fields. destruct fields as [|[k v] [|p fields]].
  - intros H. by simplify_eq.
  - unfold keys_are_Z, lookup_Z. simpl. simpl in Ho. bools.
    destruct (key_is_Z FIELD_CUSTOM_DATA k); [apply parse_custom_wf|].
    destruct (key_is_Z FIELD_AUDIO k); [by apply parse_audio_wf|done].
  - done.
Qed.

(** The round trip of the field encoding: whatever [fields_for] builds
    from well-formed contents, [parse_fields] reads back unchanged. *)
Lemma parse_fields_for x text fields :
  extra_wf x text → fields_for x = Ok fields → parse_fields fields text = Ok x.
Proof.
  destruct x as [|event|target|target revision|audio duration mode]; simpl; intros Hwf Hf.
  - by simplify_eq.
  - destruct Hwf as [Hn ->]. injection Hf as <-. unfold parse_fields, keys_are_Z, lookup_Z.
    cbn [assoc]. rewrite key_is_Z_refl. mred. unfold parse_custom. custom_bools. mred.
    rewrite bool_decide_true by done. mred. dict_simpl. mred. by rewrite validate_notice_val.
  - destruct Hwf as [[b Hb] ->]. injection Hf as <-. unfold parse_fields, keys_are_Z, lookup_Z.
    cbn [assoc]. rewrite key_is_Z_refl. mred. unfold parse_custom. custom_bools. mred.
    rewrite bool_decide_true by done. mred. dict_simpl.
    by rewrite (proj2 (target_of_spec _ _ _) (conj eq_refl (ex_intro _ b Hb))).
  - destruct Hwf as ([b Hb] & Hr & Ht). injection Hf as <-.
    unfold parse_fields, keys_are_Z, lookup_Z.
    cbn [assoc]. rewrite key_is_Z_refl. mred. unfold parse_custom. custom_bools. mred. dict_simpl.
    rewrite (proj2 (target_of_spec _ _ _) (conj eq_refl (ex_intro _ b Hb))). simpl.
    rewrite (proj2 (in_range_true _ _ _)) by lia. by rewrite bool_decide_false by done.
  - destruct Hwf as (-> & raw & Hraw & -> & Hd). rewrite b64_roundtrip in Hf by done.
    injection Hf as <-. unfold parse_fields, keys_are_Z, lookup_Z.
    cbn [assoc]. rewrite key_is_Z_refl. unfold key_is_Z at 1.
    rewrite (proj2 (Z.eqb_neq FIELD_AUDIO FIELD_CUSTOM_DATA) fields_distinct). mred.
    unfold parse_audio. rewrite bool_decide_true by done. mred.
    destruct mode as [m|]; simpl.
    + destruct Hd as [Hm Hd]. rewrite (proj2 (Z.eqb_neq m AM_OPUS_OGG) Hm). by rewrite Hd.
    + rewrite Z.eqb_refl. by rewrite Hd.
Qed.
End Fields.

(** ** The signed container *)

Lemma slice_app_here {A} (p q r : list A) a b :
  length p = a → (a + length q)%nat = b → slice a b (p ++ q ++ r) = q.
Proof.
  intros <- <-. unfold slice. rewrite drop_app_length.
  replace (length p + length q - length p)%nat with (length q) by lia. apply take_app_length.
Qed.

Section Container.
Context {LX : Lxmf} {RN : Rns} {RNL : RnsLaws}.

(** Who signed a packed message, and over what. *)
Definition signed_by (public raw : bytes) : Prop :=
  let hashed := slice 0 16 raw ++ slice 16 32 raw ++ drop 96 raw in
  validate public (slice 32 96 raw) (hashed ++ full_hash hashed) = true.

(** The id of a message: the hash of what its signature covers, in hex. *)
Definition message_id (raw : bytes) : pystr :=
  tohex (full_hash (slice 0 16 raw ++ slice 16 32 raw ++ drop 96 raw)).

(** What [pack] signs for a recipient, [unpack] returns to that recipient when
    the sender is a known contact. *)
Lemma unpack_packed me r contacts text fields ts raw x :
  dget (destination_hash (public_of me)) contacts = Some (public_of me) →
  pack me r text fields ts = Ok raw →
  96 < zlen raw <= MAX_PACKED →
  is_number ts = true → num_isfinite ts = true → num_ltb_Z ts 0 = false →
  parse_fields fields text = Ok x →
  unpack raw r contacts =
    Ok (Parsed (message_id raw)
          (tohex (destination_hash (public_of me))) text ts x).
Proof.
  intros Hc Hp Hl Hn Hf Hlt Hx. unfold message_id. unfold pack in Hp. repeat inv_ok1.
  unfold identity_of in *. repeat inv_ok1.
  match goal with H : r = ?a |- _ => subst a end. subst raw. bools.
  rewrite lxm_pack_layout in *. unfold lxm_layout in *.
  set (payload := packb _) in *.
  set (hashed := destination_hash r ++ destination_hash (public_of me) ++ payload) in *.
  set (sig := sign me (hashed ++ full_hash hashed)) in *.
  assert (Hd := destination_length). assert (length sig = 64%nat) as Hs by apply sign_length.
  assert (slice 0 16 (destination_hash r ++ destination_hash (public_of me) ++ sig ++ payload)
    = destination_hash r) as E1 by (apply (slice_app_here []); simpl; rewrite ?Hd; done).
  assert (slice 16 32 (destination_hash r ++ destination_hash (public_of me) ++ sig ++ payload)
    = destination_hash (public_of me)) as E2 by (apply slice_app_here; by rewrite !Hd).
  assert (slice 32 96 (destination_hash r ++ destination_hash (public_of me) ++ sig ++ payload)
    = sig) as E3 by (rewrite app_assoc; apply slice_app_here; by rewrite ?length_app, ?Hd, ?Hs).
  assert (drop 96 (destination_hash r ++ destination_hash (public_of me) ++ sig ++ payload)
    = payload) as E4.
  { rewrite !app_assoc. apply drop_app_length'. by rewrite !length_app, !Hd, Hs. }
  unfold unpack, address, identity_of. rewrite E1, E2, E3, E4. fold hashed.
  rewrite (proj2 (Z.ltb_lt _ _)), (proj2 (Z.leb_le _ _)) by lia. mred.
  match goal with H : length r = 64%nat |- _ => rewrite H, Nat.eqb_refl end. mred.
  rewrite decide_True by done. rewrite Hc. mred.
  rewrite public_length, Nat.eqb_refl. mred. rewrite bool_decide_true by done. mred.
  unfold sig. rewrite validate_sign. mred.
  unfold unpack_body, payload. rewrite unpackb_packb. mred. rewrite Hn, Hf, Hlt. mred.
  match goal with E : utf8_encode text = Some ?b |- _ =>
    pose proof (utf8_roundtrip _ _ E) as Hu; rewrite (proj2 (Z.ltb_ge _ (zlen b))) by done end.
  mred. rewrite Hu. mred. rewrite Hx. mred.
  destruct (bool_decide (a = [])) eqn:Hnil; mred; [|done].
  apply bool_decide_eq_true in Hnil as ->. simpl in Hu. injection Hu as <-.
  match goal with H : bool_decide ([] = []) && _ = false |- _ =>
    rewrite bool_decide_true in H by done; simpl in H; rewrite H end. done.
Qed.

(** And whatever [unpack] accepts of what [pack] signed are the text, the time
    and the fields that were packed. *)
Lemma unpack_packed_inv me r contacts text fields ts raw p :
  pack me r text fields ts = Ok raw → unpack raw r contacts = Ok p →
  p_text p = text ∧ p_timestamp p = ts ∧ parse_fields fields text = Ok (p_extra p).
Proof.
  intros Hp Hu. unfold pack in Hp. repeat inv_ok1.
  match goal with H : utf8_encode text = Some ?b |- _ => pose proof (utf8_roundtrip _ _ H) as Hutf end.
  assert (drop 96 raw = packb (PList [ts; PBytes []; PBytes a; PDict fields])) as Hdrop.
  { subst raw. rewrite lxm_pack_layout. unfold lxm_layout. rewrite !app_assoc.
    apply drop_app_length'. by rewrite !length_app, !destination_length, sign_length. }
  unfold unpack in Hu. repeat inv_ok1. rewrite Hdrop in *.
  match goal with H : try_with _ _ = Ok ?v |- _ => rename H into Hb; destruct v as [[ts' text'] x'] end.
  injection Hu as <-. cbn [p_text p_timestamp p_extra].
  destruct (unpack_body _) as [v|e] eqn:Hbody; cbn [try_with] in Hb; [|by repeat case_match].
  injection Hb as ->. unfold unpack_body in Hbody. rewrite unpackb_packb in Hbody.
  cbn [of_option mbind result_bind as_dict as_bytes] in Hbody. repeat inv_ok1.
  simplify_eq. done.
Qed.

(** C34: a message survives the wire: whatever well-formed contents the sender
    packs for a recipient who has the sender as a verified contact, the
    recipient unpacks to the same text, timestamp and contents, under the
    sender's address and the hash of the signed part as its id. *)
Theorem unpack_pack {LXL : LxmfLaws} me r contacts text x fields ts raw :
  dget (destination_hash (public_of me)) contacts = Some (public_of me) →
  extra_wf x text → fields_for x = Ok fields →
  is_number ts = true → num_isfinite ts = true → num_ltb_Z ts 0 = false →
  pack me r text fields ts = Ok raw → 96 < zlen raw <= MAX_PACKED →
  unpack raw r contacts =
    Ok (Parsed (message_id raw) (tohex (destination_hash (public_of me))) text ts x).
Proof.
  intros Hc Hx Hfields Hn Hf Hlt Hp Hl. apply (unpack_packed me r contacts text fields ts raw x); try done.
  by apply parse_fields_for.
Qed.

(** C33: an accepted message comes from a verified contact: its source address
    is in the contact list, is the address of the listed key, and that key
    signed exactly the recipient, the source and the payload; it is addressed
    to the recipient and bounded. *)
Theorem unpack_authentic raw recipient contacts p :
  unpack raw recipient contacts = Ok p →
  ∃ public,
    dget (slice 16 32 raw) contacts = Some public
    ∧ destination_hash public = slice 16 32 raw
    ∧ signed_by public raw
    ∧ slice 0 16 raw = destination_hash recipient
    ∧ p_peer p = tohex (slice 16 32 raw)
    ∧ zlen raw <= MAX_PACKED
    ∧ is_number (p_timestamp p) = true ∧ num_isfinite (p_timestamp p) = true.
Proof.
  intros Hu. unfold unpack, address, identity_of in Hu. repeat inv_ok1.
  case_decide as Ht; [|done].
  subst. bools.
  match goal with H : try_with _ _ = Ok ?t |- _ => rename H into Htry; destruct t as [[ts text] x] end.
  injection Hu as <-. cbn [p_peer p_timestamp].
  match goal with H : dget _ _ = Some ?pub |- _ => exists pub; rewrite H end.
  split_and!; try done.
  all: destruct (unpack_body (drop 96 raw)) as [[[ts' text'] x']|e] eqn:Eb; simpl in Htry.
  all: try (destruct e; discriminate Htry).
  all: injection Htry as -> -> ->; unfold unpack_body in Eb; repeat inv_ok1.
  all: match type of Eb with context [match ?b with _ => _ end] => destruct b; try discriminate Eb end.
  all: repeat match type of Eb with
       | context [match ?l with _ => _ end] => destruct l; try discriminate Eb
       end.
  all: repeat inv_ok1; bools; simplify_eq; done.
Qed.
End Container.

(** ** Witnesses *)

Definition sample_target : pystr := tohex (le_bytes 32 77).
Definition sample_ts : pyval := PInt 1700000000.
Definition sample_edit_fields : list (pyval * pyval) :=
  [(PInt 252, PDict [(PStr (py "fc"), PInt 1); (PStr (py "type"), PStr (py "edit"));
                     (PStr (py "target"), PStr sample_target); (PStr (py "revision"), PInt 3)])].
Definition sample_packed : bytes :=
  match pack (RN := toy_rns) 1 (toy_public 2) (py "hello") sample_edit_fields sample_ts with
  | Ok raw => raw
  | Raise _ => []
  end.
Definition sample_contacts : list (bytes * bytes) :=
  [(toy_destination (toy_public 1), toy_public 1)].

Lemma parse_fields_wf_witness :
  parse_fields sample_edit_fields (py "hello") = Ok (XEdit sample_target 3)
  ∧ extra_wf (XEdit sample_target 3) (py "hello").
Proof.
  split; [vm_compute; reflexivity|].
  apply (parse_fields_wf sample_edit_fields (py "hello")); vm_compute; reflexivity.
Defined.

Definition sample_parsed : parsed :=
  Parsed (message_id (RN := toy_rns) sample_packed)
    (tohex (destination_hash (Rns := toy_rns) (public_of (Rns := toy_rns) 1))) (py "hello") sample_ts
    (XEdit sample_target 3).

Lemma unpack_pack_witness :
  unpack (RN := toy_rns) sample_packed (toy_public 2) sample_contacts = Ok sample_parsed.
Proof.
  assert (extra_wf (XEdit sample_target 3) (py "hello")) as Hx.
  { split; [by eexists; vm_compute|]. split; [lia|done]. }
  exact (unpack_pack (RN := toy_rns) 1 (toy_public 2) sample_contacts (py "hello")
    (XEdit sample_target 3) sample_edit_fields sample_ts sample_packed
    ltac:(vm_compute; reflexivity) Hx ltac:(vm_compute; reflexivity) eq_refl eq_refl eq_refl
    ltac:(vm_compute; reflexivity) ltac:(split; vm_compute; congruence)).
Defined.

Lemma unpack_authentic_witness :
  ∃ public, dget (slice 16 32 sample_packed) sample_contacts = Some public
            ∧ signed_by (RN := toy_rns) public sample_packed.
Proof.
  assert (unpack (RN := toy_rns) sample_packed (toy_public 2) sample_contacts = Ok sample_parsed)
    as Hu by (vm_compute; reflexivity).
  destruct (unpack_authentic (RN := toy_rns) _ _ _ _ Hu) as (public & Hc & _ & Hs & _).
  exists public. split; [exact Hc | exact Hs].
Defined.
