(* ===== verification/Relay.v ===== *)
(** The closed mailbox relay (messenger/relay.py): the bounded ciphertext spool
    and the access-controlled, rate-limited request handler; and the membership
    snapshot that extends its access list (messenger/membership.py).

    The clock of the spool and the monotonic clock of the rate limit are exact
    numbers of nanoseconds; a rate token is [SECOND] units, so that one token
    refills per second as in the code. *)
From Stdlib Require Import ZArith Lia.
From S2P Require Import Prelude PyData Json Notices Rns Codec.

Local Open Scope Z_scope.

Definition MAX_BLOB : Z := MAX_PACKED + 256.

(** A row of the spool's [messages] table, keyed by the hash of its body. *)
Record row := Row {
  r_sender : bytes;
  r_recipient : bytes;
  r_received : Z;
  r_body : bytes;
}.

Record limits := Limits {
  max_bytes : Z;
  max_messages : Z;
  sender_bytes : Z;
  sender_messages : Z;
  retention : Z;
}.

Record spool := Spool { sp_limits : limits; sp_rows : list (bytes * row) }.

Definition set_rows (rows : list (bytes * row)) (s : spool) : spool := Spool (sp_limits s) rows.

(** [SELECT count( * ), coalesce(sum(length(body)),0)] over some rows. *)
Definition count (rows : list (bytes * row)) : Z := zlen rows.
Definition size (rows : list (bytes * row)) : Z :=
  foldr (λ r acc, zlen (r_body r.2) + acc) 0 rows.

(** [DELETE FROM messages WHERE received<=?] with the retention cutoff *)
Definition drop_expired (now : Z) (s : spool) : spool :=
  set_rows (filter (λ r, now - retention (sp_limits s) * SECOND < r_received r.2) (sp_rows s)) s.

(** The limits [Spool.__init__] accepts; the two rows of checks in order. *)
Definition check_limits (l : limits) : result () :=
  raise_if (existsb (λ v, v <=? 0)
    [max_bytes l; max_messages l; sender_bytes l; sender_messages l; retention l])
    (ValueError "Positive integer limits required");;
  raise_if ((1048576 <? max_bytes l) || (1000 <? max_messages l) || (30 * 86400 <? retention l))
    (ValueError "Pilot limits exceeded").

(** The hard page ceiling of the database file. *)
Definition max_pages (l : limits) : Z := (2 * max_bytes l + 262144 + 4095) / 4096.

(** Opening a spool over the rows of its file: expiry, then the configured
    limits must hold of what is left. *)
Definition open_spool (l : limits) (rows : list (bytes * row)) (now : Z) : result spool :=
  check_limits l;;
  let s := drop_expired now (Spool l rows) in
  raise_if ((max_bytes l <? size (sp_rows s)) || (max_messages l <? count (sp_rows s)))
    (ValueError "Existing spool exceeds configured limits");;
  Ok s.

(** What SQLite answers to the insertion. *)
Inductive insert_outcome : Type := Inserted | DatabaseFull | DatabaseError.

Section Relay.
Context {RN : Rns}.

Definition expire (now : Z) : M spool () := transaction (modify (drop_expired now)).

(** The rows of one sender. *)
Definition from_sender (sender : bytes) (rows : list (bytes * row)) : list (bytes * row) :=
  filter (λ r, r_sender r.2 = sender) rows.

(** The quota test of [put]. *)
Definition over_quota (l : limits) (rows : list (bytes * row)) (sender : bytes) (n : Z) : bool :=
  (max_messages l <=? count rows) || (max_bytes l <? size rows + n)
  || (sender_messages l <=? count (from_sender sender rows))
  || (sender_bytes l <? size (from_sender sender rows) + n).

(** [put(sender, blob)]; [now] and [now'] are its two clock readings. *)
Definition put (sender blob : bytes) (now now' : Z) (db : insert_outcome) : M spool bytes :=
  lift (require ((zlen sender =? 16) && (112 <=? zlen blob) && (zlen blob <=? MAX_BLOB))
          (ValueError "Invalid ciphertext envelope"));;
  let ident := full_hash blob in
  transaction (
    modify (drop_expired now);;
    s ← get_state;
    match dget ident (sp_rows s) with
    | Some duplicate =>
        lift (require (bool_decide (r_sender duplicate = sender))
                (ValueError "Ciphertext owned by another sender"));;
        mret ident
    | None =>
        lift (raise_if (over_quota (sp_limits s) (sp_rows s) sender (zlen blob)) SpoolFull);;
        match db with
        | Inserted =>
            put_state (set_rows (dset ident (Row sender (take 16 blob) now' blob) (sp_rows s)) s)
        | DatabaseFull => raise SpoolFull
        | DatabaseError => raise SqliteError
        end;;
        mret ident
    end).

(** ** Reading the mailbox *)

Definition mailbox_request : exn := ValueError "Invalid mailbox request".

(** [0 < budget <= 192] for an int or a float, then
    [min(int(budget * 1000), 192000)]. *)
Definition transfer_budget (v : pyval) : result Z :=
  require (is_number v && num_gtb_Z v 0 && num_leb_Z v 192) (ValueError "Invalid transfer budget");;
  b ← of_option (ValueError "Invalid transfer budget")
        (match v with
         | PInt z => Some (z * 1000)
         | PFloat f => int_of_float (fmul f (float_of_Z 1000))
         | _ => None
         end);
  Ok (Z.min b 192000).

(** A list of at most ten message ids, or [None]. *)
Definition id_list (v : pyval) : result (option (list bytes)) :=
  match v with
  | PNone => Ok None
  | _ =>
      l ← of_option (ValueError "Invalid message IDs") (as_list v);
      raise_if (10 <? zlen l) (ValueError "Invalid message IDs");;
      ids ← of_option (ValueError "Invalid message IDs") (mapM as_bytes l);
      require (forallb (λ i, zlen i =? 32) ids) (ValueError "Invalid message IDs");;
      Ok (Some ids)
  end.

(** The decoded request: what to fetch, what to purge, how much to send. *)
Definition parse_request (data : pyval) :
    result (option (list bytes) * option (list bytes) * Z) :=
  l ← of_option mailbox_request (as_list data);
  '(wants, haves, budget) ←
    match l with
    | [w; h] => Ok (w, h, PInt 48)
    | [w; h; b] => Ok (w, h, b)
    | _ => Raise mailbox_request
    end;
  budget ← transfer_budget budget;
  wants ← id_list wants;
  haves ← id_list haves;
  Ok (wants, haves, budget).

(** Lexicographic order of octet strings, as SQLite compares blobs. *)
Fixpoint bytes_leb (a b : bytes) : bool :=
  match a, b with
  | [], _ => true
  | _ :: _, [] => false
  | x :: a, y :: b => if x =? y then bytes_leb a b else x <? y
  end.

(** [ORDER BY received, id] *)
Definition row_leb (a b : bytes * row) : bool :=
  if r_received a.2 =? r_received b.2 then bytes_leb a.1 b.1 else r_received a.2 <? r_received b.2.

Fixpoint insert_row (x : bytes * row) (l : list (bytes * row)) : list (bytes * row) :=
  match l with
  | [] => [x]
  | y :: l => if row_leb x y then x :: y :: l else y :: insert_row x l
  end.

Definition order_rows (l : list (bytes * row)) : list (bytes * row) := foldr insert_row [] l.

Definition for_recipient (recipient : bytes) (rows : list (bytes * row)) : list (bytes * row) :=
  filter (λ r, r_recipient r.2 = recipient) rows.

(** [DELETE FROM messages WHERE id=? AND recipient=?] for each id *)
Definition purge (recipient : bytes) (haves : list bytes) (s : spool) : spool :=
  set_rows (filter (λ r, ¬ (r.1 ∈ haves ∧ r_recipient r.2 = recipient)) (sp_rows s)) s.

(** The batch loop: bodies in the order asked, skipping what does not fit. *)
Fixpoint batch (recipient : bytes) (rows : list (bytes * row)) (budget used : Z)
    (wants : list bytes) : list bytes :=
  match wants with
  | [] => []
  | ident :: wants =>
      match dget ident (for_recipient recipient rows) with
      | Some r =>
          if used + zlen (r_body r) <=? budget
          then r_body r :: batch recipient rows budget (used + zlen (r_body r)) wants
          else batch recipient rows budget used wants
      | None => batch recipient rows budget used wants
      end
  end.

(** [dict.fromkeys(l)] *)
Definition from_keys (l : list bytes) : list bytes := dkeys (dict_of ((λ i, (i, ())) <$> l)).

(** [get(recipient, data)]: ids of the mailbox, or a batch of bodies. *)
Definition get (recipient : bytes) (data : pyval) (now : Z) : M spool (list bytes) :=
  '(wants, haves, budget) ← lift (parse_request data);
  transaction (
    modify (drop_expired now);;
    match wants, haves with
    | None, None =>
        s ← get_state;
        mret ((order_rows (for_recipient recipient (sp_rows s))).*1)
    | _, _ =>
        modify (purge recipient (default [] haves));;
        s ← get_state;
        mret (batch recipient (sp_rows s) budget 0 (from_keys (default [] wants)))
    end).

(** ** Membership snapshots *)

Record membership := Membership {
  mb_sequence : Z;
  mb_expires_at : Z;
  mb_public_keys : list pystr;
}.

(** [membership.validate(value, now)]; [now] in nanoseconds *)
Definition validate_membership (value : pyval) (now : Z) : result membership :=
  d ← of_option (ValueError "Invalid membership snapshot") (as_dict value);
  require (keys_are ["sequence"; "expires_at"; "public_keys"] d)
    (ValueError "Invalid membership snapshot");;
  vseq ← item "sequence" d;
  seq ← of_option (ValueError "Invalid membership sequence") (as_int vseq);
  require ((1 <=? seq) && (seq <? 2 ^ 63)) (ValueError "Invalid membership sequence");;
  vexp ← item "expires_at" d;
  expires ← of_option (ValueError "Expired membership") (as_int vexp);
  require ((now <? expires * SECOND) && (expires * SECOND <=? now + 120 * SECOND))
    (ValueError "Expired membership");;
  vkeys ← item "public_keys" d;
  keys ← of_option (ValueError "Membership quota exceeded") (as_list vkeys);
  raise_if (550 <? zlen keys) (ValueError "Membership quota exceeded");;
  ks ← of_option (ValueError "Invalid membership keys") (mapM as_str keys);
  require (forallb (λ k, (zlen k =? 128)
             && match fromhex k with Some raw => str_eqb (tohex raw) k | None => false end) ks)
    (ValueError "Invalid membership keys");;
  raise_if (negb (bool_decide (NoDup ks))) (ValueError "Duplicate member");;
  Ok (Membership seq expires ks).

(** [Membership.keys()] on the outcome of reading and parsing the file. *)
Definition membership_keys (document : result pyval) (now : Z) : result (list bytes) :=
  match (value ← document;
         m ← validate_membership value now;
         mapR (λ k, of_option (ValueError "non-hexadecimal number") (fromhex k)) (mb_public_keys m)) with
  | Ok keys => Ok keys
  | Raise e =>
      match e with
      | OSError | TypeError => Ok []
      | _ => if is_ValueError e then Ok [] else Raise e
      end
  end.

(** ** The request handler *)

Inductive reply : Type :=
  | NoAccess
  | Rejected
  | RateLimited
  | StoredAs (ident : bytes)
  | Full
  | Unavailable
  | Items (l : list bytes).

#[export] Instance reply_eq_dec : EqDecision reply.
Proof. solve_decision. Defined.

(** The two request paths that are registered. *)
Inductive path : Type := PutPath | GetPath | OtherPath.

Record relay := Relay {
  rl_spool : spool;
  (** [self.allowed]: identity hash to delivery address *)
  rl_allowed : list (bytes * bytes);
  (** [self.rate]: identity hash to the time and tokens of its bucket *)
  rl_rate : list (bytes * (Z * Z));
}.

Definition BURST : Z := 4 * SECOND.

(** The access list the constructor builds from public keys. *)
Definition access_list (keys : list bytes) : result (list (bytes * bytes)) :=
  mapR (λ p, public ← identity_of p; addr ← address p; Ok (identity_hash public, addr)) keys.

Definition new_relay (s : spool) (allowed_public : list bytes) : result relay :=
  require ((1 <=? zlen allowed_public) && (zlen allowed_public <=? 100))
    (ValueError "Closed pilot requires 1..100 identities");;
  l ← access_list allowed_public;
  Ok (Relay s (dict_of l) []).

(** The bucket after a request at [now]: whether it is let through, and the
    bucket left. *)
Definition take_token (now : Z) (bucket : option (Z * Z)) : bool * (Z * Z) :=
  let '(last, tokens) := default (now, BURST) bucket in
  let tokens := Z.min BURST (tokens + Z.max 0 (now - last)) in
  if tokens <? SECOND then (false, (now, tokens)) else (true, (now, tokens - SECOND)).

(** The exceptions a handler turns into a reply. *)
Definition storage_error (e : exn) : bool :=
  match e with OSError | SqliteError => true | _ => false end.

(** What a request meets: the two clocks and the database. *)
Record env := Env { now_put : Z; now_insert : Z; now_rate : Z; db_insert : insert_outcome }.

(** The spool part of a request, in the state of the relay. *)
Definition on_spool {A} (m : M spool A) : M relay A := λ r,
  let '(res, s) := m (rl_spool r) in (res, Relay s (rl_allowed r) (rl_rate r)).

(** A put that passed the access check. *)
Definition respond_put (allowed : list (bytes * bytes)) (remote : bytes) (data : pyval) (e : env) :
    M relay reply :=
  match data with
  | PBytes blob =>
      if negb (in_range 112 MAX_BLOB (zlen blob) && bool_decide (take 16 blob ∈ allowed.*2))
      then mret Rejected
      else
        modify (λ r, Relay (rl_spool r) (rl_allowed r)
                       (filter (λ p, p.1 ∈ dkeys allowed) (rl_rate r)));;
        r ← get_state;
        let '(pass, bucket) := take_token (now_rate e) (dget remote (rl_rate r)) in
        modify (λ r, Relay (rl_spool r) (rl_allowed r) (dset remote bucket (rl_rate r)));;
        if negb pass then mret RateLimited
        else
          tryM (ident ← on_spool (put remote blob (now_put e) (now_insert e) (db_insert e));
                mret (StoredAs ident))
            (λ err,
               if bool_decide (err = SpoolFull) then mret Full
               else if is_ValueError err then mret Rejected
               else if storage_error err then mret Unavailable
               else raise err)
  | _ => mret Rejected
  end.

(** [respond(path, data, request_id, remote_identity, requested_at)]: [remote]
    is the hash of the remote identity, [members] what [membership.keys()]
    returned when a membership file is configured. *)
Definition respond (p : path) (data : pyval) (remote : option bytes)
    (members : option (list bytes)) (e : env) : M relay reply :=
  r ← get_state;
  allowed ← match members with
            | None => mret (rl_allowed r)
            | Some keys =>
                l ← lift (access_list keys);
                mret (foldl (λ d q, dset q.1 q.2 d) (rl_allowed r) l)
            end;
  match (remote ≫= λ h, a ← dget h allowed; Some (h, a)) with
  | None => mret NoAccess
  | Some (h, addr) =>
      match p with
      | PutPath => respond_put allowed h data e
      | GetPath =>
          tryM (l ← on_spool (get addr data (now_put e)); mret (Items l))
            (λ err, if is_ValueError err || storage_error err then mret NoAccess else raise err)
      | OtherPath => mret NoAccess
      end
  end.
End Relay.
