(* ===== verification/RelaySpec.v ===== *)
(** What the relay guarantees: the spool never exceeds its quotas, a stored
    ciphertext is there to be fetched and only by its recipient, one identity
    cannot put faster than its bucket allows, and strangers change nothing. *)
From Stdlib Require Import ZArith Lia.
From stdpp Require Import relations.
From S2P Require Import Prelude PyData Json Notices Rns Codec Relay.

Local Open Scope Z_scope.

(** ** Sizes *)

Lemma size_nonneg rows : 0 <= size rows.
Proof.
  unfold size. induction rows as [|x rows IH]; simpl; [lia|].
  pose proof (zlen_nonneg (r_body x.2)). lia.
Qed.

Lemma size_app a b : size (a ++ b) = size a + size b.
Proof. unfold size. induction a as [|x a IH]; simpl; [done|]. rewrite IH. lia. Qed.

Lemma size_filter (P : bytes * row → Prop) `{∀ x, Decision (P x)} rows :
  size (filter P rows) <= size rows.
Proof.
  induction rows as [|x rows IH]; [done|]. rewrite filter_cons.
  pose proof (zlen_nonneg (r_body x.2)). destruct (decide (P x)); unfold size in *; simpl; lia.
Qed.

Lemma count_filter (P : bytes * row → Prop) `{∀ x, Decision (P x)} rows :
  count (filter P rows) <= count rows.
Proof. unfold count, zlen. pose proof (length_filter P rows). lia. Qed.

Lemma from_sender_filter (P : bytes * row → Prop) `{∀ x, Decision (P x)} sender rows :
  from_sender sender (filter P rows) = filter P (from_sender sender rows).
Proof.
  unfold from_sender. induction rows as [|x rows IH]; [done|]. rewrite !filter_cons.
  repeat case_decide; rewrite ?filter_cons; repeat case_decide; by rewrite ?IH.
Qed.

Lemma dget_filter {V} (P : bytes * V → Prop) `{∀ x, Decision (P x)} k v (d : list (bytes * V)) :
  NoDup (dkeys d) → dget k (filter P d) = Some v ↔ dget k d = Some v ∧ P (k, v).
Proof.
  intros Hnd.
  assert (NoDup (dkeys (filter P d))) as Hnd'
    by (eapply sublist_NoDup; [exact Hnd|]; apply fmap_sublist, sublist_filter).
  split.
  - intros [Hp Hin]%dget_elem%list_elem_of_filter. split; [by apply dget_NoDup|done].
  - intros [Hg Hp]. apply dget_NoDup; [done|]. apply list_elem_of_filter. split; [done|].
    by apply dget_elem.
Qed.

Lemma filter_NoDup_keys {V} (P : bytes * V → Prop) `{∀ x, Decision (P x)} (d : list (bytes * V)) :
  NoDup (dkeys d) → NoDup (dkeys (filter P d)).
Proof. intros Hnd. eapply sublist_NoDup; [exact Hnd|]. apply fmap_sublist, sublist_filter. Qed.

Section RelaySpec.
Context {RN : Rns}.

(** ** The spool within its limits *)

Record row_wf (k : bytes) (r : row) : Prop := {
  rw_key : k = full_hash (r_body r);
  rw_recipient : r_recipient r = take 16 (r_body r);
  rw_body : 112 <= zlen (r_body r) <= MAX_BLOB;
  rw_sender : zlen (r_sender r) = 16;
}.

Record spool_wf (s : spool) : Prop := {
  sp_nodup : NoDup (dkeys (sp_rows s));
  sp_row k r : dget k (sp_rows s) = Some r → row_wf k r;
  sp_count : count (sp_rows s) <= max_messages (sp_limits s);
  sp_size : size (sp_rows s) <= max_bytes (sp_limits s);
  sp_scount sender : count (from_sender sender (sp_rows s)) <= sender_messages (sp_limits s);
  sp_ssize sender : size (from_sender sender (sp_rows s)) <= sender_bytes (sp_limits s);
}.

(** Deleting rows keeps the spool within its limits. *)
Lemma spool_wf_filter (P : bytes * row → Prop) `{∀ x, Decision (P x)} s :
  spool_wf s → spool_wf (set_rows (filter P (sp_rows s)) s).
Proof.
  intros [Hn Hr Hc Hs Hsc Hss]. split; simpl.
  - by apply filter_NoDup_keys.
  - intros k r [Hg _]%dget_filter; [by apply Hr|done].
  - pose proof (count_filter P (sp_rows s)). lia.
  - pose proof (size_filter P (sp_rows s)). lia.
  - intros sender. rewrite from_sender_filter. specialize (Hsc sender).
    pose proof (count_filter P (from_sender sender (sp_rows s))). lia.
  - intros sender. rewrite from_sender_filter. specialize (Hss sender).
    pose proof (size_filter P (from_sender sender (sp_rows s))). lia.
Qed.

Lemma drop_expired_wf now s : spool_wf s → spool_wf (drop_expired now s).
Proof. apply spool_wf_filter. Qed.

Lemma insert_wf s sender blob now :
  spool_wf s → zlen sender = 16 → 112 <= zlen blob <= MAX_BLOB →
  full_hash blob ∉ dkeys (sp_rows s) →
  over_quota (sp_limits s) (sp_rows s) sender (zlen blob) = false →
  spool_wf (set_rows (dset (full_hash blob) (Row sender (take 16 blob) now blob) (sp_rows s)) s).
Proof.
  intros [Hn Hr Hc Hs Hsc Hss] Hl Hb Hnew Hq. unfold over_quota in Hq. bools.
  set (r := Row _ _ _ _). rewrite dset_new by done.
  assert (∀ a, from_sender a (sp_rows s ++ [(full_hash blob, r)])
               = from_sender a (sp_rows s) ++ if decide (sender = a) then [(full_hash blob, r)] else [])
    as Hfrom.
  { intros a. unfold from_sender. by rewrite filter_app. }
  split; simpl.
  - rewrite <- dset_new by done. by apply dset_NoDup.
  - intros k r'. rewrite <- dset_new by done. rewrite dget_dset. case_decide; [|by apply Hr].
    intros [= <-]. subst. by split.
  - unfold count, zlen in *. rewrite length_app. simpl. lia.
  - rewrite size_app. unfold size at 2. simpl. unfold zlen in *. lia.
  - intros a. rewrite Hfrom. specialize (Hsc a). unfold count, zlen in *. rewrite length_app.
    destruct (decide (sender = a)); subst; simpl; lia.
  - intros a. rewrite Hfrom, size_app. specialize (Hss a). unfold size at 2.
    destruct (decide (sender = a)); subst; simpl; unfold zlen in *; lia.
Qed.

(** [put] when it returns. *)
Lemma put_Ok sender blob now now' db s ident s' :
  put sender blob now now' db s = (Ok ident, s') →
  zlen sender = 16 ∧ 112 <= zlen blob <= MAX_BLOB ∧ ident = full_hash blob
  ∧ let s0 := drop_expired now s in
    (s' = s0 ∧ ∃ r, dget ident (sp_rows s0) = Some r ∧ r_sender r = sender)
    ∨ (dget ident (sp_rows s0) = None
       ∧ over_quota (sp_limits s0) (sp_rows s0) sender (zlen blob) = false
       ∧ s' = set_rows (dset ident (Row sender (take 16 blob) now' blob) (sp_rows s0)) s0).
Proof.
  unfold put. intros Hp. apply M_bind_Ok in Hp as (u & s1 & [= Hu <-] & Hp).
  apply require_Ok in Hu. bools. split; [done|]. split; [done|].
  rewrite transaction_Ok in Hp.
  cbv [mbind M_bind modify get_state lift mret M_ret put_state raise] in Hp.
  set (s0 := drop_expired now s) in *. destruct (dget _ (sp_rows s0)) as [r|] eqn:Eg.
  - destruct (require _ _) eqn:Er; [|done]. apply require_Ok in Er. bools. simplify_eq.
    split; [done|]. left. split; [done|]. by exists r.
  - destruct (raise_if _ _) eqn:Eq; [|done]. apply raise_if_Ok in Eq.
    destruct db; simplify_eq. split; [done|]. by right.
Qed.

Lemma put_wf sender blob now now' db s : spool_wf s → spool_wf (put sender blob now now' db s).2.
Proof.
  intros Hwf. destruct (put sender blob now now' db s) as [[ident|e] s'] eqn:Ep; simpl.
  - apply put_Ok in Ep as (Hl & Hb & -> & Hcase). simpl in Hcase.
    pose proof (drop_expired_wf now s Hwf) as Hwf0.
    destruct Hcase as [[-> _]|(Hnew & Hq & ->)]; [done|].
    apply insert_wf; try done. by apply dget_None.
  - unfold put, mbind at 1, M_bind at 1, lift in Ep.
    destruct (require _ _); [|by simplify_eq]. by apply transaction_raise in Ep as ->.
Qed.

(** [get] when it returns. *)
Lemma get_Ok recipient data now s l s' :
  get recipient data now s = (Ok l, s') →
  ∃ wants haves budget, parse_request data = Ok (wants, haves, budget)
  ∧ let s0 := drop_expired now s in
    (wants = None ∧ haves = None ∧ s' = s0
     ∧ l = (order_rows (for_recipient recipient (sp_rows s0))).*1)
    ∨ (¬ (wants = None ∧ haves = None) ∧ s' = purge recipient (default [] haves) s0
       ∧ l = batch recipient (sp_rows s') budget 0 (from_keys (default [] wants))).
Proof.
  unfold get. intros Hg. apply M_bind_Ok in Hg as ([[wants haves] budget] & s1 & [= Hp <-] & Hg).
  exists wants, haves, budget. split; [done|]. rewrite transaction_Ok in Hg.
  cbv [mbind M_bind modify get_state mret M_ret] in Hg.
  destruct wants, haves; simplify_eq; simpl; (by left) || (right; naive_solver).
Qed.

Lemma get_wf recipient data now s : spool_wf s → spool_wf (get recipient data now s).2.
Proof.
  intros Hwf. destruct (get recipient data now s) as [[l|e] s'] eqn:Eg; simpl.
  - apply get_Ok in Eg as (wants & haves & budget & _ & Hcase). simpl in Hcase.
    pose proof (drop_expired_wf now s Hwf). destruct Hcase as [(_ & _ & -> & _)|(_ & -> & _)]; [done|].
    by apply spool_wf_filter.
  - unfold get, mbind at 1, M_bind at 1, lift in Eg.
    destruct (parse_request data) as [[[??]?]|]; [|by simplify_eq].
    by apply transaction_raise in Eg as ->.
Qed.

(** ** The handler *)

(** One request, or one pass of the daemon's expiry loop. *)
Inductive relay_op : Type :=
  | ORespond (p : path) (data : pyval) (remote : option bytes) (members : option (list bytes)) (e : env)
  | OExpire (now : Z).

Definition serve (o : relay_op) (r : relay) : relay :=
  match o with
  | ORespond p data remote members e => (respond p data remote members e r).2
  | OExpire now => (on_spool (expire now) r).2
  end.

Definition relay_step (r r' : relay) : Prop := ∃ o, r' = serve o r.

(** Running on the spool touches nothing else. *)
Lemma on_spool_eq {A} (m : M spool A) r :
  on_spool m r = ((m (rl_spool r)).1, Relay (m (rl_spool r)).2 (rl_allowed r) (rl_rate r)).
Proof. unfold on_spool. by destruct (m (rl_spool r)). Qed.

(** The access list in force for a request. *)
Definition in_force (r : relay) (members : option (list bytes)) : result (list (bytes * bytes)) :=
  match members with
  | None => Ok (rl_allowed r)
  | Some keys => l ← access_list keys; Ok (foldl (λ d q, dset q.1 q.2 d) (rl_allowed r) l)
  end.

(** A request of an identity in force runs its handler, any other nothing. *)
Lemma respond_eq p data remote members e r :
  respond p data remote members e r =
  match in_force r members with
  | Raise err => (Raise err, r)
  | Ok allowed =>
      match (remote ≫= λ h, a ← dget h allowed; Some (h, a)) with
      | None => (Ok NoAccess, r)
      | Some (h, addr) =>
          match p with
          | PutPath => respond_put allowed h data e r
          | GetPath =>
              match get addr data (now_put e) (rl_spool r) with
              | (Ok l, s) => (Ok (Items l), Relay s (rl_allowed r) (rl_rate r))
              | (Raise err, s) =>
                  (if is_ValueError err || storage_error err then Ok NoAccess else Raise err,
                   Relay s (rl_allowed r) (rl_rate r))
              end
          | OtherPath => (Ok NoAccess, r)
          end
      end
  end.
Proof.
  unfold respond, in_force. cbv [mbind M_bind get_state lift mret M_ret].
  destruct members as [keys|]; [destruct (access_list keys) as [l|]; [|done]|]; simpl.
  all: match goal with |- context [match ?x with Some _ => _ | None => _ end] =>
         destruct x as [[h addr]|]; [|done] end.
  all: destruct p; try done; unfold tryM, on_spool;
    destruct (get addr data (now_put e) (rl_spool r)) as [[l'|err] s]; simpl; try done;
    by destruct (_ || _).
Qed.

(** The state a put leaves: the spool of [put] or the old one, and the bucket of
    the caller. *)
Lemma respond_put_spool allowed h data e r :
  let r' := (respond_put allowed h data e r).2 in
  rl_allowed r' = rl_allowed r
  ∧ (rl_spool r' = rl_spool r
     ∨ ∃ blob, rl_spool r' = (put h blob (now_put e) (now_insert e) (db_insert e) (rl_spool r)).2).
Proof.
  unfold respond_put. destruct data; try (split; [done|by left]).
  cbv [mbind M_bind modify get_state mret M_ret tryM raise].
  destruct (negb (_ && _)); [split; [done|by left]|].
  cbn [rl_spool rl_allowed rl_rate].
  destruct (take_token _ _) as [pass bucket]. destruct (negb pass); [split; [done|by left]|].
  unfold on_spool. cbn [rl_spool rl_allowed rl_rate].
  destruct (put h b _ _ _ (rl_spool r)) as [[ident|err] s] eqn:Ep; simpl.
  - split; [done|]. right. exists b. by rewrite Ep.
  - split; [by repeat case_match|]. right. exists b. rewrite Ep. by repeat case_match.
Qed.

Lemma put_limits sender blob now now' db s :
  sp_limits (put sender blob now now' db s).2 = sp_limits s.
Proof.
  destruct (put sender blob now now' db s) as [[ident|e] s'] eqn:Ep; simpl.
  - by apply put_Ok in Ep as (_ & _ & _ & [[-> _]|(_ & _ & ->)]).
  - unfold put, mbind at 1, M_bind at 1, lift in Ep.
    destruct (require _ _); [|by simplify_eq]. by apply transaction_raise in Ep as ->.
Qed.

Lemma get_limits recipient data now s :
  sp_limits (get recipient data now s).2 = sp_limits s.
Proof.
  destruct (get recipient data now s) as [[l|e] s'] eqn:Eg; simpl.
  - by apply get_Ok in Eg as (? & ? & ? & _ & [(_ & _ & -> & _)|(_ & -> & _)]).
  - unfold get, mbind at 1, M_bind at 1, lift in Eg.
    destruct (parse_request data) as [[[??]?]|]; [|by simplify_eq].
    by apply transaction_raise in Eg as ->.
Qed.

Lemma serve_wf o r :
  spool_wf (rl_spool r) →
  spool_wf (rl_spool (serve o r)) ∧ sp_limits (rl_spool (serve o r)) = sp_limits (rl_spool r).
Proof.
  intros Hwf. destruct o as [p data remote members e|now]; simpl.
  - rewrite respond_eq. destruct (in_force r members) as [allowed|]; [|done].
    destruct (remote ≫= _) as [[h addr]|]; [|done]. destruct p; [| |done].
    + destruct (respond_put_spool allowed h data e r) as [_ [->|[blob ->]]]; [done|].
      split; [by apply put_wf|apply put_limits].
    + pose proof (get_wf addr data (now_put e) _ Hwf) as Hg.
      pose proof (get_limits addr data (now_put e) (rl_spool r)) as Hl.
      by destruct (get addr data (now_put e) (rl_spool r)) as [[l|err] s].
  - split; [|done]. by apply drop_expired_wf.
Qed.

Lemma relay_keeps_wf r r' l : spool_wf (rl_spool r) ∧ sp_limits (rl_spool r) = l → rtc relay_step r r' →
  spool_wf (rl_spool r') ∧ sp_limits (rl_spool r') = l.
Proof. intros H Hs. revert H. induction Hs as [|r1 r2 r3 [o ->] _ IH]; [done|]. intros [Hwf <-]. by apply IH, serve_wf. Qed.

Lemma insert_row_elem x y l : y ∈ insert_row x l ↔ y = x ∨ y ∈ l.
Proof.
  induction l as [|z l IH]; simpl; [set_solver|].
  destruct (row_leb x z); rewrite !elem_of_cons; [done|]. rewrite IH. tauto.
Qed.

Lemma order_rows_elem y l : y ∈ order_rows l ↔ y ∈ l.
Proof.
  induction l as [|x l IH]; simpl; [done|]. by rewrite insert_row_elem, IH, elem_of_cons.
Qed.

(** Octets in a batch. *)
Definition total (l : list bytes) : Z := foldr (λ b acc, zlen b + acc) 0 l.

Lemma batch_spec recipient rows budget used wants :
  let l := batch recipient rows budget used wants in
  total l <= Z.max 0 (budget - used)
  ∧ (length l <= length wants)%nat
  ∧ ∀ blob, blob ∈ l → ∃ k r, k ∈ wants ∧ dget k (for_recipient recipient rows) = Some r ∧ r_body r = blob.
Proof.
  revert used. induction wants as [|ident wants IH]; intros used; simpl.
  - split; [lia|]. split; [lia|]. intros blob Hin. by apply not_elem_of_nil in Hin.
  - destruct (dget ident _) as [r|] eqn:Eg.
    2: { destruct (IH used) as (H1 & H2 & H3). split; [done|]. split; [lia|].
         intros blob Hin. destruct (H3 blob Hin) as (k & r & ? & ?). exists k, r. split; [by right|done]. }
    destruct (Z.leb_spec (used + zlen (r_body r)) budget) as [Hle|Hgt].
    + destruct (IH (used + zlen (r_body r))) as (H1 & H2 & H3). simpl. split; [lia|]. split; [lia|].
      intros blob [->|Hin]%elem_of_cons; [exists ident, r; split; [by left|done]|].
      destruct (H3 blob Hin) as (k & r' & ? & ?). exists k, r'. split; [by right|done].
    + destruct (IH used) as (H1 & H2 & H3). split; [done|]. split; [lia|].
      intros blob Hin. destruct (H3 blob Hin) as (k & r' & ? & ?). exists k, r'. split; [by right|done].
Qed.

Lemma drop_expired_lookup now s k r :
  spool_wf s →
  dget k (sp_rows (drop_expired now s)) = Some r
  ↔ dget k (sp_rows s) = Some r ∧ now - retention (sp_limits s) * SECOND < r_received r.
Proof. intros Hwf. simpl. by rewrite dget_filter by apply Hwf. Qed.

Lemma purge_lookup recipient haves s k r :
  spool_wf s →
  dget k (sp_rows (purge recipient haves s)) = Some r
  ↔ dget k (sp_rows s) = Some r ∧ ¬ (k ∈ haves ∧ r_recipient r = recipient).
Proof. intros Hwf. simpl. by rewrite dget_filter by apply Hwf. Qed.

(** What a [get] sends is of rows not yet expired, of the caller's mailbox: their
    ids, or their bodies. *)
Lemma get_serves recipient data now s l s' x : spool_wf s → get recipient data now s = (Ok l, s') → x ∈ l →
  ∃ k r, dget k (sp_rows s) = Some r ∧ now - retention (sp_limits s) * SECOND < r_received r
    ∧ r_recipient r = recipient ∧ (x = k ∨ x = r_body r).
Proof.
  intros Hwf (wants & haves & budget & _ & Hcase)%get_Ok Hx. simpl in Hcase.
  destruct Hcase as [(_ & _ & _ & ->)|(_ & -> & ->)].
  - apply list_elem_of_fmap in Hx as ([k r] & -> & [Hr Hin]%order_rows_elem%list_elem_of_filter).
    apply dget_NoDup in Hin; [|by apply drop_expired_wf]. apply dget_filter in Hin as [Hg Ht]; [|by apply Hwf].
    exists k, r. split_and!; try done. by left.
  - apply batch_spec in Hx as (k & r & _ & Hr & <-).
    apply dget_elem, list_elem_of_filter in Hr as [Hrec Hin].
    apply dget_NoDup in Hin; [|by apply spool_wf_filter, drop_expired_wf].
    apply purge_lookup in Hin as [Hin _]; [|by apply drop_expired_wf].
    apply drop_expired_lookup in Hin as [Hg Ht]; [|done]. exists k, r. split_and!; try done. by right.
Qed.

(** C36: The relay never stores more than its configured quotas and never serves
    an expired ciphertext: from an empty spool, after any requests of anyone and
    any expiry, the spool holds at most [max_messages] ciphertexts of
    [max_bytes] octets in all and, for every sender, at most [sender_messages] of
    [sender_bytes]; every row is filed under the hash of its body, for the
    recipient its body names; and what the next [get] answers are ids and bodies
    of rows that were stored less than the retention ago for the caller, an
    identity of the access list in force. *)
Theorem relay_within_quota l now s keys r r' :
  open_spool l [] now = Ok s → new_relay s keys = Ok r → rtc relay_step r r' →
  spool_wf (rl_spool r') ∧ sp_limits (rl_spool r') = l
  ∧ ∀ data remote members e items r'', respond GetPath data remote members e r' = (Ok (Items items), r'') →
      ∃ h allowed addr, remote = Some h ∧ in_force r' members = Ok allowed ∧ dget h allowed = Some addr
        ∧ ∀ x, x ∈ items → ∃ k row, dget k (sp_rows (rl_spool r')) = Some row
            ∧ now_put e < r_received row + retention l * SECOND ∧ r_recipient row = addr ∧ (x = k ∨ x = r_body row).
Proof.
  intros Hopen Hnew Hsteps.
  assert (spool_wf (rl_spool r') ∧ sp_limits (rl_spool r') = l) as [Hwf Hl].
  { apply (relay_keeps_wf r); [|exact Hsteps]. unfold open_spool, check_limits in Hopen. unfold new_relay in Hnew. steps.
    rename select (existsb _ _ = false) into Hpos. simpl in Hpos. bools.
    split; [|done]. split; simpl; try done; try (unfold count, size, zlen; simpl; lia).
    apply NoDup_nil_2. }
  split; [exact Hwf|]. split; [exact Hl|]. intros data remote members e items r'' H. rewrite respond_eq in H.
  destruct (in_force r' members) as [allowed|] eqn:Ef; [|done].
  destruct remote as [h|]; [|done]. cbn [mbind option_bind] in H. destruct (dget h allowed) as [addr|] eqn:Ea; [|done].
  cbn [mbind option_bind] in H. destruct (get addr data (now_put e) (rl_spool r')) as [[l0|err] s'] eqn:Eg; [|by destruct (_ || _)].
  injection H as <- _. exists h, allowed, addr. split_and!; try done. intros x Hx.
  destruct (get_serves _ _ _ _ _ _ x Hwf Eg Hx) as (k & row & Hk & Ht & Hrec & Hkx). rewrite Hl in Ht. exists k, row.
  split_and!; try done. lia.
Qed.

(** ** Storing and fetching *)

(** Storing is idempotent and durable: a successful [put] answers with the
    hash of the blob under which the sender's row is now filed, and repeating
    it before the row expires answers the same and adds nothing, whatever the
    quotas and the database say; another sender is refused. *)
Theorem put_idempotent sender blob now now' db s ident s' :
  spool_wf s → put sender blob now now' db s = (Ok ident, s') →
  ident = full_hash blob
  ∧ ∃ r, dget ident (sp_rows s') = Some r ∧ r_sender r = sender
  ∧ ∀ later later' db', later - retention (sp_limits s) * SECOND < r_received r →
      put sender blob later later' db' s' = (Ok ident, drop_expired later s')
      ∧ ∀ other, zlen other = 16 → other ≠ sender →
          (put other blob later later' db' s').1 = Raise (ValueError "Ciphertext owned by another sender").
Proof.
  intros Hwf Hp. pose proof (put_wf sender blob now now' db s Hwf) as Hwf'.
  pose proof (put_limits sender blob now now' db s) as Hlim. rewrite Hp in Hwf', Hlim. simpl in *.
  apply put_Ok in Hp as (Hl & Hb & -> & Hcase). simpl in Hcase. split; [done|].
  assert (∃ r, dget (full_hash blob) (sp_rows s') = Some r ∧ r_sender r = sender) as (r & Hr & Hs).
  { destruct Hcase as [[-> Hrow]|(_ & _ & ->)]; [done|]. simpl. rewrite dget_dset_eq. by eexists. }
  exists r. do 2 (split; [done|]). intros later later' db' Hlive.
  assert (dget (full_hash blob) (sp_rows (drop_expired later s')) = Some r) as Hkeep.
  { simpl. apply dget_filter; [apply Hwf'|]. split; [done|]. simpl. by rewrite Hlim. }
  unfold put, transaction. cbv [mbind M_bind lift modify get_state mret M_ret put_state raise].
  split; [|intros other Ho Hne].
  - rewrite Hl. rewrite (proj2 (Z.leb_le _ _)), (proj2 (Z.leb_le _ _)) by lia. simpl require.
    cbv iota beta. rewrite Hkeep. by rewrite bool_decide_eq_true_2.
  - rewrite Ho. rewrite (proj2 (Z.leb_le _ _)), (proj2 (Z.leb_le _ _)) by lia. simpl require.
    cbv iota beta. rewrite Hkeep. rewrite (bool_decide_eq_false_2 (r_sender r = other)) by congruence. done.
Qed.

Lemma length_from_keys l : (length (from_keys l) <= length l)%nat.
Proof.
  unfold from_keys, dict_of, dkeys. rewrite length_fmap.
  assert (∀ d : list (bytes * ()), (length (foldl (λ d p, dset p.1 p.2 d) d ((λ i, (i, ())) <$> l))
            <= length d + length l)%nat) as Hgen.
  { induction l as [|x l IH]; intros d; csimpl; [lia|].
    pose proof (IH (dset x () d)) as Hd. rewrite length_dset in Hd. case_decide; lia. }
  specialize (Hgen []). simpl in Hgen. lia.
Qed.

Lemma id_list_length v ids : id_list v = Ok ids → (length (default [] ids) <= 10)%nat.
Proof.
  assert (∀ l, (raise_if (10 <? zlen l) (ValueError "Invalid message IDs");;
      ids ← of_option (ValueError "Invalid message IDs") (mapM as_bytes l);
      require (forallb (λ i, zlen i =? 32) ids) (ValueError "Invalid message IDs");;
      Ok (Some ids)) = Ok ids → (length (default [] ids) <= 10)%nat) as Hlist.
  { intros l Hl. steps. simpl. rename select (mapM _ _ = _) into Hm. apply length_mapM in Hm.
    unfold zlen in *. lia. }
  destruct v; simpl; try done; [intros [= <-]; simpl; lia|apply Hlist].
Qed.

Lemma parse_request_bounds data wants haves budget :
  parse_request data = Ok (wants, haves, budget) →
  budget <= 192000 ∧ (length (default [] wants) <= 10)%nat.
Proof.
  unfold parse_request. intros Hp. steps.
  repeat match goal with x : (_ * _)%type |- _ => destruct x end. steps. simplify_eq/=.
  split; [|by eapply id_list_length]. unfold transfer_budget in *. steps. lia.
Qed.

(** The mailbox is private: whatever the request, a [get] keeps every
    unexpired row of every other recipient and adds none; what it lists is
    exactly the ids waiting for the caller, and what it sends are at most ten
    bodies addressed to the caller, 192000 octets in all. *)
Theorem get_isolated recipient data now s l s' wants haves budget :
  spool_wf s → get recipient data now s = (Ok l, s') →
  parse_request data = Ok (wants, haves, budget) →
  (∀ k r, dget k (sp_rows s) = Some r → now - retention (sp_limits s) * SECOND < r_received r →
     r_recipient r ≠ recipient → dget k (sp_rows s') = Some r)
  ∧ (∀ k r, dget k (sp_rows s') = Some r → dget k (sp_rows s) = Some r)
  ∧ match wants, haves with
    | None, None => ∀ i, i ∈ l ↔ ∃ r, dget i (sp_rows s') = Some r ∧ r_recipient r = recipient
    | _, _ => (length l <= 10)%nat ∧ total l <= 192000
        ∧ ∀ blob, blob ∈ l → ∃ r, dget (full_hash blob) (sp_rows s') = Some r
            ∧ r_body r = blob ∧ r_recipient r = recipient
    end.
Proof.
  intros Hwf Hg Hparse. destruct (parse_request_bounds _ _ _ _ Hparse) as [Hbud Hten].
  pose proof (get_wf recipient data now s Hwf) as Hwf'. rewrite Hg in Hwf'. simpl in Hwf'.
  pose proof (drop_expired_wf now s Hwf) as Hwf0.
  apply get_Ok in Hg as (w & h & b & Hp & Hcase). rewrite Hparse in Hp. injection Hp as <- <- <-.
  pose proof (λ k r, drop_expired_lookup now s k r Hwf) as Hdrop.
  simpl in Hcase. destruct Hcase as [(-> & -> & -> & ->)|(Hnone & Hs' & Hl)].
  - split; [intros k r ???; by apply Hdrop|]. split; [by intros k r [? _]%Hdrop|].
    intros i. rewrite list_elem_of_fmap. split.
    + intros ([k r] & -> & [Hr Hin]%order_rows_elem%list_elem_of_filter). exists r.
      split; [|done]. apply dget_NoDup; [apply Hwf0|done].
    + intros (r & Hr & Hrec). exists (i, r). split; [done|]. apply order_rows_elem, list_elem_of_filter.
      split; [done|]. by apply dget_elem.
  - pose proof (λ k r, purge_lookup recipient (default [] haves) _ k r Hwf0) as Hpurge.
    rewrite <- Hs' in Hpurge.
    split; [|split].
    + intros k r Hk Hlive Hne. apply Hpurge. split; [by apply Hdrop|]. by intros [_ ?].
    + intros k r [[? _]%Hdrop _]%Hpurge. done.
    + destruct (batch_spec recipient (sp_rows s') budget 0 (from_keys (default [] wants)))
        as (Htot & Hlen & Hall). rewrite <- Hl in Htot, Hlen, Hall.
      pose proof (length_from_keys (default [] wants)).
      assert ((length l <= 10)%nat ∧ total l <= 192000
        ∧ ∀ blob, blob ∈ l → ∃ r, dget (full_hash blob) (sp_rows s') = Some r
            ∧ r_body r = blob ∧ r_recipient r = recipient) as Hbatch.
      { split; [lia|]. split.
        - lia.
        - intros blob Hin. destruct (Hall blob Hin) as (k & r & _ & Hk & <-).
          apply dget_filter in Hk as [Hk Hr]; [|apply Hwf'].
          exists r. rewrite <- (rw_key _ _ (sp_row _ Hwf' _ _ Hk)). done. }
      destruct wants, haves; try exact Hbatch. by destruct Hnone.
Qed.

(** ** The rate limit *)

Record request := Request {
  rq_path : path;
  rq_data : pyval;
  rq_remote : option bytes;
  rq_members : option (list bytes);
  rq_env : env;
}.

Definition answer (q : request) (r : relay) : result reply * relay :=
  respond (rq_path q) (rq_data q) (rq_remote q) (rq_members q) (rq_env q) r.

(** A put of [h] that got through to the spool. *)
Definition admitted (h : bytes) (q : request) (res : result reply) : bool :=
  bool_decide (rq_remote q = Some h)
  && match rq_path q, res with
     | PutPath, Ok (StoredAs _) | PutPath, Ok Full | PutPath, Ok Unavailable => true
     | _, _ => false
     end.

(** How many puts of [h] get through in a sequence of requests. *)
Fixpoint admissions (h : bytes) (qs : list request) (r : relay) : Z :=
  match qs with
  | [] => 0
  | q :: qs => Z.b2z (admitted h q (answer q r).1) + admissions h qs (answer q r).2
  end.

(** The requests are served between [t0] and [t1], in the order of the clock. *)
Fixpoint within (t0 t1 : Z) (qs : list request) : Prop :=
  match qs with
  | [] => t0 <= t1
  | q :: qs => t0 <= now_rate (rq_env q) ∧ within (now_rate (rq_env q)) t1 qs
  end.

(** Tokens of a bucket at time [t]. *)
Definition avail (t : Z) (b : option (Z * Z)) : Z :=
  let '(last, tokens) := default (t, BURST) b in Z.min BURST (tokens + Z.max 0 (t - last)).

Lemma take_token_eq t b :
  take_token t b =
  if avail t b <? SECOND then (false, (t, avail t b)) else (true, (t, avail t b - SECOND)).
Proof. unfold take_token, avail. by destruct (default (t, BURST) b). Qed.

Lemma avail_later t0 t b : t0 <= t → avail t b <= avail t0 b + (t - t0).
Proof.
  unfold avail, BURST, SECOND. destruct b as [[last tokens]|]; cbn [default id]; intros; lia.
Qed.

Lemma avail_self t n b : avail t (Some (t, n)) <= n ∧ avail t b <= BURST.
Proof.
  unfold avail, BURST, SECOND. split; [|destruct b as [[last tokens]|]]; cbn [default id]; lia.
Qed.

Lemma avail_nonneg t b : (∀ x, b = Some x → 0 <= x.2) → 0 <= avail t b.
Proof.
  intros Hb. unfold avail, BURST, SECOND. destruct b as [[last tokens]|]; cbn [default id]; [|lia].
  specialize (Hb _ eq_refl). simpl in Hb. lia.
Qed.

Lemma dget_filter_key {V} (P : bytes * V → Prop) `{∀ x, Decision (P x)} k (d : list (bytes * V)) :
  (∀ v, P (k, v)) → dget k (filter P d) = dget k d.
Proof.
  intros Hk. induction d as [|[k' v] d IH]; [done|]. rewrite filter_cons. simpl.
  destruct (decide (P (k', v))) as [Hp|Hp]; simpl; case_decide; subst; try done.
  by destruct (Hp (Hk v)).
Qed.

Lemma in_force_keys r members allowed h :
  in_force r members = Ok allowed → h ∈ dkeys (rl_allowed r) → h ∈ dkeys allowed.
Proof.
  unfold in_force. destruct members as [keys|]; [|by intros [= <-]].
  intros Hf Hin. steps. rename select (list (bytes * bytes)) into l. clear -Hin.
  revert Hin. generalize (rl_allowed r). induction l as [|q l IH]; intros d Hin; simpl; [done|].
  apply IH. destruct (decide (q.1 ∈ dkeys d)).
  - by rewrite dkeys_dset_old.
  - rewrite dkeys_dset_new by done. apply elem_of_app. by left.
Qed.

(** What a request does to the bucket of a configured identity. *)
Lemma answer_rate h q r :
  h ∈ dkeys (rl_allowed r) →
  let res := (answer q r).1 in let r' := (answer q r).2 in
  rl_allowed r' = rl_allowed r
  ∧ ((dget h (rl_rate r') = dget h (rl_rate r) ∧ admitted h q res = false)
     ∨ (dget h (rl_rate r') = Some (take_token (now_rate (rq_env q)) (dget h (rl_rate r))).2
        ∧ (admitted h q res = true → (take_token (now_rate (rq_env q)) (dget h (rl_rate r))).1 = true))).
Proof.
  intros Hin. unfold answer, admitted. rewrite respond_eq.
  destruct (in_force r (rq_members q)) as [allowed|] eqn:Ef;
    [|split; [done|left; split; [done|]; destruct (rq_path q); apply andb_false_r]].
  pose proof (in_force_keys _ _ _ _ Ef Hin) as Hall.
  destruct (rq_remote q ≫= _) as [[h' addr]|] eqn:Er;
    [|split; [done|left; split; [done|]; destruct (rq_path q); apply andb_false_r]].
  destruct (rq_path q).
  2: { destruct (get _ _ _ _) as [[l|err] s]; simpl; (split; [done|]); left; (split; [done|]);
       apply andb_false_r. }
  2: { split; [done|]. left. split; [done|]. apply andb_false_r. }
  assert (rq_remote q = Some h') as ->.
  { destruct (rq_remote q) as [h0|]; [|done]. simpl in Er. destruct (dget h0 allowed); [|done].
    simpl in Er. by simplify_eq. }
  unfold respond_put.
  destruct (rq_data q) as [| | | | |blob| |]; try (split; [done|left; split; [done|apply andb_false_r]]).
  cbv [mbind M_bind modify get_state mret M_ret tryM raise].
  destruct (negb (_ && _)); [split; [done|left; split; [done|apply andb_false_r]]|].
  cbn [rl_spool rl_allowed rl_rate].
  set (rate := filter _ (rl_rate r)).
  assert (dget h rate = dget h (rl_rate r)) as Hrate by (by apply dget_filter_key).
  destruct (decide (h' = h)) as [->|Hne].
  - rewrite Hrate. destruct (take_token _ _) as [pass bucket] eqn:Et. cbn [fst snd].
    destruct pass; cbn [negb].
    + unfold on_spool. cbn [rl_spool rl_allowed rl_rate].
      destruct (put h blob _ _ _ (rl_spool r)) as [[ident|err] s]; cbn -[dset];
        repeat case_match; simplify_eq; cbn -[dset]; (split; [done|]); right; by rewrite dget_dset_eq.
    + simpl. split; [done|]. right. rewrite dget_dset_eq. split; [done|]. by rewrite andb_false_r.
  - assert (∀ res, (bool_decide (Some h' = Some h) && res) = false) as Hno
      by (intros res; by rewrite bool_decide_eq_false_2 by congruence).
    destruct (take_token _ (dget h' rate)) as [pass bucket]. destruct pass; cbn [negb].
    + unfold on_spool. cbn [rl_spool rl_allowed rl_rate].
      destruct (put h' blob _ _ _ (rl_spool r)) as [[ident|err] s]; cbn -[dset];
        repeat case_match; simplify_eq; cbn -[dset]; (split; [done|]); left;
        rewrite dget_dset_ne by done; by rewrite Hrate, ?Hno.
    + simpl. split; [done|]. left. rewrite dget_dset_ne by done. by rewrite Hrate, Hno.
Qed.

(** No configured identity can put faster than its bucket: in any sequence
    of requests of anyone served between [t0] and [t1], at most four puts of
    [h] plus one for every full second of that time reach the spool. *)
Theorem put_rate_bounded h qs r t0 t1 :
  h ∈ dkeys (rl_allowed r) → (∀ b, dget h (rl_rate r) = Some b → 0 <= b.2) → within t0 t1 qs →
  admissions h qs r * SECOND <= BURST + (t1 - t0).
Proof.
  intros Hin Hpos Hw.
  assert (admissions h qs r * SECOND <= avail t0 (dget h (rl_rate r)) + (t1 - t0)) as Hmain;
    [|pose proof (avail_self t0 0 (dget h (rl_rate r))); lia].
  revert r t0 Hin Hpos Hw. induction qs as [|q qs IH]; intros r t0 Hin Hpos; simpl.
  - intros Hle. pose proof (avail_nonneg t0 _ Hpos). lia.
  - intros [Hle Hw]. set (t := now_rate (rq_env q)) in *.
    destruct (answer_rate h q r Hin) as [Hall Hcase].
    set (res := (answer q r).1) in *. set (r' := (answer q r).2) in *.
    assert (h ∈ dkeys (rl_allowed r')) as Hin' by (by rewrite Hall).
    pose proof (avail_later t0 t (dget h (rl_rate r)) Hle) as Hlater.
    fold t in Hcase. destruct Hcase as [[Hb Hadm]|[Hb Hadm]].
    + rewrite Hadm. rewrite <- Hb in Hpos, Hlater. rewrite <- Hb. specialize (IH r' t Hin' Hpos Hw). simpl. lia.
    + pose proof (avail_nonneg t _ Hpos) as Hn. rewrite take_token_eq in Hb, Hadm.
      assert (∀ b, dget h (rl_rate r') = Some b → 0 <= b.2) as Hpos'.
      { rewrite Hb. intros b [= <-]. destruct (Z.ltb_spec (avail t (dget h (rl_rate r))) SECOND);
          simpl; lia. }
      specialize (IH r' t Hin' Hpos' Hw). rewrite Hb in IH.
      destruct (Z.ltb_spec (avail t (dget h (rl_rate r))) SECOND); simpl in *.
      * destruct (admitted h q res); [by discriminate Hadm|]. simpl.
        pose proof (avail_self t (avail t (dget h (rl_rate r))) None). lia.
      * pose proof (avail_self t (avail t (dget h (rl_rate r)) - SECOND) None).
        assert (Z.b2z (admitted h q res) <= 1) by (by destruct (admitted h q res)). unfold SECOND in *. lia.
Qed.

(** ** Access *)

(** A stranger learns and changes nothing: a request without an identity, or
    of one that neither the configuration nor the current membership snapshot
    lists, is answered [NoAccess] whatever it asks, and leaves the spool and
    every rate bucket as they were. *)
Theorem stranger_refused q r allowed :
  in_force r (rq_members q) = Ok allowed →
  match rq_remote q with None => True | Some h => h ∉ dkeys allowed end →
  answer q r = (Ok NoAccess, r).
Proof.
  intros Hf Hno. unfold answer. rewrite respond_eq, Hf.
  destruct (rq_remote q) as [h|]; simpl; [|done].
  apply dget_None in Hno. by rewrite Hno.
Qed.

(** C37: Membership fails closed: reading the snapshot never raises one of the
    exceptions an absent, unreadable or malformed file causes; it grants keys
    only from a document that is valid now, at most 550 distinct keys of 64
    octets, and never past its expiry, which is at most two minutes ahead. *)
Theorem membership_fail_closed document now keys :
  membership_keys document now = Ok keys →
  keys = []
  ∨ ∃ value m, document = Ok value ∧ validate_membership value now = Ok m
      ∧ now < mb_expires_at m * SECOND <= now + 120 * SECOND
      ∧ (length keys <= 550)%nat ∧ NoDup keys ∧ Forall (λ k, length k = 64%nat) keys.
Proof.
  unfold membership_keys. destruct document as [value|e]; [|].
  2: { simpl. destruct e; simpl; intros; simplify_eq; by left. }
  cbn [mbind result_bind]. destruct (validate_membership value now) as [m|e] eqn:Ev.
  2: { simpl. destruct e; simpl; intros; simplify_eq; by left. }
  cbn [mbind result_bind].
  destruct (mapR _ (mb_public_keys m)) as [ks|e] eqn:Em; [|intros Hr; left; destruct e; simpl in Hr; by simplify_eq].
  intros [= <-]. right. exists value, m. split; [done|]. split; [done|].
  apply mapR_Forall2 in Em.
  unfold validate_membership in Ev. steps. simpl in *.
  split; [lia|].
  pose proof (Forall2_length _ _ _ Em) as Hlen.
  rename select (mapM as_str _ = Some _) into Hstr. pose proof (length_mapM _ _ _ Hstr).
  unfold zlen in *. split; [lia|].
  rename select (forallb _ _ = true) into Hall. rewrite forallb_forall in Hall.
  assert (a10 = tohex <$> ks) as ->.
  { clear -Em Hall. induction Em as [|x y l l' Hxy Hl IH]; csimpl; [done|].
    rewrite IH by (intros z Hz; apply Hall; by right). f_equal.
    specialize (Hall x (or_introl eq_refl)). apply of_option_Ok in Hxy. rewrite Hxy in Hall.
    sbools. done. }
  split; [by apply NoDup_fmap_1 in Ha12|]. apply Forall_forall. intros k Hk.
  specialize (Hall (tohex k)). rewrite length_tohex in Hall.
  assert (In (tohex k) (tohex <$> ks)) as Hin by (apply list_elem_of_In, list_elem_of_fmap_2, Hk).
  specialize (Hall Hin). sbools. lia.
Qed.
End RelaySpec.
