(* ===== verification/ChatAccess.v ===== *)
(** Chat identities of enrolled devices (control/friends/chat.py, chat_sync.py):
    one chat key per device, registered with a proof of both keys, and the
    member snapshot the mailbox node is leased. *)
From Stdlib Require Import ZArith Lia.
From S2P Require Import Prelude PyData Json Ipaddress JsonText Rns Ack DeviceProof.
From S2P Require Import Registry Referrals PaidBeta TransportPolicy Admission.

Local Open Scope Z_scope.

(** ** The tables *)

Record chat_challenge := ChatChallenge {
  cc_device : pystr;
  cc_public : pystr;
  cc_expires : Z;
  cc_used : bool;
}.

(** [chat_bindings], [chat_challenges] and the value of [chat_sequence]. *)
Record chat_tables := ChatTables {
  ct_bindings : list (pystr * pystr);
  ct_challenges : list (pystr * chat_challenge);
  ct_sequence : Z;
}.

(** The chat tables live beside the registry in its database; they exist once
    migrated. *)
Record chat_db := ChatDb { cd_registry : registry; cd_chat : option chat_tables }.

Definition set_chat x (s : chat_db) : chat_db := ChatDb (cd_registry s) (Some x).
Definition set_bindings x (t : chat_tables) : chat_tables := ChatTables x (ct_challenges t) (ct_sequence t).
Definition set_chat_challenges x (t : chat_tables) : chat_tables := ChatTables (ct_bindings t) x (ct_sequence t).

Definition the_registry : M chat_db registry := s ← get_state; mret (cd_registry s).
Definition the_chat : M chat_db chat_tables := s ← get_state; lift (of_option SqliteError (cd_chat s)).
Definition check (b : bool) (e : exn) : M chat_db () := lift (require b e).
Definition change_chat (f : chat_tables → chat_tables) : M chat_db () := t ← the_chat; modify (set_chat (f t)).

(** [initialize()]: tables that exist are kept. *)
Definition chat_initialize : M chat_db () :=
  modify (λ s, match cd_chat s with Some _ => s | None => set_chat (ChatTables [] [] 0) s end).

(** ** Admission *)

(** [active(db, device, public_identity, wireguard_public_key)] *)
Definition chat_active (device : pystr) (keys : option (pyval * pyval)) : M chat_db () :=
  g ← the_registry;
  row ← lift (of_option Rejected (dget device (rg_devices g)));
  grant ← lift (of_option Rejected (invite_of device g));
  check (negb (dv_revoked row) && negb (iv_revoked grant)) Rejected;;
  check (match keys with
         | None => true
         | Some (public, wg) => same_keys public wg (dv_public row) (dv_wg row)
         end) Rejected.

Definition chat_unused (device : pystr) (l : list (pystr * chat_challenge)) : list (pystr * chat_challenge) :=
  List.filter (λ p, str_eqb (cc_device p.2) device && negb (cc_used p.2)) l.

(** A device that has a chat key keeps it. *)
Definition other_binding (device public : pystr) (t : chat_tables) : bool :=
  match dget device (ct_bindings t) with Some p => negb (str_eqb p public) | None => false end.

Section ChatAccess.
Context {RN : Rns} (float_repr : spec_float → pystr).

(** [challenge(public_identity, wireguard_public_key, chat_public)]; [token] are
    the thirty-two random octets. *)
Definition chat_challenge_for (public wg chat_public : pyval) (now : Z) (token : bytes) : M chat_db (pystr * Z * pystr) :=
  device ← lift (device_of public wg);
  let nonce := b64encode token in
  lift (admission_message chat_public (PStr device) (PStr nonce));;
  let chat := str_or_empty chat_public in
  transaction (
    chat_active device (Some (public, wg));;
    t ← the_chat;
    check (negb (other_binding device chat t)) Rejected;;
    change_chat (λ t, set_chat_challenges (filter (λ p, ~ cc_expires p.2 <= now) (ct_challenges t)) t);;
    t ← the_chat;
    check (zlen (chat_unused device (ct_challenges t)) <? 8) Rejected;;
    h ← lift (sha_text nonce);
    check (negb (dmem h (ct_challenges t))) SqliteError;;
    change_chat (λ t, set_chat_challenges (dset h (ChatChallenge device chat (now + CHALLENGE_TTL) false) (ct_challenges t)) t);;
    mret (nonce, now + CHALLENGE_TTL, device)).

(** The checks of [register] before its transaction: the device, its claims and
    the chat key both proofs are about. *)
Definition chat_proof (proof chat_public chat_signature : pyval) : result (pystr * claims * pystr) :=
  expected ← proof_challenge proof;
  '(device, cl) ← verify_proof float_repr proof expected ENROLLMENT;
  payload ← admission_message chat_public (PStr device) expected;
  s ← of_option Rejected (as_str chat_signature);
  require (zlen s =? 128) Rejected;;
  signature ← of_option bad_hex (fromhex s);
  require (str_eqb (tohex signature) s) Rejected;;
  let chat := str_or_empty chat_public in
  key ← of_option bad_hex (fromhex chat);
  require (validate key signature payload) Rejected;;
  Ok (device, cl, chat).

(** [INSERT INTO chat_bindings]: both columns are unique. *)
Definition insert_binding (device public : pystr) : M chat_db () :=
  t ← the_chat;
  check (negb (existsb (λ p, str_eqb p.1 device || str_eqb p.2 public) (ct_bindings t))) Rejected;;
  change_chat (λ t, set_bindings (dset device public (ct_bindings t)) t).

(** The live challenge the proof answers. *)
Definition chat_answers (c : option chat_challenge) (device public : pystr) (now : Z) : result chat_challenge :=
  c ← of_option Rejected c;
  require (negb (cc_used c) && negb (cc_expires c <=? now) && str_eqb (cc_device c) device && str_eqb (cc_public c) public) Rejected;;
  Ok c.

(** [register(proof, chat_public, chat_signature)] *)
Definition chat_register (proof chat_public chat_signature : pyval) (now : Z) : M chat_db (pystr * pystr) :=
  '(device, cl, chat) ← lift (chat_proof proof chat_public chat_signature);
  nonce ← lift (sha_text (cl_challenge cl));
  transaction (
    chat_active device (Some (PStr (cl_public cl), PStr (cl_wg cl)));;
    t ← the_chat;
    c ← lift (chat_answers (dget nonce (ct_challenges t)) device chat now);
    check (negb (other_binding device chat t)) Rejected;;
    (if dmem device (ct_bindings t) then mret () else insert_binding device chat);;
    change_chat (λ t, set_chat_challenges
      (dset nonce (ChatChallenge (cc_device c) (cc_public c) (cc_expires c) true) (ct_challenges t)) t);;
    mret (device, chat)).

(** ** The members *)

(** The join of bindings, devices and invitations that are in force, ordered by
    device. *)
Definition members (g : registry) (t : chat_tables) : list pystr :=
  List.map snd (by_device (List.filter (λ p, in_force (enrolled p.1 g)) (ct_bindings t))).

(** [desired_members()] *)
Definition desired_members : M chat_db (list pystr) :=
  transaction (g ← the_registry; t ← the_chat; mret (members g t)).

(** [snapshot()] *)
Definition membership_value (sequence expires : Z) (keys : list pystr) : pyval :=
  PDict [(PStr (py "sequence"), PInt sequence); (PStr (py "expires_at"), PInt expires);
         (PStr (py "public_keys"), PList (List.map PStr keys))].

Definition chat_snapshot (now : Z) : M chat_db (Z * Z * list pystr) :=
  transaction (
    g ← the_registry;
    t ← the_chat;
    let keys := members g t in
    check (zlen keys <=? 550) Rejected;;
    change_chat (λ t, ChatTables (ct_bindings t) (ct_challenges t) (ct_sequence t + 1));;
    t ← the_chat;
    mret (ct_sequence t, now + 100, keys)).

(** ** Publication to the node (chat_sync.py) *)

(** [str(ipaddress.IPv4Address(s)) == s] *)
Definition is_ipv4 (s : pystr) : bool :=
  match ipv4_int s with Some n => str_eqb (ipv4_text n) s | None => false end.

(** The node's configuration file and what its pinned command answers: a failed
    command has no answer. *)
Record chat_node := ChatNode {
  nd_file : result pyval;
  nd_answer : pystr → pyval → option bytes;
}.

(** [_synchronize(registry)] *)
Definition synchronize (n : chat_node) (now : Z) : M chat_db (Z * Z * list pystr * pyval) :=
  '(sequence, expires, keys) ← chat_snapshot now;
  lift (
    v ← nd_file n;
    node ← of_option TypeError (as_dict v);
    host ← item "host" node;
    host ← of_option (ValueError "Invalid mailbox address") (as_str host);
    require (is_ipv4 host) (ValueError "Invalid mailbox address");;
    out ← of_option (RuntimeError "Node synchronization unavailable") (nd_answer n host (membership_value sequence expires keys));
    raise_if (2048 <? zlen out) (RuntimeError "Node synchronization unavailable");;
    reply ← of_option (ValueError "JSONDecodeError") (json_decode out ≫= json_loads plain_object);
    raise_if (existsb (λ p, key_is_str (py "sequence") p.1 || key_is_str (py "expires_at") p.1) node) TypeError;;
    require (py_eqb reply (PDict ([(PStr (py "sequence"), PInt sequence); (PStr (py "expires_at"), PInt expires)] ++ node)))
      (ValueError "Node acknowledgement mismatch");;
    Ok (sequence, expires, keys, reply)).
End ChatAccess.
