(* ===== verification/ChatAccessSpec.v ===== *)
(** Chat identities over all runs of the registry: a device's chat key never
    changes and is proved by both keys, and the node's members are exactly the
    chat keys of the devices in force.

    What the chat registry promises to devices and to the mailbox node. *)
From Stdlib Require Import ZArith Lia.
From S2P Require Import Prelude PyData Json JsonText Notices Rns Ack DeviceProof Registry Referrals PaidBeta.
From S2P Require Import TransportPolicy PaidEvents RegistrySpec FriendsInv FriendsOps PaidOps.
From S2P Require Import FriendsRuns Admission ChatAccess AckSize TransportSpec Relay.

Local Open Scope Z_scope.

(** ** Successful steps *)

Lemma the_registry_Ok s g s' : the_registry s = (Ok g, s') ↔ g = cd_registry s ∧ s' = s.
Proof. unfold the_registry. split; [by intros [= <- <-]|by intros [-> ->]]. Qed.
Lemma the_chat_Ok s t s' : the_chat s = (Ok t, s') ↔ cd_chat s = Some t ∧ s' = s.
Proof.
  unfold the_chat, mbind, M_bind, get_state, lift. destruct (cd_chat s); simpl; split; [by intros [= <- <-]|by intros [[= <-] ->]|done|by intros []].
Qed.
Lemma check_Ok b e s u s' : check b e s = (Ok u, s') ↔ b = true ∧ s' = s.
Proof. unfold check, lift, require. destruct b, u; split; try done; [by intros [= <-]|by intros [_ ->]|by intros []]. Qed.
Lemma change_chat_Ok f s u s' : change_chat f s = (Ok u, s') ↔ ∃ t, cd_chat s = Some t ∧ s' = set_chat (f t) s.
Proof.
  unfold change_chat. rewrite M_bind_Ok. destruct u. split.
  - intros (t & s1 & [Ht ->]%the_chat_Ok & [= <-]). eauto.
  - intros (t & Ht & ->). exists t, s. rewrite the_chat_Ok. done.
Qed.

Ltac inv_c1 :=
  match goal with
  | H : the_registry _ = (Ok _, _) |- _ => apply the_registry_Ok in H as [-> ->]
  | H : the_chat _ = (Ok _, _) |- _ => let E := fresh "E" in apply the_chat_Ok in H as [E ->]
  | H : check _ _ _ = (Ok _, _) |- _ => let E := fresh "E" in apply check_Ok in H as [E ->]
  | H : change_chat _ _ = (Ok _, _) |- _ => let t := fresh "t" in let E := fresh "E" in apply change_chat_Ok in H as (t & E & ->)
  end.
Ltac inv_c := repeat (first [inv_m1 | inv_c1]; cbv beta iota zeta in * |-).

(** ** The invariant *)

Definition bound (s : chat_db) (device public : pystr) : Prop := ∃ t, cd_chat s = Some t ∧ dget device (ct_bindings t) = Some public.

Record chat_wf (g : registry) (t : chat_tables) : Prop := {
  cw_bindings : NoDup (dkeys (ct_bindings t));
  cw_unique d1 d2 p : dget d1 (ct_bindings t) = Some p → dget d2 (ct_bindings t) = Some p → d1 = d2;
  cw_shape d p : dget d (ct_bindings t) = Some p → ∃ raw, all_bytes raw ∧ zlen raw = 64 ∧ p = tohex raw;
  cw_device d p : dget d (ct_bindings t) = Some p → is_Some (dget d (rg_devices g));
  cw_sequence : 0 <= ct_sequence t;
}.

Definition db_wf (s : chat_db) : Prop :=
  friends_wf (cd_registry s) ∧ ∀ t, cd_chat s = Some t → chat_wf (cd_registry s) t.

(** Bindings are never taken back, and the sequence never falls. *)
Definition sequence_of (s : chat_db) : Z := match cd_chat s with Some t => ct_sequence t | None => 0 end.
Record chat_evolves (s s' : chat_db) : Prop := {
  ce_registry : evolves (cd_registry s) (cd_registry s');
  ce_bound d p : bound s d p → bound s' d p;
  ce_sequence : sequence_of s <= sequence_of s';
}.

Definition chat_safe (s s' : chat_db) : Prop := db_wf s → db_wf s' ∧ chat_evolves s s'.

#[export] Instance chat_safe_preorder : PreOrder chat_safe.
Proof.
  split.
  - intros s Hs. split; [done|]. split; [apply evolves_refl|done|done].
  - intros s1 s2 s3 H1 H2 W1. destruct (H1 W1) as [W2 [E1 B1 Q1]]. destruct (H2 W2) as [W3 [E2 B2 Q2]].
    split; [done|]. split; [by eapply evolves_trans|auto|lia].
Qed.

Lemma chat_safe_registry s g : safe (cd_registry s) g → chat_safe s (ChatDb g (cd_chat s)).
Proof.
  intros Hg [Hw Hc]. destruct (Hg Hw) as [Hw' Hev]. split.
  - split; [done|]. cbn [cd_chat cd_registry]. intros t Ht. destruct (Hc t Ht) as [H1 H2 H3 H4 H5]. split; try done.
    intros d p [r Hr]%H4. destruct (ev_devices _ _ Hev _ _ Hr) as (r' & ? & _). eauto.
  - split; [done|done|done].
Qed.

Lemma chat_safe_tables s t t' : cd_chat s = Some t →
  (chat_wf (cd_registry s) t → chat_wf (cd_registry s) t') →
  (∀ d p, dget d (ct_bindings t) = Some p → dget d (ct_bindings t') = Some p) → ct_sequence t <= ct_sequence t' →
  chat_safe s (set_chat t' s).
Proof.
  intros Ht Hw Hb Hq [Hf Hc]. split.
  - split; [done|]. intros x [= <-]. by apply Hw, Hc.
  - split; [apply evolves_refl| |].
    + intros d p (x & Hx & Hp). rewrite Ht in Hx. simplify_eq. exists t'. auto.
    + unfold sequence_of. rewrite Ht. done.
Qed.

Lemma chat_safe_challenges s t l : cd_chat s = Some t → chat_safe s (set_chat (set_chat_challenges l t) s).
Proof. intros Ht. eapply chat_safe_tables; [done| |done|done]. intros []. by split. Qed.

(** ** The operations *)

Lemma chat_active_Ok device public wg s u s' : chat_active device (Some (public, wg)) s = (Ok u, s') →
  s' = s ∧ ∃ d i, enrolled device (cd_registry s) = Some (d, i) ∧ dv_revoked d = false ∧ iv_revoked i = false
    ∧ public = PStr (dv_public d) ∧ wg = PStr (dv_wg d).
Proof.
  unfold chat_active. intros H. inv_c. split; [done|].
  repeat match goal with H : of_option _ _ = Ok _ |- _ => apply of_option_Ok in H end. sbools.
  unfold enrolled. match goal with H : dget _ _ = Some ?d, H' : invite_of _ _ = Some ?i |- _ => exists d, i; rewrite H; cbn; rewrite H' end.
  split_and!; try done; destruct public, wg; unfold same_keys in *; simpl in *; sbools; congruence.
Qed.

(** A computation whose outcomes are safe when its successes are, because it
    changes nothing otherwise. *)
Definition chat_within {A} (m : M chat_db A) : Prop := ∀ s r s', m s = (r, s') → chat_safe s s'.

Lemma chat_within_transaction {A} (m : M chat_db A) : (∀ s a s', m s = (Ok a, s') → chat_safe s s') → chat_within (transaction m).
Proof.
  intros Hm s [a|e] s' H.
  - apply transaction_done in H. by eapply Hm.
  - apply transaction_raise in H as ->. reflexivity.
Qed.

Lemma chat_within_lift {A B} (r : result A) (f : A → M chat_db B) : (∀ a, r = Ok a → chat_within (f a)) → chat_within (lift r ≫= f).
Proof.
  intros Hf s r' s'. unfold mbind, M_bind, lift. destruct r as [a|e]; [by apply Hf|by intros [= <- <-]].
Qed.

Section Runs.
Context {RN : Rns} {RNL : RnsLaws} {RNO : RnsOctets} (float_repr : spec_float → pystr) (secret : bytes).

Lemma chat_challenge_within public wg chat_public now token : chat_within (chat_challenge_for public wg chat_public now token).
Proof.
  unfold chat_challenge_for. apply chat_within_lift. intros device _. apply chat_within_lift. intros m _.
  apply chat_within_transaction. intros s a s' H. inv_c.
  match goal with H : chat_active _ _ _ = _ |- _ => apply chat_active_Ok in H as [-> _] end.
  etransitivity; eapply chat_safe_challenges; [eassumption|done].
Qed.

(** What a registration shows before its transaction. *)
Record chat_proved (device : pystr) (cl : claims) (chat : pystr) : Prop := ChatProved {
  cp_device : proved float_repr device cl ENROLLMENT;
  cp_chat : ∃ raw signature payload, all_bytes raw ∧ zlen raw = 64 ∧ chat = tohex raw
    ∧ admission_message (PStr chat) (PStr device) (PStr (cl_challenge cl)) = Ok payload ∧ validate raw signature payload = true;
}.

Lemma chat_proof_Ok proof chat_public chat_signature device cl chat :
  chat_proof float_repr proof chat_public chat_signature = Ok (device, cl, chat) → chat_public = PStr chat ∧ proof_challenge proof = Ok (PStr (cl_challenge cl)) ∧ chat_proved device cl chat.
Proof.
  unfold chat_proof. intros H. repeat inv_ok1. destruct a0 as [device' cl']. repeat inv_ok1. simplify_eq.
  match goal with H : verify_proof _ _ _ _ = Ok _ |- _ => apply verify_proof_Ok in H as [-> Hp] end.
  match goal with H : admission_message _ _ _ = Ok _ |- _ =>
    pose proof H as Hm; apply admission_message_Ok in H as (raw & r & n & (? & _ & _ & ? & _ & _ & -> & _) & _) end.
  unfold str_or_empty in *. cbn [as_str default from_option id] in *.
  match goal with H : fromhex (tohex raw) = Some _ |- _ => rewrite fromhex_tohex in H by done; simplify_eq end.
  split; [done|]. split; [done|]. split; [done|]. eexists _, _, _. split_and!; done.
Qed.

(** What a registration does. *)
Record chat_registered (device : pystr) (cl : claims) (chat nonce : pystr) (now : Z) (s s' : chat_db) : Prop := ChatRegistered {
  cr_proved : chat_proved device cl chat;
  cr_nonce : sha_text (cl_challenge cl) = Ok nonce;
  cr_force : ∃ d i, enrolled device (cd_registry s) = Some (d, i) ∧ dv_revoked d = false ∧ iv_revoked i = false
    ∧ dv_public d = cl_public cl ∧ dv_wg d = cl_wg cl;
  cr_tables : ∃ t t' c, cd_chat s = Some t ∧ s' = set_chat t' s ∧ ct_sequence t' = ct_sequence t
    ∧ dget nonce (ct_challenges t) = Some c ∧ cc_used c = false ∧ now < cc_expires c ∧ cc_device c = device ∧ cc_public c = chat
    ∧ dget nonce (ct_challenges t') = Some (ChatChallenge device chat (cc_expires c) true)
    ∧ (t' = set_chat_challenges (ct_challenges t') t ∧ dget device (ct_bindings t) = Some chat
       ∨ ct_bindings t' = dset device chat (ct_bindings t) ∧ device ∉ dkeys (ct_bindings t)
         ∧ ∀ d, dget d (ct_bindings t) ≠ Some chat);
}.

Lemma chat_answers_Ok c device public now c' : chat_answers c device public now = Ok c' →
  c = Some c' ∧ cc_used c' = false ∧ now < cc_expires c' ∧ cc_device c' = device ∧ cc_public c' = public.
Proof. unfold chat_answers. intros H. repeat inv_ok1. sbools. subst. by split_and!. Qed.

Lemma insert_binding_Ok device public s u s' : insert_binding device public s = (Ok u, s') →
  ∃ t, cd_chat s = Some t ∧ s' = set_chat (set_bindings (dset device public (ct_bindings t)) t) s
    ∧ device ∉ dkeys (ct_bindings t) ∧ ∀ d, dget d (ct_bindings t) ≠ Some public.
Proof.
  unfold insert_binding. intros H. apply M_bind_Ok in H as (t & s1 & [Ht ->]%the_chat_Ok & H).
  apply M_bind_Ok in H as (u1 & s1 & [Hex ->]%check_Ok & H). apply change_chat_Ok in H as (t1 & Ht1 & ->).
  simplify_eq. exists t. apply negb_true_iff in Hex.
  assert (∀ d p, (d, p) ∈ ct_bindings t → d ≠ device ∧ p ≠ public) as Hn.
  { intros d p Hin. apply list_elem_of_In in Hin. rewrite <- not_true_iff_false, existsb_exists in Hex.
    split; intros ->; apply Hex; eexists; (split; [exact Hin|]); cbn [fst snd]; rewrite (proj2 (str_eqb_eq _ _) eq_refl);
      [done|by rewrite orb_true_r]. }
  split_and!; try done.
  - intros Hin. apply list_elem_of_fmap in Hin as ([d p] & -> & Hin). by destruct (Hn _ _ Hin).
  - intros d Hd%dget_elem. by destruct (Hn _ _ Hd).
Qed.

Lemma chat_register_Ok proof chat_public chat_signature now s device chat s' :
  chat_register float_repr proof chat_public chat_signature now s = (Ok (device, chat), s') →
  ∃ cl nonce, chat_public = PStr chat ∧ proof_challenge proof = Ok (PStr (cl_challenge cl)) ∧ chat_registered device cl chat nonce now s s'.
Proof.
  unfold chat_register. intros H. apply M_bind_Ok in H as ([[device' cl] chat'] & s1 & Hp & H). apply lift_Ok in Hp as [Hp ->].
  destruct (chat_proof_Ok _ _ _ _ _ _ Hp) as (-> & Hc & Hpr).
  apply M_bind_Ok in H as (nonce & s1 & [Hn ->]%lift_Ok & H). apply transaction_done in H.
  apply M_bind_Ok in H as (u & s1 & (-> & d & i & He & Hr1 & Hr2 & [= Hp1] & [= Hp2])%chat_active_Ok & H).
  apply M_bind_Ok in H as (t0 & s1 & [Ht ->]%the_chat_Ok & H).
  apply M_bind_Ok in H as (c & s1 & [(Hl & Hu & Hx & Hd & Hpub)%chat_answers_Ok ->]%lift_Ok & H).
  apply M_bind_Ok in H as (u1 & s1 & [Hob%negb_true_iff ->]%check_Ok & H).
  apply M_bind_Ok in H as (u2 & s1 & Hif & H).
  apply M_bind_Ok in H as (u3 & s2 & (t1 & Ht1 & ->)%change_chat_Ok & H). injection H as -> -> <-.
  exists cl, nonce. split; [done|]. split; [done|]. split; [done|done|by exists d, i|].
  destruct (dmem device (ct_bindings t0)) eqn:Em.
  - injection Hif as <- <-. rewrite Ht in Ht1. injection Ht1 as <-. eexists t0, _, c. split; [done|]. split; [reflexivity|].
    cbn [set_chat_challenges ct_challenges ct_bindings ct_sequence]. subst. split_and!; try done; [apply dget_dset_eq|].
    left. split; [done|]. apply dmem_true in Em. unfold other_binding in Hob.
    destruct (dget (cc_device c) (ct_bindings t0)) as [p|] eqn:Eb; [|by apply dget_None in Eb].
    by apply negb_false_iff, str_eqb_eq in Hob as ->.
  - apply insert_binding_Ok in Hif as (t2 & Ht2 & -> & Hni & Hfree). rewrite Ht in Ht2. injection Ht2 as <-.
    cbn [cd_chat set_chat] in Ht1. injection Ht1 as <-. eexists t0, _, c. split; [done|]. split; [reflexivity|].
    cbn [set_chat_challenges set_bindings ct_challenges ct_bindings ct_sequence]. subst. split_and!; try done; [apply dget_dset_eq|].
    by right.
Qed.

Lemma chat_registered_safe device cl chat nonce now s s' : chat_registered device cl chat nonce now s s' → chat_safe s s'.
Proof.
  intros [[_ (raw & sg & m & Hb & Hl & -> & _)] _ (d & i & He & _) (t & t' & c & Ht & -> & Hq & _ & _ & _ & _ & _ & _ & Hcase)].
  destruct Hcase as [[-> Hbd]|(Hbd & Hni & Hfree)]; [by eapply chat_safe_challenges|].
  eapply chat_safe_tables; [done| |..|lia].
  - intros [H1 H2 H3 H4 H5]. split; rewrite ?Hbd, ?Hq; try done.
    + by apply dset_NoDup.
    + intros d1 d2 p. rewrite !dget_dset. repeat case_decide; intros; simplify_eq; eauto; by edestruct Hfree.
    + intros d1 p. rewrite dget_dset. case_decide; [|apply H3]. intros [= <-]. by exists raw.
    + intros d1 p. rewrite dget_dset. case_decide; [|apply H4]. subst. intros _. unfold enrolled in He.
      destruct (dget d1 (rg_devices (cd_registry s))); [eauto|done].
  - intros d1 p Hd. rewrite Hbd, dget_dset_ne; [done|]. intros ->. apply Hni. by eapply dget_Some_key.
Qed.

Lemma chat_register_within proof chat_public chat_signature now : chat_within (chat_register float_repr proof chat_public chat_signature now).
Proof.
  intros s [[device chat]|e] s' H.
  - apply chat_register_Ok in H as (cl & nonce & _ & _ & H). by eapply chat_registered_safe.
  - revert H. unfold chat_register, mbind at 1, M_bind at 1, lift at 1. destruct (chat_proof _ _ _ _) as [[[? ?] ?]|]; [|by intros [= _ <-]].
    unfold mbind at 1, M_bind at 1, lift at 1. destruct (sha_text _); [|by intros [= _ <-]]. by intros ->%transaction_raise.
Qed.

Lemma chat_snapshot_Ok now s q e keys s' : chat_snapshot now s = (Ok (q, e, keys), s') →
  ∃ t, cd_chat s = Some t ∧ q = ct_sequence t + 1 ∧ e = now + 100 ∧ keys = members (cd_registry s) t ∧ zlen keys <= 550
    ∧ s' = set_chat (ChatTables (ct_bindings t) (ct_challenges t) (ct_sequence t + 1)) s.
Proof.
  unfold chat_snapshot. intros H%transaction_done. apply M_bind_Ok in H as (g & s1 & [-> ->]%the_registry_Ok & H).
  apply M_bind_Ok in H as (t & s1 & [Ht ->]%the_chat_Ok & H). apply M_bind_Ok in H as (u & s1 & [Hk ->]%check_Ok & H).
  apply M_bind_Ok in H as (u2 & s1 & (t1 & Ht1 & ->)%change_chat_Ok & H). simplify_eq.
  apply M_bind_Ok in H as (t2 & s1 & [Ht2 ->]%the_chat_Ok & H). cbn in Ht2. injection Ht2 as <-. injection H as <- <- <- <-.
  exists t. bools. by split_and!.
Qed.

Lemma chat_snapshot_within now : chat_within (chat_snapshot now).
Proof.
  unfold chat_snapshot. apply chat_within_transaction. intros s [[q e] keys] s' H.
  destruct (chat_snapshot_Ok now s q e keys s') as (t & Ht & _ & _ & _ & _ & ->); [by apply transaction_Ok|].
  eapply chat_safe_tables; [done| |done|cbn [ct_sequence]; lia]. intros [H1 H2 H3 H4 H5]. split; try done. cbn [ct_sequence]. lia.
Qed.

(** ** Runs *)

Inductive chat_op :=
  | CoFriends (ops : list friends_op)
  | CoInitialize
  | CoChallenge (public wg chat_public : pyval) (now : Z) (token : bytes)
  | CoRegister (proof chat_public chat_signature : pyval) (now : Z)
  | CoMembers
  | CoSnapshot (now : Z)
  | CoSynchronize (n : chat_node) (now : Z).

Definition chat_draws_ok (op : chat_op) : Prop := match op with CoFriends ops => Forall draws_ok ops | _ => True end.

Definition run_chat_op (s : chat_db) (op : chat_op) : chat_db :=
  match op with
  | CoFriends ops => ChatDb (run_ops float_repr secret ops (cd_registry s)) (cd_chat s)
  | CoInitialize => (chat_initialize s).2
  | CoChallenge public wg chat_public now token => (chat_challenge_for public wg chat_public now token s).2
  | CoRegister proof chat_public chat_signature now => (chat_register float_repr proof chat_public chat_signature now s).2
  | CoMembers => (desired_members s).2
  | CoSnapshot now => (chat_snapshot now s).2
  | CoSynchronize n now => (synchronize n now s).2
  end.
Definition run_chat (ops : list chat_op) (s : chat_db) : chat_db := foldl run_chat_op s ops.

Definition new_db : chat_db := ChatDb new_registry None.

Lemma chat_within_2 {A} (m : M chat_db A) s : chat_within m → chat_safe s (m s).2.
Proof. intros Hm. eapply Hm. apply surjective_pairing. Qed.

Lemma chat_op_safe op s : chat_draws_ok op → chat_safe s (run_chat_op s op).
Proof.
  destruct op; cbn [run_chat_op chat_draws_ok]; intros Hd.
  - apply chat_safe_registry. by apply run_ops_safe.
  - unfold chat_initialize, modify. cbn [snd]. destruct s as [g [t|]]; [done|]. intros [Hf _]. split.
    + split; [done|]. intros t [= <-]. by split; cbn; [constructor|..|lia].
    + split; [apply evolves_refl| |done]. intros d p (t & [=] & _).
  - apply chat_within_2, chat_challenge_within.
  - apply chat_within_2, chat_register_within.
  - apply chat_within_2. unfold desired_members. apply chat_within_transaction. intros s0 a s' H.
    apply M_bind_Ok in H as (g & s1 & [-> ->]%the_registry_Ok & H). apply M_bind_Ok in H as (t & s1 & [Ht ->]%the_chat_Ok & H).
    by injection H as _ <-.
  - apply chat_within_2, chat_snapshot_within.
  - apply chat_within_2. unfold synchronize. intros s0 r s'. unfold mbind at 1, M_bind at 1.
    destruct (chat_snapshot now s0) as [[[[q e] keys]|er] s1] eqn:E; intros [= _ <-]; by eapply chat_snapshot_within.
Qed.

Lemma run_chat_safe ops s : Forall chat_draws_ok ops → chat_safe s (run_chat ops s).
Proof.
  intros Hd. revert s. induction Hd as [|op ops Hop Hops IH]; intros s; [done|]. etransitivity; [by apply chat_op_safe|]. apply IH.
Qed.

Lemma new_db_wf : db_wf new_db.
Proof. split; [apply new_registry_wf|done]. Qed.

Lemma run_chat_wf ops : Forall chat_draws_ok ops → db_wf (run_chat ops new_db).
Proof. intros Hd. by destruct (run_chat_safe ops new_db Hd new_db_wf). Qed.
End Runs.

Section Safety.
Context {RN : Rns} {RNL : RnsLaws} {RNO : RnsOctets} (float_repr : spec_float → pystr) (secret : bytes).

Local Abbreviation run := (run_chat float_repr secret).

(** C27: A registered chat key is proved twice and for good: when a registration
    succeeds, the device signed the challenge with the identity it is enrolled
    under and is not revoked, the chat key signed the admission message that
    names itself, the device and that same challenge, and the challenge was
    issued for this device and this chat key and is now spent; and after any
    further operations of anyone the device still has exactly this chat key and
    no other device has it. *)
Theorem chat_identity_final ops1 ops2 proof chat_public chat_signature now device chat s' :
  Forall chat_draws_ok ops1 → Forall chat_draws_ok ops2 →
  let s := run ops1 new_db in
  chat_register float_repr proof chat_public chat_signature now s = (Ok (device, chat), s') →
  (∃ cl nonce, proof_challenge proof = Ok (PStr (cl_challenge cl)) ∧ chat_registered float_repr device cl chat nonce now s s')
  ∧ let s2 := run ops2 s' in
    bound s2 device chat ∧ (∀ p, bound s2 device p → p = chat) ∧ (∀ d, bound s2 d chat → d = device).
Proof.
  intros D1 D2 s H. assert (db_wf s) as Hw by (by apply run_chat_wf).
  destruct (chat_register_Ok _ _ _ _ _ _ _ _ _ H) as (cl & nonce & _ & Hc & Hr). split; [by exists cl, nonce|].
  destruct (chat_registered_safe _ _ _ _ _ _ _ _ Hr Hw) as [Hw' _].
  destruct (run_chat_safe float_repr secret ops2 s' D2 Hw') as [[_ Hw2] [_ Hb _]]. cbv zeta.
  assert (bound s' device chat) as (t2 & Ht2 & Hd2)%Hb.
  { destruct Hr as [_ _ _ (t & t' & c & _ & -> & _ & _ & _ & _ & _ & _ & _ & [[-> Hd]|(Hd & _)])]; eexists; (split; [reflexivity|]); [done|].
    rewrite Hd. apply dget_dset_eq. }
  split; [by exists t2|]. split.
  - intros p (t & Ht & Hp). congruence.
  - intros d (t & Ht & Hp). rewrite Ht2 in Ht. injection Ht as <-. by apply (cw_unique _ _ (Hw2 _ Ht2) d device chat).
Qed.

Lemma members_elem g t p : p ∈ members g t ↔ ∃ d, (d, p) ∈ ct_bindings t ∧ in_force (enrolled d g) = true.
Proof.
  unfold members. rewrite list_elem_of_In, in_map_iff. split.
  - intros ([d q] & <- & Hin). rewrite <- list_elem_of_In, by_device_perm, list_elem_of_In, filter_In in Hin.
    exists d. rewrite list_elem_of_In. exact Hin.
  - intros (d & Hin & Hf). exists (d, p). split; [done|]. rewrite <- list_elem_of_In, by_device_perm, list_elem_of_In, filter_In.
    by rewrite <- list_elem_of_In.
Qed.

Lemma members_distinct g t : chat_wf g t → NoDup (members g t).
Proof.
  intros [Hk Hu _ _ _]. unfold members. set (l := List.filter _ _).
  assert (NoDup l) as Hl by (apply NoDup_ListNoDup, List.NoDup_filter, NoDup_ListNoDup; by apply NoDup_fmap_1 in Hk).
  assert (∀ d p, (d, p) ∈ l → dget d (ct_bindings t) = Some p) as Hin.
  { intros d p [Hin _]%list_elem_of_In%filter_In. apply dget_NoDup; [done|by apply list_elem_of_In]. }
  change (NoDup ((by_device l).*2)). rewrite by_device_perm. apply NoDup_fmap_2_strong; [|done].
  intros [d1 p1] [d2 p2] H1%Hin H2%Hin E. simpl in E. subst. by rewrite (Hu _ _ _ H1 H2).
Qed.

(** The members a snapshot may name: the chat keys of the devices in force. *)
Lemma members_shape g t p : chat_wf g t → p ∈ members g t → ∃ raw, all_bytes raw ∧ zlen raw = 64 ∧ p = tohex raw.
Proof.
  intros [Hk _ Hs _ _] (d & Hin & _)%members_elem. apply (Hs d). by apply dget_NoDup.
Qed.

Lemma mapM_strs (l : list pystr) : mapM as_str (List.map PStr l) = Some l.
Proof. exact (mapM_as_str l). Qed.

Lemma fromhex_members l : (∀ p, p ∈ l → ∃ raw, all_bytes raw ∧ zlen raw = 64 ∧ p = tohex raw) →
  ∃ raws, l = tohex <$> raws ∧ Forall (λ b, all_bytes b) raws ∧ mapR (λ k, of_option (ValueError "non-hexadecimal number") (fromhex k)) l = Ok raws
    ∧ forallb (λ k, (zlen k =? 128) && match fromhex k with Some raw => str_eqb (tohex raw) k | None => false end) l = true.
Proof.
  induction l as [|p l IH]; intros Hl; [exists []; by split|].
  destruct (Hl p) as (raw & Hb & Hz & ->); [by left|]. destruct IH as (raws & -> & Ha & Hm & Hf); [intros; apply Hl; by right|].
  exists (raw :: raws). split; [done|]. split; [by constructor|]. cbn [mapR forallb]. rewrite fromhex_tohex by done. cbn [of_option mbind result_bind].
  rewrite Hm, Hf, zlen_tohex, Hz, (proj2 (str_eqb_eq _ _) eq_refl). done.
Qed.

(** C24: The mailbox node serves exactly the devices in force: a snapshot of a
    reachable registry is accepted by the node's validation at any time within
    its lease (also by a clock that is up to twenty seconds behind), and the
    node then admits the chat keys of the devices that are enrolled and whose
    neither device nor invitation is revoked, each once, and nobody else; a
    later snapshot always has a higher sequence number. *)
Theorem members_at_node ops now sequence expires keys s' clock :
  Forall chat_draws_ok ops → let s := run ops new_db in
  chat_snapshot now s = (Ok (sequence, expires, keys), s') → sequence < 2 ^ 63 →
  (now - 20) * SECOND <= clock < (now + 100) * SECOND →
  (∃ raws, membership_keys (Ok (membership_value sequence expires keys)) clock = Ok raws ∧ NoDup raws ∧ zlen raws <= 550
     ∧ ∀ raw, all_bytes raw → raw ∈ raws ↔ ∃ device, bound s device (tohex raw) ∧ in_force (enrolled device (cd_registry s)) = true)
  ∧ ∀ ops2 now2 sequence2 expires2 keys2 s2, Forall chat_draws_ok ops2 →
      chat_snapshot now2 (run ops2 s') = (Ok (sequence2, expires2, keys2), s2) → sequence < sequence2.
Proof.
  intros D s H Hq Ht. assert (db_wf s) as Hw by (by apply run_chat_wf). pose proof H as H0.
  apply chat_snapshot_Ok in H as (t & Hs & -> & -> & -> & Hz & Hs'). pose proof (proj2 Hw t Hs) as Hc. split.
  - destruct (fromhex_members (members (cd_registry s) t)) as (raws & Hk & Ha & Hm & Hf); [intros p; by apply members_shape|].
    exists raws. pose proof (members_distinct _ _ Hc) as Hnd. split_and!.
    + unfold membership_keys, validate_membership, membership_value. cbn [mbind result_bind as_dict of_option].
      match goal with |- context [keys_are _ ?d] => set (doc := d) end.
      assert (keys_are ["sequence"; "expires_at"; "public_keys"] doc = true ∧ item "sequence" doc = Ok (PInt (ct_sequence t + 1))
        ∧ item "expires_at" doc = Ok (PInt (now + 100)) ∧ item "public_keys" doc = Ok (PList (List.map PStr (members (cd_registry s) t))))
        as (-> & -> & -> & ->) by (by repeat split).
      cbn [require mbind result_bind as_int as_list of_option]. pose proof (cw_sequence _ _ Hc).
      rewrite (proj2 (Z.leb_le 1 _)), (proj2 (Z.ltb_lt _ _) Hq) by lia. cbn [andb require mbind result_bind].
      rewrite (proj2 (Z.ltb_lt clock _)), (proj2 (Z.leb_le _ (clock + _))) by lia. cbn [andb require mbind result_bind].
      unfold zlen in *. rewrite length_map, (proj2 (Z.ltb_ge _ _)) by done. cbn [raise_if negb require mbind result_bind].
      rewrite mapM_strs. cbn [of_option mbind result_bind]. rewrite Hf. cbn [require mbind result_bind].
      rewrite bool_decide_true by done. cbn [raise_if negb require mbind result_bind mb_public_keys]. by rewrite Hm.
    + rewrite Hk in Hnd. by apply NoDup_fmap_1 in Hnd.
    + rewrite Hk in Hz. unfold zlen in *. by rewrite length_fmap in Hz.
    + intros raw Hraw. transitivity (tohex raw ∈ members (cd_registry s) t).
      * rewrite Hk, list_elem_of_fmap. split; [eauto|]. intros (raw' & E & Hin). rewrite Forall_forall in Ha.
        by rewrite (tohex_inj _ _ Hraw (Ha _ Hin) E).
      * rewrite members_elem. split; intros (d & Hd & Hf'); exists d; (split; [|done]).
        -- exists t. split; [done|]. apply dget_NoDup; [apply Hc|done].
        -- destruct Hd as (t' & Ht' & Hd). rewrite Hs in Ht'. injection Ht' as <-. by apply dget_elem.
  - intros ops2 now2 q2 e2 k2 s2 D2 H2. apply chat_snapshot_Ok in H2 as (t2 & Hs2 & -> & _).
    destruct (chat_snapshot_within now s _ _ H0 Hw) as [Hw' _].
    destruct (run_chat_safe float_repr secret ops2 s' D2 Hw') as [_ [_ _ Hq2]]. unfold sequence_of in Hq2. rewrite Hs2 in Hq2.
    subst s'. cbn [cd_chat set_chat ct_sequence] in Hq2. lia.
Qed.
End Safety.
