(* ===== verification/ChatAccessExamples.v ===== *)
(** The sample device registers its chat key, and the node is leased a snapshot
    that names it. *)
From Stdlib Require Import ZArith Lia.
From S2P Require Import Prelude PyData Json JsonText Notices Rns RnsModel Ack DeviceProof AckSize.
From S2P Require Import Registry Referrals PaidBeta TransportPolicy PaidEvents RegistrySpec FriendsInv.
From S2P Require Import FriendsOps PaidOps FriendsRuns GatewayExamples Admission Relay.
From S2P Require Import ChatAccess ChatAccessSpec.

Local Open Scope Z_scope.

Local Abbreviation run := (run_chat (RN := toy_rns) no_text sample_secret).

Definition chat_key : bytes := @public_of toy_rns toy_device.
Definition chat_text : pystr := tohex chat_key.
Definition chat_payload : bytes :=
  value_of [] (admission_message (PStr chat_text) (PStr sample_device) (PStr (b64encode (sample_token 5)))).
Definition chat_signature : pystr := tohex (@sign toy_rns toy_device chat_payload).

Definition chat_enrol : list chat_op :=
  [CoFriends sample_enrol; CoInitialize;
   CoChallenge (PStr sample_public) (PStr sample_wg) (PStr chat_text) 1100 (sample_token 5)].
Definition chat_before : chat_db := run chat_enrol new_db.
Definition chat_after : chat_db :=
  (chat_register (RN := toy_rns) no_text (sample_proof 5) (PStr chat_text) (PStr chat_signature) 1110 chat_before).2.

Lemma chat_enrol_draws : Forall chat_draws_ok chat_enrol.
Proof. repeat constructor. Qed.

Lemma chat_registers :
  chat_register (RN := toy_rns) no_text (sample_proof 5) (PStr chat_text) (PStr chat_signature) 1110 chat_before
  = (Ok (sample_device, chat_text), chat_after).
Proof. rewrite (surjective_pairing (chat_register _ _ _ _ _ _)) at 1. apply (f_equal2 pair); [vm_compute; reflexivity|reflexivity]. Qed.

Lemma chat_identity_final_witness :
  let s2 := run [CoMembers; CoSnapshot 1200] chat_after in
  bound s2 sample_device chat_text ∧ (∀ p, bound s2 sample_device p → p = chat_text).
Proof.
  destruct (chat_identity_final (RN := toy_rns) no_text sample_secret chat_enrol [CoMembers; CoSnapshot 1200] (sample_proof 5) (PStr chat_text)
    (PStr chat_signature) 1110 sample_device chat_text chat_after chat_enrol_draws) as (_ & H1 & H2 & _);
    [repeat constructor|exact chat_registers|split; [exact H1|exact H2]].
Defined.

Definition chat_ops : list chat_op :=
  chat_enrol ++ [CoRegister (sample_proof 5) (PStr chat_text) (PStr chat_signature) 1110].
Definition snapshot_after : chat_db := (chat_snapshot 1120 (run chat_ops new_db)).2.

Lemma chat_leases : chat_snapshot 1120 (run chat_ops new_db) = (Ok (1, 1220, [chat_text]), snapshot_after).
Proof. rewrite (surjective_pairing (chat_snapshot _ _)) at 1. apply (f_equal2 pair); [vm_compute; reflexivity|reflexivity]. Qed.

Lemma members_at_node_witness :
  membership_keys (Ok (membership_value 1 1220 [chat_text])) (1130 * SECOND) = Ok [chat_key] ∧
  ∃ raws, membership_keys (Ok (membership_value 1 1220 [chat_text])) (1130 * SECOND) = Ok raws ∧ NoDup raws.
Proof.
  split; [vm_compute; reflexivity|].
  destruct (members_at_node (RN := toy_rns) no_text sample_secret chat_ops 1120 1 1220 [chat_text] snapshot_after (1130 * SECOND))
    as [(raws & Hk & Hn & _) _]; [repeat constructor|exact chat_leases|reflexivity|split; [discriminate|reflexivity]|].
  exists raws. split; [exact Hk|exact Hn].
Defined.
