(* ===== verification/Subscription.v ===== *)
(** The display-only projection of confirmed subscription records
    (messenger/subscription_view.py): strict decoding of a status response, the
    reducer [accept] and the view computed from its result. *)
From Stdlib Require Import ZArith Lia.
From stdpp Require Import pretty.
From S2P Require Import Prelude PyData Json.

Local Open Scope Z_scope.

Definition InvalidSubscription : exn := ValueError "Invalid confirmed subscription".

(** [require(condition)] of this module. *)
Definition requires (b : bool) : result () := require b InvalidSubscription.

Definition MAX_INSTANT : Z := 253402300799.

(** [instant(value)] *)
Definition instant (v : pyval) : result Z :=
  z ← of_option InvalidSubscription (as_int v);
  requires (in_range 0 MAX_INSTANT z);;
  Ok z.

(** [recipient(device)] *)
Definition recipient (device : pystr) : result pystr :=
  requires (hex_match 32 device);;
  Ok device.

(** [d.get(name)], [None] when absent. *)
Definition getv (name : string) (d : list (pyval * pyval)) : pyval :=
  default PNone (lookup_str name d).

Inductive sub_state : Type := Trial | Active | Grace | Expired | Revoked.

#[export] Instance sub_state_eq_dec : EqDecision sub_state.
Proof. solve_decision. Defined.

Definition state_name (s : sub_state) : pystr :=
  match s with
  | Trial => py "trial" | Active => py "active" | Grace => py "grace"
  | Expired => py "expired" | Revoked => py "revoked"
  end.

Definition state_of (s : pystr) : option sub_state :=
  if str_eqb s (py "trial") then Some Trial
  else if str_eqb s (py "active") then Some Active
  else if str_eqb s (py "grace") then Some Grace
  else if str_eqb s (py "expired") then Some Expired
  else if str_eqb s (py "revoked") then Some Revoked
  else None.

Definition as_state (v : pyval) : option sub_state := as_str v ≫= state_of.

(** The snapshot dictionary. *)
Record snap := Snap {
  ss_device : pystr;
  ss_version : Z;
  ss_last_event_id : pystr;
  ss_state : sub_state;
  ss_period_start : Z;
  ss_paid_until : Z;
  ss_updated_at : Z;
  ss_grace_until : option Z;
  ss_effective : sub_state;
  ss_entitlement : option Z;
}.

#[export] Instance snap_eq_dec : EqDecision snap.
Proof. solve_decision. Defined.

(** [re.fullmatch('[A-Za-z0-9_-]{8,128}', s)] *)
Definition event_id_ok (s : pystr) : bool :=
  in_range 8 128 (zlen s) && forallb is_word s.

(** The end of the paid or grace period the state is bounded by. *)
Definition boundary_of (state : sub_state) (paid_until : Z) (grace_until : option Z) : option Z :=
  if decide (state = Grace) then grace_until else Some paid_until.

(** [snapshot(status, device)] *)
Definition snapshot (status : pyval) (device : pystr) : result snap :=
  recipient device;;
  st ← of_option InvalidSubscription (as_dict status);
  requires (match getv "schema" st with PInt z => z =? 1 | _ => false end);;
  requires (key_is_str device (getv "device" st)
            && match getv "cohort" st with PBool b => b | _ => false end);;
  row ← of_option InvalidSubscription (as_dict (getv "subscription" st));
  requires (key_is_str device (getv "device" row));;
  version ← of_option InvalidSubscription (as_int (getv "version" row));
  requires (in_range 1 2147483647 version);;
  event_id ← of_option InvalidSubscription (as_str (getv "last_event_id" row));
  requires (event_id_ok event_id);;
  state ← of_option InvalidSubscription (as_state (getv "state" row));
  effective ← of_option InvalidSubscription (as_state (getv "effective_state" st));
  paid_allow ← of_option InvalidSubscription (as_bool (getv "paid_allow" st));
  period_start ← instant (getv "period_start" row);
  paid_until ← instant (getv "paid_until" row);
  updated_at ← instant (getv "updated_at" row);
  requires (period_start <? paid_until);;
  grace_until ←
    match getv "grace_until" row with
    | PNone => Ok None
    | v => g ← instant v; requires (paid_until <=? g);; Ok (Some g)
    end;
  entitlement ←
    (if paid_allow : bool then
       requires (bool_decide (effective ∈ [Trial; Active; Grace]));;
       requires (bool_decide (effective = state));;
       e ← instant (getv "entitlement_until" st);
       requires (bool_decide (Some e = boundary_of state paid_until grace_until));;
       Ok (Some e)
     else
       requires (bool_decide (effective ∈ [Expired; Revoked])
                 && match getv "entitlement_until" st with PNone => true | _ => false end);;
       Ok None);
  Ok (Snap device version event_id state period_start paid_until updated_at grace_until
        effective entitlement).

(** ** Events *)

(** The event dictionary [decode_response] completes from the snapshot. *)
Record sub_event := SubEvent {
  e_event_id : pystr;
  e_event_type : pystr;
  e_occurred_at : pyval;
  e_previous_state : option pystr;
  e_new_state : pystr;
  e_result : pystr;
  e_device : pystr;
  e_period_start : Z;
  e_paid_until : Z;
  e_grace_until : option Z;
  e_applied_at : Z;
}.

(** What is kept of an event. *)
Record event_view := EventView {
  ev_event_id : pystr;
  ev_event_type : pystr;
  ev_occurred_at : Z;
  ev_previous_state : option pystr;
}.

#[export] Instance event_view_eq_dec : EqDecision event_view.
Proof. solve_decision. Defined.

(** The state each event type leads to. *)
Definition event_state (kind : pystr) : option pystr :=
  if str_eqb kind (py "payment") then Some (py "active")
  else if str_eqb kind (py "grace") then Some (py "grace")
  else if str_eqb kind (py "expire") then Some (py "expired")
  else if str_eqb kind (py "revoke") then Some (py "revoked")
  else None.

Definition event_projection (event : sub_event) (current : snap) : result event_view :=
  requires (str_eqb (e_result event) (py "APPLIED"));;
  requires (str_eqb (e_event_id event) (ss_last_event_id current));;
  requires (str_eqb (e_device event) (ss_device current));;
  requires (str_eqb (e_new_state event) (state_name (ss_state current)));;
  requires (e_period_start event =? ss_period_start current);;
  requires (e_paid_until event =? ss_paid_until current);;
  requires (bool_decide (e_grace_until event = ss_grace_until current));;
  requires (e_applied_at event =? ss_updated_at current);;
  occurred ← instant (e_occurred_at event);
  requires (occurred =? ss_updated_at current);;
  expected ← of_option InvalidSubscription (event_state (e_event_type event));
  requires (str_eqb (e_new_state event) expected);;
  requires (match e_previous_state event with
            | None => true
            | Some s => if state_of s then true else false
            end);;
  Ok (EventView (e_event_id event) (e_event_type event) occurred (e_previous_state event)).

(** ** The response decoder *)

Definition fields_exact (names : list string) (v : pyval) : result (list (pyval * pyval)) :=
  d ← of_option InvalidSubscription (as_dict v);
  requires (keys_are names d);;
  Ok d.

Definition response_fields : list string :=
  ["schema"; "device"; "observed_at"; "cohort"; "subscription"; "event"].
Definition row_fields : list string :=
  ["state"; "effective_state"; "paid_allow"; "period_start"; "paid_until"; "grace_until";
   "entitlement_until"; "version"; "last_event_id"; "updated_at"].
Definition event_fields : list string :=
  ["event_id"; "event_type"; "occurred_at"; "previous_state"; "new_state"; "result"].

(** The status dictionary the decoder assembles for a member of the cohort. *)
Definition cohort_status (device : pystr) (row : list (pyval * pyval)) : pyval :=
  PDict [(PStr (py "schema"), PInt 1); (PStr (py "device"), PStr device);
         (PStr (py "cohort"), PBool true);
         (PStr (py "effective_state"), getv "effective_state" row);
         (PStr (py "paid_allow"), getv "paid_allow" row);
         (PStr (py "entitlement_until"), getv "entitlement_until" row);
         (PStr (py "subscription"),
          PDict [(PStr (py "state"), getv "state" row);
                 (PStr (py "period_start"), getv "period_start" row);
                 (PStr (py "paid_until"), getv "paid_until" row);
                 (PStr (py "grace_until"), getv "grace_until" row);
                 (PStr (py "version"), getv "version" row);
                 (PStr (py "last_event_id"), getv "last_event_id" row);
                 (PStr (py "updated_at"), getv "updated_at" row);
                 (PStr (py "device"), PStr device)])].

Definition outside_status (device : pystr) : pyval :=
  PDict [(PStr (py "schema"), PInt 1); (PStr (py "device"), PStr device);
         (PStr (py "cohort"), PBool false)].

Definition decode_event (device : pystr) (current : snap) (v : pyval) : result sub_event :=
  d ← fields_exact event_fields v;
  event_id ← of_option InvalidSubscription (as_str (getv "event_id" d));
  event_type ← of_option InvalidSubscription (as_str (getv "event_type" d));
  new_state ← of_option InvalidSubscription (as_str (getv "new_state" d));
  res ← of_option InvalidSubscription (as_str (getv "result" d));
  previous ← match getv "previous_state" d with
             | PNone => Ok None
             | v => Some <$> of_option InvalidSubscription (as_str v)
             end;
  applied ← instant (getv "occurred_at" d);
  let event := SubEvent event_id event_type (getv "occurred_at" d) previous new_state res device
                 (ss_period_start current) (ss_paid_until current) (ss_grace_until current)
                 applied in
  event_projection event current;;
  Ok event.

(** The decoder after parsing, on the JSON document. *)
Definition decode_wire (wire : pyval) (device : pystr) :
    result (pyval * Z * option sub_event) :=
  w ← fields_exact response_fields wire;
  requires (match getv "schema" w with PInt z => z =? 1 | _ => false end);;
  recipient device;;
  requires (key_is_str device (getv "device" w));;
  cohort ← of_option InvalidSubscription (as_bool (getv "cohort" w));
  observed ← instant (getv "observed_at" w);
  if negb cohort then
    requires (match getv "subscription" w, getv "event" w with PNone, PNone => true | _, _ => false end);;
    Ok (outside_status device, observed, None)
  else
    row ← fields_exact row_fields (getv "subscription" w);
    let status := cohort_status device row in
    current ← snapshot status device;
    requires ((ss_period_start current <=? ss_updated_at current)
              && (ss_updated_at current <=? observed));;
    boundary ← of_option InvalidSubscription
      (boundary_of (ss_state current) (ss_paid_until current) (ss_grace_until current));
    let expected :=
      if bool_decide (ss_state current ∈ [Active; Trial; Grace]) && (boundary <=? observed)
      then Expired else ss_state current in
    requires (bool_decide (ss_effective current = expected));;
    match getv "event" w with
    | PNone => Ok (status, observed, None)
    | v => event ← decode_event device current v; Ok (status, observed, Some event)
    end.

(** [decode_response(raw, device)] on the UTF-8 octets of the response. *)
Definition decode_response (encoded : bytes) (device : pystr) :
    result (pyval * Z * option sub_event) :=
  requires (zlen encoded <=? 16384);;
  text ← of_option (ValueError "UnicodeDecodeError") (utf8_decode encoded);
  wire ← of_option InvalidSubscription (json_loads unique text);
  decode_wire wire device.

(** ** The reducer *)

Record sub_notice := SubNotice {
  sn_id : pystr;
  sn_event : pystr;
  sn_created : Z;
  sn_read : bool;
  sn_notified : bool;
}.

#[export] Instance sub_notice_eq_dec : EqDecision sub_notice.
Proof. solve_decision. Defined.

(** The stored record: a device outside the cohort has no snapshot. *)
Record sub_record := SubRecord {
  sr_device : pystr;
  sr_snapshot : option snap;
  sr_confirmed_at : Z;
  sr_event : option event_view;
  sr_notice : option sub_notice;
}.

#[export] Instance sub_record_eq_dec : EqDecision sub_record.
Proof. solve_decision. Defined.

(** [{k: v for k, v in s.items() if k not in mutable}] *)
Definition immutable_part (s : snap) : snap :=
  Snap (ss_device s) (ss_version s) (ss_last_event_id s) (ss_state s) (ss_period_start s)
    (ss_paid_until s) (ss_updated_at s) (ss_grace_until s) Trial None.

(** [notice] of a new event, [kind] telling first payments from renewals. *)
Definition notice_kind (old : option snap) (same : bool) (current : snap) (incoming : event_view) :
    pystr :=
  if str_eqb (ev_event_type incoming) (py "payment") then
    match old with
    | Some o =>
        if negb same && (Z.max (ss_paid_until o) (default 0 (ss_grace_until o)) <? ss_paid_until current)
        then py "renewed"
        else if ev_previous_state incoming then py "confirmed" else py "activated"
    | None => if ev_previous_state incoming then py "confirmed" else py "activated"
    end
  else ev_event_type incoming.

Definition new_notice (old : option snap) (same : bool) (current : snap) (incoming : event_view) :
    sub_notice :=
  SubNotice (py "subscription:" ++ py (pretty (ss_version current)) ++ py ":" ++ ss_last_event_id current)
    (notice_kind old same current incoming) (ev_occurred_at incoming) false false.

(** Outcome of comparing with what is already stored. *)
Inductive comparison_outcome : Type := KeepPrevious | TakeCurrent.

(** The guards on an earlier snapshot of the same record. *)
Definition compare_old (previous : sub_record) (old current : snap) (device : pystr)
    (confirmed_at : Z) : result comparison_outcome :=
  requires (str_eqb (ss_device old) device);;
  if ss_version current <? ss_version old then Ok KeepPrevious
  else if ss_version current =? ss_version old then
    requires (bool_decide (immutable_part current = immutable_part old));;
    if confirmed_at <? sr_confirmed_at previous then Ok KeepPrevious
    else
      (if confirmed_at =? sr_confirmed_at previous
       then requires (bool_decide (current = old)) else Ok ());;
      (if bool_decide (ss_effective old ∈ [Expired; Revoked])
       then requires (bool_decide (ss_effective current = ss_effective old)) else Ok ());;
      Ok TakeCurrent
  else
    requires ((sr_confirmed_at previous <=? confirmed_at)
              && negb (str_eqb (ss_last_event_id current) (ss_last_event_id old)));;
    Ok TakeCurrent.

(** The record built from an accepted snapshot. *)
Definition reduce (previous : option sub_record) (old : option snap) (current : snap)
    (incoming : option event_view) (device : pystr) (confirmed_at : Z) : result sub_record :=
  let same := match old with Some o => ss_version o =? ss_version current | None => false end in
  let saved_event := if same then previous ≫= sr_event else None in
  (match saved_event, incoming with
   | Some s, Some i => requires (bool_decide (s = i))
   | _, _ => Ok ()
   end);;
  let notice :=
    match incoming, saved_event with
    | Some i, None => Some (new_notice old same current i)
    | _, _ => if same then previous ≫= sr_notice else None
    end in
  Ok (SubRecord device (Some current) confirmed_at
        (match incoming with Some i => Some i | None => saved_event end) notice).

(** [status.get('cohort') is False] *)
Definition cohort_false (status : pyval) : bool :=
  match status with
  | PDict d => match getv "cohort" d with PBool false => true | _ => false end
  | _ => false
  end.

(** [status == dict(schema=1, device=recipient(device), cohort=False)] *)
Definition is_outside_status (status : pyval) (device : pystr) : bool :=
  match status with
  | PDict d =>
      (length d =? 3)%nat && key_is_Z 1 (getv "schema" d) && key_is_str device (getv "device" d)
      && key_is_Z 0 (getv "cohort" d)
  | _ => false
  end.

(** A record [accept] builds, as opposed to [previous] itself. *)
Definition built (r : sub_record) : sub_record * bool := (r, true).
Definition kept (r : sub_record) : sub_record * bool := (r, false).

(** [accept(previous, status, device=, confirmed_at=, event=)], with whether the
    result is another object than [previous]. *)
Definition accept (previous : option sub_record) (status : pyval) (device : pystr)
    (confirmed_at : Z) (event : option sub_event) : result (sub_record * bool) :=
  instant (PInt confirmed_at);;
  requires (if as_dict status then true else false);;
  if cohort_false status then
    recipient device;;
    requires (is_outside_status status device && match event with None => true | _ => false end);;
    match previous with
    | Some p =>
        requires (str_eqb (sr_device p) device && match sr_snapshot p with None => true | _ => false end);;
        if confirmed_at <? sr_confirmed_at p then Ok (kept p)
        else Ok (built (SubRecord device None confirmed_at None None))
    | None => Ok (built (SubRecord device None confirmed_at None None))
    end
  else
    current ← snapshot status device;
    requires (ss_updated_at current <=? confirmed_at);;
    incoming ← match event with
               | Some e => Some <$> event_projection e current
               | None => Ok None
               end;
    match previous with
    | None => built <$> reduce None None current incoming device confirmed_at
    | Some p =>
        match sr_snapshot p with
        | None =>
            requires (str_eqb (sr_device p) device);;
            if confirmed_at <? sr_confirmed_at p then Ok (kept p)
            else built <$> reduce (Some p) None current incoming device confirmed_at
        | Some old =>
            outcome ← compare_old p old current device confirmed_at;
            match outcome with
            | KeepPrevious => Ok (kept p)
            | TakeCurrent => built <$> reduce (Some p) (Some old) current incoming device confirmed_at
            end
        end
    end.

(** ** The view *)

Record sub_view := SubView {
  vw_cohort : option bool;
  vw_snapshot : option snap;
  vw_confirmed_at : option Z;
  (** the notice and whether its notification is suppressed *)
  vw_notice : option (sub_notice * bool);
}.

Definition SECONDS_PER_DAY : Z := 86400.

(** [notification_suppressed]; [now] is the clock in nanoseconds. *)
Definition suppressed (n : sub_notice) (boundary : option Z) (now : Z) : bool :=
  let second := 1000000000 in
  (SECONDS_PER_DAY * second <? now - sn_created n * second)
  || (existsb (str_eqb (sn_event n)) [py "activated"; py "renewed"; py "confirmed"; py "grace"]
      && match boundary with None => true | Some b => b * second <=? now end).

Definition view (record : option sub_record) (device : pystr) (now : Z) : result sub_view :=
  recipient device;;
  match record with
  | None => Ok (SubView None None None None)
  | Some r =>
      if negb (str_eqb (sr_device r) device) then Ok (SubView None None None None)
      else match sr_snapshot r with
           | None => Ok (SubView (Some false) None (Some (sr_confirmed_at r)) None)
           | Some s =>
               Ok (SubView (Some true) (Some s) (Some (sr_confirmed_at r))
                     ((λ n, (n, suppressed n (ss_entitlement s) now)) <$> sr_notice r))
           end
  end.

(** ** Properties *)

(** What every stored record satisfies: it describes the device it is filed
    under, and a device outside the cohort has no history. *)
Definition record_wf (r : sub_record) : Prop :=
  match sr_snapshot r with
  | Some s => ss_device s = sr_device r ∧ ss_updated_at s <= sr_confirmed_at r
  | None => sr_event r = None ∧ sr_notice r = None
  end.

Definition terminal (s : sub_state) : Prop := s ∈ [Expired; Revoked].

(** The snapshots stored before and after an acceptance. *)
Definition snap_order (old cur : snap) : Prop :=
  ss_version old <= ss_version cur
  ∧ (ss_version old = ss_version cur →
     immutable_part cur = immutable_part old
     ∧ (terminal (ss_effective old) → ss_effective cur = ss_effective old)).

Definition record_order (p r : sub_record) : Prop :=
  sr_device r = sr_device p
  ∧ sr_confirmed_at p <= sr_confirmed_at r
  ∧ ∀ old, sr_snapshot p = Some old → ∃ cur, sr_snapshot r = Some cur ∧ snap_order old cur.

Lemma snap_order_refl s : snap_order s s.
Proof. split; [lia|]. intros _. done. Qed.

Lemma record_order_refl r : record_order r r.
Proof. split; [done|]. split; [lia|]. eauto using snap_order_refl. Qed.

Lemma snapshot_device st d s : snapshot st d = Ok s → ss_device s = d.
Proof.
  unfold snapshot, requires. intros Hs.
  repeat inv_ok1; by subst.
Qed.

Lemma reduce_spec p old cur inc d t r :
  reduce p old cur inc d t = Ok r →
  sr_device r = d ∧ sr_snapshot r = Some cur ∧ sr_confirmed_at r = t.
Proof. unfold reduce. intros Hr. repeat inv_ok1. by subst. Qed.

Lemma compare_old_take p old cur d t :
  compare_old p old cur d t = Ok TakeCurrent →
  ss_device old = d ∧ sr_confirmed_at p <= t ∧ snap_order old cur.
Proof.
  unfold compare_old, requires, snap_order, terminal. intros Hc. inv_ok1.
  apply require_Ok in Ha. apply str_eqb_eq in Ha.
  destruct (ss_version cur <? ss_version old) eqn:E1; [done|].
  destruct (ss_version cur =? ss_version old) eqn:E2.
  - inv_ok1. apply require_Ok in Ha0.
    destruct (t <? sr_confirmed_at p) eqn:E3; [done|].
    repeat inv_ok1. bools. repeat split; try done; try lia.
    intros Ht. rewrite bool_decide_eq_true_2 in Ha2 by done.
    apply require_Ok in Ha2. by bools.
  - repeat inv_ok1. bools. repeat split; try done; try lia.
Qed.

(** The ways [accept] succeeds over a stored record: it keeps it, files a
    device outside the cohort, or reduces a newer snapshot. *)
Lemma accept_cases p st d t ev r b :
  accept (Some p) st d t ev = Ok (r, b) →
  r = p
  ∨ (sr_device p = d ∧ sr_snapshot p = None ∧ sr_confirmed_at p <= t
     ∧ r = SubRecord d None t None None)
  ∨ ∃ cur inc,
      snapshot st d = Ok cur ∧ ss_updated_at cur <= t
      ∧ reduce (Some p) (sr_snapshot p) cur inc d t = Ok r
      ∧ match sr_snapshot p with
        | None => sr_device p = d ∧ sr_confirmed_at p <= t
        | Some old => compare_old p old cur d t = Ok TakeCurrent
        end.
Proof.
  unfold accept, requires. intros Hr. destruct (cohort_false st); steps.
  - destruct (t <? _) eqn:Et; steps; unfold kept, built in *; simplify_eq/=; [by left|].
    destruct (sr_snapshot p); naive_solver.
  - destruct (sr_snapshot p) as [old|] eqn:Es; steps.
    + rename select comparison_outcome into o. destruct o; steps; unfold kept, built in *; simplify_eq/=; [by left|].
      right; right. eauto 10.
    + destruct (t <? _) eqn:Et; steps; unfold kept, built in *; simplify_eq/=; [by left|]. right; right. eauto 10.
Qed.

(** C38: accepting a confirmed status only moves the record forward.  The
    record stays with its device, the confirmation instant and the version
    never decrease, a device known to be in the cohort stays in it, and at an
    unchanged version the immutable part is the same and an expired or revoked
    entitlement is never revived. *)
Theorem accept_never_regresses p st d t ev r b :
  record_wf p → accept (Some p) st d t ev = Ok (r, b) → record_wf r ∧ record_order p r.
Proof.
  intros Hwf [->|[(<- & Hs & Ht & ->)|(cur & inc & Hc & Hu & Hr & Hold)]]%accept_cases.
  - auto using record_order_refl.
  - repeat split; simpl; try done. intros old. congruence.
  - apply reduce_spec in Hr as (Hd & Hs & Ht). apply snapshot_device in Hc.
    unfold record_wf, record_order in *. rewrite Hs, Hd, Ht.
    destruct (sr_snapshot p) as [old|].
    + apply compare_old_take in Hold as (Hod & Hle & Hord).
      destruct Hwf as [Hwd _]. split; [done|]. split; [congruence|]. split; [done|].
      intros ? [= <-]. eauto.
    + destruct Hold as [<- Hle]. repeat split; try done.
Qed.

Lemma compare_old_self p cur d t :
  ss_device cur = d → sr_confirmed_at p = t → compare_old p cur cur d t = Ok TakeCurrent.
Proof.
  intros <- <-. unfold compare_old, requires.
  rewrite Z.ltb_irrefl, !Z.eqb_refl, Z.ltb_irrefl.
  rewrite (proj2 (str_eqb_eq _ _)) by done.
  rewrite !(bool_decide_eq_true_2 (_ = _)) by done. simpl. by case_bool_decide.
Qed.

Lemma reduce_again p old cur inc d t r :
  reduce p old cur inc d t = Ok r → reduce (Some r) (Some cur) cur inc d t = Ok r.
Proof.
  unfold reduce, requires. rewrite Z.eqb_refl. intros Hr.
  set (same := match old with Some o => ss_version o =? ss_version cur | None => false end) in *.
  clearbody same. steps.
  destruct inc as [i|]; simpl.
  - by rewrite bool_decide_eq_true_2.
  - by destruct (if same then _ else _); destruct same.
Qed.

(** Take one step of the computation in [H], and the same step in the goal. *)
Ltac replay H x Hx :=
  apply bind_Ok in H as (x & Hx & H); cbv beta in H; rewrite Hx; cbn [mbind result_bind].

(** Replaying an accepted response changes nothing: accepting the same
    status, instant and event again over the resulting record gives that record,
    with the same notice and the same read flags. *)
Theorem accept_replay prev st d t ev r b :
  accept prev st d t ev = Ok (r, b) → accept (Some r) st d t ev = Ok (r, b).
Proof.
  intros Hacc. pose proof Hacc as Hr. unfold accept, requires in Hacc |- *.
  replay Hacc a Ha.
  replay Hacc u Hu.
  destruct (cohort_false st) eqn:Ec.
  - replay Hacc d' Hd.
    replay Hacc u' Hu'.
    destruct prev as [p|].
    + apply bind_Ok in Hacc as (u2 & Hu2 & Hacc).
      destruct (t <? sr_confirmed_at p) eqn:Et; simplify_eq/=; [by rewrite Hu2; simpl; rewrite Et|].
      rewrite (proj2 (str_eqb_eq _ _)) by done. simpl. by rewrite Z.ltb_irrefl.
    + simplify_eq/=. rewrite (proj2 (str_eqb_eq _ _)) by done. simpl. by rewrite Z.ltb_irrefl.
  - replay Hacc cur Hcur.
    replay Hacc u' Hu'.
    replay Hacc inc Hinc.
    apply snapshot_device in Hcur.
    assert (∀ p old, reduce p old cur inc d t = Ok r →
      match sr_snapshot r with
      | None => require (str_eqb (sr_device r) d) InvalidSubscription;;
          if t <? sr_confirmed_at r then Ok (kept r) else built <$> reduce (Some r) None cur inc d t
      | Some old => o ← compare_old r old cur d t;
          match o with
          | KeepPrevious => Ok (kept r)
          | TakeCurrent => built <$> reduce (Some r) (Some old) cur inc d t
          end
      end = Ok (built r)) as Hred.
    { intros p old Hred. pose proof (reduce_spec _ _ _ _ _ _ _ Hred) as (_ & -> & Ht).
      rewrite compare_old_self by done. simpl. by rewrite (reduce_again _ _ _ _ _ _ _ Hred). }
    destruct prev as [p|]; [|apply fmap_Ok in Hacc as (r' & Hr' & [= -> ->]); by eapply Hred].
    destruct (sr_snapshot p) as [old|] eqn:Es.
    + apply bind_Ok in Hacc as (o & Ho & Hacc). destruct o;
        [|apply fmap_Ok in Hacc as (r' & Hr' & [= -> ->]); by eapply Hred].
      simplify_eq/=. by rewrite Es, Ho.
    + apply bind_Ok in Hacc as (u2 & Hu2 & Hacc).
      destruct (t <? sr_confirmed_at p) eqn:Et;
        [|apply fmap_Ok in Hacc as (r' & Hr' & [= -> ->]); by eapply Hred].
      simplify_eq/=. by rewrite Es, Hu2; simpl; rewrite Et.
Qed.

(** A snapshot that grants an entitlement bounds it by the period of its state,
    and its effective state is that state. *)
Lemma snapshot_entitlement st d s e :
  snapshot st d = Ok s → ss_entitlement s = Some e →
  ss_effective s = ss_state s
  ∧ ss_state s ∈ [Active; Trial; Grace]
  ∧ boundary_of (ss_state s) (ss_paid_until s) (ss_grace_until s) = Some e.
Proof.
  unfold snapshot, requires. intros Hs He. steps. simpl in *.
  rename select bool into allow. destruct allow; steps; [|done].
  simplify_eq/=. repeat split; [|congruence].
  set_solver.
Qed.

(** What the decoder guarantees of a response of a device in the cohort. *)
Lemma decode_wire_cohort wire d st obs ev :
  decode_wire wire d = Ok (st, obs, ev) →
  st = outside_status d ∧ ev = None
  ∨ ∃ row cur, st = cohort_status d row ∧ snapshot st d = Ok cur
      ∧ ss_period_start cur <= ss_updated_at cur <= obs
      ∧ (∃ b, boundary_of (ss_state cur) (ss_paid_until cur) (ss_grace_until cur) = Some b
          ∧ ss_effective cur =
              if bool_decide (ss_state cur ∈ [Active; Trial; Grace]) && (b <=? obs)
              then Expired else ss_state cur)
      ∧ match ev with None => True | Some e => is_ok (event_projection e cur) = true end.
Proof.
  unfold decode_wire, requires. intros Hd. steps.
  rename select bool into cohort. destruct cohort; simpl in Hd; steps.
  - right. rename select (snapshot _ _ = _) into Hs. rename select (list (pyval * pyval)) into row.
    rename select snap into cur.
    assert (st = cohort_status d row ∧ instant (getv "observed_at" a) = Ok obs ∧
      match ev with None => True | Some e => is_ok (event_projection e cur) = true end)
      as (-> & Hobs & Hev).
    { unfold decode_event in Hd. destruct (getv "event" a); steps; simplify_eq/=; try done.
      rename select (event_projection _ _ = _) into Hp. by rewrite Hp. }
    exists row, cur.
    match goal with H : instant _ = Ok ?o |- _ => assert (o = obs) as -> by congruence end.
    eauto 10.
  - left. by simplify_eq/=.
Qed.

(** A response the decoder lets through can be stored, and it never grants
    an entitlement that has already ended: [accept] turns it into a
    well-formed record of the device confirmed at the observed instant, and a
    granted entitlement ends after that instant. *)
Theorem decoded_response_accepted wire d st obs ev :
  decode_wire wire d = Ok (st, obs, ev) →
  ∃ r, accept None st d obs ev = Ok (r, true)
    ∧ record_wf r ∧ sr_device r = d ∧ sr_confirmed_at r = obs
    ∧ ∀ s e, sr_snapshot r = Some s → ss_entitlement s = Some e → obs < e.
Proof.
  intros Hd. assert (instant (PInt obs) = Ok obs ∧ recipient d = Ok d) as [Hobs Hrec].
  { unfold decode_wire, requires in Hd. steps.
    assert (instant (getv "observed_at" a) = Ok obs) as Ho.
    { rename select bool into c. destruct c; simpl in Hd; steps; [|congruence].
      destruct (getv "event" a); steps; congruence. }
    unfold instant, recipient, requires in *. simpl. steps.
    rewrite !(proj2 (require_Ok _ _ tt)) by done. done. }
  apply decode_wire_cohort in Hd as [[-> ->]|(row & cur & -> & Hs & Ht & (b & Hb & He) & Hev)].
  - exists (SubRecord d None obs None None).
    unfold accept. rewrite Hobs. simpl. rewrite Hrec. simpl.
    unfold is_outside_status, requires. simpl.
    rewrite (proj2 (str_eqb_eq d d)) by done. simpl. repeat split; done.
  - pose proof (snapshot_device _ _ _ Hs) as Hdev.
    assert (∃ inc, match ev with Some e => Some <$> event_projection e cur | None => Ok None end
                   = Ok inc) as [inc Hinc].
    { destruct ev as [e|]; [|by eexists]. destruct (event_projection e cur); [by eexists|done]. }
    exists (SubRecord d (Some cur) obs inc (new_notice None false cur <$> inc)).
    unfold accept, requires. rewrite Hobs. simpl. rewrite Hs. simpl.
    rewrite Hinc, (proj2 (Z.leb_le _ _)) by lia. simpl. unfold reduce. simpl.
    repeat split; simpl; try done; try lia; [by destruct inc|].
    intros s e [= <-] Hent. destruct (snapshot_entitlement _ _ _ _ Hs Hent) as (Heq & Hin & Hbe).
    rewrite Hb in Hbe. injection Hbe as ->. rewrite bool_decide_eq_true_2 in He by done. simpl in He.
    destruct (Z.leb_spec e obs); [|lia]. rewrite He in Heq. rewrite <- Heq in Hin. set_solver.
Qed.

(** ** A device that pays, and is then told so again *)

Definition sample_device : pystr := repeat 97 32.

Definition sample_wire (version observed paid : Z) (last previous : pyval) : pyval :=
  PDict [(PStr (py "schema"), PInt 1); (PStr (py "device"), PStr sample_device);
         (PStr (py "observed_at"), PInt observed); (PStr (py "cohort"), PBool true);
         (PStr (py "subscription"),
          PDict [(PStr (py "state"), PStr (py "active"));
                 (PStr (py "effective_state"), PStr (py "active"));
                 (PStr (py "paid_allow"), PBool true);
                 (PStr (py "period_start"), PInt 100); (PStr (py "paid_until"), PInt paid);
                 (PStr (py "grace_until"), PNone); (PStr (py "entitlement_until"), PInt paid);
                 (PStr (py "version"), PInt version); (PStr (py "last_event_id"), last);
                 (PStr (py "updated_at"), PInt 200)]);
         (PStr (py "event"),
          PDict [(PStr (py "event_id"), last); (PStr (py "event_type"), PStr (py "payment"));
                 (PStr (py "occurred_at"), PInt 200); (PStr (py "previous_state"), previous);
                 (PStr (py "new_state"), PStr (py "active"));
                 (PStr (py "result"), PStr (py "APPLIED"))])].

Definition sample_first := sample_wire 1 250 1000 (PStr (py "event-0001")) PNone.
Definition sample_next := sample_wire 2 300 2000 (PStr (py "event-0002")) (PStr (py "active")).

(** The stored record after a list of responses. *)
Definition feed_responses (ws : list pyval) : result (option sub_record) :=
  foldR (λ prev w,
    r ← decode_wire w sample_device;
    (Some ∘ fst) <$> accept prev r.1.1 sample_device r.1.2 r.2) None ws.

Definition sample_record (ws : list pyval) : sub_record :=
  match feed_responses ws with
  | Ok (Some r) => r
  | _ => SubRecord [] None 0 None None
  end.

Definition sample_decoded (w : pyval) : pyval * Z * option sub_event :=
  match decode_wire w sample_device with Ok r => r | Raise _ => (PNone, 0, None) end.

Lemma accept_never_regresses_witness :
  record_order (sample_record [sample_first]) (sample_record [sample_first; sample_next])
  ∧ option_map sn_event (sr_notice (sample_record [sample_first; sample_next])) = Some (py "renewed").
Proof.
  split; [|vm_compute; reflexivity].
  destruct (sample_decoded sample_next) as [[st t] ev] eqn:E.
  assert (accept (Some (sample_record [sample_first])) st sample_device t ev
          = Ok (sample_record [sample_first; sample_next], true)) as H.
  { vm_compute in E. injection E as <- <- <-. vm_compute. reflexivity. }
  assert (record_wf (sample_record [sample_first])) as Hwf
    by (vm_compute; split; [reflexivity|discriminate]).
  apply (accept_never_regresses _ _ _ _ _ _ _ Hwf H).
Defined.

Lemma accept_replay_witness :
  let '(st, t, ev) := sample_decoded sample_next in
  accept (Some (sample_record [sample_first; sample_next])) st sample_device t ev
  = Ok (sample_record [sample_first; sample_next], true).
Proof.
  destruct (sample_decoded sample_next) as [[st t] ev] eqn:E.
  apply (accept_replay (Some (sample_record [sample_first]))).
  vm_compute in E. injection E as <- <- <-. vm_compute. reflexivity.
Defined.

Lemma decoded_response_accepted_witness :
  ∃ r, accept None (sample_decoded sample_first).1.1 sample_device (sample_decoded sample_first).1.2
         (sample_decoded sample_first).2 = Ok (r, true) ∧ record_wf r.
Proof.
  destruct (decoded_response_accepted sample_first sample_device
    (sample_decoded sample_first).1.1 (sample_decoded sample_first).1.2
    (sample_decoded sample_first).2 ltac:(vm_compute; reflexivity)) as (r & Hr & Hwf & _).
  exists r. split; [exact Hr|exact Hwf].
Defined.
