(* ===== verification/Store.v ===== *)
(** The encrypted history and outbox (messenger/store.py): the rows as typed
    tables and every operation of [Store] on them.  The sealing of a row is in
    Records.  Clock readings are exact numbers of nanoseconds and the random
    part of an attempt token is an argument. *)
From Stdlib Require Import ZArith Lia.
From S2P Require Import Prelude PyData Json Notices Rns Codec Subscription.

Local Open Scope Z_scope.

Inductive status : Type :=
  | SQueued | SReceived | SSending | SRelayed | SDelivered | SRecipientStored | SExpired.

#[export] Instance status_eq_dec : EqDecision status.
Proof. solve_decision. Defined.

(** A message before it is stored: what [codec.unpack] returned and, for a
    durable outgoing message, its ['expires_at'] (present exactly when
    ['require_stored'] is set). *)
Record draft := Draft {
  d_parsed : parsed;
  d_expires_at : option Z;
}.

(** The ['message:<id>'] row. *)
Record message := Message {
  m_parsed : parsed;
  m_expires_at : option Z;
  m_packed : pystr;
  m_outgoing : bool;
  m_status : status;
  m_attempt : option pystr;
  m_relay_blob : option pystr;
  m_relay_attempts : Z;
  m_retry_at : Z;
  m_receipt_id : option pystr;
}.

Definition m_id (m : message) : pystr := p_id (m_parsed m).
Definition m_peer (m : message) : pystr := p_peer (m_parsed m).
Definition m_kind (m : message) : extra := p_extra (m_parsed m).
Definition m_require_stored (m : message) : bool :=
  if m_expires_at m then true else false.

(** [dict(message, packed=raw.hex(), outgoing=outgoing, status=..., attempt=None)] *)
Definition new_message (d : draft) (raw : bytes) (outgoing : bool) : message :=
  Message (d_parsed d) (d_expires_at d) (tohex raw) outgoing
    (if outgoing then SQueued else SReceived) None None 0 0 None.

(** [message.update(status=..., attempt=...)] *)
Definition with_status (s : status) (a : option pystr) (m : message) : message :=
  Message (m_parsed m) (m_expires_at m) (m_packed m) (m_outgoing m) s a
    (m_relay_blob m) (m_relay_attempts m) (m_retry_at m) (m_receipt_id m).

Definition with_relay_blob (blob : pystr) (m : message) : message :=
  Message (m_parsed m) (m_expires_at m) (m_packed m) (m_outgoing m) (m_status m) (m_attempt m)
    (Some blob) (m_relay_attempts m) (m_retry_at m) (m_receipt_id m).

Definition with_retry (attempts at_ : Z) (m : message) : message :=
  Message (m_parsed m) (m_expires_at m) (m_packed m) (m_outgoing m) (m_status m) (m_attempt m)
    (m_relay_blob m) attempts at_ (m_receipt_id m).

Definition with_receipt (id : pystr) (m : message) : message :=
  Message (m_parsed m) (m_expires_at m) (m_packed m) (m_outgoing m) (m_status m) (m_attempt m)
    (m_relay_blob m) (m_relay_attempts m) (m_retry_at m) (Some id).

Record flags := Flags { fl_read : bool; fl_notified : bool }.

#[export] Instance flags_eq_dec : EqDecision flags.
Proof. solve_decision. Defined.

Definition unseen : flags := Flags false false.

(** An entry of the ['service-events'] list. *)
Record stored_event := StoredEvent { se_event : feed_event; se_flags : flags }.

(** A ['notice:<peer>:<event_id>'] row; its other keys repeat the signed event. *)
Record notice_row := NoticeRow {
  nr_id : pystr;
  nr_publisher : pystr;
  nr_lxmf_id : pystr;
  nr_event : notice;
  nr_flags : flags;
  nr_suppressed : bool;
}.

Record store := Store {
  st_epoch : pystr;
  st_messages : list (pystr * message);
  st_contacts : list (pystr * pystr);
  st_names : list (pystr * pystr);
  st_publishers : list (pystr * pystr);
  st_inbox : option (list (pystr * flags));
  st_events : list (pystr * stored_event);
  st_notices : list (pystr * notice_row);
  st_subscription : option sub_record;
}.

Definition set_messages (x : list (pystr * message)) (st : store) : store :=
  Store (st_epoch st) x (st_contacts st) (st_names st) (st_publishers st) (st_inbox st)
    (st_events st) (st_notices st) (st_subscription st).
Definition set_contacts (x : list (pystr * pystr)) (st : store) : store :=
  Store (st_epoch st) (st_messages st) x (st_names st) (st_publishers st) (st_inbox st)
    (st_events st) (st_notices st) (st_subscription st).
Definition set_names (x : list (pystr * pystr)) (st : store) : store :=
  Store (st_epoch st) (st_messages st) (st_contacts st) x (st_publishers st) (st_inbox st)
    (st_events st) (st_notices st) (st_subscription st).
Definition set_publishers (x : list (pystr * pystr)) (st : store) : store :=
  Store (st_epoch st) (st_messages st) (st_contacts st) (st_names st) x (st_inbox st)
    (st_events st) (st_notices st) (st_subscription st).
Definition set_inbox (x : list (pystr * flags)) (st : store) : store :=
  Store (st_epoch st) (st_messages st) (st_contacts st) (st_names st) (st_publishers st) (Some x)
    (st_events st) (st_notices st) (st_subscription st).
Definition set_events (x : list (pystr * stored_event)) (st : store) : store :=
  Store (st_epoch st) (st_messages st) (st_contacts st) (st_names st) (st_publishers st) (st_inbox st)
    x (st_notices st) (st_subscription st).
Definition set_notices (x : list (pystr * notice_row)) (st : store) : store :=
  Store (st_epoch st) (st_messages st) (st_contacts st) (st_names st) (st_publishers st) (st_inbox st)
    (st_events st) x (st_subscription st).
Definition set_subscription (x : sub_record) (st : store) : store :=
  Store (st_epoch st) (st_messages st) (st_contacts st) (st_names st) (st_publishers st) (st_inbox st)
    (st_events st) (st_notices st) (Some x).

(** A store nobody has written to, and the same rows under a later owner. *)
Definition new_store (epoch : pystr) : store := Store epoch [] [] [] [] None [] [] None.
Definition reopen (epoch : pystr) (st : store) : store :=
  Store epoch (st_messages st) (st_contacts st) (st_names st) (st_publishers st) (st_inbox st)
    (st_events st) (st_notices st) (st_subscription st).

Definition get_message (id : pystr) : M store (option message) :=
  st ← get_state; mret (dget id (st_messages st)).
Definition put_message (m : message) : M store () :=
  modify (λ st, set_messages (dset (m_id m) m (st_messages st)) st).

(** ** What the reader sees *)

(** [dict(m)] of a visible message, with the keys an edit adds. *)
Record shown := Shown {
  v_message : message;
  v_text : pystr;
  v_revision : Z;
  v_edited : bool;
}.

(** [m.get('kind') not in ('edit', 'stored', 'service')] *)
Definition visible_kind (x : extra) : bool :=
  match x with XText | XAudio _ _ _ => true | _ => false end.

Definition shown_of (m : message) : shown := Shown m (p_text (m_parsed m)) 0 false.

(** Whether an edit of this peer and direction applies to the original. *)
Definition editable (o : shown) (edit : message) : bool :=
  match m_kind (v_message o) with XAudio _ _ _ => false | _ => true end
  && str_eqb (m_peer (v_message o)) (m_peer edit)
  && Bool.eqb (m_outgoing (v_message o)) (m_outgoing edit).

Definition edited (o : shown) (edit : message) (revision : Z) : shown :=
  Shown (if m_outgoing (v_message o)
         then with_status (m_status edit) (m_attempt edit) (v_message o) else v_message o)
    (p_text (m_parsed edit)) revision true.

(** One iteration of the loop over the edits. *)
Definition apply_edit (visible : list (pystr * shown)) (edit : message) : list (pystr * shown) :=
  match m_kind edit with
  | XEdit target revision =>
      match dget target visible with
      | None => visible
      | Some o =>
          if negb (editable o edit) then visible
          else if revision <=? v_revision o then visible
          else dset target (edited o edit revision) visible
      end
  | _ => visible
  end.

Definition messages (st : store) : list message := (st_messages st).*2.

Definition visible_initial (ms : list message) : list (pystr * shown) :=
  (λ m, (m_id m, shown_of m)) <$> filter (λ m, visible_kind (m_kind m)) ms.

Definition visible_table (st : store) : list (pystr * shown) :=
  foldl apply_edit (visible_initial (messages st)) (messages st).

Definition visible_messages (st : store) : list shown := (visible_table st).*2.

(** ** Inserting messages *)

Definition HISTORY_QUOTA : Z := 1000.

(** An incoming edit of a newer revision makes its target unread again. *)
Definition edit_marks_unread (st : store) (p : parsed) : store :=
  match p_extra p with
  | XEdit target revision =>
      match list_find (λ v, m_id (v_message v) = target) (visible_messages st) with
      | Some (_, o) =>
          if negb (m_outgoing (v_message o)) && str_eqb (m_peer (v_message o)) (p_peer p)
             && (v_revision o <? revision)
          then set_inbox (dset target unseen (default [] (st_inbox st))) st
          else st
      | None => st
      end
  | _ => st
  end.

Definition _add (d : draft) (raw : bytes) (outgoing : bool) : M store bool :=
  known ← get_message (p_id (d_parsed d));
  match known with
  | Some _ => mret false
  | None =>
      st ← get_state;
      lift (raise_if (HISTORY_QUOTA <=? zlen (st_messages st))
              (ValueError "Pilot history quota reached"));;
      (if outgoing then mret () else modify (λ st, edit_marks_unread st (d_parsed d)));;
      put_message (new_message d raw outgoing);;
      mret true
  end.

Definition add (d : draft) (raw : bytes) (outgoing : bool) : M store bool :=
  lift (require ((96 <? zlen raw) && (zlen raw <=? MAX_PACKED)) (ValueError "Invalid packed message"));;
  transaction (_add d raw outgoing).

(** ** Contacts *)

Definition pin_service_publisher (address public : pystr) : M store () :=
  transaction (
    st ← get_state;
    lift (raise_if (negb (dmem address (st_publishers st)) && (4 <=? zlen (st_publishers st)))
            (ValueError "Publisher quota reached"));;
    modify (set_publishers (dset address public (st_publishers st)))).

Definition save_contact (address public : pystr) : M store () :=
  transaction (
    st ← get_state;
    lift (raise_if (negb (dmem address (st_contacts st)) && (100 <=? zlen (st_contacts st)))
            (ValueError "Pilot contact quota reached"));;
    modify (set_contacts (dset address public (st_contacts st)))).

Definition rename_contact (address name : pystr) : M store () :=
  transaction (
    st ← get_state;
    lift (require (dmem address (st_contacts st)) (ValueError "Unknown contact"));;
    modify (set_names (match name with
                       | [] => ddel address (st_names st)
                       | _ => dset address name (st_names st)
                       end))).

(** ** Received messages *)

(** ['notice:'] key of a service event, without the prefix. *)
Definition notice_key (peer event_id : pystr) : pystr := peer ++ py ":" ++ event_id.

(** The guards on a service event: revisions only grow and never change. *)
Definition check_service (previous : option notice_row) (count : Z) (event : notice) : result () :=
  match previous with
  | Some row =>
      raise_if (n_revision event <? n_revision (nr_event row)) (ValueError "Stale service revision");;
      raise_if ((n_revision event =? n_revision (nr_event row))
                && negb (bool_decide (event = nr_event row)))
        (ValueError "Conflicting service revision")
  | None => raise_if (1000 <=? count) (ValueError "Service history quota reached")
  end.

(** The service part of [commit_received]. *)
Definition commit_service (p : parsed) (event : notice) (now : Z) : M store () :=
  st ← get_state;
  let key := notice_key (p_peer p) (n_event_id event) in
  let previous := dget key (st_notices st) in
  lift (check_service previous (zlen (st_notices st)) event);;
  if match previous with
     | None => true
     | Some row => n_revision (nr_event row) <? n_revision event
     end
  then modify (set_notices (dset key
         (NoticeRow (py "lxmf:" ++ key) (p_peer p) (p_id p) event unseen
            (86400 * SECOND <? now - n_created event * SECOND))
         (st_notices st)))
  else mret ().

(** The receipt part: queue the known receipt again, or create one. *)
Definition commit_receipt (p : parsed) (existing : option message)
    (receipt_factory : result (draft * bytes)) : M store () :=
  match existing ≫= m_receipt_id with
  | Some rid =>
      receipt ← get_message rid;
      receipt ← lift (of_option TypeError receipt);
      if decide (m_status receipt = SSending) then mret ()
      else put_message (with_status SQueued None receipt)
  | None =>
      '(receipt, packed) ← lift receipt_factory;
      _add receipt packed true;;
      saved ← get_message (p_id p);
      saved ← lift (of_option TypeError saved);
      put_message (with_receipt (p_id (d_parsed receipt)) saved)
  end.

(** [commit_received(message, raw, receipt_factory)]; the factory only reads the
    chat's keys, so it is its outcome. *)
Definition commit_received (p : parsed) (raw : bytes)
    (receipt_factory : option (result (draft * bytes))) (now : Z) : M store bool :=
  transaction (
    existing ← get_message (p_id p);
    match p_extra p with
    | XService event => commit_service p event now
    | _ => mret ()
    end;;
    added ← _add (Draft p None) raw false;
    match receipt_factory with
    | Some factory => commit_receipt p existing factory
    | None => mret ()
    end;;
    mret added).

(** [accept_stored_receipt(receipt)] for a parsed receipt of [target]. *)
Definition accept_stored_receipt (peer target : pystr) : M store bool :=
  transaction (
    message ← get_message target;
    message ← lift (of_option (ValueError "Unrelated storage receipt") message);
    lift (require (m_outgoing message && str_eqb (m_peer message) peer
                   && match m_kind message with XStored _ => false | _ => true end)
            (ValueError "Unrelated storage receipt"));;
    put_message (with_status SRecipientStored None message);;
    mret (negb (bool_decide (m_status message = SRecipientStored)))).

(** ** Read and notification flags *)

Inductive mark : Type := MarkRead | MarkNotified.

Definition mark_of (flag : pystr) : option mark :=
  if str_eqb flag (py "read") then Some MarkRead
  else if str_eqb flag (py "notified") then Some MarkNotified
  else None.

(** [value[flag] = True; if flag == 'read': value['notified'] = True] *)
Definition marked (k : mark) (f : flags) : flags :=
  match k with
  | MarkRead => Flags true true
  | MarkNotified => Flags (fl_read f) true
  end.

Definition incoming_shown (st : store) : list shown :=
  filter (λ v, negb (m_outgoing (v_message v))) (visible_messages st).

Definition v_id (v : shown) : pystr := m_id (v_message v).

Definition inbox : M store (list (shown * flags)) :=
  transaction (
    st ← get_state;
    let ms := incoming_shown st in
    state ← match st_inbox st with
            | Some state => mret state
            | None =>
                let state := dict_of ((λ v, (v_id v, Flags true true)) <$> ms) in
                modify (set_inbox state);; mret state
            end;
    mret ((λ v, (v, default unseen (dget (v_id v) state))) <$> ms)).

Definition mark_one (ids : list pystr) (k : mark) (state : list (pystr * flags)) (v : shown) :
    list (pystr * flags) :=
  if bool_decide (v_id v ∈ ids)
  then dset (v_id v) (marked k (default unseen (dget (v_id v) state))) state
  else state.

Definition inbox_mark (ids : list pystr) (flag : pystr) : M store () :=
  k ← lift (of_option (ValueError "Invalid inbox update") (mark_of flag));
  lift (raise_if (1000 <? zlen ids) (ValueError "Invalid inbox update"));;
  transaction (
    ms ← inbox;
    st ← get_state;
    modify (set_inbox (foldl (mark_one ids k) (default [] (st_inbox st)) ms.*1))).

(** ** The operator's feed *)

(** [event.get('revision', 1)] *)
Definition revision_of (e : feed_event) : Z :=
  match f_revision e with Some (r, _, _) => r | None => 1 end.

(** Without ['revision'], ['updated'] and ['editor']. *)
Definition strip_revision (e : feed_event) : feed_event :=
  FeedEvent (f_id e) (f_kind e) (f_title e) (f_body e) (f_author e) (f_created e) (f_expires e)
    (f_platforms e) None.

Definition same_identity (a b : feed_event) : bool :=
  (f_created a =? f_created b) && (f_expires a =? f_expires b)
  && str_eqb (f_author a) (f_author b) && str_eqb (f_kind a) (f_kind b)
  && bool_decide (f_platforms a = f_platforms b).

(** One incoming event against the events already known. *)
Definition merge_event (events : list (pystr * stored_event)) (event : feed_event) :
    result (list (pystr * stored_event)) :=
  match dget (f_id event) events with
  | Some known =>
      let original := se_event known in
      let revision := revision_of event in
      let previous := revision_of original in
      if revision <? previous then Ok events
      else if previous <? revision then
        require (same_identity event original) (ValueError "Changed service identity");;
        Ok (dset (f_id event) (StoredEvent event unseen) events)
      else
        require (bool_decide (strip_revision original = strip_revision event))
          (ValueError "Changed service event");;
        raise_if (match f_revision original, f_revision event with
                  | Some _, Some _ => negb (bool_decide (original = event))
                  | _, _ => false
                  end) (ValueError "Changed service revision");;
        Ok (match f_revision event with
            | Some _ => dset (f_id event) (StoredEvent event (se_flags known)) events
            | None => events
            end)
  | None => Ok (dset (f_id event) (StoredEvent event unseen) events)
  end.

(** An event of the combined list: from the feed, or a signed notice. *)
Inductive announcement : Type :=
  | FromFeed (e : stored_event)
  | FromNotice (n : notice_row).

Definition ann_expires (a : announcement) : Z :=
  match a with
  | FromFeed e => f_expires (se_event e)
  | FromNotice n => n_expires (nr_event n)
  end.

Definition service_events (incoming : option (list feed_event)) (now : Z) :
    M store (list announcement) :=
  transaction (
    st ← get_state;
    events ←
      match incoming with
      | Some incoming =>
          events ← lift (foldR merge_event (st_events st) incoming);
          lift (raise_if (1000 <? zlen events) (ValueError "Service history quota reached"));;
          modify (set_events events);;
          mret events
      | None => mret (st_events st)
      end;
    mret (filter (λ a, now <? ann_expires a * SECOND)
            ((FromFeed <$> events.*2) ++ (FromNotice <$> (st_notices st).*2)))).

Definition mark_event (ids : list pystr) (k : mark) (e : stored_event) : stored_event :=
  if bool_decide (f_id (se_event e) ∈ ids)
  then StoredEvent (se_event e) (marked k (se_flags e)) else e.

Definition mark_notice (ids : list pystr) (k : mark) (n : notice_row) : notice_row :=
  if bool_decide (nr_id n ∈ ids)
  then NoticeRow (nr_id n) (nr_publisher n) (nr_lxmf_id n) (nr_event n)
         (marked k (nr_flags n)) (nr_suppressed n)
  else n.

(** The flag of the subscription notice. *)
Definition mark_subscription (ids : list pystr) (k : mark) (r : sub_record) : sub_record :=
  match sr_notice r with
  | Some n =>
      if bool_decide (sn_id n ∈ ids)
      then let f := marked k (Flags (sn_read n) (sn_notified n)) in
           SubRecord (sr_device r) (sr_snapshot r) (sr_confirmed_at r) (sr_event r)
             (Some (SubNotice (sn_id n) (sn_event n) (sn_created n) (fl_read f) (fl_notified f)))
      else r
  | None => r
  end.

Definition service_mark (ids : list pystr) (flag : pystr) : M store () :=
  k ← lift (of_option (ValueError "Invalid service update") (mark_of flag));
  lift (raise_if (1000 <? zlen ids) (ValueError "Invalid service update"));;
  transaction (
    modify (λ st, set_events (prod_map id (mark_event ids k) <$> st_events st) st);;
    modify (λ st, match st_subscription st with
                  | Some r => set_subscription (mark_subscription ids k r) st
                  | None => st
                  end);;
    modify (λ st, set_notices (prod_map id (mark_notice ids k) <$> st_notices st) st)).

(** ** The subscription projection *)

Definition accept_confirmed_subscription (status : pyval) (device : pystr) (confirmed_at : Z)
    (event : option sub_event) : M store bool :=
  transaction (
    st ← get_state;
    '(current, fresh) ← lift (accept (st_subscription st) status device confirmed_at event);
    modify (set_subscription current);;
    mret fresh).

Definition subscription_status (device : pystr) (now : Z) : M store sub_view :=
  st ← get_state;
  lift (view (st_subscription st) device now).

(** ** Sending *)

(** [epoch + ':' + uuid4().hex] *)
Definition token_of (epoch uuid : pystr) : pystr := epoch ++ py ":" ++ uuid.

(** [token.startswith(self.epoch + ':')] *)
Definition owned (epoch token : pystr) : bool := startswith (epoch ++ py ":") token.

(** The expiry pass of [pending_outbox] on one message. *)
Definition expire_message (now : Z) (m : message) : message :=
  match m_expires_at m with
  | Some at_ =>
      if (at_ <=? now) && negb (bool_decide (m_status m ∈ [SRecipientStored; SDelivered; SExpired]))
      then with_status SExpired None m else m
  | None => m
  end.

Definition is_pending (epoch : pystr) (now : Z) (m : message) : bool :=
  m_outgoing m &&
  (bool_decide (m_status m = SQueued)
   || (bool_decide (m_status m = SRelayed) && m_require_stored m && (m_retry_at m <=? now))
   || (bool_decide (m_status m = SSending) && negb (owned epoch (default [] (m_attempt m))))).

Definition pending_outbox (now : Z) : M store (list pystr) :=
  transaction (
    st ← get_state;
    let table := prod_map id (expire_message now) <$> st_messages st in
    modify (set_messages table);;
    mret (m_id <$> filter (is_pending (st_epoch st) now) table.*2)).

Definition begin_attempt (message_id uuid : pystr) : M store (pystr * bytes) :=
  transaction (
    st ← get_state;
    message ← get_message message_id;
    message ← lift (of_option (ValueError "Message is not pending") message);
    lift (raise_if (negb (m_outgoing message)
                    || bool_decide (m_status message ∈ [SDelivered; SRecipientStored; SExpired]))
            (ValueError "Message is not pending"));;
    (if decide (m_status message = SSending) then
       attempt ← lift (of_option AttributeError (m_attempt message));
       lift (raise_if (owned (st_epoch st) attempt) (ValueError "Message is already in flight"))
     else mret ());;
    let token := token_of (st_epoch st) uuid in
    put_message (with_status SSending (Some token) message);;
    raw ← lift (of_option (ValueError "non-hexadecimal number") (fromhex (m_packed message)));
    mret (token, raw)).

(** [relay_blob(message_id, create)] *)
Definition relay_blob (message_id : pystr) (create : result bytes) : M store bytes :=
  transaction (
    message ← get_message message_id;
    message ← lift (of_option (ValueError "Outgoing message required") message);
    lift (require (m_outgoing message) (ValueError "Outgoing message required"));;
    text ← match m_relay_blob message with
           | Some text => mret text
           | None =>
               blob ← lift create;
               lift (require (in_range 112 131840 (zlen blob)) (ValueError "Invalid relay ciphertext"));;
               put_message (with_relay_blob (tohex blob) message);;
               mret (tohex blob)
           end;
    lift (of_option (ValueError "non-hexadecimal number") (fromhex text))).

(** [min(3600, 60 * 2 ** (attempts - 1))] seconds *)
Definition retry_delay (attempts : Z) : Z := Z.min 3600 (60 * 2 ^ (attempts - 1)).

Definition finish_attempt (message_id token : pystr) (delivered relayed : bool) (now : Z) :
    M store bool :=
  lift (raise_if (delivered && relayed) (ValueError "Relay acceptance is not recipient delivery"));;
  transaction (
    st ← get_state;
    message ← get_message message_id;
    match message with
    | Some message =>
        if bool_decide (m_status message = SSending) && bool_decide (m_attempt message = Some token)
           && owned (st_epoch st) token
        then
          let message := with_status
            (if delivered then SDelivered else if relayed then SRelayed else SQueued) None message in
          let message :=
            if relayed && m_require_stored message then
              let attempts := Z.min (m_relay_attempts message + 1) 7 in
              with_retry attempts (now + retry_delay attempts * SECOND) message
            else message in
          put_message message;;
          mret true
        else mret false
    | None => mret false
    end).
