(* ===== verification/StoreInv.v ===== *)
(** Safety of the store: the well-formedness every operation keeps, and the
    evolution of the history, over all sequences of operations. *)
From Stdlib Require Import ZArith Lia.
From stdpp Require Import relations.
From S2P Require Import Prelude PyData Json Notices Rns Codec Subscription Store.

Local Open Scope Z_scope.

(** ** Well-formed tables *)

(** Hex text of an octet string whose length is in range. *)
Definition hex_of (lo hi : Z) (text : pystr) : Prop :=
  ∃ raw, text = tohex raw ∧ all_bytes raw ∧ lo <= zlen raw <= hi.

Record message_wf (k : pystr) (m : message) : Prop := {
  mw_key : m_id m = k;
  mw_packed : hex_of 97 MAX_PACKED (m_packed m);
  mw_received : m_outgoing m = false ↔ m_status m = SReceived;
  mw_durable : m_outgoing m = false → m_expires_at m = None;
  mw_attempt : is_Some (m_attempt m) ↔ m_status m = SSending;
  mw_blob b : m_relay_blob m = Some b → m_outgoing m = true ∧ hex_of 112 131840 b;
  mw_backoff : 0 <= m_relay_attempts m <= 7;
}.

(** A table with a bound on its size whose rows satisfy [P]. *)
Record table_wf {V} (limit : Z) (P : pystr → V → Prop) (t : list (pystr * V)) : Prop := {
  tw_nodup : NoDup (dkeys t);
  tw_limit : zlen t <= limit;
  tw_rows k v : dget k t = Some v → P k v;
}.

(** Every receipt a message names is an outgoing receipt of the history. *)
Definition receipts_ok (t : list (pystr * message)) : Prop :=
  ∀ k m r, dget k t = Some m → m_receipt_id m = Some r →
  r ≠ k ∧ ∃ m', dget r t = Some m' ∧ m_outgoing m' = true ∧ ∃ target, m_kind m' = XStored target.

Definition notice_row_wf (k : pystr) (n : notice_row) : Prop :=
  k = notice_key (nr_publisher n) (n_event_id (nr_event n)) ∧ nr_id n = py "lxmf:" ++ k.

Record store_wf (st : store) : Prop := {
  sw_messages : table_wf HISTORY_QUOTA message_wf (st_messages st);
  sw_receipts : receipts_ok (st_messages st);
  sw_contacts : table_wf 100 (λ _ _, True) (st_contacts st);
  sw_names k : k ∈ dkeys (st_names st) → k ∈ dkeys (st_contacts st);
  sw_publishers : table_wf 4 (λ _ _, True) (st_publishers st);
  sw_events : table_wf 1000 (λ k e, f_id (se_event e) = k) (st_events st);
  sw_notices : table_wf 1000 notice_row_wf (st_notices st);
}.

(** ** Evolution of the history *)

(** How the status of a message other than a receipt may change over time:
    once delivered or expired it can only become stored by the recipient, and
    that is final. *)
Definition status_flow (s s' : status) : Prop :=
  s = s'
  ∨ (s ∈ [SQueued; SSending; SRelayed] ∧ s' ≠ SReceived)
  ∨ (s ∈ [SDelivered; SExpired] ∧ s' = SRecipientStored).

Record message_evolves (m m' : message) : Prop := {
  me_parsed : m_parsed m' = m_parsed m;
  me_packed : m_packed m' = m_packed m;
  me_outgoing : m_outgoing m' = m_outgoing m;
  me_expires : m_expires_at m' = m_expires_at m;
  me_blob b : m_relay_blob m = Some b → m_relay_blob m' = Some b;
  me_receipt r : m_receipt_id m = Some r → m_receipt_id m' = Some r;
  me_attempts : m_relay_attempts m <= m_relay_attempts m';
  me_status : (∀ target, m_kind m ≠ XStored target) → status_flow (m_status m) (m_status m');
}.

(** The history only grows: rows keep their place and evolve. *)
Definition history_evolves (t t' : list (pystr * message)) : Prop :=
  dkeys t `prefix_of` dkeys t'
  ∧ ∀ k m, dget k t = Some m → ∃ m', dget k t' = Some m' ∧ message_evolves m m'.

#[export] Instance status_flow_preorder : PreOrder status_flow.
Proof.
  split; unfold status_flow; [by left|].
  intros s1 s2 s3 H12 H23.
  destruct H12 as [->|[[H1 H1']|[H1 ->]]]; [done| |].
  - right; left. split; [done|]. destruct H23 as [<-|[[??]|[? ->]]]; done.
  - destruct H23 as [<-|[[H2 _]|[H2 _]]]; [by right; right| |]; set_solver.
Qed.

#[export] Instance message_evolves_preorder : PreOrder message_evolves.
Proof.
  split.
  - intros m. split; try done.
  - intros m1 m2 m3 H1 H2.
    destruct H1 as [p1 q1 o1 e1 b1 r1 a1 s1], H2 as [p2 q2 o2 e2 b2 r2 a2 s2].
    split; [congruence..|by auto|by auto|lia|].
    intros Hk. etransitivity; [by apply s1|]. apply s2. unfold m_kind in *. by rewrite p1.
Qed.

#[export] Instance history_evolves_preorder : PreOrder history_evolves.
Proof.
  split.
  - intros t. split; [done|]. intros k m Hm. by exists m.
  - intros t1 t2 t3 [P1 H1] [P2 H2]. split; [by etransitivity|].
    intros k m Hm. destruct (H1 k m Hm) as (m2 & Hm2 & E1).
    destruct (H2 k m2 Hm2) as (m3 & Hm3 & E2). exists m3. split; [done|]. by etransitivity.
Qed.

(** ** Elementary writes *)

Lemma zlen_dset {V} k (v : V) (t : list (pystr * V)) :
  zlen (dset k v t) = if decide (k ∈ dkeys t) then zlen t else zlen t + 1.
Proof. unfold zlen. rewrite length_dset. case_decide; lia. Qed.

Lemma table_dset {V} limit P k (v : V) t :
  table_wf limit P t → P k v → (k ∈ dkeys t ∨ zlen t < limit) → table_wf limit P (dset k v t).
Proof.
  intros [Hn Hl Hr] Hp Hk. split; [by apply dset_NoDup| |].
  - rewrite zlen_dset. case_decide; [done|]. destruct Hk; [done|lia].
  - intros k' v'. rewrite dget_dset. case_decide; [naive_solver|apply Hr].
Qed.

Lemma dget_fmap {V W} (f : V → W) k (t : list (pystr * V)) :
  dget k (prod_map id f <$> t) = f <$> dget k t.
Proof. induction t as [|[k' v] t IH]; simpl; [done|]. by case_decide. Qed.

Lemma dkeys_fmap {V W} (f : V → W) (t : list (pystr * V)) :
  dkeys (prod_map id f <$> t) = dkeys t.
Proof. unfold dkeys. induction t as [|[k v] t IH]; csimpl; congruence. Qed.

Lemma table_fmap {V} limit (P : pystr → V → Prop) f (t : list (pystr * V)) :
  table_wf limit P t → (∀ k v, P k v → P k (f v)) → table_wf limit P (prod_map id f <$> t).
Proof.
  intros [Hn Hl Hr] Hf. split.
  - by rewrite dkeys_fmap.
  - unfold zlen in *. by rewrite length_fmap.
  - intros k v. rewrite dget_fmap. intros (v0 & Hv & ->)%fmap_Some. auto.
Qed.

(** Messages evolve row by row. *)
Lemma history_fmap f (t : list (pystr * message)) :
  (∀ k m, dget k t = Some m → message_evolves m (f m)) →
  history_evolves t (prod_map id f <$> t).
Proof.
  intros Hf. split; [by rewrite dkeys_fmap|].
  intros k m Hm. exists (f m). rewrite dget_fmap, Hm. eauto.
Qed.

Lemma history_dset_new m t : m_id m ∉ dkeys t → history_evolves t (dset (m_id m) m t).
Proof.
  intros Hn. split; [rewrite dkeys_dset_new by done; by eexists|].
  intros k m' Hm'. exists m'. rewrite dget_dset. case_decide as Hk; [|done].
  subst. by apply dget_Some_key in Hm'.
Qed.

Lemma history_dset_old m m0 t :
  dget (m_id m) t = Some m0 → message_evolves m0 m → history_evolves t (dset (m_id m) m t).
Proof.
  intros H0 He. split; [rewrite dkeys_dset_old by (by eapply dget_Some_key); done|].
  intros k m' Hm'. rewrite dget_dset. case_decide as Hk; [|by eexists].
  subst. simplify_eq. eauto.
Qed.

(** Evolution keeps every receipt reference. *)
Lemma receipts_evolve t t' :
  receipts_ok t → history_evolves t t' →
  (∀ k m r, dget k t' = Some m → m_receipt_id m = Some r →
     (∃ m0, dget k t = Some m0 ∧ m_receipt_id m0 = Some r)
     ∨ (r ≠ k ∧ ∃ m', dget r t' = Some m' ∧ m_outgoing m' = true
          ∧ ∃ target, m_kind m' = XStored target)) →
  receipts_ok t'.
Proof.
  intros Hr [_ He] Hnew k m r Hm Hid.
  destruct (Hnew k m r Hm Hid) as [(m0 & H0 & Hid0)|?]; [|done].
  destruct (Hr k m0 r H0 Hid0) as (Hne & m1 & H1 & Ho & target & Hk). split; [done|].
  destruct (He r m1 H1) as (m2 & H2 & E). exists m2. split; [done|].
  unfold m_kind in *. rewrite (me_outgoing _ _ E), (me_parsed _ _ E). eauto.
Qed.

(** ** Operations *)

(** The calls of the application, [OReopen] being a new owner process. *)
Inductive op : Type :=
  | OAdd (d : draft) (raw : bytes) (outgoing : bool)
  | OCommitReceived (p : parsed) (raw : bytes) (factory : option (result (draft * bytes))) (now : Z)
  | OAcceptReceipt (peer target : pystr)
  | OSaveContact (address public : pystr)
  | ORename (address name : pystr)
  | OPinPublisher (address public : pystr)
  | OInbox
  | OInboxMark (ids : list pystr) (flag : pystr)
  | OServiceEvents (incoming : option (list feed_event)) (now : Z)
  | OServiceMark (ids : list pystr) (flag : pystr)
  | OSubscription (status : pyval) (device : pystr) (at_ : Z) (event : option sub_event)
  | OPending (now : Z)
  | OBegin (message_id uuid : pystr)
  | ORelayBlob (message_id : pystr) (create : result bytes)
  | OFinish (message_id token : pystr) (delivered relayed : bool) (now : Z)
  | OReopen (epoch : pystr).

(** The state a call leaves, whether it returns or raises. *)
Definition run (o : op) (st : store) : store :=
  match o with
  | OAdd d raw outgoing => (add d raw outgoing st).2
  | OCommitReceived p raw factory now => (commit_received p raw factory now st).2
  | OAcceptReceipt peer target => (accept_stored_receipt peer target st).2
  | OSaveContact address public => (save_contact address public st).2
  | ORename address name => (rename_contact address name st).2
  | OPinPublisher address public => (pin_service_publisher address public st).2
  | OInbox => (inbox st).2
  | OInboxMark ids flag => (inbox_mark ids flag st).2
  | OServiceEvents incoming now => (service_events incoming now st).2
  | OServiceMark ids flag => (service_mark ids flag st).2
  | OSubscription status device at_ event =>
      (accept_confirmed_subscription status device at_ event st).2
  | OPending now => (pending_outbox now st).2
  | OBegin message_id uuid => (begin_attempt message_id uuid st).2
  | ORelayBlob message_id create => (relay_blob message_id create st).2
  | OFinish message_id token delivered relayed now =>
      (finish_attempt message_id token delivered relayed now st).2
  | OReopen epoch => reopen epoch st
  end.

(** What the callers supply: octet strings, packed messages the codec accepted,
    expiry only on outgoing messages, and receipts of their own whose id (the
    hash of their signed bytes) is not the id of another message. *)
Definition receipt_of_ours (st : store) (p : parsed) (d : draft) (packed : bytes) : Prop :=
  all_bytes packed ∧ 96 < zlen packed <= MAX_PACKED
  ∧ (∃ target, p_extra (d_parsed d) = XStored target)
  ∧ p_id (d_parsed d) ≠ p_id p
  ∧ ∀ m, dget (p_id (d_parsed d)) (st_messages st) = Some m →
      m_outgoing m = true ∧ ∃ target, m_kind m = XStored target.

Definition op_ok (st : store) (o : op) : Prop :=
  match o with
  | OAdd d raw outgoing =>
      all_bytes raw ∧ (outgoing = false → d_expires_at d = None)
  | OCommitReceived p raw factory now =>
      all_bytes raw ∧ 96 < zlen raw <= MAX_PACKED
      ∧ ∀ d packed, factory = Some (Ok (d, packed)) → receipt_of_ours st p d packed
  | ORelayBlob _ (Ok blob) => all_bytes blob
  | _ => True
  end.

Definition store_step (st st' : store) : Prop := ∃ o, op_ok st o ∧ st' = run o st.

(** What one operation may do. *)
Definition safe (st st' : store) : Prop :=
  store_wf st → store_wf st' ∧ history_evolves (st_messages st) (st_messages st').

#[export] Instance safe_preorder : PreOrder safe.
Proof.
  split; [by intros st Hwf|].
  intros st1 st2 st3 H12 H23 Hwf. destruct (H12 Hwf) as [Hwf2 E12].
  destruct (H23 Hwf2) as [Hwf3 E23]. split; [done|]. by etransitivity.
Qed.

(** A failed transaction changes nothing, so only successes matter. *)
Lemma safe_transaction {A} (m : M store A) st :
  (∀ a st', m st = (Ok a, st') → safe st st') → safe st (transaction m st).2.
Proof.
  intros Hm. unfold transaction. destruct (m st) as [[a|e] st'] eqn:E; simpl; [by eapply Hm|done].
Qed.

(** [put_message] of a row of the history, and of a new one. *)
Definition put (m : message) (st : store) : store :=
  set_messages (dset (m_id m) m (st_messages st)) st.

Lemma safe_put m m0 st :
  dget (m_id m) (st_messages st) = Some m0 →
  (message_wf (m_id m) m0 → message_wf (m_id m) m) → message_evolves m0 m →
  (m_receipt_id m = m_receipt_id m0) →
  safe st (put m st).
Proof.
  intros H0 Hw He Hrid [Hm Hr Hc Hn Hp Hev Hno].
  assert (history_evolves (st_messages st) (st_messages (put m st))) as Hh
    by (by eapply history_dset_old).
  split; [|done]. split; try done; simpl.
  - apply table_dset; [done| |left; by eapply dget_Some_key]. apply Hw, (tw_rows _ _ _ Hm), H0.
  - eapply receipts_evolve; [done..|]. intros k m' r. simpl. rewrite dget_dset.
    case_decide; intros; simplify_eq; left; eauto. exists m0. by rewrite <- Hrid.
Qed.

Lemma safe_put_new m st :
  m_id m ∉ dkeys (st_messages st) → zlen (st_messages st) < HISTORY_QUOTA →
  message_wf (m_id m) m → m_receipt_id m = None → safe st (put m st).
Proof.
  intros Hnew Hq Hw Hrid [Hm Hr Hc Hn Hp Hev Hno].
  assert (history_evolves (st_messages st) (st_messages (put m st))) as Hh
    by (by apply history_dset_new).
  split; [|done]. split; try done; simpl.
  - apply table_dset; auto.
  - eapply receipts_evolve; [done..|]. intros k m' r. simpl. rewrite dget_dset.
    case_decide; intros; simplify_eq; try congruence. left. by eexists.
Qed.

(** Writes to the other tables leave the history alone. *)
Lemma safe_other st st' :
  st_messages st' = st_messages st → (store_wf st → store_wf st') → safe st st'.
Proof. intros Hm Hw Hwf. rewrite Hm. split; [auto|done]. Qed.

(** ** Each operation is safe *)

(** Run a stateful computation of the goal or of a hypothesis one level. *)
Ltac mrun :=
  cbv [mbind M_bind mret M_ret get_state modify lift raise get_message put_message] in *.

Lemma receipt_id_of_new d raw outgoing : m_receipt_id (new_message d raw outgoing) = None.
Proof. done. Qed.

Lemma new_message_wf d raw outgoing :
  all_bytes raw → 96 < zlen raw <= MAX_PACKED → (outgoing = false → d_expires_at d = None) →
  message_wf (p_id (d_parsed d)) (new_message d raw outgoing).
Proof.
  intros Hb Hl He. split; simpl; try done; try lia.
  - exists raw. split; [done|]. split; [done|]. lia.
  - by destruct outgoing.
  - destruct outgoing; split; intros [? ?] || intros; done.
Qed.

Lemma set_inbox_safe x st : safe st (set_inbox x st).
Proof. apply safe_other; [done|]. intros []. by split. Qed.

Lemma edit_marks_unread_safe st p : safe st (edit_marks_unread st p).
Proof.
  unfold edit_marks_unread.
  destruct (p_extra p); try done. destruct (list_find _ _) as [[? o]|]; [|done].
  destruct (_ && _); [apply set_inbox_safe|done].
Qed.

Lemma edit_marks_unread_messages st p : st_messages (edit_marks_unread st p) = st_messages st.
Proof. unfold edit_marks_unread. by repeat case_match. Qed.

(** What [_add] does when it returns. *)
Lemma add_row_Ok d raw outgoing st b st' :
  _add d raw outgoing st = (Ok b, st') →
  (b = false ∧ st' = st ∧ is_Some (dget (p_id (d_parsed d)) (st_messages st)))
  ∨ (b = true ∧ dget (p_id (d_parsed d)) (st_messages st) = None
     ∧ zlen (st_messages st) < HISTORY_QUOTA
     ∧ st' = put (new_message d raw outgoing)
               (if outgoing then st else edit_marks_unread st (d_parsed d))).
Proof.
  unfold _add. mrun. destruct (dget _ _) eqn:Eg; [naive_solver|].
  destruct (raise_if _ _) as [u|e] eqn:Eq; [|done]. apply raise_if_Ok in Eq. bools.
  destruct outgoing; intros; simplify_eq; right; done.
Qed.

Lemma add_row_safe d raw outgoing st b st' :
  all_bytes raw → 96 < zlen raw <= MAX_PACKED → (outgoing = false → d_expires_at d = None) →
  _add d raw outgoing st = (Ok b, st') → safe st st'.
Proof.
  intros Hb Hl He [(_ & -> & _)|(_ & Hn & Hq & ->)]%add_row_Ok; [done|].
  set (st1 := if outgoing then st else _).
  assert (st_messages st1 = st_messages st) as Hm
    by (unfold st1; destruct outgoing; [done|apply edit_marks_unread_messages]).
  assert (safe st st1) as Hs
    by (unfold st1; destruct outgoing; [done|apply edit_marks_unread_safe]).
  etransitivity; [exact Hs|]. apply safe_put_new; rewrite ?Hm; [|done| |done].
  - by apply dget_None.
  - by apply new_message_wf.
Qed.

Lemma add_safe d raw outgoing st :
  op_ok st (OAdd d raw outgoing) → safe st (run (OAdd d raw outgoing) st).
Proof.
  intros [Hb He]. simpl. unfold add. mrun. destruct (require _ _) as [u|e] eqn:Eq; [|done].
  apply require_Ok in Eq. bools. apply safe_transaction. intros b st'. by apply add_row_safe.
Qed.

Lemma save_contact_safe a p st : safe st (save_contact a p st).2.
Proof.
  apply safe_transaction. intros u st'. mrun.
  destruct (raise_if _ _) as [v|e] eqn:Eq; [|done]. apply raise_if_Ok in Eq.
  intros [= <- <-]. apply safe_other; [done|]. intros []. split; try done; simpl.
  - apply table_dset; [done..|]. destruct (dmem a _) eqn:Em.
    + left. by apply dmem_true.
    + simpl in Eq. bools. right. lia.
  - intros k Hk. destruct (decide (a ∈ dkeys (st_contacts st))) as [Hin|Hin].
    + rewrite dkeys_dset_old by done. auto.
    + rewrite dkeys_dset_new by done. apply elem_of_app. auto.
Qed.

Lemma pin_publisher_safe a p st : safe st (pin_service_publisher a p st).2.
Proof.
  apply safe_transaction. intros u st'. mrun.
  destruct (raise_if _ _) as [v|e] eqn:Eq; [|done]. apply raise_if_Ok in Eq.
  intros [= <- <-]. apply safe_other; [done|]. intros []. split; try done; simpl.
  apply table_dset; [done..|]. destruct (dmem a _) eqn:Em.
  - left. by apply dmem_true.
  - simpl in Eq. bools. right. lia.
Qed.

Lemma rename_safe a n st : safe st (rename_contact a n st).2.
Proof.
  apply safe_transaction. intros u st'. mrun.
  destruct (require _ _) as [v|e] eqn:Eq; [|done]. apply require_Ok, dmem_true in Eq.
  intros [= <- <-]. apply safe_other; [done|]. intros []. split; try done; simpl.
  intros k. destruct n as [|c n].
  - unfold ddel, dkeys. intros ([k' v'] & -> & Hin)%list_elem_of_fmap.
    apply list_elem_of_filter in Hin as [_ Hin]. apply sw_names0. simpl.
    apply list_elem_of_fmap. by exists (k', v').
  - destruct (decide (a ∈ dkeys (st_names st))).
    + rewrite dkeys_dset_old by done. auto.
    + rewrite dkeys_dset_new by done. intros [Hin|Hin]%elem_of_app; [by auto|].
      apply list_elem_of_singleton in Hin as ->. auto.
Qed.

Lemma inbox_safe st : safe st (inbox st).2.
Proof.
  apply safe_transaction. intros l st'. mrun.
  destruct (st_inbox st); intros; simplify_eq; [done|apply set_inbox_safe].
Qed.

Lemma inbox_mark_safe ids flag st : safe st (inbox_mark ids flag st).2.
Proof.
  unfold inbox_mark. cbv [mbind M_bind lift].
  destruct (of_option _ _) as [k|e]; [|done].
  destruct (raise_if _ _); [|done]. apply safe_transaction. intros u st'.
  cbv [get_state modify]. pose proof (inbox_safe st) as Hs.
  destruct (inbox st) as [[ms|e] st1]; intros; simplify_eq.
  etransitivity; [exact Hs|apply set_inbox_safe].
Qed.

Lemma merge_event_rows events event events' :
  NoDup (dkeys events) ∧ (∀ k e, dget k events = Some e → f_id (se_event e) = k) →
  merge_event events event = Ok events' →
  NoDup (dkeys events') ∧ (∀ k e, dget k events' = Some e → f_id (se_event e) = k).
Proof.
  intros [Hn Hr].
  assert (∀ e, f_id (se_event e) = f_id event → NoDup (dkeys (dset (f_id event) e events))
    ∧ ∀ k e', dget k (dset (f_id event) e events) = Some e' → f_id (se_event e') = k) as Hset.
  { intros e He. split; [by apply dset_NoDup|]. intros k e'. rewrite dget_dset.
    case_decide; [naive_solver|apply Hr]. }
  unfold merge_event. destruct (dget _ _) as [known|] eqn:Ek; [|intros [= <-]; by apply Hset].
  destruct (_ <? _); [by intros [= <-]|]. destruct (_ <? _); intros Hm; steps.
  - by apply Hset.
  - destruct (f_revision event); [by apply Hset|done].
Qed.

Lemma service_events_safe incoming now st : safe st (service_events incoming now st).2.
Proof.
  apply safe_transaction. intros l st'. mrun. destruct incoming as [incoming|]; [|naive_solver].
  destruct (foldR _ _ _) as [events|] eqn:Ef; [|done].
  destruct (raise_if _ _) eqn:Eq; [|done]. apply raise_if_Ok in Eq. bools.
  intros [= <- <-]. apply safe_other; [done|]. intros []. split; try done; simpl.
  destruct sw_events0 as [Hn _ Hr].
  destruct (foldR_inv (λ t, NoDup (dkeys t) ∧ ∀ k e, dget k t = Some e → f_id (se_event e) = k)
              _ _ _ _ (λ t e t' _ Ht, merge_event_rows t e t' Ht) (conj Hn Hr) Ef).
  by split.
Qed.

Lemma service_mark_safe ids flag st : safe st (service_mark ids flag st).2.
Proof.
  unfold service_mark. mrun. destruct (of_option _ _) as [k|e]; [|done].
  destruct (raise_if _ _); [|done]. apply safe_transaction. intros u st' [= <- <-].
  apply safe_other; [simpl; by case_match|]. intros Hwf.
  assert (∀ s s', st_messages s' = st_messages s ∧ st_contacts s' = st_contacts s
    ∧ st_names s' = st_names s ∧ st_publishers s' = st_publishers s → store_wf s →
    table_wf 1000 (λ k e, f_id (se_event e) = k) (st_events s') →
    table_wf 1000 notice_row_wf (st_notices s') → store_wf s') as Hframe.
  { intros s s' (E1 & E2 & E3 & E4) [] ??. by split; rewrite ?E1, ?E2, ?E3, ?E4. }
  apply (Hframe st); [simpl; by case_match|done|..]; destruct Hwf; simpl.
  - case_match; simpl; (apply table_fmap; [done|]);
      intros k' e <-; unfold mark_event; by case_match.
  - case_match; simpl; (apply table_fmap; [done|]);
      intros k' e [??]; unfold mark_notice, notice_row_wf; by case_match.
Qed.

Lemma subscription_safe status device at_ ev st :
  safe st (accept_confirmed_subscription status device at_ ev st).2.
Proof.
  apply safe_transaction. intros b st'. mrun.
  destruct (accept _ _ _ _ _) as [[r f]|]; [|done]. intros [= <- <-].
  apply safe_other; [done|]. intros []. by split.
Qed.

(** A change of status that the message allows. *)
Lemma with_status_wf k m s a :
  message_wf k m → s ≠ SReceived → m_outgoing m = true → (is_Some a ↔ s = SSending) →
  message_wf k (with_status s a m).
Proof.
  intros [] Hs Ho Ha. split; try done; simpl. split; [by rewrite Ho|by intros].
Qed.

Lemma with_status_evolves m s a :
  ((∀ target, m_kind m ≠ XStored target) → status_flow (m_status m) s) →
  message_evolves m (with_status s a m).
Proof. intros Hs. by split. Qed.

(** The usual case: a row whose status changes. *)
Lemma safe_put_status k m s a st :
  dget k (st_messages st) = Some m →
  s ≠ SReceived → m_outgoing m = true → (is_Some a ↔ s = SSending) →
  ((∀ target, m_kind m ≠ XStored target) → status_flow (m_status m) s) →
  safe st (put (with_status s a m) st).
Proof.
  intros Hg Hs Ho Ha Hf Hwf. pose proof (tw_rows _ _ _ (sw_messages _ Hwf) _ _ Hg) as Hm.
  apply (safe_put _ m); [| | |done|done].
  - change (m_id (with_status s a m)) with (m_id m). rewrite (mw_key _ _ Hm). exact Hg.
  - intros ?. by apply with_status_wf.
  - by apply with_status_evolves.
Qed.

(** Statuses an outgoing message can have. *)
Lemma outgoing_status k m :
  message_wf k m → m_outgoing m = true → m_status m ≠ SReceived.
Proof. intros Hm Ho Hr%(mw_received _ _ Hm). congruence. Qed.

Lemma flow_stored s : s ≠ SReceived → status_flow s SRecipientStored.
Proof. unfold status_flow. destruct s; set_solver. Qed.

Lemma flow_live s s' :
  s ∉ [SDelivered; SRecipientStored; SExpired] → s ≠ SReceived → s' ≠ SReceived →
  status_flow s s'.
Proof. unfold status_flow. destruct s; set_solver. Qed.

#[local] Hint Resolve outgoing_status flow_stored flow_live : py.

Lemma accept_receipt_safe peer target st : safe st (accept_stored_receipt peer target st).2.
Proof.
  apply safe_transaction. intros b st'. mrun.
  destruct (dget target _) as [m|] eqn:Eg; [|done]. simpl.
  destruct (require _ _) eqn:Eq; [|done]. apply require_Ok in Eq. sbools.
  intros [= <- <-]. change (set_messages _ st) with (put (with_status SRecipientStored None m) st).
  intros Hwf. pose proof (tw_rows _ _ _ (sw_messages _ Hwf) _ _ Eg) as Hm.
  eapply safe_put_status; try done. eauto with py.
Qed.

Lemma expire_message_wf now k m : message_wf k m → message_wf k (expire_message now m).
Proof.
  intros Hm. unfold expire_message. destruct (m_expires_at m) eqn:Ee; [|done].
  destruct (_ && _); [|done]. apply with_status_wf; try done.
  destruct (m_outgoing m) eqn:Eo; [done|]. by rewrite (mw_durable _ _ Hm) in Ee.
Qed.

Lemma expire_message_evolves now k m :
  message_wf k m → message_evolves m (expire_message now m).
Proof.
  intros Hm. unfold expire_message. destruct (m_expires_at m) eqn:Ee; [|done].
  destruct (_ && _) eqn:Ec; [|done]. bools. apply with_status_evolves. intros _.
  assert (m_status m ≠ SReceived) as Hr.
  { intros Hr%(mw_received _ _ Hm). by rewrite (mw_durable _ _ Hm) in Ee. }
  apply flow_live; [set_solver|done..].
Qed.

Lemma pending_safe now st : safe st (pending_outbox now st).2.
Proof.
  apply safe_transaction. intros l st'. mrun. intros [= <- <-] [Hm Hr Hc Hn Hp Hev Hno].
  assert (history_evolves (st_messages st) (prod_map id (expire_message now) <$> st_messages st))
    as Hh.
  { apply history_fmap. intros k m Hg. by eapply expire_message_evolves, (tw_rows _ _ _ Hm). }
  split; [|done]. split; try done; simpl.
  - apply table_fmap; [done|]. intros. by apply expire_message_wf.
  - eapply receipts_evolve; [done..|]. intros k m r. rewrite dget_fmap.
    intros (m0 & Hg & ->)%fmap_Some Hid. left. exists m0. split; [done|].
    unfold expire_message in Hid. by repeat case_match.
Qed.

Lemma begin_safe id uuid st : safe st (begin_attempt id uuid st).2.
Proof.
  apply safe_transaction. intros b st'. mrun.
  destruct (dget id _) as [m|] eqn:Eg; [|done]. simpl.
  destruct (raise_if _ _) eqn:Eq; [|done]. apply raise_if_Ok in Eq. bools.
  set (c := decide (m_status m = SSending)).
  intros Hrun. assert (st' = put (with_status SSending
    (Some (token_of (st_epoch st) uuid)) m) st) as ->.
  { destruct c; [destruct (of_option AttributeError _); [|done]; destruct (raise_if _ _); [|done]|];
      (destruct (of_option _ (fromhex _)); [|done]); by simplify_eq. }
  intros Hwf. pose proof (tw_rows _ _ _ (sw_messages _ Hwf) _ _ Eg) as Hm.
  eapply safe_put_status; try done. eauto with py.
Qed.

Lemma relay_blob_safe id create st :
  op_ok st (ORelayBlob id create) → safe st (relay_blob id create st).2.
Proof.
  intros Hok. apply safe_transaction. intros b st'. mrun.
  destruct (dget id _) as [m|] eqn:Eg; [|done]. simpl.
  destruct (require _ _) eqn:Eq; [|done]. apply require_Ok in Eq.
  destruct (m_relay_blob m) as [text|] eqn:Eb; [by intros; simplify_eq|].
  destruct create as [blob|]; [|done]. simpl in Hok.
  destruct (require (in_range _ _ _) _) eqn:Er; [|done]. apply require_Ok, in_range_true in Er.
  destruct (of_option _ _); [|done]. intros [= <- <-] Hwf.
  pose proof (tw_rows _ _ _ (sw_messages _ Hwf) _ _ Eg) as Hm.
  revert Hwf. apply (safe_put (with_relay_blob (tohex blob) m) m); try done.
  - change (m_id (with_relay_blob _ m)) with (m_id m). by rewrite (mw_key _ _ Hm).
  - intros []. split; try done. simpl. intros ? [= <-]. split; [done|]. by exists blob.
  - split; try done. simpl. congruence.
Qed.

Lemma finish_safe id token delivered relayed now st :
  safe st (finish_attempt id token delivered relayed now st).2.
Proof.
  unfold finish_attempt. cbv [mbind M_bind lift]. destruct (raise_if _ _); [|done].
  apply safe_transaction. intros b st'. mrun.
  destruct (dget id _) as [m|] eqn:Eg; [|by intros; simplify_eq].
  destruct (_ && _ && _) eqn:Ec; [|by intros; simplify_eq]. bools. intros [= <- <-] Hwf.
  pose proof (tw_rows _ _ _ (sw_messages _ Hwf) _ _ Eg) as Hm.
  assert (m_outgoing m = true) as Ho.
  { destruct (m_outgoing m) eqn:Eo; [done|]. apply (mw_received _ _ Hm) in Eo. congruence. }
  set (s := if delivered then SDelivered else if relayed then SRelayed else SQueued) in *.
  assert (s ≠ SReceived ∧ s ≠ SSending) as [Hs1 Hs2] by (unfold s; by destruct delivered, relayed).
  assert (status_flow (m_status m) s) as Hflow.
  { rename select (m_status m = _) into Hst. rewrite Hst. apply flow_live; [set_solver|done..]. }
  assert (message_wf (m_id m) (with_status s None m)) as Hw.
  { rewrite (mw_key _ _ Hm). apply with_status_wf; try done. }
  set (m' := if relayed && _ then _ else _).
  assert (message_wf (m_id m) m' ∧ message_evolves m m' ∧ m_receipt_id m' = m_receipt_id m
          ∧ m_id m' = m_id m) as (Hw' & He' & Hr' & Hi').
  { unfold m'. destruct (relayed && _); [|by split; [|split; [by apply with_status_evolves|]]].
    destruct Hw. split; [|split; [|done]].
    - split; try done. simpl in *. lia.
    - split; try done. simpl in *. destruct Hm. lia. }
  revert Hwf. apply (safe_put m' m); rewrite ?Hi'; try done. by rewrite (mw_key _ _ Hm).
Qed.

Lemma commit_service_safe p event now st u st' :
  commit_service p event now st = (Ok u, st') → safe st st' ∧ st_messages st' = st_messages st.
Proof.
  unfold commit_service. mrun. set (key := notice_key _ _).
  destruct (check_service _ _ _) as [[]|] eqn:Ec; [|done].
  assert (key ∈ dkeys (st_notices st) ∨ zlen (st_notices st) < 1000) as Hroom.
  { destruct (dget key _) eqn:Ek; [left; by eapply dget_Some_key|]. right.
    unfold check_service in Ec. steps. lia. }
  destruct (match dget _ _ with None => _ | _ => _ end); intros; simplify_eq; [|done].
  split; [|done]. apply safe_other; [done|]. intros []. split; try done. by apply table_dset.
Qed.

(** Naming the receipt of a received message. *)
Lemma safe_put_receipt m r st :
  dget (m_id m) (st_messages st) = Some m → m_receipt_id m = None →
  (∃ m', dget r (st_messages st) = Some m' ∧ m_outgoing m' = true
     ∧ ∃ target, m_kind m' = XStored target) →
  r ≠ m_id m → safe st (put (with_receipt r m) st).
Proof.
  intros Hg Hnone Href Hne [Hm Hr Hc Hn Hp Hev Hno].
  assert (history_evolves (st_messages st) (st_messages (put (with_receipt r m) st))) as Hh.
  { eapply (history_dset_old _ m); [done|]. split; try done. simpl. congruence. }
  split; [|done]. split; try done; simpl.
  - apply table_dset; [done| |left; by eapply dget_Some_key].
    by destruct (tw_rows _ _ _ Hm _ _ Hg).
  - eapply receipts_evolve; [done..|]. intros k m' r'. simpl.
    rewrite !dget_dset. change (m_id (with_receipt r m)) with (m_id m).
    case_decide; intros; simplify_eq/=; [|by left; eexists].
    right. split; [done|]. by rewrite decide_False by done.
Qed.

Lemma put_lookup m st : dget (m_id m) (st_messages (put m st)) = Some m.
Proof. simpl. apply dget_dset_eq. Qed.

Lemma put_lookup_ne m k st :
  k ≠ m_id m → dget k (st_messages (put m st)) = dget k (st_messages st).
Proof. intros Hne. simpl. by apply dget_dset_ne. Qed.

(** The row [_add] leaves under its id, and the other rows. *)
Lemma add_row_lookup d raw outgoing st b st' :
  _add d raw outgoing st = (Ok b, st') →
  dget (p_id (d_parsed d)) (st_messages st') =
    Some (default (new_message d raw outgoing) (dget (p_id (d_parsed d)) (st_messages st)))
  ∧ ∀ k, k ≠ p_id (d_parsed d) → dget k (st_messages st') = dget k (st_messages st).
Proof.
  set (st1 := if outgoing then st else edit_marks_unread st (d_parsed d)).
  assert (st_messages st1 = st_messages st) as Hm
    by (unfold st1; destruct outgoing; [done|apply edit_marks_unread_messages]).
  intros [(_ & -> & [m ->])|(_ & -> & _ & ->)]%add_row_Ok; [by split|]. fold st1. split.
  - apply (put_lookup (new_message d raw outgoing)).
  - intros k Hk. rewrite <- Hm. by apply (put_lookup_ne (new_message d raw outgoing)).
Qed.

Lemma commit_receipt_safe p m factory st u st' :
  dget (p_id p) (st_messages st) = Some m → m_id m = p_id p →
  (∀ d packed, factory = Ok (d, packed) → receipt_of_ours st p d packed) →
  commit_receipt p (Some m) factory st = (Ok u, st') → safe st st'.
Proof.
  intros Hm Hid Hours. unfold commit_receipt. cbn [mbind option_bind].
  destruct (m_receipt_id m) as [rid|] eqn:Erid.
  - mrun. intros Hrun Hwf.
    destruct (sw_receipts _ Hwf _ _ _ Hm Erid) as (_ & m' & Hm' & Ho & target & Hk).
    rewrite Hm' in Hrun. simpl in Hrun. revert Hwf.
    case_decide; simplify_eq; [done|].
    eapply (safe_put_status rid m'); try done. intros Hns. by destruct (Hns target).
  - destruct factory as [[d packed]|]; [|done].
    destruct (Hours _ _ eq_refl) as (Hb & Hl & (target & Hk) & Hne & Hold).
    mrun. destruct (_add d packed true st) as [[b|] st1] eqn:Ea; [|done].
    destruct (add_row_lookup _ _ _ _ _ _ Ea) as [Hrow Hother].
    rewrite Hother, Hm by done. cbn. intros [= <- <-].
    etransitivity; [refine (add_row_safe _ _ _ _ _ _ Hb Hl _ Ea); done|].
    apply safe_put_receipt; [|done| |by rewrite Hid].
    + by rewrite Hid, Hother.
    + eexists. split; [done|].
      destruct (dget (p_id (d_parsed d)) (st_messages st)) as [m'|] eqn:Ed; [by apply Hold|].
      simpl. split; [done|]. by exists target.
Qed.

Lemma receipt_of_ours_mono st st1 p d packed :
  receipt_of_ours st p d packed →
  (∀ k, k ≠ p_id p → dget k (st_messages st1) = dget k (st_messages st)) →
  receipt_of_ours st1 p d packed.
Proof.
  intros (? & ? & ? & Hne & Hold) Hst. do 4 (split; [done|]). intros m. rewrite Hst by done. apply Hold.
Qed.

(** The receipt part sees the row of the received message whether or not it was
    known before: a message just added names no receipt. *)
Lemma commit_receipt_existing p raw existing factory st :
  commit_receipt p existing factory st =
  commit_receipt p (Some (default (new_message (Draft p None) raw false) existing)) factory st.
Proof. by destruct existing. Qed.

Lemma commit_received_safe p raw factory now st :
  op_ok st (OCommitReceived p raw factory now) →
  safe st (commit_received p raw factory now st).2.
Proof.
  intros (Hb & Hl & Hours). apply safe_transaction. intros b st' Hrun.
  apply M_bind_Ok in Hrun as (existing & st0 & [= <- <-] & Hrun).
  apply M_bind_Ok in Hrun as (u & st1 & Hsvc & Hrun).
  assert (safe st st1 ∧ st_messages st1 = st_messages st) as [Hs1 Hm1].
  { destruct (p_extra p); try (by injection Hsvc as <- <-). by eapply commit_service_safe. }
  apply M_bind_Ok in Hrun as (added & st2 & Ea & Hrun).
  assert (safe st1 st2) as Hs2 by (refine (add_row_safe _ _ _ _ _ _ Hb Hl _ Ea); done).
  destruct (add_row_lookup _ _ _ _ _ _ Ea) as [Hrow Hother]. rewrite Hm1 in Hrow, Hother.
  apply M_bind_Ok in Hrun as (v & st3 & Er & [= <- <-]).
  destruct factory as [factory|]; [|injection Er as <- <-; by etransitivity].
  rewrite (commit_receipt_existing p raw) in Er. intros Hwf.
  set (m := default _ _) in Er.
  assert (m_id m = p_id p) as Hid.
  { unfold m. destruct (dget (p_id p) _) as [m'|] eqn:Em; [|done]. simpl.
    apply (mw_key _ _ (tw_rows _ _ _ (sw_messages _ Hwf) _ _ Em)). }
  assert (safe st2 st3) as Hs3.
  { eapply (commit_receipt_safe p m factory); [done|done| |done].
    intros d packed ->. eapply receipt_of_ours_mono; [by apply Hours|done]. }
  revert Hwf. change (safe st st3). etransitivity; [exact Hs1|]. etransitivity; [exact Hs2|exact Hs3].
Qed.

Lemma reopen_safe epoch st : safe st (reopen epoch st).
Proof. apply safe_other; [done|]. intros []. by split. Qed.

(** Every operation the application may call is safe. *)
Lemma step_safe st st' : store_step st st' → safe st st'.
Proof.
  intros (o & Hok & ->). destruct o; simpl.
  - by apply add_safe.
  - by apply commit_received_safe.
  - apply accept_receipt_safe.
  - apply save_contact_safe.
  - apply rename_safe.
  - apply pin_publisher_safe.
  - apply inbox_safe.
  - apply inbox_mark_safe.
  - apply service_events_safe.
  - apply service_mark_safe.
  - apply subscription_safe.
  - apply pending_safe.
  - apply begin_safe.
  - by apply relay_blob_safe.
  - apply finish_safe.
  - apply reopen_safe.
Qed.

Lemma steps_safe st st' : rtc store_step st st' → safe st st'.
Proof.
  induction 1 as [|st1 st2 st3 H12 _ IH]; [done|].
  etransitivity; [by apply step_safe|done].
Qed.

Lemma new_store_wf epoch : store_wf (new_store epoch).
Proof.
  split; simpl; try done; try (split; [apply NoDup_nil_2|done|done]).
Qed.
