(* ===== verification/StoreDelivery.v ===== *)
(** What the store promises to the delivery workers: over every sequence of
    operations the history only grows, retries reuse the signed and the
    encrypted bytes, an attempt is finished at most once and only by its owner,
    and everything the outbox offers can be attempted. *)
From Stdlib Require Import ZArith Lia.
From stdpp Require Import relations.
From S2P Require Import Prelude PyData Json Notices Rns Codec Subscription Store StoreInv.

Local Open Scope Z_scope.

(** ** Behaviour of the attempt operations *)

(** [begin_attempt] when it returns. *)
Lemma begin_attempt_Ok id uuid st token raw st' :
  begin_attempt id uuid st = (Ok (token, raw), st') →
  ∃ m, dget id (st_messages st) = Some m ∧ m_outgoing m = true
    ∧ m_status m ∉ [SDelivered; SRecipientStored; SExpired]
    ∧ token = token_of (st_epoch st) uuid ∧ fromhex (m_packed m) = Some raw
    ∧ st' = put (with_status SSending (Some token) m) st.
Proof.
  unfold begin_attempt. rewrite transaction_Ok. mrun.
  destruct (dget id _) as [m|] eqn:Eg; [|done]. simpl.
  destruct (raise_if _ _) eqn:Eq; [|done]. apply raise_if_Ok in Eq. bools.
  intros Hrun. exists m. split_and!; [done|done|done|..].
  all: case_decide;
    [destruct (of_option AttributeError _); [|done]; destruct (raise_if _ _); [|done]|];
    destruct (fromhex _) as [raw'|]; simpl in Hrun; by simplify_eq.
Qed.

Lemma owned_token epoch uuid : owned epoch (token_of epoch uuid) = true.
Proof.
  unfold owned, token_of, startswith. rewrite app_assoc.
  apply bool_decide_eq_true, take_app_length.
Qed.

(** [finish_attempt] with consistent flags: what it writes and when. *)
Lemma finish_attempt_eq id token delivered relayed now st :
  delivered && relayed = false →
  finish_attempt id token delivered relayed now st =
  match dget id (st_messages st) with
  | Some m =>
      if bool_decide (m_status m = SSending) && bool_decide (m_attempt m = Some token)
         && owned (st_epoch st) token
      then
        let m := with_status
          (if delivered then SDelivered else if relayed then SRelayed else SQueued) None m in
        (Ok true,
         put (if relayed && m_require_stored m then
                let attempts := Z.min (m_relay_attempts m + 1) 7 in
                with_retry attempts (now + retry_delay attempts * SECOND) m
              else m) st)
      else (Ok false, st)
  | None => (Ok false, st)
  end.
Proof.
  intros Hc. unfold finish_attempt. cbv [mbind M_bind lift]. rewrite Hc. simpl.
  unfold transaction. mrun. destruct (dget id _) as [m|]; [|done].
  by destruct (_ && _ && _).
Qed.

Lemma relay_blob_Ok id create st blob st' :
  relay_blob id create st = (Ok blob, st') →
  ∃ m text, dget id (st_messages st) = Some m ∧ fromhex text = Some blob
    ∧ (m_relay_blob m = Some text ∧ st' = st
       ∨ m_relay_blob m = None ∧ (∃ raw, create = Ok raw ∧ text = tohex raw)
         ∧ st' = put (with_relay_blob text m) st).
Proof.
  unfold relay_blob. rewrite transaction_Ok. mrun.
  destruct (dget id _) as [m|] eqn:Eg; [|done]. simpl.
  destruct (require _ _); [|done]. destruct (m_relay_blob m) as [text|] eqn:Eb.
  - destruct (fromhex text) eqn:Ef; [|done]. intros. simplify_eq/=. eauto 10.
  - destruct create as [raw|]; [|done]. destruct (require _ _); [|done].
    destruct (fromhex (tohex raw)) eqn:Ef; [|done]. intros. simplify_eq/=. eauto 12.
Qed.

(** ** Properties *)

(** Every state an application can reach from a new store is well formed.
    Message ids are unique and name their rows; at most 1000 messages, 1000
    feed events, 1000 notices, 100 contacts and 4 publishers are kept; received
    messages never enter the outbox, a row is in flight exactly when it holds an
    attempt token, every stored blob is decodable and within the size limits,
    and every receipt named by a message is in the history. *)
Theorem reachable_wf epoch st : rtc store_step (new_store epoch) st → store_wf st.
Proof. intros Hst. by apply (steps_safe _ _ Hst), new_store_wf. Qed.

(** The history only grows: no sequence of operations removes, reorders or
    rewrites a message.  Its signed content, direction and expiry stay, its
    relay ciphertext and receipt are fixed once set, and (receipts apart) a
    message that was delivered or has expired can only become stored by the
    recipient, which is final. *)
Theorem history_append_only st st' :
  store_wf st → rtc store_step st st' → history_evolves (st_messages st) (st_messages st').
Proof. intros Hwf Hst. by apply (steps_safe _ _ Hst). Qed.

(** A retry sends the bytes that were signed: whatever happened since the
    message was added, an attempt on it returns exactly the packed bytes it was
    added with, under a token of the current owner. *)
Theorem retry_same_bytes st d raw st1 st2 uuid token raw' st3 :
  store_wf st → all_bytes raw → p_id (d_parsed d) ∉ dkeys (st_messages st) →
  add d raw true st = (Ok true, st1) → rtc store_step st1 st2 →
  begin_attempt (p_id (d_parsed d)) uuid st2 = (Ok (token, raw'), st3) →
  raw' = raw ∧ owned (st_epoch st2) token = true.
Proof.
  intros Hwf Hb Hnew Hadd Hst Hbegin.
  assert (store_step st st1) as Hstep by (exists (OAdd d raw true); simpl; by rewrite Hadd).
  destruct (step_safe _ _ Hstep Hwf) as [Hwf1 _].
  destruct (steps_safe _ _ Hst Hwf1) as [_ [_ He]].
  assert (dget (p_id (d_parsed d)) (st_messages st1) = Some (new_message d raw true)) as Hrow.
  { unfold add in Hadd. apply M_bind_Ok in Hadd as (? & ? & [= _ <-] & Hadd).
    rewrite transaction_Ok in Hadd. apply add_row_lookup in Hadd as [-> _].
    apply dget_None in Hnew. by rewrite Hnew. }
  destruct (He _ _ Hrow) as (m & Hm & Hev).
  apply begin_attempt_Ok in Hbegin as (m' & Hm' & _ & _ & -> & Hraw & _).
  rewrite Hm in Hm'. injection Hm' as <-. rewrite (me_packed _ _ Hev) in Hraw.
  simpl in Hraw. rewrite fromhex_tohex in Hraw by done. simplify_eq. split; [done|].
  apply owned_token.
Qed.

(** A relay sees one ciphertext per message: once [relay_blob] returned an
    envelope, every later call, after any operations and with any other
    envelope on offer, returns the same octets and changes nothing. *)
Theorem relay_blob_once st id create blob st1 st2 create' blob' st3 :
  store_wf st → op_ok st (ORelayBlob id create) →
  relay_blob id create st = (Ok blob, st1) → rtc store_step st1 st2 →
  relay_blob id create' st2 = (Ok blob', st3) →
  blob' = blob ∧ st3 = st2.
Proof.
  intros Hwf Hok Hfirst Hst Hsecond.
  assert (store_step st st1) as Hstep by (exists (ORelayBlob id create); simpl; by rewrite Hfirst).
  destruct (step_safe _ _ Hstep Hwf) as [Hwf1 _].
  apply relay_blob_Ok in Hfirst as (m & text & Hm & Hf & Hcase).
  assert (∃ m1, dget id (st_messages st1) = Some m1 ∧ m_relay_blob m1 = Some text)
    as (m1 & Hm1 & Hb1).
  { destruct Hcase as [[Hb ->]|(Hb & _ & ->)]; [by exists m|].
    exists (with_relay_blob text m). split; [|done].
    rewrite <- (mw_key _ _ (tw_rows _ _ _ (sw_messages _ Hwf) _ _ Hm)) in Hm |- *.
    apply (put_lookup (with_relay_blob text m)). }
  destruct (steps_safe _ _ Hst Hwf1) as [_ [_ He]].
  destruct (He _ _ Hm1) as (m2 & Hm2 & Hev). apply (me_blob _ _ Hev) in Hb1.
  apply relay_blob_Ok in Hsecond as (m3 & text' & Hm3 & Hf' & Hcase').
  rewrite Hm2 in Hm3. injection Hm3 as <-.
  destruct Hcase' as [[Hb2 ->]|(Hb2 & _ & _)]; simplify_eq. done.
Qed.

(** An attempt ends once, by whoever holds its token: after [begin_attempt]
    the call with that token settles the message, any other token and any
    second call are refused without a change, and so is the token itself under
    a later owner of the store. *)
Theorem attempt_finished_once st id uuid token raw st1 delivered relayed now :
  store_wf st → begin_attempt id uuid st = (Ok (token, raw), st1) →
  delivered && relayed = false →
  ∃ st2, finish_attempt id token delivered relayed now st1 = (Ok true, st2)
    ∧ (∀ token' d r now', d && r = false → token' ≠ token →
         finish_attempt id token' d r now' st1 = (Ok false, st1))
    ∧ (∀ token' d r now', d && r = false →
         finish_attempt id token' d r now' st2 = (Ok false, st2))
    ∧ (∀ epoch d r now', d && r = false → owned epoch token = false →
         finish_attempt id token d r now' (reopen epoch st1) = (Ok false, reopen epoch st1)).
Proof.
  intros Hwf Hbegin Hflags.
  apply begin_attempt_Ok in Hbegin as (m & Hm & Ho & Hs & Htok & _ & ->).
  pose proof (mw_key _ _ (tw_rows _ _ _ (sw_messages _ Hwf) _ _ Hm)) as Hk.
  set (m1 := with_status SSending (Some token) m).
  assert (dget id (st_messages (put m1 st)) = Some m1) as Hm1
    by (rewrite <- Hk; apply (put_lookup m1)).
  assert (owned (st_epoch st) token = true) as Hown by (rewrite Htok; apply owned_token).
  rewrite finish_attempt_eq, Hm1 by done. simpl. rewrite Hown.
  rewrite !bool_decide_eq_true_2 by done. simpl.
  set (m2 := if relayed && _ then _ else _). exists (put m2 (put m1 st)).
  assert (m_id m2 = id ∧ m_status m2 ≠ SSending) as [Hid2 Hs2].
  { unfold m2. by destruct (relayed && _), delivered, relayed. }
  split; [done|]. split; [|split].
  - intros token' d r now' Hf Hne. rewrite finish_attempt_eq, Hm1 by done. simpl.
    rewrite (bool_decide_eq_false_2 (Some token = Some token')) by congruence. done.
  - intros token' d r now' Hf. rewrite finish_attempt_eq, <- Hid2, put_lookup by done.
    by rewrite (bool_decide_eq_false_2 (m_status m2 = SSending)).
  - intros epoch d r now' Hf Hforeign. rewrite finish_attempt_eq by done.
    change (st_messages (reopen epoch (put m1 st))) with (st_messages (put m1 st)).
    rewrite Hm1. simpl. rewrite Hforeign. by rewrite andb_false_r.
Qed.

(** ** The outbox *)

Lemma pending_outbox_eq now st :
  let table := prod_map id (expire_message now) <$> st_messages st in
  pending_outbox now st =
  (Ok (m_id <$> filter (is_pending (st_epoch st) now) table.*2), set_messages table st).
Proof. done. Qed.

Lemma expire_message_id now m : m_id (expire_message now m) = m_id m.
Proof. unfold expire_message. by repeat case_match. Qed.

(** Membership in the outbox is a property of the row. *)
Lemma pending_elem now st ids st' k :
  store_wf st → pending_outbox now st = (Ok ids, st') →
  k ∈ ids ↔ ∃ m, dget k (st_messages st) = Some m
    ∧ is_pending (st_epoch st) now (expire_message now m) = true.
Proof.
  intros Hwf. rewrite pending_outbox_eq. intros [= <- <-].
  destruct (sw_messages _ Hwf) as [Hnd _ Hrows]. rewrite list_elem_of_fmap. split.
  - intros (m' & -> & [Hp Hin]%list_elem_of_filter).
    apply list_elem_of_fmap in Hin as ([k m''] & -> & Hin). simpl in *.
    apply list_elem_of_fmap in Hin as ([k' m] & [= -> ->] & Hin).
    apply (dget_NoDup _ _ _ Hnd) in Hin. exists m. split; [|by apply Is_true_eq_true].
    rewrite expire_message_id. simpl. by rewrite (mw_key _ _ (Hrows _ _ Hin)).
  - intros (m & Hm & Hp). exists (expire_message now m). split.
    { by rewrite expire_message_id, (mw_key _ _ (Hrows _ _ Hm)). }
    apply list_elem_of_filter. split; [by apply Is_true_eq_left|].
    apply list_elem_of_fmap. exists (k, expire_message now m). split; [done|].
    apply list_elem_of_fmap. exists (k, m). split; [done|]. by apply dget_elem.
Qed.

(** A pending message has not expired and its status is live. *)
Lemma is_pending_expire epoch now m :
  is_pending epoch now (expire_message now m) = true →
  expire_message now m = m ∧ m_outgoing m = true
  ∧ m_status m ∉ [SDelivered; SRecipientStored; SExpired]
  ∧ (∀ at_, m_expires_at m = Some at_ → now < at_).
Proof.
  unfold is_pending, expire_message. destruct (m_expires_at m) as [at_|] eqn:Ee.
  - destruct (at_ <=? now) eqn:El; simpl.
    + destruct (bool_decide (m_status m ∈ _)) eqn:Es; simpl; intros Hp; bools.
      * exfalso. destruct (m_status m); set_solver.
      * done.
    + intros Hp. bools. split_and!; [done|done| |naive_solver].
      destruct (m_status m); set_solver.
  - intros Hp. bools. split_and!; [done|done| |done]. destruct (m_status m); set_solver.
Qed.

Lemma filter_keys_sublist (P : message → bool) (l : list (pystr * message)) :
  (∀ p, p ∈ l → m_id p.2 = p.1) → m_id <$> filter P l.*2 `sublist_of` l.*1.
Proof.
  induction l as [|[k' m'] l IH]; [done|]. intros Hl. csimpl. rewrite filter_cons.
  specialize (IH (λ p Hp, Hl p (list_elem_of_further _ _ _ Hp))).
  destruct (decide _); csimpl; [|by apply sublist_cons].
  specialize (Hl (k', m') (list_elem_of_here _ _)). simpl in Hl. subst. by apply sublist_skip.
Qed.

Lemma pending_NoDup now st ids st' :
  store_wf st → pending_outbox now st = (Ok ids, st') → NoDup ids.
Proof.
  intros Hwf. rewrite pending_outbox_eq. intros [= <- _].
  destruct (sw_messages _ Hwf) as [Hnd _ Hrows].
  eapply sublist_NoDup; [exact Hnd|].
  rewrite <- (dkeys_fmap (expire_message now)). unfold dkeys. apply filter_keys_sublist.
  intros p ([k' m'] & -> & Hin)%list_elem_of_fmap. simpl.
  rewrite expire_message_id. apply (mw_key _ _ (Hrows _ _ (dget_NoDup _ _ _ Hnd Hin))).
Qed.

(** Everything the outbox offers can be sent: no id is listed twice, each
    belongs to an outgoing message that has not expired, and [begin_attempt] on
    it succeeds and returns its packed bytes. *)
Theorem pending_can_begin now st ids st1 k uuid :
  store_wf st → pending_outbox now st = (Ok ids, st1) → k ∈ ids →
  NoDup ids ∧
  ∃ m raw st2, dget k (st_messages st1) = Some m ∧ m_outgoing m = true
    ∧ (∀ at_, m_expires_at m = Some at_ → now < at_)
    ∧ m_packed m = tohex raw
    ∧ begin_attempt k uuid st1 = (Ok (token_of (st_epoch st) uuid, raw), st2).
Proof.
  intros Hwf Hp Hk. pose proof Hk as (m & Hm & Hpend)%(pending_elem _ _ _ _ _ Hwf Hp).
  destruct (is_pending_expire _ _ _ Hpend) as (Hsame & Ho & Hs & Hexp).
  pose proof (tw_rows _ _ _ (sw_messages _ Hwf) _ _ Hm) as Hmw.
  split; [by eapply pending_NoDup|]. rewrite pending_outbox_eq in Hp. injection Hp as _ <-.
  destruct (mw_packed _ _ Hmw) as (raw & Hraw & Hb & _).
  exists m, raw. simpl. rewrite dget_fmap, Hm. cbn [fmap option_fmap option_map].
  rewrite Hsame. eexists. do 4 (split; [done|]).
  unfold begin_attempt. rewrite transaction_Ok. mrun. simpl.
  rewrite dget_fmap, Hm. cbn [fmap option_fmap option_map of_option]. rewrite Hsame, Ho.
  rewrite (bool_decide_eq_false_2 _ Hs). simpl.
  rewrite Hraw, fromhex_tohex by done. simpl.
  case_decide as Hsend; [|done].
  destruct (m_attempt m) as [a|] eqn:Ea; simpl.
  - rewrite Hsame in Hpend. unfold is_pending in Hpend. rewrite Ea, Hsend in Hpend.
    simpl in Hpend. bools. by rewrite Hpend.
  - apply (mw_attempt _ _ Hmw) in Hsend as [? ?]. congruence.
Qed.

Lemma retry_delay_bounds k : 1 <= k <= 7 → 60 <= retry_delay k <= 3600.
Proof.
  intros Hk. unfold retry_delay.
  assert (2 ^ 0 <= 2 ^ (k - 1)) by (apply Z.pow_le_mono_r; lia). lia.
Qed.

Lemma retry_delay_mono a b : 1 <= a <= b → retry_delay a <= retry_delay b.
Proof.
  intros Hab. unfold retry_delay.
  assert (2 ^ (a - 1) <= 2 ^ (b - 1)) by (apply Z.pow_le_mono_r; lia). lia.
Qed.

(** Retries of a durable message back off: once the relay accepted it, it
    stays out of the outbox for between one minute and one hour, longer the
    more often it was relayed, and then comes back until it expires. *)
Theorem relay_backoff st id token now st1 m at_ :
  store_wf st → dget id (st_messages st) = Some m → m_expires_at m = Some at_ →
  finish_attempt id token false true now st = (Ok true, st1) →
  ∃ k, k = Z.min (m_relay_attempts m + 1) 7
    ∧ 60 <= retry_delay k <= 3600
    ∧ retry_delay (m_relay_attempts m) <= retry_delay k
    ∧ ∀ t ids st2, pending_outbox t st1 = (Ok ids, st2) →
        (id ∈ ids ↔ now + retry_delay k * SECOND <= t < at_).
Proof.
  intros Hwf Hm Hat Hfin.
  assert (store_wf st1) as Hwf1.
  { pose proof (finish_safe id token false true now st Hwf) as [Hw _]. by rewrite Hfin in Hw. }
  rewrite finish_attempt_eq, Hm in Hfin by done.
  destruct (_ && _ && _) eqn:Ec; [|done]. bools.
  unfold m_require_stored in Hfin. simpl in Hfin. rewrite Hat in Hfin.
  set (m1 := with_retry _ _ _) in Hfin. injection Hfin as <-.
  pose proof (tw_rows _ _ _ (sw_messages _ Hwf) _ _ Hm) as Hmw. destruct (mw_backoff _ _ Hmw).
  exists (Z.min (m_relay_attempts m + 1) 7). split; [done|].
  split; [apply retry_delay_bounds; lia|]. split.
  { destruct (Z.eq_dec (m_relay_attempts m) 0) as [->|]; [done|]. apply retry_delay_mono. lia. }
  intros t ids st2 Hp. rewrite (pending_elem _ _ _ _ _ Hwf1 Hp).
  assert (dget id (st_messages (put m1 st)) = Some m1) as ->.
  { rewrite <- (mw_key _ _ Hmw). apply (put_lookup m1). }
  unfold expire_message, is_pending, m_require_stored. split.
  - intros (m' & [= <-] & Hpend). simpl in Hpend. rewrite Hat in Hpend.
    destruct (at_ <=? t) eqn:El; simpl in Hpend;
      [by rewrite andb_false_r in Hpend|]. rewrite Hat in Hpend.
    simpl in Hpend. bools. rewrite orb_false_r in Hpend. by bools.
  - intros Ht. exists m1. split; [done|]. simpl. rewrite Hat.
    destruct (at_ <=? t) eqn:El; bools; [lia|]. simpl. rewrite Hat. simpl.
    destruct (m_outgoing m) eqn:Eo.
    + rewrite orb_false_r. apply andb_true_iff. split; [done|]. apply Z.leb_le. lia.
    + apply (mw_received _ _ Hmw) in Eo. congruence.
Qed.
