(* ===== verification/StoreReceive.v ===== *)
(** Receiving: duplicates are stored once and acknowledged again, a storage
    receipt ends the retries of its message for good, and announcements of a
    publisher only move forward. *)
From Stdlib Require Import ZArith Lia.
From stdpp Require Import relations.
From S2P Require Import Prelude PyData Json Notices Rns Codec Subscription Store StoreInv.
From S2P Require Import StoreDelivery.

Local Open Scope Z_scope.

(** ** Duplicates *)

(** A receipt row of ours that will be sent or is being sent. *)
Definition receipt_due (st : store) (id : pystr) : Prop :=
  ∃ m rid r, dget id (st_messages st) = Some m ∧ m_receipt_id m = Some rid
    ∧ dget rid (st_messages st) = Some r ∧ m_outgoing r = true
    ∧ m_status r ∈ [SQueued; SSending].

(** Receiving with a receipt names the receipt in the row of the message. *)
Lemma commit_receipt_names p m factory st u st' :
  dget (p_id p) (st_messages st) = Some m → m_id m = p_id p →
  commit_receipt p (Some m) factory st = (Ok u, st') →
  store_wf st →
  (∀ d packed, factory = Ok (d, packed) → p_id (d_parsed d) ≠ p_id p) →
  ∃ m' rid, dget (p_id p) (st_messages st') = Some m' ∧ m_receipt_id m' = Some rid.
Proof.
  intros Hm Hid Hrun Hwf Hfac. unfold commit_receipt in Hrun. cbn [mbind option_bind] in Hrun.
  destruct (m_receipt_id m) as [rid|] eqn:Er.
  - destruct (sw_receipts _ Hwf _ _ _ Hm Er) as (Hne & r & Hr & _).
    pose proof (mw_key _ _ (tw_rows _ _ _ (sw_messages _ Hwf) _ _ Hr)) as Hidr. mrun. rewrite Hr in Hrun. simpl in Hrun.
    exists m, rid. split; [|done]. case_decide; simplify_eq; [done|]. simpl.
    rewrite dget_dset_ne; [done|]. change (m_id (with_status _ _ r)) with (m_id r). congruence.
  - destruct factory as [[d packed]|]; [|done]. specialize (Hfac _ _ eq_refl).
    mrun. destruct (_add d packed true st) as [[b|] st1] eqn:Ea; [|done].
    destruct (add_row_lookup _ _ _ _ _ _ Ea) as [_ Hother].
    rewrite Hother, Hm in Hrun by done. simpl in Hrun. simplify_eq. simpl.
    exists (with_receipt (p_id (d_parsed d)) m), (p_id (d_parsed d)). split; [|done].
    change (m_id (with_receipt _ m)) with (m_id m). rewrite Hid. apply dget_dset_eq.
Qed.

Lemma commit_service_step p now st u st1 :
  match p_extra p with XService event => commit_service p event now | _ => mret () end st = (Ok u, st1) →
  safe st st1 ∧ st_messages st1 = st_messages st.
Proof.
  destruct (p_extra p); try (by intros [= <- <-]). apply commit_service_safe.
Qed.

Lemma commit_received_names p raw factory now st b st' :
  store_wf st → op_ok st (OCommitReceived p raw (Some factory) now) →
  commit_received p raw (Some factory) now st = (Ok b, st') →
  b = negb (dmem (p_id p) (st_messages st))
  ∧ ∃ m rid, dget (p_id p) (st_messages st') = Some m ∧ m_receipt_id m = Some rid.
Proof.
  intros Hwf (Hb & Hl & Hours) Hrun. unfold commit_received in Hrun. rewrite transaction_Ok in Hrun.
  apply M_bind_Ok in Hrun as (existing & st0 & [= <- <-] & Hrun).
  apply M_bind_Ok in Hrun as (u & st1 & Hsvc & Hrun).
  apply commit_service_step in Hsvc as [Hs1 Hm1].
  apply M_bind_Ok in Hrun as (added & st2 & Ea & Hrun).
  apply M_bind_Ok in Hrun as (v & st3 & Er & [= <- <-]).
  destruct (Hs1 Hwf) as [Hwf1 _].
  destruct (add_row_safe (Draft p None) raw false st1 added st2 Hb Hl (λ _, eq_refl) Ea Hwf1)
    as [Hwf2 _].
  destruct (add_row_lookup _ _ _ _ _ _ Ea) as [Hrow _]. rewrite Hm1 in Hrow. split.
  { apply add_row_Ok in Ea as [(-> & _ & Hin)|(-> & Hin & _)]; rewrite Hm1 in Hin; simpl in Hin.
    - destruct Hin as [m' Hin]. apply dget_Some_key in Hin.
      by rewrite (proj2 (dmem_true _ _) Hin).
    - apply dget_None in Hin. by rewrite (proj2 (dmem_false _ _) Hin). }
  rewrite (commit_receipt_existing p raw) in Er.
  eapply commit_receipt_names; [exact Hrow| |exact Er|done|].
  - apply (mw_key _ _ (tw_rows _ _ _ (sw_messages _ Hwf2) _ _ Hrow)).
  - intros d packed ->. by destruct (Hours d packed eq_refl) as (_ & _ & _ & Hne & _).
Qed.

(** A known message whose receipt is known: nothing is added and the receipt is
    due again. *)
Lemma commit_received_known p raw factory now st m rid :
  store_wf st → dget (p_id p) (st_messages st) = Some m → m_receipt_id m = Some rid →
  (∀ event, p_extra p ≠ XService event) →
  ∃ st', commit_received p raw (Some factory) now st = (Ok false, st')
    ∧ dkeys (st_messages st') = dkeys (st_messages st) ∧ receipt_due st' (p_id p).
Proof.
  intros Hwf Hm Hrid Hk. destruct (sw_receipts _ Hwf _ _ _ Hm Hrid) as (Hne & r & Hr & Ho & _).
  pose proof (mw_key _ _ (tw_rows _ _ _ (sw_messages _ Hwf) _ _ Hr)) as Hidr.
  set (r' := with_status SQueued None r).
  exists (if decide (m_status r = SSending) then st else put r' st). split_and!.
  - unfold commit_received. rewrite transaction_Ok.
    assert (match p_extra p with XService event => commit_service p event now | _ => mret () end
            = mret ()) as -> by (destruct (p_extra p); try done; by destruct (Hk event)).
    unfold commit_receipt, _add. mrun. simpl. rewrite Hm. simpl. rewrite Hrid, Hr. simpl.
    by case_decide.
  - case_decide; [done|]. simpl. apply dkeys_dset_old. change (m_id r') with (m_id r).
    rewrite Hidr. by eapply dget_Some_key.
  - case_decide as Hs.
    + exists m, rid, r. rewrite Hs. split_and!; try done. set_solver.
    + exists m, rid, r'. split_and!; [|done| |done|set_solver].
      * rewrite put_lookup_ne; [done|]. change (m_id r') with (m_id r). congruence.
      * rewrite <- Hidr. apply (put_lookup r').
Qed.

(** A message is stored once and every duplicate is acknowledged again: a
    first delivery is stored exactly when its id was unknown, and after it,
    whatever else happened, a second delivery succeeds, adds no row and leaves
    the receipt queued or in flight. *)
Theorem duplicate_acknowledged p raw factory now st b st1 st2 raw' factory' now' :
  store_wf st → op_ok st (OCommitReceived p raw (Some factory) now) →
  (∀ event, p_extra p ≠ XService event) →
  commit_received p raw (Some factory) now st = (Ok b, st1) → rtc store_step st1 st2 →
  b = negb (dmem (p_id p) (st_messages st))
  ∧ ∃ st3, commit_received p raw' (Some factory') now' st2 = (Ok false, st3)
      ∧ dkeys (st_messages st3) = dkeys (st_messages st2) ∧ receipt_due st3 (p_id p).
Proof.
  intros Hwf Hok Hk Hfirst Hst.
  assert (store_step st st1) as Hstep
    by (exists (OCommitReceived p raw (Some factory) now); split; [done|]; simpl; by rewrite Hfirst).
  destruct (step_safe _ _ Hstep Hwf) as [Hwf1 _].
  destruct (steps_safe _ _ Hst Hwf1) as [Hwf2 [_ He]].
  destruct (commit_received_names _ _ _ _ _ _ _ Hwf Hok Hfirst) as (Hb & m & rid & Hm & Hrid).
  split; [done|]. destruct (He _ _ Hm) as (m2 & Hm2 & Hev).
  eapply commit_received_known; [done|done| |done]. by apply (me_receipt _ _ Hev).
Qed.

(** ** Receipts *)

Lemma accept_stored_receipt_Ok peer target st b st' :
  accept_stored_receipt peer target st = (Ok b, st') →
  ∃ m, dget target (st_messages st) = Some m ∧ m_outgoing m = true ∧ m_peer m = peer
    ∧ (∀ t, m_kind m ≠ XStored t)
    ∧ b = negb (bool_decide (m_status m = SRecipientStored))
    ∧ st' = put (with_status SRecipientStored None m) st.
Proof.
  unfold accept_stored_receipt. rewrite transaction_Ok. mrun.
  destruct (dget target _) as [m|]; [|done]. simpl.
  destruct (require _ _) eqn:Eq; [|done]. apply require_Ok in Eq. sbools.
  intros [= <- <-]. exists m. split_and!; try done. intros t Ht. by rewrite Ht in Eq.
Qed.

(** A storage receipt is final: it is accepted only from the peer of an
    outgoing message that is no receipt itself, and from then on, after any
    operations, the message is never offered to the outbox and never attempted
    again. *)
Theorem receipt_is_final peer target st b st1 st2 :
  store_wf st → accept_stored_receipt peer target st = (Ok b, st1) → rtc store_step st1 st2 →
  (∃ m, dget target (st_messages st) = Some m ∧ m_outgoing m = true ∧ m_peer m = peer)
  ∧ (∀ now ids st3, pending_outbox now st2 = (Ok ids, st3) → target ∉ ids)
  ∧ ∀ uuid, begin_attempt target uuid st2 = (Raise (ValueError "Message is not pending"), st2).
Proof.
  intros Hwf Hacc Hst.
  assert (store_step st st1) as Hstep
    by (exists (OAcceptReceipt peer target); split; [done|]; simpl; by rewrite Hacc).
  destruct (step_safe _ _ Hstep Hwf) as [Hwf1 _].
  destruct (steps_safe _ _ Hst Hwf1) as [Hwf2 [_ He]].
  apply accept_stored_receipt_Ok in Hacc as (m & Hm & Ho & Hp & Hk & _ & ->).
  split; [by exists m|].
  pose proof (mw_key _ _ (tw_rows _ _ _ (sw_messages _ Hwf) _ _ Hm)) as Hid.
  destruct (He target (with_status SRecipientStored None m)) as (m2 & Hm2 & Hev).
  { rewrite <- Hid. apply (put_lookup (with_status SRecipientStored None m)). }
  assert (m_status m2 = SRecipientStored) as Hs.
  { destruct (me_status _ _ Hev Hk) as [<-|[[Hs _]|[Hs _]]]; [done|..]; simpl in Hs; set_solver. }
  split.
  - intros now ids st3 Hpend (m3 & Hm3 & Hin)%(pending_elem _ _ _ _ _ Hwf2 Hpend).
    simplify_eq. apply is_pending_expire in Hin as (_ & _ & Hns & _). rewrite Hs in Hns. set_solver.
  - intros uuid. unfold begin_attempt, transaction. mrun. rewrite Hm2. simpl. rewrite Hs.
    rewrite bool_decide_eq_true_2 by set_solver. by rewrite orb_true_r.
Qed.

(** ** Announcements *)

Definition flags_le (f f' : flags) : Prop :=
  (fl_read f = true → fl_read f' = true) ∧ (fl_notified f = true → fl_notified f' = true).

(** A stored notice is replaced only by a newer revision; otherwise the event is
    the one signed and its flags are only ever set. *)
Definition row_evolves (n n' : notice_row) : Prop :=
  n_revision (nr_event n) < n_revision (nr_event n')
  ∨ (nr_event n' = nr_event n ∧ flags_le (nr_flags n) (nr_flags n')).

Definition notices_evolve (t t' : list (pystr * notice_row)) : Prop :=
  ∀ k n, dget k t = Some n → ∃ n', dget k t' = Some n' ∧ row_evolves n n'.

#[export] Instance row_evolves_preorder : PreOrder row_evolves.
Proof.
  split; unfold row_evolves, flags_le; [by right|].
  intros n1 n2 n3 [H12|[E12 F12]] [H23|[E23 F23]]; [left; lia|left; by rewrite E23|left; by rewrite <- E12|].
  right. split; [congruence|naive_solver].
Qed.

#[export] Instance notices_evolve_preorder : PreOrder notices_evolve.
Proof.
  split; [intros t k n Hn; by exists n|].
  intros t1 t2 t3 H12 H23 k n Hn. destruct (H12 k n Hn) as (n2 & Hn2 & E12).
  destruct (H23 k n2 Hn2) as (n3 & Hn3 & E23). exists n3. split; [done|]. by etransitivity.
Qed.

Lemma commit_service_evolves p event now st u st' :
  commit_service p event now st = (Ok u, st') → notices_evolve (st_notices st) (st_notices st').
Proof.
  unfold commit_service. mrun. set (key := notice_key _ _).
  destruct (check_service _ _ _) as [[]|] eqn:Ec; [|done].
  destruct (match dget _ _ with None => _ | _ => _ end) eqn:Enew; intros; simplify_eq; [|done].
  intros k n Hn. simpl. rewrite dget_dset. case_decide as Hk; [|by exists n].
  subst k. rewrite Hn in Enew. bools. eexists. split; [done|]. by left.
Qed.

Lemma add_row_notices d raw outgoing st b st' :
  _add d raw outgoing st = (Ok b, st') → st_notices st' = st_notices st.
Proof.
  intros [(_ & -> & _)|(_ & _ & _ & ->)]%add_row_Ok; [done|]. simpl.
  destruct outgoing; [done|]. unfold edit_marks_unread. by repeat case_match.
Qed.

Lemma commit_receipt_notices p existing factory st u st' :
  commit_receipt p existing factory st = (Ok u, st') → st_notices st' = st_notices st.
Proof.
  unfold commit_receipt. destruct (existing ≫= m_receipt_id).
  - mrun. destruct (dget _ _); [|done]. simpl. case_decide; intros; by simplify_eq.
  - destruct factory as [[d packed]|]; [|done]. mrun.
    destruct (_add d packed true st) as [[b|] st1] eqn:Ea; [|done].
    apply add_row_notices in Ea. destruct (dget _ _); [|done]. simpl. intros. by simplify_eq.
Qed.

Lemma commit_received_notices p raw factory now st :
  notices_evolve (st_notices st) (st_notices (commit_received p raw factory now st).2).
Proof.
  unfold commit_received, transaction.
  match goal with |- context [match ?m st with _ => _ end] => destruct (m st) as [[b|] st'] eqn:Hrun end;
    simpl; [|done].
  apply M_bind_Ok in Hrun as (existing & st0 & [= <- <-] & Hrun).
  apply M_bind_Ok in Hrun as (u & st1 & Hsvc & Hrun).
  apply M_bind_Ok in Hrun as (added & st2 & Ea%add_row_notices & Hrun).
  apply M_bind_Ok in Hrun as (v & st3 & Er & [= <- <-]).
  assert (st_notices st3 = st_notices st1) as ->.
  { rewrite <- Ea. destruct factory; [by eapply commit_receipt_notices|by injection Er as _ <-]. }
  destruct (p_extra p); try (by injection Hsvc as _ <-). by eapply commit_service_evolves.
Qed.

Lemma mark_notice_evolves ids k n : row_evolves n (mark_notice ids k n).
Proof.
  right. unfold mark_notice. case_bool_decide; [|done]. split; [done|].
  destruct k; simpl; unfold flags_le; naive_solver.
Qed.

(** The other operations do not touch the notices. *)
Lemma run_notices o st :
  match o with
  | OCommitReceived _ _ _ _ | OServiceMark _ _ => True
  | _ => st_notices (run o st) = st_notices st
  end.
Proof.
  destruct o; try done; simpl.
  - unfold add, mbind at 1, M_bind at 1, lift. destruct (require _ _); [|done].
    unfold transaction. destruct (_add _ _ _ st) as [[b|] st'] eqn:Ea; [|done].
    by apply add_row_notices in Ea.
  - unfold accept_stored_receipt, transaction. mrun.
    destruct (dget _ _); [|done]. simpl. by destruct (require _ _).
  - unfold save_contact, transaction. mrun. by destruct (raise_if _ _).
  - unfold rename_contact, transaction. mrun. by destruct (require _ _).
  - unfold pin_service_publisher, transaction. mrun. by destruct (raise_if _ _).
  - unfold inbox, transaction. mrun. by destruct (st_inbox st).
  - unfold inbox_mark, inbox, transaction. mrun. destruct (of_option _ _); [|done].
    destruct (raise_if _ _); [|done]. by destruct (st_inbox st).
  - unfold service_events, transaction. mrun. destruct incoming; [|done].
    destruct (foldR _ _ _); [|done]. by destruct (raise_if _ _).
  - unfold accept_confirmed_subscription, transaction. mrun.
    by destruct (accept _ _ _ _ _) as [[]|].
  - destruct (begin_attempt _ _ st) as [[[token raw]|e] st'] eqn:E; simpl.
    + by apply begin_attempt_Ok in E as (m & _ & _ & _ & _ & _ & ->).
    + unfold begin_attempt in E. by apply transaction_raise in E as ->.
  - destruct (relay_blob _ _ st) as [[blob|e] st'] eqn:E; simpl.
    + by apply relay_blob_Ok in E as (m & text & _ & _ & [[_ ->]|(_ & _ & ->)]).
    + unfold relay_blob in E. by apply transaction_raise in E as ->.
  - destruct (delivered && relayed) eqn:Ef.
    + unfold finish_attempt. cbv [mbind M_bind lift]. by rewrite Ef.
    + rewrite finish_attempt_eq by done. destruct (dget _ _); [|done].
      by destruct (_ && _ && _).
Qed.

(** Announcements of a publisher only move forward: over any operations a
    stored notice is replaced only by a strictly newer revision, an unchanged
    revision keeps exactly the event that was signed, and its read and
    notified flags are never cleared. *)
Theorem notices_move_forward st st' :
  rtc store_step st st' → notices_evolve (st_notices st) (st_notices st').
Proof.
  induction 1 as [|st1 st2 st3 (o & _ & ->) _ IH]; [done|]. etransitivity; [|exact IH].
  pose proof (run_notices o st1) as Hsame.
  destruct o; try (by rewrite Hsame); [apply commit_received_notices|].
  simpl. unfold service_mark. cbv [mbind M_bind lift].
  destruct (of_option _ _); [|done]. destruct (raise_if _ _); [|done].
  unfold transaction. mrun. intros k n Hn. simpl.
  exists (mark_notice ids a n). split; [|apply mark_notice_evolves].
  case_match; simpl; by rewrite dget_fmap, Hn.
Qed.
