(* ===== verification/StoreView.v ===== *)
(** What the reader sees: the edit chain of every message, read flags and the
    merged service feed. *)
From Stdlib Require Import ZArith Lia.
From stdpp Require Import relations.
From S2P Require Import Prelude PyData Json Notices Rns Codec Subscription Store StoreInv.

Local Open Scope Z_scope.

(** ** Edits *)

Definition is_audio (x : extra) : bool := match x with XAudio _ _ _ => true | _ => false end.

(** [e] is an edit of [m] with revision [r], from the same side of the chat. *)
Definition edit_of (m e : message) (r : Z) : Prop :=
  m_kind e = XEdit (m_id m) r ∧ 0 < r ∧ is_audio (m_kind m) = false
  ∧ m_peer e = m_peer m ∧ m_outgoing e = m_outgoing m.

(** [v] is [m] as the history [l] leaves it: unedited, or with the content of
    the first edit that has the greatest revision. *)
Definition newest (m : message) (l : list message) (v : shown) : Prop :=
  (v = shown_of m ∧ ∀ e r, e ∈ l → ¬ edit_of m e r)
  ∨ ∃ l1 e l2 r, l = l1 ++ e :: l2 ∧ edit_of m e r ∧ v = edited (shown_of m) e r
      ∧ (∀ e' r', e' ∈ l1 → edit_of m e' r' → r' < r)
      ∧ (∀ e' r', e' ∈ l2 → edit_of m e' r' → r' <= r).

(** The revision shown bounds every edit seen so far. *)
Lemma newest_bound m l v :
  newest m l v → 0 <= v_revision v ∧ ∀ e r, e ∈ l → edit_of m e r → r <= v_revision v.
Proof.
  intros [[-> Hno]|(l1 & e & l2 & r & -> & He & -> & H1 & H2)].
  - split; [done|]. intros e r Hin He. by destruct (Hno e r).
  - pose proof He as (_ & Hr & _). simpl. split; [lia|]. intros e' r' Hin He'.
    apply elem_of_app in Hin as [Hin|Hin]; [specialize (H1 _ _ Hin He'); lia|].
    apply elem_of_cons in Hin as [->|Hin]; [|eauto].
    destruct He as [He _], He' as [He' _]. rewrite He in He'. by simplify_eq.
Qed.

Lemma newest_message m l v :
  newest m l v →
  m_kind (v_message v) = m_kind m ∧ m_peer (v_message v) = m_peer m
  ∧ m_outgoing (v_message v) = m_outgoing m ∧ m_id (v_message v) = m_id m
  ∧ ∀ e r, edited v e r = edited (shown_of m) e r.
Proof.
  intros [[-> _]|(l1 & e & l2 & r & _ & _ & -> & _)]; [done|].
  unfold edited. simpl. destruct (m_outgoing m) eqn:Eo; simpl; rewrite ?Eo; done.
Qed.

(** An irrelevant message extends the history without changing the view. *)
Lemma newest_skip m l e v :
  newest m l v → (∀ r, edit_of m e r → r <= v_revision v) → newest m (l ++ [e]) v.
Proof.
  intros [[-> Hno]|(l1 & e0 & l2 & r & -> & He & -> & H1 & H2)] Hskip.
  - left. split; [done|]. intros e' r Hin He.
    apply elem_of_app in Hin as [Hin|Hin]; [by apply (Hno e' r)|].
    apply list_elem_of_singleton in Hin as ->. pose proof He as (_ & Hr & _).
    specialize (Hskip _ He). simpl in Hskip. lia.
  - right. exists l1, e0, (l2 ++ [e]), r. rewrite <- app_assoc. split_and!; try done.
    intros e' r' Hin He'. apply elem_of_app in Hin as [Hin|Hin]; [eauto|].
    apply list_elem_of_singleton in Hin as ->. by apply Hskip.
Qed.

Lemma newest_take m l e r v :
  newest m l v → edit_of m e r → v_revision v < r → newest m (l ++ [e]) (edited v e r).
Proof.
  intros Hn He Hr. right. exists l, e, [], r.
  rewrite (proj2 (proj2 (proj2 (proj2 (newest_message _ _ _ Hn))))). split_and!; try done.
  - intros e' r' Hin He'. destruct (newest_bound _ _ _ Hn) as [_ Hb]. specialize (Hb _ _ Hin He'). lia.
  - intros ? ? Hin. by apply not_elem_of_nil in Hin.
Qed.

Lemma apply_edit_newest m l vis v e :
  dget (m_id m) vis = Some v → newest m l v →
  ∃ v', dget (m_id m) (apply_edit vis e) = Some v' ∧ newest m (l ++ [e]) v'.
Proof.
  intros Hv Hn. destruct (newest_message _ _ _ Hn) as (Hk & Hp & Ho & Hid & _).
  assert ((∀ r, edit_of m e r → r <= v_revision v) →
    dget (m_id m) (apply_edit vis e) = dget (m_id m) vis →
    ∃ v', dget (m_id m) (apply_edit vis e) = Some v' ∧ newest m (l ++ [e]) v') as Hkeep.
  { intros Hskip Heq. exists v. rewrite Heq. split; [done|]. by apply newest_skip. }
  revert Hkeep. unfold apply_edit.
  destruct (m_kind e) as [| | |target r|] eqn:Ek;
    try (intros Hkeep; apply Hkeep; [|done]; intros r [Hx _]; congruence).
  destruct (decide (target = m_id m)) as [->|Hne].
  - rewrite Hv. destruct (editable v e) eqn:Eed; simpl.
    + destruct (Z.leb_spec r (v_revision v)).
      * intros Hkeep. apply Hkeep; [|done]. intros r' [Hx _]. rewrite Ek in Hx. by injection Hx as ->.
      * intros _. exists (edited v e r). rewrite dget_dset_eq. split; [done|].
        apply newest_take; [done| |done]. unfold editable in Eed. sbools.
        destruct (newest_bound _ _ _ Hn) as [Hpos _]. unfold edit_of. rewrite Hk in *. split_and!; try done.
        -- lia.
        -- by destruct (m_kind m).
        -- congruence.
        -- apply Bool.eqb_prop in Eed. congruence.
    + intros Hkeep. apply Hkeep; [|done]. intros r' (Hx & _ & Ha & Hp' & Ho').
      exfalso. unfold editable in Eed. rewrite Hk, Hp, Ho, Hp', Ho' in Eed.
      rewrite (proj2 (str_eqb_eq _ _)), Bool.eqb_reflx in Eed by done. by destruct (m_kind m).
  - intros Hkeep. apply Hkeep.
    + intros r' [Hx _]. congruence.
    + destruct (dget target vis); [|done]. destruct (negb _); [done|].
      destruct (_ <=? _); [done|]. by rewrite dget_dset_ne.
Qed.

Lemma dkeys_apply_edit vis e : dkeys (apply_edit vis e) = dkeys vis.
Proof.
  unfold apply_edit. destruct (m_kind e); try done. destruct (dget _ _) eqn:Eg; [|done].
  destruct (negb _); [done|]. destruct (_ <=? _); [done|].
  apply dkeys_dset_old. by eapply dget_Some_key.
Qed.

Lemma dkeys_visible l vis : dkeys (foldl apply_edit vis l) = dkeys vis.
Proof. revert vis. induction l as [|e l IH]; intros vis; simpl; [done|]. by rewrite IH, dkeys_apply_edit. Qed.

Lemma foldl_newest m vis l :
  dget (m_id m) vis = Some (shown_of m) →
  ∃ v, dget (m_id m) (foldl apply_edit vis l) = Some v ∧ newest m l v.
Proof.
  intros Hv. induction l as [|e l IH] using rev_ind.
  - exists (shown_of m). split; [done|]. left. split; [done|]. intros e r Hin.
    by apply not_elem_of_nil in Hin.
  - rewrite foldl_app. simpl. destruct IH as (v & Hg & Hn). by eapply apply_edit_newest.
Qed.

(** The keys of the visible messages, in the order of the history. *)
Definition visible_ids (st : store) : list pystr :=
  m_id <$> filter (λ m, visible_kind (m_kind m)) (messages st).

Lemma dkeys_visible_initial ms :
  dkeys (visible_initial ms) = m_id <$> filter (λ m, visible_kind (m_kind m)) ms.
Proof. unfold dkeys, visible_initial. rewrite <- list_fmap_compose. done. Qed.

Lemma visible_initial_get ms m :
  NoDup (m_id <$> ms) → m ∈ ms → visible_kind (m_kind m) = true →
  dget (m_id m) (visible_initial ms) = Some (shown_of m).
Proof.
  intros Hnd Hin Hk. apply dget_NoDup.
  - rewrite dkeys_visible_initial. eapply sublist_NoDup; [exact Hnd|].
    apply fmap_sublist, sublist_filter.
  - apply list_elem_of_fmap. exists m. split; [done|]. apply list_elem_of_filter.
    split; [by apply Is_true_eq_left|done].
Qed.

Lemma messages_ids st : store_wf st → m_id <$> messages st = dkeys (st_messages st).
Proof.
  intros [[Hnd _ Hrows] _ _ _ _ _ _]. unfold messages, dkeys. rewrite <- list_fmap_compose.
  apply list_fmap_ext. intros i [k m] Hi. simpl.
  apply (mw_key _ _ (Hrows k m (dget_NoDup _ _ _ Hnd (list_elem_of_lookup_2 _ _ _ Hi)))).
Qed.

(** Every readable message is shown once, in the order of the history, with
    the newest edit of its author: the content is that of the first edit with
    the greatest revision among those the same side sent for it, and an edit
    of another peer, of the other side, or of a recording changes nothing. *)
Theorem visible_newest_edit st k m :
  store_wf st → dget k (st_messages st) = Some m → visible_kind (m_kind m) = true →
  dkeys (visible_table st) = visible_ids st ∧ NoDup (visible_ids st)
  ∧ ∃ v, dget k (visible_table st) = Some v ∧ newest m (messages st) v.
Proof.
  intros Hwf Hm Hk. pose proof (messages_ids _ Hwf) as Hids.
  destruct (sw_messages _ Hwf) as [Hnd _ Hrows].
  assert (NoDup (m_id <$> messages st)) as Hnd' by (by rewrite Hids).
  split; [by unfold visible_table; rewrite dkeys_visible, dkeys_visible_initial|]. split.
  - eapply sublist_NoDup; [exact Hnd'|]. apply fmap_sublist, sublist_filter.
  - rewrite <- (mw_key _ _ (Hrows _ _ Hm)). apply foldl_newest, visible_initial_get; [done| |done].
    apply list_elem_of_fmap. exists (k, m). split; [done|]. by apply dget_elem.
Qed.

(** ** Read flags *)

(** [inbox] as the reader gets it. *)
Definition inbox_list (st : store) : list (shown * flags) :=
  match (inbox st).1 with Ok l => l | Raise _ => [] end.

Definition inbox_state (st : store) : list (pystr * flags) :=
  default (dict_of ((λ v, (v_id v, Flags true true)) <$> incoming_shown st)) (st_inbox st).

Lemma inbox_eq st :
  inbox st = (Ok ((λ v, (v, default unseen (dget (v_id v) (inbox_state st)))) <$> incoming_shown st),
              match st_inbox st with Some _ => st | None => set_inbox (inbox_state st) st end).
Proof. unfold inbox, inbox_state, transaction. mrun. by destruct (st_inbox st). Qed.

Lemma fst_fmap_pair {A B C} (f : A → B) (g : A → C) (l : list A) :
  ((λ x, (f x, g x)) <$> l).*1 = f <$> l.
Proof. rewrite <- list_fmap_compose. done. Qed.

Lemma mark_fold ids k l state i :
  NoDup (v_id <$> l) →
  dget i (foldl (mark_one ids k) state l) =
  if bool_decide (i ∈ (v_id <$> l) ∧ i ∈ ids)
  then Some (marked k (default unseen (dget i state))) else dget i state.
Proof.
  revert state. induction l as [|v l IH]; intros state Hnd; csimpl.
  - done.
  - apply NoDup_cons in Hnd as [Hv Hnd]. rewrite (IH _ Hnd). clear IH. unfold mark_one.
    destruct (decide (i = v_id v)) as [->|Hne].
    + rewrite (bool_decide_eq_false_2 (v_id v ∈ (v_id <$> l) ∧ _)) by tauto.
      destruct (decide (v_id v ∈ ids)) as [Hin|Hout].
      * rewrite !bool_decide_eq_true_2 by set_solver. apply dget_dset_eq.
      * rewrite !bool_decide_eq_false_2 by set_solver. done.
    + assert (bool_decide (i ∈ v_id v :: (v_id <$> l) ∧ i ∈ ids)
              = bool_decide (i ∈ (v_id <$> l) ∧ i ∈ ids)) as ->.
      { apply bool_decide_ext. set_solver. }
      destruct (bool_decide (v_id v ∈ ids)); [|done]. by rewrite dget_dset_ne.
Qed.

Lemma visible_ids_eq st : store_wf st → v_id <$> visible_messages st = visible_ids st.
Proof.
  intros Hwf. transitivity (dkeys (visible_table st));
    [|by unfold visible_table; rewrite dkeys_visible, dkeys_visible_initial].
  assert (Forall (λ p, v_id p.2 = p.1) (visible_table st)) as Hall.
  { unfold visible_table. generalize (messages st) at 2. intros l.
    induction l as [|e l IH] using rev_ind.
    - apply Forall_forall. intros p (m & -> & _)%list_elem_of_fmap. done.
    - rewrite foldl_app. simpl. revert IH. generalize (foldl apply_edit (visible_initial (messages st)) l).
      intros vis Hvis. unfold apply_edit. destruct (m_kind e); try done.
      destruct (dget _ vis) as [o|] eqn:Eg; [|done]. destruct (negb _); [done|].
      destruct (_ <=? _); [done|]. apply Forall_forall. intros p [->|Hin]%dset_elem.
      + simpl. apply dget_elem in Eg. rewrite Forall_forall in Hvis. specialize (Hvis _ Eg).
        simpl in Hvis. unfold v_id, edited in *. simpl. by destruct (m_outgoing _).
      + rewrite Forall_forall in Hvis. by apply Hvis. }
  unfold visible_messages, dkeys. rewrite <- list_fmap_compose.
  induction Hall as [|[k v] t Hk _ IH]; csimpl; [done|]. simpl in Hk. by rewrite IH, Hk.
Qed.

Lemma incoming_NoDup st : store_wf st → NoDup (v_id <$> incoming_shown st).
Proof.
  intros Hwf. eapply (sublist_NoDup _ (v_id <$> visible_messages st)).
  - rewrite visible_ids_eq by done. eapply sublist_NoDup; [|apply fmap_sublist, sublist_filter].
    rewrite messages_ids by done. apply (sw_messages _ Hwf).
  - apply fmap_sublist, sublist_filter.
Qed.

Lemma inbox_mark_eq ids flag k st st' :
  mark_of flag = Some k → inbox_mark ids flag st = (Ok (), st') →
  st' = set_inbox (foldl (mark_one ids k) (inbox_state st) (incoming_shown st)) st.
Proof.
  intros Hk. unfold inbox_mark, lift. rewrite Hk. cbv [mbind M_bind of_option].
  destruct (raise_if _ _); [|done]. rewrite transaction_Ok. rewrite inbox_eq.
  cbv [get_state modify]. rewrite fst_fmap_pair, list_fmap_id. unfold inbox_state.
  destruct (st_inbox st) as [state|] eqn:Ei; intros [= <-]; simpl; by rewrite ?Ei.
Qed.

(** Marking touches exactly what was asked: after [inbox_mark] the inbox
    shows the same messages, those named in [ids] with the flag set (a message
    marked read counts as notified), every other with its flags unchanged. *)
Theorem inbox_mark_exact st ids flag k st' :
  store_wf st → mark_of flag = Some k → inbox_mark ids flag st = (Ok (), st') →
  inbox_list st' =
  (λ p, (p.1, if bool_decide (v_id p.1 ∈ ids) then marked k p.2 else p.2)) <$> inbox_list st.
Proof.
  intros Hwf Hk Hrun. apply (inbox_mark_eq _ _ _ _ _ Hk) in Hrun as ->.
  unfold inbox_list. rewrite !inbox_eq. cbn [fst]. rewrite <- list_fmap_compose.
  change (incoming_shown (set_inbox _ st)) with (incoming_shown st).
  apply list_fmap_ext. intros i v Hi. simpl. f_equal. unfold inbox_state at 1. simpl.
  rewrite mark_fold by (by apply incoming_NoDup).
  assert (v_id v ∈ v_id <$> incoming_shown st) as Hin
    by (apply list_elem_of_fmap_2; by eapply list_elem_of_lookup_2).
  destruct (decide (v_id v ∈ ids)).
  - by rewrite !bool_decide_eq_true_2 by done.
  - by rewrite !bool_decide_eq_false_2 by tauto.
Qed.

(** ** The feed *)

(** The stored event says at least as much as the incoming one. *)
Definition covers (f e : feed_event) : Prop :=
  revision_of e < revision_of f
  ∨ (revision_of e = revision_of f ∧ strip_revision f = strip_revision e
     ∧ (f_revision e ≠ None → f = e)).

Definition covered (events : list (pystr * stored_event)) (e : feed_event) : Prop :=
  ∃ known, dget (f_id e) events = Some known ∧ covers (se_event known) e.

Lemma covers_refl e : covers e e.
Proof. right. by split_and!. Qed.

Lemma merge_covered events e : covered events e → merge_event events e = Ok events.
Proof.
  intros (known & Hk & Hc). unfold merge_event. rewrite Hk.
  destruct Hc as [Hlt|(Heq & Hs & Hr)].
  - by rewrite (proj2 (Z.ltb_lt _ _) Hlt).
  - rewrite Heq, Z.ltb_irrefl, (bool_decide_eq_true_2 _ Hs). simpl.
    destruct (f_revision e) as [r|] eqn:Er.
    + destruct known as [original fl]. simpl in *. rewrite (Hr ltac:(done)) in *.
      rewrite Er, bool_decide_eq_true_2 by done. simpl. by rewrite dset_same.
    + by destruct (f_revision (se_event known)).
Qed.

(** What one merge writes. *)
Lemma merge_event_Ok events e events' :
  merge_event events e = Ok events' →
  covered events' e ∧ ∀ e0, covered events e0 → covered events' e0.
Proof.
  unfold merge_event. destruct (dget (f_id e) events) as [known|] eqn:Ek.
  2: { intros [= <-]. split.
    - eexists. rewrite dget_dset_eq. split; [done|]. apply covers_refl.
    - intros e0 (known & Hk & Hc). exists known. rewrite dget_dset_ne; [done|]. intros Heq. rewrite Heq in Ek. congruence. }
  destruct (Z.ltb_spec (revision_of e) (revision_of (se_event known))) as [Hlt|Hge].
  { intros [= <-]. split; [|done]. exists known. split; [done|]. by left. }
  destruct (Z.ltb_spec (revision_of (se_event known)) (revision_of e)) as [Hgt|Hle]; intros Hm; steps.
  - split; [eexists; rewrite dget_dset_eq; split; [done|]; apply covers_refl|].
    intros e0 (known0 & Hk0 & Hc). destruct (decide (f_id e = f_id e0)) as [Hid|Hid].
    + rewrite <- Hid, Ek in Hk0. injection Hk0 as <-. eexists. rewrite Hid, dget_dset_eq. split; [done|].
      left. simpl. destruct Hc as [|[? _]]; lia.
    + exists known0. by rewrite dget_dset_ne.
  - assert (revision_of e = revision_of (se_event known)) as Heq by lia.
    rename select (strip_revision _ = _) into Hs.
    rename select (match f_revision _ with _ => _ end = false) into Hrev.
    destruct (f_revision e) as [r|] eqn:Er.
    + assert (f_revision (se_event known) ≠ None → se_event known = e) as Hsame.
      { destruct (f_revision (se_event known)); [|done]. intros _. by bools. }
      split; [eexists; rewrite dget_dset_eq; split; [done|]; apply covers_refl|].
      intros e0 (known0 & Hk0 & Hc). destruct (decide (f_id e = f_id e0)) as [Hid|Hid];
        [|exists known0; by rewrite dget_dset_ne].
      rewrite <- Hid, Ek in Hk0. injection Hk0 as <-. eexists. rewrite Hid, dget_dset_eq. split; [done|]. simpl.
      destruct Hc as [Hc|(Hc & Hs0 & Hr0)]; [left; lia|]. right.
      split; [lia|]. split; [congruence|]. intros Hne. specialize (Hr0 Hne). subst e0.
      by rewrite Hsame.
    + split; [|done]. exists known. split; [done|]. right. split_and!; [done|done|]. by rewrite Er.
Qed.

(** Fetching the same feed again is a no-op: once a list of events was
    merged into the stored ones, merging it again succeeds and changes
    nothing, neither the order nor the read flags. *)
Theorem feed_merge_idempotent events incoming events' :
  foldR merge_event events incoming = Ok events' →
  foldR merge_event events' incoming = Ok events'.
Proof.
  intros Hm.
  assert (∀ l ev ev', foldR merge_event ev l = Ok ev' →
    (∀ e, e ∈ l → covered ev' e) ∧ ∀ e, covered ev e → covered ev' e) as Hcov.
  { induction l as [|e l IH]; intros ev ev' Hf; simpl in Hf.
    - simplify_eq. split; [|done]. intros e Hin. by apply not_elem_of_nil in Hin.
    - inv_ok1. destruct (merge_event_Ok _ _ _ Ha) as [He Hold]. destruct (IH _ _ Hf) as [Hl Hkeep].
      split; [|auto]. intros e' [->|Hin]%elem_of_cons; auto. }
  destruct (Hcov _ _ _ Hm) as [Hall _]. clear Hm Hcov. revert Hall.
  induction incoming as [|e l IH]; intros Hall; simpl; [done|].
  rewrite merge_covered by (apply Hall; left). simpl. apply IH. intros e' Hin. apply Hall. by right.
Qed.
