(* ===== verification/StoreExamples.v ===== *)
(** A small history on which the theorems about the store are applied. *)
From Stdlib Require Import ZArith Lia.
From stdpp Require Import relations.
From S2P Require Import Prelude PyData Json Notices Rns Codec Subscription Store StoreInv.
From S2P Require Import StoreDelivery StoreReceive StoreView.

Local Open Scope Z_scope.

(** ** Sequences of operations *)

Definition run_all (ops : list op) (st : store) : store := foldl (λ st o, run o st) st ops.

Fixpoint ops_ok (st : store) (ops : list op) : Prop :=
  match ops with
  | [] => True
  | o :: ops => op_ok st o ∧ ops_ok (run o st) ops
  end.

Lemma run_all_rtc ops st : ops_ok st ops → rtc store_step st (run_all ops st).
Proof.
  revert st. induction ops as [|o ops IH]; intros st; simpl; [done|].
  intros [Hok Hops]. eapply rtc_l; [|by apply IH]. by exists o.
Qed.

(** ** The example *)

Definition alice : pystr := repeat 97 32.
Definition sample_raw (c : Z) : bytes := repeat c 97.
Definition ident (c : Z) : pystr := repeat c 64.

Lemma sample_raw_bytes c : is_byte c = true → all_bytes (sample_raw c).
Proof.
  intros Hc. apply Forall_forall. intros x Hx. apply list_elem_of_In, repeat_spec in Hx. by subst.
Qed.

Definition text_of (c : Z) (text : string) (x : extra) : parsed :=
  Parsed (ident c) alice (py text) (PInt 1) x.

(** An outgoing message that expires, an incoming one, an edit of the latter and
    its receipt. *)
Definition outgoing_draft : draft := Draft (text_of 49 "hello" XText) (Some (1000000 * SECOND)).
Definition incoming_text : parsed := text_of 50 "hi" XText.
Definition incoming_edit : parsed := text_of 51 "hi!" (XEdit (ident 50) 1).
Definition own_receipt : draft := Draft (text_of 52 "" (XStored (ident 50))) None.
Definition receipt_factory : result (draft * bytes) := Ok (own_receipt, sample_raw 4).

Definition sample_notice (revision : Z) : notice :=
  Notice (repeat 101 32) revision (py "update") (py "title") (py "body") 10 20 [py "linux"] 0 9.
Definition service_message (c revision : Z) : parsed :=
  text_of c "" (XService (sample_notice revision)).

Definition epoch1 : pystr := py "first".
Definition start : store := new_store epoch1.

Definition opening : list op :=
  [OSaveContact alice (py "key"); OAdd outgoing_draft (sample_raw 1) true;
   OCommitReceived incoming_text (sample_raw 2) (Some receipt_factory) 5;
   OAdd (Draft incoming_edit None) (sample_raw 3) false;
   OCommitReceived (service_message 53 1) (sample_raw 5) None 5; OInbox].

Definition opened : store := run_all opening start.

Ltac ok_bytes := apply sample_raw_bytes; reflexivity.

Lemma own_receipt_ok st p :
  p_id p ≠ ident 52 → dget (ident 52) (st_messages st) = None →
  ∀ d packed, Some receipt_factory = Some (Ok (d, packed)) → receipt_of_ours st p d packed.
Proof.
  intros Hne Hnone d packed [= <- <-]. split; [ok_bytes|]. split; [done|]. split; [by eexists|].
  split; [done|]. intros m. simpl. by rewrite Hnone.
Qed.

Lemma opening_ok : ops_ok start opening.
Proof.
  split; [done|]. split; [split; [ok_bytes|done]|].
  split; [split; [ok_bytes|split; [done|by apply own_receipt_ok]]|].
  split; [split; [ok_bytes|done]|]. split; [split; [ok_bytes|done]|]. done.
Qed.

Lemma opened_reachable : rtc store_step start opened.
Proof. apply run_all_rtc, opening_ok. Qed.

Lemma opened_wf : store_wf opened.
Proof. by apply (steps_safe _ _ opened_reachable), new_store_wf. Qed.

(** ** The theorems at the example *)

Lemma reachable_wf_witness : store_wf opened ∧ length (st_messages opened) = 5%nat.
Proof. split; [apply (reachable_wf epoch1 opened opened_reachable) | vm_compute; reflexivity]. Defined.

Definition sending : list op := [OBegin (ident 49) (py "uuid"); OPending 7].

Lemma sending_rtc : rtc store_step opened (run_all sending opened).
Proof. apply run_all_rtc. by repeat split. Qed.

Lemma history_append_only_witness :
  history_evolves (st_messages opened) (st_messages (run_all sending opened)).
Proof. apply (history_append_only opened (run_all sending opened) opened_wf sending_rtc). Defined.

(** The message is added, attempted, refused by the network and attempted again
    after a restart. *)
Definition added_state : store := (add outgoing_draft (sample_raw 1) true start).2.
Definition restarted : list op := [OBegin (ident 49) (py "uuid"); OReopen (py "second")].

Lemma retry_same_bytes_witness :
  ∃ token st, begin_attempt (ident 49) (py "other") (run_all restarted added_state) = (Ok (token, sample_raw 1), st).
Proof.
  assert (is_ok (begin_attempt (ident 49) (py "other") (run_all restarted added_state)).1 = true) as Hok
    by (vm_compute; reflexivity).
  destruct (begin_attempt (ident 49) (py "other") (run_all restarted added_state)) as [[[token raw]|e] st] eqn:Hbegin;
    [|discriminate Hok].
  assert (p_id (d_parsed outgoing_draft) ∉ dkeys (st_messages start)) as Hnew
    by (apply not_elem_of_nil).
  assert (add outgoing_draft (sample_raw 1) true start = (Ok true, added_state)) as Hadd
    by (vm_compute; reflexivity).
  assert (rtc store_step added_state (run_all restarted added_state)) as Hrtc
    by (apply run_all_rtc; repeat split).
  assert (raw = sample_raw 1) as ->
    by apply (retry_same_bytes start outgoing_draft (sample_raw 1) added_state
                (run_all restarted added_state) (py "other") token raw st (new_store_wf epoch1)
                (sample_raw_bytes 1 eq_refl) Hnew Hadd Hrtc Hbegin).
  exists token, st. first [exact Hbegin | reflexivity].
Defined.

Definition envelope (c : Z) : bytes := repeat c 112.

Lemma relay_blob_once_witness :
  ∀ blob st, relay_blob (ident 49) (Ok (envelope 9)) (run_all sending (relay_blob (ident 49) (Ok (envelope 8)) opened).2)
             = (Ok blob, st) → blob = envelope 8.
Proof.
  intros blob st H2.
  set (st1 := (relay_blob (ident 49) (Ok (envelope 8)) opened).2).
  assert (relay_blob (ident 49) (Ok (envelope 8)) opened = (Ok (envelope 8), st1)) as H1
    by (vm_compute; reflexivity).
  assert (op_ok opened (ORelayBlob (ident 49) (Ok (envelope 8)))) as Hok.
  { apply Forall_forall. intros x Hx. apply list_elem_of_In, repeat_spec in Hx. by subst. }
  assert (rtc store_step st1 (run_all sending st1)) as Hrtc by (apply run_all_rtc; repeat split).
  apply (relay_blob_once opened (ident 49) (Ok (envelope 8)) (envelope 8) st1 (run_all sending st1)
           (Ok (envelope 9)) blob st opened_wf Hok H1 Hrtc H2).
Defined.

Lemma attempt_finished_once_witness :
  ∃ st, finish_attempt (ident 49) (token_of epoch1 (py "uuid")) false true 8
          (begin_attempt (ident 49) (py "uuid") opened).2 = (Ok true, st)
    ∧ finish_attempt (ident 49) (token_of epoch1 (py "uuid")) true false 9 st = (Ok false, st).
Proof.
  set (st1 := (begin_attempt (ident 49) (py "uuid") opened).2).
  assert (begin_attempt (ident 49) (py "uuid") opened
          = (Ok (token_of epoch1 (py "uuid"), sample_raw 1), st1)) as H1 by (vm_compute; reflexivity).
  destruct (attempt_finished_once opened (ident 49) (py "uuid") (token_of epoch1 (py "uuid"))
              (sample_raw 1) st1 false true 8 opened_wf H1 eq_refl) as (st2 & H2 & _ & Hagain & _).
  exists st2. split; [exact H2|]. apply (Hagain _ true false 9 eq_refl).
Defined.

Lemma pending_can_begin_witness :
  ∃ raw st, begin_attempt (ident 49) (py "uuid") (pending_outbox 7 opened).2
            = (Ok (token_of epoch1 (py "uuid"), raw), st).
Proof.
  set (st1 := (pending_outbox 7 opened).2).
  assert (pending_outbox 7 opened = (Ok [ident 49; ident 52], st1)) as Hp by (vm_compute; reflexivity).
  destruct (pending_can_begin 7 opened [ident 49; ident 52] st1 (ident 49) (py "uuid") opened_wf Hp
              ltac:(left)) as (_ & m & raw & st2 & _ & _ & _ & _ & Hb).
  exists raw, st2. exact Hb.
Defined.

Lemma relay_backoff_witness :
  let st := (begin_attempt (ident 49) (py "uuid") opened).2 in
  let st1 := (finish_attempt (ident 49) (token_of epoch1 (py "uuid")) false true 0 st).2 in
  ∃ ids st2, pending_outbox (59 * SECOND) st1 = (Ok ids, st2) ∧ ident 49 ∉ ids.
Proof.
  intros st st1.
  assert (is_ok (pending_outbox (59 * SECOND) st1).1 = true) as Hok by (vm_compute; reflexivity).
  destruct (pending_outbox (59 * SECOND) st1) as [[ids|e] st2] eqn:Hp; [|discriminate Hok].
  exists ids, st2. split; [reflexivity|]. intros Hin.
  assert (store_wf st) as Hwf.
  { apply (step_safe opened); [|exact opened_wf].
    exists (OBegin (ident 49) (py "uuid")). split; [exact I|]. subst st. cbn [run]. reflexivity. }
  assert (finish_attempt (ident 49) (token_of epoch1 (py "uuid")) false true 0 st = (Ok true, st1)) as Hf
    by (vm_compute; reflexivity).
  assert (dget (ident 49) (st_messages st) =
    Some (with_status SSending (Some (token_of epoch1 (py "uuid")))
            (new_message outgoing_draft (sample_raw 1) true))) as Hm by (vm_compute; reflexivity).
  destruct (relay_backoff st (ident 49) _ 0 st1 _ (1000000 * SECOND) Hwf Hm eq_refl Hf)
    as (k & -> & _ & _ & Hpend).
  apply (Hpend _ _ _ Hp) in Hin. vm_compute in Hin. destruct Hin as [Hin _]. by apply Hin.
Defined.

Lemma duplicate_acknowledged_witness :
  let again := run_all [OFinish (ident 52) (py "t") false false 1] in
  let first := (commit_received incoming_text (sample_raw 2) (Some receipt_factory) 5 start).2 in
  ∃ st, commit_received incoming_text (sample_raw 2) (Some receipt_factory) 9 (again first)
        = (Ok false, st) ∧ receipt_due st (ident 50).
Proof.
  intros again first.
  assert (commit_received incoming_text (sample_raw 2) (Some receipt_factory) 5 start
          = (Ok true, first)) as H1 by (vm_compute; reflexivity).
  assert (op_ok start (OCommitReceived incoming_text (sample_raw 2) (Some receipt_factory) 5)) as Hok.
  { split; [ok_bytes|]. split; [done|]. by apply own_receipt_ok. }
  assert (rtc store_step first (again first)) as Hrtc by (apply run_all_rtc; repeat split).
  assert (∀ event, p_extra incoming_text ≠ XService event) as Hk by (intros event; discriminate).
  destruct (duplicate_acknowledged incoming_text (sample_raw 2) receipt_factory 5 start true first
              (again first) (sample_raw 2) receipt_factory 9 (new_store_wf epoch1) Hok Hk H1 Hrtc)
    as (_ & st & Hst & _ & Hdue).
  exists st. split; [exact Hst|exact Hdue].
Defined.

Lemma receipt_is_final_witness :
  let st := (accept_stored_receipt alice (ident 49) opened).2 in
  ∃ ids st2, pending_outbox 9 (run_all sending st) = (Ok ids, st2) ∧ ident 49 ∉ ids.
Proof.
  intros st.
  assert (is_ok (pending_outbox 9 (run_all sending st)).1 = true) as Hok by (vm_compute; reflexivity).
  destruct (pending_outbox 9 (run_all sending st)) as [[ids|e] st2] eqn:Hp; [|discriminate Hok].
  exists ids, st2. split; [reflexivity|].
  assert (accept_stored_receipt alice (ident 49) opened = (Ok true, st)) as Hacc
    by (vm_compute; reflexivity).
  assert (rtc store_step st (run_all sending st)) as Hrtc by (apply run_all_rtc; repeat split).
  destruct (receipt_is_final alice (ident 49) opened true st (run_all sending st) opened_wf Hacc Hrtc)
    as (_ & Hpend & _).
  apply (Hpend 9 ids st2 Hp).
Defined.

Definition revised : list op :=
  [OCommitReceived (service_message 54 2) (sample_raw 6) None 6; OServiceMark [] (py "read")].

Lemma notices_move_forward_witness :
  notices_evolve (st_notices opened) (st_notices (run_all revised opened)).
Proof.
  assert (rtc store_step opened (run_all revised opened)) as Hrtc.
  { apply run_all_rtc. split; [split; [ok_bytes|done]|]. done. }
  apply (notices_move_forward opened (run_all revised opened) Hrtc).
Defined.

Lemma visible_newest_edit_witness :
  ∃ v, dget (ident 50) (visible_table opened) = Some v
    ∧ newest (with_receipt (ident 52) (new_message (Draft incoming_text None) (sample_raw 2) false))
        (messages opened) v.
Proof.
  destruct (visible_newest_edit opened (ident 50)
    (with_receipt (ident 52) (new_message (Draft incoming_text None) (sample_raw 2) false))
    opened_wf ltac:(vm_compute; reflexivity) eq_refl) as (_ & _ & Hv).
  exact Hv.
Defined.

Lemma inbox_mark_exact_witness :
  inbox_list (inbox_mark [ident 50] (py "read") opened).2
  = (λ p, (p.1, if bool_decide (v_id p.1 ∈ [ident 50]) then marked MarkRead p.2 else p.2))
      <$> inbox_list opened.
Proof.
  apply (inbox_mark_exact opened [ident 50] (py "read") MarkRead
           (inbox_mark [ident 50] (py "read") opened).2 opened_wf eq_refl).
  vm_compute. reflexivity.
Defined.

Definition feed_sample (revision : Z) : feed_event :=
  FeedEvent (ident 70) (py "update") (py "title") (py "body") (py "ops") 10 20 [py "linux"]
    (Some (revision, 10, py "ops")).

Lemma feed_merge_idempotent_witness :
  foldR merge_event [(ident 70, StoredEvent (feed_sample 2) unseen)] [feed_sample 1; feed_sample 2]
  = Ok [(ident 70, StoredEvent (feed_sample 2) unseen)].
Proof.
  apply (feed_merge_idempotent [] [feed_sample 1; feed_sample 2]). vm_compute. reflexivity.
Defined.
