(* ===== verification/Chat.v ===== *)
(** The chat operations over the codec and the store (messenger/chat.py).  An
    account is its identity and its constructor arguments; the store is the
    state.  Clock readings, timestamps and random tokens are arguments. *)
From Stdlib Require Import ZArith Lia.
From S2P Require Import Prelude PyData Json Notices Rns Codec Subscription Store.

Local Open Scope Z_scope.

Section Chat.
Context {LX : Lxmf} {RN : Rns}.

(** The fields of a [Chat] besides its store. *)
Record chat := Chat {
  ch_identity : identity;
  ch_durable : bool;
  ch_platform : pystr;
  ch_version : Z;
}.

Definition ch_public (c : chat) : bytes := public_of (ch_identity c).
Definition ch_address (c : chat) : bytes := destination_hash (ch_public c).

(** [{bytes.fromhex(k): bytes.fromhex(v) for k, v in table.items()}] *)
Definition decode_keys (table : list (pystr * pystr)) : result (list (bytes * bytes)) :=
  l ← mapR (λ p,
        k ← of_option (ValueError "non-hexadecimal number") (fromhex p.1);
        v ← of_option (ValueError "non-hexadecimal number") (fromhex p.2);
        Ok (k, v)) table;
  Ok (dict_of l).

(** [{**a, **b}] *)
Definition merged {V} (a b : list (bytes * V)) : list (bytes * V) :=
  foldl (λ d p, dset p.1 p.2 d) a b.

Definition contacts : M store (list (bytes * bytes)) :=
  st ← get_state; lift (decode_keys (st_contacts st)).

Definition publishers : M store (list (bytes * bytes)) :=
  st ← get_state; lift (decode_keys (st_publishers st)).

Definition delivery_contacts : M store (list (bytes * bytes)) :=
  cs ← contacts; ps ← publishers; mret (merged cs ps).

(** [pin_service_publisher(public)] *)
Definition chat_pin_publisher (public : bytes) : M store () :=
  addr ← lift (address public);
  pin_service_publisher (tohex addr) (tohex public).

(** [trust_contact(public)] *)
Definition chat_trust_contact (public : bytes) : M store bytes :=
  addr ← lift (address public);
  save_contact (tohex addr) (tohex public);;
  mret addr.

(** The message about to be stored, filed under the other side. *)
Definition with_peer (peer : pystr) (p : parsed) : parsed :=
  Parsed (p_id p) peer (p_text p) (p_timestamp p) (p_extra p).

Definition LIFETIME : Z := 7 * 86400 * SECOND.

(** [min(time.time() + 7 * 86400, message.get('event', {}).get('expires', inf))] *)
Definition expiry (x : extra) (now : Z) : Z :=
  match x with
  | XService event => Z.min (now + LIFETIME) (n_expires event * SECOND)
  | _ => now + LIFETIME
  end.

Definition is_stored (x : extra) : bool := match x with XStored _ => true | _ => false end.

(** [queue(recipient, text, fields)]: [ts] is the time of the packing, [now] that
    of the expiry. *)
Definition queue (c : chat) (recipient : bytes) (text : pystr)
    (fields : list (pyval * pyval)) (ts : pyval) (now : Z) : M store pystr :=
  cs ← contacts;
  public ← lift (of_option (ValueError "Contact verification required") (dget recipient cs));
  raw ← lift (pack (ch_identity c) public text fields ts);
  p ← lift (unpack raw public [(ch_address c, ch_public c)]);
  let p := with_peer (tohex recipient) p in
  let expires := if ch_durable c && negb (is_stored (p_extra p))
                 then Some (expiry (p_extra p) now) else None in
  add (Draft p expires) raw true;;
  mret (p_id p).

(** [queue_service(recipient, event)] *)
Definition queue_service (c : chat) (recipient : bytes) (event : pyval) (ts : pyval) (now : Z) :
    M store pystr :=
  event ← lift (validate_notice event);
  fields ← lift (fields_for (XService event));
  queue c recipient [] fields ts now.

(** [receipt()] of [receive]: a signed receipt for the sender of [p]. *)
Definition make_receipt (c : chat) (known : list (bytes * bytes)) (p : parsed) (ts : pyval) :
    result (draft * bytes) :=
  peer ← of_option (ValueError "non-hexadecimal number") (fromhex (p_peer p));
  public ← of_option KeyError (dget peer known);
  fields ← fields_for (XStored (p_id p));
  packed ← pack (ch_identity c) public [] fields ts;
  value ← unpack packed public [(ch_address c, ch_public c)];
  Ok (Draft (with_peer (p_peer p) value) None, packed).

(** [receive(raw)]; [ts] stamps the receipt, [now] is the wall clock. *)
Definition receive (c : chat) (raw : bytes) (ts : pyval) (now : Z) : M store bool :=
  ps ← publishers;
  cs ← contacts;
  let known := merged cs ps in
  p ← lift (unpack raw (ch_public c) known);
  match p_extra p with
  | XStored target => accept_stored_receipt (p_peer p) target
  | _ =>
      st ← get_state;
      (match p_extra p with
       | XService event =>
           lift (require (dmem (p_peer p) (st_publishers st))
                   (ValueError "Service publisher not pinned"));;
           lift (require (applicable event (ch_platform c) (ch_version c) now)
                   (ValueError "Service event not applicable"))
       | _ =>
           peer ← lift (of_option (ValueError "non-hexadecimal number") (fromhex (p_peer p)));
           cs ← contacts;
           lift (require (dmem peer cs) (ValueError "Contact verification required"))
       end);;
      if ch_durable c || match p_extra p with XService _ => true | _ => false end
      then commit_received p raw
             (if ch_durable c then Some (make_receipt c known p ts) else None) now
      else add (Draft p None) raw false
  end.

(** ** Sending over a router *)

(** The states of an LXMF message a completion callback distinguishes. *)
Inductive lxm_state : Type := LxDelivered | LxSent | LxOther.

(** [completed(result)] *)
Definition completed (via_relay : bool) (state : lxm_state) (message_id token : pystr) (now : Z) :
    M store () :=
  let delivered := match state with LxDelivered => true | _ => false end in
  let relayed := via_relay && match state with LxSent => true | _ => false end in
  if delivered || relayed
  then finish_attempt message_id token delivered relayed now;; mret ()
  else mret ().

(** The failure callback of [send]. *)
Definition failed (message_id token : pystr) (now : Z) : M store () :=
  finish_attempt message_id token false false now;; mret ().

(** The [try] block of [send] up to the router: what is handed over is the
    message packed again from the parsed one. *)
Definition repack (c : chat) (raw : bytes) : M store bytes :=
  let peer := take 16 raw in
  cs ← contacts;
  public ← lift (of_option KeyError (dget peer cs));
  p ← lift (unpack raw public [(ch_address c, ch_public c)]);
  fields ← lift (fields_for (p_extra p));
  text ← lift (of_option (ValueError "UnicodeEncodeError") (utf8_encode (p_text p)));
  let packed := lxm_pack (ch_identity c) public text (PDict fields) (p_timestamp p) in
  lift (require (bool_decide (packed = raw)) (ValueError "Retry changed signed message"));;
  mret packed.

(** [send(router, source, message_id, via_relay)]: [node] tells whether a
    propagation node is configured, [outbound] what the router does with the
    packed message.  The token and the packed message are what the callbacks
    later refer to. *)
Definition send (c : chat) (message_id uuid : pystr) (via_relay node : bool)
    (outbound : bytes → result ()) (now : Z) : M store (pystr * bytes) :=
  lift (raise_if (via_relay && negb node)
          (ValueError "A trusted propagation node must be configured first"));;
  '(token, raw) ← begin_attempt message_id uuid;
  tryM (packed ← repack c raw; lift (outbound packed);; mret (token, packed))
    (λ e, failed message_id token now;; raise e).
End Chat.
