(* ===== verification/ChatSpec.v ===== *)
(** Two accounts in conversation: a message queued by one is what the other
    stores, and the receipt the other signs settles it. *)
From Stdlib Require Import ZArith Lia.
From stdpp Require Import relations.
From S2P Require Import Prelude PyData Json Notices Rns Codec CodecMessage Subscription Store.
From S2P Require Import StoreInv StoreDelivery StoreReceive Chat.

Local Open Scope Z_scope.

Section ChatSpec.
Context {LX : Lxmf} {LXL : LxmfLaws} {RN : Rns} {RNL : RnsLaws}.

(** A timestamp LXMF accepts. *)
Definition good_time (ts : pyval) : Prop :=
  is_number ts = true ∧ num_isfinite ts = true ∧ num_ltb_Z ts 0 = false.

(** [c] with the store [st] verified the key of [other]. *)
Record knows (c : chat) (st : store) (other : chat) : Prop := {
  kn_contacts : ∃ cs, decode_keys (st_contacts st) = Ok cs
    ∧ dget (ch_address other) cs = Some (ch_public other);
  kn_all : ∃ cs ps, decode_keys (st_contacts st) = Ok cs ∧ decode_keys (st_publishers st) = Ok ps
    ∧ dget (ch_address other) (merged cs ps) = Some (ch_public other);
}.

Lemma address_public c : address (ch_public c) = Ok (ch_address c).
Proof. unfold address, identity_of, ch_public. by rewrite public_length. Qed.

Lemma own_contacts c : dget (ch_address c) [(ch_address c, ch_public c)] = Some (ch_public c).
Proof. simpl. by rewrite decide_True. Qed.

Lemma message_id_hex raw : ∃ b, canonical_hex 32 (message_id raw) = Some b.
Proof.
  unfold message_id. eexists. apply canonical_hex_tohex; [apply full_hash_bytes|apply full_hash_length].
Qed.

(** What a packed message is for its author and for its recipient. *)
Definition parsed_of (c : chat) (raw : bytes) (text : pystr) (ts : pyval) (x : extra) : parsed :=
  Parsed (message_id raw) (tohex (ch_address c)) text ts x.

Lemma unpack_of c other contacts text x fields ts raw :
  dget (ch_address c) contacts = Some (ch_public c) →
  extra_wf x text → fields_for x = Ok fields → good_time ts →
  pack (ch_identity c) (ch_public other) text fields ts = Ok raw → 96 < zlen raw <= MAX_PACKED →
  unpack raw (ch_public other) contacts = Ok (parsed_of c raw text ts x).
Proof.
  intros Hc Hx Hf (Hn & Hfin & Hpos) Hp Hl. eapply unpack_packed; try done.
  by apply parse_fields_for.
Qed.

(** Verifying a contact in a new store. *)
Lemma decode_one (a p : bytes) :
  all_bytes a → all_bytes p → decode_keys [(tohex a, tohex p)] = Ok [(a, p)].
Proof. intros Ha Hp. unfold decode_keys. simpl. by rewrite !fromhex_tohex. Qed.

Lemma knows_after_trust c epoch other :
  all_bytes (ch_public other) →
  knows c (chat_trust_contact (ch_public other) (new_store epoch)).2 other.
Proof.
  intros Hb.
  assert ((chat_trust_contact (ch_public other) (new_store epoch)).2
          = set_contacts [(tohex (ch_address other), tohex (ch_public other))] (new_store epoch)) as ->.
  { unfold chat_trust_contact, mbind, M_bind, lift. by rewrite address_public. }
  assert (decode_keys [(tohex (ch_address other), tohex (ch_public other))]
          = Ok [(ch_address other, ch_public other)]) as Hd
    by (apply decode_one; [apply destination_bytes|done]).
  split; simpl st_contacts; rewrite Hd.
  - eexists. split; [done|]. apply own_contacts.
  - eexists _, []. do 2 (split; [done|]). apply own_contacts.
Qed.

(** [queue] when it returns: the message is packed for the contact and added. *)
Lemma queue_Ok c recipient text fields ts now st id st' :
  queue c recipient text fields ts now st = (Ok id, st') →
  ∃ cs public raw p b, decode_keys (st_contacts st) = Ok cs ∧ dget recipient cs = Some public
    ∧ pack (ch_identity c) public text fields ts = Ok raw
    ∧ unpack raw public [(ch_address c, ch_public c)] = Ok p ∧ id = p_id p
    ∧ let p := with_peer (tohex recipient) p in
      add (Draft p (if ch_durable c && negb (is_stored (p_extra p))
                    then Some (expiry (p_extra p) now) else None)) raw true st = (Ok b, st').
Proof.
  unfold queue, contacts. intros Hq.
  apply M_bind_Ok in Hq as (cs & st1 & Hcs & Hq). cbv [mbind M_bind get_state lift] in Hcs.
  injection Hcs as Hcs <-.
  apply M_bind_Ok in Hq as (public & st1 & [= Hpub%of_option_Ok <-] & Hq).
  apply M_bind_Ok in Hq as (raw & st1 & [= Hraw <-] & Hq).
  apply M_bind_Ok in Hq as (p & st1 & [= Hp <-] & Hq).
  apply M_bind_Ok in Hq as (b & st1 & Hadd & [= <- <-]).
  exists cs, public, raw, p, b. done.
Qed.

Lemma unpack_size raw r contacts p : unpack raw r contacts = Ok p → 96 < zlen raw <= MAX_PACKED.
Proof. unfold unpack. intros Hu. inv_ok1. apply require_Ok in Ha. bools. lia. Qed.

(** The receipt [c] signs for a message it got from [other]. *)
Definition receipt_fields (id : pystr) : list (pyval * pyval) :=
  [(PInt FIELD_CUSTOM_DATA, PDict [(PStr (py "fc"), PInt 1); (PStr (py "type"), PStr (py "stored"));
                                   (PStr (py "target"), PStr id)])].

Definition receipt_raw (c other : chat) (id : pystr) (ts : pyval) : bytes :=
  lxm_pack (ch_identity c) (ch_public other) [] (PDict (receipt_fields id)) ts.

Lemma pack_receipt c other id ts :
  pack (ch_identity c) (ch_public other) [] (receipt_fields id) ts = Ok (receipt_raw c other id ts).
Proof. unfold pack, identity_of, ch_public. simpl. by rewrite public_length. Qed.

Lemma make_receipt_eq c other known raw text ts x rts :
  dget (ch_address other) known = Some (ch_public other) → good_time rts →
  let id := message_id raw in let rraw := receipt_raw c other id rts in
  96 < zlen rraw <= MAX_PACKED →
  make_receipt c known (parsed_of other raw text ts x) rts =
  Ok (Draft (with_peer (tohex (ch_address other)) (parsed_of c rraw [] rts (XStored id))) None, rraw).
Proof.
  intros Hk Hts id rraw Hl. unfold make_receipt. simpl.
  rewrite fromhex_tohex by apply destination_bytes. simpl. rewrite Hk. simpl.
  fold id. change (fields_for (XStored id)) with (Ok (receipt_fields id)).
  pose proof (pack_receipt c other id rts) as Hpack. unfold receipt_fields in Hpack.
  rewrite Hpack. simpl. fold rraw.
  rewrite (unpack_of c other _ [] (XStored id) (receipt_fields id) rts rraw); try done.
  - apply own_contacts.
  - split; [apply message_id_hex|done].
Qed.

(** Contents of an ordinary message, as opposed to receipts and announcements. *)
Definition ordinary (x : extra) : bool :=
  match x with XText | XEdit _ _ | XAudio _ _ _ => true | _ => false end.

(** A durable account receiving an ordinary message of a contact. *)
Lemma receive_durable c other raw text ts x rts now st :
  ch_durable c = true → ordinary x = true → knows c st other →
  (∀ known, dget (ch_address other) known = Some (ch_public other) →
     unpack raw (ch_public c) known = Ok (parsed_of other raw text ts x)) →
  ∃ known, dget (ch_address other) known = Some (ch_public other)
  ∧ receive c raw rts now st =
    commit_received (parsed_of other raw text ts x) raw
      (Some (make_receipt c known (parsed_of other raw text ts x) rts)) now st.
Proof.
  intros Hd Hx [(cs & Hcs & Hc) (cs' & ps & Hcs' & Hps & Hk)] Hunp.
  rewrite Hcs in Hcs'. injection Hcs' as <-.
  exists (merged cs ps). split; [done|].
  unfold receive, publishers, contacts. cbv [mbind M_bind get_state lift mret M_ret].
  rewrite Hps, Hcs, (Hunp _ Hk). cbv iota beta. cbn [p_extra p_peer parsed_of].
  assert (dmem (ch_address other) cs = true) as Hmem
    by (apply dmem_true; by eapply dget_Some_key).
  destruct x; try done; cbn [ordinary];
    rewrite fromhex_tohex by apply destination_bytes; cbn [of_option]; rewrite Hcs, Hmem;
    cbn [require]; rewrite Hd; reflexivity.
Qed.

(** A new message with a new receipt: both rows are written. *)
Lemma commit_new_message p raw d packed now st :
  (∀ event, p_extra p ≠ XService event) →
  dget (p_id p) (st_messages st) = None → dget (p_id (d_parsed d)) (st_messages st) = None →
  p_id (d_parsed d) ≠ p_id p → zlen (st_messages st) + 2 <= HISTORY_QUOTA →
  ∃ st', commit_received p raw (Some (Ok (d, packed))) now st = (Ok true, st')
    ∧ dget (p_id p) (st_messages st')
      = Some (with_receipt (p_id (d_parsed d)) (new_message (Draft p None) raw false))
    ∧ dget (p_id (d_parsed d)) (st_messages st') = Some (new_message d packed true).
Proof.
  intros Hx Hnew Hrnew Hne Hq.
  set (m := new_message (Draft p None) raw false).
  set (st1 := put m (edit_marks_unread st p)).
  assert (st_messages (edit_marks_unread st p) = st_messages st) as Hsame
    by apply edit_marks_unread_messages.
  assert (st_messages st1 = dset (p_id p) m (st_messages st)) as Hst1 by (simpl; by rewrite Hsame).
  set (st2 := put (new_message d packed true) st1).
  exists (put (with_receipt (p_id (d_parsed d)) m) st2).
  assert (dget (p_id (d_parsed d)) (st_messages st1) = None) as Hr1
    by (rewrite Hst1, dget_dset_ne; [done|congruence]).
  assert (dget (p_id p) (st_messages st2) = Some m) as Hm2.
  { change (st_messages st2) with (dset (p_id (d_parsed d)) (new_message d packed true) (st_messages st1)).
    rewrite dget_dset_ne by done. by rewrite Hst1, dget_dset_eq. }
  split_and!.
  - unfold commit_received. rewrite transaction_Ok.
    assert (match p_extra p with XService event => commit_service p event now | _ => mret () end
            = mret ()) as -> by (destruct (p_extra p) eqn:E; try done; by destruct (Hx event)).
    unfold commit_receipt, _add. mrun. cbn [p_id d_parsed]. rewrite Hnew.
    cbn [option_bind]. rewrite (proj2 (raise_if_Ok _ _ tt)).
    2: { apply Z.leb_gt. lia. }
    change (set_messages (dset (m_id (new_message (Draft p None) raw false)) _ _) _) with st1.
    rewrite Hr1. rewrite (proj2 (raise_if_Ok _ _ tt)).
    2: { apply Z.leb_gt. rewrite Hst1, dset_new by (by apply dget_None).
         unfold zlen in *. rewrite length_app. simpl. lia. }
    change (set_messages (dset (m_id (new_message d packed true)) _ _) _) with st2.
    rewrite Hm2. reflexivity.
  - apply (put_lookup (with_receipt (p_id (d_parsed d)) m)).
  - rewrite put_lookup_ne by done. apply (put_lookup (new_message d packed true)).
Qed.

(** The sender of a message receiving its receipt. *)
Lemma receive_receipt c other raw id rts ts now st m :
  knows c st other → dget id (st_messages st) = Some m → m_id m = id →
  m_outgoing m = true → m_peer m = tohex (ch_address other) → m_status m ≠ SRecipientStored →
  (∀ target, m_kind m ≠ XStored target) →
  (∀ known, dget (ch_address other) known = Some (ch_public other) →
     unpack raw (ch_public c) known = Ok (parsed_of other raw [] rts (XStored id))) →
  ∃ st', receive c raw ts now st = (Ok true, st')
    ∧ dget id (st_messages st') = Some (with_status SRecipientStored None m).
Proof.
  intros [(cs & Hcs & Hc) (cs' & ps & Hcs' & Hps & Hk)] Hm Hid Ho Hp Hs Hkind Hunp.
  rewrite Hcs in Hcs'. injection Hcs' as <-.
  exists (put (with_status SRecipientStored None m) st). split.
  - unfold receive, publishers, contacts. cbv [mbind M_bind get_state lift mret M_ret].
    rewrite Hps, Hcs, (Hunp _ Hk). cbn [p_extra p_peer parsed_of].
    unfold accept_stored_receipt. rewrite transaction_Ok. mrun. rewrite Hm. cbn [of_option].
    rewrite Ho, Hp, (proj2 (str_eqb_eq _ _)) by done.
    rewrite (bool_decide_eq_false_2 _ Hs).
    destruct (m_kind m) eqn:Ek; try done. by destruct (Hkind target).
  - rewrite <- Hid. apply (put_lookup (with_status SRecipientStored None m)).
Qed.

Lemma add_Ok d raw outgoing st b st' :
  add d raw outgoing st = (Ok b, st') → _add d raw outgoing st = (Ok b, st').
Proof.
  unfold add. intros Ha. apply M_bind_Ok in Ha as (u & st1 & [= _ <-] & Ha).
  by rewrite transaction_Ok in Ha.
Qed.

(** C39: Durable delivery, end to end.  Let two accounts have verified each
    other.  Whatever ordinary contents one queues for the other, the other
    stores exactly those contents under the same id when it receives the
    packed bytes of the sender's row, together with a signed receipt in its
    outbox; and when the sender receives the bytes of that receipt, its message
    is settled as stored by the recipient. *)
Theorem durable_delivery a b sta stb x text fields ts rts rts' now now' now'' id sta1 :
  knows a sta b → knows b stb a → ch_durable b = true →
  ordinary x = true → extra_wf x text → fields_for x = Ok fields → good_time ts → good_time rts →
  queue a (ch_address b) text fields ts now sta = (Ok id, sta1) →
  id ∉ dkeys (st_messages sta) → id ∉ dkeys (st_messages stb) →
  zlen (st_messages stb) + 2 <= HISTORY_QUOTA →
  let rraw := receipt_raw b a id rts in
  96 < zlen rraw <= MAX_PACKED → message_id rraw ∉ id :: dkeys (st_messages stb) →
  ∃ raw m stb1 mb r sta2 ma,
    dget id (st_messages sta1) = Some m ∧ m_packed m = tohex raw
    ∧ receive b raw rts now' stb = (Ok true, stb1)
    ∧ dget id (st_messages stb1) = Some mb
    ∧ m_parsed mb = Parsed id (tohex (ch_address a)) text ts x ∧ m_outgoing mb = false
    ∧ dget (message_id rraw) (st_messages stb1) = Some r
    ∧ m_status r = SQueued ∧ m_packed r = tohex rraw
    ∧ receive a rraw rts' now'' sta1 = (Ok true, sta2)
    ∧ dget id (st_messages sta2) = Some ma ∧ m_status ma = SRecipientStored.
Proof.
  intros Hab Hba Hdur Hord Hx Hfields Hts Hrts Hqueue Hnewa Hnewb Hquota rraw Hrl Hrnew.
  apply queue_Ok in Hqueue as (cs & public & raw & p & added & Hcs & Hpub & Hpack & Hunp & -> & Hadd).
  assert (public = ch_public b) as ->.
  { destruct (kn_contacts _ _ _ Hab) as (cs' & Hcs' & Hb). congruence. }
  pose proof (unpack_size _ _ _ _ Hunp) as Hlen.
  assert (p = parsed_of a raw text ts x) as ->.
  { rewrite (unpack_of a b _ text x fields ts raw) in Hunp; try done; [congruence|apply own_contacts]. }
  set (id := message_id raw). change (p_id (parsed_of a raw text ts x)) with id in *.
  cbv zeta in Hadd. set (d := Draft _ _) in Hadd.
  assert (sta1 = put (new_message d raw true) sta) as ->.
  { apply add_Ok in Hadd as [(_ & _ & Hin)|(_ & _ & _ & ->)]%add_row_Ok; [|done].
    destruct Hin as [m Hin]. by apply dget_Some_key in Hin. }
  assert (dget id (st_messages (put (new_message d raw true) sta)) = Some (new_message d raw true))
    as Hrow by apply (put_lookup (new_message d raw true)).
  assert (∀ known, dget (ch_address a) known = Some (ch_public a) →
    unpack raw (ch_public b) known = Ok (parsed_of a raw text ts x)) as Hunpb
    by (intros known Hk; by eapply unpack_of).
  destruct (receive_durable b a raw text ts x rts now' stb Hdur Hord Hba Hunpb) as (known & Hk & Hrecv).
  rewrite (make_receipt_eq b a known raw text ts x rts Hk Hrts Hrl) in Hrecv.
  apply not_elem_of_cons in Hrnew as [Hne Hrnew].
  destruct (commit_new_message (parsed_of a raw text ts x) raw
              (Draft (with_peer (tohex (ch_address a)) (parsed_of b rraw [] rts (XStored id))) None)
              rraw now' stb) as (stb1 & Hcommit & Hmb & Hr);
    [intros event; by destruct x|by apply dget_None..|done|done|].
  destruct (receive_receipt a b rraw id rts rts' now'' (put (new_message d raw true) sta)
              (new_message d raw true)) as (sta2 & Hra & Hma); try done.
  { by destruct Hab. }
  { intros target. by destruct x. }
  { intros known' Hk'. eapply (unpack_of b a _ [] (XStored id)); try done;
      [split; [apply message_id_hex|done]|apply pack_receipt]. }
  exists raw, (new_message d raw true), stb1. do 4 eexists.
  split; [exact Hrow|]. split; [done|]. split; [by rewrite Hrecv|]. split; [exact Hmb|].
  split; [done|]. split; [done|]. split; [exact Hr|]. split; [done|]. split; [done|].
  split; [exact Hra|]. split; [exact Hma|done].
Qed.

(** ** Two accounts and everything in between *)

(** What a row says whatever becomes of it: the message, its packed bytes and
    its direction. *)
Definition core (m : message) : parsed * pystr * bool := (m_parsed m, m_packed m, m_outgoing m).
Definition row_kept (S : pystr → message → Prop) (k : pystr) (m m' : message) : Prop :=
  core m' = core m ∧ (m_status m' = SRecipientStored → m_status m = SRecipientStored ∨ S k m').

(** A history that keeps its rows; new ones satisfy [N], and the rows that
    become stored by their recipient satisfy [S]. *)
Record grows (N S : pystr → message → Prop) (st st' : store) : Prop := {
  gr_old k m : dget k (st_messages st) = Some m → ∃ m', dget k (st_messages st') = Some m' ∧ row_kept S k m m';
  gr_new k m' : dget k (st_messages st') = Some m' → dget k (st_messages st) = None →
    N k m' ∧ (m_status m' = SRecipientStored → S k m');
}.
Definition by_core (N : pystr → message → Prop) : Prop := ∀ k m m', core m' = core m → N k m → N k m'.
Definition rows_named (st : store) : Prop := ∀ k m, dget k (st_messages st) = Some m → m_id m = k.

Lemma core_parsed m m' : core m' = core m → m_parsed m' = m_parsed m ∧ m_packed m' = m_packed m ∧ m_outgoing m' = m_outgoing m.
Proof. by intros [= -> -> ->]. Qed.
Lemma core_id m m' : core m' = core m → m_id m' = m_id m.
Proof. unfold m_id. by intros (-> & _)%core_parsed. Qed.

Lemma grows_same N S st st' : st_messages st' = st_messages st → grows N S st st'.
Proof.
  intros E. split; rewrite E; [|congruence]. intros k m H. exists m. split; [done|]. split; [done|]. by left.
Qed.

Lemma grows_trans N S st1 st2 st3 : by_core N → by_core S → grows N S st1 st2 → grows N S st2 st3 → grows N S st1 st3.
Proof.
  intros HN HS [O1 N1] [O2 N2]. split.
  - intros k m H. destruct (O1 _ _ H) as (m2 & H2 & E2 & T2), (O2 _ _ H2) as (m3 & H3 & E3 & T3). exists m3.
    split; [done|]. split; [congruence|]. intros T. destruct (T3 T) as [T'|T']; [|by right].
    destruct (T2 T') as [?|?]; [by left|right]. by eapply HS.
  - intros k m3 H3 H1. destruct (dget k (st_messages st2)) as [m2|] eqn:H2; [|by apply N2].
    destruct (N1 _ _ H2 H1) as [Hn Hs], (O2 _ _ H2) as (m3' & H3' & E & T). rewrite H3 in H3'. injection H3' as <-.
    split; [by eapply HN|]. intros T'. destruct (T T') as [?|?]; [|done]. eapply HS, Hs; done.
Qed.

Lemma grows_put_old (N S : pystr → message → Prop) m m' st : dget (m_id m') (st_messages st) = Some m → row_kept S (m_id m') m m' → grows N S st (put m' st).
Proof.
  intros H K. split; cbn [put set_messages st_messages].
  - intros k m0 H0. rewrite dget_dset. case_decide as E; [subst|]; [|exists m0; by repeat split; [..|left]].
    rewrite H in H0. injection H0 as <-. eauto.
  - intros k m0. rewrite dget_dset. case_decide; [subst; congruence|congruence].
Qed.
Lemma grows_put_new (N S : pystr → message → Prop) m' st : dget (m_id m') (st_messages st) = None → N (m_id m') m' → m_status m' ≠ SRecipientStored →
  grows N S st (put m' st).
Proof.
  intros H Hn Hs. split; cbn [put set_messages st_messages].
  - intros k m0 H0. rewrite dget_dset_ne by congruence. exists m0. split; [done|]. split; [done|]. by left.
  - intros k m0. rewrite dget_dset. case_decide; [intros [= <-]; subst; done|congruence].
Qed.

Lemma grows_named N S st st' : (∀ k m, N k m → m_id m = k) → grows N S st st' → rows_named st → rows_named st'.
Proof.
  intros HN [O1 N1] H k m' Hk. destruct (dget k (st_messages st)) as [m|] eqn:E.
  - destruct (O1 _ _ E) as (m2 & H2 & C & _). rewrite Hk in H2. injection H2 as <-. rewrite (core_id _ _ C). by apply H.
  - by apply HN, (N1 _ _ Hk E).
Qed.
Lemma grows_weaken (N N' S S' : pystr → message → Prop) st st' : (∀ k m, N k m → N' k m) → (∀ k m, S k m → S' k m) → grows N S st st' → grows N' S' st st'.
Proof.
  intros HN HS [O1 N1]. split.
  - intros k m H. destruct (O1 _ _ H) as (m' & H' & C & T). exists m'. split; [done|]. split; [done|]. intros T'. destruct (T T'); eauto.
  - intros k m' H' H. destruct (N1 _ _ H' H). eauto.
Qed.

(** What leaves the history's rows as they are. *)
Definition nothing (k : pystr) (m : message) : Prop := False.
Definition keeps_history {A} (m : M store A) : Prop := ∀ st, rows_named st → grows nothing nothing st (m st).2.

Lemma keeps_history_put {A} (m : M store A) : (∀ st, (m st).2 = st
  ∨ ∃ k r r', dget k (st_messages st) = Some r ∧ core r' = core r ∧ (m_status r' = SRecipientStored → m_status r = SRecipientStored)
      ∧ (m st).2 = put r' st) → keeps_history m.
Proof.
  intros H st Hn. destruct (H st) as [->|(k & r & r' & Hk & C & T & ->)]; [by apply grows_same|].
  apply (grows_put_old _ _ r); [by rewrite (core_id _ _ C), (Hn _ _ Hk)|]. split; [done|]. auto.
Qed.
Lemma keeps_history_same {A} (m : M store A) : (∀ st, st_messages (m st).2 = st_messages st) → keeps_history m.
Proof. intros H st _. by apply grows_same. Qed.

Lemma keeps_history_bind {A B} (m : M store A) (f : A → M store B) : keeps_history m → (∀ a, keeps_history (f a)) → keeps_history (m ≫= f).
Proof.
  intros Hm Hf st Hn. specialize (Hm st Hn). unfold mbind, M_bind. destruct (m st) as [[a|e] st1]; [|done]. cbn [snd] in Hm.
  eapply grows_trans; [by intros ???|by intros ???|exact Hm|]. apply Hf. by eapply grows_named; [|exact Hm|].
Qed.
Lemma keeps_history_try {A} (m : M store A) h : keeps_history m → (∀ e, keeps_history (h e)) → keeps_history (tryM m h).
Proof.
  intros Hm Hh st Hn. specialize (Hm st Hn). unfold tryM. destruct (m st) as [[a|e] st1]; [done|]. cbn [snd] in Hm.
  eapply grows_trans; [by intros ???|by intros ???|exact Hm|]. apply Hh. by eapply grows_named; [|exact Hm|].
Qed.

Lemma keeps_history_begin id uuid : keeps_history (begin_attempt id uuid).
Proof.
  apply keeps_history_put. intros st. destruct (begin_attempt id uuid st) as [[[token raw]|e] st'] eqn:E; [right|left; by apply transaction_raise in E].
  apply begin_attempt_Ok in E as (m & Hm & _ & _ & _ & _ & ->). by exists id, m, (with_status SSending (Some token) m).
Qed.
Lemma keeps_history_relay_blob id create : keeps_history (relay_blob id create).
Proof.
  apply keeps_history_put. intros st. destruct (relay_blob id create st) as [[blob|e] st'] eqn:E; [|left; by apply transaction_raise in E].
  apply relay_blob_Ok in E as (m & text & Hm & _ & [[_ ->]|(_ & _ & ->)]); [by left|right]. by exists id, m, (with_relay_blob text m).
Qed.
Lemma keeps_history_finish id token delivered relayed now : keeps_history (finish_attempt id token delivered relayed now).
Proof.
  apply keeps_history_put. intros st. destruct (delivered && relayed) eqn:E.
  { left. unfold finish_attempt. cbv [mbind M_bind lift]. by rewrite E. }
  rewrite finish_attempt_eq by done. destruct (dget id (st_messages st)) as [m|] eqn:Hm; [|by left].
  destruct (_ && _ && _); [|by left]. right. eexists id, m, _. split; [done|]. split; [|split; [|reflexivity]].
  - by destruct (relayed && _).
  - by destruct delivered, relayed, (m_require_stored _).
Qed.

(** Expiry is row by row. *)
Lemma keeps_history_pending now : keeps_history (pending_outbox now).
Proof.
  intros st _. unfold pending_outbox. mrun. cbn [transaction snd]. split; cbn [set_messages st_messages].
  - intros k m H. exists (expire_message now m). rewrite dget_fmap, H. split; [done|]. unfold expire_message.
    destruct (m_expires_at m); [|by split; [|left]]. destruct (_ && _); [by split|by split; [|left]].
  - intros k m'. rewrite dget_fmap. intros (m & E & _)%fmap_Some. congruence.
Qed.

(** The operations of the store that leave its messages alone. *)
Definition off_history (o : op) : bool :=
  match o with
  | OSaveContact _ _ | ORename _ _ | OPinPublisher _ _ | OInbox | OInboxMark _ _ | OServiceEvents _ _ | OServiceMark _ _
  | OSubscription _ _ _ _ | OReopen _ => true
  | _ => false
  end.

Lemma off_history_same o st : off_history o = true → st_messages (run o st) = st_messages st.
Proof.
  intros Ho. destruct o; try done; cbn [run].
  - unfold save_contact, transaction. mrun. by destruct (raise_if _ _).
  - unfold rename_contact, transaction. mrun. by destruct (require _ _).
  - unfold pin_service_publisher, transaction. mrun. by destruct (raise_if _ _).
  - unfold inbox, transaction. mrun. by destruct (st_inbox st).
  - unfold inbox_mark, transaction. mrun. destruct (of_option _ _); [|done]. destruct (raise_if _ _); [|done].
    unfold inbox, transaction. mrun. by destruct (st_inbox st).
  - unfold service_events, transaction. mrun. destruct incoming; [|done]. destruct (foldR _ _ _); [|done]. by destruct (raise_if _ _).
  - unfold service_mark, transaction. mrun. destruct (of_option _ _); [|done]. destruct (raise_if _ _); [|done]. by case_match.
  - unfold accept_confirmed_subscription, transaction. mrun. by destruct (accept _ _ _ _ _) as [[]|].
Qed.

(** The operations that deliver nothing and queue nothing. *)
Definition housekeeping (o : op) : bool :=
  match o with OAdd _ _ _ | OCommitReceived _ _ _ _ | OAcceptReceipt _ _ => false | _ => true end.

Lemma housekeeping_history o st : housekeeping o = true → rows_named st → grows nothing nothing st (run o st).
Proof.
  intros Ho Hn. destruct (off_history o) eqn:Eo; [by apply grows_same, off_history_same|]. destruct o; try done; cbn [run].
  - by apply keeps_history_pending.
  - by apply keeps_history_begin.
  - by apply keeps_history_relay_blob.
  - by apply keeps_history_finish.
Qed.

(** ** What the rows stand for *)

(** The parts of two packed messages a signature covers agree. *)
Definition same_signed (raw raw' : bytes) : Prop := slice 0 32 raw = slice 0 32 raw' ∧ drop 96 raw = drop 96 raw'.

Lemma same_signed_parts raw raw' : same_signed raw raw' →
  slice 0 16 raw = slice 0 16 raw' ∧ slice 16 32 raw = slice 16 32 raw' ∧ message_id raw = message_id raw'.
Proof.
  unfold same_signed, slice, message_id, slice. rewrite !drop_0. intros [E D].
  assert (take 16 raw = take 16 raw') as E1 by (apply (f_equal (take 16)) in E; by rewrite !take_take in E).
  assert (take 16 (drop 16 raw) = take 16 (drop 16 raw')) as E2.
  { apply (f_equal (drop 16)) in E. by rewrite !skipn_firstn_comm in E. }
  change (16 - 0)%nat with 16%nat in *. change (32 - 16)%nat with 16%nat in *. by rewrite E1, E2, D.
Qed.

Lemma unpack_parts raw r known p : unpack raw r known = Ok p →
  p_id p = message_id raw ∧ p_peer p = tohex (slice 16 32 raw) ∧ unpack_body (drop 96 raw) = Ok (p_timestamp p, p_text p, p_extra p).
Proof.
  unfold unpack. intros Hu. repeat inv_ok1. case_decide; [|done].
  match goal with H : try_with _ _ = Ok ?t |- _ => rename H into Htry; destruct t as [[ts text] x] end.
  injection Hu as <-. split_and!; [done|done|]. cbn [p_timestamp p_text p_extra].
  destruct (unpack_body _) as [v|e]; cbn [try_with] in Htry; [done|by repeat case_match].
Qed.

(** Two readings of the same signed part. *)
Lemma unpack_same raw raw' r r' known known' p p' : unpack raw r known = Ok p → unpack raw' r' known' = Ok p' → same_signed raw raw' → p = p'.
Proof.
  intros (I1 & P1 & B1)%unpack_parts (I2 & P2 & B2)%unpack_parts H. pose proof (same_signed_parts _ _ H) as (_ & E & Ei).
  rewrite (proj2 H), B2 in B1. destruct p, p'; cbn in *. congruence.
Qed.

Definition sent_row (c : chat) (m : message) : Prop :=
  ∃ raw public p, m_packed m = tohex raw ∧ all_bytes raw ∧ unpack raw public [(ch_address c, ch_public c)] = Ok p
    ∧ m_parsed m = with_peer (m_peer m) p.
Definition taken_row (c : chat) (m : message) : Prop :=
  ∃ raw known, m_packed m = tohex raw ∧ all_bytes raw ∧ unpack raw (ch_public c) known = Ok (m_parsed m).

(** A signed receipt in the outbox is for a message of the history, of the one
    the receipt is for. *)
Definition receipt_row (c : chat) (st : store) (m : message) : Prop :=
  ∀ target, m_kind m = XStored target → ∃ raw mi, m_packed m = tohex raw ∧ all_bytes raw ∧ dget target (st_messages st) = Some mi
    ∧ (slice 0 16 raw = ch_address c ∨ m_outgoing mi = false ∧ m_peer mi = tohex (slice 0 16 raw)).

(** What was taken in from [other] is what [other] queued. *)
Definition from_other (other : chat) (sto : store) (k : pystr) (m : message) : Prop :=
  m_outgoing m = false → m_peer m = tohex (ch_address other) →
  ∃ mo, dget k (st_messages sto) = Some mo ∧ m_outgoing mo = true ∧ m_parsed m = with_peer (tohex (ch_address other)) (m_parsed mo).

(** What [other] stored of what [c] queued. *)
Definition stored_by (c other : chat) (sto : store) (k : pystr) (m : message) : Prop :=
  m_outgoing m = true → m_peer m = tohex (ch_address other) →
  ∃ mi, dget k (st_messages sto) = Some mi ∧ m_outgoing mi = false ∧ m_parsed mi = with_peer (tohex (ch_address c)) (m_parsed m).

Definition good_row (c other : chat) (st sto : store) (k : pystr) (m : message) : Prop :=
  m_id m = k ∧ (if m_outgoing m then sent_row c m ∧ receipt_row c st m else taken_row c m) ∧ from_other other sto k m.

(** One account in the conversation, with the store of the other. *)
Definition account_ok (c other : chat) (st sto : store) : Prop := ∀ k m, dget k (st_messages st) = Some m →
  good_row c other st sto k m ∧ (m_status m = SRecipientStored → stored_by c other sto k m).

Lemma by_core_good c other st sto : by_core (good_row c other st sto).
Proof.
  intros k m m' E. pose proof (core_id _ _ E) as Ei. apply core_parsed in E as (E1 & E2 & E3).
  unfold good_row, sent_row, taken_row, receipt_row, from_other, m_peer, m_kind in *. rewrite Ei, E1, E2, E3. done.
Qed.
Lemma by_core_stored c other sto : by_core (stored_by c other sto).
Proof. intros k m m' (E1 & E2 & E3)%core_parsed. unfold stored_by, m_peer. by rewrite E1, E3. Qed.

Lemma account_named c other st sto : account_ok c other st sto → rows_named st.
Proof. intros H k m Hk. apply (H _ _ Hk). Qed.

(** Rows of the history are still there, as they were, when it has grown. *)
Lemma good_row_grows N S c other st st' sto k m : grows N S st st' → good_row c other st sto k m → good_row c other st' sto k m.
Proof.
  intros G (H1 & H2 & H3). split; [done|]. split; [|done]. destruct (m_outgoing m); [|done]. destruct H2 as [H2 Hr]. split; [done|].
  intros target Ht. destruct (Hr _ Ht) as (raw & mi & E1 & E2 & Hmi & Hor). destruct (gr_old _ _ _ _ G _ _ Hmi) as (mi' & Hmi' & C & _).
  apply core_parsed in C as (C1 & _ & C3). exists raw, mi'. unfold m_peer. by rewrite C1, C3.
Qed.

(** The account that moved. *)
Lemma account_moves c other st st' sto : account_ok c other st sto →
  grows (good_row c other st' sto) (stored_by c other sto) st st' → account_ok c other st' sto.
Proof.
  intros H G k m' Hk. destruct (dget k (st_messages st)) as [m|] eqn:E; [|by apply (gr_new _ _ _ _ G)].
  destruct (gr_old _ _ _ _ G _ _ E) as (m2 & H2 & C & T). rewrite Hk in H2. injection H2 as <-.
  destruct (H _ _ E) as [Hg Hs]. split.
  - eapply by_core_good; [exact C|]. by eapply good_row_grows.
  - intros Ht. destruct (T Ht) as [?|?]; [|done]. eapply by_core_stored; [exact C|]. by apply Hs.
Qed.

(** The other account, meanwhile. *)
Lemma account_waits N S c other st sto sto' : account_ok c other st sto → grows N S sto sto' → account_ok c other st sto'.
Proof.
  intros H G k m Hk. destruct (H _ _ Hk) as [(H1 & H2 & H3) H4]. split; [split; [done|]; split; [done|]|].
  - intros Ho Hp. destruct (H3 Ho Hp) as (mo & Hmo & Hout & Hpa). destruct (gr_old _ _ _ _ G _ _ Hmo) as (mo' & Hmo' & C & _).
    apply core_parsed in C as (C1 & _ & C3). exists mo'. by rewrite C1, C3.
  - intros Ht Ho Hp. destruct (H4 Ht Ho Hp) as (mi & Hmi & Hin & Hpa). destruct (gr_old _ _ _ _ G _ _ Hmi) as (mi' & Hmi' & C & _).
    apply core_parsed in C as (C1 & _ & C3). exists mi'. by rewrite C1, C3.
Qed.
(** A refused message leaves the store as it was. *)
Lemma receive_raise c raw ts now st e st' : receive c raw ts now st = (Raise e, st') → st' = st.
Proof.
  unfold receive, publishers, contacts. cbv [mbind M_bind lift get_state mret M_ret].
  destruct (decode_keys (st_publishers st)) as [ps|]; [|by intros; simplify_eq].
  destruct (decode_keys (st_contacts st)) as [cs|] eqn:Hcs; [|by intros; simplify_eq].
  destruct (unpack _ _ _) as [p|]; [|by intros; simplify_eq].
  assert (∀ (d : draft) (r : bytes), add d r false st = (Raise e, st') → st' = st) as Hadd.
  { intros d r Ha. unfold add, mbind, M_bind, lift in Ha. destruct (require _ _); [|by simplify_eq].
    by apply transaction_raise in Ha. }
  destruct (p_extra p);
    repeat match goal with
    | |- context [match of_option ?e ?o with _ => _ end] => destruct (of_option e o); [|by intros; simplify_eq]
    | |- context [match decode_keys (st_contacts st) with _ => _ end] => rewrite Hcs
    | |- context [match require ?a ?b with _ => _ end] => destruct (require a b); [|by intros; simplify_eq]
    end.
  all: try (intros Ha; by apply transaction_raise in Ha).
  all: destruct (ch_durable c || _); intros Ha; [by apply transaction_raise in Ha|by eapply Hadd].
Qed.

(** ** What the operations do to the rows *)

Lemma commit_received_grows N S p raw factory now st b st' : by_core N → by_core S → (∀ k m, N k m → m_id m = k) → rows_named st →
  commit_received p raw factory now st = (Ok b, st') →
  (dget (p_id p) (st_messages st) = None → N (p_id p) (new_message (Draft p None) raw false)) →
  (∀ d packed, factory = Some (Ok (d, packed)) → p_id (d_parsed d) ≠ p_id p → N (p_id (d_parsed d)) (new_message d packed true)) →
  grows N S st st' ∧ is_Some (dget (p_id p) (st_messages st')).
Proof.
  intros HN HS Hid Hn Hrun Hp Hf. unfold commit_received in Hrun. rewrite transaction_Ok in Hrun.
  apply M_bind_Ok in Hrun as (existing & st0 & [= <- <-] & Hrun). apply M_bind_Ok in Hrun as (u & st1 & Hsvc & Hrun).
  assert (st_messages st1 = st_messages st) as Hm1.
  { destruct (p_extra p); try (by injection Hsvc as <- <-). by apply commit_service_safe in Hsvc as [_ ?]. }
  apply M_bind_Ok in Hrun as (added & st2 & Ea & Hrun). apply M_bind_Ok in Hrun as (v & st3 & Er & [= <- <-]).
  pose proof (add_row_lookup _ _ _ _ _ _ Ea) as [Hrow _]. cbn [d_parsed] in Hrow. apply dget_Some_key in Hrow as Hin.
  assert (grows N S st st2) as G2.
  { eapply grows_trans; [done|done|by apply (grows_same _ _ st st1)|].
    apply add_row_Ok in Ea as [(_ & -> & _)|(_ & Hnew & _ & ->)]; [by apply grows_same|]. cbn [d_parsed] in Hnew.
    eapply grows_trans; [done|done|apply (grows_same _ _ st1 (edit_marks_unread st1 p)), edit_marks_unread_messages|].
    apply (grows_put_new _ _ (new_message (Draft p None) raw false)); [by rewrite edit_marks_unread_messages|apply Hp; congruence|done]. }
  enough (grows N S st2 st3) as G3.
  { split; [by eapply grows_trans|]. destruct (dget (p_id p) (st_messages st2)) as [m|] eqn:E; [|by apply dget_None in E].
    destruct (gr_old _ _ _ _ G3 _ _ E) as (m' & -> & _). by eexists. }
  destruct factory as [factory|]; [|injection Er as _ <-; by apply grows_same].
  assert (rows_named st2) as Hn2 by (by eapply grows_named).
  unfold commit_receipt in Er. destruct (_ ≫= m_receipt_id) as [rid|].
  - mrun. destruct (dget rid (st_messages st2)) as [r|] eqn:Eg; [|done]. cbn [of_option] in Er.
    case_decide; [by simplify_eq; apply grows_same|]. injection Er as _ <-.
    apply (grows_put_old _ _ r (with_status SQueued None r)); [|by split]. change (dget (m_id r) (st_messages st2) = Some r). by rewrite (Hn2 _ _ Eg).
  - destruct factory as [[d packed]|]; [|done]. mrun. destruct (_add d packed true st2) as [[b'|] st4] eqn:Ed; [|done].
    destruct (dget (p_id p) (st_messages st4)) as [saved|] eqn:Es; [|done]. cbn [of_option] in Er. injection Er as _ <-.
    assert (grows N S st2 st4) as G4.
    { apply add_row_Ok in Ed as [(_ & -> & _)|(_ & Hnew & _ & ->)]; [by apply grows_same|].
      apply (grows_put_new _ _ (new_message d packed true)); [done|apply Hf; [done|]|done]. intros E. rewrite E in Hnew. congruence. }
    eapply grows_trans; [done|done|exact G4|]. apply (grows_put_old _ _ saved (with_receipt _ saved)); [|by split; [|left]].
    change (dget (m_id saved) (st_messages st4) = Some saved). by rewrite (grows_named _ _ _ _ Hid G4 Hn2 _ _ Es).
Qed.

Lemma add_raise d raw outgoing st e st' : add d raw outgoing st = (Raise e, st') → st' = st.
Proof. unfold add, mbind, M_bind, lift. destruct (require _ _); [|by intros [= _ <-]]. by intros H%transaction_raise. Qed.

Lemma queue_raise c recipient text fields ts now st e st' : queue c recipient text fields ts now st = (Raise e, st') → st' = st.
Proof.
  unfold queue, contacts. cbv [mbind M_bind get_state lift mret M_ret]. destruct (decode_keys _); [|by intros [= _ <-]].
  destruct (of_option _ _); [|by intros [= _ <-]]. destruct (pack _ _ _ _ _); [|by intros [= _ <-]]. destruct (unpack _ _ _); [|by intros [= _ <-]].
  destruct (add _ _ _ st) as [[b|e'] st1] eqn:E; [done|]. intros [= _ <-]. by apply add_raise in E.
Qed.

Lemma pack_bytes c public text fields ts raw : pack (ch_identity c) public text fields ts = Ok raw → all_bytes raw.
Proof. unfold pack. intros H. repeat inv_ok1. subst raw. apply lxm_pack_bytes. Qed.

(** Queueing anything that is not a receipt. *)
Lemma queue_grows c other sto recipient text fields ts now st r st' : (∀ target, parse_fields fields text ≠ Ok (XStored target)) →
  queue c recipient text fields ts now st = (r, st') → grows (good_row c other st' sto) (stored_by c other sto) st st'.
Proof.
  intros Hx H. destruct r as [id|e]; [|by apply queue_raise in H as ->; apply grows_same].
  apply queue_Ok in H as (cs & public & raw & p & b & Hcs & Hpub & Hpack & Hunp & -> & H). cbv zeta in H.
  apply add_Ok in H. apply add_row_Ok in H as [(_ & -> & _)|(_ & Hnew & _ & ->)]; [by apply grows_same|].
  set (m := new_message _ raw true). apply (grows_put_new _ _ m); [done| |done].
  split; [done|]. split; [|done]. cbn [m new_message m_outgoing]. split.
  - exists raw, public, p. split_and!; [done|by eapply pack_bytes|done|done].
  - intros target Ht. destruct (unpack_packed_inv _ _ _ _ _ _ _ _ Hpack Hunp) as (_ & _ & Hf). change (m_kind m) with (p_extra p) in Ht.
    rewrite Ht in Hf. by apply Hx in Hf.
Qed.

(** Packed bytes in a row with the same signed part. *)
Definition carries (m : message) (raw : bytes) : Prop := ∃ raw', m_packed m = tohex raw' ∧ all_bytes raw' ∧ same_signed raw raw'.

(** What may be brought to an account: anything, from anyone, at any time, but
    - the holder of [other]'s key signs what [other] has queued, and nobody else
      holds a key of that address;
    - a message of the history with the same identifier, the hash of what is
      signed, has the same signed part. *)
Definition genuine (c other : chat) (st sto : store) (raw : bytes) : Prop :=
  all_bytes raw
  ∧ (∀ public, destination_hash public = ch_address other → signed_by public raw →
       ∃ k m, dget k (st_messages sto) = Some m ∧ m_outgoing m = true ∧ carries m raw)
  ∧ ∀ m, dget (message_id raw) (st_messages st) = Some m → carries m raw.

Lemma sent_row_reads c m raw : sent_row c m → carries m raw →
  ∃ public p raw', m_packed m = tohex raw' ∧ all_bytes raw' ∧ same_signed raw raw' ∧ unpack raw' public [(ch_address c, ch_public c)] = Ok p
    ∧ m_parsed m = with_peer (m_peer m) p.
Proof.
  intros (raw1 & public & p & E1 & B1 & U & Em) (raw2 & E2 & B2 & Hs). assert (raw2 = raw1) as -> by (apply tohex_inj; congruence).
  exists public, p, raw1. done.
Qed.
Lemma sent_source c public raw p : unpack raw public [(ch_address c, ch_public c)] = Ok p → slice 16 32 raw = ch_address c.
Proof. intros (pub & Hd & Ha & _)%unpack_authentic. cbn [dget] in Hd. case_decide; [congruence|done]. Qed.

Lemma bytes_slice i j raw : all_bytes raw → all_bytes (slice i j raw).
Proof. unfold slice. intros H. by apply Forall_take, Forall_drop. Qed.

(** A message brought from [other] is one it queued. *)
Lemma genuine_from c other st sto raw r known p : account_ok other c sto st → genuine c other st sto raw → unpack raw r known = Ok p →
  p_peer p = tohex (ch_address other) →
  ∃ mo public p', dget (p_id p) (st_messages sto) = Some mo ∧ m_outgoing mo = true ∧ m_parsed mo = with_peer (m_peer mo) p'
    ∧ p = p' ∧ receipt_row other sto mo ∧ ∃ raw', m_packed mo = tohex raw' ∧ all_bytes raw' ∧ same_signed raw raw' ∧ unpack raw' public [(ch_address other, ch_public other)] = Ok p'.
Proof.
  intros Ho (Hb & Hg & _) Hu Hp. destruct (unpack_authentic _ _ _ _ Hu) as (public & _ & Ha & Hs & _ & Hpe & _).
  assert (slice 16 32 raw = ch_address other) as Es.
  { apply tohex_inj; [by apply bytes_slice|apply destination_bytes|congruence]. }
  destruct (Hg public) as (k & mo & Hk & Hout & Hc); [congruence|done|]. destruct (Ho _ _ Hk) as [(Hid & Hgo & _) _]. rewrite Hout in Hgo.
  destruct Hgo as [Hsent Hrec]. destruct (sent_row_reads _ _ _ Hsent Hc) as (public' & p' & raw' & E1 & E2 & E3 & U & Em).
  pose proof (unpack_same _ _ _ _ _ _ _ _ Hu U E3) as ->. assert (k = p_id p') as ->.
  { rewrite <- Hid. unfold m_id. by rewrite Em. }
  exists mo, public', p'. split_and!; try done. by exists raw'.
Qed.

(** [receive] when it returns. *)
Lemma receive_Ok c raw ts now st b st' : receive c raw ts now st = (Ok b, st') →
  ∃ known p, unpack raw (ch_public c) known = Ok p ∧
  ((∃ target, p_extra p = XStored target ∧ accept_stored_receipt (p_peer p) target st = (Ok b, st'))
   ∨ commit_received p raw (if ch_durable c then Some (make_receipt c known p ts) else None) now st = (Ok b, st')
   ∨ add (Draft p None) raw false st = (Ok b, st')).
Proof.
  unfold receive. intros Hr.
  apply M_bind_Ok in Hr as (ps & st1 & Hps & Hr). injection Hps as Hps <-. apply M_bind_Ok in Hr as (cs & st1 & Hcs & Hr). injection Hcs as Hcs <-.
  apply M_bind_Ok in Hr as (p & st1 & [= Hp <-] & Hr). exists (merged cs ps), p. split; [done|]. revert Hr. set (rest := (st ← get_state; _)).
  assert (rest st = (Ok b, st') → commit_received p raw (if ch_durable c then Some (make_receipt c (merged cs ps) p ts) else None) now st = (Ok b, st')
    ∨ add (Draft p None) raw false st = (Ok b, st')) as Hrest.
  { intros Hr. unfold rest in Hr. apply M_bind_Ok in Hr as (st1 & st2 & [= <- <-] & Hr). apply M_bind_Ok in Hr as (u & st2 & Hchk & Hr).
    assert (st2 = st) as ->.
    { destruct (p_extra p); unfold contacts, mbind, M_bind, lift, get_state in Hchk; repeat case_match; by simplify_eq. }
    destruct (ch_durable c || _); [by left|by right]. }
  destruct (p_extra p) as [| |target| |]; try (intros Hr; right; by apply Hrest). intros Hr. left. by exists target.
Qed.

Lemma make_receipt_Ok c known p ts d packed : make_receipt c known p ts = Ok (d, packed) →
  ∃ peer public value, fromhex (p_peer p) = Some peer ∧ dget peer known = Some public
    ∧ pack (ch_identity c) public [] (receipt_fields (p_id p)) ts = Ok packed
    ∧ unpack packed public [(ch_address c, ch_public c)] = Ok value ∧ d = Draft (with_peer (p_peer p) value) None.
Proof. unfold make_receipt. intros H. repeat inv_ok1. change (fields_for (XStored (p_id p))) with (Ok (A := list (pyval * pyval)) (receipt_fields (p_id p))) in *. simplify_eq. eexists _, _, _. split_and!; try done. Qed.

(** The row a message is filed under, once it was received. *)
Lemma received_row c other st sto raw known p S st' : account_ok c other st sto → genuine c other st sto raw → unpack raw (ch_public c) known = Ok p →
  grows (λ k m, m_id m = k ∧ (k = p_id p → core m = (p, tohex raw, false))) S st st' → is_Some (dget (p_id p) (st_messages st')) →
  ∃ mi, dget (p_id p) (st_messages st') = Some mi
    ∧ (slice 16 32 raw = ch_address c ∨ m_outgoing mi = false ∧ m_peer mi = tohex (slice 16 32 raw)).
Proof.
  intros Hc (Hb & _ & Hsame) Hu G [mi Hmi]. exists mi. split; [done|]. pose proof (unpack_parts _ _ _ _ Hu) as (Ei & Ep & _).
  destruct (dget (p_id p) (st_messages st)) as [m|] eqn:Em.
  - destruct (gr_old _ _ _ _ G _ _ Em) as (m' & Hm' & (C1 & _ & C3)%core_parsed & _). rewrite Hmi in Hm'. injection Hm' as <-.
    unfold m_peer. rewrite C1, C3. assert (carries m raw) as Hca by (apply Hsame; congruence). destruct (Hc _ _ Em) as [(_ & Hg & _) _].
    destruct (m_outgoing m) eqn:Eo; [left|right].
    + destruct (sent_row_reads _ _ _ (proj1 Hg) Hca) as (public & p' & raw' & _ & _ & Hs & U & _). apply same_signed_parts in Hs as (_ & -> & _).
      by eapply sent_source.
    + destruct Hg as (raw1 & known1 & E1 & B1 & U), Hca as (raw2 & E2 & B2 & Hs). assert (raw2 = raw1) as -> by (apply tohex_inj; congruence).
      split; [done|]. by rewrite <- (unpack_same _ _ _ _ _ _ _ _ Hu U Hs), Ep.
  - destruct (gr_new _ _ _ _ G _ _ Hmi Em) as [[_ Hcore] _]. right. specialize (Hcore eq_refl). injection Hcore as E1 _ E3.
    unfold m_peer. by rewrite E1, E3, Ep.
Qed.

(** The row of a message that was just received. *)
Lemma taken_good c other st sto st' raw known p : account_ok other c sto st → genuine c other st sto raw → unpack raw (ch_public c) known = Ok p →
  good_row c other st' sto (p_id p) (new_message (Draft p None) raw false).
Proof.
  intros Ho Hg Hu. split; [done|]. split; [cbn [new_message m_outgoing]; exists raw, known; by split_and!; [|apply Hg|]|].
  intros _ Hp. change (p_peer p = tohex (ch_address other)) in Hp.
  destruct (genuine_from _ _ _ _ _ _ _ _ Ho Hg Hu Hp) as (mo & public & p' & Hmo & Hout & Em & <- & _). exists mo. split_and!; try done.
  change (p = with_peer (tohex (ch_address other)) (m_parsed mo)). rewrite Em, <- Hp. by destruct p.
Qed.

(** The row of a receipt that was just signed. *)
Lemma receipt_good c other st sto st' raw known p ts d packed : account_ok c other st sto → genuine c other st sto raw → unpack raw (ch_public c) known = Ok p →
  make_receipt c known p ts = Ok (d, packed) →
  (∃ mi, dget (p_id p) (st_messages st') = Some mi ∧ (slice 16 32 raw = ch_address c ∨ m_outgoing mi = false ∧ m_peer mi = tohex (slice 16 32 raw))) →
  good_row c other st' sto (p_id (d_parsed d)) (new_message d packed true).
Proof.
  intros Hc Hg Hu Hm (mi & Hmi & Hor). apply make_receipt_Ok in Hm as (peer & public & value & Hpe & Hpub & Hpack & Hv & ->).
  assert (all_bytes packed) as Hb by (by eapply pack_bytes).
  split; [done|]. split; [|done]. cbn [new_message m_outgoing]. split; [by exists packed, public, value|].
  intros target Ht. change (p_extra value = XStored target) in Ht.
  assert (slice 0 16 packed = slice 16 32 raw) as Es.
  { destruct (unpack_authentic _ _ _ _ Hv) as (_ & _ & _ & _ & -> & _). destruct (unpack_authentic _ _ _ _ Hu) as (pub2 & Hd & Ha & _ & _ & Hpp & _).
    rewrite Hpp, fromhex_tohex in Hpe by (apply bytes_slice, Hg). injection Hpe as <-. rewrite Hd in Hpub. by injection Hpub as <-. }
  destruct (unpack_packed_inv _ _ _ _ _ _ _ _ Hpack Hv) as (_ & _ & Hf).
  assert (parse_fields (receipt_fields (p_id p)) [] = Ok (XStored (p_id p))) as Hpf.
  { apply (parse_fields_for (XStored (p_id p))); [|done]. split; [|done]. rewrite (proj1 (unpack_parts _ _ _ _ Hu)). apply message_id_hex. }
  rewrite Hf, Ht in Hpf. injection Hpf as ->. exists packed, mi. rewrite Es. by split_and!.
Qed.

(** Taking a message in. *)
Lemma receive_grows c other st sto raw ts now r st' : ch_address c ≠ ch_address other → account_ok c other st sto → account_ok other c sto st →
  genuine c other st sto raw → receive c raw ts now st = (r, st') → grows (good_row c other st' sto) (stored_by c other sto) st st'.
Proof.
  intros Hne Hc Ho Hg H. destruct r as [b|e]; [|by apply receive_raise in H as ->; apply grows_same].
  pose proof (account_named _ _ _ _ Hc) as Hn.
  apply receive_Ok in H as (known & p & Hu & [(target & Hx & H)|[H|H]]).
  - apply accept_stored_receipt_Ok in H as (m & Hm & Hout & Hpe & _ & _ & ->).
    assert (m_id m = target) as Hid by (by apply Hn). subst target.
    apply (grows_put_old _ _ m (with_status SRecipientStored None m)); [done|]. split; [done|]. intros _. right. intros _ Hp.
    change (m_peer m = tohex (ch_address other)) in Hp. rewrite Hpe in Hp.
    destruct (genuine_from _ _ _ _ _ _ _ _ Ho Hg Hu Hp) as (mo & public & p' & _ & _ & Em & <- & Hrec & raw' & E1 & B1 & Hs & Hu').
    destruct (Hrec (m_id m)) as (raw2 & mi & E2 & B2 & Hmi & Hor); [unfold m_kind; rewrite Em; exact Hx|].
    assert (raw2 = raw') as -> by (apply tohex_inj; congruence).
    assert (slice 0 16 raw' = ch_address c) as Ed.
    { rewrite <- (proj1 (same_signed_parts _ _ Hs)). by destruct (unpack_authentic _ _ _ _ Hu) as (_ & _ & _ & _ & -> & _). }
    rewrite Ed in Hor. destruct Hor as [?|[Hin Hpi]]; [done|]. destruct (Ho _ _ Hmi) as [(_ & _ & Hf) _].
    destruct (Hf Hin Hpi) as (mo' & Hmo' & _ & Epa). assert (mo' = m) as -> by (change (m_id (with_status _ _ m)) with (m_id m) in *; congruence).
    exists mi. done.
  - assert (∃ mi, dget (p_id p) (st_messages st') = Some mi
      ∧ (slice 16 32 raw = ch_address c ∨ m_outgoing mi = false ∧ m_peer mi = tohex (slice 16 32 raw))) as Hmi.
    { edestruct (commit_received_grows (λ k m, m_id m = k ∧ (k = p_id p → core m = (p, tohex raw, false))) nothing) as [G Hrow];
        [| | |exact Hn|exact H| | |by eapply received_row].
      - intros k m m' E [H1 H2]. by rewrite (core_id _ _ E), E.
      - by intros k m m' _ [].
      - by intros k m [? _].
      - done.
      - intros d packed _ Hd. done. }
    eapply proj1, commit_received_grows; [apply by_core_good|apply by_core_stored|by intros k m [? _]|exact Hn|exact H| |].
    + intros _. by eapply taken_good.
    + intros d packed Hf _. destruct (ch_durable c); [|done]. injection Hf as Hf. by eapply receipt_good.
  - apply add_Ok, add_row_Ok in H as [(_ & -> & _)|(_ & Hnew & _ & ->)]; [by apply grows_same|]. cbn [d_parsed] in Hnew.
    eapply grows_trans; [apply by_core_good|apply by_core_stored|apply (grows_same _ _ st (edit_marks_unread st p)), edit_marks_unread_messages|].
    apply (grows_put_new _ _ (new_message (Draft p None) raw false)); [by rewrite edit_marks_unread_messages| |done]. by eapply taken_good.
Qed.

(** ** The conversation *)

(** What an account does: queue, take in whatever is brought to it, send and
    learn of an attempt's end, and everything else its store offers, a restart
    included. *)
Inductive action : Type :=
  | DoQueue (recipient : bytes) (text : pystr) (fields : list (pyval * pyval)) (ts : pyval) (now : Z)
  | DoReceive (raw : bytes) (ts : pyval) (now : Z)
  | DoSend (id uuid : pystr) (via_relay node : bool) (outbound : bytes → result ()) (now : Z)
  | DoCompleted (via_relay : bool) (state : lxm_state) (id token : pystr) (now : Z)
  | DoFailed (id token : pystr) (now : Z)
  | DoStore (o : op).

Definition act (c : chat) (x : action) (st : store) : store :=
  match x with
  | DoQueue recipient text fields ts now => (queue c recipient text fields ts now st).2
  | DoReceive raw ts now => (receive c raw ts now st).2
  | DoSend id uuid via_relay node outbound now => (send c id uuid via_relay node outbound now st).2
  | DoCompleted via_relay state id token now => (completed via_relay state id token now st).2
  | DoFailed id token now => (failed id token now st).2
  | DoStore o => run o st
  end.

(** Nobody queues a receipt by hand: [receive] signs them.  What is brought is
    [genuine]. *)
Definition act_ok (c other : chat) (st sto : store) (x : action) : Prop :=
  match x with
  | DoQueue recipient text fields ts now => ∀ target, parse_fields fields text ≠ Ok (XStored target)
  | DoReceive raw ts now => genuine c other st sto raw
  | DoStore o => housekeeping o = true
  | _ => True
  end.

Inductive conv_step (a b : chat) : store * store → store * store → Prop :=
  | step_first x s t : act_ok a b s t x → conv_step a b (s, t) (act a x s, t)
  | step_second x s t : act_ok b a t s x → conv_step a b (s, t) (s, act b x t).

Lemma keeps_history_lift {A} (r : result A) : keeps_history (lift r).
Proof. by apply keeps_history_same. Qed.
Lemma keeps_history_failed id token now : keeps_history (failed id token now).
Proof. apply keeps_history_bind; [apply keeps_history_finish|]. intros _. by apply keeps_history_same. Qed.
Lemma repack_state c raw st : (repack c raw st).2 = st.
Proof.
  unfold repack, contacts. cbv [mbind M_bind get_state lift mret M_ret].
  repeat match goal with |- context [match ?r with Ok _ => _ | Raise _ => _ end] => destruct r; [|done] end. done.
Qed.
Lemma keeps_history_send c id uuid via_relay node outbound now : keeps_history (send c id uuid via_relay node outbound now).
Proof.
  unfold send. apply keeps_history_bind; [apply keeps_history_lift|]. intros _. apply keeps_history_bind; [apply keeps_history_begin|].
  intros [token raw]. apply keeps_history_try.
  - apply keeps_history_bind; [apply keeps_history_same; intros st; by rewrite repack_state|]. intros packed.
    apply keeps_history_bind; [apply keeps_history_lift|]. intros _. by apply keeps_history_same.
  - intros e. apply keeps_history_bind; [apply keeps_history_failed|]. intros _. by apply keeps_history_same.
Qed.

Lemma act_grows a b s t x : ch_address a ≠ ch_address b → account_ok a b s t → account_ok b a t s → act_ok a b s t x →
  grows (good_row a b (act a x s) t) (stored_by a b t) s (act a x s).
Proof.
  intros Hne Ha Hb Hx. pose proof (account_named _ _ _ _ Ha) as Hn.
  assert (∀ A (m : M store A), keeps_history m → ∀ N S, grows N S s (m s).2) as Hk by (intros A m Hm N S; by eapply grows_weaken, Hm).
  destruct x; cbn [act act_ok] in *.
  - by eapply queue_grows; [exact Hx|apply surjective_pairing].
  - by eapply receive_grows; [..|apply surjective_pairing].
  - by apply Hk, keeps_history_send.
  - apply Hk. unfold completed. destruct (_ || _); [|by apply keeps_history_same].
    apply keeps_history_bind; [apply keeps_history_finish|]. intros _. by apply keeps_history_same.
  - by apply Hk, keeps_history_failed.
  - by eapply grows_weaken, housekeeping_history.
Qed.

Lemma conv_step_ok a b s t s' t' : ch_address a ≠ ch_address b → conv_step a b (s, t) (s', t') →
  account_ok a b s t ∧ account_ok b a t s → account_ok a b s' t' ∧ account_ok b a t' s'.
Proof.
  intros Hne H [Ha Hb]. inversion H as [x s0 t0 Hx|x s0 t0 Hx]; subst.
  - pose proof (act_grows a b s t' x Hne Ha Hb Hx) as G. split; [by eapply account_moves|by eapply account_waits].
  - pose proof (act_grows b a t s' x (not_eq_sym Hne) Hb Ha Hx) as G. split; [by eapply account_waits|by eapply account_moves].
Qed.

Lemma conv_steps_ok a b y y' : ch_address a ≠ ch_address b → rtc (conv_step a b) y y' →
  account_ok a b y.1 y.2 ∧ account_ok b a y.2 y.1 → account_ok a b y'.1 y'.2 ∧ account_ok b a y'.2 y'.1.
Proof.
  intros Hne. induction 1 as [|[s t] [s' t'] y2 H _ IH]; [done|]. intros Hok. apply IH. by eapply conv_step_ok.
Qed.

(** C1: Receipts tell the truth and nothing is made up.  Let two accounts run
    in any interleaving: each queues, sends, retries, fails, restarts, and takes
    in whatever is brought to it, late, twice, altered, by anyone or not at all.
    What is brought is [genuine]: only the holder of a key signs for its address,
    and an identifier is not shared by different signed messages.
    A message that the one shows as stored by the other is in the other's history
    under its identifier, from the one, with its text, time and contents; and
    whatever the other holds as received from the one is such a message, which
    the one queued. *)
Theorem receipts_true a b ea eb s t :
  ch_address a ≠ ch_address b → rtc (conv_step a b) (new_store ea, new_store eb) (s, t) →
  (∀ k m, dget k (st_messages s) = Some m → m_outgoing m = true → m_peer m = tohex (ch_address b) → m_status m = SRecipientStored →
     ∃ mi, dget k (st_messages t) = Some mi ∧ m_outgoing mi = false ∧ m_parsed mi = with_peer (tohex (ch_address a)) (m_parsed m)) ∧
  (∀ k mi, dget k (st_messages t) = Some mi → m_outgoing mi = false → m_peer mi = tohex (ch_address a) →
     ∃ m, dget k (st_messages s) = Some m ∧ m_outgoing m = true ∧ m_parsed mi = with_peer (tohex (ch_address a)) (m_parsed m)).
Proof.
  intros Hne H. destruct (conv_steps_ok a b _ _ Hne H) as [Ha Hb]; [by split|]. cbn [fst snd] in Ha, Hb.
  split.
  - intros k m Hk Ho Hp Hs. destruct (Ha _ _ Hk) as [_ Hst]. by apply Hst.
  - intros k mi Hk Ho Hp. destruct (Hb _ _ Hk) as [(_ & _ & Hf) _]. by apply Hf.
Qed.
End ChatSpec.
