(* ===== verification/Mailbox.v ===== *)
(** The mailbox exchange (messenger/mailbox.py) and its socket routes
    (messenger/routed.py).

    The network is a script: what each wait, link and request meets, the clock
    readings and the random octets, consumed in order; every behaviour of the
    network is some script, and an exhausted one is a timeout.  A ghost log
    records every request with the store at the moment it is sent. *)
From Stdlib Require Import ZArith Lia.
From S2P Require Import Prelude PyData Json Notices Rns Codec Subscription Store Chat.

Local Open Scope Z_scope.

(** What a request meets: an answer, no receipt, a failure or a closed link, or
    the end of the wait with its code. *)
Inductive link_reply : Type :=
  | Answer (v : pyval)
  | NoReceipt
  | LinkFailed
  | Waited (code : string).

Inductive wire_path : Type := WirePut | WireGet.

Record world := World {
  (** the waits that only look at the deadline and the cancellation *)
  w_polls : list (option string);
  (** the attempts to open a route and to establish a link *)
  w_routes : list (result ());
  w_links : list (option string);
  w_replies : list link_reply;
  (** timestamps and clock readings *)
  w_clock : list (pyval * Z);
  (** ephemeral keys and identifiers *)
  w_seeds : list (bytes * pystr);
  w_log : list (wire_path * pyval * store);
}.

(** A [Mailbox]: the store of its chat, its [_busy] lock and the network. *)
Record box := Box { bx_store : store; bx_busy : bool; bx_world : world }.

Definition set_polls x w := World x (w_routes w) (w_links w) (w_replies w) (w_clock w) (w_seeds w) (w_log w).
Definition set_routes x w := World (w_polls w) x (w_links w) (w_replies w) (w_clock w) (w_seeds w) (w_log w).
Definition set_links x w := World (w_polls w) (w_routes w) x (w_replies w) (w_clock w) (w_seeds w) (w_log w).
Definition set_replies x w := World (w_polls w) (w_routes w) (w_links w) x (w_clock w) (w_seeds w) (w_log w).
Definition set_clock x w := World (w_polls w) (w_routes w) (w_links w) (w_replies w) x (w_seeds w) (w_log w).
Definition set_seeds x w := World (w_polls w) (w_routes w) (w_links w) (w_replies w) (w_clock w) x (w_log w).
Definition set_log x w := World (w_polls w) (w_routes w) (w_links w) (w_replies w) (w_clock w) (w_seeds w) x.

(** Consume the head of a stream. *)
Definition pop {A} (get : world → list A) (set : list A → world → world) (empty : A) : M box A :=
  λ b, match get (bx_world b) with
       | [] => (Ok empty, b)
       | x :: xs => (Ok x, Box (bx_store b) (bx_busy b) (set xs (bx_world b)))
       end.

Definition on_store {A} (m : M store A) : M box A := λ b,
  let '(res, st) := m (bx_store b) in (res, Box st (bx_busy b) (bx_world b)).

(** [_wait(lambda: True, deadline, cancel)] *)
Definition wait : M box () :=
  code ← pop w_polls set_polls (Some "timeout"%string);
  match code with None => mret () | Some c => raise (MailboxError c) end.

Definition read_clock : M box (pyval * Z) := pop w_clock set_clock (PInt 0, 0).
Definition read_seed : M box (bytes * pystr) := pop w_seeds set_seeds ([], []).

Section Mailbox.
Context {LX : Lxmf} {RN : Rns} (ERROR_NO_ACCESS : Z).

(** [_request(link, data, deadline, cancel, path=...)] *)
Definition send_request (p : wire_path) (data : pyval) : M box (list pyval) :=
  wait;;
  modify (λ b, Box (bx_store b) (bx_busy b)
                 (set_log (w_log (bx_world b) ++ [(p, data, bx_store b)]) (bx_world b)));;
  reply ← pop w_replies set_replies (Waited "timeout");
  match reply with
  | NoReceipt | LinkFailed => raise (MailboxError "request_failed")
  | Waited code => raise (MailboxError code)
  | Answer (PList l) => mret l
  | Answer v =>
      raise (MailboxError (if key_is_Z ERROR_NO_ACCESS v then "access_denied" else "invalid_response"))
  end.

(** [_connection(timeout, cancel)] around a body: the lock, the link and its
    release on every way out. *)
Definition connection {A} (timeout : pyval) (body : M box A) : M box A :=
  lift (require (is_number timeout && num_gtb_Z timeout 0 && num_leb_Z timeout 30)
          (ValueError "Mailbox timeout must be within (0,30] seconds"));;
  b ← get_state;
  if bx_busy b then raise (MailboxError "busy")
  else
    put_state (Box (bx_store b) true (bx_world b));;
    tryM (wait;;
          code ← pop w_links set_links (Some "timeout"%string);
          match code with Some c => raise (MailboxError c) | None => mret () end;;
          a ← body;
          modify (λ b, Box (bx_store b) false (bx_world b));;
          mret a)
      (λ e, modify (λ b, Box (bx_store b) false (bx_world b));; raise e).

(** ** Receiving *)

Record sync_result := SyncResult { stored : Z; duplicates : Z; rejected : Z; purged : Z }.

(** The loop variables of the batch. *)
Record tally := Tally { t_stored : Z; t_duplicates : Z; t_rejected : Z; t_haves : list bytes }.

Definition reject (t : tally) : tally :=
  Tally (t_stored t) (t_duplicates t) (t_rejected t + 1) (t_haves t).

Definition accept_blob (added : bool) (transient : bytes) (t : tally) : tally :=
  Tally (t_stored t + Z.b2z added) (t_duplicates t + Z.b2z (negb added)) (t_rejected t)
    (t_haves t ++ [transient]).

(** One iteration over the fetched messages. *)
Definition sync_one (c : chat) (wanted : list bytes) (t : tally) (v : pyval) : M box tally :=
  wait;;
  blob ← lift (match v with
               | PBytes blob =>
                   require ((16 <? zlen blob) && (zlen blob <=? MAX_PACKED + 256))
                     (MailboxError "invalid_ciphertext");;
                   Ok blob
               | _ => Raise (MailboxError "invalid_ciphertext")
               end);
  let transient := full_hash blob in
  lift (require (bool_decide (transient ∈ wanted) && negb (bool_decide (transient ∈ t_haves t)))
          (MailboxError "unexpected_message"));;
  if negb (bool_decide (take 16 blob = ch_address c)) then mret (reject t)
  else
    match decrypt (ch_identity c) (drop 16 blob) with
    | None => mret (reject t)
    | Some plaintext =>
        '(ts, now) ← read_clock;
        tryM (added ← on_store (receive c (take 16 blob ++ plaintext) ts now);
              mret (accept_blob added transient t))
          (λ e, if is_ValueError e then mret (reject t) else raise e)
    end.

Fixpoint sync_loop (c : chat) (wanted : list bytes) (t : tally) (vs : list pyval) : M box tally :=
  match vs with
  | [] => mret t
  | v :: vs => t ← sync_one c wanted t v; sync_loop c wanted t vs
  end.

Definition message_ids (l : list pyval) : result (list bytes) :=
  ids ← of_option (MailboxError "invalid_list") (mapM as_bytes l);
  require ((zlen l <=? 1000) && forallb (λ i, zlen i =? 32) ids) (MailboxError "invalid_list");;
  Ok ids.

(** [list(dict.fromkeys(ids))] *)
Definition distinct (ids : list bytes) : list bytes := dkeys (dict_of ((λ i, (i, ())) <$> ids)).

(** [_sync_connected(link, deadline, cancel, delete_after_store=...)] *)
Definition sync_connected (c : chat) (delete_after_store : bool) : M box (sync_result * bool) :=
  l ← send_request WireGet (PList [PNone; PNone]);
  available ← lift (message_ids l);
  let wanted := take 10 (distinct available) in
  match wanted with
  | [] => mret (SyncResult 0 0 0 0, false)
  | _ =>
      vs ← send_request WireGet (PList [PList (PBytes <$> wanted); PList []; PInt 192]);
      lift (raise_if (zlen wanted <? zlen vs) (MailboxError "invalid_batch"));;
      t ← sync_loop c wanted (Tally 0 0 0 []) vs;
      (match t_haves t with
       | [] => mret ()
       | haves =>
           if delete_after_store then
             r ← send_request WireGet (PList [PNone; PList (PBytes <$> haves)]);
             match r with [] => mret () | _ => raise (MailboxError "invalid_purge_response") end
           else mret ()
       end);;
      let p := if delete_after_store then zlen (t_haves t) else 0 in
      mret (SyncResult (t_stored t) (t_duplicates t) (t_rejected t) p,
            (0 <? p) && (p <? zlen available))
  end.

(** [sync(delete_after_store=..., timeout=...)] *)
Definition sync (c : chat) (delete_after_store : bool) (timeout : pyval) : M box sync_result :=
  connection timeout (r ← sync_connected c delete_after_store; mret r.1).

(** ** Publishing *)

(** The code of an answer that is not the expected acknowledgement. *)
Definition refusal (response : list pyval) : string :=
  match response with
  | PStr s :: _ =>
      if str_eqb s (py "full") then "full"
      else if str_eqb s (py "rate_limited") then "rate_limited"
      else if str_eqb s (py "rejected") then "rejected"
      else if str_eqb s (py "unavailable") then "unavailable"
      else "invalid_response"
  | _ => "invalid_response"
  end.

(** [response == ['stored', full_hash(blob)]] *)
Definition acknowledged (response : list pyval) (blob : bytes) : bool :=
  match response with
  | [PStr s; PBytes h] => str_eqb s (py "stored") && bool_decide (h = full_hash blob)
  | _ => false
  end.

(** The [try] block of [_publish_connected]. *)
Definition publish_body (c : chat) (message_id token : pystr) (raw : bytes) : M box () :=
  let recipient := take 16 raw in
  cs ← on_store delivery_contacts;
  public ← lift (of_option KeyError (dget recipient cs));
  lift (unpack raw public [(ch_address c, ch_public c)]);;
  '(seed, _) ← read_seed;
  blob ← on_store (relay_blob message_id
           (key ← identity_of public; Ok (recipient ++ encrypt key seed (drop 16 raw))));
  response ← send_request WirePut (PBytes blob);
  lift (require (acknowledged response blob) (MailboxError (refusal response)));;
  '(_, now) ← read_clock;
  on_store (finish_attempt message_id token false true now);;
  mret ().

(** [_publish_connected(message_id, link, deadline, cancel)] *)
Definition publish_connected (c : chat) (message_id : pystr) : M box () :=
  '(_, uuid) ← read_seed;
  '(token, raw) ← on_store (begin_attempt message_id uuid);
  tryM (publish_body c message_id token raw)
    (λ e, '(_, now) ← read_clock;
          on_store (finish_attempt message_id token false false now);;
          raise e).

Fixpoint publish_each (c : chat) (ids : list pystr) : M box () :=
  match ids with
  | [] => mret ()
  | id :: ids => wait;; publish_connected c id;; publish_each c ids
  end.

(** [publish_many(message_ids, timeout=...)] *)
Definition publish_many (c : chat) (ids : list pystr) (timeout : pyval) : M box () :=
  lift (require ((1 <=? zlen ids) && (zlen ids <=? 4) && bool_decide (NoDup ids))
          (ValueError "Expected one to four distinct message IDs"));;
  connection timeout (publish_each c ids).

Definition publish (c : chat) (id : pystr) (timeout : pyval) : M box () :=
  publish_many c [id] timeout.

Record exchange_result := ExchangeResult {
  received : sync_result;
  relayed : Z;
  outbox_pending : Z;
  more_incoming : bool;
}.

(** The property [more]. *)
Definition more (r : exchange_result) : bool := (0 <? outbox_pending r) || more_incoming r.

(** [exchange(timeout=...)]: receive up to ten messages, relay up to four. *)
Definition exchange (c : chat) (timeout : pyval) : M box exchange_result :=
  connection timeout (
    '(received, more) ← sync_connected c true;
    '(_, now) ← read_clock;
    ids ← on_store (pending_outbox now);
    let ids := take 4 ids in
    publish_each c ids;;
    '(_, now) ← read_clock;
    pending ← on_store (pending_outbox now);
    mret (ExchangeResult received (zlen ids) (zlen pending) more)).

(** ** Socket routes *)

Definition ROUTES : list string := ["DIRECT"; "EXISTING_EXIT"; "SERVICE_ONLY"]%string.

(** [order.index(name)] *)
Definition route_index (name : string) : option nat :=
  fst <$> list_find (λ n, n = name) ROUTES.

Fixpoint increasing (l : list nat) : bool :=
  match l with
  | x :: (y :: _) as rest => (x <? y)%nat && increasing rest
  | _ => true
  end.

(** The route set [RoutedMailbox.__init__] accepts. *)
Definition valid_routes (names : list string) : bool :=
  (1 <=? zlen names) && (zlen names <=? 3)
  && match mapM route_index names with Some idx => increasing idx | None => false end.

Definition transient_code (e : exn) : bool :=
  match e with
  | MailboxError code =>
      existsb (String.eqb code) ["unavailable"; "link_failed"; "timeout"; "request_failed"]%string
  | _ => false
  end.

(** What opening the socket of a route raises: an [ssl.SSLError] is modelled by
    [RuntimeError], any other [OSError] by itself. *)
Definition open_route : M box () :=
  r ← pop w_routes set_routes (Raise OSError);
  match r with
  | Ok _ => mret ()
  | Raise (RuntimeError _) => raise (MailboxError "access_denied")
  | Raise OSError => raise (MailboxError "unavailable")
  | Raise e => raise e
  end.

(** The exchange over one selected route; [session_free] is whether the session
    lock could be taken. *)
Definition exchange_route (c : chat) (session_free : bool) (budget : pyval) :
    M box exchange_result :=
  wait;;
  open_route;;
  if session_free then wait;; exchange c budget
  else raise (MailboxError "busy").

(** [RoutedMailbox.exchange]: the routes in order, each tried at most once,
    only transient failures advancing; with the routes attempted. *)
Fixpoint try_routes (c : chat) (session_free : bool) (budget : pyval) (attempted : list string)
    (routes : list string) : M box (exchange_result * list string) :=
  match routes with
  | [] => raise (MailboxError "unavailable")
  | name :: routes =>
      wait;;
      tryM (r ← exchange_route c session_free budget; mret (r, attempted ++ [name]))
        (λ e, if transient_code e then try_routes c session_free budget (attempted ++ [name]) routes
              else raise e)
  end.

Definition routed_exchange (c : chat) (timeout : pyval) (route_free session_free : bool)
    (budget : pyval) (routes : list string) : M box (exchange_result * list string) :=
  lift (require (is_number timeout && num_gtb_Z timeout 0 && num_leb_Z timeout 30)
          (ValueError "Invalid mailbox timeout"));;
  if route_free then try_routes c session_free budget [] routes
  else raise (MailboxError "busy").
End Mailbox.
