(* ===== verification/MailboxSpec.v ===== *)
(** Safety of the mailbox exchange: nothing is deleted on the node before the
    store committed it, a publication never leaves its message in flight, and
    the traffic of an exchange is bounded. *)
From Stdlib Require Import ZArith Lia.
From stdpp Require Import relations.
From S2P Require Import Prelude PyData Json Notices Rns Codec Subscription Store StoreInv.
From S2P Require Import StoreDelivery StoreReceive Chat ChatSpec Mailbox.

Local Open Scope Z_scope.

(** ** Receiving keeps the history *)

(** The rows of the history stay in place. *)
Definition keeps_rows (st st' : store) : Prop :=
  dkeys (st_messages st) `prefix_of` dkeys (st_messages st').

#[export] Instance keeps_rows_preorder : PreOrder keeps_rows.
Proof. split; unfold keeps_rows; [by intros st|]. intros a b c. apply transitivity. Qed.

Lemma keeps_rows_put m st : keeps_rows st (put m st).
Proof.
  unfold keeps_rows. simpl. destruct (decide (m_id m ∈ dkeys (st_messages st))).
  - by rewrite dkeys_dset_old.
  - rewrite dkeys_dset_new by done. by eexists.
Qed.

Lemma keeps_rows_add d raw outgoing st b st' :
  _add d raw outgoing st = (Ok b, st') → keeps_rows st st'.
Proof.
  intros [(_ & -> & _)|(_ & _ & _ & ->)]%add_row_Ok; [done|].
  etransitivity; [|apply keeps_rows_put]. unfold keeps_rows.
  destruct outgoing; [done|]. by rewrite edit_marks_unread_messages.
Qed.

Lemma keeps_rows_commit p raw factory now st b st' :
  commit_received p raw factory now st = (Ok b, st') →
  keeps_rows st st' ∧ is_Some (dget (p_id p) (st_messages st')).
Proof.
  unfold commit_received. rewrite transaction_Ok. intros Hrun.
  apply M_bind_Ok in Hrun as (existing & st0 & [= <- <-] & Hrun).
  apply M_bind_Ok in Hrun as (u & st1 & Hsvc & Hrun).
  assert (st_messages st1 = st_messages st) as Hm1.
  { destruct (p_extra p); try (by injection Hsvc as <- <-). by apply commit_service_safe in Hsvc as [_ ?]. }
  apply M_bind_Ok in Hrun as (added & st2 & Ea & Hrun).
  apply M_bind_Ok in Hrun as (v & st3 & Er & [= <- <-]).
  pose proof (keeps_rows_add _ _ _ _ _ _ Ea) as Hk.
  apply add_row_lookup in Ea as [Hrow _]. apply dget_Some_key in Hrow. simpl in Hrow.
  assert (keeps_rows st2 st3) as Hk3.
  { destruct factory as [factory|]; [|by injection Er as _ <-].
    unfold commit_receipt in Er. destruct (_ ≫= m_receipt_id).
    - mrun. destruct (dget _ (st_messages st2)); [|done]. simpl in Er.
      case_decide; simplify_eq; [done|]. apply keeps_rows_put.
    - destruct factory as [[d packed]|]; [|done]. mrun.
      destruct (_add d packed true st2) as [[b'|] st4] eqn:Ea; [|done].
      destruct (dget (p_id p) (st_messages st4)) as [saved|]; [|done]. simpl in Er. simplify_eq.
      etransitivity; [by eapply keeps_rows_add|].
      apply (keeps_rows_put (with_receipt _ saved)). }
  split.
  - unfold keeps_rows in *. rewrite Hm1 in Hk. by etransitivity.
  - destruct (dget (p_id p) (st_messages st3)) eqn:Eg; [by eexists|]. apply dget_None in Eg.
    destruct Eg. eapply elem_of_prefix; [exact Hrow|exact Hk3].
Qed.

Lemma accept_stored_receipt_inv peer target st b st' :
  accept_stored_receipt peer target st = (Ok b, st') →
  ∃ m, dget target (st_messages st) = Some m ∧ m_outgoing m = true
    ∧ st' = put (with_status SRecipientStored None m) st.
Proof.
  intros Ha. apply accept_stored_receipt_Ok in Ha as (m & Hm & Ho & _ & _ & _ & ->). by exists m.
Qed.

Section MailboxSpec.
Context {LX : Lxmf} {RN : Rns} (ERROR_NO_ACCESS : Z).

(** What committing a received message between two stores means: its row is in
    the history, or, for a storage receipt, its outgoing target is settled. *)
Definition committed (st st' : store) (p : parsed) : Prop :=
  match p_extra p with
  | XStored target => ∃ m, dget target (st_messages st) = Some m ∧ m_outgoing m = true
      ∧ st' = put (with_status SRecipientStored None m) st
  | _ => is_Some (dget (p_id p) (st_messages st'))
  end.

Lemma receive_commits c raw ts now st b st' :
  receive c raw ts now st = (Ok b, st') →
  ∃ known p, unpack raw (ch_public c) known = Ok p ∧ keeps_rows st st' ∧ committed st st' p.
Proof.
  unfold receive. intros Hr.
  apply M_bind_Ok in Hr as (ps & st1 & Hps & Hr). injection Hps as Hps <-.
  apply M_bind_Ok in Hr as (cs & st1 & Hcs & Hr). injection Hcs as Hcs <-.
  apply M_bind_Ok in Hr as (p & st1 & [= Hp <-] & Hr).
  exists (merged cs ps), p. split; [done|]. unfold committed. revert Hr.
  set (rest := (st ← get_state; _)).
  assert ((∀ target, p_extra p ≠ XStored target) → rest st = (Ok b, st') →
    keeps_rows st st' ∧ is_Some (dget (p_id p) (st_messages st'))) as Hrest.
  { intros _ Hr. unfold rest in Hr.
    apply M_bind_Ok in Hr as (st1 & st2 & [= <- <-] & Hr).
    apply M_bind_Ok in Hr as (u & st2 & Hchk & Hr).
    assert (st2 = st) as ->.
    { destruct (p_extra p); unfold contacts, mbind, M_bind, lift, get_state in Hchk;
        repeat case_match; by simplify_eq. }
    destruct (ch_durable c || _); [by apply keeps_rows_commit in Hr|].
    unfold add in Hr. apply M_bind_Ok in Hr as (v & st3 & [= _ <-] & Hr).
    rewrite transaction_Ok in Hr. split; [by eapply keeps_rows_add|].
    apply add_row_lookup in Hr as [Hrow _]. simpl in Hrow. rewrite Hrow. by eexists. }
  destruct (p_extra p) as [| |target| |]; try (intros Hr; by apply Hrest).
  intros Hr. apply accept_stored_receipt_inv in Hr as (m & Hm & Ho & ->).
  split; [apply keeps_rows_put|]. by exists m.
Qed.

(** ** The script *)

Definition logged (b : box) : list (wire_path * pyval * store) := w_log (bx_world b).

(** Steps that only consume the script. *)
Definition quiet (b b' : box) : Prop :=
  bx_store b' = bx_store b ∧ bx_busy b' = bx_busy b ∧ logged b' = logged b.

Lemma pop_quiet {A} get set (empty : A) b :
  (∀ x w, w_log (set x w) = w_log w) → quiet b (pop get set empty b).2 ∧ ∃ a, (pop get set empty b).1 = Ok a.
Proof. intros Hlog. unfold pop, quiet, logged. destruct (get (bx_world b)); simpl; rewrite ?Hlog; eauto. Qed.

Lemma wait_quiet b res b' : wait b = (res, b') → quiet b b'.
Proof.
  unfold wait, mbind, M_bind. destruct (pop_quiet w_polls set_polls (Some "timeout"%string) b)
    as [Hq [a Ha]]; [done|].
  destruct (pop w_polls _ _ b) as [r b1]. simpl in *. subst r. destruct a; cbv [mret M_ret raise]; intros; by simplify_eq.
Qed.

Lemma read_clock_quiet b : quiet b (read_clock b).2 ∧ ∃ a, (read_clock b).1 = Ok a.
Proof. by apply pop_quiet. Qed.

Lemma read_seed_quiet b : quiet b (read_seed b).2 ∧ ∃ a, (read_seed b).1 = Ok a.
Proof. by apply pop_quiet. Qed.

(** A request leaves the store alone and logs at most itself. *)
Lemma send_request_spec p data b res b' :
  send_request ERROR_NO_ACCESS p data b = (res, b') →
  bx_store b' = bx_store b ∧ bx_busy b' = bx_busy b
  ∧ ∃ reqs, logged b' = logged b ++ reqs ∧ (length reqs <= 1)%nat
      ∧ ∀ q, q ∈ reqs → q = (p, data, bx_store b).
Proof.
  unfold send_request, mbind at 1, M_bind at 1.
  destruct (wait b) as [[[]|e] b1] eqn:Ew; apply wait_quiet in Ew as (Hs & Hb & Hl).
  2: { intros [= <- <-]. split; [done|]. split; [done|]. exists []. rewrite app_nil_r.
       split; [done|]. split; [simpl; lia|]. intros q Hq. by apply not_elem_of_nil in Hq. }
  cbv [mbind M_bind modify]. set (b2 := Box _ _ _).
  destruct (pop_quiet w_replies set_replies (Waited "timeout") b2) as [(Hs2 & Hb2 & Hl2) [a Ha]]; [done|].
  destruct (pop w_replies _ _ b2) as [r b3]. simpl in Ha, Hs2, Hb2, Hl2. subst r. cbv [mret M_ret raise]. intros Hrun.
  assert (b' = b3) as -> by (by repeat case_match; simplify_eq).
  split; [congruence|]. split; [congruence|]. exists [(p, data, bx_store b)].
  split; [by rewrite Hl2; unfold logged; simpl; rewrite Hs; unfold logged in Hl; rewrite Hl|].
  split; [simpl; lia|]. by intros q ->%list_elem_of_singleton.
Qed.

(** The message of a purged hash was decrypted, authenticated and committed
    before [st]. *)
Definition delivered (c : chat) (st : store) (h : bytes) : Prop :=
  ∃ blob plaintext known p st0 st1,
    h = full_hash blob ∧ take 16 blob = ch_address c
    ∧ decrypt (ch_identity c) (drop 16 blob) = Some plaintext
    ∧ unpack (take 16 blob ++ plaintext) (ch_public c) known = Ok p
    ∧ committed st0 st1 p ∧ keeps_rows st1 st.

Lemma delivered_mono c st st' h : delivered c st h → keeps_rows st st' → delivered c st' h.
Proof.
  intros (blob & pt & known & p & st0 & st1 & ? & ? & ? & ? & ? & Hk) Hst.
  exists blob, pt, known, p, st0, st1. split_and!; try done. by etransitivity.
Qed.

Lemma sync_one_spec c wanted t v b res b' :
  sync_one c wanted t v b = (res, b') →
  bx_busy b' = bx_busy b ∧ logged b' = logged b ∧ keeps_rows (bx_store b) (bx_store b')
  ∧ ∀ t', res = Ok t' → Forall (delivered c (bx_store b)) (t_haves t) →
      Forall (delivered c (bx_store b')) (t_haves t').
Proof.
  intros Hrun.
  assert (∀ b1, quiet b b1 → res = Ok (reject t) ∨ is_ok res = false → b' = b1 →
    bx_busy b' = bx_busy b ∧ logged b' = logged b ∧ keeps_rows (bx_store b) (bx_store b')
    ∧ ∀ t', res = Ok t' → Forall (delivered c (bx_store b)) (t_haves t) →
        Forall (delivered c (bx_store b')) (t_haves t')) as Hquiet.
  { intros b1 (Hs & Hb & Hl) Hres ->. rewrite Hs. split_and!; try done.
    intros t' ->. destruct Hres as [[= ->]|]; done. }
  unfold sync_one, mbind at 1, M_bind at 1 in Hrun.
  destruct (wait b) as [[[]|e] b1] eqn:Ew; apply wait_quiet in Ew as Hq;
    [|simplify_eq; apply (Hquiet b' Hq); [by right|done]].
  unfold mbind at 1, M_bind at 1, lift at 1 in Hrun.
  match type of Hrun with context [match ?r with Ok _ => _ | Raise _ => _ end] =>
    destruct r as [blob|e] eqn:Eblob end; [|simplify_eq; apply (Hquiet b' Hq); [by right|done]].
  unfold mbind at 1, M_bind at 1, lift at 1 in Hrun.
  destruct (require _ _) as [[]|e] eqn:Er;
    [|simplify_eq; apply (Hquiet b' Hq); [by right|done]].
  destruct (negb (bool_decide (take 16 blob = ch_address c))) eqn:Eaddr;
    [cbv [mret M_ret] in Hrun; simplify_eq; apply (Hquiet b' Hq); [by left|done]|].
  bools. destruct (decrypt _ _) as [pt|] eqn:Ed;
    [|cbv [mret M_ret] in Hrun; simplify_eq; apply (Hquiet b' Hq); [by left|done]].
  unfold mbind at 1, M_bind at 1 in Hrun.
  destruct (read_clock_quiet b1) as [Hq2 [[ts now] Hts]].
  destruct (read_clock b1) as [r b2]. simpl in Hq2, Hts. subst r.
  assert (quiet b b2) as Hq3.
  { destruct Hq as (?&?&?), Hq2 as (?&?&?). split_and!; congruence. }
  unfold tryM, mbind, M_bind, on_store in Hrun.
  destruct (receive c (take 16 blob ++ pt) ts now (bx_store b2)) as [[added|e] st] eqn:Erecv.
  - cbv [mret M_ret] in Hrun. simplify_eq. destruct Hq3 as (Hs & Hb & Hl).
    destruct (receive_commits _ _ _ _ _ _ _ Erecv) as (known & p & Hp & Hk & Hc).
    simpl. rewrite Hs in *. split; [done|]. split; [done|]. split; [done|].
    intros t' [= <-] Hall. simpl. apply Forall_app. split.
    + eapply Forall_impl; [exact Hall|]. intros h Hh. by eapply delivered_mono.
    + constructor; [|done]. exists blob, pt, known, p, (bx_store b), st. split_and!; done.
  - apply receive_raise in Erecv as ->.
    apply (Hquiet b2 Hq3).
    + destruct (is_ValueError e); cbv [mret M_ret raise] in Hrun; simplify_eq; [by left|by right].
    + destruct (is_ValueError e); cbv [mret M_ret raise] in Hrun; simplify_eq; by destruct b2.
Qed.

Lemma sync_loop_spec c wanted vs t b res b' :
  sync_loop c wanted t vs b = (res, b') →
  bx_busy b' = bx_busy b ∧ logged b' = logged b ∧ keeps_rows (bx_store b) (bx_store b')
  ∧ ∀ t', res = Ok t' → Forall (delivered c (bx_store b)) (t_haves t) →
      Forall (delivered c (bx_store b')) (t_haves t').
Proof.
  revert t b. induction vs as [|v vs IH]; intros t b; simpl.
  - intros [= <- <-]. split_and!; try done. by intros t' [= <-].
  - unfold mbind, M_bind. destruct (sync_one c wanted t v b) as [[t1|e] b1] eqn:E1;
      apply sync_one_spec in E1 as (Hb1 & Hl1 & Hk1 & Ht1).
    + intros H2%IH. destruct H2 as (Hb2 & Hl2 & Hk2 & Ht2). split; [congruence|]. split; [congruence|].
      split; [by etransitivity|]. intros t' Ht' Hall. apply Ht2; [done|]. by apply Ht1.
    + intros [= <- <-]. split_and!; done.
Qed.

(** ** Requests of an exchange *)

(** A purge names only messages delivered to the store it was sent from. *)
Definition safe_purge (c : chat) (q : wire_path * pyval * store) : Prop :=
  ∀ hs, q.1 = (WireGet, PList [PNone; PList hs]) → ∃ haves, hs = PBytes <$> haves ∧ Forall (delivered c q.2) haves.
(** A request that stores. *)
Definition is_put (q : wire_path * pyval * store) : Prop := q.1.1 = WirePut.

(** At most [n] requests are logged between two states, all of which satisfy [P]. *)
Definition requests (P : wire_path * pyval * store → Prop) (n : nat) (b b' : box) : Prop :=
  bx_busy b' = bx_busy b
  ∧ ∃ reqs, logged b' = logged b ++ reqs ∧ (length reqs <= n)%nat ∧ Forall P reqs.

Lemma requests_trans P n m b1 b2 b3 :
  requests P n b1 b2 → requests P m b2 b3 → requests P (n + m) b1 b3.
Proof.
  intros [Hb1 (r1 & Hl1 & Hn1 & Hp1)] [Hb2 (r2 & Hl2 & Hn2 & Hp2)]. split; [congruence|].
  exists (r1 ++ r2). split; [by rewrite Hl2, Hl1, app_assoc|].
  split; [rewrite length_app; lia|]. by apply Forall_app.
Qed.

Lemma requests_weaken P n m b b' : (n <= m)%nat → requests P n b b' → requests P m b b'.
Proof. intros Hnm [Hb (r & Hl & Hn & Hp)]. split; [done|]. exists r. split; [done|]. split; [lia|done]. Qed.

Lemma requests_none P n b b' : bx_busy b' = bx_busy b → logged b' = logged b → requests P n b b'.
Proof.
  intros Hb Hl. split; [done|]. exists []. rewrite app_nil_r. split; [done|].
  split; [simpl; lia|done].
Qed.

Lemma quiet_requests P n b b' : quiet b b' → requests P n b b'.
Proof. intros (_ & Hb & Hl). by apply requests_none. Qed.

Lemma on_store_requests {A} P (m : M store A) n b : requests P n b (on_store m b).2.
Proof. unfold on_store. destruct (m (bx_store b)). by apply requests_none. Qed.

Lemma send_requests (P : wire_path * pyval * store → Prop) p data b :
  P (p, data, bx_store b) → requests P 1 b (send_request ERROR_NO_ACCESS p data b).2.
Proof.
  intros HP. destruct (send_request _ _ _ b) as [res b'] eqn:E.
  apply send_request_spec in E as (Hs & Hb & reqs & Hl & Hn & Hall).
  split; [done|]. exists reqs. split; [done|]. split; [done|].
  apply Forall_forall. by intros q ->%Hall.
Qed.

Lemma send_store p data b :
  bx_store (send_request ERROR_NO_ACCESS p data b).2 = bx_store b.
Proof. destruct (send_request _ _ _ b) as [res b'] eqn:E. by apply send_request_spec in E as [? _]. Qed.

(** Sequencing on the box. *)
Lemma requests_bind {A B} P n m (f : M box A) (g : A → M box B) b :
  requests P n b (f b).2 →
  (∀ a, (f b).1 = Ok a → requests P m (f b).2 (g a (f b).2).2) →
  requests P (n + m) b ((f ≫= g) b).2.
Proof.
  intros Hf Hg. unfold mbind, M_bind. destruct (f b) as [[a|e] b1]; simpl in *.
  - eapply requests_trans; [done|by apply Hg].
  - eapply requests_weaken; [|done]. lia.
Qed.

Lemma requests_lift {A B} P n (r : result A) (g : A → M box B) b :
  (∀ a, r = Ok a → requests P n b (g a b).2) → requests P n b ((lift r ≫= g) b).2.
Proof.
  intros Hg. unfold mbind, M_bind, lift. destruct r as [a|e]; [by apply Hg|by apply requests_none].
Qed.

Lemma requests_ret {A} P n (a : A) b : requests P n b ((mret a : M box A) b).2.
Proof. by apply requests_none. Qed.

Lemma requests_raise {A} P n e b : requests P n b ((raise e : M box A) b).2.
Proof. by apply requests_none. Qed.

Lemma wait_requests P n b : requests P n b (wait b).2.
Proof. apply quiet_requests. destruct (wait b) eqn:E. by eapply wait_quiet. Qed.

Lemma sync_connected_requests c del b :
  requests (safe_purge c) 3 b (sync_connected ERROR_NO_ACCESS c del b).2.
Proof.
  unfold sync_connected.
  apply (requests_bind _ 1 2); [by apply send_requests; intros hs [=]|].
  generalize (send_request ERROR_NO_ACCESS WireGet (PList [PNone; PNone]) b).2. intros b1 l _.
  apply requests_lift. intros available _.
  destruct (take 10 (distinct available)) as [|w ws]; [apply requests_ret|]. set (wanted := w :: ws).
  apply (requests_bind _ 1 1); [by apply send_requests; intros hs [=]|].
  generalize (send_request ERROR_NO_ACCESS WireGet
    (PList [PList (PBytes <$> wanted); PList []; PInt 192]) b1).2. intros b2 vs _.
  apply requests_lift. intros _ _.
  destruct (sync_loop c wanted (Tally 0 0 0 []) vs b2) as [res b3] eqn:El.
  apply sync_loop_spec in El as Hloop. destruct Hloop as (Hb & Hl & _ & Hall).
  apply (requests_bind _ 0 1); rewrite El; [by apply requests_none|]. cbn [fst snd].
  intros t ->. specialize (Hall t eq_refl (Forall_nil_2 _)).
  apply (requests_bind _ 1 0); [|intros; apply requests_ret].
  destruct (t_haves t) as [|h hs] eqn:Eh; [apply requests_ret|].
  destruct del; [|apply requests_ret]. apply (requests_bind _ 1 0).
  - apply send_requests. intros hs' [= <-]. by exists (h :: hs).
  - intros r _. destruct r; [apply requests_ret|apply requests_raise].
Qed.

Lemma requests_try {A} P n m (f : M box A) (h : exn → M box A) b :
  requests P n b (f b).2 → (∀ e, requests P m (f b).2 (h e (f b).2).2) →
  requests P (n + m) b (tryM f h b).2.
Proof.
  intros Hf Hh. unfold tryM. destruct (f b) as [[a|e] b1]; simpl in *.
  - eapply requests_weaken; [|done]. lia.
  - by eapply requests_trans.
Qed.

Lemma read_clock_requests P n b : requests P n b (read_clock b).2.
Proof. apply quiet_requests, read_clock_quiet. Qed.

Lemma read_seed_requests P n b : requests P n b (read_seed b).2.
Proof. apply quiet_requests, read_seed_quiet. Qed.

Lemma publish_body_requests c id token raw b :
  requests is_put 1 b (publish_body ERROR_NO_ACCESS c id token raw b).2.
Proof.
  unfold publish_body. apply (requests_bind _ 0 1); [apply on_store_requests|]. intros cs _.
  apply requests_lift. intros public _. apply requests_lift. intros p _.
  apply (requests_bind _ 0 1); [apply read_seed_requests|]. intros [seed uuid] _.
  apply (requests_bind _ 0 1); [apply on_store_requests|]. intros blob _.
  apply (requests_bind _ 1 0); [by apply send_requests|]. intros response _.
  apply requests_lift. intros _ _.
  apply (requests_bind _ 0 0); [apply read_clock_requests|]. intros [ts now] _.
  apply (requests_bind _ 0 0); [apply on_store_requests|]. intros _ _. apply requests_ret.
Qed.

Lemma publish_requests c id b :
  requests is_put 1 b (publish_connected ERROR_NO_ACCESS c id b).2.
Proof.
  unfold publish_connected.
  apply (requests_bind _ 0 1); [apply read_seed_requests|]. intros [seed uuid] _.
  apply (requests_bind _ 0 1); [apply on_store_requests|]. intros [token raw] _.
  apply (requests_try _ 1 0); [apply publish_body_requests|]. intros e.
  apply (requests_bind _ 0 0); [apply read_clock_requests|]. intros [ts now] _.
  apply (requests_bind _ 0 0); [apply on_store_requests|]. intros _ _. apply requests_raise.
Qed.

Lemma publish_each_requests c ids b :
  requests is_put (length ids) b (publish_each ERROR_NO_ACCESS c ids b).2.
Proof.
  revert b. induction ids as [|id ids IH]; intros b; cbn [publish_each length]; [apply requests_ret|].
  apply (requests_bind _ 0 (S (length ids))); [apply wait_requests|]. intros _ _.
  apply (requests_bind _ 1 (length ids)); [apply publish_requests|]. intros _ _. apply IH.
Qed.

(** The lock is held for the body only, on every way out. *)
Lemma connection_requests {A} P n timeout (body : M box A) b :
  (∀ b, requests P n b (body b).2) → requests P n b (connection timeout body b).2.
Proof.
  intros Hbody. unfold connection. apply requests_lift. intros _ _.
  unfold mbind at 1, M_bind at 1, get_state. cbn [fst snd].
  destruct (bx_busy b) eqn:Eb; [apply requests_raise|].
  unfold mbind at 1, M_bind at 1, put_state.
  set (b1 := Box (bx_store b) true (bx_world b)). set (m := wait ;; _).
  assert (∀ b2, requests P n b1 b2 → requests P n b (Box (bx_store b2) false (bx_world b2))) as Hrel.
  { intros b2 [_ (reqs & Hr)]. split; [done|]. by exists reqs. }
  assert (∃ b2, requests P n b1 b2 ∧ match m b1 with
    | (Ok _, b3) => b3 = Box (bx_store b2) false (bx_world b2)
    | (Raise _, b3) => b3 = b2 end) as (b2 & Hb2 & Hm).
  { unfold m, mbind, M_bind. destruct (wait b1) as [[[]|e] bw] eqn:Ew; apply wait_quiet in Ew as Hq.
    2: { exists bw. split; [by apply quiet_requests|done]. }
    destruct (pop_quiet w_links set_links (Some "timeout"%string) bw) as [Hq2 [code Hcode]]; [done|].
    destruct (pop w_links _ _ bw) as [r bl]. simpl in Hq2, Hcode. subst r.
    assert (requests P 0 b1 bl) as Hbl
      by (apply (requests_trans P 0 0 b1 bw bl); by apply quiet_requests).
    destruct code as [code|]; [exists bl; split; [by eapply requests_weaken; [|done]; lia|done]|].
    specialize (Hbody bl). cbv [mret M_ret modify].
    destruct (body bl) as [[a|e] b2]; exists b2; (split; [|done]); by apply (requests_trans P 0 n b1 bl). }
  unfold tryM. destruct (m b1) as [[a|e] b3]; subst b3; simpl; by apply Hrel.
Qed.

Lemma requests_impl (P Q : wire_path * pyval * store → Prop) n b b' : (∀ q, P q → Q q) → requests P n b b' → requests Q n b b'.
Proof. intros HPQ [Hb (r & Hl & Hn & Hp)]. split; [done|]. exists r. split_and!; try done. by eapply Forall_impl. Qed.

(** ** What an exchange takes in *)

(** The ciphertexts of an answer, one after the other: the chat took a message in
    and its hash is kept, or the ciphertext is left to the node: it is for
    somebody else, cannot be decrypted, or the chat refused it. *)
Inductive pulled (c : chat) : store → list pyval → list bytes → store → Prop :=
  | pulled_none st : pulled c st [] [] st
  | pulled_taken st blob plaintext ts now added st1 vs hs st2 :
      take 16 blob = ch_address c → decrypt (ch_identity c) (drop 16 blob) = Some plaintext →
      receive c (take 16 blob ++ plaintext) ts now st = (Ok added, st1) →
      pulled c st1 vs hs st2 → pulled c st (PBytes blob :: vs) (full_hash blob :: hs) st2
  | pulled_left st blob vs hs st2 :
      (take 16 blob ≠ ch_address c ∨ decrypt (ch_identity c) (drop 16 blob) = None
       ∨ ∃ plaintext ts now e, decrypt (ch_identity c) (drop 16 blob) = Some plaintext
           ∧ receive c (take 16 blob ++ plaintext) ts now st = (Raise e, st) ∧ is_ValueError e = true) →
      pulled c st vs hs st2 → pulled c st (PBytes blob :: vs) hs st2.

(** Steps that only consume waits, clocks, links and seeds. *)
Definition idle (b b' : box) : Prop :=
  bx_store b' = bx_store b ∧ logged b' = logged b ∧ w_replies (bx_world b') = w_replies (bx_world b).

#[export] Instance idle_trans : Transitive idle.
Proof. intros b1 b2 b3 (? & ? & ?) (? & ? & ?). split_and!; congruence. Qed.

Lemma pop_idle {A} get set (empty : A) b r b' :
  (∀ x w, w_log (set x w) = w_log w) → (∀ x w, w_replies (set x w) = w_replies w) →
  pop get set empty b = (r, b') → idle b b'.
Proof.
  intros Hl Hr. unfold pop, idle, logged. destruct (get (bx_world b)); intros [= <- <-]; cbn [bx_store bx_world]; by rewrite ?Hl, ?Hr.
Qed.
Lemma wait_idle b r b' : wait b = (r, b') → idle b b'.
Proof.
  unfold wait, mbind, M_bind. destruct (pop _ _ _ b) as [[code|e] b1] eqn:E; apply pop_idle in E; try done.
  - by destruct code; intros [= <- <-].
  - by intros [= <- <-].
Qed.
Lemma read_clock_idle b r b' : read_clock b = (r, b') → idle b b'.
Proof. by apply pop_idle. Qed.

(** A request that was answered with a list. *)
Lemma send_request_Ok p data b l b' : send_request ERROR_NO_ACCESS p data b = (Ok l, b') →
  bx_store b' = bx_store b ∧ logged b' = logged b ++ [(p, data, bx_store b)]
  ∧ w_replies (bx_world b) = Answer (PList l) :: w_replies (bx_world b').
Proof.
  unfold send_request. intros H. apply M_bind_Ok in H as (u & b1 & (E1 & E2 & E3)%wait_idle & H).
  apply M_bind_Ok in H as (u2 & b2 & Hm & H). injection Hm as _ <-. apply M_bind_Ok in H as (reply & b3 & Hp & H).
  unfold pop in Hp. cbn [bx_world set_log w_replies] in Hp. destruct (w_replies (bx_world b1)) as [|r rs] eqn:Er; [by injection Hp as <- <-|].
  injection Hp as <- <-. assert (r = Answer (PList l) ∧ b' = Box (bx_store b1) (bx_busy b1) (set_replies rs (set_log (w_log (bx_world b1) ++ [(p, data, bx_store b1)]) (bx_world b1)))) as [-> ->].
  { destruct r as [v| | |]; try done. destruct v; try done. by injection H as -> <-. }
  unfold logged in *. cbn [bx_store bx_world set_replies set_log w_log w_replies]. rewrite <- E3, E1, E2. done.
Qed.

Lemma sync_one_pulled c wanted t v b t' b' vs hs st : sync_one c wanted t v b = (Ok t', b') →
  logged b' = logged b ∧ w_replies (bx_world b') = w_replies (bx_world b)
  ∧ ∃ new, t_haves t' = t_haves t ++ new ∧ (pulled c (bx_store b') vs hs st → pulled c (bx_store b) (v :: vs) (new ++ hs) st).
Proof.
  unfold sync_one. intros H. apply M_bind_Ok in H as (u & b1 & (E1 & E2 & E3)%wait_idle & H).
  apply M_bind_Ok in H as (blob & b2 & [Hv ->]%lift_Ok & H). apply M_bind_Ok in H as (u1 & b2 & [_ ->]%lift_Ok & H).
  assert (v = PBytes blob) as -> by (destruct v; try done; by repeat inv_ok1; simplify_eq).
  case_bool_decide as Ha; cbn [negb] in H; cycle 1.
  { injection H as <- <-. split_and!; try done. exists []. split; [by rewrite app_nil_r|]. rewrite E1. intros Hp. constructor; [by left|done]. }
  destruct (decrypt _ _) as [pt|] eqn:Ed; cycle 1.
  { injection H as <- <-. split_and!; try done. exists []. split; [by rewrite app_nil_r|]. rewrite E1. intros Hp. constructor; [by right; left|done]. }
  apply M_bind_Ok in H as ([ts now] & b3 & (F1 & F2 & F3)%read_clock_idle & H). unfold tryM, mbind, M_bind, on_store in H.
  destruct (receive c _ ts now (bx_store b3)) as [[added|e] st1] eqn:Er.
  - injection H as <- <-. unfold logged in *. cbn [bx_store bx_world t_haves accept_blob]. split_and!; [congruence|congruence|]. exists [full_hash blob]. split; [done|].
    intros Hp. rewrite F1, E1 in Er. by eapply pulled_taken.
  - apply receive_raise in Er as Es. subst st1. destruct (is_ValueError e) eqn:Ee; [|done]. injection H as <- <-.
    unfold logged in *. cbn [bx_store bx_world t_haves reject]. split_and!; [congruence|congruence|]. exists []. split; [by rewrite app_nil_r|].
    rewrite F1, E1 in *. intros Hp. constructor; [right; right; eauto 10|done].
Qed.

Lemma sync_loop_pulled c wanted vs t b t' b' : sync_loop c wanted t vs b = (Ok t', b') →
  logged b' = logged b ∧ w_replies (bx_world b') = w_replies (bx_world b)
  ∧ ∃ hs, t_haves t' = t_haves t ++ hs ∧ pulled c (bx_store b) vs hs (bx_store b').
Proof.
  revert t b. induction vs as [|v vs IH]; intros t b H; cbn [sync_loop] in H.
  - injection H as <- <-. split_and!; try done. exists []. split; [by rewrite app_nil_r|constructor].
  - apply M_bind_Ok in H as (t1 & b1 & H1 & H). apply IH in H as (L2 & R2 & hs & E2 & P2).
    apply (sync_one_pulled _ _ _ _ _ _ _ vs hs (bx_store b')) in H1 as (L1 & R1 & new & E1 & P1).
    split_and!; [congruence|congruence|]. exists (new ++ hs). split; [by rewrite E2, E1, app_assoc|auto].
Qed.

Lemma distinct_nil ids : take 10 (distinct ids) = [] → ids = [].
Proof.
  destruct ids as [|i ids]; [done|]. unfold distinct, dict_of. csimpl. intros H. exfalso.
  assert (∀ l d, d ≠ [] → dkeys (foldl (λ d p, dset p.1 p.2 d) d ((λ i, (i, ())) <$> l)) ≠ ([] : list bytes)) as Hne.
  { induction l as [|x l IH]; intros d Hd; csimpl; [by destruct d|]. apply IH. destruct d as [|[k v] d]; [done|].
    cbn [dset]. by case_decide. }
  destruct (dkeys _) eqn:E in H; [|done]. by eapply Hne in E.
Qed.

(** What the node answered: an empty list, or a list and then the messages. *)
Definition fetched (b : box) (vs : list pyval) : Prop :=
  (∃ rest, w_replies (bx_world b) = Answer (PList []) :: rest ∧ vs = [])
  ∨ ∃ l rest, w_replies (bx_world b) = Answer (PList l) :: Answer (PList vs) :: rest.
(** The purges among some requests: one, after [st], of the hashes that were
    kept, or none when there are none. *)
Definition purges_exactly (hs : list bytes) (st : store) (reqs : list (wire_path * pyval * store)) : Prop :=
  ∀ l st', (WireGet, PList [PNone; PList l], st') ∈ reqs ↔ hs ≠ [] ∧ l = PBytes <$> hs ∧ st' = st.

Lemma sync_connected_Ok c b r more_ b' : sync_connected ERROR_NO_ACCESS c true b = (Ok (r, more_), b') →
  ∃ vs hs, fetched b vs ∧ pulled c (bx_store b) vs hs (bx_store b') ∧ purged r = zlen hs
  ∧ ∃ reqs, logged b' = logged b ++ reqs ∧ purges_exactly hs (bx_store b') reqs.
Proof.
  unfold sync_connected. intros H. apply M_bind_Ok in H as (l & b1 & (S1 & L1 & R1)%send_request_Ok & H).
  apply M_bind_Ok in H as (ids & b1' & [Hi ->]%lift_Ok & H). destruct (take 10 (distinct ids)) as [|w ws] eqn:Ew.
  { injection H as <- _ <-. apply distinct_nil in Ew as ->. exists [], []. split; [|split_and!].
    - left. eexists. split; [|done]. unfold message_ids in Hi. repeat inv_ok1. subst.
      apply mapM_Some_1 in Ha. by inversion Ha; subst.
    - rewrite <- S1. constructor.
    - done.
    - eexists. split; [exact L1|]. intros l' st'. rewrite list_elem_of_singleton. split; [done|]. by intros [? _]. }
  apply M_bind_Ok in H as (vs & b2 & (S2 & L2 & R2)%send_request_Ok & H).
  apply M_bind_Ok in H as (u & b2' & [_ ->]%lift_Ok & H). apply M_bind_Ok in H as (t & b3 & Hl & H).
  apply sync_loop_pulled in Hl as (L3 & R3 & hs & Eh & Hp). cbn [t_haves app] in Eh. rewrite Eh in H.
  exists vs, hs. split; [right; exists l; eexists; by rewrite R1, R2|].
  apply M_bind_Ok in H as (u1 & b4 & Hpu & H). injection H as <- _ <-. cbn [purged].
  destruct hs as [|h hs].
  - injection Hpu as _ <-. rewrite <- S1, <- S2. split_and!; [done|done|].
    eexists. split; [by rewrite L3, L2, L1, <- app_assoc|]. intros l' st'. cbn [app]. rewrite !elem_of_cons, elem_of_nil. naive_solver.
  - apply M_bind_Ok in Hpu as (a & b5 & (S5 & L5 & R5)%send_request_Ok & Hpu). assert (b4 = b5) as -> by (destruct a; by injection Hpu as _ <-).
    rewrite S5, <- S1, <- S2. split_and!; [done|done|].
    eexists. split; [by rewrite L5, L3, L2, L1, <- !app_assoc|]. intros l' st'. cbn [app]. rewrite !elem_of_cons, elem_of_nil. naive_solver.
Qed.

Lemma connection_Ok {A} timeout (body : M box A) b a b' : connection timeout body b = (Ok a, b') →
  ∃ b1 b2, idle b b1 ∧ body b1 = (Ok a, b2) ∧ bx_store b' = bx_store b2 ∧ bx_world b' = bx_world b2.
Proof.
  unfold connection. intros H. apply M_bind_Ok in H as (u & b0 & [_ ->]%lift_Ok & H).
  apply M_bind_Ok in H as (s & b0 & Hg & H). injection Hg as <- <-. destruct (bx_busy b); [done|].
  apply M_bind_Ok in H as (u1 & b1 & Hp & H). injection Hp as _ <-. set (bl := Box (bx_store b) true (bx_world b)) in *.
  unfold tryM in H. match type of H with context [match ?m with _ => _ end] => destruct m as [[x|e] b2] eqn:E end.
  2: { by apply M_bind_Ok in H as (? & ? & _ & ?). }
  injection H as <- <-. apply M_bind_Ok in E as (u2 & b3 & H3%wait_idle & E). apply M_bind_Ok in E as (code & b4 & H4 & E).
  apply pop_idle in H4; [|done|done]. apply M_bind_Ok in E as (u3 & b5 & H5 & E).
  assert (b5 = b4) as -> by (destruct code; [done|by injection H5 as _ <-]).
  apply M_bind_Ok in E as (x' & b6 & Hb & E). injection E as <- <-. exists b4, b6. split; [|done].
  change (idle bl b4). by etransitivity.
Qed.

Lemma safe_purge_put c q : is_put q → safe_purge c q.
Proof. destruct q as [[p d] st]. intros E hs [= -> _]. done. Qed.

(** C35: The node's copy is deleted only after the store committed it, and what
    was committed is deleted.  Whatever the network does, an [exchange] sends at
    most seven requests, leaves the connection lock as it found it, and every
    deletion request among them names only hashes of ciphertexts that, before the
    request was sent, were decrypted, authenticated and committed: a message's
    row is then in the history, a receipt has settled its target.  When the
    exchange returns, it has gone through every message of the node's answer,
    and its one deletion request, sent after the last of them, names the hashes
    of exactly those the chat took in; it sends none when the chat took in none. *)
Theorem purge_after_commit c timeout b res b' : exchange ERROR_NO_ACCESS c timeout b = (res, b') →
  requests (safe_purge c) 7 b b'
  ∧ ∀ r, res = Ok r → ∃ vs hs st reqs, fetched b vs ∧ pulled c (bx_store b) vs hs st ∧ purged (received r) = zlen hs
      ∧ logged b' = logged b ++ reqs ∧ purges_exactly hs st reqs.
Proof.
  intros H. assert (∀ ids b, requests is_put 4 b (publish_each ERROR_NO_ACCESS c (take 4 ids) b).2) as Hput.
  { intros ids b0. eapply requests_weaken, publish_each_requests. rewrite length_take. lia. }
  split.
  - replace b' with (exchange ERROR_NO_ACCESS c timeout b).2 by (by rewrite H). clear H. unfold exchange.
    apply connection_requests. clear b. intros b. apply (requests_bind _ 3 4); [apply sync_connected_requests|]. intros [received more_] _.
    apply (requests_bind _ 0 4); [apply read_clock_requests|]. intros [ts now] _.
    apply (requests_bind _ 0 4); [apply on_store_requests|]. intros ids _.
    apply (requests_bind _ 4 0); [eapply requests_impl, Hput; apply safe_purge_put|].
    intros _ _. apply (requests_bind _ 0 0); [apply read_clock_requests|]. intros [ts' now'] _.
    apply (requests_bind _ 0 0); [apply on_store_requests|]. intros p _. apply requests_ret.
  - intros r ->. unfold exchange in H. apply connection_Ok in H as (b1 & b2 & (E1 & E2 & E3) & H & _ & Ew).
    apply M_bind_Ok in H as ([re more_] & b3 & (vs & hs & Hf & Hp & Hn & reqs & Hl & Hx)%sync_connected_Ok & H).
    apply M_bind_Ok in H as ([ts now] & b4 & (_ & L4 & _)%read_clock_idle & H). apply M_bind_Ok in H as (ids & b5 & H5 & H).
    apply M_bind_Ok in H as (u & b6 & H6 & H). pose proof (Hput ids b5) as (_ & puts & L6 & _ & Hall). rewrite H6 in L6. cbn [snd] in L6.
    apply M_bind_Ok in H as ([ts' now'] & b7 & (_ & L7 & _)%read_clock_idle & H). apply M_bind_Ok in H as (p & b8 & H8 & H). injection H as <- <-.
    assert (∀ A (m : M store A) b r b', on_store m b = (r, b') → logged b' = logged b) as Hst.
    { intros A m b0 r0 b0'. unfold on_store. destruct (m (bx_store b0)). by intros [= _ <-]. }
    apply Hst in H5, H8. cbn [received]. exists vs, hs, (bx_store b3), (reqs ++ puts). split_and!; try done.
    + unfold fetched in *. by rewrite E3 in Hf.
    + by rewrite <- E1.
    + unfold logged at 1. rewrite Ew. fold (logged b8). by rewrite H8, L7, L6, H5, L4, Hl, E2, app_assoc.
    + intros l st'. rewrite elem_of_app, (Hx l st'). split; [|by left]. intros [?|Hi]; [done|].
      rewrite Forall_forall in Hall. by apply Hall in Hi.
Qed.

(** ** Publishing *)

(** The row of an attempt in flight, possibly with its ciphertext already fixed. *)
Definition in_flight (id token : pystr) (st : store) : Prop :=
  ∃ m, dget id (st_messages st) = Some m ∧ m_id m = id ∧ m_status m = SSending
    ∧ m_attempt m = Some token ∧ owned (st_epoch st) token = true.

Definition settled_as (s : status) (id : pystr) (st : store) : Prop :=
  ∃ m, dget id (st_messages st) = Some m ∧ m_status m = s ∧ m_attempt m = None.

Lemma finish_in_flight id token relayed now st :
  in_flight id token st →
  ∃ st', finish_attempt id token false relayed now st = (Ok true, st')
    ∧ settled_as (if relayed then SRelayed else SQueued) id st'.
Proof.
  intros (m & Hm & Hid & Hs & Ha & Ho). rewrite finish_attempt_eq, Hm by done.
  rewrite Hs, Ha, Ho, !bool_decide_eq_true_2 by done. eexists. split; [done|].
  set (m' := if relayed && _ then _ else _).
  assert (m_id m' = id ∧ m_status m' = (if relayed then SRelayed else SQueued) ∧ m_attempt m' = None)
    as (Hid' & ? & ?) by (unfold m'; by destruct (relayed && _)).
  exists m'. split; [|done]. rewrite <- Hid'. apply (put_lookup m').
Qed.

Lemma relay_blob_in_flight id token create st :
  in_flight id token st → in_flight id token (relay_blob id create st).2.
Proof.
  intros Hf. destruct (relay_blob id create st) as [[blob|e] st'] eqn:E; simpl.
  - apply relay_blob_Ok in E as (m & text & Hm & _ & [[_ ->]|(_ & _ & ->)]); [done|].
    destruct Hf as (m' & Hm' & Hid & Hs & Ha & Ho). rewrite Hm in Hm'. injection Hm' as <-.
    exists (with_relay_blob text m). split; [|done].
    rewrite <- Hid at 1. apply (put_lookup (with_relay_blob text m)).
  - by apply transaction_raise in E as ->.
Qed.

(** Reading contacts does not write. *)
Lemma delivery_contacts_state st : (delivery_contacts st).2 = st.
Proof.
  unfold delivery_contacts, contacts, publishers. cbv [mbind M_bind lift get_state mret M_ret].
  destruct (decode_keys (st_contacts st)); [|done]. by destruct (decode_keys (st_publishers st)).
Qed.

(** The [try] block ends with the message relayed, or raises with the attempt
    still in flight. *)
Lemma publish_body_spec c id token raw b :
  in_flight id token (bx_store b) →
  match publish_body ERROR_NO_ACCESS c id token raw b with
  | (Ok _, b') => settled_as SRelayed id (bx_store b')
  | (Raise _, b') => in_flight id token (bx_store b')
  end.
Proof.
  intros Hf. unfold publish_body. unfold mbind at 1, M_bind at 1, on_store at 1.
  pose proof (delivery_contacts_state (bx_store b)) as Hc.
  destruct (delivery_contacts (bx_store b)) as [[cs|e] st]; simpl in Hc; subst st; [|done].
  unfold mbind at 1, M_bind at 1, lift at 1. destruct (of_option _ _) as [public|]; [|done].
  unfold mbind at 1, M_bind at 1, lift at 1. destruct (unpack _ _ _) as [p|]; [|done].
  unfold mbind at 1, M_bind at 1. set (b0 := Box _ _ _).
  destruct (read_seed_quiet b0) as [(Hs & _) [[seed uuid] Hseed]].
  destruct (read_seed b0) as [r b1]. simpl in Hs, Hseed. subst r.
  unfold mbind at 1, M_bind at 1, on_store at 1. rewrite Hs.
  match goal with |- context [relay_blob id ?create (bx_store b)] =>
    pose proof (relay_blob_in_flight id token create _ Hf) as Hf2;
    destruct (relay_blob id create (bx_store b)) as [[blob|e] st2]; simpl in Hf2; [|done]
  end.
  unfold mbind at 1, M_bind at 1. set (b2 := Box st2 _ _).
  pose proof (send_store WirePut (PBytes blob) b2) as Hs3.
  destruct (send_request _ _ _ b2) as [[response|e] b3]; simpl in Hs3; [|by rewrite Hs3].
  unfold mbind at 1, M_bind at 1, lift at 1. destruct (require _ _); [|by rewrite Hs3].
  unfold mbind at 1, M_bind at 1.
  destruct (read_clock_quiet b3) as [(Hs4 & _) [[ts now] Hts]].
  destruct (read_clock b3) as [r b4]. simpl in Hs4, Hts. subst r.
  unfold mbind at 1, M_bind at 1, on_store at 1. rewrite Hs4, Hs3.
  destruct (finish_in_flight id token true now st2 Hf2) as (st5 & -> & Hset). done.
Qed.

(** A publication settles its message: unless [begin_attempt] refused it (and
    then nothing changed), the message ends relayed when the node acknowledged
    exactly this ciphertext, and back in the queue on every other outcome;
    the attempt is never left in flight. *)
Theorem publish_settles c id b res b' :
  store_wf (bx_store b) → publish_connected ERROR_NO_ACCESS c id b = (res, b') →
  (is_ok res = false ∧ bx_store b' = bx_store b)
  ∨ settled_as (if is_ok res then SRelayed else SQueued) id (bx_store b').
Proof.
  intros Hwf. unfold publish_connected. unfold mbind at 1, M_bind at 1.
  destruct (read_seed_quiet b) as [(Hs & _) [[seed uuid] Hseed]].
  destruct (read_seed b) as [r b1]. simpl in Hs, Hseed. subst r.
  unfold mbind at 1, M_bind at 1, on_store at 1. rewrite Hs.
  destruct (begin_attempt id uuid (bx_store b)) as [[[token raw]|e] st] eqn:Eb.
  2: { intros [= <- <-]. left. split; [done|]. by apply transaction_raise in Eb. }
  set (b2 := Box st _ _).
  assert (in_flight id token (bx_store b2)) as Hf.
  { apply begin_attempt_Ok in Eb as (m & Hm & _ & _ & -> & _ & ->).
    pose proof (mw_key _ _ (tw_rows _ _ _ (sw_messages _ Hwf) _ _ Hm)) as Hid.
    exists (with_status SSending (Some (token_of (st_epoch (bx_store b)) uuid)) m).
    split; [rewrite <- Hid; apply (put_lookup (with_status _ _ m))|].
    split; [done|]. do 2 (split; [done|]). apply owned_token. }
  unfold tryM. pose proof (publish_body_spec c id token raw b2 Hf) as Hbody.
  destruct (publish_body _ c id token raw b2) as [[u|e] b3].
  - intros [= <- <-]. by right.
  - unfold mbind at 1, M_bind at 1.
    destruct (read_clock_quiet b3) as [(Hs4 & _) [[ts now] Hts]].
    destruct (read_clock b3) as [r b4]. simpl in Hs4, Hts. subst r.
    unfold mbind at 1, M_bind at 1, on_store at 1. rewrite Hs4.
    destruct (finish_in_flight id token false now (bx_store b3) Hbody) as (st5 & -> & Hset).
    intros [= <- <-]. by right.
Qed.

(** ** Routes *)

(** Routes are tried in their order and at most once each: an exchange that
    returns over a route set names a prefix of it, and a failure that is not
    transient stops the walk, whatever routes are left. *)
Theorem routes_in_order c session_free budget b r attempted routes b' :
  try_routes ERROR_NO_ACCESS c session_free budget [] routes b = (Ok (r, attempted), b') →
  attempted `prefix_of` routes ∧ attempted ≠ [].
Proof.
  assert (∀ done_ rest b, try_routes ERROR_NO_ACCESS c session_free budget done_ rest b
      = (Ok (r, attempted), b') → attempted `prefix_of` done_ ++ rest ∧ (length done_ < length attempted)%nat)
    as Hgen.
  { intros done_ rest. revert done_. induction rest as [|name rest IH]; intros done_ b1; [done|].
    cbn [try_routes]. unfold mbind at 1, M_bind at 1. destruct (wait b1) as [[[]|e] b2]; [|done].
    unfold tryM, mbind, M_bind. destruct (exchange_route _ _ _ _ b2) as [[r'|e] b3].
    - intros [= -> <- ->]. split; [|rewrite length_app; simpl; lia].
      exists rest. by rewrite <- app_assoc.
    - destruct (transient_code e); [|done]. intros [Hp Hl]%IH.
      rewrite length_app in Hl. simpl in Hl. split; [|lia]. by rewrite <- app_assoc in Hp. }
  intros [Hp Hl]%Hgen. split; [done|]. by destruct attempted; [simpl in Hl; lia|].
Qed.
End MailboxSpec.
