(* ===== verification/MailboxExamples.v ===== *)
(** The messenger between two concrete accounts: Alice writes to Bob, over a
    relay with two members and over scripted networks; the theorems about chats,
    the mailbox and the relay are applied there. *)
From Stdlib Require Import ZArith Lia.
From stdpp Require Import relations.
From S2P Require Import Prelude PyData Json Notices Rns RnsModel Codec Subscription Store StoreInv StoreExamples.
From S2P Require Import Chat Mailbox MailboxSpec CodecMessage ChatSpec Relay RelaySpec.

Local Open Scope Z_scope.

Definition sample_limits : limits := Limits 1048576 128 262144 32 86400.
Definition empty_spool : spool := Spool sample_limits [].

(** The members of the relay, their identity hashes and their addresses. *)
Definition member (i : Z) : bytes := toy_public i.
Definition member_hash (i : Z) : bytes := identity_hash (member i).
Definition member_address (i : Z) : bytes := destination_hash (member i).

Definition sample_relay : relay :=
  match new_relay empty_spool [member 1; member 2] with
  | Ok r => r
  | Raise _ => Relay empty_spool [] []
  end.

Definition blob_for (i c : Z) : bytes := member_address i ++ repeat c 96.

Definition put_request (i : Z) (blob : bytes) (now : Z) : request :=
  Request PutPath (PBytes blob) (Some (member_hash i)) None
    (Env (now * SECOND) (now * SECOND) (now * SECOND) Inserted).

Definition get_request (i : Z) (data : pyval) (now : Z) : request :=
  Request GetPath data (Some (member_hash i)) None
    (Env (now * SECOND) (now * SECOND) (now * SECOND) Inserted).

Definition op_of (q : request) : relay_op :=
  ORespond (rq_path q) (rq_data q) (rq_remote q) (rq_members q) (rq_env q).

(** A ciphertext is put, listed, fetched and purged. *)
Definition list_all : pyval := PList [PNone; PNone].
Definition fetch (blob : bytes) : pyval := PList [PList [PBytes (full_hash blob)]; PList []; PInt 192].
Definition drop_one (blob : bytes) : pyval := PList [PNone; PList [PBytes (full_hash blob)]].

Example put_then_fetch :
  let b := blob_for 2 7 in
  let r1 := (answer (put_request 1 b 5) sample_relay).2 in
  let r2 := (answer (get_request 2 (drop_one b) 8) r1).2 in
  (answer (put_request 1 b 5) sample_relay).1 = Ok (StoredAs (full_hash b))
  ∧ (answer (get_request 2 list_all 6) r1).1 = Ok (Items [full_hash b])
  ∧ (answer (get_request 2 (fetch b) 7) r1).1 = Ok (Items [b])
  ∧ (answer (get_request 1 (fetch b) 7) r1).1 = Ok (Items [])
  ∧ (answer (get_request 2 list_all 9) r2).1 = Ok (Items []).
Proof. vm_compute. repeat split. Qed.

Lemma relay_within_quota_witness :
  spool_wf (rl_spool (serve (op_of (put_request 1 (blob_for 2 7) 5)) sample_relay)).
Proof.
  set (r' := serve (op_of (put_request 1 (blob_for 2 7) 5)) sample_relay).
  assert (open_spool sample_limits [] 0 = Ok empty_spool) as H1 by (vm_compute; reflexivity).
  assert (new_relay empty_spool [member 1; member 2] = Ok sample_relay) as H2
    by (vm_compute; reflexivity).
  assert (rtc relay_step sample_relay r') as H3 by (apply rtc_once; eexists; reflexivity).
  destruct (relay_within_quota sample_limits 0 empty_spool [member 1; member 2] sample_relay r' H1 H2 H3)
    as [Hwf _].
  exact Hwf.
Defined.

Lemma empty_spool_wf : spool_wf empty_spool.
Proof. split; simpl; try done; try (unfold count, size, zlen; simpl; lia). apply NoDup_nil_2. Qed.

Definition filled : spool :=
  (put (member_hash 1) (blob_for 2 7) (5 * SECOND) (5 * SECOND) Inserted empty_spool).2.

Lemma put_idempotent_witness :
  put (member_hash 1) (blob_for 2 7) (9 * SECOND) (9 * SECOND) DatabaseFull filled
  = (Ok (full_hash (blob_for 2 7)), drop_expired (9 * SECOND) filled).
Proof.
  assert (put (member_hash 1) (blob_for 2 7) (5 * SECOND) (5 * SECOND) Inserted empty_spool
          = (Ok (full_hash (blob_for 2 7)), filled)) as Hp by (vm_compute; reflexivity).
  destruct (put_idempotent (member_hash 1) (blob_for 2 7) (5 * SECOND) (5 * SECOND) Inserted
              empty_spool (full_hash (blob_for 2 7)) filled empty_spool_wf Hp)
    as (_ & r & Hr & _ & Hagain).
  assert (dget (full_hash (blob_for 2 7)) (sp_rows filled)
          = Some (Row (member_hash 1) (take 16 (blob_for 2 7)) (5 * SECOND) (blob_for 2 7))) as Hrow
    by (vm_compute; reflexivity).
  rewrite Hrow in Hr. injection Hr as <-.
  apply (Hagain (9 * SECOND) (9 * SECOND) DatabaseFull). vm_compute. reflexivity.
Defined.

Lemma filled_wf : spool_wf filled.
Proof. apply put_wf, empty_spool_wf. Qed.

Lemma get_isolated_witness :
  ∃ l s', get (member_address 1) (fetch (blob_for 2 7)) (6 * SECOND) filled = (Ok l, s')
    ∧ dget (full_hash (blob_for 2 7)) (sp_rows s')
      = Some (Row (member_hash 1) (take 16 (blob_for 2 7)) (5 * SECOND) (blob_for 2 7)).
Proof.
  assert (is_ok (get (member_address 1) (fetch (blob_for 2 7)) (6 * SECOND) filled).1 = true) as Hok
    by (vm_compute; reflexivity).
  destruct (get (member_address 1) (fetch (blob_for 2 7)) (6 * SECOND) filled) as [[l|e] s'] eqn:Hg; [|discriminate Hok].
  exists l, s'. split; [reflexivity|].
  assert (parse_request (fetch (blob_for 2 7))
          = Ok (Some [full_hash (blob_for 2 7)], Some [], 192000)) as Hp by (vm_compute; reflexivity).
  destruct (get_isolated (member_address 1) (fetch (blob_for 2 7)) (6 * SECOND) filled l s' _ _ _
              filled_wf Hg Hp) as (Hkeep & _ & _).
  apply Hkeep; vm_compute; [reflexivity|reflexivity|discriminate].
Defined.

Definition burst : list request := (λ c, put_request 1 (blob_for 2 c) 5) <$> [1; 2; 3; 4; 5; 6].

Lemma put_rate_bounded_witness :
  admissions (member_hash 1) burst sample_relay * SECOND <= BURST + (5 * SECOND - 5 * SECOND)
  ∧ admissions (member_hash 1) burst sample_relay = 4.
Proof.
  split; [|vm_compute; reflexivity].
  apply (put_rate_bounded (member_hash 1) burst sample_relay (5 * SECOND) (5 * SECOND)).
  - apply (bool_decide_unpack (member_hash 1 ∈ dkeys (rl_allowed sample_relay))). vm_compute. exact I.
  - intros b Hb. vm_compute in Hb. discriminate Hb.
  - vm_compute. repeat split; discriminate.
Defined.

Lemma stranger_refused_witness :
  answer (put_request 3 (blob_for 2 7) 5) sample_relay = (Ok NoAccess, sample_relay).
Proof.
  apply (stranger_refused (put_request 3 (blob_for 2 7) 5) sample_relay (rl_allowed sample_relay)).
  - reflexivity.
  - apply (bool_decide_unpack (member_hash 3 ∉ dkeys (rl_allowed sample_relay))). vm_compute. exact I.
Defined.

Definition snapshot_of (expires : Z) : pyval :=
  PDict [(PStr (py "sequence"), PInt 3); (PStr (py "expires_at"), PInt expires);
         (PStr (py "public_keys"), PList [PStr (tohex (member 1)); PStr (tohex (member 2))])].

Lemma membership_fail_closed_witness :
  membership_keys (Ok (snapshot_of 100)) (50 * SECOND) = Ok [member 1; member 2]
  ∧ Forall (λ k, length k = 64%nat) [member 1; member 2].
Proof.
  assert (membership_keys (Ok (snapshot_of 100)) (50 * SECOND) = Ok [member 1; member 2]) as Hk
    by (vm_compute; reflexivity).
  split; [exact Hk|].
  destruct (membership_fail_closed (Ok (snapshot_of 100)) (50 * SECOND) [member 1; member 2] Hk)
    as [Hnil|(value & m & _ & _ & _ & _ & _ & Hall)]; [discriminate Hnil|exact Hall].
Defined.

Definition alice_chat : chat := Chat (1 : identity (Rns := toy_rns)) true (py "linux") 1.
Definition bob_chat : chat := Chat (2 : identity (Rns := toy_rns)) true (py "linux") 1.

(** The store of an account after it verified the key of [other]. *)
Definition store_knowing (epoch : pystr) (other : chat) : store :=
  (chat_trust_contact (ch_public other) (new_store epoch)).2.

Definition alice_store : store := store_knowing (py "alice") bob_chat.
Definition bob_store : store := store_knowing (py "bob") alice_chat.

Definition sent_at : pyval := PInt 1700000000.
Definition alice_queue : result pystr * store :=
  queue alice_chat (ch_address bob_chat) (py "hello") [] sent_at 5 alice_store.
Definition hello_id : pystr := match alice_queue.1 with Ok id => id | Raise _ => [] end.

Lemma knows_sample epoch c i d p v :
  knows c (store_knowing epoch (Chat (i : identity (Rns := toy_rns)) d p v)) (Chat (i : identity (Rns := toy_rns)) d p v).
Proof. apply knows_after_trust, fit_bytes. Qed.

Lemma durable_delivery_witness :
  ∃ raw stb sta,
    receive bob_chat raw sent_at 6 bob_store = (Ok true, stb)
    ∧ receive alice_chat (receipt_raw bob_chat alice_chat hello_id sent_at) sent_at 7 alice_queue.2
      = (Ok true, sta).
Proof.
  assert (queue alice_chat (ch_address bob_chat) (py "hello") [] sent_at 5 alice_store
          = (Ok hello_id, alice_queue.2)) as Hq by (vm_compute; reflexivity).
  assert (good_time sent_at) as Ht by (repeat split).
  assert (hello_id ∉ dkeys (st_messages alice_store)) as Ha by (apply not_elem_of_nil).
  assert (hello_id ∉ dkeys (st_messages bob_store)) as Hb by (apply not_elem_of_nil).
  destruct (durable_delivery alice_chat bob_chat alice_store bob_store XText (py "hello") []
              sent_at sent_at sent_at 5 6 7 hello_id alice_queue.2
              (knows_sample (py "alice") alice_chat 2 true (py "linux") 1)
              (knows_sample (py "bob") bob_chat 1 true (py "linux") 1) eq_refl eq_refl I eq_refl Ht Ht Hq Ha Hb)
    as (raw & m & stb & mb & r & sta & ma & _ & _ & Hrecv & _ & _ & _ & _ & _ & _ & Hsend & _).
  - vm_compute. discriminate.
  - vm_compute. split; [reflexivity|discriminate].
  - apply (bool_decide_unpack (message_id _ ∉ hello_id :: dkeys (st_messages bob_store))).
    vm_compute. exact I.
  - exists raw, stb, sta. split; [exact Hrecv|exact Hsend].
Defined.

(** The same exchange as a run of two accounts: each verifies the other, Alice
    queues, Bob takes the message in, and Alice his receipt. *)
Definition verifies (other : chat) : action := DoStore (OSaveContact (tohex (ch_address other)) (tohex (ch_public other))).
Definition says_hello : action := DoQueue (ch_address bob_chat) (py "hello") [] sent_at 5.
Definition alice_1 : store := act alice_chat (verifies bob_chat) (new_store (py "alice")).
Definition bob_1 : store := act bob_chat (verifies alice_chat) (new_store (py "bob")).
Definition alice_2 : store := act alice_chat says_hello alice_1.
Definition packed_at (id : pystr) (st : store) : bytes :=
  match dget id (st_messages st) with Some m => default [] (fromhex (m_packed m)) | None => [] end.
Definition hello : bytes := packed_at hello_id alice_2.
Definition bob_2 : store := act bob_chat (DoReceive hello sent_at 6) bob_1.
Definition hello_receipt : bytes := receipt_raw bob_chat alice_chat hello_id sent_at.
Definition alice_3 : store := act alice_chat (DoReceive hello_receipt sent_at 7) alice_2.

(** Bytes of an outbox, new to the one they are brought to. *)
Definition in_outbox (raw : bytes) (sto : store) : bool :=
  match dget (message_id raw) (st_messages sto) with Some m => m_outgoing m && bool_decide (m_packed m = tohex raw) | None => false end.

Lemma genuine_queued c other st sto raw : bool_decide (Forall (λ b : Z, is_byte b = true) raw) = true → in_outbox raw sto = true →
  dmem (message_id raw) (st_messages st) = false → genuine c other st sto raw.
Proof.
  intros Hb%bool_decide_eq_true Hout Hnew. split; [exact Hb|]. split.
  - intros _ _ _. unfold in_outbox in Hout. destruct (dget _ _) as [m|] eqn:E; [|done]. apply andb_true_iff in Hout as [Ho Hp%bool_decide_eq_true].
    exists (message_id raw), m. split_and!; try done. by exists raw.
  - intros m Hm. apply dget_Some_key in Hm. apply dmem_true in Hm. congruence.
Qed.

Lemma receipts_true_witness :
  ∃ m mi, dget hello_id (st_messages alice_3) = Some m ∧ m_status m = SRecipientStored
    ∧ dget hello_id (st_messages bob_2) = Some mi ∧ m_parsed mi = with_peer (tohex (ch_address alice_chat)) (m_parsed m).
Proof.
  assert (ch_address alice_chat ≠ ch_address bob_chat) as Hne by (apply (bool_decide_unpack (_ ≠ _)); vm_compute; exact I).
  assert (rtc (conv_step alice_chat bob_chat) (new_store (py "alice"), new_store (py "bob")) (alice_3, bob_2)) as Hrun.
  { eapply rtc_l; [apply (step_first _ _ (verifies bob_chat)); reflexivity|]. eapply rtc_l; [apply (step_second _ _ (verifies alice_chat)); reflexivity|].
    eapply rtc_l; [apply (step_first _ _ says_hello); intros target H; discriminate H|].
    eapply rtc_l; [apply (step_second _ _ (DoReceive hello sent_at 6)); apply genuine_queued; vm_compute; reflexivity|].
    eapply rtc_l; [apply (step_first _ _ (DoReceive hello_receipt sent_at 7)); apply genuine_queued; vm_compute; reflexivity|].
    apply rtc_refl. }
  destruct (receipts_true alice_chat bob_chat (py "alice") (py "bob") alice_3 bob_2 Hne Hrun) as [Hs _].
  assert (match dget hello_id (st_messages alice_3) with
          | Some m => m_outgoing m && bool_decide (m_peer m = tohex (ch_address bob_chat)) && bool_decide (m_status m = SRecipientStored) | None => false end = true) as Hm
    by (vm_compute; reflexivity).
  destruct (dget hello_id (st_messages alice_3)) as [m|] eqn:E; [|discriminate Hm].
  apply andb_true_iff in Hm as [[Ho Hp%bool_decide_eq_true]%andb_true_iff Ht%bool_decide_eq_true].
  destruct (Hs _ _ E Ho Hp Ht) as (mi & Hmi & _ & Hpa). exists m, mi. split; [reflexivity|]. split; [exact Ht|]. split; [exact Hmi|exact Hpa].
Defined.

Definition NO_ACCESS : Z := 241.

(** A network that answers every wait and nothing else. *)
Definition script (replies : list link_reply) : world :=
  World (repeat None 20) [Raise OSError; Ok ()] [None] replies [(PInt 5, 5); (PInt 6, 6)]
    [([1; 2; 3], py "u1"); ([4; 5; 6], py "u2")] [].

(** The mailbox of Bob, who sends no receipts here, holds what Alice queued for
    him and a ciphertext for somebody else; he takes the first in and deletes it. *)
Definition plain_bob : chat := Chat (2 : identity (Rns := toy_rns)) false (py "linux") 1.
Definition hello_raw : bytes :=
  match dget hello_id (st_messages alice_queue.2) with Some m => default [] (fromhex (m_packed m)) | None => [] end.
Definition hello_blob : bytes :=
  ch_address bob_chat ++ (match identity_of (ch_public bob_chat) with Ok key => encrypt key [1; 2; 3] (drop 16 hello_raw) | Raise _ => [] end).
Definition other_blob : bytes := blob_for 3 7.
Definition waiting : box := Box bob_store false (script
  [Answer (PList [PBytes (full_hash other_blob); PBytes (full_hash hello_blob)]); Answer (PList [PBytes other_blob; PBytes hello_blob]); Answer (PList [])]).
Lemma purge_after_commit_witness :
  ∃ r b' reqs hs st, exchange NO_ACCESS plain_bob (PInt 10) waiting = (Ok r, b') ∧ logged b' = logged waiting ++ reqs
    ∧ purges_exactly hs st reqs ∧ zlen hs = 1.
Proof.
  assert ((match exchange NO_ACCESS plain_bob (PInt 10) waiting with (Ok r, _) => purged (received r) =? 1 | _ => false end) = true) as Hn
    by (vm_compute; reflexivity).
  destruct (exchange NO_ACCESS plain_bob (PInt 10) waiting) as [res b'] eqn:He.
  destruct (purge_after_commit NO_ACCESS plain_bob (PInt 10) waiting res b' He) as [_ H].
  destruct res as [r|e]; [|discriminate Hn]. destruct (H r eq_refl) as (vs & hs & st & reqs & _ & _ & Hp & Hl & Hx).
  exists r, b', reqs, hs, st. split; [reflexivity|]. split; [exact Hl|]. split; [exact Hx|]. rewrite <- Hp. by apply Z.eqb_eq.
Defined.

(** The message was in flight when the previous owner of the store died. *)
Definition interrupted : store := run_all [OBegin (ident 49) (py "uuid"); OReopen (py "second")] opened.

Lemma interrupted_wf : store_wf interrupted.
Proof.
  assert (rtc store_step opened interrupted) as Hrtc by (apply run_all_rtc; by repeat split).
  by apply (steps_safe _ _ Hrtc), opened_wf.
Qed.

Definition status_at (id : pystr) (st : store) : option status :=
  m_status <$> dget id (st_messages st).

Lemma publish_settles_witness :
  settled_as SQueued (ident 49)
    (bx_store (publish_connected NO_ACCESS alice_chat (ident 49) (Box interrupted false (script []))).2).
Proof.
  set (b := Box interrupted false (script [])).
  set (r := publish_connected NO_ACCESS alice_chat (ident 49) b).
  assert (is_ok r.1 = false) as Hres by (vm_compute; reflexivity).
  assert (status_at (ident 49) (bx_store r.2) = Some SQueued) as Hafter by (vm_compute; reflexivity).
  assert (status_at (ident 49) (bx_store b) = Some SSending) as Hbefore by (vm_compute; reflexivity).
  destruct (publish_settles NO_ACCESS alice_chat (ident 49) b r.1 r.2 interrupted_wf (surjective_pairing r))
    as [[_ Hsame]|Hset].
  - rewrite Hsame, Hbefore in Hafter. discriminate Hafter.
  - rewrite Hres in Hset. exact Hset.
Defined.

(** The first route cannot be opened; the second connects to an empty mailbox. *)
Lemma routes_in_order_witness :
  ∃ r b', try_routes NO_ACCESS alice_chat true (PInt 10) [] ["DIRECT"; "EXISTING_EXIT"; "SERVICE_ONLY"]%string
            (Box (new_store epoch1) false (script [Answer (PList [])]))
          = (Ok (r, ["DIRECT"; "EXISTING_EXIT"]%string), b')
  ∧ ["DIRECT"; "EXISTING_EXIT"]%string `prefix_of` ["DIRECT"; "EXISTING_EXIT"; "SERVICE_ONLY"]%string.
Proof.
  do 2 eexists. split; [vm_compute; reflexivity|].
  eapply (routes_in_order NO_ACCESS alice_chat true (PInt 10)
    (Box (new_store epoch1) false (script [Answer (PList [])]))).
  vm_compute. reflexivity.
Defined.
