(* ===== verification/Controller.v ===== *)
(** The background workers of the mailbox: [DeliveryController]
    (messenger/delivery.py) and [SyncController] (messenger/sync.py).

    Both keep the same state under one condition variable and differ in the
    errors they report and in when a finished run asks for another; that part is
    a [Policy].  A state is what the lock protects; a transition is one
    critical section, of a caller or of the worker thread.  Time is the
    monotonic clock in nanoseconds. *)
From Stdlib Require Import ZArith Lia.
From stdpp Require Import relations.
From S2P Require Import Prelude PyData Json Notices Rns Codec Subscription Store Chat Mailbox.

Local Open Scope Z_scope.

(** How a call of the mailbox ended. *)
Inductive outcome (R : Type) : Type :=
  | Returned (r : R)
  | MailboxFailure (code : string)
  | OtherFailure.
Arguments Returned {R} r.
Arguments MailboxFailure {R} code.
Arguments OtherFailure {R}.

(** The limits a controller is built with, in nanoseconds, and its retries. *)
Record config := Config {
  cooldown : Z;
  max_backoff : Z;
  call_timeout : Z;
  max_retries : Z;
}.

(** The constructor's checks on its limits. *)
Definition check_config (k : config) : result () :=
  raise_if (existsb (λ v, v <=? 0) [cooldown k; max_backoff k; call_timeout k])
    (ValueError "Positive finite delivery limits required");;
  require (negb ((max_backoff k <? cooldown k) || (30 * SECOND <? call_timeout k)
                 || negb (in_range 0 5 (max_retries k))))
    (ValueError "Invalid delivery limits").

Class Policy (R : Type) := {
  (** the error code shown for an outcome, [None] for success *)
  error_of : outcome R → option string;
  (** whether a run that was not overtaken leaves work pending: from the
      retries allowed, the failures counted so far, the error and the result *)
  wants_more : Z → Z → option string → option R → bool;
}.

Section Controller.
Context {R : Type} {P : Policy R} (k : config).

Record controller := Ctl {
  online : bool;
  foreground : bool;
  pending : bool;
  closed : bool;
  generation : Z;
  attempts : Z;
  failures : Z;
  next : Z;
  (** the run in progress: its generation and whether it was cancelled *)
  running : option (Z * bool);
  res : option R;
  err : option string;
}.

Definition new_controller : controller :=
  Ctl false false false false 0 0 0 0 None None None.

(** [self._cancel.set()] when a run is in progress *)
Definition cancel_run (run : option (Z * bool)) : option (Z * bool) :=
  (λ r, (r.1, true)) <$> run.

(** [update(online=..., foreground=...)] *)
Definition update (on fg : option bool) (s : controller) : bool * controller :=
  if closed s then (false, s)
  else
    let on' := default (online s) on in
    let fg' := default (foreground s) fg in
    if Bool.eqb on' (online s) && Bool.eqb fg' (foreground s) then (false, s)
    else (true, Ctl on' fg' true false (generation s + 1) (attempts s) (failures s) (next s)
                  (cancel_run (running s)) None None).

(** [request_sync()] *)
Definition request_sync (s : controller) : bool * controller :=
  if closed s then (false, s)
  else (true, Ctl (online s) (foreground s) true false (generation s) (attempts s) (failures s)
                (next s) (running s) (res s) (err s)).

(** The critical section of [close()]. *)
Definition close (s : controller) : controller :=
  Ctl (online s) (foreground s) false true (generation s + 1) (attempts s) (failures s) (next s)
    (cancel_run (running s)) None None.

(** The wait of [_run] ends when there is work and its time has come. *)
Definition may_start (now : Z) (s : controller) : bool :=
  negb (closed s) && pending s && online s && foreground s && (next s - now <=? 0).

(** The first critical section of [_run]: a run begins. *)
Definition start (s : controller) : controller :=
  Ctl (online s) (foreground s) false (closed s) (generation s) (attempts s + 1) (failures s)
    (next s) (Some (generation s, false)) (res s) (err s).

(** [min(max_backoff, cooldown * 2 ** max(0, failures - 1))] *)
Definition delay (n : Z) : Z := Z.min (max_backoff k) (cooldown k * 2 ^ Z.max 0 (n - 1)).

(** The second critical section: the run that began in [gen] ends. *)
Definition finish (gen : Z) (cancelled : bool) (o : outcome R) (now : Z) (s : controller) : controller :=
  let error := error_of o in
  let result := match o with Returned r => if error then None else Some r | _ => None end in
  if negb (generation s =? gen) || cancelled then
    Ctl (online s) (foreground s) (pending s) (closed s) (generation s) (attempts s) (failures s)
      (now + delay (failures s)) None (res s) (err s)
  else
    let n := if error then Z.min (failures s + 1) 16 else 0 in
    Ctl (online s) (foreground s) (pending s || wants_more (max_retries k) n error result) (closed s)
      (generation s) (attempts s) n (now + delay n) None result error.

(** One critical section, with its label. *)
Inductive event : Type :=
  | EUpdate (on fg : option bool)
  | ERequest
  | EClose
  | EStart (now : Z)
  | EFinish (o : outcome R) (now : Z).

Definition step (e : event) (s : controller) : option controller :=
  match e with
  | EUpdate on fg => Some (update on fg s).2
  | ERequest => Some (request_sync s).2
  | EClose => Some (close s)
  | EStart now =>
      match running s with
      | None => if may_start now s then Some (start s) else None
      | Some _ => None
      end
  | EFinish o now =>
      match running s with
      | Some (gen, cancelled) => Some (finish gen cancelled o now s)
      | None => None
      end
  end.

(** Runs of the controller over a sequence of events. *)
Fixpoint steps (es : list event) (s : controller) : option controller :=
  match es with
  | [] => Some s
  | e :: es => step e s ≫= steps es
  end.
End Controller.

Arguments controller : clear implicits.
Arguments event : clear implicits.
Arguments new_controller {R}.

(** ** The two policies *)

Definition TRANSIENT : list string :=
  ["timeout"; "request_failed"; "link_failed"; "full"; "rate_limited"; "unavailable"; "busy"]%string.

Definition ERRORS : list string :=
  (TRANSIENT ++ (["cancelled"; "busy"; "access_denied"; "rejected"; "invalid_response";
                 "invalid_list"; "invalid_batch"; "invalid_ciphertext"; "unexpected_message";
                 "invalid_purge_response"]%string))%list.

(** [DeliveryController]: exchanges; transient errors are retried a bounded
    number of times, and a result that left work behind asks for more. *)
#[export] Instance delivery_policy : Policy exchange_result := {|
  error_of o :=
    match o with
    | Returned _ => None
    | MailboxFailure code =>
        Some (if existsb (String.eqb code) ERRORS then code else "exchange_failed"%string)
    | OtherFailure => Some "exchange_failed"%string
    end;
  wants_more retries n error result :=
    match error with
    | Some code => existsb (String.eqb code) TRANSIENT && (n <=? retries)
    | None => match result with Some r => more r | None => false end
    end;
|}.

Definition SYNC_ERRORS : list string :=
  ["cancelled"; "timeout"; "busy"; "access_denied"; "request_failed"; "link_failed"]%string.

(** [SyncController]: pulls; a failure never retries without another event. *)
Definition sync_policy : Policy sync_result := {|
  error_of o :=
    match o with
    | Returned _ => None
    | MailboxFailure code =>
        Some (if existsb (String.eqb code) SYNC_ERRORS then code else "sync_failed"%string)
    | OtherFailure => Some "sync_failed"%string
    end;
  wants_more _ _ _ _ := false;
|}.

(** The transitions of [SyncController]. *)
Definition sync_step (k : config) : event sync_result → controller sync_result → option (controller sync_result) :=
  step (P := sync_policy) k.
