(* ===== verification/ControllerSpec.v ===== *)
(** The workers over all interleavings of callers and worker: cooldown, bounded
    retries, no result of an overtaken run, and a final close. *)
From Stdlib Require Import ZArith Lia.
From stdpp Require Import relations.
From S2P Require Import Prelude PyData Json Notices Rns Codec Subscription Store Chat Mailbox.
From S2P Require Import Controller.

Local Open Scope Z_scope.

Section Spec.
Context {R : Type} {P : Policy R} (k : config).
Implicit Types s : controller R.

(** ** The invariant *)

(** A run in progress was cancelled exactly when its generation is over, a
    closed controller holds no work and shows nothing, and it never shows a
    result and an error at once. *)
Record ctl_inv s : Prop := {
  ci_failures : 0 <= failures s <= 16;
  ci_closed : closed s = true → pending s = false ∧ res s = None ∧ err s = None
    ∧ ∀ g c, running s = Some (g, c) → c = true;
  ci_run g c : running s = Some (g, c) → g <= generation s ∧ (c = true ↔ g < generation s);
  ci_shown : res s = None ∨ err s = None;
}.

Lemma new_controller_inv : ctl_inv (new_controller (R := R)).
Proof. split; simpl; try done; try lia. by left. Qed.

Lemma cancel_run_Some run g c :
  cancel_run run = Some (g, c) → c = true ∧ ∃ c0, run = Some (g, c0).
Proof. destruct run as [[g' c0]|]; [|done]. intros [= <- <-]. eauto. Qed.

Lemma step_inv e s s' : ctl_inv s → step k e s = Some s' → ctl_inv s'.
Proof.
  intros Hi Hs. pose proof Hi as [Hf Hc Hr Hsh]. destruct e as [on fg| | |now|o now]; simpl in Hs.
  - injection Hs as <-. unfold update. destruct (closed s) eqn:Ec; [done|].
    case_match; [done|]. constructor; simpl; [lia|done| |by left].
    intros g c (-> & c0 & Hrun)%cancel_run_Some. destruct (Hr _ _ Hrun). split; [lia|]. split; [lia|done].
  - injection Hs as <-. unfold request_sync. destruct (closed s) eqn:Ec; [done|].
    by constructor.
  - injection Hs as <-. constructor; simpl; [lia| | |by left].
    + intros _. split_and!; try done. by intros g c [-> _]%cancel_run_Some.
    + intros g c (-> & c0 & Hrun)%cancel_run_Some. destruct (Hr _ _ Hrun). split; [lia|]. split; [lia|done].
  - destruct (running s) eqn:Er; [done|]. destruct (may_start now s) eqn:Em; [|done].
    injection Hs as <-. unfold may_start in Em. bools. constructor; simpl; [lia|congruence| |done].
    intros g c [= <- <-]. split; [lia|]. split; [done|lia].
  - destruct (running s) as [[g c]|] eqn:Er; [|done]. injection Hs as <-.
    destruct (Hr _ _ eq_refl) as [Hg Hcg]. unfold finish.
    destruct (negb (generation s =? g) || c) eqn:Estale.
    + constructor; simpl; [lia| |done|done]. intros Hcl. destruct (Hc Hcl) as (? & ? & ? & _). by split_and!.
    + bools. constructor; simpl; [destruct (error_of o); lia| |done|].
      * intros Hcl. destruct (Hc Hcl) as (_ & _ & _ & Hcan). specialize (Hcan _ _ eq_refl). congruence.
      * destruct (error_of o); [left; by destruct o|by right].
Qed.

Lemma steps_inv es s s' : ctl_inv s → steps k es s = Some s' → ctl_inv s'.
Proof.
  revert s. induction es as [|e es IH]; intros s Hi; simpl; [by intros [= <-]|].
  destruct (step k e s) as [s1|] eqn:E; [|done]. apply IH. by eapply step_inv.
Qed.

(** ** Closing *)

Definition is_start (e : event R) : bool := match e with EStart _ => true | _ => false end.

Lemma closed_step e s s' :
  ctl_inv s → closed s = true → step k e s = Some s' → closed s' = true ∧ is_start e = false.
Proof.
  intros [_ Hc _ _] Hcl Hs. destruct e as [on fg| | |now|o now]; simpl in Hs.
  - injection Hs as <-. unfold update. by rewrite Hcl.
  - injection Hs as <-. unfold request_sync. by rewrite Hcl.
  - by injection Hs as <-.
  - destruct (running s); [done|]. unfold may_start in Hs. by rewrite Hcl in Hs.
  - destruct (running s) as [[g c]|]; [|done]. injection Hs as <-. unfold finish. by case_match.
Qed.

(** C40: Closing is final: after [close], whatever the callers do and however the
    run in progress ends, the controller stays closed, starts no run, has no
    pending work and shows no result and no error. *)
Theorem close_is_final es0 s es s' :
  steps k es0 (new_controller (R := R)) = Some s → steps k es (close s) = Some s' →
  closed s' = true ∧ pending s' = false ∧ res s' = None ∧ err s' = None
  ∧ forallb (negb ∘ is_start) es = true.
Proof.
  intros Hreach Hes.
  assert (ctl_inv (close s)) as Hi.
  { eapply (step_inv EClose); [|done]. eapply steps_inv; [apply new_controller_inv|done]. }
  assert (closed (close s) = true) as Hcl by done. clear Hreach. revert Hi Hcl Hes.
  generalize (close s). clear s. induction es as [|e es IH]; intros s Hi Hcl Hes; simpl in Hes.
  - injection Hes as <-. destruct (ci_closed _ Hi Hcl) as (? & ? & ? & _). done.
  - destruct (step k e s) as [s1|] eqn:E; [|done].
    destruct (closed_step _ _ _ Hi Hcl E) as [Hcl1 He].
    destruct (IH s1 (step_inv _ _ _ Hi E) Hcl1 Hes) as (? & ? & ? & ? & Hall).
    simpl. by rewrite He.
Qed.

(** ** Overtaken runs *)

(** The outcome of an overtaken run is never shown.  In every reachable
    state a run in progress is cancelled exactly when the lifecycle changed (or
    the controller was closed) since it began; and when such a run ends, the
    result, the error, the failure count and the pending work stay as the
    lifecycle change left them. *)
Theorem overtaken_run_ignored es s g c o now s' :
  steps k es (new_controller (R := R)) = Some s → running s = Some (g, c) →
  step k (EFinish o now) s = Some s' →
  (c = true ↔ g < generation s)
  ∧ (g < generation s → res s' = res s ∧ err s' = err s ∧ failures s' = failures s
       ∧ pending s' = pending s ∧ running s' = None).
Proof.
  intros Hreach Hrun Hs. pose proof (steps_inv _ _ _ new_controller_inv Hreach) as Hi.
  destruct (ci_run _ Hi _ _ Hrun) as [Hg Hc]. split; [done|]. intros Hlt.
  simpl in Hs. rewrite Hrun in Hs. injection Hs as <-. unfold finish.
  rewrite (proj2 (Z.eqb_neq _ _)) by lia. done.
Qed.

(** ** Cooldown *)

Lemma delay_bounds n : check_config k = Ok () → cooldown k <= delay k n <= max_backoff k.
Proof.
  unfold check_config. intros Hc. inv_ok1. apply raise_if_Ok in Ha. apply require_Ok in Hc.
  simpl in Ha. bools. unfold delay.
  assert (2 ^ 0 <= 2 ^ Z.max 0 (n - 1)) by (apply Z.pow_le_mono_r; lia). nia.
Qed.

(** Between runs the clock of the next one is fixed. *)
Lemma quiet_next e s s' :
  running s = None → is_start e = false → step k e s = Some s' →
  running s' = None ∧ next s' = next s.
Proof.
  intros Hr Hst Hs. destruct e as [on fg| | |now|o now]; simpl in Hs.
  - injection Hs as <-. unfold update. destruct (closed s); [done|]. destruct (_ && _); [done|].
    simpl. by rewrite Hr.
  - injection Hs as <-. unfold request_sync. by destruct (closed s).
  - injection Hs as <-. simpl. by rewrite Hr.
  - done.
  - by rewrite Hr in Hs.
Qed.

(** Runs keep their distance: after a run that ended at [now], whatever the
    callers do meanwhile, the next run can begin exactly when there is work, the
    app is online and in the foreground, and the backoff since [now] is over;
    the backoff is at least the cooldown and at most the maximum. *)
Theorem cooldown_respected o now s s1 es s2 t :
  check_config k = Ok () → step k (EFinish o now) s = Some s1 → steps k es s1 = Some s2 →
  forallb (negb ∘ is_start) es = true →
  ∃ d, d = delay k (failures s1) ∧ cooldown k <= d <= max_backoff k
  ∧ (is_Some (step k (EStart t) s2) ↔
     closed s2 = false ∧ pending s2 = true ∧ online s2 = true ∧ foreground s2 = true ∧ now + d <= t).
Proof.
  intros Hk Hfin Hes Hno. exists (delay k (failures s1)). split; [done|]. split; [by apply delay_bounds|].
  assert (running s1 = None ∧ next s1 = now + delay k (failures s1)) as [Hr1 Hn1].
  { simpl in Hfin. destruct (running s) as [[g c]|]; [|done]. injection Hfin as <-. unfold finish.
    by case_match. }
  assert (running s2 = None ∧ next s2 = next s1) as [Hr2 Hn2].
  { clear Hfin Hn1. revert s1 Hr1 Hes. induction es as [|e es IH]; intros s1 Hr1 Hes; simpl in *.
    - by injection Hes as <-.
    - destruct (step k e s1) as [s3|] eqn:E; [|done]. bools.
      destruct (quiet_next _ _ _ Hr1 ltac:(done) E) as [Hr3 <-]. by apply IH. }
  simpl. rewrite Hr2. unfold may_start. rewrite Hn2, Hn1.
  destruct (closed s2), (pending s2), (online s2), (foreground s2); simpl;
    try (split; [by intros []|naive_solver]).
  destruct (Z.leb_spec (now + delay k (failures s1) - t) 0).
  - split; [intros _; split_and!; try done; lia|]. intros _. by eexists.
  - split; [by intros []|]. intros (_ & _ & _ & _ & Ht). lia.
Qed.

(** A request is not lost: pending work stays pending until a run begins
    or the controller is closed, whatever else happens, also while a run is in
    progress and however it ends. *)
Theorem request_not_lost es s s' :
  steps k es s = Some s' → pending s = true →
  forallb (λ e, negb (is_start e) && match e with EClose => false | _ => true end) es = true →
  pending s' = true.
Proof.
  revert s. induction es as [|e es IH]; intros s Hes Hp Hno; simpl in *; [by injection Hes as <-|].
  destruct (step k e s) as [s1|] eqn:E; [|done]. bools. apply (IH s1); [done| |done].
  destruct e as [on fg| | |now|o now]; simpl in *; try done.
  - injection E as <-. unfold update. destruct (closed s); [done|]. by destruct (_ && _).
  - injection E as <-. unfold request_sync. by destruct (closed s).
  - destruct (running s) as [[g c]|]; [|done]. injection E as <-. unfold finish.
    destruct (_ || c); simpl; by rewrite Hp.
Qed.
End Spec.

(** ** Retries *)

(** Events of the worker alone, its runs all failing. *)
Definition worker_failing {R} {P : Policy R} (e : event R) : bool :=
  match e with
  | EStart _ => true
  | EFinish o _ => match error_of o with Some _ => true | None => false end
  | _ => false
  end.

Definition starts {R} (es : list (event R)) : Z := zlen (filter is_start es).

Lemma starts_cons {R} (e : event R) es : starts (e :: es) = Z.b2z (is_start e) + starts es.
Proof.
  unfold starts, zlen. rewrite filter_cons. destruct (is_start e); simpl; [lia|done].
Qed.

(** The runs a controller can still begin by itself. *)
Definition budget (k : config) (s : controller exchange_result) : Z :=
  if pending s then 1 + Z.max 0 (max_retries k - failures s)
  else if running s then Z.max 0 (max_retries k - failures s) else 0.

Lemma budget_step k e s s' :
  max_retries k <= 5 → worker_failing e = true → step k e s = Some s' →
  Z.b2z (is_start e) + budget k s' <= budget k s.
Proof.
  intros Hk He Hs. destruct e as [on fg| | |now|o now]; try done; simpl in Hs.
  - destruct (running s) eqn:Er; [done|]. destruct (may_start now s) eqn:Em; [|done].
    injection Hs as <-. unfold may_start in Em. bools. unfold budget. simpl.
    rename select (pending s = true) into Hp. rewrite Hp. lia.
  - destruct (running s) as [[g c]|] eqn:Er; [|done]. injection Hs as <-.
    unfold worker_failing in He. unfold finish.
    destruct (error_of o) as [code|] eqn:Eo; [|done].
    unfold budget. rewrite Er. destruct (_ || c); simpl.
    + destruct (pending s); lia.
    + destruct (pending s); simpl; [lia|].
      destruct (Z.leb_spec (Z.min (failures s + 1) 16) (max_retries k)); case_match; bools; lia.
Qed.

(** Failures are retried a bounded number of times: left to itself with an
    exchange that keeps failing, the delivery worker begins at most
    [max_retries + 1] more runs, whatever the errors, and none when no work was
    pending or running. *)
Theorem retries_bounded k es s s' :
  check_config k = Ok () → 0 <= failures s →
  forallb worker_failing es = true → steps k es s = Some s' →
  starts es <= max_retries k + 1
  ∧ (pending s = false → running s = None → starts es = 0).
Proof.
  intros Hk Hf Hes Hs.
  assert (0 <= max_retries k <= 5) as Hr.
  { unfold check_config in Hk. inv_ok1. apply require_Ok in Hk. bools.
    by match goal with H : in_range 0 5 _ = true |- _ => apply in_range_true in H end. }
  assert (∀ es s, forallb worker_failing es = true → steps k es s = Some s' →
    starts es + budget k s' <= budget k s) as Hgen.
  { clear -Hr. induction es as [|e es IH]; intros s Hes Hs; simpl in *.
    - injection Hs as <-. unfold starts, zlen. simpl. lia.
    - destruct (step k e s) as [s1|] eqn:E; [|done]. bools. rewrite starts_cons.
      pose proof (budget_step k e s s1 ltac:(lia) ltac:(done) E). specialize (IH s1 Hes Hs). lia. }
  specialize (Hgen es s Hes Hs).
  assert (0 <= budget k s') by (unfold budget; destruct (pending s'), (running s'); lia).
  assert (0 <= starts es) by apply zlen_nonneg.
  split.
  - unfold budget in Hgen at 2. destruct (pending s), (running s); lia.
  - intros Hp Hrun. unfold budget in Hgen at 2. rewrite Hp, Hrun in Hgen. lia.
Qed.
