(* ===== verification/Local.v ===== *)
(** The serialized local API of an account (messenger/local.py): every call of
    [LocalChat] over the chat, its store and its delivery worker, with the
    stable error codes of [LocalError].  Each call runs under one lock, so it is
    one transition.  Times, random tokens and the join of the worker thread are
    arguments. *)
From Stdlib Require Import ZArith Lia.
From S2P Require Import Prelude PyData Json Notices Rns Codec Subscription Admission Store Chat.
From S2P Require Import Mailbox Controller.

Local Open Scope Z_scope.

(** [_hex(value, size)] *)
Definition _hex (value : pyval) (size : nat) : result bytes :=
  text ← of_option (LocalError "invalid_input") (as_str value);
  of_option (LocalError "invalid_input") (canonical_hex size text).

(** The text of an argument already known to be a [str]. *)
Definition str_arg (v : pyval) : pystr := default [] (as_str v).

(** [except Exception: raise LocalError(code)] and [except ValueError: ...] *)
Definition masked {A} (code : string) (m : result A) : result A :=
  try_with m (λ _, Raise (LocalError code)).
Definition maskedM {S A} (code : string) (m : M S A) : M S A := tryM m (λ _, raise (LocalError code)).
Definition mask_value {S A} (code : string) (m : M S A) : M S A :=
  tryM m (λ e, if is_ValueError e then raise (LocalError code) else raise e).

(** What a native screen may say about a name. *)
Definition BIDI : list Z := [8234; 8235; 8236; 8237; 8238; 8294; 8295; 8296; 8297].
Definition name_ok (name : pystr) : bool :=
  (zlen name <=? 80) && negb (existsb (λ c, (c <? 32) || bool_decide (c ∈ BIDI)) name).

(** [0 < len(text.encode('utf-8')) <= MAX_TEXT]; [None] when it does not encode. *)
Definition text_fits (text : pystr) : option bool :=
  (λ b, (0 <? zlen b) && (zlen b <=? MAX_TEXT)) <$> utf8_encode text.

Section Local.
Context {LX : Lxmf} {RN : Rns}.

Record card := Card {
  cd_address : pystr;
  cd_public : pystr;
  cd_fingerprint : pystr;
  cd_name : option pystr;
}.

(** [contact_card(public)] *)
Definition contact_card (public : pyval) : result card :=
  raw ← _hex public 64;
  addr ← masked "invalid_input" (address raw);
  Ok (Card (tohex addr) (str_arg public) (tohex (full_hash raw)) None).

(** The fields of [LocalChat]: [_store] and [_chat] are set and cleared
    together, so an account without [l_chat] owns no store. *)
Record local := Local {
  l_store : store;
  l_chat : option chat;
  l_delivery : option (controller exchange_result);
  l_closing : bool;
}.

Definition set_store st (l : local) : local := Local st (l_chat l) (l_delivery l) (l_closing l).
Definition set_delivery d (l : local) : local := Local (l_store l) (l_chat l) d (l_closing l).
Definition set_closing (l : local) : local := Local (l_store l) (l_chat l) (l_delivery l) true.

(** A call on the store the account owns. *)
Definition on_account {A} (m : M store A) : M local A := λ l,
  let '(r, st) := m (l_store l) in (r, set_store st l).

(** [_require_open()] *)
Definition require_open : M local chat :=
  l ← get_state;
  c ← lift (of_option (LocalError "closed") (l_chat l));
  lift (raise_if (l_closing l) (LocalError "closing"));;
  mret c.

(** [if self._delivery is not None: self._delivery.request_sync()] *)
Definition nudge : M local () :=
  modify (λ l, set_delivery ((λ d, (request_sync d).2) <$> l_delivery l) l).

(** [profile()] *)
Definition profile : M local card :=
  c ← require_open;
  lift (contact_card (PStr (tohex (ch_public c)))).

(** [enrollment_proof(device, challenge)] *)
Definition enrollment_proof (device challenge : pyval) : M local (pystr * pystr) :=
  c ← require_open;
  let public := tohex (ch_public c) in
  lift (masked "invalid_input" (
    m ← admission_message (PStr public) device challenge;
    Ok (public, tohex (sign (ch_identity c) m)))).

(** [trust_contact(public, fingerprint)] *)
Definition trust_contact (public fingerprint : pyval) : M local card :=
  cd ← lift (contact_card public);
  lift (_hex fingerprint 32);;
  lift (require (str_eqb (str_arg fingerprint) (cd_fingerprint cd)) (LocalError "fingerprint_mismatch"));;
  c ← require_open;
  lift (raise_if (str_eqb (str_arg public) (tohex (ch_public c))) (LocalError "own_contact"));;
  maskedM "contact_not_saved" (
    raw ← lift (of_option bad_hex (fromhex (str_arg public)));
    on_account (chat_trust_contact raw));;
  nudge;;
  mret cd.

(** The cards of the contacts with the names given to them. *)
Definition named (names : list (pystr * pystr)) (cd : card) : card :=
  match dget (cd_address cd) names with
  | Some name => Card (cd_address cd) (cd_public cd) (cd_fingerprint cd) (Some name)
  | None => cd
  end.

Definition cards (st : store) : result (list card) :=
  l ← mapR (λ p, contact_card (PStr p)) (st_contacts st).*2;
  Ok (List.map (named (st_names st)) l).

(** [contacts()] *)
Definition local_contacts : M local (list card) :=
  require_open;;
  l ← get_state;
  lift (masked "store_unavailable" (cards (l_store l))).

(** [rename_contact(address, name)] *)
Definition local_rename_contact (address name : pyval) : M local card :=
  lift (_hex address 16);;
  name ← lift (of_option (LocalError "invalid_input") (as_str name));
  lift (require (name_ok name) (LocalError "invalid_input"));;
  require_open;;
  mask_value "unverified_contact" (on_account (rename_contact (str_arg address) (strip name)));;
  cds ← local_contacts;
  lift (of_option StopIteration (List.find (λ cd, str_eqb (cd_address cd) (str_arg address)) cds)).

(** [queue(address, text)]; [ts] stamps the message, [now] its expiry. *)
Definition local_queue (address text : pyval) (ts : pyval) (now : Z) : M local pystr :=
  recipient ← lift (_hex address 16);
  text ← lift (of_option (LocalError "invalid_input") (as_str text));
  lift (require (default false (text_fits text)) (LocalError "invalid_input"));;
  c ← require_open;
  tryM (
    cs ← on_account contacts;
    lift (require (dmem recipient cs) (LocalError "unverified_contact"));;
    id ← on_account (queue c recipient text [] ts now);
    nudge;;
    mret id)
  (λ e, match e with LocalError _ => raise e | _ => raise (LocalError "message_not_saved") end).

(** [fields={FIELD_CUSTOM_DATA: dict(fc=1, type='edit', target=..., revision=...)}] *)
Definition edit_fields (target : pystr) (revision : Z) : list (pyval * pyval) :=
  [(PInt FIELD_CUSTOM_DATA,
    PDict [(PStr (py "fc"), PInt 1); (PStr (py "type"), PStr (py "edit"));
           (PStr (py "target"), PStr target); (PStr (py "revision"), PInt revision)])].

(** [edit_message(address, message_id, text)]: only the account's own visible
    text, at the next revision. *)
Definition edit_message (address message_id text : pyval) (ts : pyval) (now : Z) : M local pystr :=
  recipient ← lift (_hex address 16);
  lift (_hex message_id 32);;
  text ← lift (of_option (LocalError "invalid_input") (as_str text));
  fits ← lift (of_option (ValueError "UnicodeEncodeError") (text_fits text));
  lift (require fits (LocalError "invalid_input"));;
  c ← require_open;
  l ← get_state;
  let id := str_arg message_id in
  original ← lift (of_option (LocalError "invalid_input")
    (List.find (λ v, str_eqb (v_id v) id) (visible_messages (l_store l))));
  lift (require (m_outgoing (v_message original)
                 && str_eqb (m_peer (v_message original)) (str_arg address)
                 && match m_kind (v_message original) with XAudio _ _ _ => false | _ => true end)
          (LocalError "invalid_input"));;
  id ← on_account (queue c recipient text (edit_fields id (v_revision original + 1)) ts now);
  nudge;;
  mret id.

(** [fields={FIELD_AUDIO: [mode, raw]}] *)
Definition audio_fields (mode : pyval) (raw : bytes) : list (pyval * pyval) :=
  [(PInt FIELD_AUDIO, PList [mode; PBytes raw])].

(** The part [queue_audio] and [queue_radio] share once the recording is valid. *)
Definition queue_recording (recipient : bytes) (mode : pyval) (raw : bytes) (ts : pyval) (now : Z) :
    M local pystr :=
  c ← require_open;
  cs ← on_account contacts;
  lift (require (dmem recipient cs) (LocalError "unverified_contact"));;
  id ← on_account (queue c recipient [] (audio_fields mode raw) ts now);
  nudge;;
  mret id.

(** [except (ValueError, TypeError): raise LocalError('invalid_input')] *)
Definition mask_input {A} (m : result A) : result A :=
  try_with m (λ e, match e with
                   | TypeError => Raise (LocalError "invalid_input")
                   | _ => if is_ValueError e then Raise (LocalError "invalid_input") else Raise e
                   end).

(** [base64.b64decode(audio, validate=True)] *)
Definition b64_arg (s : pystr) : result bytes := of_option (ValueError "Invalid base64") (b64decode s).

(** [queue_audio(address, audio)] *)
Definition queue_audio (address audio : pyval) (ts : pyval) (now : Z) : M local pystr :=
  recipient ← lift (_hex address 16);
  audio ← lift (of_option (LocalError "invalid_input") (as_str audio));
  lift (require (zlen audio <=? 175000) (LocalError "invalid_input"));;
  raw ← lift (mask_input (raw ← b64_arg audio; finalize_recorded_opus (PBytes raw)));
  queue_recording recipient (PInt AM_OPUS_OGG) raw ts now.

(** [queue_radio(address, audio, mode, confirmed)] *)
Definition queue_radio (address audio mode confirmed : pyval) (ts : pyval) (now : Z) : M local pystr :=
  recipient ← lift (_hex address 16);
  lift (require (default false (as_bool confirmed)) (LocalError "invalid_input"));;
  audio ← lift (of_option (LocalError "invalid_input") (as_str audio));
  lift (require (zlen audio <=? 32000) (LocalError "invalid_input"));;
  raw ← lift (mask_input (raw ← b64_arg audio; radio_duration (PBytes raw) mode;; Ok raw));
  queue_recording recipient mode raw ts now.

(** [audio(message_id)]: the recording in base64, its length and its mode. *)
Definition local_audio (message_id : pyval) : M local (pystr * Z * Z) :=
  lift (_hex message_id 32);;
  require_open;;
  l ← get_state;
  m ← lift (of_option (LocalError "invalid_input") (List.find (λ m,
        str_eqb (m_id m) (str_arg message_id)
        && match m_kind m with XAudio _ _ _ => true | _ => false end) (messages (l_store l))));
  match m_kind m with
  | XAudio audio duration mode => mret (audio, duration, default 16 mode)
  | _ => raise KeyError
  end.

(** ** Reading *)

(** An entry of [history]: the message's own keys, its audio length when it is
    a recording, and its revision when it was edited. *)
Record item := Item {
  i_id : pystr;
  i_peer : pystr;
  i_text : pystr;
  i_timestamp : pyval;
  i_outgoing : bool;
  i_status : status;
  i_duration : option Z;
  i_revision : option Z;
}.

(** A message another owner left in flight is shown as queued. *)
Definition shown_status (epoch : pystr) (m : message) : status :=
  if bool_decide (m_status m = SSending) && negb (owned epoch (default [] (m_attempt m)))
  then SQueued else m_status m.

Definition item_of (epoch : pystr) (v : shown) : item :=
  let m := v_message v in
  Item (m_id m) (m_peer m) (v_text v) (p_timestamp (m_parsed m)) (m_outgoing m)
    (shown_status epoch m)
    (match m_kind m with XAudio _ duration _ => Some duration | _ => None end)
    (if v_edited v then Some (v_revision v) else None).

Record page := Page { pg_messages : list item; pg_total : Z; pg_next : option Z }.

(** The conversation with one contact. *)
Definition conversation (st : store) (address : pystr) : list item :=
  List.map (item_of (st_epoch st))
    (List.filter (λ v, str_eqb (m_peer (v_message v)) address) (visible_messages st)).

(** [history(address, offset=..., limit=...)] *)
Definition history (address offset limit : pyval) : M local page :=
  lift (_hex address 16);;
  offset ← lift (of_option (LocalError "invalid_input") (as_int offset));
  lift (require (in_range 0 1000 offset) (LocalError "invalid_input"));;
  limit ← lift (of_option (LocalError "invalid_input") (as_int limit));
  lift (require (in_range 1 100 limit) (LocalError "invalid_input"));;
  require_open;;
  l ← get_state;
  let all := conversation (l_store l) (str_arg address) in
  let result := slice (Z.to_nat offset) (Z.to_nat (offset + limit)) all in
  mret (Page result (zlen all)
          (if offset + zlen result <? zlen all then Some (offset + zlen result) else None)).

(** [inbox()] *)
Definition local_inbox : M local (list (shown * flags)) :=
  require_open;; on_account inbox.

(** [mark_inbox(ids, flag)] for a list of strings. *)
Definition mark_inbox (ids : list pystr) (flag : pystr) : M local bool :=
  require_open;;
  mask_value "invalid_input" (on_account (inbox_mark ids flag));;
  mret true.

(** [service_events()] *)
Definition local_service_events (now : Z) : M local (list announcement) :=
  require_open;; on_account (service_events None now).

(** [subscription_status(device)]; [now] in seconds. *)
Definition local_subscription_status (device : pystr) (now : Z) : M local sub_view :=
  require_open;;
  mask_value "invalid_input" (on_account (subscription_status device now)).

(** [accept_subscription_response(raw, device)] *)
Definition accept_subscription_response (raw : bytes) (device : pystr) (now : Z) :
    M local (bool * sub_view) :=
  require_open;;
  '(st, confirmed_at, event) ← lift (decode_response raw device);
  accepted ← on_account (accept_confirmed_subscription st device confirmed_at event);
  v ← on_account (subscription_status device now);
  mret (accepted, v).

(** [import_events(feed)]: [now] in nanoseconds, [at_] the whole seconds the
    feed is checked at. *)
Definition import_events (float_repr : spec_float → pystr) (feed : pyval) (at_ now : Z) :
    M local (list announcement) :=
  require_open;;
  mask_value "invalid_input" (
    events ← lift (validate_feed float_repr feed (Some (py "android")) at_);
    on_account (service_events (Some events) now)).

(** [mark_events(ids, flag)] *)
Definition mark_events (ids : list pystr) (flag : pystr) : M local bool :=
  require_open;;
  mask_value "invalid_input" (on_account (service_mark ids flag));;
  mret true.

(** ** The delivery worker *)

(** [attach_delivery] and [attach_carrier]: [made] is the outcome of building
    the mailbox, [k] the limits. *)
Definition attach (made : result ()) (k : config) : M local () :=
  require_open;;
  l ← get_state;
  lift (raise_if (if l_delivery l then true else false) (LocalError "delivery_already_attached"));;
  lift made;;
  lift (check_config k);;
  modify (set_delivery (Some new_controller)).

Definition delivery : M local (controller exchange_result) :=
  require_open;;
  l ← get_state;
  lift (of_option (LocalError "delivery_unavailable") (l_delivery l)).

(** [delivery_update(online=..., foreground=...)] *)
Definition delivery_update (on fg : pyval) : M local bool :=
  d ← delivery;
  lift (require (match on, fg with PNone, PNone | PBool _, PNone | PNone, PBool _ | PBool _, PBool _ => true | _, _ => false end)
          (ValueError "Explicit lifecycle booleans required"));;
  let '(changed, d') := update (as_bool on) (as_bool fg) d in
  modify (set_delivery (Some d'));;
  mret changed.

(** [request_sync()] *)
Definition local_request_sync : M local bool :=
  d ← delivery;
  let '(r, d') := request_sync d in
  modify (set_delivery (Some d'));;
  mret r.

(** [detach_carrier()]: [joined] tells whether the worker ended in time. *)
Definition detach_carrier (joined : bool) : M local () :=
  require_open;;
  l ← get_state;
  match l_delivery l with
  | None => mret ()
  | Some d =>
      modify (set_delivery (Some (close d)));;
      lift (require joined (LocalError "close_pending"));;
      modify (set_delivery None)
  end.

(** [delivery_state()]: the snapshot of the attached worker. *)
Definition delivery_state : M local (option (controller exchange_result)) :=
  require_open;;
  l ← get_state;
  mret (l_delivery l).

(** ** Opening and closing *)

(** [close()] *)
Definition close_account (joined : bool) : M local () :=
  modify set_closing;;
  l ← get_state;
  match l_delivery l with
  | Some d =>
      modify (set_delivery (Some (close d)));;
      lift (require joined (LocalError "close_pending"))
  | None => mret ()
  end;;
  modify (λ l, Local (l_store l) None None (l_closing l)).

(** [LocalChat(...)] over an opened store and the chat built on it, if both
    could be: damaged records are found before the account is usable. *)
Definition open_account (create : pyval) (opened : result store) (made : result chat) : result local :=
  require (if as_bool create then true else false) (LocalError "invalid_input");;
  masked "store_unavailable" (
    st ← opened;
    c ← made;
    let '(r, st) := inbox st in
    r;;
    Ok (Local st (Some c) None false)).
End Local.
