(* ===== verification/LocalSpec.v ===== *)
(** The account as its native owner sees it: a call changes no message and adds
    at most the one it asks for, refuses once the account is closing, edits and
    contacts are as asked and verified, the calls that mask their errors fail
    with codes alone, and reading a conversation page by page reads all of it. *)
From Stdlib Require Import ZArith Lia.
From stdpp Require Import relations.
From S2P Require Import Prelude PyData Json Notices Rns Codec CodecMessage Subscription Admission.
From S2P Require Import Store StoreInv StoreView Chat ChatSpec Mailbox Controller Local.

Local Open Scope Z_scope.

Section LocalSpec.
Context {LX : Lxmf} {RN : Rns}.

(** ** The calls of the API *)

Inductive call : Type :=
  | CProfile
  | CProof (device challenge : pyval)
  | CTrust (public fingerprint : pyval)
  | CContacts
  | CRename (address name : pyval)
  | CQueue (address text ts : pyval) (now : Z)
  | CEdit (address message_id text ts : pyval) (now : Z)
  | CQueueAudio (address audio ts : pyval) (now : Z)
  | CQueueRadio (address audio mode confirmed ts : pyval) (now : Z)
  | CAudio (message_id : pyval)
  | CHistory (address offset limit : pyval)
  | CInbox
  | CMarkInbox (ids : list pystr) (flag : pystr)
  | CEvents (now : Z)
  | CSubscription (device : pystr) (now : Z)
  | CAcceptResponse (raw : bytes) (device : pystr) (now : Z)
  | CImport (float_repr : spec_float → pystr) (feed : pyval) (at_ now : Z)
  | CMarkEvents (ids : list pystr) (flag : pystr)
  | CAttach (made : result ()) (k : config)
  | CUpdate (on fg : pyval)
  | CRequest
  | CDetach (joined : bool)
  | CState.

(** A call for its effect and its exception. *)
Definition perform (x : call) : M local () :=
  let void {A} (m : M local A) : M local () := m;; mret () in
  match x with
  | CProfile => void profile
  | CProof device challenge => void (enrollment_proof device challenge)
  | CTrust public fingerprint => void (trust_contact public fingerprint)
  | CContacts => void local_contacts
  | CRename address name => void (local_rename_contact address name)
  | CQueue address text ts now => void (local_queue address text ts now)
  | CEdit address message_id text ts now => void (edit_message address message_id text ts now)
  | CQueueAudio address audio ts now => void (queue_audio address audio ts now)
  | CQueueRadio address audio mode confirmed ts now => void (queue_radio address audio mode confirmed ts now)
  | CAudio message_id => void (local_audio message_id)
  | CHistory address offset limit => void (history address offset limit)
  | CInbox => void local_inbox
  | CMarkInbox ids flag => void (mark_inbox ids flag)
  | CEvents now => void (local_service_events now)
  | CSubscription device now => void (local_subscription_status device now)
  | CAcceptResponse raw device now => void (accept_subscription_response raw device now)
  | CImport float_repr feed at_ now => void (import_events float_repr feed at_ now)
  | CMarkEvents ids flag => void (mark_events ids flag)
  | CAttach made k => attach made k
  | CUpdate on fg => void (delivery_update on fg)
  | CRequest => void local_request_sync
  | CDetach joined => detach_carrier joined
  | CState => void delivery_state
  end.

(** The state after a sequence of calls, failed ones included. *)
Definition perform_all (xs : list call) (l : local) : local :=
  foldl (λ l x, (perform x l).2) l xs.

(** ** A closed account refuses *)

Definition blocked (l : local) : Prop := l_chat l = None ∨ l_closing l = true.

Definition refuses {A} (m : M local A) : Prop := ∀ l, blocked l → ∃ e, m l = (Raise e, l).

Lemma refuses_open : refuses require_open.
Proof.
  intros l Hb. unfold require_open. mrun. destruct (l_chat l) eqn:Ec; [|by eexists].
  destruct Hb as [Hb|Hb]; [congruence|]. rewrite Hb. by eexists.
Qed.

Lemma refuses_bind {A B} (m : M local A) (f : A → M local B) : refuses m → refuses (m ≫= f).
Proof. intros Hm l Hb. destruct (Hm l Hb) as [e He]. exists e. unfold mbind, M_bind. by rewrite He. Qed.

Lemma refuses_lift {A B} (r : result A) (f : A → M local B) :
  (∀ a, refuses (f a)) → refuses (lift r ≫= f).
Proof. intros Hf l Hb. unfold mbind, M_bind, lift. destruct r as [a|e]; [by apply Hf|by eexists]. Qed.

Lemma refuses_perform x : refuses (perform x).
Proof.
  destruct x; unfold perform;
    repeat first
      [ apply refuses_open
      | apply refuses_lift; intros ?
      | apply refuses_bind
      | progress unfold profile, enrollment_proof, trust_contact, local_contacts, local_rename_contact,
          local_queue, edit_message, queue_audio, queue_radio, queue_recording, local_audio, history,
          local_inbox, mark_inbox, local_service_events, local_subscription_status,
          accept_subscription_response, import_events, mark_events, attach, delivery_update,
          local_request_sync, detach_carrier, delivery_state, delivery ].
Qed.

(** Closing refuses everything: from the moment [close] begins, whether or
    not the worker could be joined, every call raises and changes nothing; and
    [close] itself, repeated until the worker is joined, releases the account. *)
Theorem close_refuses joined l x :
  (∃ e, perform x (close_account joined l).2 = (Raise e, (close_account joined l).2))
  ∧ l_chat (close_account true (close_account joined l).2).2 = None
  ∧ l_delivery (close_account true (close_account joined l).2).2 = None
  ∧ (joined = false → l_delivery l ≠ None → (close_account joined l).1 = Raise (LocalError "close_pending")
       ∧ l_chat (close_account joined l).2 = l_chat l).
Proof.
  assert (blocked (close_account joined l).2) as Hb.
  { right. unfold close_account. mrun. unfold set_closing. simpl.
    destruct (l_delivery l); [|done]. by destruct joined. }
  split; [by apply refuses_perform|]. clear Hb. unfold close_account. mrun. unfold set_closing. simpl.
  destruct (l_delivery l) eqn:Ed; simpl; destruct joined; simpl; rewrite ?Ed; done.
Qed.

End LocalSpec.

(** ** What calls do to the store *)

(** A relation between the stores before and after that every operation which
    leaves the messages alone keeps. *)
Class OffHistory (R : relation store) := {
  oh_preorder :: PreOrder R;
  oh_run o st : off_history o = true → R st (run o st);
}.

Section Walks.
Context {LX : Lxmf} {RN : Rns} (R : relation store) {OH : OffHistory R}.

Definition keeps {A} (m : M local A) : Prop := ∀ l, R (l_store l) (l_store (m l).2).
Definition walks {A} (m : M store A) : Prop := ∀ st, R st (m st).2.

Lemma walks_op {A} (m : M store A) o : off_history o = true → (∀ st, (m st).2 = run o st) → walks m.
Proof. intros Ho Hr st. rewrite Hr. by apply oh_run. Qed.

Lemma walks_bind {A B} (m : M store A) (f : A → M store B) :
  walks m → (∀ a, walks (f a)) → walks (m ≫= f).
Proof.
  intros Hm Hf st. specialize (Hm st). unfold mbind, M_bind. destruct (m st) as [[a|e] st1]; [|done].
  etransitivity; [exact Hm|apply Hf].
Qed.

Lemma walks_still {A} (m : M store A) : (∀ st, (m st).2 = st) → walks m.
Proof. intros Hm st. by rewrite Hm. Qed.

Lemma walks_lift {A} (r : result A) : walks (lift r).
Proof. by apply walks_still. Qed.

Lemma keeps_bind {A B} (m : M local A) (f : A → M local B) :
  keeps m → (∀ a, keeps (f a)) → keeps (m ≫= f).
Proof.
  intros Hm Hf l. specialize (Hm l). unfold mbind, M_bind. destruct (m l) as [[a|e] l1]; [|done].
  etransitivity; [exact Hm|apply Hf].
Qed.

Lemma keeps_still {A} (m : M local A) : (∀ l, l_store (m l).2 = l_store l) → keeps m.
Proof. intros Hm l. by rewrite Hm. Qed.

Lemma keeps_lift {A} (r : result A) : keeps (lift r).
Proof. by apply keeps_still. Qed.

Lemma keeps_ret {A} (a : A) : keeps (mret a).
Proof. by apply keeps_still. Qed.

Lemma keeps_get : keeps get_state.
Proof. by apply keeps_still. Qed.

Lemma keeps_set_delivery (f : local → option (controller exchange_result)) :
  keeps (modify (λ l, set_delivery (f l) l)).
Proof. by apply keeps_still. Qed.

Lemma keeps_nudge : keeps nudge.
Proof. apply (keeps_set_delivery (λ l, (λ d, (request_sync d).2) <$> l_delivery l)). Qed.

Lemma keeps_try {A} (m : M local A) h : keeps m → (∀ e, keeps (h e)) → keeps (tryM m h).
Proof.
  intros Hm Hh l. specialize (Hm l). unfold tryM. destruct (m l) as [[a|e] l1]; [done|].
  etransitivity; [exact Hm|apply Hh].
Qed.

Lemma keeps_raise {A} (e : exn) : keeps (raise (A := A) e).
Proof. by apply keeps_still. Qed.

Lemma keeps_account {A} (m : M store A) : walks m → keeps (on_account m).
Proof. intros Hm l. unfold on_account. specialize (Hm (l_store l)). by destruct (m (l_store l)). Qed.

Lemma keeps_open : keeps require_open.
Proof. apply keeps_still. intros l. unfold require_open. mrun. destruct (l_chat l), (l_closing l); done. Qed.

Lemma walks_contacts : walks contacts.
Proof. apply walks_still. done. Qed.

Lemma walks_inbox : walks inbox.
Proof. by apply (walks_op _ OInbox). Qed.

Lemma walks_inbox_mark ids flag : walks (inbox_mark ids flag).
Proof. by apply (walks_op _ (OInboxMark ids flag)). Qed.

Lemma walks_service_events incoming now : walks (service_events incoming now).
Proof. by apply (walks_op _ (OServiceEvents incoming now)). Qed.

Lemma walks_service_mark ids flag : walks (service_mark ids flag).
Proof. by apply (walks_op _ (OServiceMark ids flag)). Qed.

Lemma walks_rename address name : walks (rename_contact address name).
Proof. by apply (walks_op _ (ORename address name)). Qed.

Lemma walks_accept st device at_ ev : walks (accept_confirmed_subscription st device at_ ev).
Proof. by apply (walks_op _ (OSubscription st device at_ ev)). Qed.

Lemma walks_status device now : walks (subscription_status device now).
Proof. by apply walks_still. Qed.

Lemma walks_trust raw : walks (chat_trust_contact raw).
Proof.
  apply walks_bind; [apply walks_lift|]. intros addr. apply walks_bind; [|intros; by apply walks_still].
  by apply (walks_op _ (OSaveContact (tohex addr) (tohex raw))).
Qed.

End Walks.

Create HintDb keeps.
#[export] Hint Resolve keeps_lift keeps_ret keeps_get keeps_set_delivery keeps_nudge keeps_raise keeps_open
  keeps_account walks_contacts walks_inbox walks_inbox_mark walks_service_events walks_service_mark
  walks_rename walks_accept walks_status walks_trust : keeps.

(** The calls that queue nothing. *)
Definition queues {LX : Lxmf} (x : call) : bool :=
  match x with CQueue _ _ _ _ | CEdit _ _ _ _ _ | CQueueAudio _ _ _ _ | CQueueRadio _ _ _ _ _ _ => true | _ => false end.

Ltac keep :=
  repeat first
    [ solve [auto with keeps]
    | apply keeps_try; [assumption| |intros ?]
    | apply keeps_bind; [assumption| |intros ?]
    | case_match
    | apply keeps_still; [assumption|done] ].

Section Account.
Context {LX : Lxmf} {RN : Rns}.

Lemma keeps_perform R {OH : OffHistory R} x : (queues x = true → ∀ c recipient text fields ts now, walks R (queue c recipient text fields ts now)) →
  keeps R (perform x).
Proof.
  intros Hq. destruct x; unfold perform, profile, enrollment_proof, trust_contact, local_contacts,
    local_rename_contact, local_queue, edit_message, queue_audio, queue_radio, queue_recording,
    local_audio, history, local_inbox, mark_inbox, local_service_events, local_subscription_status,
    accept_subscription_response, import_events, mark_events, attach, delivery_update,
    local_request_sync, detach_carrier, delivery_state, delivery, maskedM, mask_value; keep;
    try (apply keeps_account; [assumption|by apply Hq]).
Qed.

#[export] Instance steps_off_history : OffHistory (rtc store_step).
Proof. split; [apply _|]. intros o st Ho. apply rtc_once. exists o. split; [by destruct o|done]. Qed.

(** The messages are the same. *)
Definition same_messages (st st' : store) : Prop := st_messages st' = st_messages st.
#[export] Instance same_messages_off_history : OffHistory same_messages.
Proof.
  split; [split; [by intros ?|intros ???; unfold same_messages; congruence]|]. intros o st. apply off_history_same.
Qed.

Lemma walks_queue {RNL : RnsLaws} c recipient text fields ts now : walks (rtc store_step) (queue c recipient text fields ts now).
Proof.
  intros st. destruct (queue c recipient text fields ts now st) as [[id|e] st'] eqn:E; cbn [snd]; [|by apply queue_raise in E as ->].
  apply queue_Ok in E as (cs & public & raw & p & b & _ & _ & Hpack & _ & _ & H). cbv zeta in H. set (d := Draft _ _) in H.
  apply rtc_once. exists (OAdd d raw true). split; [split; [by eapply pack_bytes|done]|]. cbn [run]. by rewrite H.
Qed.

Lemma perform_all_wf {RNL : RnsLaws} xs l : store_wf (l_store l) → store_wf (l_store (perform_all xs l)).
Proof.
  assert (rtc store_step (l_store l) (l_store (perform_all xs l))) as Hs.
  { revert l. induction xs as [|x xs IH]; intros l; simpl; [done|]. etransitivity; [apply (keeps_perform _ x); intros; apply walks_queue|].
    apply IH. }
  by apply (steps_safe _ _ Hs).
Qed.

End Account.

(** ** Reading a conversation page by page *)

Section Paging.
Context {LX : Lxmf} {RN : Rns}.

(** Follow [next_offset] until it is absent. *)
Fixpoint read_all (fuel : nat) (address limit : pyval) (offset : Z) (l : local) : result (list item) :=
  match fuel with
  | O => Raise OutOfFuel
  | S fuel =>
      p ← (history address (PInt offset) limit l).1;
      match pg_next p with
      | None => Ok (pg_messages p)
      | Some offset => rest ← read_all fuel address limit offset l; Ok (pg_messages p ++ rest)
      end
  end.

(** An account that answers. *)
Definition open_for_use (l : local) : Prop := is_Some (l_chat l) ∧ l_closing l = false.

Lemma require_open_Ok l : open_for_use l → ∃ c, l_chat l = Some c ∧ require_open l = (Ok c, l).
Proof.
  intros [[c Hc] Hcl]. exists c. split; [done|]. unfold require_open. mrun. by rewrite Hc, Hcl.
Qed.

Lemma conversation_bound st address :
  store_wf st → zlen (conversation st address) <= 1000.
Proof.
  intros Hwf. unfold conversation, zlen. rewrite length_map.
  etransitivity; [apply inj_le, (List.filter_length_le _ (visible_messages st))|].
  assert (length (visible_messages st) = length (visible_ids st)) as ->
    by (rewrite <- (visible_ids_eq _ Hwf); by rewrite length_fmap).
  unfold visible_ids. rewrite length_fmap.
  etransitivity; [apply inj_le, length_filter|]. unfold messages. rewrite length_fmap.
  apply (tw_limit _ _ _ (sw_messages _ Hwf)).
Qed.

Lemma history_eq a address limit offset l :
  open_for_use l → _hex a 16 = Ok address →
  0 <= offset <= 1000 → 1 <= limit <= 100 →
  let all := conversation (l_store l) (str_arg a) in
  history a (PInt offset) (PInt limit) l
  = (Ok (Page (slice (Z.to_nat offset) (Z.to_nat (offset + limit)) all) (zlen all)
          (let n := offset + zlen (slice (Z.to_nat offset) (Z.to_nat (offset + limit)) all) in
           if n <? zlen all then Some n else None)), l).
Proof.
  intros Hl Ha Ho Hlim all. destruct (require_open_Ok _ Hl) as (c & Hc & Hopen).
  unfold history. cbv [mbind M_bind lift]. rewrite Ha. cbn [as_int of_option].
  rewrite (proj2 (in_range_true 0 1000 offset)), (proj2 (in_range_true 1 100 limit)) by lia.
  cbn [require]. rewrite Hopen. done.
Qed.

Lemma slice_drop {A} a b (l : list A) : (a <= b)%nat → slice a b l ++ drop b l = drop a l.
Proof.
  intros Hab. unfold slice. rewrite <- (take_drop (b - a) (drop a l)) at 2. f_equal.
  rewrite drop_drop. f_equal. lia.
Qed.

(** Paging is complete: on an open account, starting at the beginning and
    following [next_offset] at any page size ends within 1001 pages and yields
    the whole conversation with the contact, each message once and in order. *)
Theorem paging_complete a address limit l :
  store_wf (l_store l) → open_for_use l → _hex a 16 = Ok address → 1 <= limit <= 100 →
  read_all 1001 a (PInt limit) 0 l = Ok (conversation (l_store l) (str_arg a))
  ∧ zlen (conversation (l_store l) (str_arg a)) <= 1000.
Proof.
  intros Hwf Hl Ha Hlim. pose proof (conversation_bound _ (str_arg a) Hwf) as Hb.
  split; [|done]. set (all := conversation _ _) in *.
  enough (∀ fuel offset, 0 <= offset <= zlen all → zlen all - offset < Z.of_nat fuel →
    read_all fuel a (PInt limit) offset l = Ok (drop (Z.to_nat offset) all)) as Hgen.
  { rewrite (Hgen 1001%nat 0); [done|split; [done|apply zlen_nonneg]|lia]. }
  intros fuel. induction fuel as [|fuel IH]; intros offset Ho Hf; [unfold zlen in *; lia|].
  simpl read_all. rewrite (history_eq a address limit offset l) by (done || lia). fold all.
  cbn [fst mbind result_bind pg_next pg_messages]. cbv zeta.
  assert (zlen (slice (Z.to_nat offset) (Z.to_nat (offset + limit)) all)
          = Z.min limit (zlen all - offset)) as Hn.
  { unfold zlen in *. rewrite length_slice. lia. }
  rewrite Hn. destruct (Z.ltb_spec (offset + Z.min limit (zlen all - offset)) (zlen all)) as [Hlt|Hge].
  - rewrite Z.min_l by lia. rewrite IH by lia. cbn [mbind result_bind].
    f_equal. apply slice_drop. lia.
  - f_equal. rewrite <- (slice_drop (Z.to_nat offset) (Z.to_nat (offset + limit))) by lia.
    rewrite (drop_ge all) by (unfold zlen in *; lia). by rewrite app_nil_r.
Qed.
End Paging.

(** ** Editing *)

Section Editing.
Context {LX : Lxmf} {LXL : LxmfLaws} {RN : Rns} {RNL : RnsLaws}.

Lemma parse_edit_fields id revision text x :
  parse_fields (edit_fields id revision) text = Ok x → x = XEdit id revision.
Proof.
  unfold edit_fields, parse_fields, keys_are_Z, lookup_Z. cbn [assoc]. rewrite key_is_Z_refl. mred.
  unfold parse_custom. custom_bools. mred. dict_simpl. intros H. inv_ok1.
  apply target_of_spec in Ha as [[= ->] _]. cbn [mbind option_bind as_int of_option result_bind] in H.
  inv_ok1. by injection H.
Qed.

(** A row appended to the history extends the loop over the edits. *)
Lemma visible_append m st :
  store_wf st → m_id m ∉ dkeys (st_messages st) → visible_kind (m_kind m) = false →
  visible_table (put m st) = apply_edit (visible_table st) m.
Proof.
  intros Hwf Hnew Hk. unfold visible_table, messages, put. simpl. rewrite dset_new by done.
  rewrite fmap_app. simpl. rewrite foldl_app. simpl. f_equal. f_equal.
  unfold visible_initial. rewrite filter_app, filter_cons, filter_nil, Hk. simpl.
  by rewrite app_nil_r.
Qed.

Lemma find_visible id st v :
  store_wf st → List.find (λ v, str_eqb (v_id v) id) (visible_messages st) = Some v →
  dget id (visible_table st) = Some v ∧ v_id v = id.
Proof.
  intros Hwf Hf. apply List.find_some in Hf as [Hin Hid]. apply str_eqb_eq in Hid. split; [|done].
  unfold visible_messages in Hin. apply in_map_iff in Hin as ([k w] & Hw & Hin). simpl in Hw. subst w.
  apply list_elem_of_In in Hin.
  assert (NoDup (dkeys (visible_table st))) as Hnd.
  { unfold visible_table. rewrite dkeys_visible, dkeys_visible_initial.
    eapply sublist_NoDup; [|apply fmap_sublist, sublist_filter]. rewrite messages_ids by done.
    apply (sw_messages _ Hwf). }
  pose proof (dget_NoDup _ _ _ Hnd Hin) as Hg.
  assert (k = id) as <-; [|done].
  apply list_elem_of_lookup in Hin as [i Hi].
  assert ((v_id <$> visible_messages st) !! i = Some (v_id v)) as E1
    by (unfold visible_messages; by rewrite !list_lookup_fmap, Hi).
  assert (dkeys (visible_table st) !! i = Some k) as E2 by (unfold dkeys; by rewrite list_lookup_fmap, Hi).
  rewrite visible_ids_eq in E1 by done. unfold visible_table in E2.
  rewrite dkeys_visible, dkeys_visible_initial in E2. unfold visible_ids in E1. congruence.
Qed.

(** Editing works: when [edit_message] returns, the message was one of the
    account's own texts to that contact, and from then on it is shown at its
    place with the new text and the next revision, everything else shown as
    before; the only other outcome is that this very signed edit was stored
    already. *)
Theorem edit_shows a i t ts now l eid l' :
  store_wf (l_store l) → edit_message a i (PStr t) ts now l = (Ok eid, l') →
  ∃ v, dget (str_arg i) (visible_table (l_store l)) = Some v
  ∧ m_outgoing (v_message v) = true ∧ m_peer (v_message v) = str_arg a
  ∧ (l_store l' = l_store l ∧ eid ∈ dkeys (st_messages (l_store l))
     ∨ ∃ w, visible_table (l_store l') = dset (str_arg i) w (visible_table (l_store l))
        ∧ v_text w = t ∧ v_revision w = v_revision v + 1 ∧ v_edited w = true
        ∧ m_id (v_message w) = str_arg i ∧ m_status (v_message w) = SQueued).
Proof.
  intros Hwf He. unfold edit_message in He.
  apply M_bind_Ok in He as (recipient & l1 & [= Hrec <-] & He).
  apply M_bind_Ok in He as (raw & l1 & [= _ <-] & He).
  apply M_bind_Ok in He as (text & l1 & [= -> <-] & He).
  apply M_bind_Ok in He as (fits & l1 & [= _ <-] & He).
  apply M_bind_Ok in He as (u & l1 & [= _ <-] & He).
  apply M_bind_Ok in He as (c & l1 & Hopen & He).
  assert (l1 = l) as ->.
  { revert Hopen. unfold require_open. mrun. destruct (l_chat l); [|done]. destruct (l_closing l); naive_solver. }
  apply M_bind_Ok in He as (l1 & l2 & [= <- <-] & He). cbv zeta in He.
  apply M_bind_Ok in He as (v & l1 & [= Hv%of_option_Ok <-] & He).
  apply M_bind_Ok in He as (u' & l1 & [= Hown%require_Ok <-] & He).
  apply M_bind_Ok in He as (id & l1 & Hq & He).
  destruct (find_visible _ _ _ Hwf Hv) as [Hget Hid]. sbools.
  exists v. split; [done|]. split; [done|]. split; [done|].
  assert (l_store l' = l_store l1 ∧ eid = id) as [-> ->].
  { revert He. unfold nudge. mrun. by intros [= <- <-]. }
  unfold on_account in Hq. destruct (queue _ _ _ _ _ _ _) as [r st1] eqn:Hqueue.
  injection Hq as -> <-. cbn [l_store set_store].
  apply queue_Ok in Hqueue as (cs & public & praw & p & b & _ & _ & Hpack & Hunp & -> & Hadd).
  destruct (unpack_packed_inv _ _ _ _ _ _ _ _ Hpack Hunp) as (Ht & _ & Hx).
  apply parse_edit_fields in Hx. cbv zeta in Hadd. apply add_Ok, add_row_Ok in Hadd.
  cbn [d_parsed with_peer p_id] in Hadd.
  destruct Hadd as [(_ & -> & [m Hin])|(_ & Hnew & _ & ->)].
  { left. split; [done|]. by eapply dget_Some_key. }
  right. set (m := new_message _ _ _).
  assert (m_kind m = XEdit (str_arg i) (v_revision v + 1)) as Hk by done.
  exists (edited v m (v_revision v + 1)). split.
  - rewrite visible_append; [|done|by apply dget_None|by rewrite Hk].
    unfold apply_edit. rewrite Hk, Hget.
    assert (editable v m = true) as ->.
    { unfold editable. apply andb_true_iff. split; [apply andb_true_iff; split|].
      - by destruct (m_kind (v_message v)).
      - apply str_eqb_eq. unfold m, m_peer. simpl.
        unfold _hex in Hrec. steps. apply canonical_hex_spec in Hrec as (_ & _ & Hc).
        unfold str_arg in *. destruct a; simplify_eq/=. unfold m_peer in *. congruence.
      - rename select (m_outgoing _ = true) into Ho. by rewrite Ho. }
    cbn [negb]. rewrite (proj2 (Z.leb_gt _ _)) by lia. done.
  - rename select (m_outgoing _ = true) into Ho.
    unfold edited. rewrite Ho. cbn. unfold v_id in Hid. done.
Qed.
End Editing.

(** ** Error codes *)

Section Errors.
Context {LX : Lxmf} {RN : Rns}.

Definition coded (e : exn) : Prop := ∃ code, e = LocalError code.

Definition stable {A} (m : M local A) : Prop := ∀ l e l', m l = (Raise e, l') → coded e.
Definition stable_result {A} (r : result A) : Prop := ∀ e, r = Raise e → coded e.

Lemma stable_bind {A B} (m : M local A) (f : A → M local B) :
  stable m → (∀ a, stable (f a)) → stable (m ≫= f).
Proof.
  intros Hm Hf l e l'. unfold mbind, M_bind. destruct (m l) as [[a|e1] l1] eqn:E; [apply Hf|].
  intros [= -> ->]. by eapply Hm.
Qed.

Lemma stable_lift {A} (r : result A) : stable_result r → stable (lift r).
Proof. intros Hr l e l' [= -> <-]. by apply Hr. Qed.

Lemma stable_total {A} (m : M local A) : (∀ l, is_ok (m l).1 = true) → stable m.
Proof. intros Hm l e l' He. specialize (Hm l). by rewrite He in Hm. Qed.

Lemma result_of_option {A} code (o : option A) : stable_result (of_option (LocalError code) o).
Proof. intros e. destruct o; intros [= <-]. by eexists. Qed.

Lemma result_require code b : stable_result (require b (LocalError code)).
Proof. intros e. destruct b; intros [= <-]. by eexists. Qed.

Lemma result_masked {A} code (r : result A) : stable_result (masked code r).
Proof. intros e. destruct r; intros [= <-]. by eexists. Qed.

Lemma result_bind {A B} (r : result A) (f : A → result B) :
  stable_result r → (∀ a, stable_result (f a)) → stable_result (r ≫= f).
Proof. intros Hr Hf e. destruct r; simpl; [apply Hf|]. intros [= <-]. by apply Hr. Qed.

Lemma result_hex v n : stable_result (_hex v n).
Proof. apply result_bind; intros; apply result_of_option. Qed.

Lemma result_card v : stable_result (contact_card v).
Proof.
  apply result_bind; [apply result_hex|]. intros raw. apply result_bind; [apply result_masked|]. by intros a e.
Qed.

Lemma stable_open : stable require_open.
Proof.
  apply stable_bind; [by apply stable_total|]. intros l.
  apply stable_bind; [apply stable_lift, result_of_option|]. intros c.
  apply stable_bind; [apply stable_lift, result_require|]. intros _. by apply stable_total.
Qed.

Lemma stable_masked {A} code (m : M local A) : stable (maskedM code m).
Proof.
  intros l e l'. unfold maskedM, tryM. destruct (m l) as [[a|e1] l1]; [done|].
  intros [= <- <-]. by eexists.
Qed.

Lemma stable_queue a t ts now : stable (local_queue a t ts now).
Proof.
  unfold local_queue. apply stable_bind; [apply stable_lift, result_hex|]. intros recipient.
  apply stable_bind; [apply stable_lift, result_of_option|]. intros text.
  apply stable_bind; [apply stable_lift, result_require|]. intros _.
  apply stable_bind; [apply stable_open|]. intros c l e l'. unfold tryM.
  match goal with |- context [match ?m with _ => _ end] => destruct m as [[id|e1] l1] end; [done|].
  destruct e1; intros [= <- <-]; by eexists.
Qed.

(** The calls that can be seen to fail with codes alone.  Those that read the
    inbox, the announcements or a recording, or set their marks, are left out:
    what sqlite or the decryption of a row raises there is not caught in the
    code, and the store of the model has no such failures. *)
Definition documented (x : call) : bool :=
  match x with
  | CProfile | CProof _ _ | CTrust _ _ | CContacts | CQueue _ _ _ _ | CRequest | CDetach _ | CState => true
  | _ => false
  end.

(** Whatever arguments a native caller passes, such a call fails with a
    [LocalError] and nothing else: what the key material and the parsing of the
    contacts raise underneath is replaced by a code. *)
Theorem failures_are_codes x l e l' :
  documented x = true → perform x l = (Raise e, l') → ∃ code, e = LocalError code.
Proof.
  intros Hx. revert l e l'. change (stable (perform x)).
  destruct x; try done; unfold perform; clear Hx;
    try (apply stable_bind; [|intros ?; by apply stable_total]);
    unfold profile, enrollment_proof, trust_contact, local_contacts, local_request_sync, detach_carrier,
      delivery_state, delivery;
    repeat first
      [ apply stable_queue | apply stable_open | apply stable_masked
      | apply stable_lift; first
          [apply result_hex | apply result_card | apply result_masked | apply result_of_option
          | apply result_require]
      | by apply stable_total
      | apply stable_bind; [|intros ?]
      | case_match ].
Qed.
End Errors.

(** ** Verified contacts *)

Section Trust.
Context {LX : Lxmf} {RN : Rns} {RNL : RnsLaws}.

Lemma hex_arg_Ok v n raw : _hex v n = Ok raw → all_bytes raw ∧ length raw = n ∧ v = PStr (tohex raw).
Proof.
  unfold _hex. intros H. steps. destruct v; simplify_eq/=.
  match goal with H : canonical_hex _ _ = Some _ |- _ => apply canonical_hex_spec in H as (? & ? & ->) end.
  done.
Qed.

(** Only a verified key becomes a contact: when [trust_contact] returns,
    the caller supplied the full key and its own fingerprint of it, the key is
    not the account's own, and the contact stored under the key's address is
    that key; every other contact is as before. *)
Theorem trust_verified public fingerprint l cd l' :
  trust_contact public fingerprint l = (Ok cd, l') →
  ∃ raw c, all_bytes raw ∧ public = PStr (tohex raw) ∧ zlen raw = 64 ∧ fingerprint = PStr (tohex (full_hash raw))
  ∧ l_chat l = Some c ∧ raw ≠ ch_public c
  ∧ let address := tohex (destination_hash raw) in
    cd = Card address (tohex raw) (tohex (full_hash raw)) None
    ∧ dget address (st_contacts (l_store l')) = Some (tohex raw)
    ∧ ∀ other, other ≠ address → dget other (st_contacts (l_store l')) = dget other (st_contacts (l_store l)).
Proof.
  unfold trust_contact. intros H.
  apply M_bind_Ok in H as (cd1 & l1 & [= Hcard <-] & H).
  apply M_bind_Ok in H as (fraw & l1 & [= Hfp <-] & H).
  apply M_bind_Ok in H as (u & l1 & [= Heq%require_Ok <-] & H).
  apply M_bind_Ok in H as (c & l1 & Hopen & H).
  assert (l1 = l ∧ l_chat l = Some c) as [-> Hc].
  { revert Hopen. unfold require_open. mrun. destruct (l_chat l); [|done]. destruct (l_closing l); naive_solver. }
  apply M_bind_Ok in H as (u' & l1 & [= Hown%raise_if_Ok <-] & H).
  apply M_bind_Ok in H as (addr & l1 & Hsave & H).
  apply M_bind_Ok in H as (u'' & l2 & Hnudge & [= -> <-]).
  unfold contact_card in Hcard. inv_ok1. inv_ok1. injection Hcard as <-.
  destruct (hex_arg_Ok _ _ _ Ha) as (Hb & Hlen & ->). apply hex_arg_Ok in Hfp as (_ & _ & ->).
  cbn [str_arg as_str default cd_fingerprint] in *. sbools.
  unfold masked, try_with, address, identity_of in Ha0. rewrite Hlen in Ha0. cbn in Ha0.
  injection Ha0 as <-. exists a, c. split; [done|]. split; [done|]. split; [by unfold zlen; rewrite Hlen|].
  split; [f_equal; exact Heq|]. split; [done|]. split; [intros ->; by apply Hown|].
  assert (l_store l2 = l_store l1) as -> by (revert Hnudge; unfold nudge; mrun; by intros [= _ <-]).
  revert Hsave. unfold maskedM, tryM. unfold mbind at 1, M_bind at 1, lift at 1.
  change (id (tohex a)) with (tohex a). rewrite (fromhex_tohex a Hb). cbn [of_option]. unfold on_account, chat_trust_contact, address, identity_of.
  rewrite Hlen. cbn [Nat.eqb Nat.leb]. unfold save_contact, transaction. mrun. unfold lift.
  cbn [require Nat.eqb mbind result_bind]. change (64 =? 64)%nat with true. cbn.
  destruct (raise_if _ _) as [u1|e1]; [|done]. cbn. intros [= _ <-]. cbn.
  split; [done|]. split; [apply dget_dset_eq|]. intros other Hne. by apply dget_dset_ne.
Qed.
End Trust.

(** ** What a call may add to the history *)

Section Queued.
Context {LX : Lxmf} {LXL : LxmfLaws} {RN : Rns} {RNL : RnsLaws}.

(** A new message of the account: its own, queued, signed by it, and packed for
    the verified key of the contact it is filed under. *)
Definition own_message (l : local) (m : message) : Prop :=
  ∃ c cs peer public raw,
    l_chat l = Some c ∧ l_closing l = false
    ∧ decode_keys (st_contacts (l_store l)) = Ok cs ∧ dget peer cs = Some public
    ∧ m_outgoing m = true ∧ m_status m = SQueued ∧ m_peer m = tohex peer ∧ m_packed m = tohex raw
    ∧ slice 0 16 raw = destination_hash public ∧ slice 16 32 raw = ch_address c ∧ signed_by (ch_public c) raw.

(** The message a call asks for: a text within the limits, such a text in place
    of a text of the account's own to the same contact, at the next revision, a
    recording as it is completed, or one of the asked radio mode, confirmed. *)
Definition asks (x : call) (l : local) (m : message) : Prop :=
  match x with
  | CQueue address text _ _ =>
      address = PStr (m_peer m) ∧ text = PStr (p_text (m_parsed m))
      ∧ text_fits (p_text (m_parsed m)) = Some true ∧ m_kind m = XText
  | CEdit address message_id text _ _ =>
      address = PStr (m_peer m) ∧ text = PStr (p_text (m_parsed m))
      ∧ text_fits (p_text (m_parsed m)) = Some true
      ∧ ∃ v, v ∈ visible_messages (l_store l) ∧ message_id = PStr (v_id v)
        ∧ m_outgoing (v_message v) = true ∧ m_peer (v_message v) = m_peer m
        ∧ (∀ audio duration mode, m_kind (v_message v) ≠ XAudio audio duration mode)
        ∧ m_kind m = XEdit (v_id v) (v_revision v + 1)
  | CQueueAudio address audio _ _ =>
      address = PStr (m_peer m) ∧ p_text (m_parsed m) = []
      ∧ ∃ s given raw duration, audio = PStr s ∧ zlen s <= 175000 ∧ b64decode s = Some given
        ∧ finalize_recorded_opus (PBytes given) = Ok raw ∧ opus_duration (PBytes raw) = Ok duration
        ∧ m_kind m = XAudio (b64encode raw) duration None
  | CQueueRadio address audio mode confirmed _ _ =>
      address = PStr (m_peer m) ∧ confirmed = PBool true ∧ p_text (m_parsed m) = []
      ∧ ∃ s raw k duration, audio = PStr s ∧ zlen s <= 32000 ∧ b64decode s = Some raw
        ∧ mode = PInt k ∧ radio_duration (PBytes raw) mode = Ok duration
        ∧ m_kind m = XAudio (b64encode raw) duration (Some k)
  | _ => False
  end.

(** After a call the messages are as they were, or it returned and there is one
    more, such as [P] allows. *)
Definition adds {A} (l : local) (m : M local A) (P : message → Prop) : Prop :=
  let '(r, l') := m l in
  same_messages (l_store l) (l_store l')
  ∨ is_ok r = true ∧ ∃ m, m_id m ∉ dkeys (st_messages (l_store l))
    ∧ st_messages (l_store l') = st_messages (l_store l) ++ [(m_id m, m)] ∧ P m.

Lemma adds_lift {A B} (r : result A) (f : A → M local B) l P :
  (∀ a, r = Ok a → adds l (f a) P) → adds l (lift r ≫= f) P.
Proof.
  intros Hf. unfold adds, mbind, M_bind, lift. destruct r as [a|e]; [by apply Hf|by left].
Qed.

Lemma adds_open {B} (f : chat → M local B) l P :
  (∀ c, l_chat l = Some c → l_closing l = false → adds l (f c) P) → adds l (require_open ≫= f) P.
Proof.
  intros Hf. unfold adds. change ((require_open ≫= f) l) with
    (match require_open l with (Ok a, s') => f a s' | (Raise e, s') => (Raise e, s') end).
  unfold require_open. mrun. destruct (l_chat l) as [c|] eqn:Hc; [|by left].
  destruct (l_closing l) eqn:Hl; [by left|]. by apply Hf.
Qed.

Lemma adds_get {B} (f : local → M local B) l P : adds l (f l) P → adds l (get_state ≫= f) P.
Proof. done. Qed.

Lemma adds_contacts {B} (f : list (bytes * bytes) → M local B) l P :
  (∀ cs, adds l (f cs) P) → adds l (on_account contacts ≫= f) P.
Proof.
  intros Hf. unfold adds, contacts, on_account, mbind, M_bind, get_state, lift.
  destruct l as [st c d cl]. cbn. destruct (decode_keys _) as [cs|e]; [apply (Hf cs)|by left].
Qed.

Lemma adds_void {A} (m : M local A) l P : adds l m P → adds l (m;; mret ()) P.
Proof. unfold adds, mbind, M_bind. by destruct (m l) as [[a|e] l1]. Qed.

Lemma adds_try {A} (m : M local A) (h : exn → M local A) l P :
  (∀ e l', ∃ e', h e l' = (Raise e', l')) → adds l m P → adds l (tryM m h) P.
Proof.
  intros Hh. unfold adds, tryM. destruct (m l) as [[a|e] l1]; [done|]. destruct (Hh e l1) as [e' ->].
  intros [?|[? _]]; [by left|done].
Qed.

Lemma adds_queue c recipient text fields ts now l P :
  l_chat l = Some c → l_closing l = false →
  (∀ m, own_message l m → m_peer m = tohex recipient → p_text (m_parsed m) = text →
    parse_fields fields text = Ok (m_kind m) → P m) →
  adds l (id ← on_account (queue c recipient text fields ts now); nudge;; mret id) P.
Proof.
  intros Hc Hl HP. unfold adds, mbind, M_bind, on_account.
  destruct (queue c recipient text fields ts now (l_store l)) as [[id|e] st'] eqn:E;
    cbn; [|apply queue_raise in E as ->; by left].
  apply queue_Ok in E as (cs & public & raw & p & b & Hcs & Hpub & Hpack & Hunp & -> & H). cbv zeta in H.
  apply add_Ok, add_row_Ok in H as [(_ & -> & _)|(_ & Hnew & _ & ->)]; [by left|].
  set (m := new_message _ raw true). right. split; [done|]. exists m.
  destruct (unpack_packed_inv _ _ _ _ _ _ _ _ Hpack Hunp) as (Ht & _ & Hx).
  destruct (unpack_authentic _ _ _ _ Hunp) as (pub & Hd & _ & Hs & Hr & _ & _).
  apply dget_elem, list_elem_of_singleton in Hd as [= Ha ->].
  split; [by apply dget_None|]. split; [unfold put; by cbn -[m]; rewrite dset_new by (by apply dget_None)|].
  apply HP; [|done|exact Ht|exact Hx]. exists c, cs, recipient, public, raw. by split_and!.
Qed.

Lemma parse_audio_fields mode raw x :
  parse_fields (audio_fields mode raw) [] = Ok x →
  ∃ k duration, mode = PInt k
    ∧ (if k =? AM_OPUS_OGG then opus_duration (PBytes raw) else radio_duration (PBytes raw) (PInt k)) = Ok duration
    ∧ x = XAudio (b64encode raw) duration (if k =? AM_OPUS_OGG then None else Some k).
Proof.
  unfold audio_fields, parse_fields, keys_are_Z, lookup_Z.
  cbn [assoc]. rewrite key_is_Z_refl. unfold key_is_Z at 1.
  rewrite (proj2 (Z.eqb_neq FIELD_AUDIO FIELD_CUSTOM_DATA) fields_distinct). mred.
  unfold parse_audio. destruct mode as [| |k| | | | |]; try done. rewrite bool_decide_true by done. mred.
  intros H. inv_ok1. injection H as <-. eauto.
Qed.

(** No radio mode is the mode of a recording. *)
Lemma radio_mode raw k duration : radio_duration raw (PInt k) = Ok duration → (k =? AM_OPUS_OGG) = false.
Proof.
  unfold radio_duration. intros H. repeat inv_ok1. apply Z.eqb_neq. intros ->.
  destruct (proj1 (NoDup_cons _ _) modes_distinct) as [Hn _]. revert Ha0. cbn in Ha. injection Ha as <-.
  unfold RADIO_FRAMES.
  repeat match goal with |- context [?a =? ?b] => destruct (Z.eqb_spec a b) as [E|_]; [exfalso; apply Hn; rewrite E; set_solver|] end.
  done.
Qed.

Lemma find_visible_row l id v :
  List.find (λ v, str_eqb (v_id v) id) (visible_messages (l_store l)) = Some v →
  v ∈ visible_messages (l_store l) ∧ id = v_id v.
Proof. intros H. apply List.find_some in H as [H Hid]. apply str_eqb_eq in Hid. by split; [apply list_elem_of_In|]. Qed.

Lemma str_Ok e v s : of_option e (as_str v) = Ok s → v = PStr s.
Proof. by destruct v as [| | | |s'| | |]; intros [= ->]. Qed.

Lemma mask_input_Ok {A} (r : result A) a : mask_input r = Ok a → r = Ok a.
Proof. unfold mask_input, try_with. destruct r as [a'|[]]; [done|..]; by intros H; simplify_eq/=; repeat case_match. Qed.

Ltac adds_args :=
  repeat first
    [ apply adds_lift; intros ? (? & ? & ->)%hex_arg_Ok
    | apply adds_lift; intros ? ->%str_Ok
    | apply adds_lift; intros ? ?%of_option_Ok
    | apply adds_lift; intros ? ?%require_Ok
    | apply adds_lift; intros ? ?
    | apply adds_open; intros c ? ?
    | apply adds_contacts; intros ? ].

Lemma adds_text address text ts now l :
  adds l (local_queue address text ts now) (λ m, own_message l m ∧ asks (CQueue address text ts now) l m).
Proof.
  unfold local_queue. adds_args. apply adds_try; [intros [] l'; by eexists|]. adds_args.
  apply adds_queue; [done|done|]. intros m Hm Hp Ht [= Hx].
  split; [done|]. cbn [asks]. rewrite Hp, Ht. split_and!; [done|done| |done].
  by destruct (text_fits _) as [[]|].
Qed.

Lemma adds_edit address message_id text ts now l :
  adds l (edit_message address message_id text ts now)
    (λ m, own_message l m ∧ asks (CEdit address message_id text ts now) l m).
Proof.
  unfold edit_message. adds_args. apply (adds_get (λ l, _)). adds_args. sbools. subst.
  rename select (List.find _ _ = _) into Hv. apply find_visible_row in Hv as [Hv Hid].
  rewrite Hid in *.
  apply adds_queue; [done|done|]. intros m Hm Hp Ht Hx%parse_edit_fields. split; [done|].
  cbn [asks]. cbn in Hid. rewrite Hp, Ht, Hid. split_and!; [done|done|done|].
  eexists. split_and!; [exact Hv|done|done|done| |exact Hx].
  intros audio duration mode Hk. by rewrite Hk in *.
Qed.

Lemma adds_audio address audio ts now l :
  adds l (queue_audio address audio ts now) (λ m, own_message l m ∧ asks (CQueueAudio address audio ts now) l m).
Proof.
  unfold queue_audio, queue_recording. adds_args. apply adds_queue; [done|done|]. intros m Hm Hp Ht Hx.
  apply parse_audio_fields in Hx as (k & duration & [= <-] & Hd & Hk). rewrite Z.eqb_refl in Hd, Hk.
  rename select (mask_input _ = _) into Hraw. apply mask_input_Ok, bind_Ok in Hraw as (given & Hg & Hraw).
  apply of_option_Ok in Hg. split; [done|]. cbn [asks]. rewrite Hp, Ht. split_and!; [done|done|].
  do 4 eexists. split_and!; [done|lia|done|done|done|done].
Qed.

Lemma adds_radio address audio mode confirmed ts now l :
  adds l (queue_radio address audio mode confirmed ts now)
    (λ m, own_message l m ∧ asks (CQueueRadio address audio mode confirmed ts now) l m).
Proof.
  unfold queue_radio, queue_recording. adds_args. apply adds_queue; [done|done|]. intros m Hm Hp Ht Hx.
  rename select (mask_input _ = _) into Hraw.
  apply mask_input_Ok, bind_Ok in Hraw as (given & Hg & Hraw). inv_ok1. injection Hraw as ->.
  apply of_option_Ok in Hg. apply parse_audio_fields in Hx as (k & duration & -> & Hd & Hk).
  rewrite (radio_mode _ _ _ Ha) in Hd, Hk.
  split; [done|]. cbn [asks]. rewrite Hp, Ht. split_and!; [done|by destruct confirmed as [|[]| | | | | |]|done|].
  do 4 eexists. split_and!; [done|lia|done|done|done|done].
Qed.

(** C7: What the account's API may do to the history, whatever the call, its
    arguments and the account's state: no message changes, and at most one is
    added - only by a call that returns, on an open account, signed by the
    account, packed for the verified key of the contact it is filed under, and
    saying what the call asked for within the limits; an edit replaces a text
    of the account's own to that contact, at its next revision. *)
Theorem calls_admissible x l : adds l (perform x) (λ m, own_message l m ∧ asks x l m).
Proof.
  destruct (queues x) eqn:Hx.
  2: { unfold adds. pose proof (keeps_perform same_messages x) as H. rewrite Hx in H. specialize (H ltac:(done) l).
       by destruct (perform x l); left. }
  destruct x; try done; clear Hx; unfold perform; apply adds_void;
    auto using adds_text, adds_edit, adds_audio, adds_radio.
Qed.

End Queued.
