(* ===== verification/LocalExamples.v ===== *)
(** The workers at concrete runs, and an account in use: the theorems about
    the controller and the local interface are applied there. *)
From Stdlib Require Import ZArith Lia.
From stdpp Require Import relations.
From S2P Require Import Prelude PyData Json Notices Rns RnsModel Codec CodecMessage Subscription Admission.
From S2P Require Import Store StoreInv StoreView StoreExamples Chat ChatSpec MailboxExamples Mailbox Controller.
From S2P Require Import Local LocalSpec ControllerSpec.

Local Open Scope Z_scope.

(** [DeliveryController(mailbox)] with its defaults: 4 s, 300 s, 12 s, 3. *)
Definition defaults : config := Config (4 * SECOND) (300 * SECOND) (12 * SECOND) 3.

Definition ready : event exchange_result := EUpdate (Some true) (Some true).
Definition timeout : outcome exchange_result := MailboxFailure "timeout"%string.

(** Come online, begin a run, go offline while it is under way. *)
Definition overtaken : controller exchange_result :=
  default new_controller
    (steps defaults [ready; EStart 0; EUpdate (Some false) None] (new_controller (R := exchange_result))).

Lemma close_is_final_witness :
  let s := default new_controller (steps defaults [ready; EStart 0] (new_controller (R := exchange_result))) in
  let s' := default new_controller (steps defaults [ERequest; EFinish timeout 5; ready] (close s)) in
  closed s' = true ∧ pending s' = false ∧ res s' = None ∧ err s' = None
  ∧ forallb (negb ∘ is_start) [ERequest; EFinish timeout 5; ready] = true.
Proof.
  intros s s'.
  apply (close_is_final defaults [ready; EStart 0] s [ERequest; EFinish timeout 5; ready] s');
    vm_compute; reflexivity.
Defined.

Lemma overtaken_run_ignored_witness :
  let s' := default new_controller (step defaults (EFinish timeout 5) overtaken) in
  err s' = None ∧ failures s' = 0 ∧ running s' = None.
Proof.
  intros s'.
  destruct (overtaken_run_ignored defaults [ready; EStart 0; EUpdate (Some false) None] overtaken
    1 true timeout 5 s') as [_ H]; try (vm_compute; reflexivity).
  destruct (H ltac:(vm_compute; reflexivity)) as (_ & He & Hf & _ & Hr).
  rewrite He, Hf, Hr. by vm_compute.
Defined.

Lemma cooldown_respected_witness :
  let s1 := default new_controller (steps defaults [ready; EStart 0; EFinish timeout 5] (new_controller (R := exchange_result))) in
  let s2 := default new_controller (steps defaults [ERequest] s1) in
  step defaults (EStart (5 + 3 * SECOND)) s2 = None.
Proof.
  intros s1 s2.
  eassert (∃ d, d = _ ∧ _ <= d <= _ ∧ _) as (d & _ & Hd & Hiff).
  { apply (cooldown_respected defaults timeout 5
      (default new_controller (steps defaults [ready; EStart 0] (new_controller (R := exchange_result))))
      s1 [ERequest] s2 (5 + 3 * SECOND)); vm_compute; reflexivity. }
  destruct (step defaults (EStart (5 + 3 * SECOND)) s2) eqn:E; [|done].
  destruct Hiff as [Hi _]. destruct (Hi ltac:(by eexists)) as (_ & _ & _ & _ & Ht).
  unfold defaults, cooldown, SECOND in *. lia.
Defined.

Lemma request_not_lost_witness :
  let s := default new_controller (steps defaults [ready; EStart 0; ERequest] (new_controller (R := exchange_result))) in
  let s' := default new_controller (steps defaults [EFinish timeout 5; EUpdate (Some false) None] s) in
  pending s' = true.
Proof.
  intros s s'.
  apply (request_not_lost defaults [EFinish timeout 5; EUpdate (Some false) None] s s');
    vm_compute; reflexivity.
Defined.

(** Three retries with a growing backoff, and no fourth. *)
Definition failing : list (event exchange_result) :=
  [EStart 0; EFinish timeout 0; EStart (15 * SECOND); EFinish timeout (15 * SECOND);
   EStart (23 * SECOND); EFinish timeout (23 * SECOND); EStart (39 * SECOND);
   EFinish timeout (39 * SECOND)].

Lemma retries_bounded_witness :
  starts failing <= 4
  ∧ steps defaults (failing ++ [EStart (1000 * SECOND)])
      (default new_controller (step defaults ready new_controller)) = None.
Proof.
  split; [|vm_compute; reflexivity].
  apply (retries_bounded defaults failing (default new_controller (step defaults ready new_controller))
    (default new_controller (steps defaults failing (default new_controller (step defaults ready new_controller)))));
    vm_compute; done.
Defined.

(** The outcome of a call decides it: the state it leaves is not spelled out. *)
Lemma call_outcome {S A} (r : result A * S) o : r.1 = o → r = (o, r.2).
Proof. destruct r. by intros <-. Qed.

(** Alice's account, Bob a verified contact, a worker attached. *)
Definition account : local := Local alice_store (Some alice_chat) (Some new_controller) false.
Definition bob_address : pyval := PStr (tohex (ch_address bob_chat)).

Definition id_of (r : result pystr) : pystr := match r with Ok id => id | Raise _ => [] end.

(** Three messages to Bob, then a correction of the last one. *)
Definition conversation_calls : list call :=
  [CQueue bob_address (PStr (py "one")) (PInt 1700000000) 5;
   CQueue bob_address (PStr (py "two")) (PInt 1700000001) 6;
   CQueue bob_address (PStr (py "tree")) (PInt 1700000002) 7].
Definition talking : local := perform_all conversation_calls account.
Definition last_id : pyval :=
  PStr (default [] (v_id <$> last (visible_messages (l_store talking)))).
Abbreviation correction :=
  (edit_message bob_address last_id (PStr (py "three")) (PInt 1700000003) 8 talking).

Definition edit_id : pystr := id_of correction.1.

Lemma account_wf : store_wf (l_store account).
Proof.
  assert (walks (rtc store_step) (chat_trust_contact (ch_public bob_chat))) as Hw by apply walks_trust, _.
  apply (steps_safe _ _ (Hw (new_store (py "alice")))), new_store_wf.
Qed.

Lemma talking_wf : store_wf (l_store talking).
Proof. unfold talking. apply perform_all_wf, account_wf. Qed.

(** The correction as a call adds one message, and one it may. *)
Definition correction_call : call := CEdit bob_address last_id (PStr (py "three")) (PInt 1700000003) 8.

Lemma calls_admissible_witness :
  length (st_messages (l_store (perform correction_call talking).2)) = 4%nat
  ∧ ∃ m, own_message talking m ∧ asks correction_call talking m.
Proof.
  assert (length (st_messages (l_store (perform correction_call talking).2)) = 4%nat) as Hafter by (vm_compute; reflexivity).
  split; [exact Hafter|].
  assert (length (st_messages (l_store talking)) = 3%nat) as Hbefore by (vm_compute; reflexivity).
  pose proof (calls_admissible correction_call talking) as H. unfold adds in H.
  destruct (perform correction_call talking) as [r l']. destruct H as [H|(_ & m & _ & _ & Hm)].
  - exfalso. cbn [snd] in Hafter. unfold same_messages in H. rewrite H, Hbefore in Hafter. discriminate Hafter.
  - exists m. exact Hm.
Defined.

Definition texts (st : store) : list pystr := List.map v_text (visible_messages st).

Lemma edit_shows_witness :
  texts (l_store talking) = [py "one"; py "two"; py "tree"]
  ∧ texts (l_store correction.2) = [py "one"; py "two"; py "three"]
  ∧ ∃ v, dget (str_arg last_id) (visible_table (l_store talking)) = Some v
      ∧ m_outgoing (v_message v) = true.
Proof.
  split; [vm_compute; reflexivity|]. split; [vm_compute; reflexivity|].
  assert (correction = (Ok edit_id, correction.2)) as He by (apply call_outcome; vm_compute; reflexivity).
  destruct (edit_shows bob_address last_id (py "three") (PInt 1700000003) 8 talking edit_id correction.2
              talking_wf He) as (v & Hv & Ho & _).
  exists v. split; [exact Hv|exact Ho].
Defined.

Lemma paging_complete_witness :
  read_all 1001 bob_address (PInt 2) 0 talking
  = Ok (conversation (l_store talking) (tohex (ch_address bob_chat)))
  ∧ zlen (conversation (l_store talking) (tohex (ch_address bob_chat))) = 3.
Proof.
  assert (open_for_use talking) as Hopen.
  { split; [|vm_compute; reflexivity].
    apply (bool_decide_unpack (is_Some (l_chat talking))). vm_compute. exact I. }
  assert (_hex bob_address 16 = Ok (ch_address bob_chat)) as Haddr by (vm_compute; reflexivity).
  destruct (paging_complete bob_address (ch_address bob_chat) 2 talking talking_wf Hopen Haddr
              ltac:(lia)) as [Hread _].
  split; [exact Hread|vm_compute; reflexivity].
Defined.

Lemma failures_are_codes_witness :
  ∃ code, (perform (CQueue bob_address (PStr []) (PInt 0) 0) account).1 = Raise (LocalError code).
Proof.
  assert (perform (CQueue bob_address (PStr []) (PInt 0) 0) account
          = (Raise (LocalError "invalid_input"), (perform (CQueue bob_address (PStr []) (PInt 0) 0) account).2))
    as He by (apply call_outcome; vm_compute; reflexivity).
  destruct (failures_are_codes (CQueue bob_address (PStr []) (PInt 0) 0) account _ _ eq_refl He)
    as [code Hc].
  exists code. by rewrite He, Hc.
Defined.

(** Bob's key with its fingerprint, entered at an account that knows nobody. *)
Definition lonely : local := Local (new_store (py "alice")) (Some alice_chat) None false.
Definition bob_key : pyval := PStr (tohex (ch_public bob_chat)).
Definition bob_print : pyval := PStr (tohex (toy_hash (ch_public bob_chat))).

Definition bob_card : card :=
  Card (tohex (ch_address bob_chat)) (tohex (ch_public bob_chat)) (tohex (toy_hash (ch_public bob_chat))) None.

Lemma trust_verified_witness :
  dget (tohex (ch_address bob_chat)) (st_contacts (l_store (trust_contact bob_key bob_print lonely).2))
  = Some (tohex (ch_public bob_chat)).
Proof.
  assert (trust_contact bob_key bob_print lonely = (Ok bob_card, (trust_contact bob_key bob_print lonely).2))
    as Hcd by (apply call_outcome; vm_compute; reflexivity).
  destruct (trust_verified bob_key bob_print lonely bob_card _ Hcd)
    as (raw & c & Hb & Hk & _ & _ & _ & _ & _ & Hc & _).
  assert (raw = ch_public bob_chat) as ->; [|exact Hc].
  apply tohex_inj; [exact Hb|apply fit_bytes|].
  unfold bob_key in Hk. congruence.
Defined.

(** A lone surrogate reaches the owner as an exception of the codec: editing is
    not among the documented calls. *)
Theorem edit_leaks_encoding_error :
  (perform (CEdit bob_address last_id (PStr [55296]) (PInt 0) 0) talking).1
  = Raise (ValueError "UnicodeEncodeError").
Proof. vm_compute. reflexivity. Qed.
